(* ===== verification/_CoqProject ===== *)
-Q . S2P
Prelude.v
GoStrings.v
Encoding.v
Json.v
Text.v
Url.v
Auth.v
StepUp.v
ConnectorAuth.v
AuditTrail.v
Credentials.v
KeyManager.v
Protocol.v
Model.v
Store.v
CloudflareProvider.v
CloudflareExecution.v
Runbook.v
Ledger.v
RunbookHandler.v
Identity.v
Broker.v
Persistence.v
Postgres.v
PostgresStore.v
PostgresRefinement.v
Coordinator.v
Snapshot.v
SshConnector.v
ConnectorWebSSH.v
RateLimit.v
TerminalSession.v
Anomaly.v
Analysis.v
Prog.v
ConnectorService.v
ConnectorSystem.v
ConnectorClient.v
SshSession.v
Gateway.v
GatewaySystem.v
WebSSHPath.v
Api.v
ApiJobs.v
ApiWorkers.v
ApiScope.v
ApiDemo.v
ApiRoutes.v
ApiOutcomes.v
ApiHosts.v
ApiRunbooks.v
Environment.v
ConnectorMain.v
AiGateway.v
PostgresOpen.v
ControlPlaneMain.v
PostgresReads.v
PostgresGaps.v
