(* ===== verification/Prelude.v ===== *)
(** * VPS Manager: verification of the control plane and the Connector

    VPS Manager administers Linux servers and Cloudflare Workers from one
    place.  A _control plane_ ([src/services/control-plane]) holds the users'
    sessions, the host inventory, sealed credentials, jobs and audit events; a
    _Connector_ ([src/services/connector]) is the only process that opens SSH
    connections, and runs reviewed _runbooks_ ([src/services/runbook]) on
    approved requests; a WebSSH gateway ([src/services/websshgateway]) hands out
    terminal tickets and joins browsers to the terminals of the Connector; [src/services/persistence] stores records and coordinates
    tasks; [src/services/cloudflareprovider] uploads and deploys Workers;
    [src/services/ai] explains the findings of anomaly scans.  The Go code of
    these services is the subject of this library; the web front end is not.

    ** How the Go code is read

    A Go function becomes a Gallina function of the same name.  A method that
    changes its receiver takes the state as a record and returns the new state
    with its result; the mutex of the receiver makes one call one step, and
    the theorems about concurrent callers quantify over every sequence of such
    steps, given as an inductive step relation per component.  Where a
    handler gives up the lock while it works ([handleExecute], [Issue] of the
    broker), the model is cut there, so that other calls can come in between.
    The handlers of the HTTP API, of the Connector and of the gateway hold no
    lock across their steps: each is a _program_
    (file Prog) of atomic steps, one per call of a component, and its theorems
    hold for a program run alone, with an environment that acts before every
    step, or in a pool of any number of programs that interleave.
    [(T, error)] is [result E T]; early returns are the [require] notation of
    this file.  [uint64] is a [Z] reduced by [u64]; [time.Time] is nanoseconds
    since Go's zero time and every reading of the clock is an argument, as are
    random bytes.  Go maps are [gmap]s; the order in which a [range] visits
    them is an argument wherever the code could depend on it.  Strings are
    byte strings, with UTF-8 decoding as Go does it.

    Code that is not in the repository is a parameter: SHA-256, HMAC, AES-GCM
    and Ed25519, the SSH library and its keys, IP address parsing and DNS, the
    factor verifier of the identity provider, the Redis server, the Cloudflare
    API with its clock and token source, the AI gateway, the Vault server, the
    PostgreSQL server with its collation, [jsonb] and the codecs of its JSON
    columns, the operating system with its files and sockets, URL and duration
    parsing, the
    WebSocket library (frames that are read, outcomes of writes), the Unicode
    category table.  The hypotheses on them are type classes ([GCMLaws],
    [KMS], [RedisLaws]) or conclusions of the form "or the hash collides", and each
    has an instance that a witness uses.  Decoding JSON into the request
    structs of the handlers ([StrictDecode]) and the claims of an assertion is a
    parameter too; where the repository inspects JSON itself, [encoding/json] is
    modelled (file Json).  To the API the Connector, the WebSSH broker, the SSH
    client and the analyzer are functions that answer a request; what the API
    sends them is recorded in the history variable [sent] of its state.

    ** Files

    - Prelude: results, machine integers, time, maps, the tactics.
    - GoStrings, Encoding, Json, Text, Url: [strings], [unicode/utf8], [sort.Strings],
      [base64.RawURLEncoding], [hex], [strconv] and [encoding/json] as far as the code
      uses them, with their round trips.
    - Auth: [internal/auth/auth.go], sessions and the role table.
    - StepUp: [internal/stepup/manager.go], step-up tickets.
    - ConnectorAuth: [connector-protocol/auth.go], signed requests and the
      replay cache.
    - AuditTrail: [internal/audit/audit.go], redaction of audit details.
    - Credentials: [internal/credentials] and [keymanager/context.go], envelope
      encryption against a key service interface.
    - KeyManager: [keymanager/], Vault transit and the in-memory manager, with
      the token file and the canonical encryption context.
    - Protocol: messages of [connector-protocol] and [ai/types.go] (data only).
    - Model: [internal/model], the records and the job state machine.
    - Store: [internal/store/memory.go], [cloudflare.go] and
      [cloudflare_execution.go], the control plane's repository.
    - CloudflareProvider: [cloudflareprovider/], the API client: requests,
      operations, polling and the idempotency table.
    - CloudflareExecution: [internal/api/cloudflare_execution.go], the run of
      one deployment against the provider and the repository.
    - Runbook: [runbook/], the catalog with its literal commands, the scope
      digest and the executor.
    - Ledger: [connector/service/runbook_ledger.go], idempotency of executions.
    - RunbookHandler: [connector/service/runbook_handler.go], the two endpoints
      that compose ConnectorAuth, Runbook and Ledger.
    - Identity: [internal/identity/assertion.go], signed identity assertions.
    - Broker: [websshgateway/broker.go], [validation.go] and the ticket
      consumption of [websocket.go].
    - ConnectorWebSSH, RateLimit, TerminalSession: [connector/service/webssh.go],
      the ticket tables and the credentials in memory, the token bucket in
      [float64], the two goroutines of a terminal.
    - ConnectorClient: [connector-protocol/client.go] and [runbook_client.go],
      the signed calls of the control plane and their answers.
    - ConnectorService: [connector/service/server.go] and the handlers of
      [webssh.go] as programs.  ConnectorSystem: the running Connector.
    - Gateway: [websshgateway/websocket.go] and the rest of [broker.go] and
      [validation.go] as programs.  GatewaySystem: the running gateway.
      WebSSHPath: gateway and Connector together.
    - Persistence: [persistence/types.go] and [memory.go], record validation,
      the JSON boundary and the in-memory repository.
    - Coordinator: [persistence/coordinator.go], leases, idempotency records
      and cancellation in memory and on Redis.
    - Snapshot: [internal/snapshot/collector.go], the parser of host snapshots.
    - SshConnector: [connector/sshconnector/catalog.go] and [client.go], the
      command catalog, the destination policy, host keys, the output budget.
    - SshSession: the connections of [connector/sshconnector]: dialling, the
      handshake, commands, runbook steps and terminals, as traces of calls.
    - Postgres: [persistence/postgres.go], [controlplane.go] and
      [cloudflare_execution.go], every statement over tables with the checks and
      keys of [migrations/], with faults and transactions.
    - PostgresStore: [internal/store/postgres.go] and
      [postgres_cloudflare_execution.go], the adapter of the control plane.
    - PostgresRefinement, PostgresReads, PostgresGaps: the adapter against Store.
    - PostgresOpen: opening the pool, with the check of role and privileges.
    - Anomaly: [internal/anomaly/scanner.go], process inventories and rules.
    - Analysis: [ai/validation.go], [fallback.go], [types.go] and [Analyze] of
      [analyzer.go], the contract of an analysis.
    - AiGateway: the rest of [ai/] and [internal/aianalysis]: strict decoding,
      the endpoint, the token file, the request, the configuration.
    - Prog: programs of atomic steps, with a rely-guarantee judgement for every
      step, one for outcomes and one for owned resources.
    - Api, ApiJobs, ApiWorkers: [internal/api], every handler and goroutine,
      with the collector of [internal/snapshot].
    - ApiScope, ApiRoutes: every step of every handler stays in scope; the route
      table and the running system.
    - ApiOutcomes, ApiHosts, ApiRunbooks: what becomes of jobs, host keys,
      credentials and approvals.  ApiDemo: a small concrete control plane.
    - Environment, ConnectorMain, ControlPlaneMain: [cmd/connector] and
      [cmd/control-plane], the configuration and the start of both processes.

    ** What the theorems show

    The control plane as a whole (ApiRoutes, ApiOutcomes, ApiHosts,
    ApiRunbooks): whatever requests, goroutines and callbacks run, in any
    interleaving, hosts, credentials, jobs and workers outside the scope of the
    sessions are neither changed nor shown and nothing is sent to them; a job
    that was queued always ends with a result or a reason, and nothing is sent
    for it once its session is revoked; a pinned key has the fingerprint that
    was verified, and moving a host forgets it; an accepted credential opens
    for the jobs of its host where the key service unwraps, and does not where it
    only wraps; an accepted command is found when its job runs, an
    accepted Worker passes the checks of the Cloudflare client; a runbook is sent
    to the Connector only as previewed and approved, once.

    What hosts and gateways answer (Snapshot, Anomaly, Analysis,
    SshConnector): parsed output is bounded and safe whatever the host prints;
    the rules report exactly what they say; every analysis that is returned
    keeps the contract; the AI gateway is reached only at the allowed endpoint
    with a safely stored token, and its answers are decoded strictly; a snapshot
    says exactly what the first line of each field says; the destination policy
    accepts exactly the addresses outside the ranges it lists, with the ranges it
    looks at for an address with a zone; both output streams together stay within
    the limit.

    Terminals (ConnectorSystem, GatewaySystem, WebSSHPath): in every
    interleaving of handlers, pruning and shutdown the Connector acts only for
    authenticated requests and opens a terminal only with the material of an
    issued ticket, once; the gateway presents a ticket only for a binding the
    authorizer granted; limits hold, handlers that have returned leave no slot
    and no count behind, no credential stays in memory but those of outstanding
    tickets and those of authenticated requests whose body the decoder refused,
    every connection that was audited is audited as ended.  The request for a
    ticket carries the binding, target, key and credential the gateway was asked
    for; its ticket passes through both and is accepted with them; the
    shell receives exactly what was typed, the browser a well-formed
    sequence of messages.

    Durable storage (PostgresRefinement, PostgresReads, PostgresOpen,
    PostgresGaps): whatever statements fail or lose their answer, a request to
    the PostgreSQL repository leaves rows that represent the old or the new
    state of the in-memory repository (a failed deletion of a host may also have
    removed its credential), and a success has its answer; reads by key and
    listings below the row limit agree with it; the role that is accepted at the start has the privileges the
    statements need and none of those it must not have.

    Processes (ConnectorMain, ControlPlaneMain, ConnectorClient, SshSession):
    the Connector listens where only the host reaches it and runs with the
    configured limits and origins; a control plane outside development mode keeps every
    production rule, and a start that fails closes what it opened,
    the database pool included; a terminal request of the client is authenticated and
    issued as sent; an SSH connection authenticates only after the pinned key
    was presented, and closes everything it opened, a terminal when it is closed.

    Cloudflare (CloudflareProvider, CloudflareExecution): a deployment that was
    claimed is settled by its executor, whatever the provider does and other
    executions of the deployment do meanwhile; one call
    per idempotency key is in flight; polling ends.

    Approved execution (RunbookHandler, Runbook, Ledger): the SSH runner does
    something only for an authenticated request whose approval names exactly the
    verified keys, target, parameters and catalog plan; it runs a prefix of the
    plan in order; commands are catalog literals; under every interleaving a job
    is in flight at most once and the configured number of runs is never
    exceeded; the approved digest determines what is run.

    Single use (StepUp, ConnectorAuth, Identity, Broker, Auth): a ticket, signed
    request or assertion that was presented is never accepted again, whatever
    happens in between, and is accepted before that exactly for its binding and
    lifetime; a revoked session never authenticates; authorization is
    exactly role and host scope.

    Data (Store, Model, Persistence): the operations that the handlers run keep
    the repository consistent, the references of credentials, tokens, versions and
    deployments included (a job may outlive its host); jobs and deployments follow their
    state machines and at most one executor starts a deployment; the
    persistence repository refines tables keyed by installation and id,
    installations do not see each other, and following cursors visits every
    record once; payloads with secret-bearing keys are refused.

    Leases (Coordinator): a class states what callers rely on; both
    implementations satisfy it; from it follow mutual exclusion and the
    first-writer rule for idempotency keys, on Redis for any loss of messages; a
    command that the client library sends again counts as another operation.

    Confidentiality (Credentials, KeyManager, AuditTrail): sealed credentials open to the
    same bytes under the same context and under no other unless AES-GCM is
    broken, also when Vault wraps the data key for an identity that can only
    unwrap, while the sealing identity cannot; redacted details hold no value under a
    secret key, at any depth of maps, slices and pointers.

    Deviations: a credential that was decoded from a body the decoder then refuses
    is not wiped (ConnectorSystem), and structs in audit details are not looked
    into (AuditTrail); a host-key request that races with another replaces a key
    without the permission, and an update accepts an address a creation
    refuses (ApiHosts); a host can suppress its own anomaly report (Analysis);
    some reserved addresses, and reserved ones with a zone, pass the destination
    policy (SshConnector); at one boundary instant a signed request can be replayed
    (ConnectorAuth); NUL bytes make two step-up bindings share a digest
    (StepUp); at capacity the ledger forgets an executed job (Ledger); a
    repeated JSON member hides a secret from the persistence check
    (Persistence); only the first file system of a host is reported (Snapshot);
    audit events without details, hosts without labels and cancellations of
    queued jobs are refused by the PostgreSQL repository, and deleting a host
    with jobs removes its credential only (PostgresGaps); in development mode
    nil pointers stored in interfaces pass for a Connector and an identity
    bridge (ControlPlaneMain).

    ** Bounds and fuel

    Six functions take fuel.  The JSON parser gets two calls per byte
    and two more; [parse_any_fuel] shows that more changes nothing.  Following
    cursors gets one call per record and one for the empty page; the theorems
    ask for no more.  [strings.TrimSpace] removes at most one rune per byte, which
    is its fuel, and cutting a text to a byte limit removes at least one byte
    per rune, so its length is enough.  Waiting for a deployment gets the
    fuel [polling_terminates] proves sufficient.  Writing to a shell gets one
    call per byte and one more ([write_all_received]).  Everything else is structural.

    ** Not modelled

    Not modelled because they only move bytes or set options of libraries: HTTP
    routing by [net/http], TLS and connection settings of transports, the
    cryptography of the SSH handshake, signal handling and the serve loops of the two
    processes, the texts of log lines and the [String] methods that redact
    values in them.  The wiping of buffers is modelled where a theorem is about
    it (Credentials, ConnectorWebSSH).  The permission checks of
    the AI token file on Windows and on other Unix systems are left out; the
    Linux ones are in AiGateway.  In Postgres one call of
    the repository runs without statements of other calls in between; its
    faults are failures and lost answers.  [ListAudits] is modelled and left
    out of the refinement. *)

From Stdlib Require Export Ascii.
From stdpp Require Export base gmap strings list fin_maps pretty option sorting.
From Stdlib Require Export ZArith Lia.

#[export] Set Default Proof Using "Type".
#[global] Open Scope Z_scope.

(** ** Fallible code

    Go functions that return [(T, error)] become [result E T]: [Ok] carries
    the value of a [nil] error, [Err] the error.  The monad instances give
    stdpp's [x ← m; k] notation, which reads like the early returns of the
    code. *)
Inductive result (E A : Type) : Type :=
| Ok (a : A)
| Err (e : E).
Arguments Ok {E A} _.
Arguments Err {E A} _.

#[global] Instance result_ret {E} : MRet (result E) := λ A, Ok.
#[global] Instance result_bind {E} : MBind (result E) := λ A B f m,
  match m with Ok a => f a | Err e => Err e end.

(** [guard_ok b e] is the early return [if !b { return e }]. *)
Definition guard_ok {E} (b : bool) (e : E) : result E unit :=
  if b then Ok tt else Err e.

Definition is_ok {E A} (r : result E A) : bool :=
  match r with Ok _ => true | Err _ => false end.

Definition of_option {E A} (o : option A) (e : E) : result E A :=
  match o with Some a => Ok a | None => Err e end.

Lemma bind_Ok_inv {E A B} (m : result E A) (f : A → result E B) b :
  mbind f m = Ok b → ∃ a, m = Ok a ∧ f a = Ok b.
Proof. destruct m as [a|e]; cbn; [eauto|discriminate]. Qed.

Lemma guard_ok_Ok {E} b (e : E) u : guard_ok b e = Ok u ↔ b = true.
Proof. destruct b, u; cbn; split; congruence. Qed.

Lemma of_option_Ok {E A} (o : option A) (e : E) a : of_option o e = Ok a ↔ o = Some a.
Proof. destruct o; cbn; split; congruence. Qed.

Lemma of_option_Err {E A} (o : option A) (e e' : E) :
  of_option o e = Err e' → o = None ∧ e' = e.
Proof. destruct o; cbn; [discriminate|intros [= ->]; done]. Qed.

(** ** Notation of the development *)
Declare Scope go_scope.
Delimit Scope go_scope with go.
Notation "a =? b" := (String.eqb a b) : go_scope.
Notation "a ≠? b" := (negb (String.eqb a b)) (at level 70, no associativity) : go_scope.
Notation "'require' b 'else' e ;; k" := (guard_ok b e ≫= λ _, k)
  (at level 100, b at level 99, e at level 99, k at level 200, right associativity,
   format "'require'  b  'else'  e  ;;  '//' k") : go_scope.
#[global] Open Scope go_scope.

(** ** Machine integers and time

    A [uint64] is a [Z] kept in range by [u64]; an [int64] by [i64].
    [time.Time] is a number of nanoseconds since Go's zero time, so
    [t.IsZero()] is [t = 0], [Before]/[After]/[Add]/[Sub] are arithmetic and
    [UTC()] is the identity.  [time.Unix(sec, 0)] wraps as Go's [int64]
    seconds do. *)
Definition u64 (z : Z) : Z := z `mod` 2 ^ 64.
Definition i64 (z : Z) : Z := (z + 2 ^ 63) `mod` 2 ^ 64 - 2 ^ 63.

Abbreviation time := Z (only parsing).
Abbreviation duration := Z (only parsing).
Definition millisecond : duration := 1000000.
Definition second : duration := 1000000000.
Definition minute : duration := 60 * second.
Definition hour : duration := 60 * minute.
Definition unix_epoch_seconds : Z := 62135596800.
Definition time_unix (sec : Z) : time := i64 (sec + unix_epoch_seconds) * second.
Definition is_zero_time (t : time) : bool := Z.eqb t 0.

Lemma u64_range z : 0 ≤ u64 z < 2 ^ 64.
Proof. unfold u64. apply Z.mod_pos_bound. lia. Qed.

Lemma u64_small z : 0 ≤ z < 2 ^ 64 → u64 z = z.
Proof. apply Z.mod_small. Qed.

Lemma i64_small z : - 2 ^ 63 ≤ z < 2 ^ 63 → i64 z = z.
Proof. intros H. unfold i64. rewrite Z.mod_small; lia. Qed.

Lemma u64_succ_ne z : 0 ≤ z < 2 ^ 64 → u64 (z + 1) ≠ z.
Proof.
  intros H. destruct (decide (z = 2 ^ 64 - 1)) as [->|].
  - vm_compute. discriminate.
  - rewrite u64_small; lia.
Qed.

(** ** Tactics *)

(** Break the conditionals and matches of a hypothesis [H : f x = v], closing
    the branches that contradict it. *)
Ltac go_cases :=
  repeat (case_match; simplify_eq/=; try done).

(** Turn a chain of [require]s and binds that ended in [Ok] into facts. *)
Ltac ok_inv H :=
  repeat (first
    [ apply bind_Ok_inv in H as (? & ? & H)
    | match type of H with
      | Ok _ = Ok _ => simplify_eq
      end ]);
  repeat match goal with
  | G : guard_ok _ _ = Ok _ |- _ => apply guard_ok_Ok in G
  | G : of_option _ _ = Ok _ |- _ => apply of_option_Ok in G
  end; cbn in *.

(** Boolean tests of the code as propositions. *)
Ltac reflect_bools :=
  repeat match goal with
  | H : _ && _ = true |- _ => apply andb_true_iff in H as [? H]
  | H : _ || _ = false |- _ => apply orb_false_iff in H as [? H]
  | H : negb _ = true |- _ => apply negb_true_iff in H
  | H : negb _ = false |- _ => apply negb_false_iff in H
  | H : String.eqb _ _ = true |- _ => apply String.eqb_eq in H
  | H : String.eqb _ _ = false |- _ => apply String.eqb_neq in H
  | H : bool_decide _ = true |- _ => apply bool_decide_eq_true in H
  | H : bool_decide _ = false |- _ => apply bool_decide_eq_false in H
  | H : Z.leb _ _ = true |- _ => apply Z.leb_le in H
  | H : Z.leb _ _ = false |- _ => apply Z.leb_gt in H
  | H : Z.ltb _ _ = true |- _ => apply Z.ltb_lt in H
  | H : Z.ltb _ _ = false |- _ => apply Z.ltb_ge in H
  | H : Z.eqb _ _ = true |- _ => apply Z.eqb_eq in H
  | H : Z.eqb _ _ = false |- _ => apply Z.eqb_neq in H
  end.

(** ** Go maps

    A Go map is a [gmap]; [len m] is Go's [len].  [prune] is the loop that
    deletes the entries that fail a test while ranging over the map. *)
Definition len {K A} `{Countable K} (m : gmap K A) : Z := Z.of_nat (size m).

Section maps.
Context {K A : Type} `{Countable K}.
Implicit Types m : gmap K A.

Definition prune (keep : A → bool) (m : gmap K A) : gmap K A :=
  filter (λ kv, keep kv.2 = true) m.

Lemma prune_lookup_Some keep m k v :
  prune keep m !! k = Some v ↔ m !! k = Some v ∧ keep v = true.
Proof. unfold prune. by rewrite map_lookup_filter_Some. Qed.

Lemma prune_lookup_None keep m k :
  prune keep m !! k = None ↔ m !! k = None ∨ ∃ v, m !! k = Some v ∧ keep v = false.
Proof.
  destruct (prune keep m !! k) as [v|] eqn:E.
  - apply prune_lookup_Some in E as [E1 E2]. split; [done|].
    intros [?|(v' & ? & ?)]; congruence.
  - split; [intros _|done]. destruct (m !! k) as [v|] eqn:Ek; [right|by left].
    exists v. split; [done|]. destruct (keep v) eqn:Ev; [|done].
    assert (prune keep m !! k = Some v) by (by apply prune_lookup_Some). congruence.
Qed.

Lemma len_nonneg m : 0 ≤ len m.
Proof. unfold len. lia. Qed.

Lemma len_prune_le keep m : len (prune keep m) ≤ len m.
Proof.
  unfold len. apply inj_le. rewrite <-!size_dom. apply subseteq_size.
  unfold prune. apply dom_filter_subseteq.
Qed.

Lemma len_insert_le m k v : len (<[k:=v]> m) ≤ len m + 1.
Proof. unfold len. rewrite map_size_insert. case_match; cbn; lia. Qed.

Lemma len_insert_new m k v : m !! k = None → len (<[k:=v]> m) = len m + 1.
Proof. intros Hk. unfold len. rewrite map_size_insert, Hk. cbn. lia. Qed.

Lemma len_insert_old m k v w : m !! k = Some w → len (<[k:=v]> m) = len m.
Proof. intros Hk. unfold len. rewrite map_size_insert, Hk. cbn. lia. Qed.

Lemma len_delete_le m k : len (delete k m) ≤ len m.
Proof. unfold len. rewrite map_size_delete. case_match; cbn; lia. Qed.

Lemma len_delete_old m k v : m !! k = Some v → len (delete k m) = len m - 1.
Proof.
  intros Hk. unfold len. rewrite map_size_delete, Hk. simpl.
  destruct (size m) eqn:E; [|lia].
  apply map_size_empty_inv in E. subst. by rewrite lookup_empty in Hk.
Qed.
End maps.

#[global] Instance List_filter_Permutation {A} (p : A → bool) : Proper ((≡ₚ) ==> (≡ₚ)) (List.filter p).
Proof.
  intros l k H. induction H as [|x l k _ IH|x y l|l k n _ IH1 _ IH2]; cbn; [done| | |by etrans].
  - destruct (p x); by rewrite IH.
  - destruct (p x), (p y); try done. apply perm_swap.
Qed.

Create HintDb gomap discriminated.
#[export] Hint Resolve len_nonneg len_prune_le len_insert_le len_delete_le : gomap.
