(* ===== verification/GoStrings.v ===== *)
(** * Go strings: bytes, runes and the [strings] and [unicode] packages

    A Go [string] and a Go [[]byte] are byte sequences; both are Rocq
    [string]s here.  [range] over a string decodes UTF-8 the way Go does
    (an ill-formed byte is one [RuneError] of width one), and [TrimSpace]
    strips white-space runes from both ends, so the validators that call
    them behave on every byte sequence as the code does. *)

From S2P Require Import Prelude.

Definition slen (s : string) : Z := Z.of_nat (String.length s).
Definition byte_val (a : ascii) : Z := Z.of_N (N_of_ascii a).
Definition rune_error : Z := 65533.

(** ** UTF-8 *)

Definition in_range (lo hi b : Z) : bool := (lo <=? b)%Z && (b <=? hi)%Z.
Definition cont (b : Z) : Z := Z.land b 63.

Definition byte_nth (s : string) (n : nat) : option Z := byte_val <$> String.get n s.

(** [utf8.DecodeRuneInString] on a non-empty string: the rune and its width. *)
Definition decode_rune (s : string) : Z * nat :=
  match byte_nth s 0 with
  | None => (rune_error, 0%nat)
  | Some b0 =>
    if (b0 <? 128)%Z then (b0, 1%nat)
    else match byte_nth s 1 with
    | None => (rune_error, 1%nat)
    | Some b1 =>
      if in_range 194 223 b0 then
        if in_range 128 191 b1 then (Z.land b0 31 * 64 + cont b1, 2%nat) else (rune_error, 1%nat)
      else if in_range 224 239 b0 then
        let lo := if (b0 =? 224)%Z then 160 else 128 in
        let hi := if (b0 =? 237)%Z then 159 else 191 in
        match byte_nth s 2 with
        | Some b2 =>
          if in_range lo hi b1 && in_range 128 191 b2
          then (Z.land b0 15 * 4096 + cont b1 * 64 + cont b2, 3%nat) else (rune_error, 1%nat)
        | None => (rune_error, 1%nat)
        end
      else if in_range 240 244 b0 then
        let lo := if (b0 =? 240)%Z then 144 else 128 in
        let hi := if (b0 =? 244)%Z then 143 else 191 in
        match byte_nth s 2, byte_nth s 3 with
        | Some b2, Some b3 =>
          if in_range lo hi b1 && in_range 128 191 b2 && in_range 128 191 b3
          then (Z.land b0 7 * 262144 + cont b1 * 4096 + cont b2 * 64 + cont b3, 4%nat)
          else (rune_error, 1%nat)
        | _, _ => (rune_error, 1%nat)
        end
      else (rune_error, 1%nat)
    end
  end.

(** The pairs (byte index, rune) of [for i, r := range s]; [skip] counts the
    remaining bytes of the rune just decoded. *)
Fixpoint runes_from (i : Z) (skip : nat) (s : string) : list (Z * Z) :=
  match s with
  | EmptyString => []
  | String _ s' =>
    match skip with
    | S k => runes_from (i + 1) k s'
    | O => let '(r, w) := decode_rune s in (i, r) :: runes_from (i + 1) (pred w) s'
    end
  end.
Definition runes_idx (s : string) : list (Z * Z) := runes_from 0 0 s.
Definition runes (s : string) : list Z := (runes_idx s).*2.

Definition all_runes (p : Z → bool) (s : string) : bool := forallb p (runes s).

(** ** Package unicode *)

Definition is_control (r : Z) : bool := in_range 0 31 r || in_range 127 159 r.

Definition is_space (r : Z) : bool :=
  in_range 9 13 r || (r =? 32)%Z || (r =? 133)%Z || (r =? 160)%Z || (r =? 5760)%Z ||
  in_range 8192 8202 r || (r =? 8232)%Z || (r =? 8233)%Z || (r =? 8239)%Z ||
  (r =? 8287)%Z || (r =? 12288)%Z.

(** ** Package strings *)

Fixpoint drop_str (n : nat) (s : string) : string :=
  match n, s with
  | S n', String _ s' => drop_str n' s'
  | _, _ => s
  end.
Fixpoint take_str (n : nat) (s : string) : string :=
  match n, s with
  | S n', String a s' => String a (take_str n' s')
  | _, _ => EmptyString
  end.

Fixpoint trim_left_from (skip : nat) (s : string) : string :=
  match s with
  | EmptyString => EmptyString
  | String _ s' =>
    match skip with
    | S k => trim_left_from k s'
    | O => let '(r, w) := decode_rune s in
           if is_space r then trim_left_from (pred w) s' else s
    end
  end.

(** [utf8.DecodeLastRuneInString]: the width of the last rune is found by
    stepping back to a byte that can start a rune (not of the form 10xxxxxx),
    at most four bytes from the end. *)
Definition rune_start (s : string) (n : nat) : bool :=
  match byte_nth s n with Some b => negb (Z.land b 192 =? 128)%Z | None => false end.

Definition decode_last_rune (s : string) : Z * nat :=
  let e := String.length s in
  match e with
  | O => (rune_error, 0%nat)
  | S e1 =>
    match byte_nth s e1 with
    | None => (rune_error, 0%nat)
    | Some b =>
      if (b <? 128)%Z then (b, 1%nat)
      else
        let back (k : nat) := (k <=? e)%nat && rune_start s (e - k) in
        let w := if back 2%nat then 2%nat else if back 3%nat then 3%nat
                 else if back 4%nat then 4%nat else 1%nat in
        let '(r, size) := decode_rune (drop_str (e - w) s) in
        if Nat.eqb size w then (r, size) else (rune_error, 1%nat)
    end
  end.

Fixpoint trim_right_fuel (fuel : nat) (s : string) : string :=
  match fuel with
  | O => s
  | S f =>
    if Nat.eqb (String.length s) 0 then s
    else let '(r, w) := decode_last_rune s in
         if is_space r then trim_right_fuel f (take_str (String.length s - w) s) else s
  end.

Definition trim_space (s : string) : string :=
  let l := trim_left_from 0 s in trim_right_fuel (String.length l) l.

Definition trimmed (s : string) : bool := trim_space s =? s.

Definition has_prefix (p s : string) : bool := String.prefix p s.
Definition trim_prefix (p s : string) : string :=
  if has_prefix p s then drop_str (String.length p) s else s.

Fixpoint contains_char (c : ascii) (s : string) : bool :=
  match s with
  | EmptyString => false
  | String a s' => Ascii.eqb a c || contains_char c s'
  end.
(** [strings.ContainsAny] for a set of ASCII characters. *)
Definition contains_any (cs s : string) : bool :=
  existsb (λ c, contains_char c s) (String.list_ascii_of_string cs).

(** [strings.Contains]. *)
Fixpoint contains (sub s : string) : bool :=
  has_prefix sub s ||
  match s with EmptyString => false | String _ s' => contains sub s' end.

(** [strings.Join] with a one-byte separator. *)
Fixpoint join (sep : ascii) (l : list string) : string :=
  match l with
  | [] => EmptyString
  | [x] => x
  | x :: l' => x +:+ String sep (join sep l')
  end.

Fixpoint split_char (sep : ascii) (s : string) : list string :=
  match s with
  | EmptyString => [EmptyString]
  | String a s' =>
    if Ascii.eqb a sep then EmptyString :: split_char sep s'
    else match split_char sep s' with
         | x :: l => String a x :: l
         | [] => [String a EmptyString]
         end
  end.

Definition map_str (f : ascii → ascii) (s : string) : string :=
  String.string_of_list_ascii (f <$> String.list_ascii_of_string s).

(** ASCII case mapping: [strings.ToUpper] of an HTTP method, which net/http
    restricts to ASCII token characters. *)
Definition upper_char (a : ascii) : ascii :=
  let b := N_of_ascii a in
  if ((97 <=? b) && (b <=? 122))%N then ascii_of_N (b - 32) else a.
Definition to_upper_ascii (s : string) : string := map_str upper_char s.

(** [subtle.ConstantTimeCompare(..) == 1] with the length test that goes with
    it: equality of byte sequences. *)
Definition constant_eq (a b : string) : bool := a =? b.

Definition newline : ascii := "010"%char.
Definition nul : ascii := "000"%char.

(** ** Character classes of the identifier grammars *)
Definition is_lower_rune (r : Z) : bool := in_range 97 122 r.
Definition is_upper_rune (r : Z) : bool := in_range 65 90 r.
Definition is_digit_rune (r : Z) : bool := in_range 48 57 r.
Definition is_alnum_rune (r : Z) : bool := is_lower_rune r || is_upper_rune r || is_digit_rune r.

(** A character class of a regular expression, and its repetition. *)
Definition char_in (p : Z → bool) (a : ascii) : bool := p (byte_val a).
Definition all_chars (p : Z → bool) (s : string) : bool :=
  forallb (char_in p) (String.list_ascii_of_string s).

Definition has_suffix (suffix s : string) : bool :=
  (slen suffix <=? slen s)%Z && (drop_str (String.length s - String.length suffix) s =? suffix).

(** [utf8.ValidString]: no byte that does not start a well-formed rune. *)
Fixpoint utf8_valid_from (skip : nat) (s : string) : bool :=
  match s with
  | EmptyString => true
  | String _ rest =>
    match skip with
    | S skip => utf8_valid_from skip rest
    | O =>
      let '(r, width) := decode_rune s in
      negb ((r =? rune_error)%Z && Nat.eqb width 1) && utf8_valid_from (pred width) rest
    end
  end.
Definition utf8_valid (s : string) : bool := utf8_valid_from 0 s.

(** ** Lemmas *)

Lemma append_String a s t : String a s +:+ t = String a (s +:+ t).
Proof. done. Qed.

Lemma append_Empty t : EmptyString +:+ t = t.
Proof. done. Qed.

Lemma append_nil s : s +:+ "" = s.
Proof. induction s as [|a s IH]; [done|]. by rewrite append_String, IH. Qed.

Lemma length_append s t : String.length (s +:+ t) = (String.length s + String.length t)%nat.
Proof. induction s as [|a s IH]; [done|]. rewrite append_String. cbn. by rewrite IH. Qed.
Lemma slen_append p q : slen (p +:+ q) = slen p + slen q.
Proof. unfold slen. rewrite length_append. lia. Qed.

(** [io.ReadAll(io.LimitReader(r, limit+1))] of a reader that holds [s]: more
    than [limit] bytes exactly when [s] is longer. *)
Definition read_limited (limit : Z) (s : string) : string :=
  if (slen s <=? limit + 1)%Z then s else take_str (Z.to_nat (limit + 1)) s.

Lemma length_take_str n s : String.length (take_str n s) = (n `min` String.length s)%nat.
Proof. revert s. induction n as [|n IH]; intros [|a s]; [done..|]. cbn. by rewrite IH. Qed.

Lemma read_limited_short limit s : slen s ≤ limit → read_limited limit s = s.
Proof. intros Hs. unfold read_limited. by rewrite (proj2 (Z.leb_le _ _)) by lia. Qed.

Lemma read_limited_whole limit s : 0 ≤ limit → slen (read_limited limit s) ≤ limit → read_limited limit s = s.
Proof.
  intros Hl. unfold read_limited. destruct (Z.leb_spec (slen s) (limit + 1)); [done|].
  unfold slen in *. rewrite length_take_str. lia.
Qed.

Lemma append_assoc s t u : (s +:+ t) +:+ u = s +:+ (t +:+ u).
Proof. induction s as [|a s IH]; [done|]. by rewrite !append_String, IH. Qed.

Lemma contains_char_append c s t :
  contains_char c (s +:+ t) = contains_char c s || contains_char c t.
Proof.
  induction s as [|a s IH]; [done|]. rewrite append_String. cbn.
  by rewrite IH, orb_assoc.
Qed.

(** A separator that does not occur in the heads determines the split. *)
Lemma append_sep_inj sep x y s t :
  contains_char sep x = false → contains_char sep y = false →
  x +:+ String sep s = y +:+ String sep t → x = y ∧ s = t.
Proof.
  revert y. induction x as [|a x IH]; intros [|b y] Hx Hy Heq;
    rewrite ?append_String, ?append_Empty in Heq; cbn in *; simplify_eq.
  - done.
  - by rewrite Ascii.eqb_refl in Hy.
  - by rewrite Ascii.eqb_refl in Hx.
  - apply orb_false_iff in Hx as [? ?], Hy as [? ?].
    destruct (IH y) as [-> ->]; try done.
Qed.

Definition sep_free (sep : ascii) (l : list string) : Prop :=
  Forall (λ x, contains_char sep x = false) l.

(** [strings.Join] is injective on lists of the same length whose elements do
    not contain the separator. *)
Lemma join_inj sep l k :
  length l = length k → sep_free sep l → sep_free sep k →
  join sep l = join sep k → l = k.
Proof.
  revert k. induction l as [|x l IH]; intros [|y k] Hlen Hl Hk Heq; try done.
  inversion Hl; inversion Hk; subst.
  destruct l as [|x' l], k as [|y' k]; try done.
  - by cbn in Heq; subst.
  - cbn [join] in Heq. apply append_sep_inj in Heq as [-> Heq]; [|done..].
    f_equal. apply IH; [cbn in *; lia|done..].
Qed.

(** Every byte of a string shows up in its rune sequence: an ASCII byte is
    always decoded as itself. *)
Lemma byte_val_range a : 0 ≤ byte_val a < 256.
Proof. unfold byte_val. pose proof (N_ascii_bounded a). lia. Qed.

Lemma byte_nth_S a s n : byte_nth (String a s) (S n) = byte_nth s n.
Proof. done. Qed.

Lemma in_range_true lo hi b : in_range lo hi b = true ↔ lo ≤ b ≤ hi.
Proof. unfold in_range. rewrite andb_true_iff, !Z.leb_le. done. Qed.

Lemma decode_rune_ascii a s : byte_val a < 128 → decode_rune (String a s) = (byte_val a, 1%nat).
Proof.
  intros Ha. unfold decode_rune. cbn [byte_nth String.get fmap option_fmap option_map].
  by rewrite (proj2 (Z.ltb_lt _ _) Ha).
Qed.

(** The bytes a multi-byte rune skips are never ASCII. *)
Definition skips_high (skip : nat) (s : string) : Prop :=
  ∀ n b, (n < skip)%nat → byte_nth s n = Some b → 128 ≤ b.

Lemma decode_rune_skips a s : skips_high (pred (decode_rune (String a s)).2) s.
Proof.
  unfold decode_rune, skips_high. rewrite !byte_nth_S.
  destruct (byte_nth (String a s) 0) as [b0|]; cbn; [|intros; lia].
  repeat case_match; cbn; intros n b Hn Hb; try lia; reflect_bools;
    repeat match goal with H : in_range _ _ _ = true |- _ => apply in_range_true in H end;
    destruct n as [|[|[|n]]]; try lia; rewrite Hb in *; simplify_eq; lia.
Qed.

Lemma runes_from_ascii_mem i skip s a :
  skips_high skip s → byte_val a < 128 → contains_char a s = true →
  byte_val a ∈ (runes_from i skip s).*2.
Proof.
  revert i skip. induction s as [|c s IH]; intros i skip Hs Ha Hc; [done|].
  cbn in Hc. apply orb_true_iff in Hc. destruct skip as [|k]; cbn [runes_from].
  - destruct (decode_rune (String c s)) as [r w] eqn:E. cbn [fmap list_fmap fst snd].
    destruct Hc as [->%Ascii.eqb_eq|Hc].
    + rewrite decode_rune_ascii in E by done. simplify_eq. left.
    + right. apply IH; [|done..]. pose proof (decode_rune_skips c s) as H. by rewrite E in H.
  - destruct Hc as [->%Ascii.eqb_eq|Hc].
    + pose proof (Hs 0%nat (byte_val a)) as H. cbn in H. specialize (H ltac:(lia) eq_refl). lia.
    + apply IH; [|done..]. intros n b Hn Hb. apply (Hs (S n) b); [lia|done].
Qed.

Lemma runes_ascii_mem s a :
  byte_val a < 128 → contains_char a s = true → byte_val a ∈ runes s.
Proof. apply runes_from_ascii_mem. intros n b Hn. lia. Qed.

(** A rune test that rejects an ASCII character keeps it out of the string. *)
Lemma all_runes_excludes p s a :
  byte_val a < 128 → p (byte_val a) = false → all_runes p s = true →
  contains_char a s = false.
Proof.
  intros Ha Hp Hall. destruct (contains_char a s) eqn:E; [|done].
  apply runes_ascii_mem in E; [|done]. unfold all_runes in Hall.
  rewrite forallb_forall in Hall. rewrite (Hall (byte_val a)) in Hp; [done|].
  by apply list_elem_of_In.
Qed.

(** ** Strings of printable ASCII

    The generated tokens and the identifiers of the code are made of ASCII
    characters that are not white space; [TrimSpace] leaves them alone. *)
Definition graphic_char (a : ascii) : bool := in_range 33 126 (byte_val a).

Fixpoint graphic (s : string) : bool :=
  match s with
  | EmptyString => true
  | String a s' => graphic_char a && graphic s'
  end.

Lemma graphic_not_space a : graphic_char a = true → byte_val a < 128 ∧ is_space (byte_val a) = false.
Proof.
  unfold graphic_char. rewrite in_range_true. intros H. split; [lia|].
  unfold is_space, in_range. repeat rewrite orb_false_iff.
  repeat split; rewrite ?andb_false_iff, ?Z.leb_gt, ?Z.eqb_neq; lia.
Qed.

Lemma trim_left_graphic a s : graphic_char a = true → trim_left_from 0 (String a s) = String a s.
Proof.
  intros [Ha Hs]%graphic_not_space. cbn [trim_left_from].
  by rewrite decode_rune_ascii, Hs.
Qed.

Lemma graphic_last s : s ≠ "" → graphic s = true →
  ∃ a, byte_nth s (pred (String.length s)) = Some (byte_val a) ∧ graphic_char a = true.
Proof.
  induction s as [|a s IH]; [done|]. intros _ [Ha Hs]%andb_true_iff.
  destruct s as [|b s]; [by exists a|]. destruct (IH ltac:(done) Hs) as (c & Hc & ?). exists c.
  split; [exact Hc|done].
Qed.

Lemma trim_space_graphic s : graphic s = true → trim_space s = s.
Proof.
  intros Hg. unfold trim_space. destruct s as [|a s]; [done|].
  pose proof Hg as [Ha _]%andb_true_iff. rewrite trim_left_graphic by done.
  destruct (graphic_last (String a s)) as (c & Hc & [Hb Hs]%graphic_not_space); [done..|].
  cbn [trim_right_fuel String.length Nat.eqb]. unfold decode_last_rune.
  cbn [String.length pred] in *. rewrite Hc, (proj2 (Z.ltb_lt _ _) Hb), Hs. done.
Qed.

Lemma has_prefix_append p s : has_prefix p (p +:+ s) = true.
Proof.
  unfold has_prefix. induction p as [|a p IH]; [by destruct s|].
  rewrite append_String. cbn. by destruct (ascii_dec a a).
Qed.

Lemma drop_str_length n s : String.length (drop_str n s) = (String.length s - n)%nat.
Proof. revert s. induction n; intros [|a s]; cbn; auto. Qed.

Lemma take_drop_str n s : take_str n s +:+ drop_str n s = s.
Proof. revert s. induction n as [|n IH]; intros [|a s]; cbn; try done. by rewrite append_String, IH. Qed.

Lemma take_str_add n k s : take_str (n + k) s = take_str n s +:+ take_str k (drop_str n s).
Proof.
  revert n. induction s as [|a s IH]; intros [|n]; try done; [by destruct k|]. cbn. by rewrite append_String, IH.
Qed.

Lemma take_str_append p s : take_str (String.length p) (p +:+ s) = p.
Proof.
  induction p as [|a p IH]; [by destruct s|]. rewrite append_String. cbn. by rewrite IH.
Qed.

Lemma drop_str_append p s : drop_str (String.length p) (p +:+ s) = s.
Proof. induction p as [|a p IH]; [by destruct s|]. rewrite append_String. done. Qed.

Lemma trim_prefix_append p s : trim_prefix p (p +:+ s) = s.
Proof. unfold trim_prefix. by rewrite has_prefix_append, drop_str_append. Qed.

(** ** Tests that accept ASCII runes only *)

Lemma decode_rune_high a s : 128 ≤ byte_val a → 128 ≤ (decode_rune (String a s)).1.
Proof.
  intros Ha. unfold decode_rune. cbn [byte_nth String.get fmap option_fmap option_map].
  pose proof (byte_val_range a) as Hr. rewrite (proj2 (Z.ltb_ge _ _) Ha). unfold cont, rune_error.
  change 63 with (Z.ones 6). change 31 with (Z.ones 5). change 15 with (Z.ones 4). change 7 with (Z.ones 3).
  repeat case_match; cbn -[Z.land Z.ones]; try lia; reflect_bools;
    repeat match goal with H : in_range _ _ _ = true |- _ => apply in_range_true in H end;
    rewrite !Z.land_ones by lia; Z.div_mod_to_equations; lia.
Qed.

Lemma runes_from_shift i j skip s : (runes_from i skip s).*2 = (runes_from j skip s).*2.
Proof.
  revert i j skip. induction s as [|a s IH]; intros i j [|k]; cbn [runes_from]; [done..| |apply IH].
  destruct (decode_rune (String a s)) as [r w]. cbn. f_equal. apply IH.
Qed.

Lemma all_runes_String p a s :
  (∀ r, p r = true → r < 128) → all_runes p (String a s) = true →
  byte_val a < 128 ∧ p (byte_val a) = true ∧ all_runes p s = true.
Proof.
  intros Hp H. unfold all_runes, runes, runes_idx in *. cbn [runes_from] in H.
  destruct (decode_rune (String a s)) as [r w] eqn:E. cbn in H. apply andb_true_iff in H as [Hr H].
  destruct (decide (128 ≤ byte_val a)) as [Ha|Ha].
  - pose proof (decode_rune_high a s Ha) as Hh. rewrite E in Hh. specialize (Hp _ Hr). cbn in Hh. lia.
  - rewrite decode_rune_ascii in E by lia. simplify_eq/=. split_and!; [lia|done|].
    by rewrite (runes_from_shift 0 1).
Qed.

(** A rune test that accepts printable ASCII only makes the string [graphic]. *)
Lemma all_runes_graphic p s :
  (∀ r, p r = true → 33 ≤ r ≤ 126) → all_runes p s = true → graphic s = true.
Proof.
  intros Hp. induction s as [|a s IH]; [done|]. intros H.
  apply all_runes_String in H as (_ & Ha & H); [|intros r Hr; specialize (Hp r Hr); lia].
  cbn. rewrite IH by done. rewrite andb_true_r. apply in_range_true. auto.
Qed.

(** ** Lower case *)

(** [unicode.ToLower] as far as ASCII text can see it: the letters A to Z and
    the two non-ASCII runes whose lower case is ASCII (the Kelvin sign and the
    dotted capital I).  Go maps every other rune to a non-ASCII rune, which no
    ASCII pattern contains. *)
Definition lower_rune (r : Z) : Z :=
  if is_upper_rune r then r + 32
  else if (r =? 8490)%Z then 107
  else if (r =? 304)%Z then 105
  else r.

(** [strings.ToLower], as the rune sequence of the result. *)
Definition to_lower (s : string) : list Z := map lower_rune (runes s).

(** ** The byte order of strings *)

(** Go compares strings byte by byte; [sort.Strings] sorts by that order. *)
Definition str_le (a b : string) : Prop := String.leb a b = true.
#[global] Instance str_le_dec a b : base.Decision (str_le a b).
Proof. unfold str_le. apply _. Defined.
Definition sort_strings (l : list string) : list string := merge_sort str_le l.
#[global] Arguments sort_strings : simpl never.

Lemma ascii_compare_N a b : Ascii.compare a b = N.compare (N_of_ascii a) (N_of_ascii b).
Proof. done. Qed.

Lemma str_le_cons a s b t :
  str_le (String a s) (String b t) ↔ (N_of_ascii a < N_of_ascii b)%N ∨ a = b ∧ str_le s t.
Proof.
  unfold str_le, String.leb. cbn. rewrite ascii_compare_N.
  destruct (N.compare_spec (N_of_ascii a) (N_of_ascii b)) as [E|L|L].
  - assert (a = b) as -> by (rewrite <-(ascii_N_embedding a), E; apply ascii_N_embedding).
    split; [auto|]. intros [?|[_ ?]]; [lia|done].
  - split; [by left|done].
  - split; [done|]. intros [?|[-> _]]; lia.
Qed.

#[global] Instance str_le_trans : Transitive str_le.
Proof.
  intros x. induction x as [|a x IH]; intros [|b y] [|c z]; try done.
  rewrite !str_le_cons. intros [?|[-> ?]] [?|[-> ?]]; [left; lia|left; lia|left; lia|right]. split; [done|]. by eapply IH.
Qed.
#[global] Instance str_le_antisym : AntiSymm (=) str_le.
Proof. intros x y. apply String.leb_antisym. Qed.
#[global] Instance str_le_total : Total str_le.
Proof. intros x y. apply String.leb_total. Qed.

Lemma sort_strings_perm l : sort_strings l ≡ₚ l.
Proof. apply merge_sort_Permutation. Qed.

Lemma sort_strings_unique l k : l ≡ₚ k → sort_strings l = sort_strings k.
Proof.
  intros H. apply (StronglySorted_unique str_le); [apply StronglySorted_merge_sort; apply _..|].
  by rewrite !sort_strings_perm.
Qed.

Lemma append_same_length x y s t :
  slen x = slen y → x +:+ s = y +:+ t → x = y ∧ s = t.
Proof.
  unfold slen. revert y. induction x as [|a x IH]; intros [|b y]; cbn; rewrite ?append_Empty, ?append_String;
    try lia; [done|]. intros Hl [= -> H]. by destruct (IH y ltac:(lia) H) as [-> ->].
Qed.

Lemma append_inj_r p s t : p +:+ s = p +:+ t → s = t.
Proof. induction p as [|a p IH]; rewrite ?append_Empty, ?append_String; [done|]. intros [= H]. auto. Qed.

Lemma has_prefix_common p s t : has_prefix (p +:+ s) (p +:+ t) = has_prefix s t.
Proof.
  unfold has_prefix. induction p as [|a p IH]; rewrite ?append_Empty, ?append_String; [done|].
  cbn. destruct (ascii_dec a a); [apply IH|done].
Qed.

Lemma all_chars_free p c s : p (byte_val c) = false → all_chars p s = true → contains_char c s = false.
Proof.
  intros Hc. unfold all_chars, char_in. induction s as [|a s IH]; [done|]. cbn. intros [Ha Hs]%andb_true_iff.
  rewrite IH by done. rewrite orb_false_r. apply Ascii.eqb_neq. congruence.
Qed.
