(* ===== verification/Encoding.v ===== *)
(** * The text encodings the tokens and digests use

    [base64.RawURLEncoding] (with and without [Strict]), strict
    [base64.StdEncoding], [hex] and the
    decimal conversions of [strconv], as executable functions on byte
    strings, with the round trips the ticket and signature code relies on. *)

From S2P Require Import Prelude GoStrings.

#[local] Ltac Zify.zify_post_hook ::= Z.div_mod_to_equations.

Definition byte_of (z : Z) : ascii := ascii_of_N (Z.to_N z).

Lemma byte_of_val a : byte_of (byte_val a) = a.
Proof. unfold byte_of, byte_val. rewrite N2Z.id. apply ascii_N_embedding. Qed.

Lemma byte_of_eq a z : z = byte_val a → byte_of z = a.
Proof. intros ->. apply byte_of_val. Qed.

Lemma byte_val_of z : 0 ≤ z < 256 → byte_val (byte_of z) = z.
Proof.
  intros H. unfold byte_of, byte_val. rewrite N_ascii_embedding; [lia|].
  apply N2Z.inj_lt. rewrite Z2N.id; lia.
Qed.

Lemma byte_val_inj a b : byte_val a = byte_val b → a = b.
Proof. intros H. by rewrite <-(byte_of_val a), H, byte_of_val. Qed.

(** ** base64.RawURLEncoding *)

Definition b64_char (d : Z) : ascii :=
  if (d <? 26)%Z then byte_of (65 + d)
  else if (d <? 52)%Z then byte_of (97 + (d - 26))
  else if (d <? 62)%Z then byte_of (48 + (d - 52))
  else if (d =? 62)%Z then "-"%char else "_"%char.

Definition b64_val (a : ascii) : option Z :=
  let b := byte_val a in
  if in_range 65 90 b then Some (b - 65)
  else if in_range 97 122 b then Some (b - 97 + 26)
  else if in_range 48 57 b then Some (b - 48 + 52)
  else if (b =? 45)%Z then Some 62 else if (b =? 95)%Z then Some 63 else None.

Fixpoint b64_encode (s : string) : string :=
  match s with
  | String a (String b (String c r)) =>
    let n := byte_val a * 65536 + byte_val b * 256 + byte_val c in
    String (b64_char (n / 262144)) (String (b64_char (n / 4096 mod 64))
      (String (b64_char (n / 64 mod 64)) (String (b64_char (n mod 64)) (b64_encode r))))
  | String a (String b EmptyString) =>
    let n := byte_val a * 1024 + byte_val b * 4 in
    String (b64_char (n / 4096)) (String (b64_char (n / 64 mod 64))
      (String (b64_char (n mod 64)) EmptyString))
  | String a EmptyString =>
    let n := byte_val a * 16 in
    String (b64_char (n / 64)) (String (b64_char (n mod 64)) EmptyString)
  | EmptyString => EmptyString
  end.

(** Full and partial quanta; [strict] rejects non-zero trailing bits. *)
Fixpoint b64_quanta (strict : bool) (s : string) : option string :=
  match s with
  | EmptyString => Some EmptyString
  | String a (String b (String c (String d r))) =>
    va ← b64_val a; vb ← b64_val b; vc ← b64_val c; vd ← b64_val d;
    rest ← b64_quanta strict r;
    let n := va * 262144 + vb * 4096 + vc * 64 + vd in
    Some (String (byte_of (n / 65536)) (String (byte_of (n / 256 mod 256))
           (String (byte_of (n mod 256)) rest)))
  | String a (String b (String c EmptyString)) =>
    va ← b64_val a; vb ← b64_val b; vc ← b64_val c;
    let n := va * 4096 + vb * 64 + vc in
    if strict && negb (n mod 4 =? 0)%Z then None
    else Some (String (byte_of (n / 1024)) (String (byte_of (n / 4 mod 256)) EmptyString))
  | String a (String b EmptyString) =>
    va ← b64_val a; vb ← b64_val b;
    let n := va * 64 + vb in
    if strict && negb (n mod 16 =? 0)%Z then None
    else Some (String (byte_of (n / 16)) EmptyString)
  | String _ EmptyString => None
  end.

(** [DecodeString] skips carriage returns and newlines before decoding. *)
Fixpoint drop_newlines (s : string) : string :=
  match s with
  | EmptyString => EmptyString
  | String a s' =>
    if Ascii.eqb a "010"%char || Ascii.eqb a "013"%char then drop_newlines s'
    else String a (drop_newlines s')
  end.
Definition b64_decode (strict : bool) (s : string) : option string :=
  b64_quanta strict (drop_newlines s).

(** ** base64.StdEncoding *)

Definition std_char (d : Z) : ascii :=
  if (d =? 62)%Z then "+"%char else if (d =? 63)%Z then "/"%char else b64_char d.
Definition std_val (a : ascii) : option Z :=
  if Ascii.eqb a "+" then Some 62 else if Ascii.eqb a "/" then Some 63
  else if Ascii.eqb a "-" || Ascii.eqb a "_" then None else b64_val a.
Definition pad_char : ascii := "="%char.

Fixpoint std_encode (s : string) : string :=
  match s with
  | String a (String b (String c r)) =>
    let n := byte_val a * 65536 + byte_val b * 256 + byte_val c in
    String (std_char (n / 262144)) (String (std_char (n / 4096 mod 64))
      (String (std_char (n / 64 mod 64)) (String (std_char (n mod 64)) (std_encode r))))
  | String a (String b EmptyString) =>
    let n := byte_val a * 1024 + byte_val b * 4 in
    String (std_char (n / 4096)) (String (std_char (n / 64 mod 64))
      (String (std_char (n mod 64)) (String pad_char EmptyString)))
  | String a EmptyString =>
    let n := byte_val a * 16 in
    String (std_char (n / 64)) (String (std_char (n mod 64)) (String pad_char (String pad_char EmptyString)))
  | EmptyString => EmptyString
  end.

(** Quanta of four characters, the last one padded, of [Strict] decoding. *)
Fixpoint std_quanta (s : string) : option string :=
  match s with
  | EmptyString => Some EmptyString
  | String a (String b (String c (String d r))) =>
    va ← std_val a; vb ← std_val b;
    if Ascii.eqb d pad_char && (r =? "") then
      if Ascii.eqb c pad_char then
        let n := va * 64 + vb in
        if negb (n mod 16 =? 0)%Z then None else Some (String (byte_of (n / 16)) EmptyString)
      else
        vc ← std_val c;
        let n := va * 4096 + vb * 64 + vc in
        if negb (n mod 4 =? 0)%Z then None
        else Some (String (byte_of (n / 1024)) (String (byte_of (n / 4 mod 256)) EmptyString))
    else
      vc ← std_val c; vd ← std_val d;
      rest ← std_quanta r;
      let n := va * 262144 + vb * 4096 + vc * 64 + vd in
      Some (String (byte_of (n / 65536)) (String (byte_of (n / 256 mod 256)) (String (byte_of (n mod 256)) rest)))
  | _ => None
  end.

Definition std_decode_strict (s : string) : option string := std_quanta (drop_newlines s).

(** ** hex *)
Definition hex_char (d : Z) : ascii :=
  if (d <? 10)%Z then byte_of (48 + d) else byte_of (97 + (d - 10)).
Definition hex_digit (a : ascii) : bool :=
  let b := byte_val a in in_range 48 57 b || in_range 97 102 b || in_range 65 70 b.
Fixpoint hex_encode (s : string) : string :=
  match s with
  | EmptyString => EmptyString
  | String a r => String (hex_char (byte_val a / 16)) (String (hex_char (byte_val a mod 16)) (hex_encode r))
  end.
(** [hex.DecodeString] returns no error: an even number of hex digits. *)
Definition hex_valid (s : string) : bool :=
  Z.even (slen s) && forallb hex_digit (String.list_ascii_of_string s).

(** ** strconv *)
Definition itoa (z : Z) : string := pretty z.

Definition digit_val (a : ascii) : option Z :=
  let b := byte_val a in if in_range 48 57 b then Some (b - 48) else None.
Fixpoint parse_digits (acc : Z) (s : string) : option Z :=
  match s with
  | EmptyString => Some acc
  | String a r => d ← digit_val a; parse_digits (acc * 10 + d) r
  end.
(** [strconv.ParseUint(s, 10, bits)]. *)
Definition parse_uint (bits : Z) (s : string) : option Z :=
  if s =? "" then None
  else n ← parse_digits 0 s; if (n <? 2 ^ bits)%Z then Some n else None.
(** [strconv.ParseInt(s, 10, 64)], also [strconv.Atoi] on 64-bit targets. *)
Definition parse_int (s : string) : option Z :=
  match s with
  | String "+" r => n ← parse_uint 64 r; if (n <? 2 ^ 63)%Z then Some n else None
  | String "-" r => n ← parse_uint 64 r; if (n <=? 2 ^ 63)%Z then Some (- n) else None
  | _ => n ← parse_uint 64 s; if (n <? 2 ^ 63)%Z then Some n else None
  end.

(** ** Round trips *)

Ltac byte_ranges :=
  repeat match goal with
  | x : ascii |- _ =>
    lazymatch goal with
    | _ : 0 ≤ byte_val x < 256 |- _ => fail
    | _ => pose proof (byte_val_range x)
    end
  end.

Lemma b64_val_char d : 0 ≤ d < 64 → b64_val (b64_char d) = Some d.
Proof.
  intros H. assert (∃ n : nat, (n < 64)%nat ∧ d = Z.of_nat n) as (n & Hn & ->).
  { exists (Z.to_nat d). lia. }
  do 64 (destruct n as [|n]; [reflexivity|]). lia.
Qed.

Lemma string_ind3 (P : string → Prop) :
  P "" → (∀ a, P (String a "")) → (∀ a b, P (String a (String b ""))) →
  (∀ a b c r, P r → P (String a (String b (String c r)))) → ∀ s, P s.
Proof.
  intros H0 H1 H2 H3.
  enough (∀ n s, (String.length s < n)%nat → P s) as Hn by (intros s; eapply Hn; eauto).
  induction n as [|n IH]; [lia|].
  intros [|a [|b [|c r]]] Hlen; [done|apply H1|apply H2|].
  apply H3, IH. cbn in Hlen. lia.
Qed.

Lemma b64_quanta_encode strict s : b64_quanta strict (b64_encode s) = Some s.
Proof.
  induction s as [|a|a b|a b c r IH] using string_ind3; [done|..];
    byte_ranges;
    cbn [b64_encode b64_quanta]; rewrite !b64_val_char by lia;
    cbn [mbind option_bind]; cbv zeta.
  - rewrite (proj2 (Z.eqb_eq _ _)) by lia. rewrite andb_false_r.
    by rewrite (byte_of_eq a) by lia.
  - rewrite (proj2 (Z.eqb_eq _ _)) by lia. rewrite andb_false_r.
    by rewrite (byte_of_eq a), (byte_of_eq b) by lia.
  - rewrite IH. cbn [mbind option_bind].
    by rewrite (byte_of_eq a), (byte_of_eq b), (byte_of_eq c) by lia.
Qed.

Lemma b64_char_not_newline d :
  0 ≤ d < 64 → Ascii.eqb (b64_char d) "010"%char || Ascii.eqb (b64_char d) "013"%char = false.
Proof.
  intros H. assert (∃ n : nat, (n < 64)%nat ∧ d = Z.of_nat n) as (n & Hn & ->).
  { exists (Z.to_nat d). lia. }
  do 64 (destruct n as [|n]; [reflexivity|]). lia.
Qed.

Lemma drop_newlines_encode s : drop_newlines (b64_encode s) = b64_encode s.
Proof.
  induction s as [|a|a b|a b c r IH] using string_ind3; [done|..];
    byte_ranges;
    cbn [b64_encode drop_newlines]; rewrite !b64_char_not_newline by lia; congruence.
Qed.

(** Decoding undoes encoding, in strict mode and not. *)
Lemma b64_roundtrip strict s : b64_decode strict (b64_encode s) = Some s.
Proof. unfold b64_decode. rewrite drop_newlines_encode. apply b64_quanta_encode. Qed.

Lemma std_val_char d : 0 ≤ d < 64 → std_val (std_char d) = Some d ∧ Ascii.eqb (std_char d) pad_char = false ∧
  Ascii.eqb (std_char d) "010"%char || Ascii.eqb (std_char d) "013"%char = false.
Proof.
  intros H. assert (∃ n : nat, (n < 64)%nat ∧ d = Z.of_nat n) as (n & Hn & ->).
  { exists (Z.to_nat d). lia. }
  do 64 (destruct n as [|n]; [repeat split|]). lia.
Qed.

Lemma std_quanta_encode s : std_quanta (std_encode s) = Some s.
Proof.
  induction s as [|a|a b|a b c r IH] using string_ind3; [done|..];
    byte_ranges; cbn [std_encode std_quanta]; rewrite !(fun d H => proj1 (std_val_char d H)) by lia;
    cbn [mbind option_bind]; cbv zeta.
  - rewrite (proj2 (Z.eqb_eq _ _)) by lia. cbn. by rewrite (byte_of_eq a) by lia.
  - cbn [Ascii.eqb pad_char andb String.eqb]. rewrite (fun d H => proj1 (proj2 (std_val_char d H))) by lia. cbn.
    rewrite (proj2 (Z.eqb_eq _ _)) by lia. cbn. by rewrite (byte_of_eq a), (byte_of_eq b) by lia.
  - rewrite (fun d H => proj1 (proj2 (std_val_char d H))) by lia. cbn [andb]. rewrite IH. cbn [mbind option_bind].
    by rewrite (byte_of_eq a), (byte_of_eq b), (byte_of_eq c) by lia.
Qed.

Lemma drop_newlines_std s : drop_newlines (std_encode s) = std_encode s.
Proof.
  induction s as [|a|a b|a b c r IH] using string_ind3; [done|..];
    byte_ranges; cbn [std_encode drop_newlines]; rewrite !(fun d H => proj2 (proj2 (std_val_char d H))) by lia; cbn; congruence.
Qed.

Lemma std_roundtrip s : std_decode_strict (std_encode s) = Some s.
Proof. unfold std_decode_strict. rewrite drop_newlines_std. apply std_quanta_encode. Qed.

Lemma b64_encode_inj s t : b64_encode s = b64_encode t → s = t.
Proof.
  intros H. enough (Some s = Some t) by congruence.
  by rewrite <-!(b64_roundtrip true), H.
Qed.

Lemma b64_encode_length s :
  3 * slen (b64_encode s) = 4 * slen s + (if (slen s mod 3 =? 0)%Z then 0 else if (slen s mod 3 =? 1)%Z then 2 else 1).
Proof.
  induction s as [|a|a b|a b c r IH] using string_ind3; [done..|].
  cbn [b64_encode]. unfold slen in *. cbn [String.length].
  rewrite !Nat2Z.inj_succ. repeat case_match; reflect_bools; lia.
Qed.

Lemma parse_digits_go x s :
  parse_digits 0 (pretty_N_go x s) = parse_digits (Z.of_N x) s.
Proof.
  revert s. induction (N.lt_wf_0 x) as [x _ IH]. intros s.
  destruct (decide (x = 0%N)) as [->|Hx]; [by rewrite pretty_N_go_0|].
  rewrite pretty_N_go_step by lia. rewrite IH by (apply N.div_lt; lia).
  cbn [parse_digits]. assert (digit_val (pretty_N_char (x `mod` 10)) = Some (Z.of_N (x `mod` 10))) as ->.
  { assert (x `mod` 10 < 10)%N by (apply N.mod_lt; lia).
    generalize dependent (x `mod` 10)%N. intros d Hd.
    assert (∃ n : nat, (n < 10)%nat ∧ d = N.of_nat n) as (n & Hn & ->).
    { exists (N.to_nat d). lia. }
    do 10 (destruct n as [|n]; [reflexivity|]). lia. }
  cbn [mbind option_bind]. f_equal. rewrite N2Z.inj_div, N2Z.inj_mod. lia.
Qed.

Lemma itoa_nonneg z : 0 ≤ z → itoa z = pretty (Z.to_N z).
Proof. by destruct z. Qed.

Lemma itoa_inj a b : itoa a = itoa b → a = b.
Proof. apply (inj pretty). Qed.

Lemma parse_digits_itoa z : 0 ≤ z → parse_digits 0 (itoa z) = Some z.
Proof.
  intros Hz. rewrite itoa_nonneg by done. unfold pretty, pretty_N.
  case_decide as E.
  - assert (z = 0) as -> by lia. done.
  - rewrite parse_digits_go. cbn [parse_digits]. f_equal. lia.
Qed.

(** [ParseInt] reads back what [FormatInt] wrote. *)
Lemma pretty_N_go_digit_head x s : (0 < x)%N →
  ∃ d s', pretty_N_go x s = String (pretty_N_char d) s' ∧ (0 < d < 10)%N.
Proof.
  revert s. induction (N.lt_wf_0 x) as [x _ IH]. intros s Hx.
  rewrite pretty_N_go_step by done.
  destruct (decide (x / 10 = 0)%N) as [E|]; [|apply IH; [apply N.div_lt|]; lia].
  rewrite E, pretty_N_go_0. eexists _, _. split; [done|]. apply N.div_small_iff in E; [|lia]. rewrite N.mod_small by lia. lia.
Qed.

Lemma itoa_head z : 0 < z → ∃ d s', itoa z = String (pretty_N_char d) s' ∧ (0 < d < 10)%N.
Proof.
  intros Hz. rewrite itoa_nonneg by lia. unfold pretty, pretty_N. case_decide; [lia|]. apply pretty_N_go_digit_head. lia.
Qed.

Lemma parse_uint_itoa z : 0 ≤ z < 2 ^ 64 → parse_uint 64 (itoa z) = Some z.
Proof.
  intros Hz. unfold parse_uint. rewrite parse_digits_itoa by lia. cbn -[Z.pow].
  rewrite (proj2 (Z.ltb_lt z (2 ^ 64))) by lia.
  destruct (String.eqb_spec (itoa z) "") as [e|]; [|done].
  exfalso. pose proof (parse_digits_itoa z) as H. rewrite e in H. cbn in H.
  assert (z = 0) as -> by (specialize (H ltac:(lia)); congruence). discriminate.
Qed.

Lemma parse_int_itoa z : 0 ≤ z < 2 ^ 63 → parse_int (itoa z) = Some z.
Proof.
  intros Hz.
  assert (parse_uint 64 (itoa z) = Some z) as Hp by (apply parse_uint_itoa; lia).
  assert (∃ d s', itoa z = String (pretty_N_char d) s' ∧ (d < 10)%N) as (d & s' & E & Hd).
  { rewrite itoa_nonneg by lia. unfold pretty, pretty_N. case_decide as E0.
    - exists 0%N, "". done.
    - destruct (pretty_N_go_digit_head (Z.to_N z) "") as (d & s' & E & Hd); [lia|]. exists d, s'. split; [done|lia]. }
  unfold parse_int. rewrite E in *.
  assert (∃ n : nat, (n < 10)%nat ∧ d = N.of_nat n) as (n & Hn & ->).
  { exists (N.to_nat d). lia. }
  do 10 (destruct n as [|n]; [cbn -[Z.pow parse_uint] in *; rewrite Hp; cbn -[Z.pow];
    by rewrite (proj2 (Z.ltb_lt z (2 ^ 63))) by lia|]). lia.
Qed.

(** The decimal text of a number contains no separator. *)
Lemma pretty_N_go_free c x s :
  digit_val c = None → contains_char c (pretty_N_go x s) = contains_char c s.
Proof.
  intros Hc. revert s. induction (N.lt_wf_0 x) as [x _ IH]. intros s.
  destruct (decide (x = 0%N)) as [->|Hx]; [by rewrite pretty_N_go_0|].
  rewrite pretty_N_go_step by lia. rewrite IH by (apply N.div_lt; lia). cbn.
  destruct (Ascii.eqb_spec (pretty_N_char (x `mod` 10)) c) as [<-|]; [|done].
  assert (x `mod` 10 < 10)%N by (apply N.mod_lt; lia).
  generalize dependent (x `mod` 10)%N. intros d _ Hdig Hd.
  assert (∃ n : nat, (n < 10)%nat ∧ d = N.of_nat n) as (n & Hn & ->).
  { exists (N.to_nat d). lia. }
  do 10 (destruct n as [|n]; [discriminate|]). lia.
Qed.

Lemma itoa_free c z : digit_val c = None → c ≠ "-"%char → contains_char c (itoa z) = false.
Proof.
  intros Hc Hm.
  assert (Ascii.eqb "0" c = false) as H0.
  { destruct (Ascii.eqb_spec "0" c) as [<-|]; [discriminate|done]. }
  assert (∀ n : N, contains_char c (pretty n) = false) as Hn.
  { intros n. unfold pretty, pretty_N. case_decide.
    - cbn [contains_char]. by rewrite H0.
    - by rewrite pretty_N_go_free. }
  unfold itoa, pretty, pretty_Z. destruct z as [|p|p].
  - cbn [contains_char]. by rewrite H0.
  - apply (Hn (N.pos p)).
  - rewrite contains_char_append. cbn [contains_char].
    destruct (Ascii.eqb_spec "-" c); [done|]. apply (Hn (N.pos p)).
Qed.

Lemma b64_char_graphic d : 0 ≤ d < 64 → graphic_char (b64_char d) = true.
Proof.
  intros H. assert (∃ n : nat, (n < 64)%nat ∧ d = Z.of_nat n) as (n & Hn & ->).
  { exists (Z.to_nat d). lia. }
  do 64 (destruct n as [|n]; [reflexivity|]). lia.
Qed.

Lemma b64_encode_graphic s : graphic (b64_encode s) = true.
Proof.
  induction s as [|a|a b|a b c r IH] using string_ind3; [done|..]; byte_ranges;
    cbn [b64_encode graphic]; rewrite !b64_char_graphic by lia; done.
Qed.

Lemma b64_encode_empty s : b64_encode s = "" → s = "".
Proof. apply (b64_encode_inj s ""). Qed.

Lemma b64_encode_32 s : slen s = 32 → slen (b64_encode s) = 43.
Proof.
  intros H. pose proof (b64_encode_length s) as Hl. rewrite H in Hl.
  change (32 mod 3 =? 0)%Z with false in Hl. change (32 mod 3 =? 1)%Z with false in Hl.
  cbv iota in Hl. lia.
Qed.

(** ** Hexadecimal digests *)

Lemma hex_char_inj d e : 0 ≤ d < 16 → 0 ≤ e < 16 → hex_char d = hex_char e → d = e.
Proof.
  intros Hd He H. unfold hex_char in H. apply (f_equal byte_val) in H.
  destruct (Z.ltb_spec d 10), (Z.ltb_spec e 10); rewrite !byte_val_of in H by lia; lia.
Qed.

Lemma hex_encode_inj s t : hex_encode s = hex_encode t → s = t.
Proof.
  revert t. induction s as [|a s IH]; intros [|b t] H; cbn in *; try done.
  injection H as H1 H2 H3. pose proof (byte_val_range a). pose proof (byte_val_range b).
  apply hex_char_inj in H1, H2; try lia. rewrite (IH t H3). f_equal. apply byte_val_inj. lia.
Qed.

Lemma hex_char_graphic d : 0 ≤ d < 16 → graphic_char (hex_char d) = true.
Proof.
  intros H. unfold hex_char, graphic_char. destruct (Z.ltb_spec d 10);
    rewrite byte_val_of by lia; apply in_range_true; lia.
Qed.

Lemma hex_encode_graphic s : graphic (hex_encode s) = true.
Proof.
  induction s as [|a s IH]; [done|]. pose proof (byte_val_range a). cbn.
  rewrite !hex_char_graphic by lia. done.
Qed.

Lemma hex_encode_length s : slen (hex_encode s) = 2 * slen s.
Proof. unfold slen. induction s as [|a s IH]; cbn [hex_encode String.length]; lia. Qed.

(** Printable strings contain no control character. *)
Lemma graphic_free c s : graphic_char c = false → graphic s = true → contains_char c s = false.
Proof.
  intros Hc. induction s as [|a s IH]; [done|]. cbn. intros [Ha Hs]%andb_true_iff.
  rewrite IH by done. rewrite orb_false_r. apply Ascii.eqb_neq. congruence.
Qed.

Lemma itoa_graphic z : graphic (pretty (z : N)) = true.
Proof.
  assert (∀ x s, graphic s = true → graphic (pretty_N_go x s) = true) as Hgo.
  { intros x. induction (N.lt_wf_0 x) as [x _ IH]. intros s Hs.
    destruct (decide (x = 0)%N) as [->|]; [done|]. rewrite pretty_N_go_step by lia.
    apply IH; [apply N.div_lt; lia|]. cbn. rewrite Hs, andb_true_r.
    assert (x mod 10 < 10)%N as Hm by (apply N.mod_lt; lia).
    unfold pretty_N_char. repeat case_match; try done. }
  unfold pretty, pretty_N. case_decide; [done|]. by apply Hgo.
Qed.
