(* ===== verification/Json.v ===== *)
(** * JSON as [encoding/json] reads it

    The part of Go's [encoding/json] that [services/persistence/types.go]
    relies on: [json.Valid] and decoding into [any] with [UseNumber].  Numbers
    keep their text, strings are unquoted the way the decoder does it (escapes,
    surrogate pairs, invalid UTF-8 replaced by U+FFFD), nesting is limited to
    10000, and a repeated member of an object overwrites the earlier one, as
    the assignment to the decoded Go map does.  [parse_strict] is the reading of
    [services/ai/strict_json.go], which refuses repeated members; [parse_all]
    keeps every member as written and serves only to say what a repeated key is. *)

From S2P Require Import Prelude GoStrings Encoding.

Inductive json :=
| JNull
| JBool (b : bool)
| JNumber (text : string)
| JString (s : string)
| JArray (items : list json)
| JObject (members : list (string * json)).

Definition maxNestingDepth : Z := 10000.
Definition quote : ascii := "034"%char.
Definition backslash : ascii := "092"%char.

Definition is_ws (a : ascii) : bool :=
  Ascii.eqb a " " || Ascii.eqb a "009" || Ascii.eqb a "010" || Ascii.eqb a "013".
Fixpoint skip_ws (s : string) : string :=
  match s with
  | String a s' => if is_ws a then skip_ws s' else s
  | EmptyString => s
  end.

(** ** Strings *)

Definition utf8_encode (r : Z) : string :=
  let c k := byte_of (128 + Z.land (Z.shiftr r k) 63) in
  if (r <? 128)%Z then String (byte_of r) ""
  else if (r <? 2048)%Z then String (byte_of (192 + Z.shiftr r 6)) (String (c 0) "")
  else if (r <? 65536)%Z then String (byte_of (224 + Z.shiftr r 12)) (String (c 6) (String (c 0) ""))
  else String (byte_of (240 + Z.shiftr r 18)) (String (c 12) (String (c 6) (String (c 0) ""))).

Definition hex_value (a : ascii) : option Z :=
  let b := byte_val a in
  if in_range 48 57 b then Some (b - 48)
  else if in_range 97 102 b then Some (b - 87)
  else if in_range 65 70 b then Some (b - 55)
  else None.

(** [getu4]: the value of four hex digits. *)
Definition hex4 (a b c d : ascii) : option Z :=
  a ← hex_value a; b ← hex_value b; c ← hex_value c; d ← hex_value d;
  Some (a * 4096 + b * 256 + c * 16 + d).

Definition simple_escape (a : ascii) : option ascii :=
  match byte_val a with
  | 34 => Some quote | 92 => Some backslash | 47 => Some "/"%char
  | 98 => Some "008"%char | 102 => Some "012"%char | 110 => Some "010"%char
  | 114 => Some "013"%char | 116 => Some "009"%char
  | _ => None
  end.

Definition is_surrogate (r : Z) : bool := in_range 55296 57343 r.
(** [utf16.DecodeRune]: [None] stands for U+FFFD. *)
Definition utf16_decode (hi lo : Z) : option Z :=
  if in_range 55296 56319 hi && in_range 56320 57343 lo
  then Some ((hi - 55296) * 1024 + (lo - 56320) + 65536) else None.

Definition prepend (p : string) (r : option (string * string)) : option (string * string) :=
  '(d, rest) ← r; Some (p +:+ d, rest).

(** One step of the loop of the decoder's [unquote] at the bytes [s]: the
    closing quote, an error, or some output for the next [n] bytes. *)
Inductive unquoted := QEnd | QFail | QEmit (out : string) (n : nat).

Definition escape_step (s : string) : unquoted :=
  match s with
  | EmptyString => QFail
  | String e s' =>
    match simple_escape e with
    | Some c => QEmit (String c "") 2
    | None =>
      if negb (Ascii.eqb e "u") then QFail else
      match s' with
      | String h1 (String h2 (String h3 (String h4 s4))) =>
        match hex4 h1 h2 h3 h4 with
        | None => QFail
        | Some r =>
          if negb (is_surrogate r) then QEmit (utf8_encode r) 6
          else match s4 with
          | String b (String u (String k1 (String k2 (String k3 (String k4 _))))) =>
            match (if Ascii.eqb b backslash && Ascii.eqb u "u" then hex4 k1 k2 k3 k4 else None) ≫= utf16_decode r with
            | Some dec => QEmit (utf8_encode dec) 12
            | None => QEmit (utf8_encode rune_error) 6
            end
          | _ => QEmit (utf8_encode rune_error) 6
          end
        end
      | _ => QFail
      end
    end
  end.

Definition unquote_step (s : string) : unquoted :=
  match s with
  | EmptyString => QFail
  | String a rest =>
    if Ascii.eqb a quote then QEnd
    else if Ascii.eqb a backslash then escape_step rest
    else if (byte_val a <? 32)%Z then QFail
    else if (byte_val a <? 128)%Z then QEmit (String a "") 1
    else let '(r, n) := decode_rune s in
         if Nat.eqb n 1 then QEmit (utf8_encode rune_error) 1 else QEmit (take_str n s) n
  end.

(** The body of a string literal, after its opening quote: the decoded text
    and what follows the closing quote.  [skip] counts the bytes that the
    last step already dealt with. *)
Fixpoint unquote (skip : nat) (s : string) : option (string * string) :=
  match s with
  | EmptyString => None
  | String a rest =>
    match skip with
    | S k => unquote k rest
    | O =>
      match unquote_step s with
      | QEnd => Some ("", rest)
      | QFail => None
      | QEmit out n => prepend out (unquote (pred n) rest)
      end
    end
  end.

(** ** Numbers *)

Definition is_digit (a : ascii) : bool := in_range 48 57 (byte_val a).
Fixpoint digits (s : string) : string * string :=
  match s with
  | String a s' => if is_digit a then let '(d, r) := digits s' in (String a d, r) else ("", s)
  | EmptyString => ("", s)
  end.

Definition digits1 (s : string) : option (string * string) :=
  let '(d, r) := digits s in if d =? "" then None else Some (d, r).

Definition int_part (s : string) : option (string * string) :=
  match s with
  | String a r => if Ascii.eqb a "0" then Some ("0", r) else digits1 s
  | EmptyString => None
  end.

Definition frac_part (s : string) : option (string * string) :=
  match s with
  | String a r => if Ascii.eqb a "." then prepend "." (digits1 r) else Some ("", s)
  | EmptyString => Some ("", s)
  end.

Definition exp_part (s : string) : option (string * string) :=
  match s with
  | String a r =>
    if Ascii.eqb a "e" || Ascii.eqb a "E" then
      prepend (String a "")
        match r with
        | String b r' => if Ascii.eqb b "+" || Ascii.eqb b "-" then prepend (String b "") (digits1 r') else digits1 r
        | EmptyString => None
        end
    else Some ("", s)
  | EmptyString => Some ("", s)
  end.

Definition unsigned (s : string) : option (string * string) :=
  '(i, r) ← int_part s; '(f, r) ← frac_part r; '(e, r) ← exp_part r;
  Some (i +:+ f +:+ e, r).

Definition number (s : string) : option (string * string) :=
  match s with
  | String a r => if Ascii.eqb a "-" then prepend "-" (unsigned r) else unsigned s
  | EmptyString => None
  end.

(** ** Values *)

(** [m[key] = value] on the members read so far. *)
Definition set_member (k : string) (v : json) (l : list (string * json)) : list (string * json) :=
  if bool_decide (k ∈ l.*1) then map (λ kv, if kv.1 =? k then (k, v) else kv) l else l ++ [(k, v)].

Definition literal (word : string) (v : json) (s : string) : option (json * string) :=
  if has_prefix word s then Some (v, drop_str (String.length word) s) else None.

(** What becomes of a repeated member of an object: it replaces the earlier one,
    or it is an error, as [inspectJSONValue] of [services/ai/strict_json.go] makes
    it, or both are kept. *)
Inductive repeats := Replace | Refuse | Keep.
Definition refused (mode : repeats) (k : string) (l : list (string * json)) : bool :=
  match mode with Refuse => bool_decide (k ∈ l.*1) | _ => false end.
Definition add_member (mode : repeats) (k : string) (v : json) (l : list (string * json)) : list (string * json) :=
  match mode with Keep => l ++ [(k, v)] | _ => set_member k v l end.

Section reader.
Context (mode : repeats).

Fixpoint value (fuel : nat) (depth : Z) (s : string) : option (json * string) :=
  match fuel with
  | O => None
  | S f =>
    match skip_ws s with
    | EmptyString => None
    | String a rest =>
      if Ascii.eqb a "{" then
        if (maxNestingDepth <? depth + 1)%Z then None
        else match skip_ws rest with
        | String b rest' => if Ascii.eqb b "}" then Some (JObject [], rest') else members f (depth + 1) [] rest
        | EmptyString => None
        end
      else if Ascii.eqb a "[" then
        if (maxNestingDepth <? depth + 1)%Z then None
        else match skip_ws rest with
        | String b rest' => if Ascii.eqb b "]" then Some (JArray [], rest') else elements f (depth + 1) [] rest
        | EmptyString => None
        end
      else if Ascii.eqb a quote then '(d, r) ← unquote 0 rest; Some (JString d, r)
      else if Ascii.eqb a "t" then literal "true" (JBool true) (skip_ws s)
      else if Ascii.eqb a "f" then literal "false" (JBool false) (skip_ws s)
      else if Ascii.eqb a "n" then literal "null" JNull (skip_ws s)
      else '(n, r) ← number (skip_ws s); Some (JNumber n, r)
    end
  end
with members (fuel : nat) (depth : Z) (acc : list (string * json)) (s : string) : option (json * string) :=
  match fuel with
  | O => None
  | S f =>
    match skip_ws s with
    | EmptyString => None
    | String a rest =>
      if negb (Ascii.eqb a quote) then None else
      '(key, r1) ← unquote 0 rest;
      if refused mode key acc then None else
      match skip_ws r1 with
      | EmptyString => None
      | String c r2 =>
        if negb (Ascii.eqb c ":") then None else
        '(v, r3) ← value f depth r2;
        match skip_ws r3 with
        | EmptyString => None
        | String d r4 =>
          if Ascii.eqb d "," then members f depth (add_member mode key v acc) r4
          else if Ascii.eqb d "}" then Some (JObject (add_member mode key v acc), r4)
          else None
        end
      end
    end
  end
with elements (fuel : nat) (depth : Z) (acc : list json) (s : string) : option (json * string) :=
  match fuel with
  | O => None
  | S f =>
    '(v, r1) ← value f depth s;
    match skip_ws r1 with
    | EmptyString => None
    | String d r2 =>
      if Ascii.eqb d "," then elements f depth (acc ++ [v]) r2
      else if Ascii.eqb d "]" then Some (JArray (acc ++ [v]), r2)
      else None
    end
  end.

(** [None] when the text is not one JSON value.  Two calls are spent per byte at
    most. *)
Definition read (s : string) : option json :=
  '(v, r) ← value (2 * String.length s + 2) 0 s;
  if skip_ws r =? "" then Some v else None.

(** ** The fuel of [parse] is enough

    Every call of [value] or [members] that is not at the end consumes a byte,
    so above the bound used by [parse] more fuel changes nothing. *)

Lemma skip_ws_length s : (String.length (skip_ws s) ≤ String.length s)%nat.
Proof. induction s as [|a s IH]; cbn; [done|]. destruct (is_ws a); cbn; lia. Qed.

Lemma skip_ws_cons s a r : skip_ws s = String a r → (String.length r < String.length s)%nat.
Proof. intros H. pose proof (skip_ws_length s) as L. rewrite H in L. cbn in L. lia. Qed.

Lemma prepend_Some p o d r : prepend p o = Some (d, r) → ∃ d', o = Some (d', r) ∧ d = p +:+ d'.
Proof. destruct o as [[d' r']|]; cbn; intros; simplify_eq. eauto. Qed.

Lemma unquote_shorter s skip d r :
  unquote skip s = Some (d, r) → (String.length r < String.length s)%nat.
Proof.
  revert skip d r. induction s as [|a s IH]; intros skip d r H; [done|].
  cbn -[unquote_step] in *. destruct skip as [|k]; [|apply IH in H; lia].
  destruct (unquote_step (String a s)) as [| |out n]; [simplify_eq; lia|done|].
  apply prepend_Some in H as (d' & H & _). apply IH in H. lia.
Qed.

Lemma digits_length s d r : digits s = (d, r) → (String.length r ≤ String.length s)%nat ∧ (d ≠ "" → String.length r < String.length s)%nat.
Proof.
  revert d r. induction s as [|a s IH]; cbn; intros d r H; [by simplify_eq|].
  destruct (is_digit a); [|simplify_eq; done].
  destruct (digits s) as [d' r'] eqn:E. simplify_eq. destruct (IH _ _ eq_refl). cbn. split; [|intros _]; lia.
Qed.

Lemma digits1_shorter s d r : digits1 s = Some (d, r) → (String.length r < String.length s)%nat.
Proof.
  unfold digits1. destruct (digits s) as [d' r'] eqn:E. destruct (d' =? "") eqn:Ed; [done|].
  intros; simplify_eq. apply String.eqb_neq in Ed. by apply digits_length in E as [_ ?]; auto.
Qed.

Lemma int_part_shorter s d r : int_part s = Some (d, r) → (String.length r < String.length s)%nat.
Proof.
  destruct s as [|a s]; [done|]. unfold int_part. case_match; [|apply digits1_shorter].
  intros; simplify_eq. cbn. lia.
Qed.

Lemma frac_part_length s d r : frac_part s = Some (d, r) → (String.length r ≤ String.length s)%nat.
Proof.
  destruct s as [|a s]; cbn; [intros; by simplify_eq|]. case_match; [|intros; by simplify_eq].
  intros (d' & H' & _)%prepend_Some. apply digits1_shorter in H'. lia.
Qed.

Lemma exp_part_length s d r : exp_part s = Some (d, r) → (String.length r ≤ String.length s)%nat.
Proof.
  destruct s as [|a s]; cbn; [intros; by simplify_eq|]. case_match; [|intros; by simplify_eq].
  intros (d' & H' & _)%prepend_Some. destruct s as [|b s]; [done|]. case_match.
  - apply prepend_Some in H' as (d'' & H' & _). apply digits1_shorter in H'. cbn. lia.
  - apply digits1_shorter in H'. cbn in *. lia.
Qed.

Lemma number_shorter s d r : number s = Some (d, r) → (String.length r < String.length s)%nat.
Proof.
  assert (∀ s d r, unsigned s = Some (d, r) → (String.length r < String.length s)%nat) as HU.
  { intros t d' r' H. unfold unsigned in H.
    apply bind_Some in H as ([i r1] & H1 & H). apply bind_Some in H as ([f r2] & H2 & H).
    apply bind_Some in H as ([e r3] & H3 & H). simplify_eq.
    apply int_part_shorter in H1. apply frac_part_length in H2. apply exp_part_length in H3. lia. }
  destruct s as [|a s]; cbn [number]; [done|]. case_match; [|apply HU].
  intros (d' & H' & _)%prepend_Some. apply HU in H'. cbn. lia.
Qed.

Lemma literal_shorter w v s x r : w ≠ "" → literal w v s = Some (x, r) → (String.length r < String.length s)%nat.
Proof.
  unfold literal. destruct (has_prefix w s) eqn:E; [|done]. intros Hw ?; simplify_eq.
  destruct w, s; try done. rewrite drop_str_length. cbn. lia.
Qed.

Lemma value_shorter f :
  (∀ d s v r, value f d s = Some (v, r) → (String.length r < String.length s)%nat) ∧
  (∀ d acc s v r, members f d acc s = Some (v, r) → (String.length r < String.length s)%nat) ∧
  (∀ d acc s v r, elements f d acc s = Some (v, r) → (String.length r < String.length s)%nat).
Proof.
  induction f as [|f (IHv & IHm & IHe)]; [done|].
  split_and!; cbn -[maxNestingDepth]; intros.
  - destruct (skip_ws s) as [|a rest] eqn:Es; [done|].
    pose proof (skip_ws_length s) as Hs. rewrite Es in Hs. cbn in Hs.
    repeat case_match; simplify_eq;
      try match goal with
      | H : skip_ws rest = String _ _ |- _ => pose proof (skip_ws_cons _ _ _ H)
      | H : literal _ _ _ = Some _ |- _ => apply literal_shorter in H; [|done]; cbn in H
      | H : _ ≫= _ = Some _ |- _ => apply bind_Some in H as ([] & H & ?); simplify_eq
      end;
      try match goal with
      | H : members _ _ _ _ = Some _ |- _ => apply IHm in H
      | H : elements _ _ _ _ = Some _ |- _ => apply IHe in H
      | H : unquote _ _ = Some _ |- _ => apply unquote_shorter in H
      | H : number _ = Some _ |- _ => apply number_shorter in H; cbn in H
      end; lia.
  - destruct (skip_ws s) as [|a rest] eqn:Es; [done|]. apply skip_ws_cons in Es.
    case_match; [done|]. apply bind_Some in H as ([key r1] & Hk & H). apply unquote_shorter in Hk. case_match; [done|].
    destruct (skip_ws r1) as [|c r2] eqn:E1; [done|]. apply skip_ws_cons in E1.
    case_match; [done|]. apply bind_Some in H as ([x r3] & Hv & H). apply IHv in Hv.
    destruct (skip_ws r3) as [|b r4] eqn:E3; [done|]. apply skip_ws_cons in E3.
    repeat case_match; simplify_eq; [|lia]. apply IHm in H. lia.
  - apply bind_Some in H as ([x r1] & Hv & H). apply IHv in Hv.
    destruct (skip_ws r1) as [|b r2] eqn:E1; [done|]. apply skip_ws_cons in E1.
    repeat case_match; simplify_eq; [|lia]. apply IHe in H. lia.
Qed.

Lemma bind_ext_Some {A B} (o : option A) (f g : A → option B) :
  (∀ x, o = Some x → f x = g x) → o ≫= f = o ≫= g.
Proof. destruct o; cbn; auto. Qed.

Lemma value_fuel f : ∀ f',
  (∀ d s, (2 * String.length s < f)%nat → (2 * String.length s < f')%nat → value f d s = value f' d s) ∧
  (∀ d acc s, (2 * String.length s < f)%nat → (2 * String.length s < f')%nat →
     members f d acc s = members f' d acc s) ∧
  (∀ d acc s, (2 * String.length s + 1 < f)%nat → (2 * String.length s + 1 < f')%nat →
     elements f d acc s = elements f' d acc s).
Proof.
  induction f as [|f IH]; [intros; split_and!; lia|]. intros [|f']; [split_and!; lia|].
  destruct (IH f') as (IHv & IHm & IHe). split_and!; cbn -[maxNestingDepth Nat.mul]; intros.
  - destruct (skip_ws s) as [|a rest] eqn:Es; [done|]. apply skip_ws_cons in Es.
    repeat case_match; try done; first [apply IHm|apply IHe]; lia.
  - destruct (skip_ws s) as [|a rest] eqn:Es; [done|]. apply skip_ws_cons in Es.
    case_match; [done|]. apply bind_ext_Some. intros [key r1] Hk%unquote_shorter. case_match; [done|].
    destruct (skip_ws r1) as [|c r2] eqn:E1; [done|]. apply skip_ws_cons in E1.
    case_match; [done|]. rewrite IHv by lia. apply bind_ext_Some.
    intros [x r3] Hv%(proj1 (value_shorter f')).
    destruct (skip_ws r3) as [|b r4] eqn:E3; [done|]. apply skip_ws_cons in E3.
    repeat case_match; try done. apply IHm; lia.
  - rewrite IHv by lia. apply bind_ext_Some. intros [x r1] Hv%(proj1 (value_shorter f')).
    destruct (skip_ws r1) as [|b r2] eqn:E1; [done|]. apply skip_ws_cons in E1.
    repeat case_match; try done. apply IHe; lia.
Qed.

(** More fuel never changes what is read. *)
Lemma read_any_fuel f s :
  (2 * String.length s + 2 ≤ f)%nat →
  read s = '(v, r) ← value f 0 s; if skip_ws r =? "" then Some v else None.
Proof. intros Hf. unfold read. by rewrite (proj1 (value_fuel (2 * String.length s + 2) f)) by lia. Qed.

(** ** Printing and the round trip

    [print] writes a value without spaces, as [json.Marshal] does.  On the
    values a Go program can hold (distinct keys, numbers that are JSON numbers)
    with ASCII text, parsing gives the value back: the model of the decoder
    neither loses nor invents members. *)

Definition escape (a : ascii) : string :=
  if Ascii.eqb a quote then String backslash (String quote "")
  else if Ascii.eqb a backslash then String backslash (String backslash "")
  else if (byte_val a <? 32)%Z then
    "\u00" +:+ String (hex_char (byte_val a / 16)) (String (hex_char (byte_val a `mod` 16)) "")
  else String a "".

Fixpoint escape_all (s : string) : string :=
  match s with EmptyString => "" | String a s' => escape a +:+ escape_all s' end.

Definition quoted (s : string) : string := String quote (escape_all s +:+ String quote "").

Fixpoint print (v : json) : string :=
  match v with
  | JNull => "null"
  | JBool b => if b then "true" else "false"
  | JNumber text => text
  | JString s => quoted s
  | JArray l => "[" +:+ join "," (map print l) +:+ "]"
  | JObject l => "{" +:+ join "," (map (λ kv, let '(k, x) := kv in quoted k +:+ ":" +:+ print x) l) +:+ "}"
  end.

Definition ascii_text (s : string) : bool :=
  forallb (λ a, byte_val a <? 128)%Z (String.list_ascii_of_string s).

Definition number_text (s : string) : bool := bool_decide (number s = Some (s, "")).

Fixpoint well_formed (v : json) : bool :=
  match v with
  | JNull | JBool _ => true
  | JNumber text => number_text text
  | JString s => ascii_text s
  | JArray l => forallb well_formed l
  | JObject l => bool_decide (NoDup l.*1) &&
      forallb (λ kv, let '(k, x) := kv in ascii_text k && well_formed x) l
  end.

(** The number of containers around the innermost value. *)
Fixpoint nesting (v : json) : Z :=
  match v with
  | JArray l => 1 + foldr (λ x n, nesting x `max` n) 0 l
  | JObject l => 1 + foldr (λ kv n, let '(_, x) := kv in nesting x `max` n) 0 l
  | _ => 0
  end.

Section induction.
Context (P : json → Prop).
Context (Hnull : P JNull) (Hbool : ∀ b, P (JBool b)) (Hnum : ∀ n, P (JNumber n)) (Hstr : ∀ s, P (JString s)).
Context (Harr : ∀ l, Forall P l → P (JArray l)).
Context (Hobj : ∀ l, Forall (λ kv, P kv.2) l → P (JObject l)).

(** Induction over the values inside arrays and objects. *)
Fixpoint json_nested_ind (v : json) : P v :=
  match v with
  | JNull => Hnull
  | JBool b => Hbool b
  | JNumber n => Hnum n
  | JString s => Hstr s
  | JArray l => Harr l ((fix go l := match l return Forall P l with
                         | [] => Forall_nil_2 _
                         | x :: l' => Forall_cons_2 _ _ _ (json_nested_ind x) (go l') end) l)
  | JObject l => Hobj l ((fix go l := match l return Forall (λ kv, P kv.2) l with
                         | [] => Forall_nil_2 _
                         | kv :: l' => Forall_cons_2 _ _ _ (json_nested_ind kv.2) (go l') end) l)
  end.
End induction.

Lemma unquote_emit s out n t :
  unquote_step s = QEmit out n → (0 < n ≤ String.length s)%nat →
  unquote 0 s = prepend out (unquote 0 t) ∨ drop_str n s ≠ t.
Proof.
  intros Hs Hn. destruct (decide (drop_str n s = t)) as [<-|]; [left|by right].
  destruct s as [|a s]; cbn -[unquote_step] in *; [lia|]. rewrite Hs. f_equal.
  destruct n as [|n]; [lia|]. cbn [pred drop_str]. assert (n ≤ String.length s)%nat as Hl by lia.
  clear -Hl. revert s Hl. induction n as [|n IH]; intros [|b s] Hl; cbn in *; try done; try lia.
  apply IH. lia.
Qed.

Lemma unquote_escape a t :
  byte_val a < 128 → unquote 0 (escape a +:+ t) = prepend (String a "") (unquote 0 t).
Proof.
  intros Ha.
  assert (∃ n, unquote_step (escape a +:+ t) = QEmit (String a "") n ∧
               n = String.length (escape a) ∧ (0 < n)%nat) as (n & E & Hn & H0).
  { clear -Ha. destruct a as [[] [] [] [] [] [] [] []]; try (exfalso; vm_compute in Ha; discriminate);
      eexists; (split; [reflexivity|split; [reflexivity|cbn; lia]]). }
  destruct (unquote_emit _ _ _ t E) as [?|Hd]; [rewrite length_append; lia|done|].
  exfalso. apply Hd. rewrite Hn. apply drop_str_append.
Qed.

Lemma unquote_quoted s rest :
  ascii_text s = true → unquote 0 (escape_all s +:+ String quote rest) = Some (s, rest).
Proof.
  unfold ascii_text. induction s as [|a s IH]; cbn -[unquote escape]; [done|].
  intros [Ha Hs]%andb_true_iff. rewrite append_assoc, unquote_escape by (by apply Z.ltb_lt).
  by rewrite IH.
Qed.

(** What may follow a number without becoming part of it. *)
Definition stops (s : string) : Prop :=
  match s with
  | EmptyString => True
  | String a _ => is_digit a = false ∧ a ∉ ["."; "e"; "E"]%char
  end.

Lemma digits_app s d r rest :
  digits s = (d, r) → stops rest → digits (s +:+ rest) = (d, r +:+ rest).
Proof.
  intros H Hr. revert d r H. induction s as [|a s IH]; cbn -[is_digit String.app]; intros d r H; simplify_eq.
  - rewrite append_Empty. destruct rest as [|b rest]; [done|]. destruct Hr as [Hb _].
    cbn -[is_digit]. by rewrite Hb.
  - rewrite append_String. cbn -[is_digit]. destruct (is_digit a) eqn:Ha; [|by simplify_eq].
    destruct (digits s) as [d' r'] eqn:E. simplify_eq. by rewrite (IH d' r).
Qed.

Lemma digits1_app s d r rest :
  digits1 s = Some (d, r) → stops rest → digits1 (s +:+ rest) = Some (d, r +:+ rest).
Proof.
  unfold digits1. destruct (digits s) as [d' r'] eqn:E. intros H Hr.
  rewrite (digits_app _ _ _ _ E Hr). by destruct (d' =? ""); simplify_eq.
Qed.

Lemma int_part_app s d r rest :
  int_part s = Some (d, r) → stops rest → int_part (s +:+ rest) = Some (d, r +:+ rest).
Proof.
  destruct s as [|a s]; [done|]. cbn [int_part]. rewrite append_String. cbn [int_part]. case_match.
  - intros; by simplify_eq.
  - rewrite <-append_String. apply digits1_app.
Qed.

Lemma frac_part_app s d r rest :
  frac_part s = Some (d, r) → stops rest → frac_part (s +:+ rest) = Some (d, r +:+ rest).
Proof.
  destruct s as [|a s]; cbn [frac_part]; intros H Hr.
  - simplify_eq. rewrite append_Empty. destruct rest as [|b rest]; [done|].
    destruct Hr as [_ Hb]. cbn. destruct (Ascii.eqb_spec b "."); [subst; exfalso; apply Hb; set_solver|done].
  - rewrite append_String. cbn [frac_part]. case_match; [|by simplify_eq].
    apply prepend_Some in H as (d' & H & ->). by rewrite (digits1_app _ _ _ _ H Hr).
Qed.

Lemma exp_part_app s d r rest :
  exp_part s = Some (d, r) → stops rest → exp_part (s +:+ rest) = Some (d, r +:+ rest).
Proof.
  destruct s as [|a s]; cbn [exp_part]; intros H Hr.
  - simplify_eq. rewrite append_Empty. destruct rest as [|b rest]; [done|].
    destruct Hr as [_ Hb]. cbn.
    destruct (Ascii.eqb_spec b "e"), (Ascii.eqb_spec b "E"); subst; try (exfalso; apply Hb; set_solver). done.
  - rewrite append_String. cbn [exp_part]. case_match; [|by simplify_eq].
    apply prepend_Some in H as (d' & H & ->). destruct s as [|b s]; [done|]. rewrite append_String.
    case_match.
    + apply prepend_Some in H as (d'' & H & ->). by rewrite (digits1_app _ _ _ _ H Hr).
    + rewrite <-append_String. by rewrite (digits1_app _ _ _ _ H Hr).
Qed.

Lemma unsigned_app s d r rest :
  unsigned s = Some (d, r) → stops rest → unsigned (s +:+ rest) = Some (d, r +:+ rest).
Proof.
  unfold unsigned. intros H Hr.
  apply bind_Some in H as ([i r1] & H1 & H). apply bind_Some in H as ([f r2] & H2 & H).
  apply bind_Some in H as ([e r3] & H3 & H). simplify_eq.
  rewrite (int_part_app _ _ _ _ H1 Hr). cbn. rewrite (frac_part_app _ _ _ _ H2 Hr). cbn.
  by rewrite (exp_part_app _ _ _ _ H3 Hr).
Qed.

Lemma number_app s d r rest :
  number s = Some (d, r) → stops rest → number (s +:+ rest) = Some (d, r +:+ rest).
Proof.
  destruct s as [|a s]; [done|]. cbn [number]. rewrite append_String. cbn [number]. case_match.
  - intros (d' & H' & ->)%prepend_Some Hr. by rewrite (unsigned_app _ _ _ _ H' Hr).
  - rewrite <-append_String. apply unsigned_app.
Qed.

(** The first byte of a printed value says which kind it is. *)
Definition number_head (a : ascii) : bool := is_digit a || Ascii.eqb a "-".

Lemma number_text_head s : number_text s = true → ∃ a t, s = String a t ∧ number_head a = true.
Proof.
  unfold number_text. rewrite bool_decide_eq_true. destruct s as [|a t]; [done|]. cbn [number].
  intros H. exists a, t. split; [done|]. unfold number_head. case_match; [by rewrite orb_true_r|].
  rewrite orb_false_r. unfold unsigned in H. apply bind_Some in H as ([i r1] & H1 & _).
  cbn [int_part] in H1. destruct (Ascii.eqb_spec a "0") as [->|]; [done|].
  unfold digits1 in H1. cbn -[is_digit] in H1. by destruct (is_digit a).
Qed.

Lemma print_head v : well_formed v = true → ∃ a t, print v = String a t ∧
  is_ws a = false ∧ a ≠ "]"%char ∧ a ≠ "}"%char.
Proof.
  destruct v as [|[]|n|s|l|l]; intros Hw; try (eexists _, _; split; [reflexivity|done]).
  destruct (number_text_head _ Hw) as (a & t & -> & Ha). exists a, t. split; [done|].
  unfold number_head, is_digit in Ha. clear Hw.
  split_and!; [|intros ->; done..].
  unfold is_ws. by repeat match goal with |- context [Ascii.eqb a ?c] =>
    destruct (Ascii.eqb_spec a c) as [->|_]; [discriminate Ha|] end.
Qed.

Lemma skip_ws_print v rest : well_formed v = true → skip_ws (print v +:+ rest) = print v +:+ rest.
Proof.
  intros Hw. destruct (print_head _ Hw) as (a & t & -> & Ha & _). rewrite append_String.
  cbn -[is_ws]. by rewrite Ha.
Qed.

Lemma value_number s f d rest :
  number_text s = true → stops rest → value (S f) d (s +:+ rest) = Some (JNumber s, rest).
Proof.
  intros Hn Hr. pose proof (skip_ws_print (JNumber s) rest Hn) as Hws. cbn [print] in Hws.
  destruct (number_text_head _ Hn) as (a & t & Es & Ha).
  unfold number_text in Hn. apply bool_decide_eq_true in Hn.
  cbn -[number maxNestingDepth]. rewrite Hws, (number_app _ _ _ _ Hn Hr). subst s. rewrite append_String.
  cbn [mbind option_bind]. rewrite append_Empty. unfold number_head, is_digit in Ha.
  by repeat match goal with |- context [Ascii.eqb a ?c] =>
    destruct (Ascii.eqb_spec a c) as [->|_]; [try discriminate Ha|] end.
Qed.

Lemma join_map_cons {A} sep (f : A → string) x l :
  l ≠ [] → join sep (map f (x :: l)) = f x +:+ String sep (join sep (map f l)).
Proof. by destruct l. Qed.

Section lists.
(** What the round trip of one value says, for the values of a list. *)
Definition reads (v : json) : Prop := well_formed v = true → ∀ f d rest,
  nesting v + d ≤ maxNestingDepth → (2 * String.length (print v) < f)%nat → stops rest →
  value f d (print v +:+ rest) = Some (v, rest).

Lemma elements_print l : Forall reads l → forallb well_formed l = true → l ≠ [] → ∀ f d acc rest,
  Forall (λ v, nesting v + d ≤ maxNestingDepth) l →
  (2 * String.length (join "," (map print l)) + 1 < f)%nat →
  elements f d acc (join "," (map print l) +:+ String "]" rest) = Some (JArray (acc ++ l), rest).
Proof.
  induction l as [|v l IH]; [done|]. intros Hr Hw _ f d acc rest Hn Hf.
  apply Forall_cons in Hr as [Hv Hr]. apply Forall_cons in Hn as [Hnv Hn].
  cbn in Hw. apply andb_true_iff in Hw as [Hwv Hw]. destruct f as [|f]; [lia|].
  destruct (decide (l = [])) as [->|Hl].
  - cbn [map join] in *. cbn [elements]. rewrite (Hv Hwv); [done|done|lia|split; [done|set_solver]].
  - rewrite join_map_cons in * by done. rewrite length_append in Hf. cbn [String.length] in Hf.
    rewrite append_assoc, append_String. cbn [elements].
    rewrite (Hv Hwv); [|done|lia|by split; [done|set_solver]].
    cbn -[elements join map String.app]. rewrite IH; [by rewrite <-(assoc_L (++))|done..|lia].
Qed.

Definition print_member (kv : string * json) : string := quoted kv.1 +:+ ":" +:+ print kv.2.
Definition good_member (kv : string * json) : bool := ascii_text kv.1 && well_formed kv.2.

Lemma print_member_app kv tail :
  print_member kv +:+ tail =
  String quote (escape_all kv.1 +:+ String quote (String ":" (print kv.2 +:+ tail))).
Proof. unfold print_member, quoted. by rewrite !append_String, !append_assoc. Qed.

Lemma add_member_fresh k v acc : k ∉ acc.*1 → add_member mode k v acc = acc ++ [(k, v)].
Proof. intros Hk. unfold add_member, set_member. by rewrite bool_decide_eq_false_2; destruct mode. Qed.
Lemma refused_fresh k acc : k ∉ acc.*1 → refused mode k acc = false.
Proof. intros Hk. destruct mode; [done| |done]. by apply bool_decide_eq_false_2. Qed.

Lemma members_step f d acc k v c t :
  reads v → good_member (k, v) = true → nesting v + d ≤ maxNestingDepth →
  (2 * String.length (print_member (k, v)) ≤ f)%nat → k ∉ acc.*1 → c = ","%char ∨ c = "}"%char →
  members (S f) d acc (print_member (k, v) +:+ String c t) =
  if Ascii.eqb c "," then members f d (acc ++ [(k, v)]) t else Some (JObject (acc ++ [(k, v)]), t).
Proof.
  intros Hv [Hk Hwv]%andb_true_iff Hn Hf Ha Hc. cbn in Hk, Hwv.
  pose proof (print_member_app (k, v) "") as Hl. apply (f_equal String.length) in Hl.
  cbn [String.length fst snd] in Hl. rewrite !length_append in Hl. cbn [String.length] in Hl.
  rewrite length_append in Hl. cbn [String.length] in Hl.
  rewrite print_member_app. cbn [members]. cbn -[unquote value members String.app add_member refused].
  rewrite unquote_quoted by done. cbn -[unquote value members String.app add_member refused]. rewrite refused_fresh by done.
  rewrite (Hv Hwv); [|done|lia|by destruct Hc as [-> | ->]; (split; [|set_solver])].
  destruct Hc as [-> | ->]; cbn -[unquote value members String.app add_member refused]; by rewrite add_member_fresh by done.
Qed.

Lemma members_print l : Forall (λ kv, reads kv.2) l → forallb good_member l = true → l ≠ [] →
  ∀ f d acc rest, NoDup (acc ++ l).*1 →
  Forall (λ kv, nesting kv.2 + d ≤ maxNestingDepth) l →
  (2 * String.length (join "," (map print_member l)) < f)%nat →
  members f d acc (join "," (map print_member l) +:+ String "}" rest) = Some (JObject (acc ++ l), rest).
Proof.
  induction l as [|[k v] l IH]; [done|]. intros Hr Hw _ f d acc rest Hd Hn Hf.
  apply Forall_cons in Hr as [Hv Hr]. apply Forall_cons in Hn as [Hnv Hn].
  cbn in Hw. apply andb_true_iff in Hw as [Hkv Hw]. destruct f as [|f]; [lia|].
  assert (k ∉ acc.*1) as Hk.
  { rewrite fmap_app, fmap_cons in Hd. apply NoDup_app in Hd as (_ & Hd & _). intros Hin. apply (Hd k Hin). by left. }
  destruct (decide (l = [])) as [->|Hl].
  - cbn [map join] in *. by rewrite members_step by (done || lia || auto).
  - rewrite join_map_cons in * by done. rewrite length_append in Hf. cbn [String.length] in Hf.
    rewrite append_assoc, append_String, members_step by (done || lia || auto).
    cbn -[members join map String.app]. rewrite IH; [by rewrite <-(assoc_L (++))|done..| |done|lia].
    by rewrite <-(assoc_L (++)).
Qed.
End lists.

Lemma fold_nesting_le {A} (f : A → Z) l n d :
  foldr (λ x m, f x `max` m) 0 l + d ≤ n → Forall (λ x, f x + d ≤ n) l.
Proof. induction l as [|x l IH]; cbn; intros H; constructor; [lia|]. apply IH. lia. Qed.

Lemma print_members l :
  map (λ kv : string * json, let '(k, x) := kv in quoted k +:+ ":" +:+ print x) l = map print_member l.
Proof. apply map_ext. by intros [k v]. Qed.

Lemma join_print_head l rest : forallb well_formed l = true → l ≠ [] → ∃ a t,
  join "," (map print l) +:+ rest = String a t ∧ is_ws a = false ∧ a ≠ "]"%char.
Proof.
  destruct l as [|v l]; [done|]. cbn [forallb]. intros [Hv _]%andb_true_iff _.
  destruct (print_head _ Hv) as (a & t & E & Ha & Hb & _).
  destruct (decide (l = [])) as [->|Hl]; [|rewrite join_map_cons by done];
    cbn [map join]; rewrite E, ?append_String; eauto.
Qed.

Lemma join_member_head l rest : l ≠ [] → ∃ t, join "," (map print_member l) +:+ rest = String quote t.
Proof.
  destruct l as [|kv l]; [done|]. intros _.
  destruct (decide (l = [])) as [->|Hl]; [|rewrite join_map_cons by done];
    cbn [map join]; rewrite ?append_assoc, print_member_app; eauto.
Qed.

Lemma skip_ws_solid a s : is_ws a = false → skip_ws (String a s) = String a s.
Proof. intros Ha. cbn -[is_ws]. by rewrite Ha. Qed.

Lemma value_open_array f d a t : is_ws a = false → a ≠ "]"%char → d + 1 ≤ maxNestingDepth →
  value (S f) d (String "[" (String a t)) = elements f (d + 1) [] (String a t).
Proof.
  intros Ha Hb Hd. cbn [value]. rewrite !skip_ws_solid by done.
  change (Ascii.eqb "[" "{") with false. change (Ascii.eqb "[" "[") with true. cbv iota.
  by rewrite (proj2 (Z.ltb_ge _ _)), (proj2 (Ascii.eqb_neq _ _) Hb) by lia.
Qed.

Lemma value_array l f d rest : Forall reads l → well_formed (JArray l) = true →
  nesting (JArray l) + d ≤ maxNestingDepth → (2 * String.length (print (JArray l)) ≤ f)%nat →
  value (S f) d (print (JArray l) +:+ rest) = Some (JArray l, rest).
Proof.
  cbn [print nesting well_formed]. intros IH Hw Hn Hf.
  rewrite append_String, !append_Empty, append_String in *. rewrite append_assoc.
  cbn [String.length] in Hf. rewrite length_append in Hf. cbn [String.length] in Hf.
  destruct (decide (l = [])) as [->|Hl].
  { cbn -[maxNestingDepth] in *. by rewrite (proj2 (Z.ltb_ge _ _)) by lia. }
  assert (Forall (λ v, nesting v + (d + 1) ≤ maxNestingDepth) l) as Hd by (apply fold_nesting_le; lia).
  assert (0 ≤ foldr (λ x m, nesting x `max` m) 0 l) as H0 by (clear; induction l; cbn; lia).
  destruct (join_print_head l (String "]" rest) Hw Hl) as (a & t & E & Ha & Hb).
  pose proof (elements_print l IH Hw Hl f (d + 1) [] rest Hd) as He.
  rewrite append_String, append_Empty, E in *. rewrite value_open_array by (done || lia). apply He. lia.
Qed.

Lemma value_object l f d rest : Forall (λ kv, reads kv.2) l → well_formed (JObject l) = true →
  nesting (JObject l) + d ≤ maxNestingDepth → (2 * String.length (print (JObject l)) ≤ f)%nat →
  value (S f) d (print (JObject l) +:+ rest) = Some (JObject l, rest).
Proof.
  cbn [print nesting well_formed]. rewrite print_members. intros IH [Hu Hw]%andb_true_iff Hn Hf.
  apply bool_decide_eq_true in Hu. 
  rewrite append_String, !append_Empty, append_String in *. rewrite append_assoc.
  cbn [String.length] in Hf. rewrite length_append in Hf. cbn [String.length] in Hf.
  destruct (decide (l = [])) as [->|Hl].
  { cbn -[maxNestingDepth] in *. by rewrite (proj2 (Z.ltb_ge _ _)) by lia. }
  assert (Forall (λ kv : string * json, nesting kv.2 + (d + 1) ≤ maxNestingDepth) l) as Hd.
  { apply (fold_nesting_le (λ kv : string * json, nesting kv.2)).
    replace (foldr _ 0 l) with (foldr (λ kv n, let '(_, x) := kv in nesting x `max` n) 0 l); [lia|].
    apply foldr_ext; [by intros [k x] n|done..]. }
  assert (0 ≤ foldr (λ (kv : string * json) m, let '(_, x) := kv in nesting x `max` m) 0 l) as H0
    by (clear; induction l as [|[]]; cbn; lia).
  assert (forallb good_member l = true) as Hg.
  { rewrite <-Hw. clear. induction l as [|[k x] l IH]; cbn; [done|]. by rewrite IH. }
  destruct (join_member_head l (String "}" rest) Hl) as (t & E).
  pose proof (members_print l IH Hg Hl f (d + 1) [] rest Hu Hd) as He.
  rewrite append_String, append_Empty, E in *. cbn -[members maxNestingDepth].
  rewrite (proj2 (Z.ltb_ge _ _)) by lia. apply He. lia.
Qed.

Lemma literal_app w v rest : literal w v (w +:+ rest) = Some (v, rest).
Proof. unfold literal. by rewrite has_prefix_append, drop_str_append. Qed.

Lemma value_print v : reads v.
Proof.
  induction v as [|b|n|s|l IH|l IH] using json_nested_ind; intros Hw f d rest Hn Hf Hr;
    (destruct f as [|f]; [cbn in Hf; lia|]).
  - exact (literal_app "null" JNull rest).
  - destruct b; [exact (literal_app "true" (JBool true) rest)|exact (literal_app "false" (JBool false) rest)].
  - by apply value_number.
  - cbn [print] in *. unfold quoted. rewrite append_String, append_assoc, append_String, append_Empty.
    cbn [value]. cbn -[unquote String.app maxNestingDepth]. by rewrite unquote_quoted.
  - apply value_array; (done || lia).
  - apply value_object; (done || lia).
Qed.

(** Reading a printed value gives the value back. *)
Lemma read_print v :
  well_formed v = true → nesting v ≤ maxNestingDepth → read (print v) = Some v.
Proof.
  intros Hw Hn. unfold read.
  pose proof (value_print v Hw (2 * String.length (print v) + 2)%nat 0 "") as H.
  rewrite append_nil in H. rewrite H by (done || lia). done.
Qed.
End reader.

(** [json.Valid] and decoding in one; decoding that refuses repeated members;
    and what is written, repeated members included. *)
Definition parse : string → option json := read Replace.
Definition parse_strict : string → option json := read Refuse.
Definition parse_all : string → option json := read Keep.

(** More fuel never changes what [parse] returns. *)
Lemma parse_any_fuel f s :
  (2 * String.length s + 2 ≤ f)%nat →
  parse s = '(v, r) ← value Replace f 0 s; if skip_ws r =? "" then Some v else None.
Proof. apply read_any_fuel. Qed.

(** Parsing a printed value gives the value back. *)
Lemma parse_print v :
  well_formed v = true → nesting v ≤ maxNestingDepth → parse (print v) = Some v.
Proof. apply read_print. Qed.

(** ** Values without repeated keys *)

(** No object of the value, at any depth, has a key twice. *)
Fixpoint distinct (v : json) : bool :=
  match v with
  | JArray l => forallb distinct l
  | JObject l => bool_decide (NoDup l.*1) && forallb (λ kv, let '(_, x) := kv in distinct x) l
  | _ => true
  end.

Lemma distinct_array_snoc l v : distinct (JArray l) = true → distinct v = true → distinct (JArray (l ++ [v])) = true.
Proof. cbn. intros Hl Hv. by rewrite forallb_app, Hl; cbn; rewrite Hv. Qed.

Lemma distinct_object_snoc l k v : k ∉ l.*1 → distinct (JObject l) = true → distinct v = true →
  distinct (JObject (l ++ [(k, v)])) = true.
Proof.
  cbn. intros Hk [Hn Hl]%andb_true_iff Hv. apply bool_decide_eq_true in Hn. rewrite forallb_app, Hl. cbn. rewrite Hv.
  rewrite bool_decide_eq_true_2; [done|]. rewrite fmap_app. apply NoDup_app.
  split_and!; [done| |apply NoDup_singleton]. cbn. by intros x Hx ->%list_elem_of_singleton.
Qed.

(** What strict reading accepts has no repeated key, and any reader finds the
    same value. *)
Lemma strict_value mode f :
  (∀ d s v r, value Refuse f d s = Some (v, r) → value mode f d s = Some (v, r) ∧ distinct v = true) ∧
  (∀ d acc s v r, members Refuse f d acc s = Some (v, r) → distinct (JObject acc) = true →
     members mode f d acc s = Some (v, r) ∧ distinct v = true) ∧
  (∀ d acc s v r, elements Refuse f d acc s = Some (v, r) → distinct (JArray acc) = true →
     elements mode f d acc s = Some (v, r) ∧ distinct v = true).
Proof.
  induction f as [|f (IHv & IHm & IHe)]; [done|]. split_and!; cbn -[maxNestingDepth distinct add_member refused].
  - intros d s v r H. repeat case_match; simplify_eq; try done; try (by eauto);
      try (unfold literal in *; by case_match; simplify_eq).
    all: apply bind_Some in H as ([? ?] & -> & ?); cbn; by simplify_eq.
  - intros d acc s v r H Ha. destruct (skip_ws s) as [|a rest]; [done|]. case_match; [done|].
    apply bind_Some in H as ([key r1] & -> & H). destruct (refused Refuse key acc) eqn:Hk; [done|].
    apply bool_decide_eq_false in Hk. cbn -[distinct add_member refused]. rewrite refused_fresh by done.
    destruct (skip_ws r1) as [|c r2]; [done|]. case_match; [done|].
    apply bind_Some in H as ([x r3] & [-> Hx]%IHv & H). cbn -[distinct add_member refused]. rewrite add_member_fresh in * by done.
    pose proof (distinct_object_snoc _ _ _ Hk Ha Hx). repeat case_match; simplify_eq; eauto.
  - intros d acc s v r H Ha. apply bind_Some in H as ([x r1] & [-> Hx]%IHv & H). cbn -[distinct].
    pose proof (distinct_array_snoc _ _ Ha Hx). repeat case_match; simplify_eq; eauto.
Qed.

Lemma parse_strict_sound mode s v : parse_strict s = Some v → read mode s = Some v ∧ distinct v = true.
Proof.
  unfold parse_strict, read. intros ([x r] & [-> Hx]%(proj1 (strict_value mode _)) & H)%bind_Some.
  cbn. case_match; [|done]. by simplify_eq.
Qed.

(** Positive numbers in decimal are JSON numbers. *)
Lemma digits_parse s acc n : parse_digits acc s = Some n → digits s = (s, "").
Proof.
  revert acc. induction s as [|a s IH]; intros acc; [done|]. cbn [parse_digits digits]. intros (d & Hd & Hs)%bind_Some.
  unfold digit_val in Hd. unfold is_digit. case_match; [|done]. by rewrite (IH _ Hs).
Qed.

Lemma itoa_number z : 0 < z → number_text (itoa z) = true.
Proof.
  intros Hz. unfold number_text. apply bool_decide_eq_true. pose proof (parse_digits_itoa z ltac:(lia)) as Hp.
  destruct (itoa_head z Hz) as (d & s' & E & Hd). rewrite E in *. apply digits_parse in Hp.
  assert (Ascii.eqb (pretty_N_char d) "-" = false ∧ Ascii.eqb (pretty_N_char d) "0" = false) as [E1 E2].
  { assert (∃ n : nat, (0 < n < 10)%nat ∧ d = N.of_nat n) as (n & Hn & ->) by (exists (N.to_nat d); lia).
    do 10 (destruct n as [|n]; [first [lia|done]|]). lia. }
  cbn [number unsigned int_part]. rewrite E1. unfold unsigned, int_part. rewrite E2. unfold digits1. rewrite Hp. cbn -[String.app].
  by rewrite !append_nil.
Qed.
