(* ===== verification/Text.v ===== *)
(** * Remote text: runes and their encoding

    The functions of [strings] and [unicode/utf8] that the control plane
    applies to text that came from a managed host: [ToValidUTF8], [Map],
    [Fields] and cutting a string at a rune boundary, with the round trip
    between a sequence of runes and its UTF-8 encoding. *)

From S2P Require Import Prelude GoStrings Encoding Json.

Fixpoint encode_all (l : list Z) : string :=
  match l with [] => "" | r :: l => utf8_encode r +:+ encode_all l end.

(** The runes [strings.ToValidUTF8] keeps: a run of invalid bytes becomes one
    U+FFFD. *)
Fixpoint valid_runes_from (skip : nat) (invalid : bool) (s : string) : list Z :=
  match s with
  | EmptyString => []
  | String a s' =>
    match skip with
    | S k => valid_runes_from k invalid s'
    | O =>
      if (byte_val a <? 128)%Z then byte_val a :: valid_runes_from 0 false s'
      else
        let '(r, w) := decode_rune s in
        if Nat.eqb w 1 then (if invalid then [] else [rune_error]) ++ valid_runes_from 0 true s'
        else r :: valid_runes_from (pred w) false s'
    end
  end.
Definition valid_runes (s : string) : list Z := valid_runes_from 0 false s.

(** [strings.ToValidUTF8(s, "\uFFFD")]: a well-formed rune is written back. *)
Definition ToValidUTF8 (s : string) : string := encode_all (valid_runes s).

(** [strings.Map] with a mapping that drops no rune. *)
Definition map_runes (f : Z → Z) (s : string) : string := encode_all (map f (runes s)).

(** [strings.Fields]: the field that starts here, and those after it. *)
Fixpoint fields_from (space : bool) (skip : nat) (s : string) : string * list string :=
  match s with
  | EmptyString => ("", [])
  | String a s' =>
    let '(space, skip) :=
      match skip with
      | S k => (space, k)
      | O => let '(r, w) := decode_rune s in (is_space r, pred w)
      end in
    let '(field, rest) := fields_from space skip s' in
    if space : bool then ("", if field =? "" then rest else field :: rest) else (String a field, rest)
  end.
Definition Fields (s : string) : list string :=
  let '(field, rest) := fields_from false 0 s in if field =? "" then rest else field :: rest.

(** [for len(value) > limit], dropping the last rune. *)
Fixpoint cut_runes (fuel : nat) (limit : Z) (value : string) : string :=
  match fuel with
  | O => value
  | S f =>
    if (limit <? slen value)%Z
    then cut_runes f limit (take_str (String.length value - (decode_last_rune value).2) value)
    else value
  end.

(** ** Lemmas *)

(** A Unicode scalar value. *)
Definition scalar (r : Z) : Prop := 0 ≤ r < 55296 ∨ 57344 ≤ r < 1114112.


Lemma land_low x k : 0 ≤ k → Z.land x (Z.ones k) = x `mod` 2 ^ k.
Proof. intros. by rewrite Z.land_ones. Qed.

(** Shifts and masks of the encoder and the decoder as division. *)
Ltac bits_to_div :=
  change 63 with (Z.ones 6) in *; change 31 with (Z.ones 5) in *; change 15 with (Z.ones 4) in *; change 7 with (Z.ones 3) in *;
  rewrite ?Z.land_ones in * by lia; rewrite ?Z.shiftr_div_pow2 in * by lia;
  change (2 ^ 0) with 1 in *; change (2 ^ 3) with 8 in *; change (2 ^ 4) with 16 in *; change (2 ^ 5) with 32 in *;
  change (2 ^ 6) with 64 in *; change (2 ^ 12) with 4096 in *; change (2 ^ 18) with 262144 in *.

Ltac bits_lia := bits_to_div; Z.to_euclidean_division_equations; lia.

Lemma in_range_false lo hi b : in_range lo hi b = false ↔ b < lo ∨ hi < b.
Proof. unfold in_range. rewrite andb_false_iff, !Z.leb_gt. lia. Qed.

(** Decide the comparisons of a goal by arithmetic. *)
Ltac decide_bits :=
  repeat match goal with
  | |- context [in_range ?lo ?hi ?b] =>
    first [rewrite (proj2 (in_range_true lo hi b)) by bits_lia | rewrite (proj2 (in_range_false lo hi b)) by bits_lia]
  | |- context [(?a <? ?b)%Z] =>
    first [rewrite (proj2 (Z.ltb_lt a b)) by bits_lia | rewrite (proj2 (Z.ltb_ge a b)) by bits_lia]
  end; cbn [andb orb negb].

Lemma lead_byte b r k : 0 ≤ b → 0 ≤ k → 0 ≤ r → b + r / 2 ^ k < 256 → byte_val (byte_of (b + Z.shiftr r k)) = b + Z.shiftr r k.
Proof.
  intros. rewrite Z.shiftr_div_pow2 by lia. apply byte_val_of. split; [|done].
  assert (0 ≤ r / 2 ^ k) by (apply Z.div_pos; lia). lia.
Qed.

Lemma cont_byte r k : byte_val (byte_of (128 + Z.land (Z.shiftr r k) 63)) = 128 + Z.land (Z.shiftr r k) 63.
Proof. apply byte_val_of. change 63 with (Z.ones 6). rewrite Z.land_ones by lia. pose proof (Z.mod_pos_bound (Z.shiftr r k) (2 ^ 6)). lia. Qed.

(** The encoding of a scalar value, byte by byte. *)
Inductive encodes (r : Z) : string → Prop :=
| encodes1 a : r < 128 → byte_val a = r → encodes r (String a "")
| encodes2 a b : 128 ≤ r < 2048 → byte_val a = 192 + r / 64 → byte_val b = 128 + r `mod` 64 → encodes r (String a (String b ""))
| encodes3 a b c : 2048 ≤ r < 65536 → byte_val a = 224 + r / 4096 → byte_val b = 128 + (r / 64) `mod` 64 →
    byte_val c = 128 + r `mod` 64 → encodes r (String a (String b (String c "")))
| encodes4 a b c d : 65536 ≤ r → byte_val a = 240 + r / 262144 → byte_val b = 128 + (r / 4096) `mod` 64 →
    byte_val c = 128 + (r / 64) `mod` 64 → byte_val d = 128 + r `mod` 64 →
    encodes r (String a (String b (String c (String d "")))).

Lemma utf8_encodes r : scalar r → encodes r (utf8_encode r).
Proof.
  intros Hr. unfold utf8_encode. assert (0 ≤ r < 1114112) by (unfold scalar in Hr; lia).
  destruct (Z.ltb_spec r 128); [constructor; [done|apply byte_val_of; lia]|].
  destruct (Z.ltb_spec r 2048); [|destruct (Z.ltb_spec r 65536)]; constructor; try done; rewrite ?cont_byte, ?lead_byte; bits_lia.
Qed.

Lemma decode_encode r t : scalar r → decode_rune (utf8_encode r +:+ t) = (r, String.length (utf8_encode r)).
Proof.
  intros Hr. destruct (utf8_encodes r Hr) as [a Hlt Ha|a b Hlt Ha Hb|a b c Hlt Ha Hb Hc|a b c d Hlt Ha Hb Hc Hd];
    unfold decode_rune, byte_nth; rewrite ?append_String, ?append_Empty; cbn [String.get String.length];
    unfold fmap, option_fmap, option_map, cont; rewrite ?Ha, ?Hb, ?Hc, ?Hd.
  - rewrite (proj2 (Z.ltb_lt _ _)) by lia. done.
  - decide_bits. f_equal. bits_lia.
  - decide_bits. replace (in_range _ _ (128 + (r / 64) `mod` 64)) with true.
    + cbn [andb]. f_equal. bits_lia.
    + symmetry. apply in_range_true. unfold scalar in Hr.
      destruct (Z.eqb_spec (224 + r / 4096) 224), (Z.eqb_spec (224 + r / 4096) 237); bits_lia.
  - assert (r < 1114112) by (unfold scalar in Hr; lia). decide_bits. replace (in_range _ _ (128 + (r / 4096) `mod` 64)) with true.
    + cbn [andb]. f_equal. bits_lia.
    + symmetry. apply in_range_true.
      destruct (Z.eqb_spec (240 + r / 262144) 240), (Z.eqb_spec (240 + r / 262144) 244); bits_lia.
Qed.

(** ** Sequences of runes *)

Lemma encode_length r : scalar r → (1 ≤ String.length (utf8_encode r) ≤ 4)%nat.
Proof. intros Hr. destruct (utf8_encodes r Hr); cbn; lia. Qed.

Lemma runes_skip n i p s : String.length p = n → (runes_from i n (p +:+ s)).*2 = (runes s).
Proof.
  revert n i. induction p as [|a p IH]; intros [|n] i Hn; cbn in Hn; try lia; [apply runes_from_shift|].
  cbn. apply IH. lia.
Qed.

Lemma runes_cons r s : scalar r → runes (utf8_encode r +:+ s) = r :: runes s.
Proof.
  intros Hr. pose proof (decode_encode r s Hr) as Hd. pose proof (encode_length r Hr) as Hl.
  destruct (utf8_encode r) as [|a p] eqn:E; [cbn in Hl; lia|]. unfold runes at 1, runes_idx.
  rewrite append_String. cbn [runes_from]. rewrite <-append_String, Hd. cbn [fmap list_fmap fst snd]. f_equal.
  by apply runes_skip.
Qed.

Lemma runes_encode_all l : Forall scalar l → runes (encode_all l) = l.
Proof. induction 1 as [|r l Hr Hl IH]; [done|]. cbn [encode_all]. by rewrite runes_cons, IH. Qed.

Lemma encode_all_app l k : encode_all (l ++ k) = encode_all l +:+ encode_all k.
Proof. induction l as [|r l IH]; [done|]. cbn [encode_all app]. by rewrite IH, append_assoc. Qed.

Lemma rune_error_scalar : scalar rune_error.
Proof. unfold scalar, rune_error. lia. Qed.

Lemma decode_rune_scalar s : scalar (decode_rune s).1.
Proof.
  unfold decode_rune. pose proof rune_error_scalar as He. unfold byte_nth, fmap, option_fmap, option_map.
  destruct s as [|a s]; [done|]. cbn [String.get]. pose proof (byte_val_range a) as Ha.
  destruct (Z.ltb_spec (byte_val a) 128); [unfold scalar; cbn; lia|].
  destruct (String.get 0 s) as [b|]; [|done].
  pose proof (byte_val_range b) as Hb. repeat (case_match; try done); cbn [fst];
    repeat match goal with H : _ && _ = true |- _ => apply andb_true_iff in H as [? ?] end;
    repeat match goal with H : in_range _ _ _ = true |- _ => apply in_range_true in H end;
    repeat match goal with H : (_ =? _)%Z = true |- _ => apply Z.eqb_eq in H | H : (_ =? _)%Z = false |- _ => apply Z.eqb_neq in H end;
    unfold scalar, cont; try bits_lia.
Qed.

Lemma valid_runes_scalar skip invalid s : Forall scalar (valid_runes_from skip invalid s).
Proof.
  revert skip invalid. induction s as [|a s IH]; intros skip invalid; [constructor|]. cbn [valid_runes_from].
  destruct skip; [|apply IH]. pose proof (byte_val_range a). destruct (Z.ltb_spec (byte_val a) 128); [constructor; [unfold scalar; lia|apply IH]|].
  pose proof (decode_rune_scalar (String a s)) as Hs. destruct (decode_rune (String a s)) as [r w]. destruct (Nat.eqb w 1).
  - destruct invalid; [apply IH|]. constructor; [apply rune_error_scalar|apply IH].
  - constructor; [done|apply IH].
Qed.

(** ** The last rune *)

Lemma byte_nth_append p q k : byte_nth (p +:+ q) (String.length p + k) = byte_nth q k.
Proof. induction p as [|a p IH]; [done|]. rewrite append_String. apply IH. Qed.

Lemma rune_start_append p q k : rune_start (p +:+ q) (String.length p + k) = rune_start q k.
Proof. unfold rune_start. by rewrite byte_nth_append. Qed.

Lemma continuation b : 128 ≤ b < 192 → negb (Z.land b 192 =? 128)%Z = false.
Proof.
  intros Hb. assert (Z.land b 192 = 128) as ->; [|done].
  replace 192 with (Z.lor 128 64) by done. apply Z.bits_inj'. intros n Hn. rewrite Z.land_spec, Z.lor_spec.
  assert (Z.testbit 128 n = (n =? 7)%Z ∧ Z.testbit 64 n = (n =? 6)%Z) as [-> ->].
  { change 128 with (2 ^ 7). change 64 with (2 ^ 6). by rewrite !Z.pow2_bits_eqb, (Z.eqb_sym 7), (Z.eqb_sym 6) by lia. }
  destruct (Z.eqb_spec n 7) as [->|]; [|destruct (Z.eqb_spec n 6) as [->|]]; cbn [orb andb]; rewrite ?andb_false_r, ?andb_true_r; [..|done].
  - apply Z.testbit_true; [done|]. change (2 ^ 7) with 128. bits_lia.
  - apply Z.testbit_false; [done|]. change (2 ^ 6) with 64. bits_lia.
Qed.

Lemma lead b : 192 ≤ b < 256 → negb (Z.land b 192 =? 128)%Z = true.
Proof.
  intros Hb. apply negb_true_iff, Z.eqb_neq. intros E.
  assert (Z.testbit (Z.land b 192) 6 = true) as H6; [|by rewrite E in H6].
  rewrite Z.land_spec. change (Z.testbit 192 6) with true. rewrite andb_true_r. apply Z.testbit_true; [done|].
  change (2 ^ 6) with 64. bits_lia.
Qed.

(** Stepping back from the end finds the first byte of the last rune. *)
Lemma decode_last_wide p q n r : String.length q = S n → (1 ≤ n ≤ 3)%nat →
  (∀ b, byte_nth q n = Some b → 128 ≤ b) → byte_nth q n ≠ None →
  rune_start q 0 = true → (∀ k, (1 ≤ k < n)%nat → rune_start q k = false) →
  decode_rune q = (r, S n) → decode_last_rune (p +:+ q) = (r, S n).
Proof.
  intros Hq Hn Hb Hsome H0 Hk Hd. unfold decode_last_rune. rewrite length_append, Hq, Nat.add_succ_r, byte_nth_append.
  destruct (byte_nth q n) as [b|]; [|done]. rewrite (proj2 (Z.ltb_ge _ _)) by (by apply Hb).
  assert (∀ k, (k ≤ n)%nat → rune_start (p +:+ q) (S (String.length p + n) - S k) = rune_start q (n - k)) as Hs.
  { intros k Hkn. replace (S (String.length p + n) - S k)%nat with (String.length p + (n - k))%nat by lia. apply rune_start_append. }
  assert (drop_str (S (String.length p + n) - S n) (p +:+ q) = q) as Hdrop.
  { replace (S (String.length p + n) - S n)%nat with (String.length p) by lia. apply drop_str_append. }
  assert (∀ k, (k ≤ n)%nat → (S k <=? S (String.length p + n))%nat = true) as Hle by (intros k Hkn; apply Nat.leb_le; lia).
  destruct n as [|[|[|[|n]]]]; try lia; rewrite ?Hle, ?Hs by lia; cbn [Nat.sub andb] in *; rewrite ?H0, ?Hk by lia;
    cbn [Nat.sub andb] in *; rewrite ?Hdrop, Hd; cbn; done.
Qed.

Lemma decode_last_encode p r : scalar r →
  decode_last_rune (p +:+ utf8_encode r) = (r, String.length (utf8_encode r)).
Proof.
  intros Hr. pose proof (decode_encode r "" Hr) as Hd. rewrite append_nil in Hd. assert (0 ≤ r < 1114112) by (unfold scalar in Hr; lia).
  destruct (utf8_encodes r Hr) as [a Hlt Ha|a b Hlt Ha Hb|a b c Hlt Ha Hb Hc|a b c d Hlt Ha Hb Hc Hd']; cbn [String.length] in *.
  1: { unfold decode_last_rune. rewrite length_append. cbn [String.length]. rewrite Nat.add_succ_r, byte_nth_append.
       unfold byte_nth. cbn. rewrite Ha.
       by rewrite (proj2 (Z.ltb_lt _ _)) by lia. }
  all: eapply (decode_last_wide p _ _ r); [reflexivity|lia| |done| | |done]; unfold rune_start, byte_nth; cbn [String.get].
  all: try (intros x [= <-]; cbn; bits_lia); try (cbn; rewrite Ha; apply lead; bits_lia).
  all: intros k Hk; cbn in Hk; destruct k as [|[|[|k]]]; try lia; cbn; apply continuation; bits_lia.
Qed.

(** ** Cutting at a rune boundary *)

(** The loop keeps the longest prefix of whole runes that fits. *)
Lemma cut_runes_prefix limit l f : Forall scalar l → 0 ≤ limit → (length l ≤ f)%nat →
  ∃ k, (k ≤ length l)%nat ∧ cut_runes f limit (encode_all l) = encode_all (take k l) ∧ slen (encode_all (take k l)) ≤ limit ∧
       (∀ k', (k < k' ≤ length l)%nat → limit < slen (encode_all (take k' l))).
Proof.
  intros Hl Hlim. revert f. induction l as [|r l IH] using rev_ind; intros f Hf.
  { exists 0%nat. destruct f; cbn; [split_and!; [lia|done|done|lia]|]. rewrite (proj2 (Z.ltb_ge _ _)) by done. split_and!; [lia|done|done|lia]. }
  rewrite length_app in Hf. cbn in Hf. destruct f as [|f]; [lia|]. cbn [cut_runes].
  destruct (Z.ltb_spec limit (slen (encode_all (l ++ [r])))) as [Hlt|Hge].
  - apply Forall_app in Hl as [Hl [Hr _]%Forall_cons]. destruct (IH Hl f ltac:(lia)) as (k & Hk & He & Hs & Hmax).
    exists k. rewrite length_app. cbn [length].
    assert (take_str (String.length (encode_all (l ++ [r])) - (decode_last_rune (encode_all (l ++ [r]))).2) (encode_all (l ++ [r])) = encode_all l) as ->.
    { rewrite encode_all_app. cbn [encode_all]. rewrite append_nil, decode_last_encode, length_append by done. cbn [snd].
      rewrite Nat.add_sub. apply take_str_append. }
    rewrite take_app_le by lia. split_and!; [lia|done|done|]. intros k' Hk'.
    destruct (decide (k' = length l + 1)%nat) as [->|]; [|rewrite take_app_le by lia; apply Hmax; lia].
    rewrite take_ge by (rewrite length_app; cbn; lia). done.
  - exists (length (l ++ [r])). rewrite take_ge by lia. split_and!; [lia|done|done|lia].
Qed.

Lemma length_encode_all l : Forall scalar l → (length l ≤ String.length (encode_all l))%nat.
Proof. induction 1 as [|r l Hr Hl IH]; [done|]. cbn [encode_all length]. rewrite length_append. pose proof (encode_length r Hr). lia. Qed.

(** ** Fields of encoded runes *)

Fixpoint rune_fields (l : list Z) : list Z * list (list Z) :=
  match l with
  | [] => ([], [])
  | r :: l =>
    let '(field, rest) := rune_fields l in
    if is_space r then ([], match field with [] => rest | _ => field :: rest end) else (r :: field, rest)
  end.

Lemma fields_skip space q s f rest : fields_from false 0 s = (f, rest) →
  fields_from space (String.length q) (q +:+ s) =
    if space then match q with "" => (f, rest) | _ => ("", if f =? "" then rest else f :: rest) end else (q +:+ f, rest).
Proof.
  intros Hs. induction q as [|a q IH].
  - rewrite append_Empty. cbn [String.length]. transitivity (fields_from false 0 s); [by destruct s|]. rewrite Hs. by destruct space.
  - rewrite append_String. cbn [fields_from String.length]. rewrite IH. destruct space; [|by rewrite append_String].
    destruct q; [done|]. done.
Qed.

Lemma encode_all_empty l : Forall scalar l → encode_all l = "" → l = [].
Proof. intros Hl E. apply length_encode_all in Hl. rewrite E in Hl. destruct l; [done|cbn in Hl; lia]. Qed.

Lemma rune_fields_scalar l : Forall scalar l → Forall scalar (rune_fields l).1 ∧ Forall (Forall scalar) (rune_fields l).2.
Proof.
  induction 1 as [|r l Hr Hl [IH1 IH2]]; [done|]. cbn. destruct (rune_fields l) as [f rest]. cbn in *.
  destruct (is_space r); cbn; [split; [constructor|]|split; [by constructor|done]]. destruct f; [done|by constructor].
Qed.

Lemma fields_encode l : Forall scalar l →
  fields_from false 0 (encode_all l) = (encode_all (rune_fields l).1, map encode_all (rune_fields l).2).
Proof.
  induction 1 as [|r l Hr Hl IH]; [done|]. cbn [encode_all rune_fields]. pose proof (rune_fields_scalar l Hl) as [Hf _].
  pose proof (decode_encode r (encode_all l) Hr) as Hd. pose proof (encode_length r Hr) as Hlen.
  destruct (rune_fields l) as [f rest]. cbn [fst snd] in *. destruct (utf8_encode r) as [|a q] eqn:Eq; [cbn in Hlen; lia|].
  rewrite append_String. cbn [fields_from]. rewrite <-append_String, Hd. cbn [String.length pred].
  rewrite (fields_skip _ q _ _ _ IH). destruct (is_space r); cbn [fst snd encode_all].
  - assert ((encode_all f =? "") = match f with [] => true | _ => false end) as Hfe.
    { destruct f; [done|]. apply String.eqb_neq. intros E. by apply encode_all_empty in E. }
    destruct q; rewrite ?Hfe; cbn; destruct f; done.
  - by rewrite Eq, append_String.
Qed.

Lemma Fields_encode l : Forall scalar l →
  Fields (encode_all l) = map encode_all (match (rune_fields l).1 with [] => (rune_fields l).2 | f => f :: (rune_fields l).2 end).
Proof.
  intros Hl. unfold Fields. rewrite fields_encode by done. pose proof (rune_fields_scalar l Hl) as [Hf _].
  destruct (rune_fields l) as [[|r f] rest]; [done|]. cbn [fst snd] in *.
  rewrite (proj2 (String.eqb_neq _ _)); [done|]. intros E. by apply encode_all_empty in E.
Qed.

Lemma rune_fields_Forall (P : Z → Prop) l : Forall P l → Forall P (rune_fields l).1 ∧ Forall (Forall P) (rune_fields l).2.
Proof.
  induction 1 as [|r l Hr Hl [IH1 IH2]]; [done|]. cbn. destruct (rune_fields l) as [f rest]. cbn in *.
  destruct (is_space r); cbn; [split; [constructor|]|split; [by constructor|done]]. destruct f; [done|by constructor].
Qed.

(** Joining with a one-byte separator. *)
Fixpoint join_runes (sep : Z) (l : list (list Z)) : list Z :=
  match l with
  | [] => []
  | [x] => x
  | x :: l => x ++ sep :: join_runes sep l
  end.

Lemma join_encode c l : byte_val c < 128 → join c (map encode_all l) = encode_all (join_runes (byte_val c) l).
Proof.
  intros Hc. induction l as [|x [|y l] IH]; [done..|]. cbn [map join join_runes] in *. rewrite IH, encode_all_app. f_equal.
  cbn [encode_all]. unfold utf8_encode. rewrite (proj2 (Z.ltb_lt _ _)) by done. by rewrite byte_of_val, append_String, append_Empty.
Qed.

Lemma join_runes_Forall (P : Z → Prop) sep l : P sep → Forall (Forall P) l → Forall P (join_runes sep l).
Proof.
  intros Hs. induction 1 as [|x l Hx Hl IH]; [constructor|]. destruct l; [done|]. cbn [join_runes] in *.
  apply Forall_app. split; [done|]. by constructor.
Qed.

(** [strings.Join(strings.Fields(s), " ")] of well-formed text keeps its runes. *)
Lemma fields_join_encode (P : Z → Prop) l : P 32 → Forall scalar l → Forall P l →
  ∃ k, join " " (Fields (encode_all l)) = encode_all k ∧ Forall scalar k ∧ Forall P k.
Proof.
  intros H32 Hs HP. rewrite Fields_encode by done. rewrite join_encode by done. eexists. split; [reflexivity|].
  pose proof (rune_fields_Forall _ l Hs) as [H1 H2]. pose proof (rune_fields_Forall _ l HP) as [H3 H4].
  split; apply join_runes_Forall; try done; [change (byte_val " ") with 32; unfold scalar; lia|..].
  all: destruct (rune_fields l) as [[|r f] rest]; cbn [fst snd] in *; [done|by constructor].
Qed.

(** ** Well-formed text *)

Lemma utf8_valid_skip n p s : String.length p = n → utf8_valid_from n (p +:+ s) = utf8_valid s.
Proof.
  revert n. induction p as [|a p IH]; intros [|n] Hn; cbn in Hn; try lia; [done|]. rewrite append_String. cbn. apply IH. lia.
Qed.

Lemma utf8_valid_encode l : Forall scalar l → utf8_valid (encode_all l) = true.
Proof.
  induction 1 as [|r l Hr Hl IH]; [done|]. cbn [encode_all]. pose proof (decode_encode r (encode_all l) Hr) as Hd.
  assert (rune_error = r → String.length (utf8_encode r) ≠ 1%nat) as He by (intros <-; done).
  pose proof (encode_length r Hr) as Hlen. destruct (utf8_encode r) as [|a q] eqn:Eq; [cbn in Hlen; lia|].
  rewrite append_String. unfold utf8_valid. cbn [utf8_valid_from]. rewrite <-append_String, Hd. cbn [String.length pred].
  rewrite utf8_valid_skip, IH, andb_true_r by done. apply negb_true_iff, andb_false_iff. cbn [String.length] in He.
  destruct (Z.eqb_spec r rune_error) as [E|]; [right|by left]. apply Nat.eqb_neq. auto.
Qed.

(** Text without control characters. *)
Definition clean (s : string) : Prop := utf8_valid s = true ∧ all_runes (λ r, negb (is_control r)) s = true.

Lemma clean_encode l : Forall scalar l → Forall (λ r, is_control r = false) l → clean (encode_all l).
Proof.
  intros Hs Hc. split; [by apply utf8_valid_encode|]. unfold all_runes. rewrite runes_encode_all by done.
  apply forallb_forall. intros r Hr. rewrite Forall_forall in Hc. apply negb_true_iff, Hc. by apply list_elem_of_In.
Qed.

(** Replacing control characters by spaces. *)
Lemma replace_control_scalar (keep : Z → bool) l : Forall scalar l →
  Forall scalar (map (λ r, if is_control r && negb (keep r) then 32 else r) l) ∧
  Forall (λ r, is_control r = false ∨ keep r = true) (map (λ r, if is_control r && negb (keep r) then 32 else r) l).
Proof.
  induction 1 as [|r l Hr Hl [IH1 IH2]]; [by split|]. cbn [map].
  destruct (is_control r) eqn:Ec, (keep r) eqn:Ek; cbn [andb negb]; split; constructor; auto; unfold scalar; lia.
Qed.
