(* ===== verification/Url.v ===== *)
(** * URLs

    What the services read of a parsed [net/url.URL], its methods included;
    parsing itself is a parameter of the code that uses it. *)

From S2P Require Import Prelude GoStrings.

Record URL := mkURL {
  Scheme : string;
  Host : string;
  Hostname : string;
  url_Port : string;
  url_String : string;
  HasUser : bool;
  Path : string;
  RawQuery : string;
  Fragment : string;
}.

(** [strings.TrimRight(s, "/")]. *)
Fixpoint trim_slashes (s : string) : string :=
  match s with
  | EmptyString => ""
  | String a s' =>
    let t := trim_slashes s' in
    if (t =? "") && Ascii.eqb a "/" then "" else String a t
  end.
