(* ===== verification/Auth.v ===== *)
(** * Control-plane sessions and the permission policy

    Models [services/control-plane/internal/auth/auth.go]: the role table,
    the object scope test, and the in-memory session store, which keeps
    SHA-256 digests of bearer tokens.  The clock and the random bytes are
    arguments of the operations that read them; SHA-256 is a section
    parameter. *)

From S2P Require Import Prelude GoStrings Encoding.

(** ** Roles and permissions *)

Definition RoleViewer := "viewer".
Definition RoleOperator := "operator".
Definition RoleAdmin := "admin".
Definition RoleAuditor := "auditor".

Inductive Permission :=
| HostsRead | HostsWrite | HostsDelete | HostKeyPinPerm | HostKeyReplace
| CredentialsManage | JobsRead | SnapshotsRun | CommandsRun | AnomalyScansRun
| TerminalSessionsOpen | RunbooksPreview | RunbooksExecute | JobsCancel
| WorkersRead | WorkersWrite | WorkerTokensManage | WorkerDeploymentsPlan
| WorkerDeploymentsRun | AuditRead | SessionRevokeSelf.

#[global] Instance Permission_eq_dec : EqDecision Permission.
Proof. solve_decision. Defined.

Definition permission_string (p : Permission) : string :=
  match p with
  | HostsRead => "hosts:read" | HostsWrite => "hosts:write" | HostsDelete => "hosts:delete"
  | HostKeyPinPerm => "host_key:pin" | HostKeyReplace => "host_key:replace"
  | CredentialsManage => "credentials:manage" | JobsRead => "jobs:read"
  | SnapshotsRun => "snapshots:run" | CommandsRun => "commands:run"
  | AnomalyScansRun => "anomaly_scans:run" | TerminalSessionsOpen => "terminal_sessions:open"
  | RunbooksPreview => "runbooks:preview" | RunbooksExecute => "runbooks:execute"
  | JobsCancel => "jobs:cancel" | WorkersRead => "cloudflare_workers:read"
  | WorkersWrite => "cloudflare_workers:write"
  | WorkerTokensManage => "cloudflare_worker_tokens:manage"
  | WorkerDeploymentsPlan => "cloudflare_worker_deployments:plan"
  | WorkerDeploymentsRun => "cloudflare_worker_deployments:execute"
  | AuditRead => "audit:read" | SessionRevokeSelf => "session:revoke_self"
  end.

Definition grants (role : string) : option (list Permission) :=
  if role =? RoleViewer then Some [HostsRead; JobsRead; WorkersRead; SessionRevokeSelf]
  else if role =? RoleOperator then
    Some [HostsRead; HostsWrite; HostKeyPinPerm; JobsRead; SnapshotsRun; CommandsRun;
          AnomalyScansRun; TerminalSessionsOpen; RunbooksPreview; RunbooksExecute; JobsCancel;
          WorkersRead; WorkersWrite; WorkerDeploymentsPlan; SessionRevokeSelf]
  else if role =? RoleAdmin then
    Some [HostsRead; HostsWrite; HostsDelete; HostKeyPinPerm; HostKeyReplace;
          CredentialsManage; JobsRead; SnapshotsRun; CommandsRun; AnomalyScansRun;
          TerminalSessionsOpen; RunbooksPreview; RunbooksExecute; JobsCancel;
          WorkersRead; WorkersWrite; WorkerTokensManage; WorkerDeploymentsPlan; WorkerDeploymentsRun;
          AuditRead; SessionRevokeSelf]
  else if role =? RoleAuditor then Some [HostsRead; JobsRead; WorkersRead; AuditRead; SessionRevokeSelf]
  else None.

Definition ValidRole (role : string) : bool :=
  match grants role with Some _ => true | None => false end.

Definition Allowed (role : string) (permission : Permission) : bool :=
  match grants role with
  | None => false
  | Some permissions => bool_decide (permission ∈ permissions)
  end.

(** ** Principals and sessions *)

Record Principal := mkPrincipal {
  Subject : string;
  Role : string;
  AllHosts : bool;
  HostIDs : list string;
  SessionID : string;
}.

Record Session := mkSession {
  sess_principal : Principal;
  ExpiresAt : time;
}.

Record storedSession := mkStored {
  ss_session : Session;
  tokenHash : string;
  revoked : bool;
}.

Definition noPrincipal : Principal := mkPrincipal "" "" false [] "".

Definition CanAccessHost (principal : Principal) (hostID : string) : bool :=
  if AllHosts principal then true
  else existsb (λ allowed, constant_eq allowed hostID) (HostIDs principal).

(** [deduplicate] trims each value, drops empty ones and keeps the first
    occurrence of each; [seen] is the code's set of values kept so far. *)
Fixpoint deduplicate_from (seen : gset string) (values : list string) : list string :=
  match values with
  | [] => []
  | value :: rest =>
    let value := trim_space value in
    if value =? "" then deduplicate_from seen rest
    else if bool_decide (value ∈ seen) then deduplicate_from seen rest
    else value :: deduplicate_from ({[value]} ∪ seen) rest
  end.
Definition deduplicate (values : list string) : list string := deduplicate_from ∅ values.

Definition SecureTokenEqual (got want : string) : bool :=
  if (slen got <? 32)%Z || (slen want <? 32)%Z || negb (slen got =? slen want)%Z then false
  else constant_eq got want.

(** ** The session store *)
Section sessions.
Context (sha256 : string → string).

Record Sessions := mkSessions { sessions : gmap string storedSession }.

Definition NewSessions : Sessions := mkSessions ∅.

(** [raw] and [sessionIDRaw] are the bytes [rand.Read] fills in, [None] when
    it fails. *)
Definition Issue (s : Sessions) (principal : Principal) (ttl : duration)
    (now : time) (raw sessionIDRaw : option string)
    : Sessions * result string (string * Session) :=
  if (trim_space (Subject principal) =? "") || negb (ValidRole (Role principal)) then
    (s, Err "valid session subject and role are required")
  else if (ttl <=? 0)%Z || (8 * hour <? ttl)%Z then
    (s, Err "session ttl must be between zero and eight hours")
  else match raw with
  | None => (s, Err "rand")
  | Some raw =>
    let token := b64_encode raw in
    match sessionIDRaw with
    | None => (s, Err "rand")
    | Some sid =>
      let principal := mkPrincipal (Subject principal) (Role principal) (AllHosts principal)
        (deduplicate (HostIDs principal)) ("session_" +:+ b64_encode sid) in
      let hash := sha256 token in
      let session := mkSession principal (now + ttl) in
      (mkSessions (<[hash := mkStored session hash false]> (sessions s)), Ok (token, session))
    end
  end.

Definition bearer : string := "Bearer ".

Definition Authenticate (s : Sessions) (authorization : string) (now : time)
    : Sessions * option Principal :=
  if negb (has_prefix bearer authorization) then (s, None)
  else
    let token := trim_space (trim_prefix bearer authorization) in
    if token =? "" then (s, None)
    else
      let hash := sha256 token in
      match sessions s !! hash with
      | None => (s, None)
      | Some stored =>
        if revoked stored || negb (constant_eq hash (tokenHash stored)) then (s, None)
        else if negb (now <? ExpiresAt (ss_session stored))%Z then
          (mkSessions (delete hash (sessions s)), None)
        else (s, Some (sess_principal (ss_session stored)))
      end.

Definition Revoke (s : Sessions) (authorization : string) : Sessions * bool :=
  if negb (has_prefix bearer authorization) then (s, false)
  else
    let hash := sha256 (trim_space (trim_prefix bearer authorization)) in
    match sessions s !! hash with
    | None => (s, false)
    | Some stored =>
      (mkSessions (<[hash := mkStored (ss_session stored) (tokenHash stored) true]> (sessions s)), true)
    end.

(** [AuthorizeSession] ranges over the session map; Go fixes no order, so
    the order is an argument. *)
Fixpoint AuthorizeSession (order : list storedSession) (sessionID : string)
    (permission : Permission) (hostID : string) (now : time) : Principal * bool :=
  match order with
  | [] => (noPrincipal, false)
  | stored :: rest =>
    let principal := sess_principal (ss_session stored) in
    if negb (SessionID principal =? sessionID) || revoked stored ||
       negb (now <? ExpiresAt (ss_session stored))%Z
    then AuthorizeSession rest sessionID permission hostID now
    else (principal, Allowed (Role principal) permission && CanAccessHost principal hostID)
  end.

(** The orders in which a range over the map may visit the sessions. *)
Definition range_order (s : Sessions) (order : list storedSession) : Prop :=
  order ≡ₚ (map_to_list (sessions s)).*2.
End sessions.
Arguments mkSessions _ : assert.

(** ** The permission policy *)

(** The role table of docs/permission-matrix.md, one row per permission. *)
Definition permission_matrix (p : Permission) : list string :=
  match p with
  | HostsRead | JobsRead | WorkersRead | SessionRevokeSelf =>
    [RoleViewer; RoleOperator; RoleAdmin; RoleAuditor]
  | HostsDelete | HostKeyReplace | CredentialsManage | WorkerTokensManage
  | WorkerDeploymentsRun => [RoleAdmin]
  | AuditRead => [RoleAdmin; RoleAuditor]
  | _ => [RoleOperator; RoleAdmin]
  end.

Lemma grants_cases role :
  (∃ r, r ∈ [RoleViewer; RoleOperator; RoleAdmin; RoleAuditor] ∧ role = r) ∨
  (grants role = None ∧ role ∉ [RoleViewer; RoleOperator; RoleAdmin; RoleAuditor]).
Proof.
  destruct (decide (role ∈ [RoleViewer; RoleOperator; RoleAdmin; RoleAuditor])) as [|Hn]; [left; eauto|].
  right. split; [|done]. rewrite !not_elem_of_cons in Hn. destruct Hn as (?&?&?&?&_).
  unfold grants. rewrite !(proj2 (String.eqb_neq _ _)) by done. done.
Qed.

Lemma permission_matrix_valid p r :
  r ∈ permission_matrix p → r ∈ [RoleViewer; RoleOperator; RoleAdmin; RoleAuditor].
Proof. destruct p; cbn; rewrite !elem_of_cons, ?elem_of_nil; tauto. Qed.

Lemma Allowed_matrix_iff role p : Allowed role p = true ↔ role ∈ permission_matrix p.
Proof.
  rewrite <-(bool_decide_eq_true (role ∈ permission_matrix p)).
  destruct (grants_cases role) as [(r & Hr & ->)|[Hg Hn]].
  - rewrite !elem_of_cons, elem_of_nil in Hr.
    destruct Hr as [->|[->|[->|[->|[]]]]]; destruct p; by vm_compute.
  - unfold Allowed. rewrite Hg, bool_decide_eq_true. split; [done|].
    intros H%permission_matrix_valid. done.
Qed.

(** ** Object scope *)

Lemma CanAccessHost_iff p h :
  CanAccessHost p h = true ↔ AllHosts p = true ∨ h ∈ HostIDs p.
Proof.
  unfold CanAccessHost. destruct (AllHosts p); [by split; [left|]|].
  unfold constant_eq. rewrite existsb_exists. setoid_rewrite String.eqb_eq.
  split.
  - intros (x & Hx & ->). right. by apply list_elem_of_In.
  - intros [?|?]; [done|]. exists h. split; [by apply list_elem_of_In|done].
Qed.

Lemma deduplicate_from_elem seen values x :
  x ∈ deduplicate_from seen values ↔
  (x ∉ seen) ∧ x ≠ "" ∧ ∃ v, v ∈ values ∧ trim_space v = x.
Proof.
  revert seen. induction values as [|v rest IH]; intros seen; cbn [deduplicate_from].
  { set_solver. }
  destruct (String.eqb_spec (trim_space v) "") as [E|E].
  { rewrite IH. set_solver. }
  case_bool_decide as Hs; [rewrite IH; set_solver|].
  rewrite elem_of_cons, IH. destruct (decide (x = trim_space v)); set_solver.
Qed.

Lemma deduplicate_from_NoDup seen values : NoDup (deduplicate_from seen values).
Proof.
  revert seen. induction values as [|v rest IH]; intros seen; cbn [deduplicate_from]; [constructor|].
  repeat case_match; try apply IH. constructor; [|apply IH].
  rewrite deduplicate_from_elem. set_solver.
Qed.

(** ** The session store *)
Section store_lemmas.
Context (sha256 : string → string).
#[local] Abbreviation Issue := (Issue sha256).
#[local] Abbreviation Authenticate := (Authenticate sha256).
#[local] Abbreviation Revoke := (Revoke sha256).

(** The digest under which the code looks a bearer header up. *)
Definition auth_digest (authorization : string) : string :=
  sha256 (trim_space (trim_prefix bearer authorization)).

(** Every entry is filed under its own token digest. *)
Definition wf (s : Sessions) : Prop :=
  ∀ h stored, sessions s !! h = Some stored → tokenHash stored = h.

(** One operation of the store; [fresh] bounds the digests of the tokens
    that [Issue] draws. *)
Inductive session_step (fresh : string → Prop) : Sessions → Sessions → Prop :=
| step_issue s p ttl now raw sid s' r :
    (∀ bytes, raw = Some bytes → fresh (sha256 (b64_encode bytes))) →
    Issue s p ttl now raw sid = (s', r) → session_step fresh s s'
| step_authenticate s a now s' r :
    Authenticate s a now = (s', r) → session_step fresh s s'
| step_revoke s a s' r : Revoke s a = (s', r) → session_step fresh s s'.

Lemma Sessions_Issue_cases s p ttl now raw sid s' r :
  Issue s p ttl now raw sid = (s', r) →
  (s' = s ∧ ∃ e, r = Err e) ∨
  ∃ bytes sidb, raw = Some bytes ∧ sid = Some sidb ∧
    0 < ttl ≤ 8 * hour ∧ ValidRole (Role p) = true ∧
    let p' := mkPrincipal (Subject p) (Role p) (AllHosts p) (deduplicate (HostIDs p))
                ("session_" +:+ b64_encode sidb) in
    let session := mkSession p' (now + ttl) in
    let h := sha256 (b64_encode bytes) in
    s' = mkSessions (<[h := mkStored session h false]> (sessions s)) ∧
    r = Ok (b64_encode bytes, session).
Proof.
  unfold Auth.Issue. intros H.
  destruct (_ || negb (ValidRole _)) eqn:E1; [left; naive_solver|].
  destruct (_ || (8 * hour <? ttl)%Z) eqn:E2; [left; naive_solver|].
  destruct raw as [bytes|]; [|left; naive_solver].
  destruct sid as [sidb|]; [|left; naive_solver].
  reflect_bools. right. exists bytes, sidb. simplify_eq. naive_solver lia.
Qed.

Lemma Sessions_Authenticate_cases s a now s' r :
  Authenticate s a now = (s', r) →
  (s' = s ∨ ∃ stored, sessions s !! auth_digest a = Some stored ∧
     revoked stored = false ∧ ExpiresAt (ss_session stored) ≤ now ∧
     s' = mkSessions (delete (auth_digest a) (sessions s))) ∧
  (∀ p, r = Some p → s' = s ∧ ∃ stored, sessions s !! auth_digest a = Some stored ∧
     revoked stored = false ∧ now < ExpiresAt (ss_session stored) ∧
     p = sess_principal (ss_session stored)).
Proof.
  unfold Auth.Authenticate, auth_digest. intros H.
  repeat (case_match; simplify_eq; try (split; [by left|done])); reflect_bools.
  - split; [right|done]. eexists. split; [done|]. split; [done|]. split; [lia|done].
  - split; [by left|]. intros p [= <-]. split; [done|]. eexists. split_and!; try done; lia.
Qed.

Lemma Sessions_Revoke_cases s a s' r :
  Revoke s a = (s', r) →
  (r = false ∧ s' = s) ∨
  (r = true ∧ ∃ stored, sessions s !! auth_digest a = Some stored ∧
    s' = mkSessions (<[auth_digest a := mkStored (ss_session stored) (tokenHash stored) true]> (sessions s))).
Proof.
  unfold Auth.Revoke, auth_digest. intros H. repeat (case_match; simplify_eq); naive_solver.
Qed.

Lemma session_step_wf fresh s s' : session_step fresh s s' → wf s → wf s'.
Proof.
  intros [s0 p ttl now raw sid s1 r _ H|s0 a now s1 r H|s0 a s1 r H] Hwf h stored Hl.
  - apply Sessions_Issue_cases in H as [[-> _]|(b & sb & -> & -> & _ & _ & -> & _)]; [by apply Hwf|].
    cbn in Hl. apply lookup_insert_Some in Hl as [[<- <-]|[_ Hl]]; [done|by apply Hwf].
  - apply Sessions_Authenticate_cases in H as [[->|(st & _ & _ & _ & ->)] _]; [by apply Hwf|].
    cbn in Hl. apply lookup_delete_Some in Hl as [_ Hl]. by apply Hwf.
  - apply Sessions_Revoke_cases in H as [[_ ->]|(_ & st & Hst & ->)]; [by apply Hwf|].
    cbn in Hl. apply lookup_insert_Some in Hl as [[<- <-]|[_ Hl]]; [|by apply Hwf].
    cbn. by apply Hwf.
Qed.

Definition dead (h : string) (s : Sessions) : Prop :=
  ∀ stored, sessions s !! h = Some stored → revoked stored = true.

Lemma session_step_dead h s s' :
  session_step (λ h', h' ≠ h) s s' → dead h s → dead h s'.
Proof.
  intros [s0 p ttl now raw sid s1 r Hf H|s0 a now s1 r H|s0 a s1 r H] Hd stored Hl.
  - apply Sessions_Issue_cases in H as [[-> _]|(b & sb & -> & -> & _ & _ & -> & _)]; [by apply Hd|].
    cbn in Hl. rewrite lookup_insert_ne in Hl by (by apply Hf). by apply Hd.
  - apply Sessions_Authenticate_cases in H as [[->|(st & _ & _ & _ & ->)] _]; [by apply Hd|].
    cbn in Hl. apply lookup_delete_Some in Hl as [_ Hl]. by apply Hd.
  - apply Sessions_Revoke_cases in H as [[_ ->]|(_ & st & Hst & ->)]; [by apply Hd|].
    cbn in Hl. apply lookup_insert_Some in Hl as [[<- <-]|[_ Hl]]; [done|by apply Hd].
Qed.

Lemma dead_Authenticate h s a now :
  auth_digest a = h → dead h s → (Authenticate s a now).2 = None.
Proof.
  intros <- Hd. destruct (Authenticate s a now) as [s' [p|]] eqn:E; [|done].
  apply Sessions_Authenticate_cases in E as [_ E]. destruct (E p) as (_ & st & Hst & Hr & _); [done|].
  by rewrite (Hd st Hst) in Hr.
Qed.
End store_lemmas.

(** ** Ranging over the session map *)

Definition live (st : storedSession) (sid : string) (now : time) : bool :=
  (SessionID (sess_principal (ss_session st)) =? sid) && negb (revoked st) &&
  (now <? ExpiresAt (ss_session st))%Z.

Lemma AuthorizeSession_first order sid perm host now :
  AuthorizeSession order sid perm host now =
  match filter (λ st, live st sid now = true) order with
  | [] => (noPrincipal, false)
  | st :: _ => let p := sess_principal (ss_session st) in
               (p, Allowed (Role p) perm && CanAccessHost p host)
  end.
Proof.
  induction order as [|st rest IH]; [done|]. cbn [AuthorizeSession]. rewrite filter_cons.
  replace (_ || _ || _) with (negb (live st sid now))
    by (unfold live; by rewrite !negb_andb, negb_involutive).
  destruct (live st sid now) eqn:E; cbn [negb].
  - by rewrite decide_True by done.
  - rewrite decide_False by congruence. exact IH.
Qed.

(** No two stored sessions share a session id. *)
Definition unique_ids (s : Sessions) : Prop :=
  ∀ h1 h2 st1 st2, sessions s !! h1 = Some st1 → sessions s !! h2 = Some st2 →
  SessionID (sess_principal (ss_session st1)) = SessionID (sess_principal (ss_session st2)) → h1 = h2.

Lemma range_order_elem s order st :
  range_order s order → st ∈ order ↔ ∃ h, sessions s !! h = Some st.
Proof.
  intros ->. rewrite list_elem_of_fmap. split.
  - intros ([h v] & -> & Hv). exists h. by apply elem_of_map_to_list in Hv.
  - intros [h Hh]. exists (h, st). split; [done|]. by apply elem_of_map_to_list.
Qed.

Lemma unique_live s st1 st2 h1 h2 sid now :
  unique_ids s → sessions s !! h1 = Some st1 → sessions s !! h2 = Some st2 →
  live st1 sid now = true → live st2 sid now = true → st1 = st2.
Proof.
  unfold live. intros Hu H1 H2 L1 L2. reflect_bools.
  assert (h1 = h2) as -> by (eapply Hu; eauto; congruence). congruence.
Qed.

Lemma unique_ids_singleton h st : unique_ids (mkSessions {[h := st]}).
Proof.
  intros h1 h2 st1 st2 H1 H2 _. cbn in H1, H2.
  apply lookup_singleton_Some in H1 as [<- _], H2 as [<- _]. done.
Qed.

Definition demo_principal : Principal := mkPrincipal "alice" "operator" false ["host_a"] "".
Definition demo_sessions : Sessions :=
  mkSessions {["aw" := mkStored
    (mkSession (mkPrincipal "alice" "operator" false ["host_a"] "session_cw") (5 + hour)) "aw" false]}.

(** * Properties *)

(** the role table grants a permission exactly to the roles that the
    permission matrix documents for it; a role outside the four gets nothing. *)
Theorem allowed_matrix role p :
  Allowed role p = bool_decide (role ∈ permission_matrix p).
Proof.
  destruct (Allowed role p) eqn:E; symmetry.
  - apply bool_decide_eq_true. by apply Allowed_matrix_iff.
  - apply bool_decide_eq_false. intros H%Allowed_matrix_iff. congruence.
Qed.

(** a token that [Issue] returned authenticates as the session's
    principal at every instant before its expiry and at none from then on. *)
Theorem issue_authenticate sha256 s p ttl t raw sid s' token session now :
  Issue sha256 s p ttl t (Some raw) sid = (s', Ok (token, session)) →
  raw ≠ "" →
  (Authenticate sha256 s' (bearer +:+ token) now).2 =
    if (now <? t + ttl)%Z then Some (sess_principal session) else None.
Proof.
  intros H Hraw. apply Sessions_Issue_cases in H as [[_ [e ?]]|(b & sb & [= <-] & _ & _ & _ & -> & [= -> ->])]; [done|].
  unfold Authenticate. rewrite has_prefix_append, trim_prefix_append. cbn [negb].
  rewrite trim_space_graphic by apply b64_encode_graphic.
  destruct (String.eqb_spec (b64_encode raw) "") as [E|]; [by apply b64_encode_empty in E|].
  cbn. rewrite lookup_insert_eq. cbn. unfold constant_eq. rewrite String.eqb_refl. cbn.
  by destruct (now <? t + ttl)%Z.
Qed.

Lemma issue_authenticate_witness :
  (Authenticate (λ x, x) (Issue (λ x, x) NewSessions demo_principal hour 5 (Some "k") (Some "s")).1
     (bearer +:+ b64_encode "k") 6).2 =
  Some (mkPrincipal "alice" "operator" false ["host_a"] "session_cw").
Proof.
  rewrite (issue_authenticate (λ x, x) NewSessions demo_principal hour 5 "k" (Some "s") _ (b64_encode "k")
    (mkSession (mkPrincipal "alice" "operator" false ["host_a"] "session_cw") (5 + hour)) 6).
  - reflexivity.
  - vm_compute. reflexivity.
  - discriminate.
Defined.

(** after [Revoke] accepts a bearer header, that header never
    authenticates again, whatever sequence of operations follows, as long as no later
    [Issue] draws a token with the same SHA-256 digest. *)
Theorem revoked_never_authenticates sha256 s a s' s'' now :
  Revoke sha256 s a = (s', true) →
  rtc (session_step sha256 (λ h, h ≠ auth_digest sha256 a)) s' s'' →
  (Authenticate sha256 s'' a now).2 = None.
Proof.
  intros H Hsteps. apply (dead_Authenticate sha256 (auth_digest sha256 a)); [done|].
  assert (dead (auth_digest sha256 a) s') as Hd.
  { apply Sessions_Revoke_cases in H as [[? _]|(_ & st & Hst & ->)]; [done|].
    intros st' Hl. cbn in Hl. rewrite lookup_insert_eq in Hl. by simplify_eq. }
  clear H. induction Hsteps as [|x y z Hxy _ IH]; [done|].
  apply IH. by eapply session_step_dead.
Qed.

Lemma revoked_never_authenticates_witness :
  let h := λ x, x in
  let s := (Issue h NewSessions demo_principal hour 5 (Some "k") (Some "s")).1 in
  let s' := (Revoke h s (bearer +:+ b64_encode "k")).1 in
  let s'' := (Issue h s' demo_principal hour 7 (Some "other") (Some "t")).1 in
  (Authenticate h s'' (bearer +:+ b64_encode "k") 8).2 = None.
Proof.
  intros h s s' s''.
  apply (revoked_never_authenticates h s (bearer +:+ b64_encode "k") s' s'' 8).
  - vm_compute. reflexivity.
  - apply rtc_once. eapply (step_issue h _ s' demo_principal hour 7 (Some "other") (Some "t")).
    + intros bytes [= <-]. vm_compute. discriminate.
    + vm_compute. reflexivity.
Defined.

(** for every order in which the map may be visited,
    [AuthorizeSession] accepts exactly when the session with that id is stored, not revoked
    and not expired, and its role and host scope allow the operation. *)
Theorem authorize_session_spec s order sid perm host now :
  unique_ids s → range_order s order →
  (AuthorizeSession order sid perm host now).2 = true ↔
  ∃ h st, sessions s !! h = Some st ∧ live st sid now = true ∧
    Allowed (Role (sess_principal (ss_session st))) perm = true ∧
    CanAccessHost (sess_principal (ss_session st)) host = true.
Proof.
  intros Hu Ho. rewrite AuthorizeSession_first.
  assert (∀ st, st ∈ filter (λ st, live st sid now = true) order ↔
                live st sid now = true ∧ ∃ h, sessions s !! h = Some st) as Hf.
  { intros st. by rewrite list_elem_of_filter, range_order_elem. }
  destruct (filter _ order) as [|st rest]; cbn.
  - split; [done|]. intros (h & st & H1 & H2 & _). exfalso.
    apply (not_elem_of_nil st), Hf. eauto.
  - destruct (proj1 (Hf st)) as [Hl [h Hh]]; [left|]. rewrite andb_true_iff. split.
    + intros [HA HC]. eauto 10.
    + intros (h' & st' & Hh' & Hl' & HA & HC).
      by rewrite (unique_live s st st' h h' sid now).
Qed.

Lemma authorize_session_spec_witness :
  (AuthorizeSession (map_to_list (sessions demo_sessions)).*2 "session_cw" SnapshotsRun "host_a" 6).2
  = true.
Proof.
  apply (authorize_session_spec demo_sessions).
  - apply unique_ids_singleton.
  - unfold range_order. reflexivity.
  - exists "aw". eexists. split; [vm_compute; reflexivity|]. vm_compute. done.
Defined.

(** the host scope stored in a session has no duplicates and holds exactly
    the trimmed, non-empty ids of the request. *)
Theorem deduplicate_spec values :
  NoDup (deduplicate values) ∧
  ∀ x, x ∈ deduplicate values ↔ x ≠ "" ∧ ∃ v, v ∈ values ∧ trim_space v = x.
Proof.
  split; [apply deduplicate_from_NoDup|]. intros x. unfold deduplicate.
  rewrite deduplicate_from_elem. set_solver.
Qed.
