(* ===== verification/StepUp.v ===== *)
(** * Step-up authorization tickets

    Models [services/control-plane/internal/stepup/manager.go]: short-lived,
    single-use tickets issued after an external factor verifier confirmed
    recent strong authentication, and consumed with the exact binding they
    were issued for.  The factor verifier and SHA-256 are parameters; the
    clock and the random bytes are arguments. *)

From S2P Require Import Prelude GoStrings Encoding.

Definition defaultTTL : duration := 2 * minute.
Definition maximumTTL : duration := 5 * minute.
Definition maximumFreshness : duration := 2 * minute.
Definition defaultCapacity : Z := 4096.

Definition allowedActions : list string :=
  ["web_ssh_start"; "credential_rotate"; "credential_delete"; "worker_deploy"; "worker_rollback";
   "service_restart"; "process_terminate"; "host_reboot"; "breakglass_activate"].

Record VerifiedFactor := mkFactor {
  vf_Subject : string;
  vf_SessionID : string;
  VerifiedAt : time;
  AssuranceLevel : Z;
  Methods : list string;
}.

Record Binding := mkBinding {
  b_Subject : string;
  b_SessionID : string;
  b_Action : string;
  b_TargetID : string;
  b_ParametersSHA256 : string;
  b_Reason : string;
}.

Record IssueRequest := mkIssueRequest {
  ir_Subject : string;
  ir_SessionID : string;
  ir_Action : string;
  ir_TargetID : string;
  ir_ParametersSHA256 : string;
  ir_Reason : string;
  ir_Assertion : string;
  ir_TTL : duration;
}.

(** The [Binding] literal [Issue] builds from the request. *)
Definition ir_binding (r : IssueRequest) : Binding :=
  mkBinding (ir_Subject r) (ir_SessionID r) (ir_Action r) (ir_TargetID r)
    (ir_ParametersSHA256 r) (ir_Reason r).

Record Ticket := mkTicket { Value : string; t_ExpiresAt : time }.

Record entry := mkEntry {
  bindingDigest : string;
  expiresAt : time;
  sessionDigest : string;
}.

Record Manager := mkManager {
  capacity : Z;
  tickets : gmap string entry;
}.

(** [strings.ToLower] of a string that must also be hex: a non-ASCII byte
    fails the hex test with the same error, so the ASCII mapping decides. *)
Definition lower_char (a : ascii) : ascii :=
  let b := N_of_ascii a in
  if ((65 <=? b) && (b <=? 90))%N then ascii_of_N (b + 32) else a.

Definition bounded (lo hi : Z) (s : string) : bool := (lo <=? slen s)%Z && (slen s <=? hi)%Z.

Definition validateBinding (b : Binding) : result string unit :=
  require trimmed (b_Subject b) && bounded 1 128 (b_Subject b) &&
          trimmed (b_SessionID b) && bounded 8 128 (b_SessionID b) &&
          trimmed (b_TargetID b) && bounded 1 128 (b_TargetID b)
    else "step-up principal or target binding is invalid" ;;
  require bool_decide (b_Action b ∈ allowedActions) else "step-up action is invalid" ;;
  require (slen (b_ParametersSHA256 b) =? 64)%Z &&
          (map_str lower_char (b_ParametersSHA256 b) =? b_ParametersSHA256 b)
    else "step-up parameter digest is invalid" ;;
  require hex_valid (b_ParametersSHA256 b) else "step-up parameter digest is invalid" ;;
  require trimmed (b_Reason b) && bounded 8 500 (b_Reason b) else "step-up reason is invalid" ;;
  require all_runes (λ r, negb (is_control r)) (b_Reason b)
    else "step-up reason contains control characters" ;;
  Ok tt.

Definition binding_fields (b : Binding) : list string :=
  [b_Subject b; b_SessionID b; b_Action b; b_TargetID b; b_ParametersSHA256 b; b_Reason b].

(** [clear(value)] on a byte slice. *)
Definition wipe (s : string) : string := map_str (λ _, nul) s.

Section manager.
Context (sha256 : string → string).
(** The external factor verifier: [None] is an error. *)
Context (verify : string → string → string → option VerifiedFactor).

Definition New (cap : Z) : result string Manager :=
  let cap := if (cap =? 0)%Z then defaultCapacity else cap in
  require (1 <=? cap)%Z && (cap <=? 65536)%Z else "step-up ticket capacity is invalid" ;;
  Ok (mkManager cap ∅).

Definition digestBinding (b : Binding) : string := sha256 (join nul (binding_fields b)).

Definition pruneLocked (now : time) (m : gmap string entry) : gmap string entry :=
  prune (λ e, (now <? expiresAt e)%Z) m.

(** The tests on the verified factor, all of which must hold. *)
Definition factor_ok (f : VerifiedFactor) (b : Binding) (now : time) : bool :=
  constant_eq (vf_Subject f) (b_Subject b) && constant_eq (vf_SessionID f) (b_SessionID b) &&
  (2 <=? AssuranceLevel f)%Z && negb (bool_decide (Methods f = [])) &&
  negb (is_zero_time (VerifiedAt f)) && (VerifiedAt f <=? now + 15 * second)%Z &&
  (now - VerifiedAt f <=? maximumFreshness)%Z.

Definition Issue_core (m : Manager) (request : IssueRequest) (now : time) (random : option string)
    : Manager * result string Ticket :=
  let b := ir_binding request in
  match validateBinding b with
  | Err e => (m, Err e)
  | Ok _ =>
    if (slen (ir_Assertion request) <? 16)%Z || (16384 <? slen (ir_Assertion request))%Z then
      (m, Err "step-up assertion is invalid")
    else
      let ttl := if (ir_TTL request =? 0)%Z then defaultTTL else ir_TTL request in
      if (ttl <=? 0)%Z || (maximumTTL <? ttl)%Z then
        (m, Err "step-up ticket lifetime is invalid")
      else match verify (b_Subject b) (b_SessionID b) (ir_Assertion request) with
      | None => (m, Err "step-up verification failed")
      | Some verified =>
        if negb (factor_ok verified b now) then
          (m, Err "step-up verification is not fresh or sufficiently strong")
        else match random with
        | None => (m, Err "generate step-up ticket")
        | Some raw =>
          let ticketDigest := sha256 raw in
          let stored := mkEntry (digestBinding b) (now + ttl) (sha256 (b_SessionID b)) in
          let ts := pruneLocked now (tickets m) in
          if (capacity m <=? len ts)%Z then
            (mkManager (capacity m) ts, Err "step-up ticket capacity reached")
          else match ts !! ticketDigest with
          | Some _ => (mkManager (capacity m) ts, Err "step-up ticket collision")
          | None => (mkManager (capacity m) (<[ticketDigest := stored]> ts),
                     Ok (mkTicket (b64_encode raw) (now + ttl)))
          end
        end
      end
  end.

(** [Issue] also clears the caller's assertion buffer on every path: the
    second component is the buffer after the call. *)
Definition Issue (ctx_nil : bool) (m : Manager) (request : IssueRequest) (now : time)
    (random : option string) : Manager * string * result string Ticket :=
  if ctx_nil then (m, wipe (ir_Assertion request), Err "step-up context is required")
  else let '(m', r) := Issue_core m request now random in (m', wipe (ir_Assertion request), r).

Definition Consume (m : Manager) (value : string) (b : Binding) (now : time) : Manager * bool :=
  if (slen value <? 32)%Z || (128 <? slen value)%Z || negb (is_ok (validateBinding b)) then (m, false)
  else match b64_decode true value with
  | None => (m, false)
  | Some raw =>
    if negb (slen raw =? 32)%Z then (m, false)
    else
      let digest := sha256 raw in
      let ts := pruneLocked now (tickets m) in
      match ts !! digest with
      | None => (mkManager (capacity m) ts, false)
      | Some stored =>
        (mkManager (capacity m) (delete digest ts),
         (now <? expiresAt stored)%Z && constant_eq (digestBinding b) (bindingDigest stored))
      end
  end.

Definition RevokeSession (m : Manager) (sessionID : string) : Manager * Z :=
  let digest := sha256 sessionID in
  let kept := prune (λ e, negb (constant_eq digest (sessionDigest e))) (tickets m) in
  (mkManager (capacity m) kept, len (tickets m) - len kept).

Definition DigestParameters (canonical : string) : result string string :=
  require negb (slen canonical =? 0)%Z && (slen canonical <=? 65536)%Z
    else "canonical parameters are invalid" ;;
  Ok (hex_encode (sha256 canonical)).
End manager.

(** ** Lemmas *)
Section lemmas.
Context (sha256 : string → string).
Context (verify : string → string → string → option VerifiedFactor).
#[local] Abbreviation Issue := (Issue sha256 verify).
#[local] Abbreviation Consume := (Consume sha256).

Lemma Manager_Issue_cases ctx m request now random m' buf r :
  Issue ctx m request now random = (m', buf, r) →
  capacity m' = capacity m ∧ buf = wipe (ir_Assertion request) ∧
  (((∃ e, r = Err e) ∧ (m' = m ∨ tickets m' = pruneLocked now (tickets m))) ∨
   ∃ raw ttl f, random = Some raw ∧ 0 < ttl ≤ maximumTTL ∧
     is_ok (validateBinding (ir_binding request)) = true ∧
     verify (ir_Subject request) (ir_SessionID request) (ir_Assertion request) = Some f ∧
     factor_ok f (ir_binding request) now = true ∧
     len (pruneLocked now (tickets m)) < capacity m ∧
     pruneLocked now (tickets m) !! sha256 raw = None ∧
     tickets m' = <[sha256 raw := mkEntry (digestBinding sha256 (ir_binding request)) (now + ttl)
                      (sha256 (ir_SessionID request))]> (pruneLocked now (tickets m)) ∧
     r = Ok (mkTicket (b64_encode raw) (now + ttl))).
Proof.
  unfold StepUp.Issue, Issue_core. intros H.
  repeat (case_match; simplify_eq/=); split_and!; try done;
    try (left; split; [by eauto|by auto]); reflect_bools.
  all: right; eexists _, _, _; split_and!; try done; try lia; try eauto using f_equal;
    match goal with H : validateBinding _ = Ok _ |- _ => rewrite H; done | _ => idtac end;
    try reflexivity.
Qed.

(** The digest [Consume] looks a ticket value up under. *)
Definition ticket_digest (value : string) : option string :=
  raw ← b64_decode true value; if (slen raw =? 32)%Z then Some (sha256 raw) else None.

(** A value and a binding that pass the format checks of [Consume]. *)
Definition presentable (value : string) (b : Binding) : bool :=
  (32 <=? slen value)%Z && (slen value <=? 128)%Z && is_ok (validateBinding b).

Lemma Manager_Consume_cases m value b now m' r :
  Consume m value b now = (m', r) →
  capacity m' = capacity m ∧
  ((r = false ∧ m' = m ∧ (presentable value b = false ∨ ticket_digest value = None)) ∨
   ∃ d, presentable value b = true ∧ ticket_digest value = Some d ∧
     tickets m' = delete d (pruneLocked now (tickets m)) ∧
     (r = true ↔ ∃ e, tickets m !! d = Some e ∧ now < expiresAt e ∧
                      bindingDigest e = digestBinding sha256 b)).
Proof.
  clear verify. unfold StepUp.Consume, presentable, ticket_digest. intros H.
  destruct (_ || _ || _) eqn:E1.
  { simplify_eq. split; [done|]. left. split_and!; [done..|]. left.
    destruct (32 <=? slen value)%Z eqn:?, (slen value <=? 128)%Z eqn:?, (is_ok _); try done.
    reflect_bools. cbn in E1. rewrite orb_false_r, orb_true_iff, !Z.ltb_lt in E1. lia. }
  reflect_bools. rewrite !(proj2 (Z.leb_le _ _)) by done.
  match goal with H : is_ok _ = true |- _ => rewrite H end. cbn.
  destruct (b64_decode true value) as [raw|]; cbn; [|simplify_eq; naive_solver].
  destruct (slen raw =? 32)%Z; cbn in *; [|simplify_eq; naive_solver].
  unfold pruneLocked in *.
  destruct (prune _ (tickets m) !! sha256 raw) as [e|] eqn:El; simplify_eq; cbn;
    (split; [done|]); right; exists (sha256 raw); split_and!; try done.
  - apply prune_lookup_Some in El as [El Hk]. unfold constant_eq.
    rewrite andb_true_iff, String.eqb_eq, Z.ltb_lt. split; [naive_solver|].
    intros (e' & ? & ? & ?). simplify_eq. done.
  - by rewrite delete_id.
  - split; [done|]. intros (e & He & Hlt & _). exfalso.
    apply prune_lookup_None in El as [?|(e' & ? & ?)]; simplify_eq. reflect_bools. lia.
Qed.

(** One operation on the manager; [fresh] bounds the digests of new tickets. *)
Inductive manager_step (fresh : string → Prop) : Manager → Manager → Prop :=
| step_Issue m ctx request now random m' buf r :
    (∀ raw, random = Some raw → fresh (sha256 raw)) →
    Issue ctx m request now random = (m', buf, r) → manager_step fresh m m'
| step_Consume m value b now m' r :
    Consume m value b now = (m', r) → manager_step fresh m m'
| step_RevokeSession m sid m' n :
    RevokeSession sha256 m sid = (m', n) → manager_step fresh m m'.

(** Every step only keeps, drops or freshly adds tickets. *)
Lemma manager_step_tickets fresh m m' d e :
  manager_step fresh m m' → tickets m' !! d = Some e →
  tickets m !! d = Some e ∨ fresh d.
Proof.
  intros [m0 ctx req now random m1 buf r Hf H|m0 v b now m1 r H|m0 sid m1 n H] Hl.
  - apply Manager_Issue_cases in H as (_ & _ & [(_ & [->|E])|(raw & ttl & f & -> & _ & _ & _ & _ & _ & _ & E & _)]);
      [by left|rewrite E in Hl..].
    + apply prune_lookup_Some in Hl as [? _]. by left.
    + apply lookup_insert_Some in Hl as [[<- _]|[_ Hl]]; [right; by apply Hf|].
      apply prune_lookup_Some in Hl as [? _]. by left.
  - apply Manager_Consume_cases in H as (_ & [(_ & -> & _)|(d' & _ & _ & E & _)]); [by left|].
    rewrite E in Hl. apply lookup_delete_Some in Hl as [_ Hl].
    apply prune_lookup_Some in Hl as [? _]. by left.
  - unfold RevokeSession in H. simplify_eq. apply prune_lookup_Some in Hl as [? _]. by left.
Qed.

Lemma manager_steps_absent m m' d :
  rtc (manager_step (λ d', d' ≠ d)) m m' → tickets m !! d = None → tickets m' !! d = None.
Proof.
  induction 1 as [|x y z Hxy _ IH]; [done|]. intros Hx. apply IH.
  destruct (tickets y !! d) as [e|] eqn:E; [|done].
  destruct (manager_step_tickets _ _ _ _ _ Hxy E) as [?|?]; [congruence|done].
Qed.

Lemma manager_step_capacity fresh m m' :
  manager_step fresh m m' → len (tickets m) ≤ capacity m →
  capacity m' = capacity m ∧ len (tickets m') ≤ capacity m.
Proof.
  intros [m0 ctx req now random m1 buf r _ H|m0 v b now m1 r H|m0 sid m1 n H] Hc.
  - apply Manager_Issue_cases in H as (-> & _ & [(_ & [-> | ->])|(raw & ttl & f & -> & _ & _ & _ & _ & Hlt & Hn & -> & _)]);
      (split; [done|]); [done| |].
    + etrans; [apply len_prune_le|done].
    + rewrite len_insert_new by done. lia.
  - apply Manager_Consume_cases in H as (-> & [(_ & -> & _)|(d' & _ & _ & -> & _)]); (split; [done|]); [done|].
    etrans; [apply len_delete_le|]. etrans; [apply len_prune_le|done].
  - unfold RevokeSession in H. simplify_eq/=. split; [done|].
    etrans; [apply len_prune_le|done].
Qed.
End lemmas.

(** ** Binding digests *)

Definition nul_free (b : Binding) : Prop := sep_free nul (binding_fields b).

Lemma binding_fields_inj b1 b2 : binding_fields b1 = binding_fields b2 → b1 = b2.
Proof. destruct b1, b2. unfold binding_fields. cbn. intros. by simplify_eq. Qed.

Lemma digestBinding_inj sha256 b1 b2 :
  nul_free b1 → nul_free b2 → digestBinding sha256 b1 = digestBinding sha256 b2 →
  b1 = b2 ∨ ∃ x y, x ≠ y ∧ sha256 x = sha256 y.
Proof.
  intros H1 H2 H. destruct (decide (join nul (binding_fields b1) = join nul (binding_fields b2))) as [E|E].
  - left. apply binding_fields_inj. by apply (join_inj nul).
  - right. eauto.
Qed.

Definition demo_digest : string :=
  "0123456789abcdef0123456789abcdef0123456789abcdef0123456789abcdef".
Definition demo_binding : Binding :=
  mkBinding "alice" "session_1" "host_reboot" "host_a" demo_digest "planned reboot".
Definition demo_request : IssueRequest :=
  mkIssueRequest "alice" "session_1" "host_reboot" "host_a" demo_digest "planned reboot"
    "0123456789abcdef" 0.
Definition demo_verify (subject session assertion : string) : option VerifiedFactor :=
  Some (mkFactor subject session (10 * minute) 2 ["webauthn"]).
Definition demo_raw : string := "0123456789abcdef0123456789abcdef".
Definition demo_now : time := 10 * minute + second.
Definition demo_manager : Manager :=
  (Issue (λ x, x) demo_verify false (mkManager 4 ∅) demo_request demo_now (Some demo_raw)).1.1.
Definition demo_wrong_binding : Binding :=
  mkBinding "mallory" "session_1" "host_reboot" "host_a" demo_digest "planned reboot".
Definition demo_consumed : Manager :=
  (Consume (λ x, x) demo_manager (b64_encode demo_raw) demo_wrong_binding demo_now).1.

(** * Properties *)

(** [Issue] returns a ticket only if the external verifier
    confirmed this subject and session with assurance level two or more, at least one
    method, and a confirmation no older than two minutes and not more than fifteen seconds
    ahead; the ticket lives at most five minutes. *)
Theorem issue_requires_strong_factor sha256 verify ctx m request now random m' buf ticket :
  Issue sha256 verify ctx m request now random = (m', buf, Ok ticket) →
  now < t_ExpiresAt ticket ≤ now + 5 * minute ∧
  ∃ f, verify (ir_Subject request) (ir_SessionID request) (ir_Assertion request) = Some f ∧
    vf_Subject f = ir_Subject request ∧ vf_SessionID f = ir_SessionID request ∧
    2 ≤ AssuranceLevel f ∧ Methods f ≠ [] ∧
    now - 2 * minute ≤ VerifiedAt f ≤ now + 15 * second.
Proof.
  intros H. apply Manager_Issue_cases in H
    as (_ & _ & [([e ?] & _)|(raw & ttl & f & _ & Httl & _ & Hv & Hf & _ & _ & _ & [= ->])]); [done|].
  cbn. unfold maximumTTL in Httl. split; [lia|]. exists f. split; [done|].
  unfold factor_ok, constant_eq, maximumFreshness in Hf. reflect_bools.
  split_and!; try done; lia.
Qed.

Lemma issue_requires_strong_factor_witness :
  t_ExpiresAt (mkTicket (b64_encode demo_raw) (demo_now + 2 * minute)) ≤ demo_now + 5 * minute.
Proof.
  apply (issue_requires_strong_factor (λ x, x) demo_verify false (mkManager 4 ∅) demo_request demo_now
           (Some demo_raw) demo_manager (wipe "0123456789abcdef")).
  vm_compute. reflexivity.
Defined.

(** C21: once a well-formed ticket value was presented with any well-formed
    binding, right or wrong, it is gone: no later presentation of that value succeeds, unless
    a new ticket with the same digest is drawn in between. *)
Theorem ticket_single_use sha256 verify m value b now m1 ok d m2 b' now' :
  Consume sha256 m value b now = (m1, ok) →
  presentable value b = true → ticket_digest sha256 value = Some d →
  rtc (manager_step sha256 verify (λ d', d' ≠ d)) m1 m2 →
  (Consume sha256 m2 value b' now').2 = false.
Proof.
  intros H Hp Hd Hsteps.
  apply Manager_Consume_cases in H as (_ & [(_ & _ & [?|?])|(d' & _ & Hd' & E & _)]).
  1-2: congruence.
  simplify_eq. assert (tickets m2 !! d' = None) as Hnone.
  { eapply manager_steps_absent; [done|]. rewrite E. apply lookup_delete_eq. }
  destruct (Consume sha256 m2 value b' now') as [m3 r] eqn:E2.
  apply Manager_Consume_cases in E2 as (_ & [(-> & _)|(d'' & _ & ? & _ & Hr)]); [done|].
  destruct r; [|done]. destruct Hr as [Hr _]. destruct Hr as (e & ? & _); [done|]. congruence.
Qed.

Lemma ticket_single_use_witness :
  (Consume (λ x, x) demo_consumed (b64_encode demo_raw) demo_binding demo_now).2 = false.
Proof.
  apply (ticket_single_use (λ x, x) demo_verify demo_manager (b64_encode demo_raw)
           demo_wrong_binding demo_now demo_consumed false demo_raw).
  - vm_compute. reflexivity.
  - vm_compute. reflexivity.
  - vm_compute. reflexivity.
  - apply rtc_refl.
Defined.

(** the ticket [Issue] returned is accepted for exactly the binding
    it was issued for, at any instant from its issue until it expires, and refused from its
    expiry on. *)
Theorem issue_consume_roundtrip sha256 verify ctx m request now raw m' buf ticket now' :
  Issue sha256 verify ctx m request now (Some raw) = (m', buf, Ok ticket) →
  slen raw = 32 →
  (Consume sha256 m' (Value ticket) (ir_binding request) now').2 = (now' <? t_ExpiresAt ticket)%Z.
Proof.
  intros H Hraw. apply Manager_Issue_cases in H
    as (_ & _ & [([e ?] & _)|(raw' & ttl & f & [= <-] & Httl & Hvb & _ & _ & _ & _ & Ht & [= ->])]); [done|].
  cbn. destruct (Consume sha256 m' (b64_encode raw) (ir_binding request) now') as [m2 r] eqn:E. cbn.
  assert (ticket_digest sha256 (b64_encode raw) = Some (sha256 raw)) as Hd.
  { unfold ticket_digest. rewrite b64_roundtrip. cbn. by rewrite Hraw. }
  assert (presentable (b64_encode raw) (ir_binding request) = true) as Hp.
  { unfold presentable. by rewrite Hvb, b64_encode_32. }
  apply Manager_Consume_cases in E as (_ & [(_ & _ & [?|?])|(d & _ & Hd' & _ & Hr)]); [congruence..|].
  rewrite Hd in Hd'. simplify_eq. rewrite Ht, lookup_insert_eq in Hr.
  apply eq_bool_prop_intro. rewrite !Is_true_true, Z.ltb_lt, Hr. split.
  - intros (e & ? & ? & _). by simplify_eq.
  - intros ?. by eexists.
Qed.

Lemma issue_consume_roundtrip_witness :
  (Consume (λ x, x) demo_manager (b64_encode demo_raw) demo_binding (demo_now + minute)).2 = true.
Proof.
  rewrite (issue_consume_roundtrip (λ x, x) demo_verify false (mkManager 4 ∅) demo_request demo_now demo_raw
    demo_manager (wipe "0123456789abcdef") (mkTicket (b64_encode demo_raw) (demo_now + 2 * minute))).
  - vm_compute. reflexivity.
  - vm_compute. reflexivity.
  - vm_compute. reflexivity.
Defined.

(** a ticket stored for one binding is accepted with a binding whose
    fields (and those of the stored one) contain no NUL byte only if the two bindings are the
    same, or SHA-256 has a collision. *)
Theorem consume_checks_binding sha256 m value d e b b' now :
  ticket_digest sha256 value = Some d → tickets m !! d = Some e →
  bindingDigest e = digestBinding sha256 b → nul_free b → nul_free b' →
  (Consume sha256 m value b' now).2 = true →
  b' = b ∨ ∃ x y, x ≠ y ∧ sha256 x = sha256 y.
Proof.
  intros Hd He Hb Hf Hf' H. destruct (Consume sha256 m value b' now) as [m' r] eqn:E. cbn in H. subst r.
  apply Manager_Consume_cases in E as (_ & [(? & _)|(d' & _ & Hd' & _ & Hr)]); [done|].
  destruct Hr as [Hr _]. destruct Hr as (e' & He' & _ & Hb'); [done|].
  apply digestBinding_inj; [done..|]. congruence.
Qed.

Lemma consume_checks_binding_witness : demo_binding = demo_binding ∨ ∃ x y : string, x ≠ y ∧ x = y.
Proof.
  apply (consume_checks_binding (λ x, x) demo_manager (b64_encode demo_raw) demo_raw
    (mkEntry (digestBinding (λ x, x) demo_binding) (demo_now + 2 * minute) "session_1")
    demo_binding demo_binding demo_now).
  - vm_compute. reflexivity.
  - vm_compute. reflexivity.
  - reflexivity.
  - repeat constructor.
  - repeat constructor.
  - vm_compute. reflexivity.
Defined.

Definition split_binding_1 : Binding :=
  mkBinding "alice" (String.append "session_" (String nul "session_1")) "host_reboot" "host_a"
    demo_digest "planned reboot".
Definition split_binding_2 : Binding :=
  mkBinding (String.append "alice" (String nul "session_")) "session_1" "host_reboot" "host_a"
    demo_digest "planned reboot".

(** subject, session and target may contain NUL bytes, the separator
    of the digest, so two different valid bindings have the same digest whatever SHA-256 is:
    a ticket issued for one subject and session is accepted for another. *)
Theorem nul_confuses_bindings sha256 :
  is_ok (validateBinding split_binding_1) = true ∧
  is_ok (validateBinding split_binding_2) = true ∧
  split_binding_1 ≠ split_binding_2 ∧
  digestBinding sha256 split_binding_1 = digestBinding sha256 split_binding_2.
Proof.
  split_and!; [vm_compute; reflexivity..|vm_compute; discriminate|].
  unfold digestBinding. f_equal.
Qed.

(** from a new manager on, the ticket table never holds more than the
    configured capacity, whatever operations run. *)
Theorem ticket_capacity sha256 verify cap m m' :
  New cap = Ok m → rtc (manager_step sha256 verify (λ _, True)) m m' →
  capacity m' = capacity m ∧ len (tickets m') ≤ capacity m' ≤ 65536.
Proof.
  unfold New. intros Hnew Hsteps. ok_inv Hnew. reflect_bools.
  generalize dependent (if (cap =? 0)%Z then defaultCapacity else cap). intros c Hlo Hhi Hsteps.
  assert (len (tickets (mkManager c ∅)) ≤ c) as H0.
  { unfold len. cbn. rewrite map_size_empty. lia. }
  enough (∀ x y, rtc (manager_step sha256 verify (λ _, True)) x y →
    len (tickets x) ≤ capacity x → capacity y = capacity x ∧ len (tickets y) ≤ capacity x) as Hind.
  { destruct (Hind _ _ Hsteps H0) as [E ?]. rewrite E. cbn in *. lia. }
  clear. induction 1 as [x|x y z Hxy _ IH]; [done|]. intros Hx.
  destruct (manager_step_capacity _ _ _ _ _ Hxy Hx) as [E ?]. rewrite <-E. apply IH. lia.
Qed.

Lemma ticket_capacity_witness : len (tickets (mkManager 4 ∅)) ≤ 4.
Proof.
  apply (ticket_capacity (λ x, x) demo_verify 4 (mkManager 4 ∅) (mkManager 4 ∅)).
  - reflexivity.
  - apply rtc_refl.
Defined.

(** [RevokeSession] leaves no ticket of the session's digest, keeps
    every other ticket, and returns the number of tickets it removed. *)
Theorem revoke_session_removes sha256 m sid m' n :
  RevokeSession sha256 m sid = (m', n) →
  n = len (tickets m) - len (tickets m') ∧
  ∀ d e, tickets m' !! d = Some e ↔ tickets m !! d = Some e ∧ sessionDigest e ≠ sha256 sid.
Proof.
  unfold RevokeSession. intros H. simplify_eq/=. split; [done|]. intros d e.
  rewrite prune_lookup_Some. unfold constant_eq. rewrite negb_true_iff, String.eqb_neq.
  naive_solver.
Qed.

Lemma revoke_session_removes_witness :
  tickets (RevokeSession (λ x, x) demo_manager "session_1").1 !! demo_raw = None.
Proof.
  destruct (tickets (RevokeSession (λ x, x) demo_manager "session_1").1 !! demo_raw) as [e|] eqn:E; [|done].
  apply (revoke_session_removes (λ x, x) demo_manager "session_1" _ 1) in E; [|vm_compute; reflexivity].
  destruct E as [E Hne]. exfalso. apply Hne. vm_compute in E. injection E as <-. reflexivity.
Defined.
