(* ===== verification/ConnectorAuth.v ===== *)
(** * HMAC request authentication between control plane and Connector

    Models [services/connector-protocol/auth.go]: the signer, the canonical
    request, and the verifier with its replay cache.  HTTP requests are
    records of the parts the code reads; SHA-256 and HMAC-SHA-256 are
    parameters. *)

From S2P Require Import Prelude GoStrings Encoding.

Definition ProtocolVersion := "v1".
Definition HeaderProtocol := "X-Vpsmgr-Protocol".
Definition HeaderKeyID := "X-Vpsmgr-Key-Id".
Definition HeaderTimestamp := "X-Vpsmgr-Timestamp".
Definition HeaderNonce := "X-Vpsmgr-Nonce".
Definition HeaderSignature := "X-Vpsmgr-Signature".

Definition minimumKeyBytes : Z := 32.
Definition defaultMaxSkew : duration := 30 * second.
Definition defaultNonces : Z := 10000.

(** What the code reads of an [http.Request]: its method, [URL.RequestURI()]
    ([None] for a nil URL) and its headers. *)
Record Request := mkRequest {
  Method : string;
  RequestURI : option string;
  Header : gmap string (list string);
}.

Definition header_set (name value : string) (h : gmap string (list string)) : gmap string (list string) :=
  <[name := [value]]> h.

Definition singleHeader (h : gmap string (list string)) (name : string) : option string :=
  match default [] (h !! name) with
  | [value] => if (trim_space value =? "") || negb (trimmed value) then None else Some value
  | _ => None
  end.

Definition validateKey (keyID key : string) : result string unit :=
  require (1 <=? slen keyID)%Z && (slen keyID <=? 64)%Z
    else "HMAC key ID must contain 1 to 64 characters" ;;
  require all_runes (λ r, is_alnum_rune r || (r =? 46)%Z || (r =? 95)%Z || (r =? 45)%Z) keyID
    else "HMAC key ID contains an invalid character" ;;
  require (minimumKeyBytes <=? slen key)%Z else "HMAC key must contain at least 32 decoded bytes" ;;
  Ok tt.

Record Signer := mkSigner { s_keyID : string; s_key : string }.

Definition NewSigner (keyID key : string) : result string Signer :=
  validateKey keyID key ≫= λ _, Ok (mkSigner keyID key).

Record Verifier := mkVerifier {
  keyID : string;
  key : string;
  maxSkew : duration;
  maxNonces : Z;
  nonces : gmap string time;
}.

Definition NewVerifier (kid k : string) (skew : duration) (max : Z) : result string Verifier :=
  validateKey kid k ≫= λ _,
  let skew := if (skew <=? 0)%Z then defaultMaxSkew else skew in
  require (skew <=? 5 * minute)%Z else "HMAC time window must not exceed five minutes" ;;
  let max := if (max <=? 0)%Z then defaultNonces else max in
  require (max <=? 1000000)%Z else "nonce cache limit is too large" ;;
  Ok (mkVerifier kid k skew max ∅).

(** [t.Unix()]. *)
Definition unix_of (t : time) : Z := t / second - unix_epoch_seconds.

Section protocol.
Context (sha256 : string → string) (hmac : string → string → string).

Definition canonicalRequest (method requestURI keyID timestamp nonce body : string) : string :=
  join newline ["VPSMGR-HMAC-SHA256"; ProtocolVersion; keyID; timestamp; nonce;
                to_upper_ascii method; requestURI; hex_encode (sha256 body)].

Definition computeMAC (key canonical : string) : string := hmac key canonical.

(** [Sign] with the clock and the 24 random nonce bytes as arguments. *)
Definition Sign (s : Signer) (request : Request) (body : string) (now : time) (random : option string)
    : result string Request :=
  match RequestURI request with
  | None => Err "request URL is required"
  | Some uri =>
    match random with
    | None => Err "generate request nonce"
    | Some nonceBytes =>
      let timestamp := itoa (unix_of now) in
      let nonce := b64_encode nonceBytes in
      let signature := computeMAC (s_key s)
        (canonicalRequest (Method request) uri (s_keyID s) timestamp nonce body) in
      Ok (mkRequest (Method request) (Some uri)
           (header_set HeaderSignature (b64_encode signature)
           (header_set HeaderNonce nonce
           (header_set HeaderTimestamp timestamp
           (header_set HeaderKeyID (s_keyID s)
           (header_set HeaderProtocol ProtocolVersion (Header request)))))))
    end
  end.

(** The checks of [Verify] before it takes the lock: the nonce text of an
    authentic, fresh request. *)
Definition Verify_request (v : Verifier) (request : Request) (body : string) (now : time)
    : result string string :=
  uri ← of_option (RequestURI request) "invalid_request";
  protocol ← of_option (singleHeader (Header request) HeaderProtocol) "invalid_protocol";
  require protocol =? ProtocolVersion else "invalid_protocol" ;;
  kid ← of_option (singleHeader (Header request) HeaderKeyID) "invalid_key_id";
  require kid =? keyID v else "invalid_key_id" ;;
  timestampText ← of_option (singleHeader (Header request) HeaderTimestamp) "invalid_timestamp";
  timestamp ← of_option (parse_int timestampText) "invalid_timestamp";
  let requestTime := time_unix timestamp in
  require negb ((requestTime <? now - maxSkew v)%Z || (now + maxSkew v <? requestTime)%Z)
    else "stale_request" ;;
  nonce ← of_option (singleHeader (Header request) HeaderNonce) "invalid_nonce";
  nonceBytes ← of_option (b64_decode false nonce) "invalid_nonce";
  require (16 <=? slen nonceBytes)%Z && (slen nonceBytes <=? 64)%Z else "invalid_nonce" ;;
  signatureText ← of_option (singleHeader (Header request) HeaderSignature) "invalid_signature";
  signature ← of_option (b64_decode false signatureText) "invalid_signature";
  require (slen signature =? 32)%Z else "invalid_signature" ;;
  let want := computeMAC (key v)
    (canonicalRequest (Method request) uri kid timestampText nonce body) in
  require constant_eq want signature else "invalid_signature" ;;
  Ok nonce.

Definition cacheKey (v : Verifier) (nonce : string) : string := keyID v +:+ String nul nonce.

(** The critical section of [Verify]: prune, look the nonce up, record it. *)
Definition Verify_nonce (v : Verifier) (nonce : string) (now : time) : Verifier * result string unit :=
  let ns := prune (λ exp, (now <? exp)%Z) (nonces v) in
  let pruned := mkVerifier (keyID v) (key v) (maxSkew v) (maxNonces v) ns in
  match ns !! cacheKey v nonce with
  | Some _ => (pruned, Err "replayed_request")
  | None =>
    if (maxNonces v <=? len ns)%Z then (pruned, Err "replay_cache_full")
    else (mkVerifier (keyID v) (key v) (maxSkew v) (maxNonces v)
            (<[cacheKey v nonce := now + 2 * maxSkew v]> ns), Ok tt)
  end.

Definition Verify (v : Verifier) (request : Request) (body : string) (now : time)
    : Verifier * result string unit :=
  match Verify_request v request body now with
  | Err e => (v, Err e)
  | Ok nonce => Verify_nonce v nonce now
  end.

(** ** Sequences of verifications

    Critical sections come one at a time, here with clock readings that do not
    go backwards.  The code reads the clock before it takes the lock, so requests
    that overlap can enter in another order than their readings; such sequences are
    not among these. *)
Inductive verify_step : Verifier * time → Verifier * time → Prop :=
| verify_step_intro v clock request body now v' r :
    clock ≤ now → Verify v request body now = (v', r) → verify_step (v, clock) (v', now).

(** ** Lemmas *)

(** What an accepted [Verify_request] has checked. *)
Record authentic (v : Verifier) (request : Request) (body : string) (now : time) (nonce : string) : Prop := {
  au_uri : ∃ uri ts tsText sig sigText,
    RequestURI request = Some uri ∧
    singleHeader (Header request) HeaderTimestamp = Some tsText ∧ parse_int tsText = Some ts ∧
    now - maxSkew v ≤ time_unix ts ≤ now + maxSkew v ∧
    singleHeader (Header request) HeaderSignature = Some sigText ∧ b64_decode false sigText = Some sig ∧
    sig = hmac (key v) (canonicalRequest (Method request) uri (keyID v) tsText nonce body);
  au_nonce : singleHeader (Header request) HeaderNonce = Some nonce;
}.

Lemma Verify_request_Ok v request body now nonce :
  Verify_request v request body now = Ok nonce → authentic v request body now nonce.
Proof.
  unfold Verify_request. intros H. ok_inv H. unfold constant_eq, computeMAC in *. reflect_bools. subst.
  split; [|done]. eexists _, _, _, _, _. split_and!; done.
Qed.

Lemma Verify_nonce_cases v nonce now v' r :
  Verify_nonce v nonce now = (v', r) →
  keyID v' = keyID v ∧ key v' = key v ∧ maxSkew v' = maxSkew v ∧ maxNonces v' = maxNonces v ∧
  let ns := prune (λ exp, (now <? exp)%Z) (nonces v) in
  ((∃ e, r = Err e) ∧ nonces v' = ns ∨
   r = Ok tt ∧ ns !! cacheKey v nonce = None ∧ len ns < maxNonces v ∧
   nonces v' = <[cacheKey v nonce := now + 2 * maxSkew v]> ns).
Proof.
  unfold Verify_nonce. intros H. repeat (case_match; simplify_eq/=); split_and!; try done.
  - left. eauto.
  - left. eauto.
  - right. reflect_bools. done.
Qed.

(** [Verify] never changes the configuration, and touches the cache only for
    an authentic request. *)
Lemma Verify_cases v request body now v' r :
  Verify v request body now = (v', r) →
  keyID v' = keyID v ∧ key v' = key v ∧ maxSkew v' = maxSkew v ∧ maxNonces v' = maxNonces v ∧
  ((∃ e, r = Err e) ∧ v' = v ∨
   ∃ nonce, authentic v request body now nonce ∧
     let ns := prune (λ exp, (now <? exp)%Z) (nonces v) in
     ((∃ e, r = Err e) ∧ nonces v' = ns ∨
      r = Ok tt ∧ ns !! cacheKey v nonce = None ∧ len ns < maxNonces v ∧
      nonces v' = <[cacheKey v nonce := now + 2 * maxSkew v]> ns)).
Proof.
  unfold Verify. destruct (Verify_request v request body now) as [nonce|e] eqn:E; intros H.
  - apply Verify_request_Ok in E.
    apply Verify_nonce_cases in H as (? & ? & ? & ? & H). split_and!; [done..|]. right. eauto.
  - simplify_eq. split_and!; [done..|]. left. eauto.
Qed.

(** The replay cache remembers [k] until the instant [E]. *)
Definition remembers (k : string) (E : time) (s : Verifier * time) : Prop :=
  s.2 < E → ∃ E', nonces s.1 !! k = Some E' ∧ E ≤ E'.

Lemma prune_remembers k E now (ns : gmap string time) E' :
  now < E → ns !! k = Some E' → E ≤ E' → prune (λ exp, (now <? exp)%Z) ns !! k = Some E'.
Proof. intros. apply prune_lookup_Some. split; [done|]. apply Z.ltb_lt. lia. Qed.

Lemma verify_step_remembers k E s s' : verify_step s s' → remembers k E s → remembers k E s'.
Proof.
  intros [v clock request body now v' r Hle H] Hr Hlt. cbn in *.
  destruct Hr as (E' & Hl & HE); [cbn; lia|]. cbn in Hl.
  pose proof (prune_remembers k E now _ E' Hlt Hl HE) as Hp.
  apply Verify_cases in H as (_ & _ & _ & _ & [(_ & ->)|(nonce & _ & [(_ & ->)|(_ & Hn & _ & ->)])]); [eauto..|].
  destruct (decide (cacheKey v nonce = k)) as [<-|Hne]; [congruence|].
  rewrite lookup_insert_ne by done. eauto.
Qed.

Lemma verify_step_config s s' :
  verify_step s s' → keyID s'.1 = keyID s.1 ∧ maxSkew s'.1 = maxSkew s.1 ∧ s.2 ≤ s'.2.
Proof.
  intros [v clock request body now v' r Hle H]. cbn.
  apply Verify_cases in H as (? & _ & ? & _). done.
Qed.

Lemma verify_steps_inv k E s s' :
  rtc verify_step s s' → remembers k E s →
  remembers k E s' ∧ keyID s'.1 = keyID s.1 ∧ maxSkew s'.1 = maxSkew s.1 ∧ s.2 ≤ s'.2.
Proof.
  induction 1 as [s|x y z Hxy _ IH]; [done|]. intros Hr.
  pose proof (verify_step_config _ _ Hxy) as (? & ? & ?).
  destruct IH as (? & ? & ? & ?); [by eapply verify_step_remembers|].
  split_and!; [done|congruence..|lia].
Qed.
End protocol.

(** ** Canonical requests *)

(** The six fields of a canonical request that are not its body. *)
Definition line_free (l : list string) : Prop := sep_free newline l.

Lemma canonicalRequest_inj sha256 m1 u1 k1 t1 n1 b1 m2 u2 k2 t2 n2 b2 :
  line_free [k1; t1; n1; to_upper_ascii m1; u1; hex_encode (sha256 b1)] →
  line_free [k2; t2; n2; to_upper_ascii m2; u2; hex_encode (sha256 b2)] →
  canonicalRequest sha256 m1 u1 k1 t1 n1 b1 = canonicalRequest sha256 m2 u2 k2 t2 n2 b2 →
  k1 = k2 ∧ t1 = t2 ∧ n1 = n2 ∧ to_upper_ascii m1 = to_upper_ascii m2 ∧ u1 = u2 ∧
  hex_encode (sha256 b1) = hex_encode (sha256 b2).
Proof.
  intros H1 H2 H. unfold canonicalRequest in H. apply join_inj in H; [|done|..].
  - by simplify_eq.
  - by repeat (apply Forall_cons; split; [reflexivity|]).
  - by repeat (apply Forall_cons; split; [reflexivity|]).
Qed.

Lemma canonicalRequest_binds sha256 m1 u1 k1 t1 n1 b1 m2 u2 k2 t2 n2 b2 :
  line_free [k1; t1; n1; to_upper_ascii m1; u1] → line_free [k2; t2; n2; to_upper_ascii m2; u2] →
  canonicalRequest sha256 m1 u1 k1 t1 n1 b1 = canonicalRequest sha256 m2 u2 k2 t2 n2 b2 →
  (t1 = t2 ∧ n1 = n2 ∧ to_upper_ascii m1 = to_upper_ascii m2 ∧ u1 = u2 ∧ b1 = b2) ∨
  ∃ x y, x ≠ y ∧ sha256 x = sha256 y.
Proof.
  intros H1 H2 H. apply canonicalRequest_inj in H as (_ & ? & ? & ? & ? & Hb%hex_encode_inj).
  - destruct (decide (b1 = b2)); [left; done|right; eauto].
  - apply (Forall_app_2 _ [k1; t1; n1; to_upper_ascii m1; u1]); [done|].
    repeat constructor. apply graphic_free; [done|apply hex_encode_graphic].
  - apply (Forall_app_2 _ [k2; t2; n2; to_upper_ascii m2; u2]); [done|].
    repeat constructor. apply graphic_free; [done|apply hex_encode_graphic].
Qed.

(** What [net/http] guarantees of a request it parsed: no line breaks in the
    method, the URI and the header values. *)
Definition wire_safe (r : Request) : Prop :=
  line_free [to_upper_ascii (Method r); default "" (RequestURI r)] ∧
  map_Forall (λ _ vs, line_free vs) (Header r).

Lemma singleHeader_free h name v :
  map_Forall (λ _ vs, line_free vs) h → singleHeader h name = Some v → contains_char newline v = false.
Proof.
  intros Hf. unfold singleHeader. destruct (h !! name) as [[|x [|]]|] eqn:E; cbn; try done.
  case_match; [done|]. intros [= <-]. specialize (Hf _ _ E). by inversion Hf.
Qed.

Lemma wire_safe_lines r kid text nonce uri :
  wire_safe r → contains_char newline kid = false → RequestURI r = Some uri →
  singleHeader (Header r) HeaderTimestamp = Some text → singleHeader (Header r) HeaderNonce = Some nonce →
  line_free [kid; text; nonce; to_upper_ascii (Method r); uri].
Proof.
  intros [Hm Hh] Hk Hu Ht Hn. rewrite Hu in Hm.
  apply Forall_cons_2; [done|apply Forall_cons_2; [|apply Forall_cons_2; [|exact Hm]]];eapply (singleHeader_free _ _ _ Hh); eassumption.
Qed.

Lemma singleHeader_set_eq name value h :
  graphic value = true → value ≠ "" → singleHeader (header_set name value h) name = Some value.
Proof.
  intros Hg Hne. unfold singleHeader, header_set. rewrite lookup_insert_eq. cbn.
  unfold trimmed. rewrite trim_space_graphic by done. rewrite String.eqb_refl.
  by destruct (String.eqb_spec value "").
Qed.

Lemma singleHeader_set_ne name name' value h :
  name ≠ name' → singleHeader (header_set name value h) name' = singleHeader h name'.
Proof. intros. unfold singleHeader, header_set. by rewrite lookup_insert_ne. Qed.

Lemma validateKey_Ok kid k u :
  validateKey kid k = Ok u → kid ≠ "" ∧ graphic kid = true ∧ 32 ≤ slen k.
Proof.
  unfold validateKey, minimumKeyBytes. intros H. ok_inv H. reflect_bools. split_and!; [|..|done].
  - intros ->. done.
  - eapply all_runes_graphic; [|done]. intros r Hr. cbv beta in Hr.
    unfold is_alnum_rune, is_lower_rune, is_upper_rune, is_digit_rune, in_range in Hr. lia.
Qed.

Lemma itoa_nonempty_graphic z : 0 ≤ z < 2 ^ 63 → itoa z ≠ "" ∧ graphic (itoa z) = true.
Proof.
  intros Hz. pose proof (parse_int_itoa z Hz) as Hp. split; [intros E; by rewrite E in Hp|].
  rewrite itoa_nonneg by lia. apply itoa_graphic.
Qed.

(** An instant that [Unix] and [time.Unix] carry: from 1970 on, in range. *)
Definition post_epoch (t : time) : Prop := unix_epoch_seconds ≤ t / second < 2 ^ 63.

Lemma time_unix_of t : post_epoch t → time_unix (unix_of t) = t / second * second.
Proof.
  unfold post_epoch, time_unix, unix_of, unix_epoch_seconds. intros H.
  rewrite i64_small; [f_equal; lia|lia].
Qed.

(** A request signed with the verifier's key passes every check before the
    replay cache. *)
Lemma Sign_Verify_request sha256 hmac s v request body now nonce signed now' :
  (∀ k m, slen (hmac k m) = 32) → is_ok (validateKey (s_keyID s) (s_key s)) = true →
  keyID v = s_keyID s → key v = s_key s → slen nonce = 24 → post_epoch now →
  now' - maxSkew v ≤ now / second * second ≤ now' + maxSkew v →
  Sign sha256 hmac s request body now (Some nonce) = Ok signed →
  Verify_request sha256 hmac v signed body now' = Ok (b64_encode nonce).
Proof.
  intros Hmac Hkey Hid Hk Hnonce Hpe Hfresh Hsign. unfold Sign in Hsign.
  destruct (RequestURI request) as [uri|] eqn:Euri; [|done]. simplify_eq/=.
  destruct (validateKey (s_keyID s) (s_key s)) as [[]|] eqn:Ek; [|done].
  apply validateKey_Ok in Ek as (Hkne & Hkg & _).
  assert (0 ≤ unix_of now < 2 ^ 63) as Hts.
  { unfold post_epoch, unix_of, unix_epoch_seconds in *. lia. }
  destruct (itoa_nonempty_graphic _ Hts) as [Htne Htg].
  assert (∀ x, slen x ≠ 0 → b64_encode x ≠ "") as Hne.
  { intros x Hx E. apply b64_encode_empty in E. by subst. }
  unfold Verify_request. cbn [RequestURI Header Method of_option mbind result_bind].
  do 4 rewrite (singleHeader_set_ne _ HeaderProtocol) by done.
  do 3 rewrite (singleHeader_set_ne _ HeaderKeyID) by done.
  do 2 rewrite (singleHeader_set_ne _ HeaderTimestamp) by done.
  rewrite (singleHeader_set_ne _ HeaderNonce) by done.
  rewrite !singleHeader_set_eq; try done; try apply b64_encode_graphic;
    try (apply Hne; unfold computeMAC; rewrite ?Hmac; lia).
  cbn [of_option mbind result_bind guard_ok]. rewrite String.eqb_refl. cbn [guard_ok mbind result_bind].
  rewrite Hid, String.eqb_refl. cbn [guard_ok mbind result_bind]. rewrite parse_int_itoa by done.
  cbn [of_option mbind result_bind]. rewrite time_unix_of by done.
  rewrite (proj2 (Z.ltb_ge _ _)) by lia. rewrite (proj2 (Z.ltb_ge _ _)) by lia. cbn [orb negb guard_ok mbind result_bind].
  cbn [of_option mbind result_bind]. rewrite (b64_roundtrip _ nonce).
  cbn [of_option mbind result_bind]. rewrite Hnonce. cbn [guard_ok Z.leb Z.compare Pos.compare Pos.compare_cont andb mbind result_bind].
  rewrite b64_roundtrip. cbn [of_option mbind result_bind]. unfold computeMAC. rewrite Hmac. cbn.
  unfold constant_eq. rewrite Hk, String.eqb_refl. done.
Qed.

(** The whole check, with a nonce that is new. *)
Lemma sign_verified sha256 hmac s v request body now nonce signed now' :
  (∀ k m, slen (hmac k m) = 32) → is_ok (validateKey (s_keyID s) (s_key s)) = true →
  keyID v = s_keyID s → key v = s_key s → slen nonce = 24 → post_epoch now →
  now' - maxSkew v ≤ now / second * second ≤ now' + maxSkew v →
  nonces v !! cacheKey v (b64_encode nonce) = None → len (nonces v) < maxNonces v →
  Sign sha256 hmac s request body now (Some nonce) = Ok signed →
  (Verify sha256 hmac v signed body now').2 = Ok tt.
Proof.
  intros Hmac Hkey Hid Hk Hn Hpe Hf Hc Hm Hs. unfold Verify.
  rewrite (Sign_Verify_request sha256 hmac s v request body now nonce) by done.
  unfold Verify_nonce. set (ns := prune _ _).
  assert (ns !! cacheKey v (b64_encode nonce) = None) as -> by (apply prune_lookup_None; auto).
  assert (len ns ≤ len (nonces v)) by apply len_prune_le.
  by rewrite (proj2 (Z.leb_gt _ _)) by lia.
Qed.

(** * Properties *)

(** C29: once a request was accepted at [t0], presenting it again later, after
    any sequence of other verifications and with any clock value [t1] that did not go
    backwards, is refused; the one exception is the instant [t1 = t0 + 2*maxSkew], and only
    for a request whose timestamp was ahead of [t0] by exactly the maximal skew. *)
Theorem replay_rejected sha256 hmac v request body t0 v1 v2 clock t1 v3 r :
  Verify sha256 hmac v request body t0 = (v1, Ok tt) →
  rtc (verify_step sha256 hmac) (v1, t0) (v2, clock) → clock ≤ t1 →
  Verify sha256 hmac v2 request body t1 = (v3, r) →
  (∃ e, r = Err e) ∨
  t1 = t0 + 2 * maxSkew v ∧
  ∃ text ts, singleHeader (Header request) HeaderTimestamp = Some text ∧ parse_int text = Some ts ∧
    time_unix ts = t0 + maxSkew v.
Proof.
  intros H0 Hsteps Hclock H1.
  apply Verify_cases in H0 as (Hid0 & _ & Hsk0 & _ & [([e ?] & _)|(n0 & A0 & [([e ?] & _)|(_ & _ & _ & Hins)])]);
    [done..|].
  apply (verify_steps_inv _ _ (cacheKey v n0) (t0 + 2 * maxSkew v)) in Hsteps as (Hr & Hid & Hsk & _); cbn in *.
  2: { intros _. exists (t0 + 2 * maxSkew v). cbn. rewrite Hins, lookup_insert_eq. done. }
  apply Verify_cases in H1 as (_ & _ & _ & _ & [(? & _)|(n1 & A1 & [(? & _)|(-> & Hnone & _)])]); [by left..|].
  right. destruct A0 as [(u & ts & text & _ & _ & _ & Et & Ep & Ht & _) En].
  destruct A1 as [(u' & ts' & text' & _ & _ & _ & Et' & Ep' & Ht' & _) En'].
  rewrite En in En'. injection En' as <-. rewrite Et in Et'. injection Et' as <-.
  rewrite Ep in Ep'. injection Ep' as <-.
  destruct (decide (t1 < t0 + 2 * maxSkew v)) as [Hlt|Hge].
  - destruct Hr as (E & HE & Hle); [cbn; lia|]. cbn in HE.
    assert (cacheKey v2 n0 = cacheKey v n0) as Ekey by (unfold cacheKey; congruence).
    rewrite Ekey in Hnone. rewrite (prune_remembers _ _ _ _ _ Hlt HE Hle) in Hnone. done.
  - rewrite Hsk, Hsk0 in *. split; [lia|]. exists text, ts. split_and!; [done..|lia].
Qed.

Definition demo_key : string := "0123456789abcdef0123456789abcdef".
Definition demo_hmac (k m : string) : string := take_str 32 (k +:+ m).
Definition demo_sha (m : string) : string := demo_key.
Definition demo_verifier : Verifier := mkVerifier "k1" demo_key (30 * second) 4 ∅.
Definition demo_now : time := time_unix 1700000000.
Definition demo_unsigned : Request := mkRequest "POST" (Some "/v1/runbooks/execute") ∅.
Definition demo_nonce : string := "0123456789abcdef01234567".
Definition demo_signed (now : time) : Request :=
  match Sign demo_sha demo_hmac (mkSigner "k1" demo_key) demo_unsigned "{}" now (Some demo_nonce) with
  | Ok r => r | Err _ => demo_unsigned end.
Definition demo_verified (v : Verifier) (t0 t : time) : Verifier * result string unit :=
  Verify demo_sha demo_hmac v (demo_signed t0) "{}" t.

Lemma replay_rejected_witness :
  ∃ e, (demo_verified (demo_verified demo_verifier demo_now demo_now).1 demo_now (demo_now + second)).2 = Err e.
Proof.
  destruct (replay_rejected demo_sha demo_hmac demo_verifier (demo_signed demo_now) "{}" demo_now
    (demo_verified demo_verifier demo_now demo_now).1 (demo_verified demo_verifier demo_now demo_now).1
    demo_now (demo_now + second)
    (demo_verified (demo_verified demo_verifier demo_now demo_now).1 demo_now (demo_now + second)).1
    (demo_verified (demo_verified demo_verifier demo_now demo_now).1 demo_now (demo_now + second)).2)
    as [H|[H _]].
  - vm_compute. reflexivity.
  - apply rtc_refl.
  - vm_compute. discriminate.
  - vm_compute. reflexivity.
  - exact H.
  - vm_compute in H. discriminate.
Defined.

(** the exception of the previous property is real: a request stamped one
    full skew ahead of the verifier's clock is accepted, and accepted once more exactly two
    skews later, because its nonce is forgotten at the instant the request is still fresh. *)
Theorem replay_boundary :
  let t0 := demo_now - 30 * second in
  let v1 := (demo_verified demo_verifier demo_now t0).1 in
  (demo_verified demo_verifier demo_now t0).2 = Ok tt ∧
  (demo_verified v1 demo_now (t0 + 59 * second)).2 = Err "replayed_request" ∧
  (demo_verified v1 demo_now (t0 + 60 * second)).2 = Ok tt.
Proof. vm_compute. done. Qed.

(** a request signed with a valid shared key is accepted, when its second is
    within the verifier's skew, its nonce is not in the cache and the cache has room. *)
Theorem sign_verify sha256 hmac s v request body now nonce signed now' :
  (∀ k m, slen (hmac k m) = 32) → is_ok (validateKey (s_keyID s) (s_key s)) = true →
  keyID v = s_keyID s → key v = s_key s → slen nonce = 24 → post_epoch now →
  now' - maxSkew v ≤ now / second * second ≤ now' + maxSkew v →
  nonces v !! cacheKey v (b64_encode nonce) = None → len (nonces v) < maxNonces v →
  Sign sha256 hmac s request body now (Some nonce) = Ok signed →
  (Verify sha256 hmac v signed body now').2 = Ok tt.
Proof. apply sign_verified. Qed.

Lemma demo_hmac_length k m : slen (demo_hmac (demo_key +:+ k) m) = 32.
Proof. unfold demo_hmac. rewrite append_assoc. done. Qed.

Lemma sign_verify_witness :
  (Verify demo_sha (λ k, demo_hmac (demo_key +:+ k)) demo_verifier
     (match Sign demo_sha (λ k, demo_hmac (demo_key +:+ k)) (mkSigner "k1" demo_key) demo_unsigned "{}" demo_now (Some demo_nonce)
      with Ok r => r | Err _ => demo_unsigned end) "{}" (demo_now + 3 * second)).2 = Ok tt.
Proof.
  apply (sign_verify demo_sha (λ k, demo_hmac (demo_key +:+ k)) (mkSigner "k1" demo_key) demo_verifier
    demo_unsigned "{}" demo_now demo_nonce).
  - intros k m. apply demo_hmac_length.
  - vm_compute. reflexivity.
  - reflexivity.
  - reflexivity.
  - reflexivity.
  - vm_compute. split; [discriminate|reflexivity].
  - vm_compute. split; discriminate.
  - reflexivity.
  - reflexivity.
  - reflexivity.
Defined.

(** two accepted requests that carry the same signature, under the same
    key, agree on the method (up to case), the URI, the timestamp, the nonce and the body, or
    SHA-256 or the HMAC has a collision: no covered part of a request can be swapped. *)
Theorem mac_binds_request sha256 hmac v1 r1 b1 t1 v1' v2 r2 b2 t2 v2' :
  Verify sha256 hmac v1 r1 b1 t1 = (v1', Ok tt) → Verify sha256 hmac v2 r2 b2 t2 = (v2', Ok tt) →
  keyID v1 = keyID v2 → key v1 = key v2 → contains_char newline (keyID v1) = false →
  singleHeader (Header r1) HeaderSignature = singleHeader (Header r2) HeaderSignature →
  wire_safe r1 → wire_safe r2 →
  (to_upper_ascii (Method r1) = to_upper_ascii (Method r2) ∧ RequestURI r1 = RequestURI r2 ∧
   singleHeader (Header r1) HeaderTimestamp = singleHeader (Header r2) HeaderTimestamp ∧
   singleHeader (Header r1) HeaderNonce = singleHeader (Header r2) HeaderNonce ∧ b1 = b2) ∨
  (∃ x y, x ≠ y ∧ sha256 x = sha256 y) ∨ (∃ k x y, x ≠ y ∧ hmac k x = hmac k y).
Proof.
  intros H1 H2 Hid Hk Hfree Hsig S1 S2.
  apply Verify_cases in H1 as (_ & _ & _ & _ & [([? ?] & _)|(n1 & [(u1 & ts1 & x1 & s1 & y1 & Eu1 & Et1 & _ & _ & Es1 & Ed1 & ->) En1] & _)]); [done|].
  apply Verify_cases in H2 as (_ & _ & _ & _ & [([? ?] & _)|(n2 & [(u2 & ts2 & x2 & s2 & y2 & Eu2 & Et2 & _ & _ & Es2 & Ed2 & ->) En2] & _)]); [done|].
  rewrite Hsig, Es2 in Es1. injection Es1 as <-. rewrite Ed2 in Ed1. injection Ed1 as Emac. rewrite Hk, Hid in Emac.
  set (c1 := canonicalRequest _ _ u1 _ _ _ _) in Emac. set (c2 := canonicalRequest _ _ u2 _ _ _ _) in Emac.
  destruct (decide (c1 = c2)) as [Ec|Ec]; [|right; right; by exists (key v2), c2, c1].
  apply canonicalRequest_binds in Ec as [(-> & -> & Em & -> & ->)|?]; [|by right; left|..].
  - left. split_and!; congruence.
  - apply wire_safe_lines; congruence.
  - apply wire_safe_lines; congruence.
Qed.

Lemma mac_binds_request_witness :
  RequestURI (demo_signed demo_now) = RequestURI (demo_signed demo_now) ∨
  (∃ x y, x ≠ y ∧ demo_sha x = demo_sha y) ∨ (∃ k x y, x ≠ y ∧ demo_hmac k x = demo_hmac k y).
Proof.
  destruct (mac_binds_request demo_sha demo_hmac
    demo_verifier (demo_signed demo_now) "{}" demo_now (demo_verified demo_verifier demo_now demo_now).1
    demo_verifier (demo_signed demo_now) "{}" demo_now (demo_verified demo_verifier demo_now demo_now).1)
    as [(_ & H & _)|H].
  - vm_compute. reflexivity.
  - vm_compute. reflexivity.
  - reflexivity.
  - reflexivity.
  - reflexivity.
  - reflexivity.
  - apply (bool_decide_unpack _). vm_compute. exact I.
  - apply (bool_decide_unpack _). vm_compute. exact I.
  - left. exact H.
  - right. exact H.
Defined.

(** whatever requests arrive, the replay cache stays within its
    limit, and a request that is refused before its MAC is checked, or with a wrong MAC,
    leaves the cache as it was. *)
Theorem verify_cache_bounded sha256 hmac v request body now v' r :
  Verify sha256 hmac v request body now = (v', r) → len (nonces v) ≤ maxNonces v →
  len (nonces v') ≤ maxNonces v' ∧ maxNonces v' = maxNonces v ∧
  (nonces v' ≠ nonces v → ∃ nonce, authentic sha256 hmac v request body now nonce).
Proof.
  intros H Hlen. apply Verify_cases in H
    as (_ & _ & _ & Hmax & [(_ & ->)|(nonce & A & [(_ & Hns)|(_ & Hnone & Hlt & Hns)])]);
    rewrite ?Hns, ?Hmax; split_and!; try done; try (intros _; by eauto).
  - etrans; [apply len_prune_le|done].
  - rewrite len_insert_new by done. lia.
Qed.

Lemma verify_cache_bounded_witness :
  let v' := (demo_verified demo_verifier demo_now demo_now).1 in
  len (nonces v') ≤ maxNonces v'.
Proof.
  refine (proj1 (verify_cache_bounded demo_sha demo_hmac demo_verifier (demo_signed demo_now) "{}" demo_now
    (demo_verified demo_verifier demo_now demo_now).1 (demo_verified demo_verifier demo_now demo_now).2 _ _)).
  - vm_compute. reflexivity.
  - vm_compute. discriminate.
Defined.
