(* ===== verification/Credentials.v ===== *)
(** * Envelope encryption of credentials

    Models [services/control-plane/internal/credentials/envelope.go] and
    [context.go], and the canonical encryption context of
    [services/keymanager/context.go].  AES-GCM is a parameter with the laws
    of an authenticated cipher; the key wrapper of the envelope service is an
    interface, and the development KMS one implementation of it. *)

From S2P Require Import Prelude GoStrings Encoding.

Definition dataKeyBytes : Z := 32.

Record Envelope := mkEnvelope {
  Ciphertext : string;
  Nonce : string;
  WrappedKey : string;
  KeyNonce : string;
  env_KeyID : string;
}.

Definition Envelope_zero : Envelope := mkEnvelope "" "" "" "" "".

(** [wipe]: every byte of the buffer becomes zero. *)
Fixpoint wipe (value : string) : string :=
  match value with
  | EmptyString => EmptyString
  | String _ rest => String nul (wipe rest)
  end.

(** [io.ReadFull(rand.Reader, make([]byte, n))]: the [n] bytes the source
    delivers, or an error. *)
Definition read_full (n : Z) (source : option string) (e : string) : result string string :=
  match source with
  | Some bytes => if (slen bytes =? n)%Z then Ok bytes else Err e
  | None => Err e
  end.

(** ** AES-GCM *)

Definition gcm_NonceSize : Z := 12.
Definition gcm_Overhead : Z := 16.

(** Go's [aes.NewCipher] and [cipher.NewGCM]: [Seal] and [Open] under a key,
    with a nonce and additional data. *)
Class GCM := {
  gcm_seal : string → string → string → string → string; (* key nonce plaintext aad *)
  gcm_open : string → string → string → string → option string;
}.

(** Open accepts exactly what Seal produces for that key, nonce and data, and
    Seal appends a 16-byte tag. *)
Class GCMLaws `{GCM} : Prop := {
  gcm_open_seal k n p a c : gcm_open k n c a = Some p ↔ c = gcm_seal k n p a;
  gcm_seal_length k n p a : slen (gcm_seal k n p a) = slen p + gcm_Overhead;
}.

(** [aes.NewCipher]: the key sizes of AES. *)
Definition NewCipher (key : string) : result string string :=
  if bool_decide (slen key ∈ [16; 24; 32]) then Ok key else Err "crypto/aes: invalid key size".

(** ** The interface to a key management service *)

Class KeyWrapper (K : Type) := {
  kw_KeyID : K → string;
  WrapKey : K → option string → string → string → result string (string * string);
}.
Class KeyUnwrapper (K : Type) := {
  ku_KeyID : K → string;
  UnwrapKey : K → string → string → string → result string string;
}.

(** What the envelope service relies on: one key id for both directions, and
    unwrapping returns the wrapped key under the same context. *)
Class KMS (K : Type) `{KeyWrapper K, KeyUnwrapper K} : Prop := {
  kms_key_id k : kw_KeyID k = ku_KeyID k;
  kms_unwrap_wrap k random dataKey aad wrapped nonce :
    WrapKey k random dataKey aad = Ok (wrapped, nonce) →
    UnwrapKey k wrapped nonce aad = Ok dataKey;
}.

(** ** The envelope service *)

Record Service (W U : Type) := mkService { wrapper : W; unwrapper : option U }.
Arguments mkService {W U} _ _.
Arguments wrapper {W U} _.
Arguments unwrapper {W U} _.

Section service.
Context `{GCM}.

Definition NewService {K} `{KeyWrapper K, KeyUnwrapper K} (kms : option K) : result string (Service K K) :=
  match kms with
  | None => Err "kms with a key id is required"
  | Some k =>
    if kw_KeyID k =? "" then Err "kms with a key id is required" else Ok (mkService k (Some k))
  end.

Definition NewSealingService {W} `{KeyWrapper W} (U : Type) (w : option W) : result string (Service W U) :=
  match w with
  | None => Err "key wrapper with a key id is required"
  | Some k =>
    if kw_KeyID k =? "" then Err "key wrapper with a key id is required" else Ok (mkService k None)
  end.

(** [Seal], with the random bytes of the data key, of the nonce and of the
    wrapper as arguments. *)
Definition Seal {W U} `{KeyWrapper W} (s : Service W U) (plaintext aad : string)
    (keyRandom nonceRandom wrapRandom : option string) : result string Envelope :=
  require negb (slen plaintext =? 0)%Z else "credential plaintext is empty" ;;
  require negb (slen aad =? 0)%Z else "credential encryption context is required" ;;
  dataKey ← read_full dataKeyBytes keyRandom "generate data key";
  cipher ← NewCipher dataKey;
  nonce ← read_full gcm_NonceSize nonceRandom "generate credential nonce";
  let ciphertext := gcm_seal cipher nonce plaintext aad in
  '(wrapped, keyNonce) ← WrapKey (wrapper s) wrapRandom dataKey aad;
  Ok (mkEnvelope ciphertext nonce wrapped keyNonce (kw_KeyID (wrapper s))).

(** [Open]: the result of the consumer, and the plaintext buffer after the
    call when one was decrypted.  A nil consumer is [None]. *)
Definition Open {W U} `{KeyUnwrapper U} (s : Service W U) (envelope : Envelope) (aad : string)
    (use : option (string → result string unit)) : result string unit * option string :=
  match use, unwrapper s with
  | None, _ => (Err "credential consumer is required", None)
  | Some _, None => (Err "credential decryption is unavailable in this process", None)
  | Some use, Some u =>
    if env_KeyID envelope ≠? ku_KeyID u then (Err "credential key id is not available", None)
    else match UnwrapKey u (WrappedKey envelope) (KeyNonce envelope) aad with
    | Err _ => (Err "unwrap data key", None)
    | Ok dataKey =>
      match NewCipher dataKey with
      | Err e => (Err e, None)
      | Ok cipher =>
        if negb (slen (Nonce envelope) =? gcm_NonceSize)%Z || (slen (Ciphertext envelope) <? gcm_Overhead)%Z
        then (Err "credential envelope is malformed", None)
        else match gcm_open cipher (Nonce envelope) (Ciphertext envelope) aad with
        | None => (Err "credential authentication failed", None)
        | Some plaintext => (use plaintext, Some (wipe plaintext))
        end
      end
    end
  end.

(** ** The development KMS *)

Record DevKMS := mkDevKMS { dev_keyID : string; master : string }.

Definition NewDevKMS (keyID masterKey : string) : result string DevKMS :=
  require negb (keyID =? "") && (slen masterKey =? dataKeyBytes)%Z
    else "dev kms requires a key id and a 32-byte master key" ;;
  Ok (mkDevKMS keyID masterKey).

(** [NewRandomDevKMS] with the formatted time as an argument. *)
Definition NewRandomDevKMS (stamp : string) (random : option string) : result string DevKMS :=
  m ← read_full dataKeyBytes random "read random";
  NewDevKMS ("dev-ephemeral-" +:+ stamp) m.

Definition aead (k : DevKMS) : result string string := NewCipher (master k).

#[global] Instance DevKMS_wrapper : KeyWrapper DevKMS := {|
  kw_KeyID := dev_keyID;
  WrapKey := λ k random dataKey aad,
    gcm ← aead k;
    nonce ← read_full gcm_NonceSize random "read random";
    Ok (gcm_seal gcm nonce dataKey aad, nonce) |}.

#[global] Instance DevKMS_unwrapper : KeyUnwrapper DevKMS := {|
  ku_KeyID := dev_keyID;
  UnwrapKey := λ k wrappedKey nonce aad,
    gcm ← aead k;
    require (slen nonce =? gcm_NonceSize)%Z && (gcm_Overhead <=? slen wrappedKey)%Z
      else "wrapped data key is malformed" ;;
    of_option (gcm_open gcm nonce wrappedKey aad) "wrapped data key authentication failed" |}.

(** The development KMS keeps the interface's promise. *)
#[global] Instance DevKMS_laws `{!GCMLaws} : KMS DevKMS.
Proof.
  split; [done|]. intros k random dataKey aad w n Hw. cbn in *. ok_inv Hw.
  match goal with G : aead k = _ |- _ => rewrite G end. cbn.
  match goal with G : read_full _ _ _ = Ok n |- _ =>
    unfold read_full in G; destruct random; [|done]; destruct (Z.eqb_spec (slen s) gcm_NonceSize) as [En|]; [|done];
    simplify_eq end.
  rewrite En. cbn. rewrite gcm_seal_length. unfold gcm_Overhead.
  assert (0 ≤ slen dataKey) by (unfold slen; lia).
  rewrite (proj2 (Z.leb_le _ _)) by lia. cbn. apply of_option_Ok. by apply gcm_open_seal.
Qed.
End service.

(** ** The encryption context *)

Record EncryptionContext := mkContext {
  InstallationID : string;
  CredentialID : string;
  ec_Version : Z;
  CredentialType : string;
}.

(** [^[A-Za-z0-9][A-Za-z0-9_.:-]{0,127}$] *)
Definition contextIDPattern (s : string) : bool :=
  match s with
  | EmptyString => false
  | String a rest =>
    char_in is_alnum_rune a && (slen rest <=? 127)%Z &&
    all_chars (λ b, is_alnum_rune b || (b =? 95)%Z || (b =? 46)%Z || (b =? 58)%Z || (b =? 45)%Z) rest
  end.

(** [^[a-z][a-z0-9_]{0,63}$] *)
Definition credentialPattern (s : string) : bool :=
  match s with
  | EmptyString => false
  | String a rest =>
    char_in is_lower_rune a && (slen rest <=? 63)%Z &&
    all_chars (λ b, is_lower_rune b || is_digit_rune b || (b =? 95)%Z) rest
  end.

Definition quote : ascii := "034"%char.
Definition quoted (s : string) : string := String quote (s +:+ String quote "").

(** [json.Marshal] of a context whose strings need no escaping. *)
Definition marshal_context (c : EncryptionContext) : string :=
  "{" +:+ quoted "installation_id" +:+ ":" +:+ quoted (InstallationID c) +:+ "," +:+
  quoted "credential_id" +:+ ":" +:+ quoted (CredentialID c) +:+ "," +:+
  quoted "version" +:+ ":" +:+ itoa (ec_Version c) +:+ "," +:+
  quoted "credential_type" +:+ ":" +:+ quoted (CredentialType c) +:+ "}".

Definition AAD (c : EncryptionContext) : result string string :=
  require contextIDPattern (InstallationID c) && contextIDPattern (CredentialID c) &&
          negb (ec_Version c =? 0)%Z && credentialPattern (CredentialType c)
    else "encryption context is invalid" ;;
  Ok (marshal_context c).

Definition ContextAAD (installationID objectID secretID secretType : string) : result string string :=
  require negb (contains ":" objectID || contains ":" secretID)
    else "encryption context object ids are invalid" ;;
  AAD (mkContext installationID (objectID +:+ ":" +:+ secretID) 1 secretType).

(** ** Lemmas *)

Lemma wipe_length s : slen (wipe s) = slen s.
Proof. unfold slen. induction s; cbn; lia. Qed.

Lemma contains_single c s : contains (String c "") s = contains_char c s.
Proof.
  induction s as [|a s IH]; [done|]. cbn. rewrite IH. f_equal.
  destruct (ascii_dec c a) as [->|]; [rewrite Ascii.eqb_refl|]; [by destruct s|].
  symmetry. by apply Ascii.eqb_neq.
Qed.

Lemma contextID_no_quote s : contextIDPattern s = true → contains_char quote s = false.
Proof.
  destruct s as [|a s]; [done|]. cbn [contextIDPattern]. intros H. reflect_bools. cbn.
  assert (contains_char quote s = false) as -> by (eapply all_chars_free; [|exact H]; reflexivity).
  rewrite orb_false_r.
  apply Ascii.eqb_neq. by intros ->.
Qed.

Lemma credential_no_quote s : credentialPattern s = true → contains_char quote s = false.
Proof.
  destruct s as [|a s]; [done|]. cbn [credentialPattern]. intros H. reflect_bools. cbn.
  assert (contains_char quote s = false) as -> by (eapply all_chars_free; [|exact H]; reflexivity).
  rewrite orb_false_r.
  apply Ascii.eqb_neq. by intros ->.
Qed.

(** A quoted text without quotes is read back up to its closing quote. *)
Lemma quoted_append_inj x y s t :
  contains_char quote x = false → contains_char quote y = false →
  quoted x +:+ s = quoted y +:+ t → x = y ∧ s = t.
Proof.
  unfold quoted. intros Hx Hy. rewrite !append_String, !append_assoc, !append_String, !append_Empty.
  intros [= H]. by apply append_sep_inj in H.
Qed.

Lemma AAD_Ok c aad : AAD c = Ok aad → aad = marshal_context c.
Proof. unfold AAD. intros (? & _ & H)%bind_Ok_inv. congruence. Qed.

Lemma marshal_context_inj c d :
  is_ok (AAD c) = true → is_ok (AAD d) = true → ec_Version c = ec_Version d →
  marshal_context c = marshal_context d → c = d.
Proof.
  unfold AAD. intros Hc Hd Hv H. destruct c as [ci cc cv ct], d as [di dc dv dt]. cbn in *. subst dv.
  destruct (contextIDPattern ci) eqn:E1; [|done]. destruct (contextIDPattern cc) eqn:E2; [|done].
  destruct (credentialPattern ct) eqn:E3; [|by rewrite andb_false_r in Hc].
  destruct (contextIDPattern di) eqn:F1; [|done]. destruct (contextIDPattern dc) eqn:F2; [|done].
  destruct (credentialPattern dt) eqn:F3; [|by rewrite andb_false_r in Hd].
  apply contextID_no_quote in E1, E2, F1, F2. apply credential_no_quote in E3, F3.
  unfold marshal_context in H. cbn [InstallationID CredentialID CredentialType ec_Version] in H.
  do 3 apply append_inj_r in H. apply quoted_append_inj in H as [-> H]; [|done..].
  do 3 apply append_inj_r in H. apply quoted_append_inj in H as [-> H]; [|done..].
  do 7 apply append_inj_r in H. by apply quoted_append_inj in H as [-> _].
Qed.

Lemma read_full_length n source e bytes : read_full n source e = Ok bytes → slen bytes = n.
Proof. unfold read_full. intros E. repeat case_match; simplify_eq. by apply Z.eqb_eq. Qed.

(** [Open] once the key service has returned the data key. *)
Lemma Open_unwrapped `{GCM, !GCMLaws} {W U} `{KeyUnwrapper U} (w : W) (u : U) envelope aad dataKey plaintext use :
  env_KeyID envelope = ku_KeyID u → UnwrapKey u (WrappedKey envelope) (KeyNonce envelope) aad = Ok dataKey →
  NewCipher dataKey = Ok dataKey → slen (Nonce envelope) = gcm_NonceSize →
  Ciphertext envelope = gcm_seal dataKey (Nonce envelope) plaintext aad →
  Open (mkService w (Some u)) envelope aad (Some use) = (use plaintext, Some (wipe plaintext)).
Proof.
  intros Hid Hu Hc Hn Hct. unfold Open. cbn. rewrite Hid, String.eqb_refl, Hu, Hc, Hn, Hct. cbn. rewrite gcm_seal_length.
  assert (0 ≤ slen plaintext) by (unfold slen; lia). unfold gcm_Overhead. rewrite (proj2 (Z.ltb_ge _ _)) by lia.
  by rewrite (proj2 (gcm_open_seal _ _ plaintext _ _)).
Qed.

(** What [Seal] puts into the envelope. *)
Lemma Seal_Ok `{GCM} {W U} `{KeyWrapper W} (s : Service W U) plaintext aad r1 r2 r3 envelope :
  Seal s plaintext aad r1 r2 r3 = Ok envelope →
  ∃ dataKey, NewCipher dataKey = Ok dataKey ∧ env_KeyID envelope = kw_KeyID (wrapper s) ∧
    slen (Nonce envelope) = gcm_NonceSize ∧ Ciphertext envelope = gcm_seal dataKey (Nonce envelope) plaintext aad ∧
    WrapKey (wrapper s) r3 dataKey aad = Ok (WrappedKey envelope, KeyNonce envelope).
Proof.
  unfold Seal. intros Hs. ok_inv Hs. match goal with x : (string * string)%type |- _ => destruct x as [wrapped keyNonce] end. simplify_eq.
  match goal with G : NewCipher ?k = Ok ?c |- _ => assert (c = k) as -> by (unfold NewCipher in G; case_match; congruence); exists k end.
  split_and!; try done. by eapply read_full_length.
Qed.

Lemma Open_Seal `{GCM, !GCMLaws} {K} `{KeyWrapper K, KeyUnwrapper K, !KMS K}
    (k : K) plaintext aad r1 r2 r3 envelope use :
  Seal (mkService k (Some k)) plaintext aad r1 r2 r3 = Ok envelope →
  Open (mkService k (Some k)) envelope aad (Some use) = (use plaintext, Some (wipe plaintext)).
Proof.
  intros (dataKey & Hc & Hid & Hn & Hct & Hw)%Seal_Ok. eapply Open_unwrapped; [|by eapply kms_unwrap_wrap|done..].
  rewrite Hid. apply kms_key_id.
Qed.

(** * Properties *)

(** for any key service that keeps the interface's promise, an
    envelope that [Seal] returned opens under the same context: the consumer receives exactly
    the sealed plaintext, its result is returned, and the plaintext buffer is zero afterwards. *)
Theorem seal_open_roundtrip `{GCM, !GCMLaws} {K} `{KeyWrapper K, KeyUnwrapper K, !KMS K}
    (k : K) plaintext aad r1 r2 r3 envelope use :
  Seal (mkService k (Some k)) plaintext aad r1 r2 r3 = Ok envelope →
  Open (mkService k (Some k)) envelope aad (Some use) = (use plaintext, Some (wipe plaintext)).
Proof. apply Open_Seal. Qed.

(** A toy cipher that keeps the laws: the plaintext and a constant tag. *)
#[local] Instance demo_gcm : GCM := {|
  gcm_seal := λ k n p a, p +:+ "0123456789abcdef";
  gcm_open := λ k n c a,
    let p := take_str (String.length c - 16) c in
    if (p +:+ "0123456789abcdef") =? c then Some p else None |}.


#[local] Instance demo_gcm_laws : GCMLaws.
Proof.
  split; cbn.
  - intros _ _ p _ c. split.
    + case_match eqn:E; [|done]. intros [= <-]. by apply String.eqb_eq in E.
    + intros ->. rewrite length_append, Nat.add_sub, take_str_append. by rewrite String.eqb_refl.
  - intros _ _ p _. unfold slen. rewrite length_append. cbn. unfold gcm_Overhead. lia.
Qed.

Definition demo_kms : DevKMS := mkDevKMS "dev" "0123456789abcdef0123456789abcdef".
Definition demo_envelope : Envelope :=
  match Seal (mkService demo_kms (Some demo_kms)) "key" "ctx" (Some (master demo_kms)) (Some "0123456789ab") (Some "ba9876543210")
  with Ok e => e | Err _ => Envelope_zero end.

Lemma seal_open_roundtrip_witness :
  (Open (mkService demo_kms (Some demo_kms)) demo_envelope "ctx" (Some (λ p, if p =? "key" then Ok tt else Err "bad"))).1 = Ok tt.
Proof.
  rewrite (seal_open_roundtrip demo_kms "key" "ctx" (Some (master demo_kms)) (Some "0123456789ab") (Some "ba9876543210")).
  - reflexivity.
  - vm_compute. reflexivity.
Defined.

(** a service built for sealing only never decrypts: [Open]
    fails without calling the consumer, whatever the envelope and the context. *)
Theorem sealing_service_cannot_open `{GCM} {W} `{KeyWrapper W} U `{KeyUnwrapper U} (w : W) s envelope aad use :
  NewSealingService U (Some w) = Ok s →
  Open s envelope aad (Some use) = (Err "credential decryption is unavailable in this process", None).
Proof. unfold NewSealingService. intros Hs. case_match; [done|]. simplify_eq. done. Qed.

Lemma sealing_service_cannot_open_witness :
  (Open (mkService demo_kms (@None DevKMS)) demo_envelope "ctx" (Some (λ _, Ok tt))).2 = None.
Proof.
  rewrite (sealing_service_cannot_open DevKMS demo_kms (mkService demo_kms None)); [reflexivity|].
  vm_compute. reflexivity.
Defined.

(** the encryption context is injective: equal contexts mean equal
    installation, object, secret and secret type, so an envelope cannot be moved between
    objects without changing its authenticated data. *)
Theorem context_aad_binds i o s t i' o' s' t' aad :
  ContextAAD i o s t = Ok aad → ContextAAD i' o' s' t' = Ok aad →
  i = i' ∧ o = o' ∧ s = s' ∧ t = t'.
Proof.
  unfold ContextAAD. intros H1 H2.
  apply bind_Ok_inv in H1 as (? & G1%guard_ok_Ok & A1). apply bind_Ok_inv in H2 as (? & G2%guard_ok_Ok & A2).
  rewrite !contains_single in G1, G2. reflect_bools.
  assert (mkContext i (o +:+ ":" +:+ s) 1 t = mkContext i' (o' +:+ ":" +:+ s') 1 t') as E.
  { apply marshal_context_inj; [by rewrite A1|by rewrite A2|done|].
    by rewrite <-(AAD_Ok _ _ A1), <-(AAD_Ok _ _ A2). }
  injection E as -> E ->. by apply append_sep_inj in E as [-> ->].
Qed.

Lemma context_aad_binds_witness : "host_1" = "host_1" ∧ "cred_1" = "cred_1".
Proof.
  destruct (context_aad_binds "inst" "host_1" "cred_1" "ssh_key" "inst" "host_1" "cred_1" "ssh_key"
    (marshal_context (mkContext "inst" "host_1:cred_1" 1 "ssh_key"))) as (_ & Ho & Hs & _).
  - vm_compute. reflexivity.
  - vm_compute. reflexivity.
  - split; assumption.
Defined.

(** an envelope sealed by the development KMS under one context opens
    under another only if AES-GCM accepts one ciphertext for two different contexts. *)
Theorem open_binds_context `{GCM, !GCMLaws} (k : DevKMS) plaintext aad aad' r1 r2 r3 envelope use r buf :
  Seal (mkService k (Some k)) plaintext aad r1 r2 r3 = Ok envelope →
  Open (mkService k (Some k)) envelope aad' (Some use) = (r, Some buf) →
  aad' = aad ∨ ∃ key n p a p' a', a ≠ a' ∧ gcm_seal key n p a = gcm_seal key n p' a'.
Proof.
  intros Hs Ho. destruct (decide (aad' = aad)) as [->|Hne]; [by left|right].
  unfold Seal in Hs. ok_inv Hs.
  match goal with x : (string * string)%type |- _ => destruct x as [wrapped keyNonce] end. simplify_eq.
  match goal with G : _ = Ok (wrapped, keyNonce) |- _ => ok_inv G end.
  unfold Open in Ho. cbn in Ho. rewrite String.eqb_refl in Ho. cbn in Ho.
  match goal with G : aead k = Ok _ |- _ => rewrite G in Ho end. cbn in Ho.
  destruct (guard_ok _ _) as [[]|]; [|done]. cbn in Ho.
  destruct (of_option _ _) as [dk|] eqn:E; [|done]. apply of_option_Ok, gcm_open_seal in E.
  do 6 eexists. split; [|exact E]. done.
Qed.

Lemma open_binds_context_witness :
  "ctx" = "ctx" ∨ ∃ key n p a p' a' : string, a ≠ a' ∧ gcm_seal key n p a = gcm_seal key n p' a'.
Proof.
  apply (open_binds_context demo_kms "key" "ctx" "ctx" (Some (master demo_kms)) (Some "0123456789ab")
    (Some "ba9876543210") demo_envelope (λ _, Ok tt) (Ok tt) (wipe "key")).
  - vm_compute. reflexivity.
  - vm_compute. reflexivity.
Defined.
