(* ===== verification/KeyManager.v ===== *)
(** * The key manager

    Models [services/keymanager/keymanager.go] and the validation of
    [context.go]: the Vault transit client with its configuration checks, the
    token file, and the in-memory manager.  The Vault server, URL parsing, the
    file system and the decoding of Vault's answers are parameters; [VaultLaws]
    is what the client relies on, that the transit engine decrypts what it
    encrypted under the same key and context.  The canonical encryption context
    is decoded with the JSON reader of file Json. *)

From S2P Require Import Prelude GoStrings Encoding Json Url Credentials.

Definition DataKeyBytes : Z := 32.
Definition maxVaultResponse : Z := 65536.
Definition maxVaultTokenBytes : Z := 16384.

(** ** The encryption context as JSON *)

(** The case folding of member names: ASCII letters, and the two runes that
    fold to one. *)
Fixpoint fold_name (s : string) : string :=
  match s with
  | EmptyString => ""
  | String a s' =>
    let b := byte_val a in
    if (b <? 128)%Z then String (if in_range 97 122 b then byte_of (b - 32) else a) (fold_name s')
    else match s' with
    | String a2 s2 =>
      if (b =? 197)%Z && (byte_val a2 =? 191)%Z then String "S" (fold_name s2)
      else match s2 with
      | String a3 s3 =>
        if (b =? 226)%Z && (byte_val a2 =? 132)%Z && (byte_val a3 =? 170)%Z then String "K" (fold_name s3)
        else String a (fold_name s')
      | EmptyString => String a (fold_name s')
      end
    | EmptyString => String a (fold_name s')
    end
  end.

Definition zero_context : EncryptionContext := mkContext "" "" 0 "".

(** A member of the object; [null] leaves the field as it is. *)
Definition decode_member (c : EncryptionContext) (kv : string * json) : option EncryptionContext :=
  let text (set : string → EncryptionContext) :=
    match kv.2 with JString s => Some (set s) | JNull => Some c | _ => None end in
  let name := fold_name kv.1 in
  if name =? "INSTALLATION_ID" then text (λ s, mkContext s (CredentialID c) (ec_Version c) (CredentialType c))
  else if name =? "CREDENTIAL_ID" then text (λ s, mkContext (InstallationID c) s (ec_Version c) (CredentialType c))
  else if name =? "CREDENTIAL_TYPE" then text (λ s, mkContext (InstallationID c) (CredentialID c) (ec_Version c) s)
  else if name =? "VERSION" then
    match kv.2 with
    | JNumber n => v ← parse_uint 64 n; Some (mkContext (InstallationID c) (CredentialID c) v (CredentialType c))
    | JNull => Some c
    | _ => None
    end
  else None.

(** [Decode] of the first value, unknown members refused. *)
Definition decode_context (aad : string) : option EncryptionContext :=
  match value Replace (2 * String.length aad + 2) 0 aad with
  | Some (JObject members, _) => foldl (λ c kv, c ← c; decode_member c kv) (Some zero_context) members
  | Some (JNull, _) => Some zero_context
  | _ => None
  end.

Definition ValidateEncryptionContext (aad : string) : result string unit :=
  require negb ((slen aad =? 0)%Z || (1024 <? slen aad)%Z) else "encryption context is invalid" ;;
  contextValue ← of_option (decode_context aad) "encryption context is invalid";
  match AAD contextValue with
  | Ok canonical => if canonical =? aad then Ok tt else Err "encryption context is not canonical"
  | Err _ => Err "encryption context is not canonical"
  end.

(** ** The token file *)

(** An opened file: its mode when it can be read, and its contents. *)
Record File := mkFile { file_Stat : option (bool * Z); file_Contents : option string }.

Definition line_breaks : string := String "013" (String "010" (String nul "")).

(** [windows] is the test of [runtime.GOOS]. *)
Definition Token (Open : string → option File) (windows : bool) (path : string) : result string string :=
  require has_prefix "/" path else "Vault token file path must be absolute" ;;
  file ← of_option (Open path) "open Vault token file";
  let unsafe := "Vault token file permissions are unsafe" in
  '(regular, perm) ← of_option (file_Stat file) unsafe;
  require negb (negb regular || negb windows && negb (Z.land perm 63 =? 0)%Z) else unsafe ;;
  contents ← of_option (read_limited maxVaultTokenBytes <$> file_Contents file) "read Vault token file";
  require negb (maxVaultTokenBytes <? slen contents)%Z else "read Vault token file" ;;
  let contents := trim_space contents in
  require negb ((slen contents =? 0)%Z || contains_any line_breaks contents) else "Vault token file is invalid" ;;
  Ok contents.

(** ** Vault transit *)

Definition WrapOnly := "wrap".
Definition UnwrapOnly := "unwrap".
Definition WrapUnwrap := "wrap_unwrap".

Record VaultConfig := mkVaultConfig {
  Address : string;
  TransitMount : string;
  KeyName : string;
  Namespace : string;
  Environment : string;
  Capability : string;
  TLSCAFile : string;
  RequestTimeout : duration;
  AllowInsecureDevelopment : bool;
}.

(** [^[A-Za-z0-9][A-Za-z0-9_-]{0,127}$] *)
Definition vaultPathPattern (s : string) : bool :=
  match s with
  | EmptyString => false
  | String a rest =>
    char_in is_alnum_rune a && (slen rest <=? 127)%Z &&
    all_chars (λ b, is_alnum_rune b || (b =? 95)%Z || (b =? 45)%Z) rest
  end.

(** [^[A-Za-z0-9-]{1,128}$] *)
Definition vaultRequestIDPattern (s : string) : bool :=
  (1 <=? slen s)%Z && (slen s <=? 128)%Z && all_chars (λ b, is_alnum_rune b || (b =? 45)%Z) s.

(** [[A-Za-z0-9_+/=-]] *)
Definition ciphertext_char (b : Z) : bool :=
  is_alnum_rune b || (b =? 95)%Z || (b =? 43)%Z || (b =? 47)%Z || (b =? 61)%Z || (b =? 45)%Z.

(** [[0-9]*:[A-Za-z0-9_+/=-]+$] *)
Fixpoint ciphertext_tail (s : string) : bool :=
  match s with
  | EmptyString => false
  | String a rest =>
    if char_in is_digit_rune a then ciphertext_tail rest
    else Ascii.eqb a ":" && negb (rest =? "") && all_chars ciphertext_char rest
  end.

(** [^vault:v[1-9][0-9]*:[A-Za-z0-9_+/=-]+$] *)
Definition vaultCiphertextPattern (s : string) : bool :=
  has_prefix "vault:v" s &&
  match drop_str 7 s with
  | EmptyString => false
  | String a rest => in_range 49 57 (byte_val a) && ciphertext_tail rest
  end.

(** The outcome of the token source is part of the client. *)
Record VaultTransit := mkVaultTransit {
  baseURL : string;
  mount : string;
  keyName : string;
  keyID : string;
  namespace : string;
  capability : string;
  tokenSource : result string string;
}.

Record VaultRequest := mkVaultRequest {
  vq_URL : string;
  vq_Token : string;
  vq_Namespace : option string;
  vq_Body : gmap string string;
}.

(** [None] is a body that could not be read. *)
Record VaultResponse := mkVaultResponse {
  vs_Status : Z;
  vs_RequestID : string;
  vs_Body : option string;
}.

Section vault.
Context (Parse : string → option URL) (sha256 : string → string).

Definition Validate (c : VaultConfig) : result string unit :=
  require (Environment c =? "production") || (Environment c =? "development") || (Environment c =? "test")
    else "environment must be production, development, or test" ;;
  parsed ← of_option (Parse (Address c)) "Vault address is invalid";
  require negb ((Hostname parsed =? "") || HasUser parsed || (RawQuery parsed ≠? "") || (Fragment parsed ≠? ""))
    else "Vault address is invalid" ;;
  require negb ((Path parsed ≠? "") && (Path parsed ≠? "/")) else "Vault address must not contain a path" ;;
  require vaultPathPattern (TransitMount c) && vaultPathPattern (KeyName c)
    else "Vault transit mount or key name is invalid" ;;
  require negb ((Namespace c ≠? "") &&
                (contains_any line_breaks (Namespace c) || has_prefix "/" (Namespace c) || contains ".." (Namespace c)))
    else "Vault namespace is invalid" ;;
  _ ← (if (Capability c =? WrapOnly) || (Capability c =? UnwrapOnly) then Ok tt
       else if Capability c =? WrapUnwrap then
         if Environment c =? "production"
         then Err "production Vault identity cannot combine wrap and unwrap capabilities" else Ok tt
       else Err "Vault capability must be explicit");
  _ ← (if Environment c =? "production" then
         if (Scheme parsed ≠? "https") || AllowInsecureDevelopment c then Err "production Vault requires HTTPS" else Ok tt
       else if (Scheme parsed ≠? "https") && negb ((Scheme parsed =? "http") && AllowInsecureDevelopment c) then
         Err "Vault HTTP requires explicit development-only opt-in"
       else if AllowInsecureDevelopment c && (Environment c ≠? "development") && (Environment c ≠? "test") then
         Err "Vault insecure mode is development-only"
       else Ok tt);
  require negb ((RequestTimeout c <? 0)%Z || (minute <? RequestTimeout c)%Z) else "Vault request timeout is invalid" ;;
  Ok tt.

(** The certificates that are trusted besides the system's. *)
Definition vaultTLSConfig (ReadFile : string → option string) (AppendCertsFromPEM : string → bool) (caFile : string)
    : result string (option string) :=
  if caFile =? "" then Ok None
  else
    contents ← of_option (ReadFile caFile) "read Vault TLS CA file";
    require AppendCertsFromPEM contents else "Vault TLS CA file has no certificates" ;;
    Ok (Some contents).

Definition NewVaultTransit (ReadFile : string → option string) (AppendCertsFromPEM : string → bool) (config : VaultConfig)
    (tokenSource : option (result string string)) : result string VaultTransit :=
  _ ← Validate config;
  tokenSource ← of_option tokenSource "Vault token source is required";
  _ ← vaultTLSConfig ReadFile AppendCertsFromPEM (TLSCAFile config);
  let address := trim_slashes (Address config) in
  Ok (mkVaultTransit address (TransitMount config) (KeyName config)
        ("vault-transit:" +:+ hex_encode (take_str 6 (sha256 address)) +:+ "/" +:+ TransitMount config +:+ "/" +:+ KeyName config)
        (Namespace config) (Capability config) tokenSource).

(** The server, and the decoding of one answer up to the rest of the input. *)
Context (Do : VaultRequest → option VaultResponse).

Definition vault_url (v : VaultTransit) (operation : string) : string :=
  baseURL v +:+ "/v1/" +:+ mount v +:+ "/" +:+ operation +:+ "/" +:+ keyName v.
Definition vault_request (v : VaultTransit) (operation token : string) (payload : gmap string string) : VaultRequest :=
  mkVaultRequest (vault_url v operation) token (if namespace v =? "" then None else Some (namespace v)) payload.

Definition rejected (status : Z) (requestID : string) : string :=
  "Vault request rejected with status " +:+ itoa status +:+
  (if vaultRequestIDPattern requestID then " (request " +:+ requestID +:+ ")" else "").

Definition post (decode : string → option (string * string)) (v : VaultTransit) (operation : string) (payload : gmap string string)
    : result string string :=
  require bool_decide (is_Some (Parse (vault_url v operation))) else "create Vault request" ;;
  token ← (match tokenSource v with Ok t => Ok t | Err _ => Err "load Vault authentication token" end);
  response ← of_option (Do (vault_request v operation token payload)) "Vault request failed";
  contents ← of_option (read_limited maxVaultResponse <$> vs_Body response) "Vault response is invalid or too large";
  require negb (maxVaultResponse <? slen contents)%Z else "Vault response is invalid or too large" ;;
  require negb ((vs_Status response <? 200)%Z || (300 <=? vs_Status response)%Z)
    else rejected (vs_Status response) (vs_RequestID response) ;;
  '(data, rest) ← of_option (decode contents) "decode Vault response";
  require skip_ws rest =? "" else "Vault response contains trailing data" ;;
  Ok data.

Context (decodeCiphertext decodePlaintext : string → option (string * string)).

Definition vault_WrapKey (v : VaultTransit) (dataKey aad : string) : result string (string * string) :=
  require negb ((capability v ≠? WrapOnly) && (capability v ≠? WrapUnwrap))
    else "Vault identity is not permitted to wrap keys" ;;
  require (slen dataKey =? DataKeyBytes)%Z && is_ok (ValidateEncryptionContext aad)
    else "data key and encryption context are required" ;;
  ciphertext ← post decodeCiphertext v "encrypt" (<["plaintext" := std_encode dataKey]> {["context" := std_encode aad]});
  require negb ((maxVaultResponse <? slen ciphertext)%Z || negb (vaultCiphertextPattern ciphertext))
    else "Vault returned an invalid wrapped key" ;;
  Ok (ciphertext, "").

Definition vault_UnwrapKey (v : VaultTransit) (wrappedKey nonce aad : string) : result string string :=
  require negb ((capability v ≠? UnwrapOnly) && (capability v ≠? WrapUnwrap))
    else "Vault identity is not permitted to unwrap keys" ;;
  require negb (negb (slen nonce =? 0)%Z || (slen wrappedKey =? 0)%Z || (maxVaultResponse <? slen wrappedKey)%Z ||
                negb (is_ok (ValidateEncryptionContext aad)) || negb (vaultCiphertextPattern wrappedKey))
    else "wrapped key or encryption context is invalid" ;;
  plaintext ← post decodePlaintext v "decrypt" (<["ciphertext" := wrappedKey]> {["context" := std_encode aad]});
  dataKey ← of_option (std_decode_strict plaintext) "Vault returned an invalid data key";
  require (slen dataKey =? DataKeyBytes)%Z else "Vault returned an invalid data key" ;;
  Ok dataKey.

#[local] Instance Vault_wrapper : KeyWrapper VaultTransit := {|
  kw_KeyID := keyID; WrapKey := λ v _ dataKey aad, vault_WrapKey v dataKey aad |}.
#[local] Instance Vault_unwrapper : KeyUnwrapper VaultTransit := {| ku_KeyID := keyID; UnwrapKey := vault_UnwrapKey |}.
End vault.

(** ** The in-memory manager *)

Record MemoryManager := mkMemoryManager { mm_keyID : string; mm_master : string }.

Definition NewMemoryManager (environment keyID master : string) : result string MemoryManager :=
  require (environment =? "development") || (environment =? "test") else "memory key manager is forbidden in production" ;;
  require negb ((keyID =? "") || negb (slen master =? DataKeyBytes)%Z)
    else "memory key manager requires an id and 32-byte key" ;;
  Ok (mkMemoryManager keyID master).

Definition mm_aead (m : MemoryManager) : result string string := NewCipher (mm_master m).

#[global] Instance Memory_wrapper `{GCM} : KeyWrapper MemoryManager := {|
  kw_KeyID := mm_keyID;
  WrapKey := λ m random dataKey aad,
    require (slen dataKey =? DataKeyBytes)%Z && is_ok (ValidateEncryptionContext aad)
      else "data key and encryption context are required" ;;
    gcm ← mm_aead m;
    nonce ← read_full gcm_NonceSize random "generate wrapping nonce";
    Ok (gcm_seal gcm nonce dataKey aad, nonce) |}.

#[global] Instance Memory_unwrapper `{GCM} : KeyUnwrapper MemoryManager := {|
  ku_KeyID := mm_keyID;
  UnwrapKey := λ m wrappedKey nonce aad,
    gcm ← mm_aead m;
    require (slen nonce =? gcm_NonceSize)%Z && (gcm_Overhead <=? slen wrappedKey)%Z && is_ok (ValidateEncryptionContext aad)
      else "wrapped key is malformed" ;;
    plaintext ← of_option (gcm_open gcm nonce wrappedKey aad) "wrapped key authentication failed";
    require (slen plaintext =? DataKeyBytes)%Z else "wrapped key authentication failed" ;;
    Ok plaintext |}.

(** ** Lemmas: the encryption context *)

(** Characters that JSON writes as they are. *)
Definition plain (b : Z) : bool := in_range 32 127 b && negb (b =? 34)%Z && negb (b =? 92)%Z.

Lemma escape_plain s : all_chars plain s = true → escape_all s = s ∧ ascii_text s = true.
Proof.
  unfold all_chars, ascii_text. induction s as [|a s IH]; [done|]. cbn -[plain]. intros [Ha Hs]%andb_true_iff.
  destruct (IH Hs) as [-> ->]. unfold char_in, plain, in_range in Ha. reflect_bools.
  assert (Ascii.eqb a Json.quote = false) as E1 by (apply Ascii.eqb_neq; intros ->; done).
  assert (Ascii.eqb a backslash = false) as E2 by (apply Ascii.eqb_neq; intros ->; done).
  unfold escape. rewrite E1, E2, (proj2 (Z.ltb_ge _ _)) by lia. rewrite (proj2 (Z.ltb_lt _ _)) by lia. done.
Qed.

Lemma all_chars_weaken (p q : Z → bool) s : (∀ b, p b = true → q b = true) → all_chars p s = true → all_chars q s = true.
Proof. unfold all_chars. intros Hpq. rewrite !forallb_forall. intros Hs x Hx. by apply Hpq, Hs. Qed.

Lemma alnum_plain b : is_alnum_rune b = true → plain b = true.
Proof. unfold is_alnum_rune, is_lower_rune, is_upper_rune, is_digit_rune, plain, in_range. intros Hb. reflect_bools. lia. Qed.

Lemma contextID_plain s : contextIDPattern s = true → all_chars plain s = true ∧ 1 ≤ slen s ≤ 128.
Proof.
  destruct s as [|a s]; [done|]. cbn [contextIDPattern]. intros Hs. reflect_bools. split.
  - cbn. apply andb_true_iff. split; [by apply alnum_plain|]. eapply all_chars_weaken; [|eassumption].
    intros b. rewrite !orb_true_iff, !Z.eqb_eq. intros [[[[Hb| ->]| ->]| ->]| ->]; [by apply alnum_plain|done..].
  - unfold slen in *. cbn [String.length]. lia.
Qed.

Lemma credential_plain s : credentialPattern s = true → all_chars plain s = true ∧ 1 ≤ slen s ≤ 64.
Proof.
  destruct s as [|a s]; [done|]. cbn [credentialPattern]. intros Hs. reflect_bools. split.
  - assert (∀ b, is_lower_rune b || is_digit_rune b = true → plain b = true) as Hp.
    { intros b Hb. apply alnum_plain. unfold is_alnum_rune. destruct (is_lower_rune b), (is_upper_rune b), (is_digit_rune b); done. }
    cbn. apply andb_true_iff. split; [apply Hp; unfold char_in in *; by apply orb_true_iff; left|]. eapply all_chars_weaken; [|eassumption].
    intros b. rewrite orb_true_iff, Z.eqb_eq. intros [Hb| ->]; [by apply Hp|done].
  - unfold slen in *. cbn [String.length]. lia.
Qed.

(** The canonical text is the printed object. *)
Definition context_json (c : EncryptionContext) : json :=
  JObject [("installation_id", JString (InstallationID c)); ("credential_id", JString (CredentialID c));
           ("version", JNumber (itoa (ec_Version c))); ("credential_type", JString (CredentialType c))].

Lemma quoted_plain s : all_chars plain s = true → Json.quoted s = quoted s.
Proof. intros [E _]%escape_plain. unfold Json.quoted, quoted. by rewrite E. Qed.

Lemma AAD_parts c aad :
  AAD c = Ok aad → 0 ≤ ec_Version c →
  aad = marshal_context c ∧ contextIDPattern (InstallationID c) = true ∧ contextIDPattern (CredentialID c) = true ∧
  0 < ec_Version c ∧ credentialPattern (CredentialType c) = true.
Proof. unfold AAD. intros Ha Hv. ok_inv Ha. reflect_bools. split_and!; (done || lia). Qed.

Lemma marshal_print c aad :
  AAD c = Ok aad → 0 ≤ ec_Version c → aad = print (context_json c) ∧ well_formed (context_json c) = true.
Proof.
  intros Ha Hv. apply AAD_parts in Ha as (-> & Hi & Hc & Hp & Ht); [|done].
  apply contextID_plain in Hi as [Hi _], Hc as [Hc _]. apply credential_plain in Ht as [Ht _]. split.
  - unfold marshal_context, context_json. cbn -[String.app itoa Json.quoted]. rewrite !quoted_plain by done.
    repeat (rewrite ?append_assoc, ?append_String, ?append_Empty). reflexivity.
  - apply escape_plain in Hi as [_ Hi], Hc as [_ Hc], Ht as [_ Ht]. cbn -[ascii_text number_text].
    rewrite Hi, Hc, Ht, itoa_number by done. reflexivity.
Qed.

Lemma decode_members c id credential version kind :
  decode_member c ("installation_id", JString id) = Some (mkContext id (CredentialID c) (ec_Version c) (CredentialType c)) ∧
  decode_member c ("credential_id", JString credential) = Some (mkContext (InstallationID c) credential (ec_Version c) (CredentialType c)) ∧
  decode_member c ("version", JNumber version) =
    (v ← parse_uint 64 version; Some (mkContext (InstallationID c) (CredentialID c) v (CredentialType c))) ∧
  decode_member c ("credential_type", JString kind) = Some (mkContext (InstallationID c) (CredentialID c) (ec_Version c) kind).
Proof. split_and!; reflexivity. Qed.

Lemma decode_marshal c aad : AAD c = Ok aad → 0 ≤ ec_Version c < 2 ^ 64 → decode_context aad = Some c.
Proof.
  intros Ha Hv. apply marshal_print in Ha as [-> Hw]; [|lia]. unfold decode_context.
  pose proof (value_print Replace (context_json c) Hw (2 * String.length (print (context_json c)) + 2)%nat 0 "") as Hval.
  rewrite append_nil in Hval. rewrite Hval by (done || (cbn; unfold maxNestingDepth; lia)).
  unfold context_json. cbn -[decode_member itoa].
  destruct (decode_members zero_context (InstallationID c) "" "" "") as (-> & _). cbn -[decode_member itoa].
  destruct (decode_members (mkContext (InstallationID c) "" 0 "") "" (CredentialID c) "" "") as (_ & -> & _). cbn -[decode_member itoa].
  destruct (decode_members (mkContext (InstallationID c) (CredentialID c) 0 "") "" "" (itoa (ec_Version c)) "") as (_ & _ & -> & _).
  rewrite parse_uint_itoa by done. cbn -[decode_member].
  destruct (decode_members (mkContext (InstallationID c) (CredentialID c) (ec_Version c) "") "" "" "" (CredentialType c)) as (_ & _ & _ & ->).
  by destruct c.
Qed.

Lemma pretty_N_go_length k x s : (x < 10 ^ N.of_nat k)%N → (String.length (pretty_N_go x s) ≤ k + String.length s)%nat.
Proof.
  revert x s. induction k as [|k IH]; intros x s Hx.
  - assert (x = 0)%N as -> by (cbn in Hx; lia). by rewrite pretty_N_go_0.
  - destruct (decide (x = 0)%N) as [->|Hne]; [rewrite pretty_N_go_0; lia|]. rewrite pretty_N_go_step by lia.
    etrans; [apply IH|cbn; lia]. apply N.Div0.div_lt_upper_bound. rewrite Nat2N.inj_succ, N.pow_succ_r' in Hx. lia.
Qed.

Lemma itoa_u64_length z : 0 ≤ z < 2 ^ 64 → slen (itoa z) ≤ 20.
Proof.
  intros Hz. rewrite itoa_nonneg by lia. unfold pretty, pretty_N. case_decide; [done|].
  pose proof (pretty_N_go_length 20 (Z.to_N z) "") as Hl. unfold slen. cbn [String.length] in Hl.
  assert (Z.to_N z < 10 ^ N.of_nat 20)%N as Hz'; [|specialize (Hl Hz'); lia].
  apply N2Z.inj_lt. rewrite Z2N.id by lia. change (Z.of_N (10 ^ N.of_nat 20)) with 100000000000000000000. lia.
Qed.

Lemma marshal_length c aad : AAD c = Ok aad → 0 ≤ ec_Version c < 2 ^ 64 → 0 < slen aad ≤ 1024.
Proof.
  intros Ha Hv. pose proof (itoa_u64_length _ Hv) as Hn. apply AAD_parts in Ha as (-> & Hi & Hc & _ & Ht); [|lia].
  apply contextID_plain in Hi as [_ Hi], Hc as [_ Hc]. apply credential_plain in Ht as [_ Ht].
  assert (0 ≤ slen (itoa (ec_Version c))) by (unfold slen; lia).
  assert (∀ s, slen (quoted s) = slen s + 2) as Hq.
  { intros s. unfold quoted. change (String quote (s +:+ String quote "")) with (String quote "" +:+ (s +:+ String quote "")).
    rewrite !slen_append. change (slen (String quote "")) with 1. lia. }
  unfold marshal_context. rewrite !slen_append, !Hq. change (slen "{") with 1. change (slen ":") with 1. change (slen ",") with 1.
  change (slen "}") with 1. change (slen "installation_id") with 15. change (slen "credential_id") with 13.
  change (slen "version") with 7. change (slen "credential_type") with 15. lia.
Qed.

(** The contexts the key manager accepts are exactly the canonical ones. *)
Lemma ValidateEncryptionContext_complete c aad :
  AAD c = Ok aad → 0 ≤ ec_Version c < 2 ^ 64 → ValidateEncryptionContext aad = Ok tt.
Proof.
  intros Ha Hv. pose proof (marshal_length _ _ Ha Hv). unfold ValidateEncryptionContext. rewrite (decode_marshal _ _ Ha Hv).
  destruct (Z.eqb_spec (slen aad) 0); [lia|]. rewrite (proj2 (Z.ltb_ge _ _)) by lia. cbn [guard_ok mbind result_bind negb orb of_option].
  by rewrite Ha, String.eqb_refl.
Qed.

Lemma ValidateEncryptionContext_sound aad :
  ValidateEncryptionContext aad = Ok tt → ∃ c, AAD c = Ok aad ∧ decode_context aad = Some c.
Proof.
  unfold ValidateEncryptionContext. intros Hv. apply bind_Ok_inv in Hv as (_ & _ & Hv). apply bind_Ok_inv in Hv as (c & Hc & Hv).
  apply of_option_Ok in Hc. exists c. destruct (AAD c) as [canonical|e]; [|done].
  destruct (canonical =? aad) eqn:E; [|done]. apply String.eqb_eq in E as ->. done.
Qed.

(** ** The managers keep the promise of the interface *)

#[global] Instance Memory_laws `{GCM, !GCMLaws} : KMS MemoryManager.
Proof.
  split; [done|]. intros m random dataKey aad w n Hw. cbn in *. ok_inv Hw. reflect_bools.
  match goal with G : mm_aead m = _ |- _ => rewrite G end. cbn.
  match goal with G : read_full _ _ _ = Ok n |- _ =>
    unfold read_full in G; destruct random as [s|]; [|done]; destruct (Z.eqb_spec (slen s) gcm_NonceSize) as [En|]; [|done]; simplify_eq end.
  assert (slen dataKey = 32) as Ek by done.
  rewrite En, gcm_seal_length, Ek. cbn [guard_ok mbind result_bind]. match goal with G : is_ok _ = true |- _ => rewrite G end. cbn.
  rewrite (proj2 (gcm_open_seal _ _ dataKey _ _)) by done. cbn. by rewrite Ek.
Qed.

Section vault_laws.
Context (Parse : string → option URL) (sha256 : string → string) (Do : VaultRequest → option VaultResponse)
  (decodeCiphertext decodePlaintext : string → option (string * string)).
Implicit Types v w u : VaultTransit.

Definition encrypt_payload (p c : string) : gmap string string := <["plaintext" := p]> {["context" := c]}.
Definition decrypt_payload (ct c : string) : gmap string string := <["ciphertext" := ct]> {["context" := c]}.

Definition success (r : VaultResponse) (body : string) : Prop :=
  vs_Body r = Some body ∧ slen body ≤ maxVaultResponse ∧ 200 ≤ vs_Status r < 300.

(** The transit engine: what it encrypted, it decrypts under the same key and
    context, whoever asks. *)
Class VaultLaws : Prop := {
  vault_decrypts v token token' p c r body ct rest r' body' :
    Do (vault_request v "encrypt" token (encrypt_payload p c)) = Some r → success r body →
    decodeCiphertext body = Some (ct, rest) →
    Do (vault_request v "decrypt" token' (decrypt_payload ct c)) = Some r' → success r' body' →
    ∃ rest', decodePlaintext body' = Some (p, rest') ∧ skip_ws rest' = "";
}.

Definition same_key w u : Prop :=
  baseURL w = baseURL u ∧ mount w = mount u ∧ keyName w = keyName u ∧ namespace w = namespace u.

(** Vault answers the request to decrypt with a success. *)
Definition answers u (wrapped aad : string) : Prop :=
  is_Some (Parse (vault_url u "decrypt")) ∧ ∃ token r body, tokenSource u = Ok token ∧
    Do (vault_request u "decrypt" token (decrypt_payload wrapped (std_encode aad))) = Some r ∧ success r body.

Lemma same_key_request w u operation token payload :
  same_key w u → vault_request w operation token payload = vault_request u operation token payload.
Proof. intros (Eb & Em & Ek & En). unfold vault_request, vault_url. by rewrite Eb, Em, Ek, En. Qed.

Lemma post_Ok decode v operation payload data :
  post Parse Do decode v operation payload = Ok data →
  ∃ token r body rest, tokenSource v = Ok token ∧ Do (vault_request v operation token payload) = Some r ∧
    success r body ∧ decode body = Some (data, rest) ∧ skip_ws rest = "".
Proof.
  unfold post. intros Hp. apply bind_Ok_inv in Hp as (_ & _ & Hp). apply bind_Ok_inv in Hp as (token & Ht & Hp).
  apply bind_Ok_inv in Hp as (r & Hr & Hp). apply bind_Ok_inv in Hp as (contents & Hc & Hp).
  apply bind_Ok_inv in Hp as (? & Hlen & Hp). apply bind_Ok_inv in Hp as (? & Hst & Hp).
  apply bind_Ok_inv in Hp as ([d rest] & Hd & Hp). apply bind_Ok_inv in Hp as (? & Hrest & Hp). simplify_eq.
  apply of_option_Ok in Hr, Hd, Hc. apply guard_ok_Ok in Hlen, Hst, Hrest. reflect_bools.
  apply fmap_Some in Hc as (body & Hb & Ec). subst contents. 
  assert (read_limited maxVaultResponse body = body) as E by (apply read_limited_whole; done). rewrite E in *.
  exists token, r, body, rest. split_and!; try done. by destruct (tokenSource v); simplify_eq.
Qed.

Lemma post_succeeds decode v operation payload token r body data rest :
  is_Some (Parse (vault_url v operation)) → tokenSource v = Ok token → Do (vault_request v operation token payload) = Some r →
  success r body → decode body = Some (data, rest) → skip_ws rest = "" → post Parse Do decode v operation payload = Ok data.
Proof.
  intros Hp Ht Hr (Hb & Hl & Hs) Hd Hrest. unfold post. rewrite bool_decide_true by done. rewrite Ht. cbn [guard_ok mbind result_bind].
  rewrite Hr. cbn [of_option mbind result_bind]. rewrite Hb. cbn [of_option fmap option_fmap option_map mbind result_bind].
  rewrite read_limited_short by lia.
  rewrite (proj2 (Z.ltb_ge maxVaultResponse _)) by lia. rewrite (proj2 (Z.ltb_ge (vs_Status r) _)), (proj2 (Z.leb_gt 300 _)) by lia.
  cbn [negb orb guard_ok mbind result_bind]. rewrite Hd. cbn [of_option mbind result_bind]. by rewrite Hrest.
Qed.

Lemma ciphertext_nonempty s : vaultCiphertextPattern s = true → slen s ≠ 0.
Proof. by destruct s. Qed.

(** What one identity wraps, another one for the same key unwraps. *)
Lemma vault_unwrap_wrap `{!VaultLaws} w u dataKey aad wrapped nonce :
  vault_WrapKey Parse Do decodeCiphertext w dataKey aad = Ok (wrapped, nonce) → same_key w u →
  capability u = UnwrapOnly ∨ capability u = WrapUnwrap → answers u wrapped aad →
  vault_UnwrapKey Parse Do decodePlaintext u wrapped nonce aad = Ok dataKey.
Proof.
  intros Hw Hsame Hcap (Hurl & token & r & body & Ht & Hr & Hs). unfold vault_WrapKey in Hw.
  apply bind_Ok_inv in Hw as (? & _ & Hw). apply bind_Ok_inv in Hw as (? & Hchk & Hw). apply bind_Ok_inv in Hw as (ct & Hp & Hw).
  apply bind_Ok_inv in Hw as (? & Hct & Hw). simplify_eq. apply guard_ok_Ok in Hchk, Hct. reflect_bools.
  apply post_Ok in Hp as (token' & r' & body' & rest & _ & Hr' & Hs' & Hd & _).
  rewrite (same_key_request w u) in Hr' by done.
  destruct (vault_decrypts u token' token _ _ r' body' wrapped rest r body Hr' Hs' Hd Hr Hs) as (rest' & Hdec & Hrest).
  assert (slen wrapped ≠ 0) as Hne by (by apply ciphertext_nonempty).
  unfold vault_UnwrapKey.
  assert ((capability u ≠? UnwrapOnly) && (capability u ≠? WrapUnwrap) = false) as -> by (destruct Hcap as [-> | ->]; done).
  rewrite (proj2 (Z.eqb_neq _ _) Hne). cbn [negb guard_ok mbind result_bind slen String.length Z.of_nat Z.eqb orb].
  rewrite (proj2 (Z.ltb_ge _ _)) by done. rewrite Hchk. cbn [negb orb].
  match goal with G : vaultCiphertextPattern _ = true |- _ => rewrite G end. cbn [negb orb guard_ok mbind result_bind].
  erewrite post_succeeds; [|done..]. cbn [mbind result_bind]. rewrite std_roundtrip. cbn [of_option mbind result_bind].
  match goal with G : slen dataKey = _ |- _ => rewrite G end. reflexivity.
Qed.

Lemma NewVaultTransit_shape ReadFile Append c t v :
  NewVaultTransit Parse sha256 ReadFile Append c t = Ok v →
  Validate Parse c = Ok tt ∧ baseURL v = trim_slashes (Address c) ∧ mount v = TransitMount c ∧ keyName v = KeyName c ∧
  namespace v = Namespace c ∧ capability v = Capability c ∧
  keyID v = "vault-transit:" +:+ hex_encode (take_str 6 (sha256 (baseURL v))) +:+ "/" +:+ mount v +:+ "/" +:+ keyName v.
Proof.
  unfold NewVaultTransit. intros Hn. apply bind_Ok_inv in Hn as ([] & Hv & Hn). apply bind_Ok_inv in Hn as (ts & _ & Hn).
  apply bind_Ok_inv in Hn as (? & _ & Hn). by simplify_eq.
Qed.

(** In production an identity uses HTTPS and has one capability. *)
Lemma Validate_production c :
  Validate Parse c = Ok tt → Environment c = "production" →
  (Capability c = WrapOnly ∨ Capability c = UnwrapOnly) ∧ AllowInsecureDevelopment c = false ∧
  ∃ parsed, Parse (Address c) = Some parsed ∧ Scheme parsed = "https".
Proof.
  unfold Validate. intros Hv He. rewrite He in Hv. apply bind_Ok_inv in Hv as (? & _ & Hv). apply bind_Ok_inv in Hv as (parsed & Hp & Hv).
  apply of_option_Ok in Hp. do 4 apply bind_Ok_inv in Hv as (? & _ & Hv). apply bind_Ok_inv in Hv as (? & Hcap & Hv).
  apply bind_Ok_inv in Hv as (? & Hsch & _). cbn in Hcap, Hsch.
  destruct (String.eqb_spec (Capability c) WrapOnly); destruct (String.eqb_spec (Capability c) UnwrapOnly); cbn in Hcap;
    [..|by repeat case_match]; (destruct (String.eqb_spec (Scheme parsed) "https"); [|done]); cbn in Hsch;
    (destruct (AllowInsecureDevelopment c); [done|]); eauto 10.
Qed.

Lemma Validate_segments c :
  Validate Parse c = Ok tt → vaultPathPattern (TransitMount c) = true ∧ vaultPathPattern (KeyName c) = true.
Proof.
  unfold Validate. intros Hv. do 4 apply bind_Ok_inv in Hv as (? & _ & Hv). apply bind_Ok_inv in Hv as (? & Hp & _).
  apply guard_ok_Ok in Hp. by apply andb_true_iff in Hp.
Qed.
End vault_laws.

(** * Properties *)

Section properties.
Context `{GCM} (Parse : string → option URL) (sha256 : string → string) (Do : VaultRequest → option VaultResponse)
  (decodeCiphertext decodePlaintext : string → option (string * string)).
Context (ReadFile : string → option string) (AppendCertsFromPEM : string → bool).

#[local] Existing Instance Vault_wrapper.
#[local] Existing Instance Vault_unwrapper.
Abbreviation wrapping := (Vault_wrapper Parse Do decodeCiphertext).
Abbreviation unwrapping := (Vault_unwrapper Parse Do decodePlaintext).
Abbreviation NewVaultTransit := (NewVaultTransit Parse sha256 ReadFile AppendCertsFromPEM).

(** C12: a credential that the control plane seals with a Vault identity
    that may only wrap opens, in a process whose identity for the same key may only
    unwrap and which Vault answers, to exactly the sealed bytes, under every server that
    decrypts what it encrypted; the sealing process itself cannot open it, neither through
    the service nor by asking Vault. *)
Theorem vault_envelope `{!GCMLaws, !VaultLaws Do decodeCiphertext decodePlaintext} cw cu tw tu w u plaintext aad r1 r2 r3 envelope use :
  NewVaultTransit cw tw = Ok w → NewVaultTransit cu tu = Ok u →
  Capability cw = WrapOnly → Capability cu = UnwrapOnly →
  Address cw = Address cu → TransitMount cw = TransitMount cu → KeyName cw = KeyName cu → Namespace cw = Namespace cu →
  @Seal _ _ VaultTransit wrapping (mkService w None) plaintext aad r1 r2 r3 = Ok envelope →
  answers Parse Do u (WrappedKey envelope) aad →
  @Open _ _ VaultTransit unwrapping (mkService w (Some u)) envelope aad (Some use) = (use plaintext, Some (wipe plaintext)) ∧
  @Open _ _ VaultTransit unwrapping (mkService w None) envelope aad (Some use) =
    (Err "credential decryption is unavailable in this process", None) ∧
  vault_UnwrapKey Parse Do decodePlaintext w (WrappedKey envelope) (KeyNonce envelope) aad =
    Err "Vault identity is not permitted to unwrap keys".
Proof.
  intros (_ & Bw & Mw & Kw & Nw & Cw & Iw)%NewVaultTransit_shape (_ & Bu & Mu & Ku & Nu & Cu & Iu)%NewVaultTransit_shape Ew Eu Ea Em Ek En Hs Hans.
  assert (same_key w u) as Hsame by (unfold same_key; split_and!; congruence).
  assert (keyID w = keyID u) as Hid by (destruct Hsame as (? & ? & ? & ?); congruence).
  apply Seal_Ok in Hs as (dataKey & Hc & Hk & Hn & Hct & Hwrap).
  split_and!; [|done|unfold vault_UnwrapKey; rewrite Cw, Ew; done].
  apply (@Open_unwrapped _ _ _ VaultTransit unwrapping w u envelope aad dataKey); [by rewrite Hk| |done..].
  eapply (vault_unwrap_wrap _ _ decodeCiphertext); [done|exact Hwrap|done|left; congruence|done].
Qed.

(** an identity configured for production talks to Vault over HTTPS
    only, names its mount and key by plain path segments, and either never wraps or never
    unwraps, whatever it is asked and whatever Vault would answer. *)
Theorem vault_separation c t v :
  NewVaultTransit c t = Ok v → Environment c = "production" →
  (∃ parsed, Parse (Address c) = Some parsed ∧ Scheme parsed = "https" ∧ HasUser parsed = false) ∧
  vaultPathPattern (mount v) = true ∧ vaultPathPattern (keyName v) = true ∧
  ((∀ dataKey aad, vault_WrapKey Parse Do decodeCiphertext v dataKey aad = Err "Vault identity is not permitted to wrap keys") ∨
   (∀ wrapped nonce aad, vault_UnwrapKey Parse Do decodePlaintext v wrapped nonce aad =
      Err "Vault identity is not permitted to unwrap keys")).
Proof.
  intros (Hv & _ & Em & Ek & _ & Ec & _)%NewVaultTransit_shape He.
  pose proof (Validate_production _ _ Hv He) as (Hcap & _ & parsed & Hp & Hs). split_and!.
  - exists parsed. split_and!; [done..|]. unfold Validate in Hv. rewrite Hp in Hv. apply bind_Ok_inv in Hv as (? & _ & Hv).
    apply bind_Ok_inv in Hv as (? & Hq & Hv). apply of_option_Ok in Hq. simplify_eq. apply bind_Ok_inv in Hv as (? & Hu & _). apply guard_ok_Ok in Hu. by reflect_bools.
  - rewrite Em. by apply Validate_segments in Hv as [? _].
  - rewrite Ek. by apply Validate_segments in Hv as [_ ?].
  - destruct Hcap as [Hc|Hc]; [right|left]; intros; unfold vault_WrapKey, vault_UnwrapKey; rewrite Ec, Hc; done.
Qed.
End properties.

(** ** A small Vault *)

Module Transit.
Definition url (s : string) : option URL := Some (mkURL "https" "vault.test" "vault.test" "" s false "" "" "").
(** The ciphertext is the text that was sent. *)
Definition server (r : VaultRequest) : option VaultResponse :=
  match vq_Body r !! "plaintext", vq_Body r !! "ciphertext" with
  | Some p, _ => Some (mkVaultResponse 200 "" (Some ("vault:v1:" +:+ p)))
  | None, Some c => Some (mkVaultResponse 200 "" (Some (trim_prefix "vault:v1:" c)))
  | None, None => Some (mkVaultResponse 400 "" (Some ""))
  end.
Definition decode (s : string) : option (string * string) := Some (s, "").
Definition config (capability : string) : VaultConfig :=
  mkVaultConfig "https://vault.test/" "transit" "credentials" "" "production" capability "" 0 false.
Definition identity (capability : string) : VaultTransit :=
  match NewVaultTransit url id (λ _, None) (λ _, false) (config capability) (Some (Ok "token")) with
  | Ok v => v
  | Err _ => mkVaultTransit "" "" "" "" "" "" (Err "")
  end.
Definition aad : string :=
  match AAD (mkContext "inst_1" "host_1:cred_1" 1 "ssh_private_key") with Ok a => a | Err _ => "" end.
Definition sealed : Envelope :=
  match @Seal demo_gcm VaultTransit VaultTransit (Vault_wrapper url server decode) (mkService (identity WrapOnly) None) "secret" aad
    (Some "0123456789abcdef0123456789abcdef") (Some "0123456789ab") None with
  | Ok e => e
  | Err _ => Envelope_zero
  end.

Lemma server_laws : VaultLaws server decode decode.
Proof.
  split. intros v token token' p c r body ct rest r' body' Hr (Hb & _) Hd Hr' (Hb' & _).
  assert (Some r = Some (mkVaultResponse 200 "" (Some ("vault:v1:" +:+ p)))) as [= ->] by (rewrite <-Hr; reflexivity).
  cbn [vs_Body] in Hb. injection Hb as <-. injection Hd as <- <-.
  assert (Some r' = Some (mkVaultResponse 200 "" (Some (trim_prefix "vault:v1:" ("vault:v1:" +:+ p))))) as [= ->] by (rewrite <-Hr'; reflexivity).
  cbn [vs_Body] in Hb'. injection Hb' as <-. exists "". split; [|done]. by rewrite trim_prefix_append.
Qed.

Lemma sealed_answers : answers url server (identity UnwrapOnly) (WrappedKey sealed) aad.
Proof.
  split; [by eexists|]. eexists "token", _, _. split; [vm_compute; reflexivity|]. split; [vm_compute; reflexivity|].
  split; [vm_compute; reflexivity|]. vm_compute. repeat split; discriminate.
Qed.
End Transit.

Lemma vault_envelope_witness :
  @Open demo_gcm VaultTransit VaultTransit (Vault_unwrapper Transit.url Transit.server Transit.decode)
    (mkService (Transit.identity WrapOnly) (Some (Transit.identity UnwrapOnly))) Transit.sealed Transit.aad
    (Some (λ p, if p =? "secret" then Ok tt else Err "wrong")) = (Ok tt, Some (wipe "secret")).
Proof.
  refine (proj1 (@vault_envelope demo_gcm Transit.url id Transit.server Transit.decode Transit.decode (λ _, None) (λ _, false)
    demo_gcm_laws Transit.server_laws (Transit.config WrapOnly) (Transit.config UnwrapOnly) (Some (Ok "token")) (Some (Ok "token"))
    (Transit.identity WrapOnly) (Transit.identity UnwrapOnly) "secret" Transit.aad
    (Some "0123456789abcdef0123456789abcdef") (Some "0123456789ab") None Transit.sealed _ _ _ _ _ _ _ _ _ _ Transit.sealed_answers));
    vm_compute; reflexivity.
Defined.

Lemma vault_separation_witness :
  ∃ parsed, Transit.url "https://vault.test/" = Some parsed ∧ Scheme parsed = "https".
Proof.
  destruct (vault_separation Transit.url id Transit.server Transit.decode Transit.decode (λ _, None) (λ _, false)
    (Transit.config WrapOnly) (Some (Ok "token")) (Transit.identity WrapOnly)) as [(parsed & Hp & Hs & _) _].
  - vm_compute. reflexivity.
  - reflexivity.
  - exists parsed. split; [exact Hp|exact Hs].
Defined.
