(* ===== verification/Protocol.v ===== *)
(** * Messages of the Connector protocol and AI analysis data

    The data types of [services/connector-protocol/types.go], [runbook.go] and
    [webssh.go] that travel between the control plane and the Connector, and
    of [services/ai/types.go].  An [int] is a [Z], [[]byte] a byte string, a
    float64 a [spec_float]. *)

From Corelib Require Export SpecFloat.
From S2P Require Import Prelude.

Abbreviation float64 := spec_float (only parsing).

Definition ProtocolVersion := "v1".
Definition ActionRuntimeSnapshot := "runtime_snapshot_v1".
Definition ActionHostKeyProbe := "host_key_probe_v1".
Definition ActionRunbookPreview := "runbook_preview_v1".
Definition ActionRunbookExecute := "runbook_execute_v1".

Record Target := mkTarget { Address : string; Port : Z; User : string }.
Record Credential := mkCredential { PrivateKeyPEM : string; Passphrase : string }.

Record ProbeTarget := mkProbeTarget { pt_Address : string; pt_Port : Z }.

Definition RuntimeSnapshotPath := "/v1/actions/runtime-snapshot".
Definition HostKeyProbePath := "/v1/actions/host-key-probe".
Definition HealthPath := "/healthz".
Definition VersionPath := "/version".

Record RuntimeSnapshotRequest := mkSnapshotRequest {
  sq_ProtocolVersion : string;
  sq_Target : Target;
  sq_PinnedHostKey : string;
  sq_Credential : Credential;
}.

Record ExecutionResult := mkExecutionResult {
  xr_Stdout : string;
  xr_Stderr : string;
  xr_ExitCode : Z;
  xr_DurationMillis : Z;
}.

Record RuntimeSnapshotResponse := mkSnapshotResponse {
  sp_ProtocolVersion : string;
  sp_RequestID : string;
  sp_Action : string;
  sp_Result : ExecutionResult;
}.

Record HostKeyProbeRequest := mkProbeRequest { hq_ProtocolVersion : string; hq_Target : ProbeTarget }.

Record HostKeyProbeResponse := mkProbeResponse {
  hp_ProtocolVersion : string;
  hp_RequestID : string;
  hp_Action : string;
  hp_Algorithm : string;
  hp_FingerprintSHA256 : string;
  hp_PublicKey : string;
  hp_ResolvedAddress : string;
}.

Record HealthResponse := mkHealth { he_Status : string; he_ProtocolVersion : string }.
Record VersionResponse := mkVersion { vr_ServiceVersion : string; vr_ProtocolVersion : string; vr_Actions : list string }.

Record ErrorDetail := mkErrorDetail {
  ed_Code : string;
  ed_Message : string;
  ed_RequestID : string;
  ed_Retryable : bool;
}.

(** [Duration.Milliseconds] truncates. *)
Definition DurationMillis (value : duration) : Z := Z.quot value millisecond.

Record RunbookActionRef := mkActionRef { ar_ID : string; ar_Version : Z }.

Record RunbookParameters := mkParameters {
  Service : string;
  Timezone : string;
  PID : Z;
  ProcessStartTicks : Z;
}.

Record RunbookBinding := mkRunbookBinding {
  rb_Action : RunbookActionRef;
  rb_HostID : string;
  rb_JobID : string;
  rb_Target : Target;
  rb_PinnedHostKeySHA256 : string;
  rb_CredentialPublicKeySHA256 : string;
  rb_Parameters : RunbookParameters;
}.

Record RunbookApprovalSummary := mkApproval {
  Decision : string;
  ap_Action : RunbookActionRef;
  ap_HostID : string;
  ap_JobID : string;
  ap_ScopeDigest : string;
  ApprovedAt : time;
  ap_ExpiresAt : time;
}.

Record RunbookEmergencyGrant := mkEmergency { IncidentID : string; eg_ExpiresAt : time }.

Record RunbookPreviewRequest := mkPreviewRequest {
  pr_ProtocolVersion : string;
  pr_Binding : RunbookBinding;
}.

Record RunbookStepPreview := mkStepPreview {
  sp_ID : string;
  sp_Phase : string;
  sp_Description : string;
  TimeoutSeconds : Z;
}.

Record RunbookPreviewResponse := mkPreviewResponse {
  pv_ProtocolVersion : string;
  pv_RequestID : string;
  pv_Action : string;
  pv_CatalogVersion : string;
  pv_Binding : RunbookBinding;
  pv_ScopeDigest : string;
  pv_Title : string;
  pv_Mutating : bool;
  pv_Emergency : bool;
  pv_ExecutionEnabled : bool;
  pv_RetryPolicy : string;
  pv_Steps : list RunbookStepPreview;
}.

Record RunbookExecuteRequest := mkExecuteRequest {
  er_ProtocolVersion : string;
  er_Binding : RunbookBinding;
  er_Approval : RunbookApprovalSummary;
  er_Emergency : RunbookEmergencyGrant;
  er_Reason : string;
  er_PinnedHostKey : string;
  er_Credential : Credential;
}.

Record RunbookStepResult := mkStepResult {
  sr_ID : string;
  sr_Phase : string;
  sr_State : string;
  sr_Stdout : string;
  sr_Stderr : string;
  sr_ExitCode : Z;
  sr_DurationMillis : Z;
  sr_ErrorCode : string;
}.

Record RunbookExecuteResponse := mkExecuteResponse {
  ex_ProtocolVersion : string;
  ex_RequestID : string;
  ex_Action : string;
  ex_CatalogVersion : string;
  ex_Binding : RunbookBinding;
  ex_ScopeDigest : string;
  ex_Status : string;
  ex_Stopped : bool;
  ex_Retryable : bool;
  ex_IdempotentReplay : bool;
  ex_Steps : list RunbookStepResult;
}.

(** ** WebSSH ([webssh.go]) *)

Definition ActionWebSSH := "web_ssh_v1".
Definition WebSSHTicketPath := "/v1/webssh/tickets".
Definition WebSSHConnectPath := "/v1/webssh/connect".
Definition WebSSHSubprotocol := "vpsmgr.webssh.v1".
Definition WebSSHMessageHello := "hello".
Definition WebSSHMessageInput := "input".
Definition WebSSHMessageResize := "resize".
Definition WebSSHMessageReady := "ready".
Definition WebSSHMessageOutput := "output".
Definition WebSSHMessageExit := "exit".
Definition WebSSHMessageError := "error".

Record WebSSHBinding := mkWebSSHBinding {
  wb_PrincipalID : string;
  wb_HostID : string;
  wb_CredentialID : string;
  wb_Action : string;
}.

Record TerminalSize := mkTerminalSize { Columns : Z; Rows : Z; WidthPixels : Z; HeightPixels : Z }.

Record WebSSHTicketRequest := mkTicketRequest {
  tr_ProtocolVersion : string;
  tr_Binding : WebSSHBinding;
  tr_Target : Target;
  tr_PinnedHostKey : string;
  tr_Credential : Credential;
  tr_InitialSize : TerminalSize;
}.

Record WebSSHTicketResponse := mkTicketResponse {
  ts_ProtocolVersion : string;
  ts_RequestID : string;
  ts_Ticket : string;
  ts_SessionID : string;
  ts_ExpiresAt : time;
}.

Record WebSSHHelloMessage := mkWebSSHHello {
  wh_Type : string;
  wh_Ticket : string;
  wh_SessionID : string;
  wh_Binding : WebSSHBinding;
}.

Record WebSSHInputMessage := mkInput { wi_Type : string; wi_Data : string }.
Record WebSSHResizeMessage := mkResize { wz_Type : string; wz_Size : TerminalSize }.
Record WebSSHReadyMessage := mkReady { wr_Type : string; wr_SessionID : string; wr_Size : TerminalSize }.
Record WebSSHOutputMessage := mkOutput { wo_Type : string; wo_Data : string }.
Record WebSSHExitMessage := mkExit { we_Type : string; we_ExitCode : Z; we_Reason : string }.

Record WebSSHErrorMessage := mkWebSSHError {
  wx_Type : string;
  wx_Code : string;
  wx_Message : string;
  wx_Retryable : bool;
}.

(** ** AI analysis *)

Record RankedFinding := mkRankedFinding { rf_FindingID : string; Rank : Z; Rationale : string }.
Record HumanVerificationStep := mkVerificationStep { hv_FindingID : string; hv_Description : string }.
Record Recommendation := mkRecommendation { rc_FindingID : string; Priority : string; Advice : string }.

Record Analysis := mkAnalysis {
  an_SchemaVersion : string;
  Summary : string;
  RankedFindings : list RankedFinding;
  HumanVerificationSteps : list HumanVerificationStep;
  Recommendations : list Recommendation;
  ExecutionAllowed : bool;
}.

Record Outcome := mkOutcome { oc_Analysis : Analysis; Mode : string; FallbackReason : string }.

(** ** Decidable equality of the bound data *)

#[global] Instance Target_eq_dec : EqDecision Target.
Proof. solve_decision. Defined.
#[global] Instance RunbookActionRef_eq_dec : EqDecision RunbookActionRef.
Proof. solve_decision. Defined.
#[global] Instance RunbookParameters_eq_dec : EqDecision RunbookParameters.
Proof. solve_decision. Defined.
#[global] Instance RunbookBinding_eq_dec : EqDecision RunbookBinding.
Proof. solve_decision. Defined.
