(* ===== verification/Model.v ===== *)
(** * Records of the control plane and the job life cycle

    Models [services/control-plane/internal/model]: the records of
    [model.go], [operations.go] and [runbooks.go], the generated identifiers,
    and the job state machine with its versioned transition. *)

From S2P Require Import Prelude GoStrings Encoding Auth AuditTrail Credentials Protocol.

Record HostKeyPin := mkHostKeyPin {
  hk_Algorithm : string;
  hk_FingerprintSHA256 : string;
  hk_PublicKey : string;
  ConfirmedAt : time;
  ConfirmedBy : string;
}.

(** A nil [Labels] map is [None]. *)
Record Host := mkHost {
  h_ID : string;
  h_Name : string;
  h_Address : string;
  h_Port : Z;
  h_Username : string;
  h_Labels : option (gmap string string);
  h_HostKey : option HostKeyPin;
  h_Version : Z;
  h_CreatedAt : time;
  h_UpdatedAt : time;
}.

Record CredentialMetadata := mkCredentialMetadata {
  cm_ID : string;
  cm_HostID : string;
  cm_Kind : string;
  cm_PublicKeyFingerprint : string;
  cm_KeyID : string;
  cm_CreatedAt : time;
  cm_CreatedBy : string;
}.

Record StoredCredential := mkStoredCredential {
  sc_Metadata : CredentialMetadata;
  sc_Envelope : Envelope;
}.

(** [JobState] is a string type; [JobOther] is a value outside the constants. *)
Inductive JobState :=
| JobQueued | JobRunning | JobAwaitingApproval | JobSucceeded | JobFailed | JobTimedOut | JobCancelled
| JobOther (s : string).

#[global] Instance JobState_eq_dec : EqDecision JobState.
Proof. solve_decision. Defined.

Definition JobState_string (s : JobState) : string :=
  match s with
  | JobQueued => "queued"
  | JobRunning => "running"
  | JobAwaitingApproval => "awaiting_approval"
  | JobSucceeded => "succeeded"
  | JobFailed => "failed"
  | JobTimedOut => "timed_out"
  | JobCancelled => "cancelled"
  | JobOther s => s
  end.

Record JobError := mkJobError { je_Code : string; je_Message : string }.

Record FilesystemUsage := mkFilesystemUsage {
  Mount : string;
  TotalBytes : Z;
  UsedBytes : Z;
  FreeBytes : Z;
}.

Record RuntimeSnapshot := mkRuntimeSnapshot {
  ObservedAt : time;
  Hostname : string;
  Kernel : string;
  UptimeSeconds : Z;
  Load : float64 * float64 * float64;
  MemoryTotalBytes : Z;
  MemoryAvailableBytes : Z;
  CPUModel : string;
  CPULogicalCores : Z;
  Filesystems : list FilesystemUsage;
  FieldErrors : option (gmap string string);
}.

Record CommandDescriptor := mkCommandDescriptor {
  cd_ID : string;
  cd_Parameters : option (gmap string string);
}.

Record CommandResult := mkCommandResult {
  CommandID : string;
  Stdout : string;
  Stderr : string;
  ExitCode : Z;
  DurationMillis : Z;
  Truncated : bool;
}.

Record FindingEvidence := mkFindingEvidence {
  fe_PID : Z;
  fe_ParentPID : Z;
  fe_User : string;
  fe_ProcessName : string;
  fe_CPUPercent : float64;
  fe_ElapsedSeconds : Z;
}.

Record ProcessFinding := mkProcessFinding {
  pf_ID : string;
  pf_RuleID : string;
  pf_Title : string;
  pf_Severity : string;
  pf_Confidence : float64;
  pf_Evidence : FindingEvidence;
  pf_FalsePositiveNote : string;
}.

Record AnomalyScanResult := mkAnomalyScanResult {
  as_ObservedAt : time;
  as_Engine : string;
  as_AIExecutionAllowed : bool;
  as_ProcessesEvaluated : Z;
  as_Findings : list ProcessFinding;
  as_AIAnalysis : option Outcome;
}.

(** [model.RunbookPreviewResult] has the fields of the Connector's response. *)
Record RunbookPreviewResult := mkRunbookPreviewResult {
  rp_ProtocolVersion : string;
  rp_RequestID : string;
  rp_Action : string;
  rp_CatalogVersion : string;
  rp_Binding : RunbookBinding;
  rp_ScopeDigest : string;
  rp_Title : string;
  rp_Mutating : bool;
  rp_Emergency : bool;
  rp_ExecutionEnabled : bool;
  rp_RetryPolicy : string;
  rp_Steps : list RunbookStepPreview;
}.

Record RunbookStepExecution := mkRunbookStepExecution {
  se_ID : string;
  se_Phase : string;
  se_State : string;
  se_Stdout : string;
  se_Stderr : string;
  se_ExitCode : Z;
  se_DurationMillis : Z;
  se_ErrorCode : string;
}.

Record RunbookExecutionResult := mkRunbookExecutionResult {
  re_ProtocolVersion : string;
  re_RequestID : string;
  re_Action : string;
  re_CatalogVersion : string;
  re_Binding : RunbookBinding;
  re_ScopeDigest : string;
  re_Status : string;
  re_Stopped : bool;
  re_Retryable : bool;
  re_IdempotentReplay : bool;
  re_Steps : list RunbookStepExecution;
}.

Record Job := mkJob {
  j_ID : string;
  j_Type : string;
  j_HostID : string;
  j_State : JobState;
  j_RequestedBy : string;
  j_RequestedSessionID : string;
  j_CreatedAt : time;
  j_StartedAt : option time;
  j_FinishedAt : option time;
  j_Snapshot : option RuntimeSnapshot;
  j_Command : option CommandDescriptor;
  j_CommandResult : option CommandResult;
  j_AnomalyScan : option AnomalyScanResult;
  j_RunbookPreview : option RunbookPreviewResult;
  j_RunbookExecution : option RunbookExecutionResult;
  j_Error : option JobError;
  j_Version : Z;
}.

Record AuditEvent := mkAuditEvent {
  ae_ID : string;
  ae_Timestamp : time;
  ae_Actor : string;
  ae_Role : string;
  ae_Action : string;
  ae_TargetType : string;
  ae_TargetID : string;
  ae_Outcome : string;
  ae_RequestID : string;
  ae_Details : option (list (string * value));
}.

Record CloudflareWorker := mkCloudflareWorker {
  w_ID : string;
  w_Name : string;
  w_AccountID : string;
  w_ScriptName : string;
  w_DesiredVersionID : string;
  w_Version : Z;
  w_CreatedAt : time;
  w_UpdatedAt : time;
}.

Record CloudflareTokenMetadata := mkCloudflareTokenMetadata {
  tm_ID : string;
  tm_WorkerID : string;
  tm_Kind : string;
  tm_KeyID : string;
  tm_CreatedAt : time;
  tm_CreatedBy : string;
}.

Record StoredCloudflareToken := mkStoredCloudflareToken {
  st_Metadata : CloudflareTokenMetadata;
  st_Envelope : Envelope;
}.

Record CloudflareWorkerVersion := mkCloudflareWorkerVersion {
  wv_ID : string;
  wv_WorkerID : string;
  wv_SHA256 : string;
  wv_SizeBytes : Z;
  wv_ContentType : string;
  wv_Entrypoint : string;
  wv_State : string;
  wv_ProviderVersionID : string;
  wv_ProviderVersionNumber : Z;
  wv_ProviderUploadedAt : option time;
  wv_CreatedAt : time;
  wv_CreatedBy : string;
}.

Record StoredCloudflareWorkerVersion := mkStoredCloudflareWorkerVersion {
  sv_Metadata : CloudflareWorkerVersion;
  sv_Module : string;
}.

Record CloudflareDeployment := mkCloudflareDeployment {
  d_ID : string;
  d_WorkerID : string;
  d_VersionID : string;
  d_PreviousDesiredVersionID : string;
  d_Kind : string;
  d_State : string;
  d_ProviderExecutionAllowed : bool;
  d_ProviderVersionID : string;
  d_ProviderDeploymentID : string;
  d_ProviderState : string;
  d_ErrorCode : string;
  d_StartedAt : option time;
  d_FinishedAt : option time;
  d_CreatedAt : time;
  d_CreatedBy : string;
}.

(** [NewID] with the 16 random bytes as an argument. *)
Definition NewID (prefix : string) (random : option string) : result string string :=
  require negb ((prefix =? "") || contains_any " /\" prefix) else "invalid id prefix" ;;
  raw ← read_full 16 random "read random";
  Ok (prefix +:+ "_" +:+ b64_encode raw).

(** ** The job state machine *)

Definition CanTransition (from to : JobState) : bool :=
  match from with
  | JobQueued => bool_decide (to = JobRunning) || bool_decide (to = JobCancelled)
  | JobAwaitingApproval => bool_decide (to = JobRunning) || bool_decide (to = JobCancelled)
  | JobRunning => bool_decide (to = JobAwaitingApproval) || bool_decide (to = JobSucceeded) ||
                  bool_decide (to = JobFailed) || bool_decide (to = JobTimedOut) || bool_decide (to = JobCancelled)
  | _ => false
  end.

(** The four states that set [FinishedAt]. *)
Definition finishing (to : JobState) : bool :=
  bool_decide (to = JobSucceeded) || bool_decide (to = JobFailed) ||
  bool_decide (to = JobTimedOut) || bool_decide (to = JobCancelled).

(** Assignments [job.State = ...; job.Version = ...; job.StartedAt = ...;
    job.FinishedAt = ...]. *)
Definition set_progress (j : Job) (s : JobState) (v : Z) (started finished : option time) : Job :=
  mkJob (j_ID j) (j_Type j) (j_HostID j) s (j_RequestedBy j) (j_RequestedSessionID j) (j_CreatedAt j)
    started finished (j_Snapshot j) (j_Command j) (j_CommandResult j) (j_AnomalyScan j)
    (j_RunbookPreview j) (j_RunbookExecution j) (j_Error j) v.

Definition TransitionJob (job : Job) (to : JobState) (now : time) : result string Job :=
  require CanTransition (j_State job) to
    else ("invalid job transition " +:+ JobState_string (j_State job) +:+ " -> " +:+ JobState_string to) ;;
  Ok (set_progress job to (u64 (j_Version job + 1))
        (if bool_decide (to = JobRunning) then Some now else j_StartedAt job)
        (if finishing to then Some now else j_FinishedAt job)).

(** ** Life cycles

    A life cycle is a sequence of transitions whose clock does not go
    backwards; other fields of the job may change in between, as the handlers
    change them, but not the state, the version or the times. *)

Definition same_progress (j j' : Job) : Prop :=
  j_ID j' = j_ID j ∧ j_State j' = j_State j ∧ j_Version j' = j_Version j ∧
  j_CreatedAt j' = j_CreatedAt j ∧ j_StartedAt j' = j_StartedAt j ∧ j_FinishedAt j' = j_FinishedAt j.

Inductive job_step : Job * time → Job * time → Prop :=
| job_transition j j' clock to now :
    clock ≤ now → TransitionJob j to now = Ok j' → job_step (j, clock) (j', now)
| job_edit j j' clock : same_progress j j' → job_step (j, clock) (j', clock).

Definition terminal (s : JobState) : bool :=
  bool_decide (s = JobSucceeded) || bool_decide (s = JobFailed) ||
  bool_decide (s = JobTimedOut) || bool_decide (s = JobCancelled).

(** The job a handler creates. *)
Definition fresh_job (j : Job) (now : time) : Prop :=
  j_State j = JobQueued ∧ j_CreatedAt j = now ∧ j_StartedAt j = None ∧ j_FinishedAt j = None ∧
  0 ≤ j_Version j < 2 ^ 64.

(** The times a job of each state must carry. *)
Definition job_ok (j : Job) (clock : time) : Prop :=
  j_CreatedAt j ≤ clock ∧ 0 ≤ j_Version j < 2 ^ 64 ∧
  (∀ s, j_StartedAt j = Some s → j_CreatedAt j ≤ s ≤ clock) ∧
  (∀ s f, j_StartedAt j = Some s → j_FinishedAt j = Some f → s ≤ f) ∧
  match j_State j with
  | JobQueued => j_StartedAt j = None ∧ j_FinishedAt j = None
  | JobRunning | JobAwaitingApproval => is_Some (j_StartedAt j) ∧ j_FinishedAt j = None
  | JobSucceeded | JobFailed | JobTimedOut => is_Some (j_StartedAt j) ∧ is_Some (j_FinishedAt j)
  | JobCancelled => is_Some (j_FinishedAt j)
  | JobOther _ => False
  end.

Lemma TransitionJob_Ok j to now j' :
  TransitionJob j to now = Ok j' →
  CanTransition (j_State j) to = true ∧
  j' = set_progress j to (u64 (j_Version j + 1))
        (if bool_decide (to = JobRunning) then Some now else j_StartedAt j)
        (if finishing to then Some now else j_FinishedAt j).
Proof. unfold TransitionJob. intros (u & G%guard_ok_Ok & H)%bind_Ok_inv. by simplify_eq. Qed.

Lemma CanTransition_targets from to :
  CanTransition from to = true →
  match from with
  | JobQueued | JobAwaitingApproval => to = JobRunning ∨ to = JobCancelled
  | JobRunning => to = JobAwaitingApproval ∨ finishing to = true
  | _ => False
  end.
Proof.
  unfold CanTransition, finishing. destruct from; try done;
    rewrite ?orb_true_iff, ?bool_decide_eq_true; tauto.
Qed.

Lemma job_step_ok s s' : job_step s s' → job_ok s.1 s.2 → job_ok s'.1 s'.2.
Proof.
  intros [j j' clock to now Hle H|j j' clock (_ & Hs & Hv & Hc & Hst & Hf)]; cbn.
  2: { unfold job_ok. by rewrite Hs, Hv, Hc, Hst, Hf. }
  apply TransitionJob_Ok in H as [Hcan ->]. apply CanTransition_targets in Hcan.
  intros (Hcr & Hver & Hs & Hsf & Hst). unfold job_ok. cbn.
  split_and!; [lia|apply u64_range|apply u64_range|..].
  - intros t. case_bool_decide; [intros [= <-]; lia|]. intros E. specialize (Hs _ E). lia.
  - intros t f. repeat case_match; intros E1 E2; simplify_eq;
      first [specialize (Hs _ E1); lia|lia|by eapply Hsf|idtac].
    all: destruct (j_State j); destruct_and?; try done; naive_solver.
  - destruct (j_State j); try done;
      repeat match goal with H : _ ∨ _ |- _ => destruct H as [->|H] end; subst; cbn;
      destruct_and?; try naive_solver.
    destruct to; try done; cbn; naive_solver.
Qed.

Lemma job_steps_ok s s' : rtc job_step s s' → job_ok s.1 s.2 → job_ok s'.1 s'.2.
Proof. induction 1; [done|]. intros. apply IHrtc. by eapply job_step_ok. Qed.

(** The number of transitions is the version's progress. *)
Inductive job_run : nat → Job → Job → Prop :=
| job_run_nil j : job_run 0 j j
| job_run_cons n j to now j1 j2 :
    TransitionJob j to now = Ok j1 → job_run n j1 j2 → job_run (S n) j j2.

Definition demo_job : Job :=
  mkJob "job_1" "runtime_snapshot" "host_1" JobQueued "alice" "session" 100 None None
    None None None None None None None 1.
Definition demo_running : Job := set_progress demo_job JobRunning 2 (Some 105) None.
Definition demo_done : Job := set_progress demo_job JobSucceeded 3 (Some 105) (Some 110).

(** * Properties *)

(** every job that develops from a newly created one, through any
    transitions under a clock that does not go backwards, is in one of the seven states,
    carries a start time exactly as its state demands and a finish time exactly in a terminal
    state, and its times are ordered: created, started, finished. *)
Theorem job_lifecycle j now j' clock :
  fresh_job j now → rtc job_step (j, now) (j', clock) →
  job_ok j' clock ∧ (is_Some (j_FinishedAt j') ↔ terminal (j_State j') = true).
Proof.
  intros (Hs & Hc & Hst & Hf & Hv) Hrun.
  assert (job_ok j now) as H0.
  { unfold job_ok. rewrite Hs, Hst, Hf. split_and!; try done; lia. }
  pose proof (job_steps_ok _ _ Hrun H0) as Hok. cbn in Hok. split; [done|].
  destruct Hok as (_ & _ & _ & _ & Hok). unfold terminal.
  destruct (j_State j'); cbn; destruct_and?; split; try done; intros Hsome; try done;
    match goal with H : j_FinishedAt j' = None |- _ => rewrite H in Hsome; by destruct Hsome end.
Qed.

Lemma job_lifecycle_witness : is_Some (j_FinishedAt demo_done) ↔ terminal (j_State demo_done) = true.
Proof.
  apply (job_lifecycle demo_job 100 demo_done 110).
  - repeat split; vm_compute; discriminate || reflexivity.
  - apply (rtc_l _ _ (demo_running, 105)).
    + apply (job_transition _ _ _ JobRunning); [lia|vm_compute; reflexivity].
    + apply rtc_once, (job_transition _ _ _ JobSucceeded); [lia|vm_compute; reflexivity].
Defined.

(** a finished job is final: no transition out of a terminal state is
    accepted, and whatever the handlers do its state, version and times stay. *)
Theorem terminal_final j clock j' clock' :
  terminal (j_State j) = true → rtc job_step (j, clock) (j', clock') →
  same_progress j j' ∧ ∀ to now, is_ok (TransitionJob j' to now) = false.
Proof.
  intros Ht Hrun.
  assert (∀ j to now, terminal (j_State j) = true → is_ok (TransitionJob j to now) = false) as Hno.
  { intros i to now. unfold terminal, TransitionJob. destruct (j_State i); cbn; done. }
  remember (j, clock) as s eqn:Es. remember (j', clock') as s' eqn:Es'.
  revert j clock Es Ht. induction Hrun as [s|s t u Hst _ IH]; intros j clock -> Ht.
  - simplify_eq. split; [by repeat split|]. intros. by apply Hno.
  - inversion Hst as [i i' c to now Hle H|i i' c Hsame]; simplify_eq.
    + pose proof (Hno j to now Ht) as Hn. by rewrite H in Hn.
    + destruct (IH eq_refl i' clock eq_refl) as [Hrest Hto].
      { destruct Hsame as (_ & -> & _). done. }
      split; [|done]. unfold same_progress in *. destruct_and!. split_and!; congruence.
Qed.

Lemma terminal_final_witness : is_ok (TransitionJob demo_done JobRunning 120) = false.
Proof. apply (terminal_final demo_done 110 demo_done 110); [reflexivity|apply rtc_refl]. Defined.

(** the version of a job counts its transitions in 64 bits, and changes
    at every transition, so a writer that saw an older version is always detected by the
    comparison the stores make, until the counter wraps. *)
Theorem version_counts n j j' :
  0 ≤ j_Version j < 2 ^ 64 → job_run n j j' →
  j_Version j' = u64 (j_Version j + Z.of_nat n) ∧
  (0 < Z.of_nat n < 2 ^ 64 → j_Version j' ≠ j_Version j).
Proof.
  intros Hv Hrun. assert (j_Version j' = u64 (j_Version j + Z.of_nat n)) as E.
  { revert Hv. induction Hrun as [j|n j to now j1 j2 H _ IH]; intros Hv.
    - rewrite Z.add_0_r. symmetry. by apply u64_small.
    - apply TransitionJob_Ok in H as [_ ->]. rewrite IH by apply u64_range. cbn -[u64 Z.of_nat].
      unfold u64. rewrite Zplus_mod_idemp_l. f_equal. lia. }
  split; [done|]. intros Hn. rewrite E. unfold u64.
  destruct (decide (j_Version j + Z.of_nat n < 2 ^ 64)).
  - rewrite Z.mod_small; lia.
  - replace (j_Version j + Z.of_nat n) with (j_Version j + Z.of_nat n - 2 ^ 64 + 1 * 2 ^ 64) by lia.
    rewrite Z_mod_plus_full, Z.mod_small; lia.
Qed.

Lemma version_counts_witness : j_Version demo_done = u64 (1 + 2).
Proof.
  apply (version_counts 2 demo_job demo_done).
  - vm_compute. split; [discriminate|reflexivity].
  - apply (job_run_cons 1 _ JobRunning 105 demo_running); [vm_compute; reflexivity|].
    apply (job_run_cons 0 _ JobSucceeded 110 demo_done); [vm_compute; reflexivity|]. apply job_run_nil.
Defined.
