(* ===== verification/Store.v ===== *)
(** * The in-memory repository

    Models [services/control-plane/internal/store/memory.go],
    [cloudflare.go] and [cloudflare_execution.go].  Every method runs under
    the repository's lock, so it is a state transformer.  Go maps are
    [gmap]s; the clone functions copy field by field, and on values a copy is
    the value itself ([cloneHost_id] and the like), except that an audit
    event is sanitized. *)

From S2P Require Import Prelude GoStrings Encoding AuditTrail Credentials Protocol Model.

(** [ErrOther] is an error that a [MutateJob] callback returned. *)
Inductive store_error := ErrNotFound | ErrConflict | ErrOther (e : string).

Record Memory := mkMemory {
  hosts : gmap string Host;
  credentials : gmap string StoredCredential;
  jobs : gmap string Job;
  audits : list AuditEvent;
  workers : gmap string CloudflareWorker;
  workerTokens : gmap string StoredCloudflareToken;
  workerVersions : gmap string StoredCloudflareWorkerVersion;
  workerDeployments : gmap string CloudflareDeployment;
}.

Definition NewMemory : Memory := mkMemory ∅ ∅ ∅ [] ∅ ∅ ∅ ∅.

(** Assignments to one map of the repository. *)
Definition with_hosts (m : Memory) x := mkMemory x (credentials m) (jobs m) (audits m) (workers m) (workerTokens m) (workerVersions m) (workerDeployments m).
Definition with_credentials (m : Memory) x := mkMemory (hosts m) x (jobs m) (audits m) (workers m) (workerTokens m) (workerVersions m) (workerDeployments m).
Definition with_jobs (m : Memory) x := mkMemory (hosts m) (credentials m) x (audits m) (workers m) (workerTokens m) (workerVersions m) (workerDeployments m).
Definition with_audits (m : Memory) x := mkMemory (hosts m) (credentials m) (jobs m) x (workers m) (workerTokens m) (workerVersions m) (workerDeployments m).
Definition with_workers (m : Memory) x := mkMemory (hosts m) (credentials m) (jobs m) (audits m) x (workerTokens m) (workerVersions m) (workerDeployments m).
Definition with_workerTokens (m : Memory) x := mkMemory (hosts m) (credentials m) (jobs m) (audits m) (workers m) x (workerVersions m) (workerDeployments m).
Definition with_workerVersions (m : Memory) x := mkMemory (hosts m) (credentials m) (jobs m) (audits m) (workers m) (workerTokens m) x (workerDeployments m).
Definition with_workerDeployments (m : Memory) x := mkMemory (hosts m) (credentials m) (jobs m) (audits m) (workers m) (workerTokens m) (workerVersions m) x.

(** ** Clones *)

(** The loop that copies a map entry by entry. *)
Definition copy_map (m : gmap string string) : gmap string string :=
  foldr (λ kv acc, <[kv.1 := kv.2]> acc) ∅ (map_to_list m).
(** [append([]T(nil), l...)]. *)
Definition copy_slice {A} (l : list A) : list A := [] ++ l.
Definition copy_bytes (s : string) : string := "" +:+ s.
(** [if p != nil { t := *p; copy.P = &t }]. *)
Definition copy_time (p : option time) : option time :=
  match p with Some t => Some t | None => None end.

Definition cloneHost (h : Host) : Host :=
  mkHost (h_ID h) (h_Name h) (h_Address h) (h_Port h) (h_Username h) (copy_map <$> h_Labels h)
    (h_HostKey h) (h_Version h) (h_CreatedAt h) (h_UpdatedAt h).

Definition cloneEnvelope (e : Envelope) : Envelope :=
  mkEnvelope (copy_bytes (Ciphertext e)) (copy_bytes (Nonce e)) (copy_bytes (WrappedKey e))
    (copy_bytes (KeyNonce e)) (env_KeyID e).

Definition cloneCredential (c : StoredCredential) : StoredCredential :=
  mkStoredCredential (sc_Metadata c) (cloneEnvelope (sc_Envelope c)).

Definition cloneSnapshot (s : RuntimeSnapshot) : RuntimeSnapshot :=
  mkRuntimeSnapshot (ObservedAt s) (Hostname s) (Kernel s) (UptimeSeconds s) (Load s) (MemoryTotalBytes s)
    (MemoryAvailableBytes s) (CPUModel s) (CPULogicalCores s) (copy_slice (Filesystems s))
    (copy_map <$> FieldErrors s).

Definition cloneOutcome (o : Outcome) : Outcome :=
  let a := oc_Analysis o in
  mkOutcome (mkAnalysis (an_SchemaVersion a) (Summary a) (copy_slice (RankedFindings a))
    (copy_slice (HumanVerificationSteps a)) (copy_slice (Recommendations a)) (ExecutionAllowed a))
    (Mode o) (FallbackReason o).

Definition cloneScan (s : AnomalyScanResult) : AnomalyScanResult :=
  mkAnomalyScanResult (as_ObservedAt s) (as_Engine s) (as_AIExecutionAllowed s) (as_ProcessesEvaluated s)
    (copy_slice (as_Findings s)) (cloneOutcome <$> as_AIAnalysis s).

Definition clonePreview (p : RunbookPreviewResult) : RunbookPreviewResult :=
  mkRunbookPreviewResult (rp_ProtocolVersion p) (rp_RequestID p) (rp_Action p) (rp_CatalogVersion p)
    (rp_Binding p) (rp_ScopeDigest p) (rp_Title p) (rp_Mutating p) (rp_Emergency p) (rp_ExecutionEnabled p)
    (rp_RetryPolicy p) (copy_slice (rp_Steps p)).

Definition cloneExecution (x : RunbookExecutionResult) : RunbookExecutionResult :=
  mkRunbookExecutionResult (re_ProtocolVersion x) (re_RequestID x) (re_Action x) (re_CatalogVersion x)
    (re_Binding x) (re_ScopeDigest x) (re_Status x) (re_Stopped x) (re_Retryable x) (re_IdempotentReplay x)
    (copy_slice (re_Steps x)).

Definition cloneJob (j : Job) : Job :=
  mkJob (j_ID j) (j_Type j) (j_HostID j) (j_State j) (j_RequestedBy j) (j_RequestedSessionID j) (j_CreatedAt j)
    (j_StartedAt j) (j_FinishedAt j) (cloneSnapshot <$> j_Snapshot j)
    ((λ c, mkCommandDescriptor (cd_ID c) (copy_map <$> cd_Parameters c)) <$> j_Command j)
    (j_CommandResult j) (cloneScan <$> j_AnomalyScan j) (clonePreview <$> j_RunbookPreview j)
    (cloneExecution <$> j_RunbookExecution j) (j_Error j) (j_Version j).

Definition cloneAudit (e : AuditEvent) : AuditEvent :=
  mkAuditEvent (ae_ID e) (ae_Timestamp e) (ae_Actor e) (ae_Role e) (ae_Action e) (ae_TargetType e)
    (ae_TargetID e) (ae_Outcome e) (ae_RequestID e) (SanitizeDetails (ae_Details e)).

Definition cloneWorkerToken (t : StoredCloudflareToken) : StoredCloudflareToken :=
  mkStoredCloudflareToken (st_Metadata t) (cloneEnvelope (st_Envelope t)).

Definition cloneWorkerVersion (v : StoredCloudflareWorkerVersion) : StoredCloudflareWorkerVersion :=
  let x := sv_Metadata v in
  mkStoredCloudflareWorkerVersion
    (mkCloudflareWorkerVersion (wv_ID x) (wv_WorkerID x) (wv_SHA256 x) (wv_SizeBytes x) (wv_ContentType x)
       (wv_Entrypoint x) (wv_State x) (wv_ProviderVersionID x) (wv_ProviderVersionNumber x)
       (copy_time (wv_ProviderUploadedAt x)) (wv_CreatedAt x) (wv_CreatedBy x))
    (copy_bytes (sv_Module v)).

Definition cloneWorkerDeployment (d : CloudflareDeployment) : CloudflareDeployment :=
  mkCloudflareDeployment (d_ID d) (d_WorkerID d) (d_VersionID d) (d_PreviousDesiredVersionID d) (d_Kind d)
    (d_State d) (d_ProviderExecutionAllowed d) (d_ProviderVersionID d) (d_ProviderDeploymentID d)
    (d_ProviderState d) (d_ErrorCode d) (copy_time (d_StartedAt d)) (copy_time (d_FinishedAt d))
    (d_CreatedAt d) (d_CreatedBy d).

(** ** Sorting

    [sort.Slice] with a "less" on creation times; its result is one of the
    sorted permutations, ties being in no particular order. *)
Definition key_le {A} (key : A → Z) (a b : A) : Prop := key a ≤ key b.
#[global] Instance key_le_dec {A} (key : A → Z) a b : base.Decision (key_le key a b).
Proof. unfold key_le. apply _. Defined.
Definition sort_by {A} (key : A → Z) (l : list A) : list A := merge_sort (key_le key) l.

(** ** Hosts *)

Definition CreateHost (m : Memory) (host : Host) : Memory * result store_error unit :=
  match hosts m !! h_ID host with
  | Some _ => (m, Err ErrConflict)
  | None => (with_hosts m (<[h_ID host := cloneHost host]> (hosts m)), Ok tt)
  end.

Definition GetHost (m : Memory) (id : string) : result store_error Host :=
  match hosts m !! id with Some host => Ok (cloneHost host) | None => Err ErrNotFound end.

Definition ListHosts (m : Memory) : list Host :=
  sort_by h_CreatedAt (map cloneHost (map_to_list (hosts m)).*2).

Definition UpdateHost (m : Memory) (host : Host) (expectedVersion : Z) : Memory * result store_error unit :=
  match hosts m !! h_ID host with
  | None => (m, Err ErrNotFound)
  | Some current =>
    if negb (h_Version current =? expectedVersion)%Z then (m, Err ErrConflict)
    else (with_hosts m (<[h_ID host := cloneHost host]> (hosts m)), Ok tt)
  end.

Definition DeleteHost (m : Memory) (id : string) : Memory * result store_error unit :=
  match hosts m !! id with
  | None => (m, Err ErrNotFound)
  | Some _ => (with_credentials (with_hosts m (delete id (hosts m))) (delete id (credentials m)), Ok tt)
  end.

(** ** Credentials *)

Definition PutCredential (m : Memory) (c : StoredCredential) : Memory * result store_error unit :=
  match hosts m !! cm_HostID (sc_Metadata c) with
  | None => (m, Err ErrNotFound)
  | Some _ =>
    (with_credentials m (<[cm_HostID (sc_Metadata c) := cloneCredential c]> (credentials m)), Ok tt)
  end.

Definition GetCredential (m : Memory) (hostID : string) : result store_error StoredCredential :=
  match credentials m !! hostID with Some c => Ok (cloneCredential c) | None => Err ErrNotFound end.

Definition DeleteCredential (m : Memory) (hostID : string) : Memory * result store_error unit :=
  match credentials m !! hostID with
  | None => (m, Err ErrNotFound)
  | Some _ => (with_credentials m (delete hostID (credentials m)), Ok tt)
  end.

(** ** Jobs *)

Definition CreateJob (m : Memory) (job : Job) : Memory * result store_error unit :=
  match jobs m !! j_ID job with
  | Some _ => (m, Err ErrConflict)
  | None => (with_jobs m (<[j_ID job := cloneJob job]> (jobs m)), Ok tt)
  end.

Definition GetJob (m : Memory) (id : string) : result store_error Job :=
  match jobs m !! id with Some job => Ok (cloneJob job) | None => Err ErrNotFound end.

(** Newest first. *)
Definition ListJobs (m : Memory) : list Job :=
  sort_by (λ j, - j_CreatedAt j) (map cloneJob (map_to_list (jobs m)).*2).

Definition MutateJob (m : Memory) (id : string) (mutate : Job → result store_error Job)
    : Memory * result store_error Job :=
  match jobs m !! id with
  | None => (m, Err ErrNotFound)
  | Some job =>
    match mutate (cloneJob job) with
    | Err e => (m, Err e)
    | Ok updated => (with_jobs m (<[id := cloneJob updated]> (jobs m)), Ok (cloneJob updated))
    end
  end.

(** ** Audit *)

Definition AppendAudit (m : Memory) (event : AuditEvent) : Memory * result store_error unit :=
  (with_audits m (audits m ++ [cloneAudit event]), Ok tt).

(** The loop [for i := len(audits)-1; i >= start; i--], [n] iterations before
    its end. *)
Fixpoint audits_down (l : list AuditEvent) (start n : nat) : list AuditEvent :=
  match n with
  | O => []
  | S n' => match l !! (start + n')%nat with
            | Some e => cloneAudit e :: audits_down l start n'
            | None => []
            end
  end.

Definition ListAudits (m : Memory) (limit : Z) : list AuditEvent :=
  let limit := if (limit <=? 0)%Z || (500 <? limit)%Z then 100 else limit in
  let start := Z.of_nat (length (audits m)) - limit in
  let start := if (start <? 0)%Z then 0 else start in
  audits_down (audits m) (Z.to_nat start) (length (audits m) - Z.to_nat start).

(** ** Cloudflare workers *)

Definition CreateWorker (m : Memory) (worker : CloudflareWorker) : Memory * result store_error unit :=
  match workers m !! w_ID worker with
  | Some _ => (m, Err ErrConflict)
  | None => (with_workers m (<[w_ID worker := worker]> (workers m)), Ok tt)
  end.

Definition GetWorker (m : Memory) (id : string) : result store_error CloudflareWorker :=
  match workers m !! id with Some w => Ok w | None => Err ErrNotFound end.

Definition ListWorkers (m : Memory) : list CloudflareWorker :=
  sort_by w_CreatedAt (map_to_list (workers m)).*2.

Definition PutWorkerToken (m : Memory) (t : StoredCloudflareToken) : Memory * result store_error unit :=
  match workers m !! tm_WorkerID (st_Metadata t) with
  | None => (m, Err ErrNotFound)
  | Some _ =>
    (with_workerTokens m (<[tm_WorkerID (st_Metadata t) := cloneWorkerToken t]> (workerTokens m)), Ok tt)
  end.

Definition GetWorkerToken (m : Memory) (workerID : string) : result store_error StoredCloudflareToken :=
  match workerTokens m !! workerID with Some t => Ok (cloneWorkerToken t) | None => Err ErrNotFound end.

Definition DeleteWorkerToken (m : Memory) (workerID : string) : Memory * result store_error unit :=
  match workerTokens m !! workerID with
  | None => (m, Err ErrNotFound)
  | Some _ => (with_workerTokens m (delete workerID (workerTokens m)), Ok tt)
  end.

Definition CreateWorkerVersion (m : Memory) (v : StoredCloudflareWorkerVersion)
    : Memory * result store_error unit :=
  match workers m !! wv_WorkerID (sv_Metadata v) with
  | None => (m, Err ErrNotFound)
  | Some _ =>
    match workerVersions m !! wv_ID (sv_Metadata v) with
    | Some _ => (m, Err ErrConflict)
    | None =>
      (with_workerVersions m (<[wv_ID (sv_Metadata v) := cloneWorkerVersion v]> (workerVersions m)), Ok tt)
    end
  end.

(** The lookup [version, ok := m.workerVersions[id]] with the owner test. *)
Definition version_of (m : Memory) (workerID versionID : string) : option StoredCloudflareWorkerVersion :=
  match workerVersions m !! versionID with
  | Some v => if wv_WorkerID (sv_Metadata v) =? workerID then Some v else None
  | None => None
  end.

Definition GetWorkerVersion (m : Memory) (workerID versionID : string)
    : result store_error StoredCloudflareWorkerVersion :=
  match version_of m workerID versionID with
  | Some v => Ok (cloneWorkerVersion v)
  | None => Err ErrNotFound
  end.

Definition ListWorkerVersions (m : Memory) (workerID : string) : list CloudflareWorkerVersion :=
  sort_by (λ v, - wv_CreatedAt v)
    (map (λ v, sv_Metadata (cloneWorkerVersion v))
       (List.filter (λ v, wv_WorkerID (sv_Metadata v) =? workerID) (map_to_list (workerVersions m)).*2)).

(** Assignments to the provider fields of a version's metadata. *)
Definition set_provider (v : StoredCloudflareWorkerVersion) (id : string) (number : Z) (at_ : time)
    : StoredCloudflareWorkerVersion :=
  let x := sv_Metadata v in
  mkStoredCloudflareWorkerVersion
    (mkCloudflareWorkerVersion (wv_ID x) (wv_WorkerID x) (wv_SHA256 x) (wv_SizeBytes x) (wv_ContentType x)
       (wv_Entrypoint x) (wv_State x) id number (Some at_) (wv_CreatedAt x) (wv_CreatedBy x))
    (sv_Module v).

Definition UpdateWorkerVersionProvider (m : Memory) (workerID versionID providerVersionID : string)
    (providerVersionNumber : Z) (uploadedAt : time) : Memory * result store_error unit :=
  if (workerID =? "") || (versionID =? "") || (providerVersionID =? "") ||
     (providerVersionNumber <? 0)%Z || is_zero_time uploadedAt then (m, Err ErrConflict)
  else match version_of m workerID versionID with
  | None => (m, Err ErrNotFound)
  | Some v =>
    (with_workerVersions m (<[versionID :=
       cloneWorkerVersion (set_provider v providerVersionID providerVersionNumber uploadedAt)]> (workerVersions m)), Ok tt)
  end.

(** ** Deployments *)

Definition PlanWorkerDeployment (m : Memory) (d : CloudflareDeployment) (updatedAt : CloudflareWorker)
    : Memory * result store_error unit :=
  if negb ((d_Kind d =? "deploy") || (d_Kind d =? "rollback")) || (d_State d ≠? "ready_for_provider") ||
     d_ProviderExecutionAllowed d then (m, Err ErrConflict)
  else match workers m !! d_WorkerID d with
  | None => (m, Err ErrNotFound)
  | Some worker =>
    match version_of m (w_ID worker) (d_VersionID d), workerTokens m !! w_ID worker with
    | None, _ => (m, Err ErrNotFound)
    | Some _, None => (m, Err ErrNotFound)
    | Some _, Some _ =>
      match workerDeployments m !! d_ID d with
      | Some _ => (m, Err ErrConflict)
      | None =>
        if d_PreviousDesiredVersionID d ≠? w_DesiredVersionID worker then (m, Err ErrConflict)
        else if (d_Kind d =? "rollback") &&
                ((w_DesiredVersionID worker =? "") || (w_DesiredVersionID worker =? d_VersionID d)) then
          (m, Err ErrConflict)
        else if (w_ID updatedAt ≠? w_ID worker) || negb (w_Version updatedAt =? u64 (w_Version worker + 1))%Z ||
                (w_DesiredVersionID updatedAt ≠? d_VersionID d) then (m, Err ErrConflict)
        else (with_workers
                (with_workerDeployments m (<[d_ID d := cloneWorkerDeployment d]> (workerDeployments m)))
                (<[w_ID worker := updatedAt]> (workers m)), Ok tt)
      end
    end
  end.

Definition GetWorkerDeployment (m : Memory) (workerID deploymentID : string)
    : result store_error CloudflareDeployment :=
  match workerDeployments m !! deploymentID with
  | Some d => if d_WorkerID d =? workerID then Ok (cloneWorkerDeployment d) else Err ErrNotFound
  | None => Err ErrNotFound
  end.

Definition ListWorkerDeployments (m : Memory) (workerID : string) : list CloudflareDeployment :=
  sort_by (λ d, - d_CreatedAt d)
    (map cloneWorkerDeployment
       (List.filter (λ d, d_WorkerID d =? workerID) (map_to_list (workerDeployments m)).*2)).

Definition validFinishedDeployment (d : CloudflareDeployment) : bool :=
  match d_StartedAt d, d_FinishedAt d with
  | Some started, Some finished => negb (started <? d_CreatedAt d)%Z && negb (finished <? started)%Z
  | _, _ => false
  end.

Definition validWorkerDeploymentTransition (current updated : CloudflareDeployment) : bool :=
  if (d_ID updated ≠? d_ID current) || (d_WorkerID updated ≠? d_WorkerID current) ||
     (d_VersionID updated ≠? d_VersionID current) ||
     (d_PreviousDesiredVersionID updated ≠? d_PreviousDesiredVersionID current) ||
     (d_Kind updated ≠? d_Kind current) || negb (d_CreatedAt updated =? d_CreatedAt current)%Z ||
     (d_CreatedBy updated ≠? d_CreatedBy current) || negb (d_ProviderExecutionAllowed updated) then false
  else if (d_State current =? "ready_for_provider") && (d_State updated =? "running") then
    match d_StartedAt updated, d_FinishedAt updated with
    | Some started, None =>
      (d_ErrorCode updated =? "") && (d_ProviderDeploymentID updated =? "") &&
      (d_ProviderState updated =? "") && negb (started <? d_CreatedAt updated)%Z
    | _, _ => false
    end
  else if (d_State current =? "running") && (d_State updated =? "succeeded") then
    validFinishedDeployment updated && (d_ErrorCode updated =? "") && (d_ProviderVersionID updated ≠? "") &&
    (d_ProviderDeploymentID updated ≠? "") && (d_ProviderState updated =? "active")
  else if (d_State current =? "running") && (d_State updated =? "failed") then
    validFinishedDeployment updated && (d_ErrorCode updated ≠? "") && (slen (d_ErrorCode updated) <=? 128)%Z
  else false.

Definition UpdateWorkerDeployment (m : Memory) (updated : CloudflareDeployment) (expectedState : string)
    : Memory * result store_error unit :=
  match workerDeployments m !! d_ID updated with
  | None => (m, Err ErrNotFound)
  | Some current =>
    if d_WorkerID current ≠? d_WorkerID updated then (m, Err ErrNotFound)
    else if (d_State current ≠? expectedState) || negb (validWorkerDeploymentTransition current updated) then
      (m, Err ErrConflict)
    else (with_workerDeployments m (<[d_ID updated := cloneWorkerDeployment updated]> (workerDeployments m)), Ok tt)
  end.

Definition StorageMode : string := "ephemeral".

(** ** Clones are copies *)

Lemma copy_map_id m : copy_map m = m.
Proof.
  unfold copy_map. rewrite <-(list_to_map_to_list m) at 2. unfold list_to_map. done.
Qed.

Lemma copy_map_fmap (o : option (gmap string string)) : copy_map <$> o = o.
Proof. destruct o; cbn; [|done]. by rewrite copy_map_id. Qed.

Lemma cloneHost_id h : cloneHost h = h.
Proof. destruct h. unfold cloneHost. cbn. by rewrite copy_map_fmap. Qed.

Lemma cloneEnvelope_id e : cloneEnvelope e = e.
Proof. by destruct e. Qed.

Lemma cloneCredential_id c : cloneCredential c = c.
Proof. destruct c. unfold cloneCredential. cbn. by rewrite cloneEnvelope_id. Qed.

Lemma cloneJob_id j : cloneJob j = j.
Proof.
  destruct j as [i ty ho st rb rs cr sa fa sn co re an rp rx er ve]. unfold cloneJob. cbn. f_equal.
  - destruct sn as [s|]; cbn; [|done]. destruct s. unfold cloneSnapshot. cbn. by rewrite copy_map_fmap.
  - destruct co as [c|]; cbn; [|done]. destruct c. cbn. by rewrite copy_map_fmap.
  - destruct an as [a|]; cbn; [|done]. destruct a as [? ? ? ? ? [o|]]; [|done]. by destruct o as [[] ? ?].
  - by destruct rp as [[]|].
  - by destruct rx as [[]|].
Qed.

Lemma cloneWorkerToken_id t : cloneWorkerToken t = t.
Proof. destruct t. unfold cloneWorkerToken. cbn. by rewrite cloneEnvelope_id. Qed.

Lemma cloneWorkerVersion_id v : cloneWorkerVersion v = v.
Proof. destruct v as [[] ?]. unfold cloneWorkerVersion, copy_time. cbn. f_equal. f_equal. by case_match. Qed.

Lemma cloneWorkerDeployment_id d : cloneWorkerDeployment d = d.
Proof. destruct d. unfold cloneWorkerDeployment, copy_time. cbn. f_equal; by case_match. Qed.

Lemma cloneAudit_idem e : cloneAudit (cloneAudit e) = cloneAudit e.
Proof.
  unfold cloneAudit. cbn. by rewrite SanitizeDetails_idem.
Qed.

Create Rewrite HintDb clones.
#[export] Hint Rewrite cloneHost_id cloneCredential_id cloneJob_id cloneWorkerToken_id cloneWorkerVersion_id
  cloneWorkerDeployment_id : clones.

(** ** Sequences of operations *)

Inductive op :=
| OpCreateHost (h : Host)
| OpUpdateHost (h : Host) (expected : Z)
| OpDeleteHost (id : string)
| OpPutCredential (c : StoredCredential)
| OpDeleteCredential (id : string)
| OpCreateJob (j : Job)
| OpMutateJob (id : string) (f : Job → result store_error Job)
| OpAppendAudit (e : AuditEvent)
| OpCreateWorker (w : CloudflareWorker)
| OpPutWorkerToken (t : StoredCloudflareToken)
| OpDeleteWorkerToken (id : string)
| OpCreateWorkerVersion (v : StoredCloudflareWorkerVersion)
| OpUpdateWorkerVersionProvider (w v p : string) (n : Z) (t : time)
| OpPlanWorkerDeployment (d : CloudflareDeployment) (w : CloudflareWorker)
| OpUpdateWorkerDeployment (d : CloudflareDeployment) (expected : string).

Definition run_op (m : Memory) (o : op) : Memory :=
  match o with
  | OpCreateHost h => (CreateHost m h).1
  | OpUpdateHost h v => (UpdateHost m h v).1
  | OpDeleteHost id => (DeleteHost m id).1
  | OpPutCredential c => (PutCredential m c).1
  | OpDeleteCredential id => (DeleteCredential m id).1
  | OpCreateJob j => (CreateJob m j).1
  | OpMutateJob id f => (MutateJob m id f).1
  | OpAppendAudit e => (AppendAudit m e).1
  | OpCreateWorker w => (CreateWorker m w).1
  | OpPutWorkerToken t => (PutWorkerToken m t).1
  | OpDeleteWorkerToken id => (DeleteWorkerToken m id).1
  | OpCreateWorkerVersion v => (CreateWorkerVersion m v).1
  | OpUpdateWorkerVersionProvider w v p n t => (UpdateWorkerVersionProvider m w v p n t).1
  | OpPlanWorkerDeployment d w => (PlanWorkerDeployment m d w).1
  | OpUpdateWorkerDeployment d s => (UpdateWorkerDeployment m d s).1
  end.

(** What the handlers keep to: a job mutation does not rename the job, and a
    worker is created without a desired version. *)
Definition op_allowed (o : op) : Prop :=
  match o with
  | OpMutateJob id f => ∀ j j', j_ID j = id → f j = Ok j' → j_ID j' = id
  | OpCreateWorker w => w_DesiredVersionID w = ""
  | _ => True
  end.

Definition run_ops (m : Memory) (os : list op) : Memory := fold_left run_op os m.

(** ** The repository invariant *)

(** The states a stored deployment can be in, and what each one guarantees. *)
Definition deployment_ok (d : CloudflareDeployment) : Prop :=
  (d_State d = "ready_for_provider" ∧ d_ProviderExecutionAllowed d = false) ∨
  (d_State d = "running" ∧ d_ProviderExecutionAllowed d = true ∧
   ∃ s, d_StartedAt d = Some s ∧ d_CreatedAt d ≤ s ∧ d_FinishedAt d = None) ∨
  ((d_State d = "succeeded" ∧ d_ErrorCode d = "" ∧ d_ProviderDeploymentID d ≠ "" ∨
    d_State d = "failed" ∧ d_ErrorCode d ≠ "") ∧ d_ProviderExecutionAllowed d = true ∧
   ∃ s f, d_StartedAt d = Some s ∧ d_FinishedAt d = Some f ∧ d_CreatedAt d ≤ s ≤ f).

Definition has_version (m : Memory) (workerID versionID : string) : Prop :=
  ∃ v, workerVersions m !! versionID = Some v ∧ wv_WorkerID (sv_Metadata v) = workerID.

Record store_ok (m : Memory) : Prop := {
  so_hosts : ∀ id h, hosts m !! id = Some h → h_ID h = id;
  so_jobs : ∀ id j, jobs m !! id = Some j → j_ID j = id;
  so_credentials : ∀ id c, credentials m !! id = Some c →
    cm_HostID (sc_Metadata c) = id ∧ is_Some (hosts m !! id);
  so_workers : ∀ id w, workers m !! id = Some w →
    w_ID w = id ∧ (w_DesiredVersionID w = "" ∨ has_version m id (w_DesiredVersionID w));
  so_tokens : ∀ id t, workerTokens m !! id = Some t →
    tm_WorkerID (st_Metadata t) = id ∧ is_Some (workers m !! id);
  so_versions : ∀ id v, workerVersions m !! id = Some v →
    wv_ID (sv_Metadata v) = id ∧ is_Some (workers m !! wv_WorkerID (sv_Metadata v));
  so_deployments : ∀ id d, workerDeployments m !! id = Some d →
    d_ID d = id ∧ has_version m (d_WorkerID d) (d_VersionID d) ∧ deployment_ok d;
}.

Lemma version_of_Some m w v x :
  version_of m w v = Some x ↔ workerVersions m !! v = Some x ∧ wv_WorkerID (sv_Metadata x) = w.
Proof.
  unfold version_of. destruct (workerVersions m !! v) as [y|]; [|naive_solver].
  destruct (String.eqb_spec (wv_WorkerID (sv_Metadata y)) w); naive_solver.
Qed.

Lemma NewMemory_ok : store_ok NewMemory.
Proof. split; intros id x; cbn; by rewrite lookup_empty. Qed.

(** Facts about one updated map. *)
Lemma insert_all {A} (P : string → A → Prop) (m : gmap string A) i x :
  (∀ k y, m !! k = Some y → P k y) → P i x → ∀ k y, <[i:=x]> m !! k = Some y → P k y.
Proof. intros Hm Hx k y [[<- <-]|[_ ?]]%lookup_insert_Some; auto. Qed.

Lemma delete_all {A} (P : string → A → Prop) (m : gmap string A) i :
  (∀ k y, m !! k = Some y → P k y) → ∀ k y, delete i m !! k = Some y → P k y.
Proof. intros Hm k y [_ ?]%lookup_delete_Some. auto. Qed.

Lemma is_Some_insert_other {A} (m : gmap string A) i x k : is_Some (m !! k) → is_Some (<[i:=x]> m !! k).
Proof.
  intros H. destruct (decide (i = k)) as [->|]; [rewrite lookup_insert_eq|rewrite lookup_insert_ne by done]; eauto.
Qed.
#[export] Hint Resolve is_Some_insert_other : gomap.

(** Every operation keeps the versions that were stored, and their owners. *)
Lemma has_version_insert m i x w v :
  (∀ y, workerVersions m !! i = Some y → wv_WorkerID (sv_Metadata y) = wv_WorkerID (sv_Metadata x)) →
  has_version m w v → has_version (with_workerVersions m (<[i:=x]> (workerVersions m))) w v.
Proof.
  intros Hi (y & Hy & Hw). unfold has_version. cbn. destruct (decide (i = v)) as [->|].
  - exists x. rewrite lookup_insert_eq. split; [done|]. by rewrite <-(Hi _ Hy).
  - exists y. by rewrite lookup_insert_ne.
Qed.

Lemma transition_deployment_ok d d' :
  validWorkerDeploymentTransition d d' = true →
  deployment_ok d' ∧ d_ID d' = d_ID d ∧ d_WorkerID d' = d_WorkerID d ∧ d_VersionID d' = d_VersionID d ∧
  d_PreviousDesiredVersionID d' = d_PreviousDesiredVersionID d ∧ d_Kind d' = d_Kind d ∧
  d_CreatedAt d' = d_CreatedAt d ∧ d_CreatedBy d' = d_CreatedBy d ∧
  (d_State d = "ready_for_provider" ∧ d_State d' = "running" ∨
   d_State d = "running" ∧ (d_State d' = "succeeded" ∨ d_State d' = "failed")).
Proof.
  unfold validWorkerDeploymentTransition, validFinishedDeployment, deployment_ok. intros H.
  case_match eqn:E; [done|]. reflect_bools.
  repeat match type of H with (if ?b then _ else _) = _ => destruct b eqn:?; reflect_bools end; try done.
  all: repeat case_match; try done; reflect_bools; split_and!; try done; [..|naive_solver].
  - right; left. split_and!; try done. eexists. split_and!; [done|lia|done].
  - right; right. split_and!; [left; done|done|]. eexists _, _. split_and!; done || lia.
  - right; right. split_and!; [right; done|done|]. eexists _, _. split_and!; done || lia.
Qed.

(** Open the invariant, close the maps an operation leaves alone, and put the
    copies back to the values they copy. *)
#[local] Ltac store_fields :=
  match goal with H : store_ok _ |- store_ok _ => destruct H as [Hh Hj Hc Hw Ht Hv Hd] end;
  split; cbn in *; autorewrite with clones; try assumption.

Lemma hosts_op_ok m o :
  match o with OpCreateHost _ | OpUpdateHost _ _ | OpDeleteHost _ | OpPutCredential _ | OpDeleteCredential _ => True
  | _ => False end → store_ok m → store_ok (run_op m o).
Proof.
  destruct o; try done; intros _ Hok; cbn.
  - unfold CreateHost. case_match; [done|]. store_fields.
    + by apply insert_all.
    + intros id c Hl. destruct (Hc id c Hl). auto with gomap.
  - unfold UpdateHost. repeat case_match; try done. store_fields.
    + by apply insert_all.
    + intros id c Hl. destruct (Hc id c Hl). auto with gomap.
  - unfold DeleteHost. case_match; [|done]. store_fields.
    + by apply delete_all.
    + intros k c [Hne Hl]%lookup_delete_Some. destruct (Hc k c Hl). by rewrite lookup_delete_ne.
  - unfold PutCredential. case_match eqn:E; [|done]. store_fields. apply insert_all; [done|]. by rewrite E.
  - unfold DeleteCredential. case_match; [|done]. store_fields. by apply delete_all.
Qed.

Lemma jobs_op_ok m o :
  match o with OpCreateJob _ | OpMutateJob _ _ | OpAppendAudit _ => True | _ => False end →
  op_allowed o → store_ok m → store_ok (run_op m o).
Proof.
  destruct o; try done; intros _ Hallowed Hok; cbn in *.
  - unfold CreateJob. case_match; [done|]. store_fields. by apply insert_all.
  - unfold MutateJob. destruct (jobs m !! id) as [j|] eqn:E; [|done]. rewrite cloneJob_id.
    destruct (f j) as [j'|] eqn:Ef; [|done]. store_fields. apply insert_all; [done|].
    by apply (Hallowed j); [apply Hj|].
  - unfold AppendAudit. store_fields.
Qed.

Lemma has_version_grows m m' w v :
  workerVersions m' = workerVersions m → has_version m w v → has_version m' w v.
Proof. unfold has_version. by intros ->. Qed.

Lemma PlanWorkerDeployment_Ok m d w m' :
  PlanWorkerDeployment m d w = (m', Ok tt) →
  ∃ worker v t, workers m !! d_WorkerID d = Some worker ∧
    version_of m (w_ID worker) (d_VersionID d) = Some v ∧ workerTokens m !! w_ID worker = Some t ∧
    workerDeployments m !! d_ID d = None ∧ d_State d = "ready_for_provider" ∧
    d_ProviderExecutionAllowed d = false ∧ d_PreviousDesiredVersionID d = w_DesiredVersionID worker ∧
    (d_Kind d = "deploy" ∨ d_Kind d = "rollback" ∧ w_DesiredVersionID worker ≠ "" ∧
                           w_DesiredVersionID worker ≠ d_VersionID d) ∧
    w_ID w = w_ID worker ∧ w_Version w = u64 (w_Version worker + 1) ∧ w_DesiredVersionID w = d_VersionID d ∧
    m' = with_workers (with_workerDeployments m (<[d_ID d := d]> (workerDeployments m)))
           (<[w_ID worker := w]> (workers m)).
Proof.
  unfold PlanWorkerDeployment. rewrite cloneWorkerDeployment_id. intros H.
  destruct (negb _ || _ || _) eqn:E1; [done|]. destruct (workers m !! _) as [worker|] eqn:E2; [|done].
  destruct (version_of _ _ _) as [v|] eqn:E3; [|done]. destruct (workerTokens m !! _) as [t|] eqn:E4; [|done].
  destruct (workerDeployments m !! _) eqn:E5; [done|]. destruct (d_PreviousDesiredVersionID d ≠? _) eqn:E6; [done|].
  destruct (_ && _) eqn:E7; [done|].
  match type of H with (if ?b then _ else _) = _ => destruct b eqn:E8; [done|] end. simplify_eq. reflect_bools.
  exists worker, v, t. split_and!; try done.
  match goal with H : (d_Kind d =? "deploy") || _ = true |- _ => apply orb_true_iff in H as [H|H]; apply String.eqb_eq in H end;
    [by left|right]. rewrite (proj2 (String.eqb_eq _ _)) in E7 by done. cbn in E7. reflect_bools. done.
Qed.

Lemma workers_op_ok m o :
  match o with OpCreateWorker _ | OpPutWorkerToken _ | OpDeleteWorkerToken _ | OpCreateWorkerVersion _
  | OpUpdateWorkerVersionProvider _ _ _ _ _ => True | _ => False end →
  op_allowed o → store_ok m → store_ok (run_op m o).
Proof.
  destruct o; try done; intros _ Hallowed Hok; cbn in *.
  - unfold CreateWorker. case_match; [done|]. store_fields.
    + apply insert_all; [|by auto]. intros k y Hl. destruct (Hw k y Hl). split; [done|].
      destruct_or!; [by left|right]. by eapply has_version_grows.
    + intros k t Hl. destruct (Ht k t Hl). auto with gomap.
    + intros k v Hl. destruct (Hv k v Hl). auto with gomap.
  - unfold PutWorkerToken. case_match eqn:E; [|done]. store_fields. apply insert_all; [done|]. by rewrite E.
  - unfold DeleteWorkerToken. case_match; [|done]. store_fields. by apply delete_all.
  - unfold CreateWorkerVersion. destruct (workers m !! _) eqn:E; [|done].
    destruct (workerVersions m !! wv_ID (sv_Metadata v)) eqn:Ev; [done|].
    assert (∀ w x, has_version m w x →
      has_version (with_workerVersions m (<[wv_ID (sv_Metadata v) := v]> (workerVersions m))) w x) as Hkeep.
    { intros. apply has_version_insert; [|done]. congruence. }
    store_fields.
    + intros k y Hl. destruct (Hw k y Hl) as [? [?|?]]; split; auto.
    + apply insert_all; [done|]. by rewrite E.
    + intros k y Hl. destruct (Hd k y Hl) as (? & ? & ?). auto.
  - unfold UpdateWorkerVersionProvider. case_match; [done|].
    destruct (version_of m w v) as [x|] eqn:E; [|done]. apply version_of_Some in E as [E Ew].
    assert (∀ w' x', has_version m w' x' →
      has_version (with_workerVersions m (<[v := set_provider x p n t]> (workerVersions m))) w' x') as Hkeep.
    { intros. apply has_version_insert; [|done]. intros y Hy. by simplify_eq. }
    store_fields.
    + intros k y Hl. destruct (Hw k y Hl) as [? [?|?]]; split; auto.
    + apply insert_all; [done|]. cbn. by apply Hv.
    + intros k y Hl. destruct (Hd k y Hl) as (? & ? & ?). auto.
Qed.

Lemma deployments_op_ok m o :
  match o with OpPlanWorkerDeployment _ _ | OpUpdateWorkerDeployment _ _ => True | _ => False end →
  store_ok m → store_ok (run_op m o).
Proof.
  destruct o; try done; intros _ Hok; cbn in *.
  - destruct (PlanWorkerDeployment m d w) as [m' [[]|e]] eqn:E; cbn.
    2: { unfold PlanWorkerDeployment in E. repeat case_match; by simplify_eq. }
    apply PlanWorkerDeployment_Ok in E
      as (worker & v & t & E1 & [Ev Evw]%version_of_Some & _ & E5 & E6 & E7 & _ & _ & Ei & _ & Edes & ->).
    store_fields.
    + apply insert_all.
      * intros k y Hl. destruct (Hw k y Hl) as [? [?|?]]; split; auto.
      * rewrite Ei, Edes. split; [done|]. right. by exists v.
    + intros k y Hl. destruct (Ht k y Hl). auto with gomap.
    + intros k y Hl. destruct (Hv k y Hl). auto with gomap.
    + apply insert_all; [done|]. split_and!; [done| |left; done].
      destruct (Hw _ _ E1) as [Eid _]. exists v. by rewrite <-Eid.
  - unfold UpdateWorkerDeployment. destruct (workerDeployments m !! _) as [cur|] eqn:E; [|done].
    case_match; [done|]. case_match eqn:Ev; [done|]. reflect_bools.
    match goal with H : validWorkerDeploymentTransition _ _ = true |- _ =>
      apply transition_deployment_ok in H as (Hdok & Hid & Hwid & Hvid & _) end.
    store_fields. apply insert_all; [done|]. destruct (Hd _ _ E) as (? & ? & _).
    split_and!; [done| |done]. by rewrite Hwid, Hvid.
Qed.

Lemma run_op_ok m o : op_allowed o → store_ok m → store_ok (run_op m o).
Proof.
  intros Ha Hok. destruct o; (by apply hosts_op_ok) || (by apply jobs_op_ok) ||
    (by apply workers_op_ok) || (by apply deployments_op_ok).
Qed.

Lemma run_ops_ok m os : Forall op_allowed os → store_ok m → store_ok (run_ops m os).
Proof.
  unfold run_ops. intros Hos. revert m. induction Hos as [|o os Ho _ IH]; intros m Hok; cbn; [done|].
  by apply IH, run_op_ok.
Qed.

(** ** Deployments over time *)

(** What one operation does to a stored deployment: nothing, or one accepted
    transition. *)
Lemma run_op_deployment m o id d :
  store_ok m → workerDeployments m !! id = Some d →
  workerDeployments (run_op m o) !! id = Some d ∨
  ∃ d', workerDeployments (run_op m o) !! id = Some d' ∧ validWorkerDeploymentTransition d d' = true.
Proof.
  intros Hok Hl. destruct o; cbn;
    unfold CreateHost, UpdateHost, DeleteHost, PutCredential, DeleteCredential, CreateJob, MutateJob, AppendAudit,
      CreateWorker, PutWorkerToken, DeleteWorkerToken, CreateWorkerVersion, UpdateWorkerVersionProvider;
    try (left; repeat case_match; done).
  - left. destruct (PlanWorkerDeployment m d0 w) as [m' [[]|e]] eqn:E; cbn.
    + apply PlanWorkerDeployment_Ok in E as (worker & v & t & _ & _ & _ & Hnone & _ & _ & _ & _ & _ & _ & _ & ->).
      cbn. rewrite lookup_insert_ne by congruence. done.
    + unfold PlanWorkerDeployment in E. repeat case_match; by simplify_eq.
  - unfold UpdateWorkerDeployment. rewrite cloneWorkerDeployment_id.
    destruct (workerDeployments m !! d_ID d0) as [cur|] eqn:E; [|by left]. case_match; [by left|].
    case_match eqn:Ev; [by left|]. reflect_bools. cbn.
    destruct (decide (d_ID d0 = id)) as [<-|]; [|left; by rewrite lookup_insert_ne].
    right. exists d0. rewrite lookup_insert_eq. split; [done|]. by simplify_eq.
Qed.

(** Once a deployment left [ready_for_provider] it never returns there, and
    once it finished it never changes. *)
Lemma run_ops_deployment m os id d :
  store_ok m → Forall op_allowed os → workerDeployments m !! id = Some d →
  d_State d ≠ "ready_for_provider" →
  ∃ d', workerDeployments (run_ops m os) !! id = Some d' ∧ d_State d' ≠ "ready_for_provider" ∧
    (d_State d ≠ "running" → d' = d).
Proof.
  intros Hok Hos. revert m d Hok. induction Hos as [|o os Ho _ IH]; intros m d Hok Hl Hne; [eauto|].
  cbn. pose proof (run_op_ok m o Ho Hok) as Hok'.
  destruct (run_op_deployment m o id d Hok Hl) as [Hl'|(d1 & Hl' & Htr)]; [by apply (IH _ d)|].
  apply transition_deployment_ok in Htr as (_ & _ & _ & _ & _ & _ & _ & _ & Hs).
  destruct Hs as [[? _]|[Hr Hs]]; [done|].
  destruct (IH _ d1 Hok' Hl') as (d2 & Hl2 & Hne2 & _); [destruct Hs; congruence|].
  exists d2. split_and!; [done..|]. congruence.
Qed.

(** ** Lists *)

Lemma audits_down_take l start n :
  (start + n = length l)%nat → audits_down l start n = map cloneAudit (take n (rev l)).
Proof.
  intros Hlen. assert (∀ k, (k ≤ n)%nat → audits_down l start k = map cloneAudit (rev (take k (drop start l)))) as H.
  { intros k. induction k as [|k IH]; intros Hk; [done|]. cbn [audits_down].
    destruct (lookup_lt_is_Some_2 l (start + k)) as [e He]; [lia|]. rewrite He.
    rewrite (take_S_r _ _ e) by (by rewrite lookup_drop).
    rewrite rev_app_distr. cbn. f_equal. apply IH. lia. }
  rewrite H by lia. f_equal. rewrite firstn_rev. f_equal. replace (length l - n)%nat with start by lia.
  apply take_ge. rewrite length_drop. lia.
Qed.

Lemma map_clone {A} (clone : A → A) l : (∀ a, clone a = a) → map clone l = l.
Proof. intros H. rewrite (map_ext clone id) by done. by rewrite map_id. Qed.

Lemma sort_by_spec {A} (key : A → Z) l :
  sort_by key l ≡ₚ l ∧ StronglySorted (key_le key) (sort_by key l).
Proof.
  split; [apply merge_sort_Permutation|]. apply StronglySorted_merge_sort; [|intros a b]; unfold key_le.
  - intros a b c. lia.
  - lia.
Qed.

(** ** Sample data for the witnesses *)

Definition demo_host (id : string) (v : Z) : Host :=
  mkHost id "web" "203.0.113.5" 22 "root" None None v 100 100.
Definition demo_worker (v : Z) (desired : string) : CloudflareWorker :=
  mkCloudflareWorker "wrk_1" "edge" "acct" "script" desired v 100 100.
Definition demo_token : StoredCloudflareToken :=
  mkStoredCloudflareToken (mkCloudflareTokenMetadata "tok_1" "wrk_1" "api" "dev" 100 "alice") Envelope_zero.
Definition demo_version : StoredCloudflareWorkerVersion :=
  mkStoredCloudflareWorkerVersion
    (mkCloudflareWorkerVersion "ver_1" "wrk_1" "" 3 "application/javascript" "index.js" "stored" "" 0 None 100 "alice") "abc".
Definition demo_deployment (id state : string) (allowed : bool) (started : option time) : CloudflareDeployment :=
  mkCloudflareDeployment id "wrk_1" "ver_1" "" "deploy" state allowed "" "" "" "" started None 100 "alice".
Definition demo_ops : list op :=
  [OpCreateWorker (demo_worker 1 ""); OpPutWorkerToken demo_token; OpCreateWorkerVersion demo_version;
   OpPlanWorkerDeployment (demo_deployment "dep_1" "ready_for_provider" false None) (demo_worker 2 "ver_1")].
Definition demo_store : Memory := run_ops NewMemory demo_ops.

(** An executor that moved a planned deployment to running leaves none to move. *)
Lemma claimed_not_claimable m d m1 os d' :
  store_ok m → UpdateWorkerDeployment m d "ready_for_provider" = (m1, Ok tt) →
  Forall op_allowed os → d_ID d' = d_ID d →
  ∃ e, UpdateWorkerDeployment (run_ops m1 os) d' "ready_for_provider" = (run_ops m1 os, Err e).
Proof.
  intros Hok Hup Hos Hid.
  assert (workerDeployments m1 !! d_ID d = Some d ∧ d_State d ≠ "ready_for_provider") as [Hl Hne].
  { unfold UpdateWorkerDeployment in Hup. rewrite cloneWorkerDeployment_id in Hup. repeat case_match; simplify_eq.
    reflect_bools. cbn. rewrite lookup_insert_eq. split; [done|].
    match goal with H : validWorkerDeploymentTransition _ _ = true |- _ =>
      apply transition_deployment_ok in H as (_ & _ & _ & _ & _ & _ & _ & _ & [[_ ->]|[? _]]) end; congruence. }
  assert (store_ok m1) as Hok1.
  { replace m1 with (run_op m (OpUpdateWorkerDeployment d "ready_for_provider")) by (cbn; by rewrite Hup).
    by apply run_op_ok. }
  destruct (run_ops_deployment m1 os (d_ID d) d Hok1 Hos Hl Hne) as (d2 & Hl2 & Hne2 & _).
  unfold UpdateWorkerDeployment. rewrite Hid, Hl2. case_match; [by eauto|].
  rewrite (proj2 (String.eqb_neq (d_State d2) "ready_for_provider")) by done. cbn. eauto.
Qed.

(** * Properties *)

(** C28: every sequence of allowed operations, run from an empty repository,
    leaves it consistent: every record is stored under its own id, credentials
    belong to stored hosts, tokens and versions to stored workers, a worker's
    desired version and a deployment's version are stored versions of that worker,
    and each deployment is in one of its four states with the times and codes that
    state demands.  Allowed ([op_allowed]) is every operation but a job mutation
    that changes the job's id and a new worker that names a desired version; the
    handlers run no others.  Nothing is claimed of the host a job names: jobs stay
    when their host is deleted. *)
Theorem repository_integrity os : Forall op_allowed os → store_ok (run_ops NewMemory os).
Proof. intros. by apply run_ops_ok, NewMemory_ok. Qed.

Lemma repository_integrity_witness : store_ok demo_store.
Proof. apply (repository_integrity demo_ops). repeat constructor. Defined.

(** of any number of executors that try to move a planned
    deployment from ready to running, at most one succeeds: after a successful start no
    later compare-and-swap from [ready_for_provider] succeeds, whatever runs in between. *)
Theorem deployment_starts_once m d m1 os d' :
  store_ok m → UpdateWorkerDeployment m d "ready_for_provider" = (m1, Ok tt) →
  Forall op_allowed os → d_ID d' = d_ID d →
  ∃ e, UpdateWorkerDeployment (run_ops m1 os) d' "ready_for_provider" = (run_ops m1 os, Err e).
Proof. apply claimed_not_claimable. Qed.

Lemma deployment_starts_once_witness :
  let start := demo_deployment "dep_1" "running" true (Some 200) in
  ∃ e, UpdateWorkerDeployment (UpdateWorkerDeployment demo_store start "ready_for_provider").1 start "ready_for_provider"
       = ((UpdateWorkerDeployment demo_store start "ready_for_provider").1, Err e).
Proof.
  apply (deployment_starts_once demo_store (demo_deployment "dep_1" "running" true (Some 200)) _ []).
  - apply run_ops_ok; [repeat constructor|apply NewMemory_ok].
  - vm_compute. reflexivity.
  - constructor.
  - reflexivity.
Defined.

(** a succeeded or failed deployment is never changed again by any
    operation of the repository. *)
Theorem deployment_final m os id d :
  store_ok m → Forall op_allowed os → workerDeployments m !! id = Some d →
  d_State d = "succeeded" ∨ d_State d = "failed" →
  workerDeployments (run_ops m os) !! id = Some d.
Proof.
  intros Hok Hos Hl Hs.
  destruct (run_ops_deployment m os id d Hok Hos Hl) as (d' & Hl' & _ & Heq); [destruct Hs; congruence|].
  rewrite Heq in Hl'; [done|]. destruct Hs; congruence.
Qed.

Definition demo_failed : CloudflareDeployment :=
  mkCloudflareDeployment "dep_1" "wrk_1" "ver_1" "" "deploy" "failed" true "" "" "" "timeout" (Some 200) (Some 300) 100 "alice".
Definition demo_finished : Memory :=
  run_ops NewMemory (demo_ops ++ [OpUpdateWorkerDeployment (demo_deployment "dep_1" "running" true (Some 200)) "ready_for_provider";
                                  OpUpdateWorkerDeployment demo_failed "running"]).

Lemma deployment_final_witness :
  workerDeployments (run_ops demo_finished [OpUpdateWorkerDeployment (demo_deployment "dep_1" "running" true (Some 400)) "failed"])
    !! "dep_1" = Some demo_failed.
Proof.
  apply (deployment_final demo_finished).
  - apply run_ops_ok; [repeat constructor|apply NewMemory_ok].
  - repeat constructor.
  - vm_compute. reflexivity.
  - right. reflexivity.
Defined.

(** planning a deployment is atomic and optimistic: on success the worker
    points to the planned version and nothing but this worker and this new deployment
    changed; a second plan made from the same view of the worker is refused; on failure
    nothing changed. *)
Theorem plan_serializes m d w m' r :
  store_ok m → PlanWorkerDeployment m d w = (m', r) →
  (∃ e, r = Err e ∧ m' = m) ∨
  r = Ok tt ∧ workers m' = <[d_WorkerID d := w]> (workers m) ∧
  workerDeployments m' = <[d_ID d := d]> (workerDeployments m) ∧ w_DesiredVersionID w = d_VersionID d ∧
  workerVersions m' = workerVersions m ∧ workerTokens m' = workerTokens m ∧ hosts m' = hosts m ∧ jobs m' = jobs m ∧
  (∀ d2 w2, d_WorkerID d2 = d_WorkerID d → w_Version w2 = w_Version w → 0 ≤ w_Version w < 2 ^ 64 →
    ∃ e, (PlanWorkerDeployment m' d2 w2).2 = Err e).
Proof.
  intros Hok H. destruct r as [[]|e].
  2: { left. exists e. unfold PlanWorkerDeployment in H. repeat case_match; by simplify_eq. }
  right. apply PlanWorkerDeployment_Ok in H
    as (worker & v & t & Hw & _ & _ & _ & _ & _ & _ & _ & Hid & _ & Hdes & ->).
  destruct (so_workers _ Hok _ _ Hw) as [Ew _]. cbn. rewrite Ew. split_and!; try done.
  intros d2 w2 Hd2 Hv2 Hrange. destruct (PlanWorkerDeployment _ d2 w2) as [m2 [[]|e]] eqn:E2; [|by eauto].
  apply PlanWorkerDeployment_Ok in E2 as (worker2 & ? & ? & Hw2 & _ & _ & _ & _ & _ & _ & _ & _ & Hver & _).
  cbn in Hw2. rewrite Hd2, lookup_insert_eq in Hw2. simplify_eq.
  rewrite Hv2 in Hver. by pose proof (u64_succ_ne _ Hrange).
Qed.

Lemma plan_serializes_witness :
  ∃ e, (PlanWorkerDeployment demo_store (demo_deployment "dep_2" "ready_for_provider" false None) (demo_worker 2 "ver_1")).2 = Err e.
Proof.
  destruct (plan_serializes (run_ops NewMemory (take 3 demo_ops))
    (demo_deployment "dep_1" "ready_for_provider" false None) (demo_worker 2 "ver_1") demo_store (Ok tt))
    as [(e & ? & _)|(_ & _ & _ & _ & _ & _ & _ & _ & H)].
  - apply run_ops_ok; [repeat constructor|apply NewMemory_ok].
  - vm_compute. reflexivity.
  - discriminate.
  - apply H; vm_compute; [reflexivity..|split; [discriminate|reflexivity]].
Defined.

(** [UpdateHost] is a compare-and-swap on the version: once one
    writer that read version [v] stored version [v+1], every other writer that read [v] is
    refused with a conflict and changes nothing. *)
Theorem update_host_no_lost_update m h1 h2 v m1 m2 :
  UpdateHost m h1 v = (m1, Ok tt) → 0 ≤ v < 2 ^ 64 → h_Version h1 = u64 (v + 1) → h_ID h2 = h_ID h1 →
  hosts m2 !! h_ID h1 = hosts m1 !! h_ID h1 →
  hosts m1 !! h_ID h1 = Some h1 ∧ UpdateHost m2 h2 v = (m2, Err ErrConflict).
Proof.
  intros H Hv Hver Hid Hsame. unfold UpdateHost in H. rewrite cloneHost_id in H. repeat case_match; simplify_eq.
  cbn in Hsame. rewrite lookup_insert_eq in Hsame. split; [cbn; by rewrite lookup_insert_eq|].
  unfold UpdateHost. rewrite Hid, Hsame. rewrite (proj2 (Z.eqb_neq _ _)); [done|]. rewrite Hver. by apply u64_succ_ne.
Qed.

Lemma update_host_no_lost_update_witness :
  let m1 := (UpdateHost (CreateHost NewMemory (demo_host "host_1" 1)).1 (demo_host "host_1" 2) 1).1 in
  UpdateHost m1 (demo_host "host_1" 2) 1 = (m1, Err ErrConflict).
Proof.
  intros m1.
  refine (proj2 (update_host_no_lost_update (CreateHost NewMemory (demo_host "host_1" 1)).1
    (demo_host "host_1" 2) (demo_host "host_1" 2) 1 m1 m1 _ _ _ _ _)).
  - vm_compute. reflexivity.
  - split; [discriminate|reflexivity].
  - reflexivity.
  - reflexivity.
  - reflexivity.
Defined.

(** [ListAudits] returns the most recent events, newest first, as many
    as asked for when the limit is between 1 and 500 and 100 otherwise, each redacted; an
    event just appended comes first, redacted once. *)
Theorem list_audits_newest m limit e :
  let n := Z.to_nat (if (limit <=? 0)%Z || (500 <? limit)%Z then 100 else limit) in
  ListAudits m limit = map cloneAudit (take n (rev (audits m))) ∧
  ListAudits (AppendAudit m e).1 limit = cloneAudit e :: map cloneAudit (take (pred n) (rev (audits m))).
Proof.
  assert (∀ m, ListAudits m limit =
    map cloneAudit (take (Z.to_nat (if (limit <=? 0)%Z || (500 <? limit)%Z then 100 else limit)) (rev (audits m)))) as H.
  { clear. intros m. unfold ListAudits. set (lim := if _ || _ then 100 else limit).
    assert (0 < lim) by (unfold lim; destruct (Z.leb_spec limit 0); cbn; [lia|]; destruct (500 <? limit); cbn; lia).
    destruct (Z.ltb_spec (Z.of_nat (length (audits m)) - lim) 0).
    - rewrite audits_down_take by lia. f_equal. rewrite !take_ge; rewrite ?length_rev; try done; lia.
    - rewrite audits_down_take by lia. do 2 f_equal. lia. }
  intros n. split; [apply H|]. rewrite H. fold n. assert (0 < n)%nat as Hn.
  { subst n. destruct (Z.leb_spec limit 0); cbn; [lia|]. destruct (500 <? limit); cbn; lia. }
  clearbody n. cbn [AppendAudit fst audits with_audits]. rewrite rev_app_distr. cbn [rev app].
  destruct n as [|n]; [lia|]. cbn. by rewrite cloneAudit_idem.
Qed.

(** the list operations return every stored record exactly once, hosts and
    workers oldest first, jobs newest first, versions and deployments of the worker newest
    first. *)
Theorem lists_sorted m workerID :
  (ListHosts m ≡ₚ (map_to_list (hosts m)).*2 ∧ StronglySorted (key_le h_CreatedAt) (ListHosts m)) ∧
  (ListJobs m ≡ₚ (map_to_list (jobs m)).*2 ∧ StronglySorted (key_le (λ j, - j_CreatedAt j)) (ListJobs m)) ∧
  (ListWorkers m ≡ₚ (map_to_list (workers m)).*2 ∧ StronglySorted (key_le w_CreatedAt) (ListWorkers m)) ∧
  (∀ v, v ∈ ListWorkerVersions m workerID ↔
     wv_WorkerID v = workerID ∧ ∃ id x, workerVersions m !! id = Some x ∧ sv_Metadata x = v) ∧
  StronglySorted (key_le (λ v, - wv_CreatedAt v)) (ListWorkerVersions m workerID) ∧
  (∀ d, d ∈ ListWorkerDeployments m workerID ↔ d_WorkerID d = workerID ∧ ∃ id, workerDeployments m !! id = Some d) ∧
  StronglySorted (key_le (λ d, - d_CreatedAt d)) (ListWorkerDeployments m workerID).
Proof.
  unfold ListHosts, ListJobs, ListWorkers, ListWorkerVersions, ListWorkerDeployments.
  split_and!; try apply sort_by_spec.
  - rewrite (proj1 (sort_by_spec _ _)). by rewrite map_clone by apply cloneHost_id.
  - rewrite (proj1 (sort_by_spec _ _)). by rewrite map_clone by apply cloneJob_id.
  - intros v. rewrite (proj1 (sort_by_spec _ _)), list_elem_of_In, in_map_iff. setoid_rewrite filter_In.
    setoid_rewrite <-list_elem_of_In. setoid_rewrite list_elem_of_fmap. setoid_rewrite String.eqb_eq.
    setoid_rewrite cloneWorkerVersion_id. split.
    + intros (x & <- & ([k y] & -> & Hin%elem_of_map_to_list) & ?). cbn in *. eauto.
    + intros (? & k & x & Hl & <-). exists x. split_and!; [done| |done]. exists (k, x).
      by rewrite elem_of_map_to_list.
  - intros d. rewrite (proj1 (sort_by_spec _ _)), map_clone by apply cloneWorkerDeployment_id.
    rewrite list_elem_of_In, filter_In, <-list_elem_of_In, list_elem_of_fmap, String.eqb_eq. split.
    + intros [([k y] & -> & Hin%elem_of_map_to_list) ?]. eauto.
    + intros (? & k & Hl). split; [|done]. exists (k, d). by rewrite elem_of_map_to_list.
Qed.
