(* ===== verification/CloudflareProvider.v ===== *)
(** * The Cloudflare provider client

    Models [services/cloudflareprovider]: [types.go], [errors.go],
    [client.go] (configuration and the API request), [operations.go] (token
    check, upload, deployment, rollback and polling) and [idempotency.go]
    (one execution per key).  The network, the clock and the token source are
    a class [World]; decoding a response body is a class with one instance
    per result type, as the generic [requestAPI] has; SHA-256, the media type
    parser and the encoders of the standard library are parameters. *)

From S2P Require Import Prelude GoStrings Encoding Json Protocol.

(** ** [types.go] and [errors.go] *)

Definition OfficialAPIBaseURL := "https://api.cloudflare.com/client/v4".
Definition TokenOwnerUser := "user".
Definition TokenOwnerAccount := "account".

Record Config := mkConfig {
  cf_AccountID : string;
  cf_TokenOwner : string;
  cf_RequestTimeout : duration;
  cf_PollInterval : duration;
  cf_PollTimeout : duration;
  cf_MaxModuleBytes : Z;
  cf_MaxResponseBytes : Z;
  cf_MaxIdempotencyEntries : Z;
}.

Record AccountAccess := mkAccess {
  aa_AccountID : string;
  aa_AccountName : string;
  aa_TokenID : string;
  aa_TokenStatus : string;
  aa_NotBefore : option time;
  aa_ExpiresAt : option time;
}.

Record PrebuiltModule := mkModule {
  ScriptName : string;
  MainModule : string;
  Source : string;
  Message : string;
  Tag : string;
  IdempotencyKey : string;
}.

Record Version := mkVersion {
  v_ID : string;
  v_Number : Z;
  v_CreatedAt : option time;
  v_ScriptName : string;
  v_SHA256 : string;
  v_SizeBytes : Z;
}.

Definition DeploymentStatePending := "pending".
Definition DeploymentStateActive := "active".

Record DeploymentVersion := mkDeploymentVersion { dv_VersionID : string; dv_Percentage : float64 }.

Record Deployment := mkDeployment {
  pd_ID : string;
  pd_ScriptName : string;
  pd_State : string;
  pd_CreatedAt : option time;
  pd_Source : string;
  pd_Versions : list DeploymentVersion;
}.

Record DeployRequest := mkDeploy { dr_ScriptName : string; dr_VersionID : string; dr_Message : string; dr_IdempotencyKey : string }.
Record RollbackRequest := mkRollback { rr_ScriptName : string; rr_TargetVersionID : string; rr_Message : string; rr_IdempotencyKey : string }.
Record WaitDeploymentRequest := mkWait { wr_ScriptName : string; wr_DeploymentID : string; wr_VersionID : string }.

Inductive ErrorKind :=
| ErrorValidation | ErrorAuthentication | ErrorPermission | ErrorAccountScope | ErrorNotFound | ErrorConflict
| ErrorRateLimited | ErrorProvider | ErrorResponseTooLarge | ErrorTimeout | ErrorTransport | ErrorRedirect
| ErrorCancelled.

#[global] Instance ErrorKind_eq_dec : EqDecision ErrorKind.
Proof. solve_decision. Defined.

Definition ErrorKind_string (k : ErrorKind) : string :=
  match k with
  | ErrorValidation => "validation" | ErrorAuthentication => "authentication" | ErrorPermission => "permission"
  | ErrorAccountScope => "account_scope" | ErrorNotFound => "not_found" | ErrorConflict => "conflict"
  | ErrorRateLimited => "rate_limited" | ErrorProvider => "provider" | ErrorResponseTooLarge => "response_too_large"
  | ErrorTimeout => "timeout" | ErrorTransport => "transport" | ErrorRedirect => "redirect"
  | ErrorCancelled => "cancelled"
  end.

Record Error := mkError {
  Kind : ErrorKind;
  Operation : string;
  StatusCode : Z;
  ProviderCode : Z;
  Retryable : bool;
  RetryAfter : duration;
}.

(** [&Error{Kind: k, Operation: operation}], and with [Retryable: true]. *)
Definition error (k : ErrorKind) (operation : string) : Error := mkError k operation 0 0 false 0.
Definition retryable (k : ErrorKind) (operation : string) : Error := mkError k operation 0 0 true 0.
Definition validationError (operation : string) : Error := error ErrorValidation operation.
Definition IsKind (err : Error) (kind : ErrorKind) : bool := bool_decide (Kind err = kind).

(** ** Patterns *)

Definition is_hex (b : Z) : bool := is_digit_rune b || in_range 65 70 b || in_range 97 102 b.
Definition one_of (cs : string) (b : Z) : bool := existsb (λ a, (byte_val a =? b)%Z) (String.list_ascii_of_string cs).

(** A pattern of one class per character. *)
Fixpoint match_classes (classes : list (Z → bool)) (s : string) : bool :=
  match classes, s with
  | [], EmptyString => true
  | p :: classes, String a s => char_in p a && match_classes classes s
  | _, _ => false
  end.

(** A first character, and then between [lo] and [hi] characters of a class. *)
Definition head_tail (first rest : Z → bool) (lo hi : Z) (s : string) : bool :=
  match s with
  | EmptyString => false
  | String a t => char_in first a && (lo <=? slen t)%Z && (slen t <=? hi)%Z && all_chars rest t
  end.

Definition accountIDPattern (s : string) : bool := (slen s =? 32)%Z && all_chars is_hex s.
Definition scriptNamePattern (s : string) : bool :=
  head_tail (λ b, is_lower_rune b || is_digit_rune b) (λ b, is_lower_rune b || is_digit_rune b || one_of "_-" b) 0 62 s.
Definition moduleNamePattern (s : string) : bool :=
  head_tail is_alnum_rune (λ b, is_alnum_rune b || one_of "._-" b) 0 127 s.
Definition uuidPattern (s : string) : bool :=
  match_classes (replicate 8 is_hex ++ [one_of "-"] ++ replicate 4 is_hex ++ [one_of "-"] ++ [in_range 49 56] ++
                 replicate 3 is_hex ++ [one_of "-"] ++ [one_of "89AaBb"] ++ replicate 3 is_hex ++ [one_of "-"] ++
                 replicate 12 is_hex) s.
Definition idempotencyPattern (s : string) : bool :=
  head_tail is_alnum_rune (λ b, is_alnum_rune b || one_of "._:-" b) 7 127 s.
Definition tokenPattern (s : string) : bool :=
  (20 <=? slen s)%Z && (slen s <=? 512)%Z && all_chars (λ b, is_alnum_rune b || one_of "_-" b) s.
Definition globalKeyPattern (s : string) : bool :=
  (32 <=? slen s)%Z && (slen s <=? 37)%Z && all_chars is_hex s.

Definition validateToken (token : string) : bool := tokenPattern token && negb (globalKeyPattern token).

(** The token file: its mode (regular, permission bits) when it can be read,
    and its contents.  [windows] is the test of [runtime.GOOS]. *)
Definition maxTokenBytes : Z := 16384.
Record token_file := mkTokenFile { tf_Stat : option (bool * Z); tf_Contents : option string }.
Definition FileTokenSource_Token (OpenFile : string → option token_file) (windows : bool) (path : string) : result string string :=
  require has_prefix "/" path else "Cloudflare API token file path must be absolute" ;;
  file ← of_option (OpenFile path) "open Cloudflare API token file";
  '(regular, perm) ← of_option (tf_Stat file) "Cloudflare API token file permissions are unsafe";
  require regular && (windows || (Z.land perm 63 =? 0)%Z) else "Cloudflare API token file permissions are unsafe" ;;
  contents ← of_option (read_limited maxTokenBytes <$> tf_Contents file) "read Cloudflare API token file";
  require negb (maxTokenBytes <? slen contents)%Z else "read Cloudflare API token file" ;;
  let token := trim_space contents in
  require validateToken token else "Cloudflare bearer API token is invalid or appears to be a Global API Key" ;;
  Ok token.

(** A token that is returned passes the client's own check and comes from a
    regular file that only its owner can use. *)
Lemma FileTokenSource_Token_Ok OpenFile windows path token : FileTokenSource_Token OpenFile windows path = Ok token →
  validateToken token = true ∧ has_prefix "/" path = true ∧
  ∃ perm contents, OpenFile path = Some (mkTokenFile (Some (true, perm)) (Some contents)) ∧ (windows = true ∨ Z.land perm 63 = 0).
Proof.
  unfold FileTokenSource_Token. intros Ht. apply bind_Ok_inv in Ht as (? & Hp%guard_ok_Ok & Ht). apply bind_Ok_inv in Ht as ([st ct] & Ho%of_option_Ok & Ht).
  apply bind_Ok_inv in Ht as ([regular perm] & Hs%of_option_Ok & Ht). apply bind_Ok_inv in Ht as (? & [Hr Hm]%guard_ok_Ok%andb_true_iff & Ht).
  apply bind_Ok_inv in Ht as (text & Hc%of_option_Ok & Ht). apply bind_Ok_inv in Ht as (? & _ & Ht). apply bind_Ok_inv in Ht as (? & Hv%guard_ok_Ok & [= <-]).
  cbn in Hs, Hc. destruct ct as [contents|]; [|done]. subst st regular. split; [done|]. split; [done|]. exists perm, contents. split; [done|].
  apply orb_true_iff in Hm as [?|?%Z.eqb_eq]; auto.
Qed.

Definition validMessage (value : string) (maxBytes : Z) : bool :=
  (slen value <=? maxBytes)%Z && utf8_valid value && negb (contains_char nul value).

Definition validDeploymentInput (scriptName versionID message idempotencyKey : string) : bool :=
  scriptNamePattern scriptName && uuidPattern versionID && validMessage message 1000 && idempotencyPattern idempotencyKey.

(** ** The client *)

Definition defaultRequestTimeout : duration := 15 * second.
Definition defaultPollInterval : duration := 250 * millisecond.
Definition defaultPollTimeout : duration := 20 * second.
Definition defaultMaxModuleBytes : Z := 1048576.
Definition defaultMaxResponseBytes : Z := 1048576.
Definition defaultMaxIdempotencyEntries : Z := 1024.
Definition maximumModuleBytes : Z := 10485760.
Definition maximumResponseBytes : Z := 4194304.

(** The values an idempotency entry can hold ([any] in the code). *)
Inductive ivalue :=
| VVersion (v : Version)
| VDeployment (d : Deployment).

(** An entry, whose [done] channel is closed when the outcome is there. *)
Record idempotencyEntry := mkEntry {
  e_fingerprint : string;
  e_outcome : option (result Error ivalue);
  e_createdAt : time;
}.

(** The map holds pointers: an entry that was removed from it is still
    seen by the callers that wait for it.  [entries] is the heap of entries. *)
Record Client := mkClient {
  accountID : string;
  tokenOwner : string;
  pollInterval : duration;
  pollTimeout : duration;
  maxModuleBytes : Z;
  maxResponseBytes : Z;
  maxIdemEntries : Z;
  idem : gmap string nat;
  entries : list idempotencyEntry;
}.

Definition set_idem (c : Client) (m : gmap string nat) (es : list idempotencyEntry) : Client :=
  mkClient (accountID c) (tokenOwner c) (pollInterval c) (pollTimeout c) (maxModuleBytes c) (maxResponseBytes c)
    (maxIdemEntries c) m es.

Definition default_if_zero (v d : Z) : Z := if (v =? 0)%Z then d else v.

(** [New]: the transport settings it makes are net/http's. *)
Definition New (config : Config) (hasTokenSource : bool) : result Error Client :=
  if negb (accountIDPattern (cf_AccountID config)) || negb hasTokenSource then Err (validationError "configure")
  else
    let owner := if cf_TokenOwner config =? "" then TokenOwnerUser else cf_TokenOwner config in
    if (owner ≠? TokenOwnerUser) && (owner ≠? TokenOwnerAccount) then Err (validationError "configure")
    else
      let requestTimeout := default_if_zero (cf_RequestTimeout config) defaultRequestTimeout in
      let pollInterval := default_if_zero (cf_PollInterval config) defaultPollInterval in
      let pollTimeout := default_if_zero (cf_PollTimeout config) defaultPollTimeout in
      let moduleBytes := default_if_zero (cf_MaxModuleBytes config) defaultMaxModuleBytes in
      let responseBytes := default_if_zero (cf_MaxResponseBytes config) defaultMaxResponseBytes in
      let entries := default_if_zero (cf_MaxIdempotencyEntries config) defaultMaxIdempotencyEntries in
      if (requestTimeout <? millisecond)%Z || (minute <? requestTimeout)%Z ||
         (pollInterval <? millisecond)%Z || (minute <? pollInterval)%Z ||
         (pollTimeout <? pollInterval)%Z || (5 * minute <? pollTimeout)%Z ||
         (moduleBytes <? 1)%Z || (maximumModuleBytes <? moduleBytes)%Z ||
         (responseBytes <? 1024)%Z || (maximumResponseBytes <? responseBytes)%Z ||
         (entries <? 1)%Z || (100000 <? entries)%Z
      then Err (validationError "configure")
      else Ok (mkClient (cf_AccountID config) owner pollInterval pollTimeout moduleBytes responseBytes entries ∅ []).

(** ** Contexts and the world *)

Inductive ctx_error := Canceled | DeadlineExceeded.
#[global] Instance ctx_error_eq_dec : EqDecision ctx_error.
Proof. solve_decision. Defined.

(** A context: when it ends, and why. *)
Definition context := option (time * ctx_error).

Definition ctx_Err (ctx : context) (now : time) : option ctx_error :=
  match ctx with
  | Some (at_, e) => if (at_ <=? now)%Z then Some e else None
  | None => None
  end.

Definition WithTimeout (ctx : context) (now : time) (timeout : duration) : context :=
  match ctx with
  | Some (at_, e) => if (at_ <=? now + timeout)%Z then ctx else Some (now + timeout, DeadlineExceeded)
  | None => Some (now + timeout, DeadlineExceeded)
  end.

(** An error that reaches a user of the [Provider] interface: an [*Error], or
    any other. *)
Inductive provider_error :=
| ProviderError (e : Error)
| OtherError.

(** The [Provider] interface. *)
Class Provider (P : Type) := {
  p_ValidateAccess : P → context → P * result provider_error AccountAccess;
  p_UploadVersion : P → context → PrebuiltModule → P * result provider_error Version;
  p_DeployVersion : P → context → DeployRequest → P * result provider_error Deployment;
  p_Rollback : P → context → RollbackRequest → P * result provider_error Deployment;
}.

Record requestSpec := mkSpec {
  s_operation : string;
  s_method : string;
  s_path : string;
  s_query : list (string * string);
  s_body : string;
  s_contentType : string;
  s_idempotencyKey : string;
}.

(** The request that is sent: method, URL, body and headers. *)
Record http_request := mkRequest {
  rq_method : string;
  rq_url : string;
  rq_body : string;
  rq_headers : list (string * string);
}.

(** [rs_stream] is what the body delivers, and whether it then ends in a read
    error instead of EOF. *)
Record http_response := mkResponse {
  rs_StatusCode : Z;
  rs_ContentLength : Z;
  rs_stream : string * bool;
  rs_ContentType : string;
  rs_RetryAfter : string;
}.

(** What [errors.Is] finds in the error of [http.Client.Do]. *)
Inductive do_error := DoRedirectBlocked | DoCanceled | DoDeadlineExceeded | DoOther.

Class World (W : Type) := {
  Do : W → context → http_request → W * result do_error http_response;
  Token : W → context → W * option string;
  world_now : W → time;
  (* waits for the timer or for the end of the context; true is the context *)
  select_done : W → context → duration → W * bool;
}.

(** What polling relies on: the clock does not go back, a timer fires no
    earlier than asked, and a request under an ended context fails. *)
Class WorldLaws (W : Type) `{World W} : Prop := {
  Do_clock w ctx r : world_now w ≤ world_now (Do w ctx r).1;
  Token_clock w ctx : world_now w ≤ world_now (Token w ctx).1;
  select_timer w ctx d : (select_done w ctx d).2 = false → world_now w + d ≤ world_now (select_done w ctx d).1;
  Do_ended w ctx r e : ctx_Err ctx (world_now w) = Some e → ∃ de, (Do w ctx r).2 = Err de;
}.

(** ** [requestAPI] *)

Record apiEnvelope (T : Type) := mkEnvelope { Success : bool; Errors : list Z; Result : T }.
Arguments mkEnvelope {T} _ _ _.
Arguments Success {T} _.
Arguments Errors {T} _.
Arguments Result {T} _.

(** [json.Decoder.Decode] into an envelope: the value and the unread rest. *)
Class Decode (T : Type) := decode : string → option (apiEnvelope T * string).

(** [io.ReadAll(io.LimitReader(body, n))] *)
Definition read_limited (stream : string * bool) (n : Z) : option string :=
  if (n <=? slen stream.1)%Z then Some (take_str (Z.to_nat n) stream.1)
  else if stream.2 then None else Some stream.1.

(** [ensureJSONEOF]: nothing but white space is left. *)
Definition ensureJSONEOF (rest : string) : bool := skip_ws rest =? "".

Definition statusError (operation : string) (statusCode providerCode : Z) (retryAfterHeader : string) : Error :=
  let err k r after := mkError k operation statusCode providerCode r after in
  if (statusCode =? 401)%Z then err ErrorAuthentication false 0
  else if (statusCode =? 403)%Z then err ErrorPermission false 0
  else if (statusCode =? 404)%Z then err ErrorNotFound false 0
  else if (statusCode =? 409)%Z || (statusCode =? 412)%Z then err ErrorConflict false 0
  else if (statusCode =? 408)%Z || (statusCode =? 504)%Z then err ErrorTimeout true 0
  else if (statusCode =? 429)%Z then
    err ErrorRateLimited true
      match parse_int retryAfterHeader with
      | Some seconds => if (0 <=? seconds)%Z && (seconds <=? 3600)%Z then seconds * second else 0
      | None => 0
      end
  else err ErrorProvider ((500 <=? statusCode)%Z || (statusCode =? 0)%Z) 0.

(** The results of the calls. *)
Record tokenVerifyResult := mkTokenVerify {
  tv_ID : string; tv_Status : string; tv_ExpiresOn : option time; tv_NotBefore : option time }.
Record accountResult := mkAccount { ac_ID : string; ac_Name : string }.
Record versionResult := mkVersionResult { vr_ID : string; vr_Number : Z; vr_CreatedOn : option time }.
Record deploymentResult := mkDeploymentResult {
  ds_ID : string; ds_CreatedOn : option time; ds_Source : string; ds_Strategy : string;
  ds_Versions : list DeploymentVersion }.
Record deploymentListResult := mkDeploymentList { dl_Deployments : list deploymentResult }.

(** ** One execution per idempotency key *)

Definition cacheKey (operation scope key : string) : string :=
  operation +:+ String nul (scope +:+ String nul key).

Definition completed (e : idempotencyEntry) : bool :=
  match e_outcome e with Some _ => true | None => false end.

(** [evictOldestCompletedLocked]: [order] is the order in which the loop visits
    the keys. *)
Fixpoint oldest_completed (c : Client) (order : list string) (oldest : option (string * idempotencyEntry))
    : option (string * idempotencyEntry) :=
  match order with
  | [] => oldest
  | key :: order =>
    match p ← idem c !! key; entries c !! p with
    | Some entry =>
      oldest_completed c order
        (if completed entry &&
            match oldest with None => true | Some (_, o) => (e_createdAt entry <? e_createdAt o)%Z end
         then Some (key, entry) else oldest)
    | None => oldest_completed c order oldest
    end
  end.

Definition evictOldestCompletedLocked (c : Client) (order : list string) : Client * bool :=
  match oldest_completed c order None with
  | None => (c, false)
  | Some (key, _) => (set_idem c (delete key (idem c)) (entries c), true)
  end.

(** How [runIdempotent] goes on after its first critical section. *)
Inductive idem_start :=
| StartRefused (e : Error)
| StartJoin (p : nat)
| StartRun (p : nat).

Definition idem_begin (c : Client) (order : list string) (operation key fingerprint : string) (now : time)
    : Client * idem_start :=
  match idem c !! key with
  | Some p =>
    match entries c !! p with
    | Some existing =>
      if e_fingerprint existing ≠? fingerprint then (c, StartRefused (error ErrorConflict operation))
      else (c, StartJoin p)
    | None => (c, StartRefused (error ErrorConflict operation))
    end
  | None =>
    let '(c, room) := if (maxIdemEntries c <=? len (idem c))%Z then evictOldestCompletedLocked c order else (c, true) in
    if negb room then (c, StartRefused (retryable ErrorConflict operation))
    else
      let p := length (entries c) in
      (set_idem c (<[key := p]> (idem c)) (entries c ++ [mkEntry fingerprint None now]), StartRun p)
  end.

(** The second critical section, after [execute]. *)
Definition idem_finish (c : Client) (p : nat) (key : string) (outcome : result Error ivalue) : Client :=
  let es := alter (λ e, mkEntry (e_fingerprint e) (Some outcome) (e_createdAt e)) p (entries c) in
  set_idem c (match outcome with Err _ => delete key (idem c) | Ok _ => idem c end) es.

Section client.
Context (sha256 : string → string).
(** The encoders of the standard library. *)
Context (ParseMediaType : string → option string) (NewRequest : string → string → bool)
  (marshal_metadata : string → list (string * string) → option string)
  (marshal_deployment : string → list DeploymentVersion → list (string * string) → option string)
  (multipart : list (list (string * string) * string) → string * string).
Context {W : Type} `{World W}.

(** [url.Values.Encode] for keys and values that need no escaping. *)
Definition Encode (query : list (string * string)) : string :=
  join "&" (map (λ kv, kv.1 +:+ "=" +:+ kv.2) query).

Definition request_headers (spec : requestSpec) (token : string) : list (string * string) :=
  [("Accept", "application/json"); ("User-Agent", "vpsmanager-cloudflare-provider/1")] ++
  (if s_contentType spec ≠? "" then [("Content-Type", s_contentType spec)] else []) ++
  (if s_idempotencyKey spec ≠? "" then [("Idempotency-Key", s_idempotencyKey spec)] else []) ++
  [("Authorization", "Bearer " +:+ token)].

(** From the response on: the result or the error. *)
Definition read_response {T} `{Decode T} (c : Client) (operation : string) (resp : http_response) : result Error T :=
  let fail k r := Err (mkError k operation (rs_StatusCode resp) 0 r 0) in
  let status code := Err (statusError operation (rs_StatusCode resp) code (rs_RetryAfter resp)) in
  if (maxResponseBytes c <? rs_ContentLength resp)%Z then fail ErrorResponseTooLarge false
  else match read_limited (rs_stream resp) (maxResponseBytes c + 1) with
  | None => fail ErrorTransport true
  | Some body =>
    if (maxResponseBytes c <? slen body)%Z then fail ErrorResponseTooLarge false
    else match ParseMediaType (rs_ContentType resp) with
    | None => status 0
    | Some mediaType =>
      if mediaType ≠? "application/json" then status 0
      else match decode body with
      | None => status 0
      | Some (envelope, rest) =>
        if negb (ensureJSONEOF rest) then status 0
        else if (rs_StatusCode resp <? 200)%Z || (300 <=? rs_StatusCode resp)%Z || negb (Success envelope)
        then status match Errors envelope with [] => 0 | code :: _ => code end
        else Ok (Result envelope)
      end
    end
  end.

Definition requestAPI (T : Type) `{Decode T} (c : Client) (w : W) (ctx : option context) (spec : requestSpec)
    : W * result Error T :=
  match ctx with
  | None => (w, Err (validationError (s_operation spec)))
  | Some ctx =>
    let endpoint := OfficialAPIBaseURL +:+ s_path spec +:+
      (if (0 <? Z.of_nat (length (s_query spec)))%Z then "?" +:+ Encode (s_query spec) else "") in
    if negb (NewRequest (s_method spec) endpoint) then (w, Err (validationError (s_operation spec)))
    else
      let '(w, token) := Token w ctx in
      match token with
      | None => (w, Err (error ErrorAuthentication (s_operation spec)))
      | Some token =>
        if negb (validateToken token) then (w, Err (error ErrorAuthentication (s_operation spec)))
        else
          let '(w, answer) := Do w ctx (mkRequest (s_method spec) endpoint (s_body spec) (request_headers spec token)) in
          (w, match answer with
              | Err DoRedirectBlocked => Err (error ErrorRedirect (s_operation spec))
              | Err DoCanceled => Err (error ErrorCancelled (s_operation spec))
              | Err DoDeadlineExceeded => Err (retryable ErrorTimeout (s_operation spec))
              | Err DoOther => Err (retryable ErrorTransport (s_operation spec))
              | Ok resp => read_response c (s_operation spec) resp
              end)
      end
  end.

(** ** Operations *)

Context `{Decode tokenVerifyResult, Decode accountResult, Decode versionResult, Decode deploymentResult,
          Decode deploymentListResult}.

Definition get_spec (operation path : string) : requestSpec := mkSpec operation "GET" path [] "" "" "".

Definition ValidateAccess (c : Client) (w : W) (ctx : context) : W * result Error AccountAccess :=
  let verifyPath := if tokenOwner c =? TokenOwnerAccount then "/accounts/" +:+ accountID c +:+ "/tokens/verify"
                    else "/user/tokens/verify" in
  let '(w, token) := requestAPI tokenVerifyResult c w (Some ctx) (get_spec "verify_token" verifyPath) in
  match token with
  | Err e => (w, Err e)
  | Ok token =>
    let now := world_now w in
    if (tv_ID token =? "") || (tv_Status token ≠? "active") ||
       match tv_NotBefore token with Some t => (now <? t)%Z | None => false end ||
       match tv_ExpiresOn token with Some t => negb (now <? t)%Z | None => false end
    then (w, Err (error ErrorAuthentication "verify_token"))
    else
      let '(w, account) := requestAPI accountResult c w (Some ctx)
                             (get_spec "verify_account_scope" ("/accounts/" +:+ accountID c)) in
      match account with
      | Err e => (w, Err e)
      | Ok account =>
        if ac_ID account ≠? accountID c then (w, Err (error ErrorAccountScope "verify_account_scope"))
        else (w, Ok (mkAccess (ac_ID account) (ac_Name account) (tv_ID token) (tv_Status token)
                       (tv_NotBefore token) (tv_ExpiresOn token)))
      end
  end.

(** [fingerprint]: every part is followed by a NUL byte. *)
Fixpoint fingerprint_text (parts : list string) : string :=
  match parts with
  | [] => ""
  | part :: parts => part +:+ String nul (fingerprint_text parts)
  end.
Definition fingerprint (parts : list string) : string := hex_encode (sha256 (fingerprint_text parts)).

(** [runIdempotent]: [others] is what concurrent calls do to the client while
    this one executes or waits without the lock. *)
Definition runIdempotent (c : Client) (w : W) (ctx : context) (order : list string) (others : Client → Client)
    (operation scope key fingerprint : string) (execute : W → W * result Error ivalue)
    : Client * W * result Error ivalue :=
  match idem_begin c order operation (cacheKey operation scope key) fingerprint (world_now w) with
  | (c, StartRefused e) => (c, w, Err e)
  | (c, StartJoin p) =>
    let c := if match entries c !! p with Some e => completed e | None => false end then c else others c in
    match e ← entries c !! p; e_outcome e with
    | Some outcome => (c, w, outcome)
    | None =>
      match ctx with
      | Some (_, Canceled) => (c, w, Err (error ErrorCancelled operation))
      | _ => (c, w, Err (retryable ErrorTimeout operation))
      end
    end
  | (c, StartRun p) =>
    let '(w, outcome) := execute w in
    (idem_finish (others c) p (cacheKey operation scope key) outcome, w, outcome)
  end.

Definition validateModule (c : Client) (module : PrebuiltModule) : bool :=
  scriptNamePattern (ScriptName module) && moduleNamePattern (MainModule module) &&
  (has_suffix ".js" (MainModule module) || has_suffix ".mjs" (MainModule module)) &&
  negb (slen (Source module) =? 0)%Z && (slen (Source module) <=? maxModuleBytes c)%Z &&
  utf8_valid (Source module) && negb (contains_char nul (Source module)) &&
  validMessage (Message module) 1000 && validMessage (Tag module) 100 && idempotencyPattern (IdempotencyKey module).

Definition quote_mark : string := String "034"%char "".

Definition buildVersionMultipart (module : PrebuiltModule) : option (string * string) :=
  let annotations := (if Message module ≠? "" then [("workers/message", Message module)] else []) ++
                     (if Tag module ≠? "" then [("workers/tag", Tag module)] else []) in
  match marshal_metadata (MainModule module) annotations with
  | None => None
  | Some encodedMetadata =>
    let named name := "form-data; name=" +:+ quote_mark +:+ name +:+ quote_mark in
    Some (multipart
      [([("Content-Disposition", named "metadata"); ("Content-Type", "application/json")], encodedMetadata);
       ([("Content-Disposition", named (MainModule module) +:+ "; filename=" +:+ quote_mark +:+ MainModule module +:+ quote_mark);
         ("Content-Type", "application/javascript+module")], Source module)])
  end.

Definition upload_execute (c : Client) (ctx : context) (module : PrebuiltModule) (w : W) : W * result Error ivalue :=
  match buildVersionMultipart module with
  | None => (w, Err (error ErrorValidation "upload_version"))
  | Some (body, contentType) =>
    let '(w, r) := requestAPI versionResult c w (Some ctx)
      (mkSpec "upload_version" "POST"
         ("/accounts/" +:+ accountID c +:+ "/workers/scripts/" +:+ ScriptName module +:+ "/versions")
         [("bindings_inherit", "strict")] body contentType (IdempotencyKey module)) in
    match r with
    | Err e => (w, Err e)
    | Ok v =>
      if negb (uuidPattern (vr_ID v)) || (vr_Number v <? 0)%Z then (w, Err (error ErrorProvider "upload_version"))
      else (w, Ok (VVersion (mkVersion (vr_ID v) (vr_Number v) (vr_CreatedOn v) (ScriptName module)
                               (hex_encode (sha256 (Source module))) (slen (Source module)))))
    end
  end.

Definition module_fingerprint (module : PrebuiltModule) : string :=
  fingerprint [ScriptName module; MainModule module; hex_encode (sha256 (Source module)); Message module; Tag module].

Definition UploadVersion (c : Client) (w : W) (ctx : context) (order : list string) (others : Client → Client)
    (module : PrebuiltModule) : Client * W * result Error Version :=
  if negb (validateModule c module) then (c, w, Err (validationError "upload_version"))
  else
    let '(c, w, value) := runIdempotent c w ctx order others "upload_version" (ScriptName module) (IdempotencyKey module)
                            (module_fingerprint module) (upload_execute c ctx module) in
    (c, w, match value with
           | Err e => Err e
           | Ok (VVersion v) => Ok v
           | Ok _ => Err (error ErrorProvider "upload_version")
           end).

(** The percentages of the code, 100 and the bounds 0.01 and 100.000001, as float64. *)
Definition percent_100 : float64 := S754_finite false 7036874417766400 (-46).
Definition percent_min : float64 := S754_finite false 5764607523034235 (-59).
Definition percent_total : float64 := S754_finite false 7036874488135144 (-46).

Definition convert_percentages (versions : list DeploymentVersion) : option float64 :=
  fold_left (λ total item,
    total ← total;
    if negb (uuidPattern (dv_VersionID item)) ||
       SFltb (dv_Percentage item) percent_min || SFltb percent_100 (dv_Percentage item)
    then None else Some (SFadd 53 1024 total (dv_Percentage item))) versions (Some (S754_zero false)).

Definition convertDeployment (operation scriptName : string) (r : deploymentResult) : result Error Deployment :=
  let fail := Err (error ErrorProvider operation) in
  if negb (uuidPattern (ds_ID r)) || (ds_Strategy r ≠? "percentage") ||
     (Z.of_nat (length (ds_Versions r)) <? 1)%Z || (2 <? Z.of_nat (length (ds_Versions r)))%Z then fail
  else match convert_percentages (ds_Versions r) with
  | None => fail
  | Some total =>
    if SFltb percent_total total then fail
    else Ok (mkDeployment (ds_ID r) scriptName DeploymentStatePending (ds_CreatedOn r) (ds_Source r) (ds_Versions r))
  end.

Definition deploymentHasVersionAt100 (d : Deployment) (versionID : string) : bool :=
  match pd_Versions d with
  | [v] => (dv_VersionID v =? versionID) && SFeqb (dv_Percentage v) percent_100
  | _ => false
  end.

Definition deployments_path (c : Client) (scriptName : string) : string :=
  "/accounts/" +:+ accountID c +:+ "/workers/scripts/" +:+ scriptName +:+ "/deployments".

Definition createDeployment (c : Client) (w : W) (ctx : context)
    (operation scriptName versionID message triggeredBy idempotencyKey : string) : W * result Error Deployment :=
  let annotations := (if message ≠? "" then [("workers/message", message)] else []) ++
                     [("workers/triggered_by", triggeredBy)] in
  match marshal_deployment "percentage" [mkDeploymentVersion versionID percent_100] annotations with
  | None => (w, Err (error ErrorValidation operation))
  | Some body =>
    let '(w, r) := requestAPI deploymentResult c w (Some ctx)
      (mkSpec operation "POST" (deployments_path c scriptName) [] body "application/json" idempotencyKey) in
    match r with
    | Err e => (w, Err e)
    | Ok r => (w, convertDeployment operation scriptName r)
    end
  end.

Definition GetDeployment (c : Client) (w : W) (ctx : context) (scriptName deploymentID : string)
    : W * result Error Deployment :=
  if negb (scriptNamePattern scriptName) || negb (uuidPattern deploymentID) then (w, Err (validationError "get_deployment"))
  else
    let '(w, r) := requestAPI deploymentResult c w (Some ctx)
      (get_spec "get_deployment" (deployments_path c scriptName +:+ "/" +:+ deploymentID)) in
    match r with
    | Err e => (w, Err e)
    | Ok r => (w, convertDeployment "get_deployment" scriptName r)
    end.

Fixpoint convert_all (scriptName : string) (items : list deploymentResult) : result Error (list Deployment) :=
  match items with
  | [] => Ok []
  | item :: items =>
    d ← convertDeployment "list_deployments" scriptName item;
    ds ← convert_all scriptName items;
    Ok (d :: ds)
  end.

Definition ListDeployments (c : Client) (w : W) (ctx : context) (scriptName : string) : W * result Error (list Deployment) :=
  if negb (scriptNamePattern scriptName) then (w, Err (validationError "list_deployments"))
  else
    let '(w, r) := requestAPI deploymentListResult c w (Some ctx)
                     (get_spec "list_deployments" (deployments_path c scriptName)) in
    match r with
    | Err e => (w, Err e)
    | Ok r => (w, convert_all scriptName (dl_Deployments r))
    end.

Definition activate (d : Deployment) : Deployment :=
  mkDeployment (pd_ID d) (pd_ScriptName d) DeploymentStateActive (pd_CreatedAt d) (pd_Source d) (pd_Versions d).

(** What one round of the polling loop decides. *)
Inductive poll_round :=
| PollReturn (r : result Error Deployment)
| PollAgain.

Definition poll_step (c : Client) (w : W) (ctx pollContext : context) (request : WaitDeploymentRequest) : W * poll_round :=
  let wait w :=
    let '(w, done) := select_done w pollContext (pollInterval c) in
    (w, if done then
          PollReturn (Err (if bool_decide (ctx_Err ctx (world_now w) = Some Canceled) then error ErrorCancelled "wait_deployment"
                           else retryable ErrorTimeout "wait_deployment"))
        else PollAgain) in
  let '(w, r) := GetDeployment c w pollContext (wr_ScriptName request) (wr_DeploymentID request) in
  match r with
  | Ok d => if deploymentHasVersionAt100 d (wr_VersionID request) then (w, PollReturn (Ok (activate d))) else wait w
  | Err e =>
    if negb (IsKind e ErrorNotFound) then
      (w, PollReturn (Err (if IsKind e ErrorCancelled && bool_decide (ctx_Err ctx (world_now w) = None)
                           then retryable ErrorTimeout "wait_deployment" else e)))
    else wait w
  end.

(** The loop itself; [None] is a loop that did not end within the fuel. *)
Fixpoint poll (fuel : nat) (c : Client) (w : W) (ctx pollContext : context) (request : WaitDeploymentRequest)
    : W * option (result Error Deployment) :=
  match fuel with
  | O => (w, None)
  | S fuel =>
    match poll_step c w ctx pollContext request with
    | (w, PollReturn r) => (w, Some r)
    | (w, PollAgain) => poll fuel c w ctx pollContext request
    end
  end.

(** Enough rounds for the poll timeout ([poll_enough] below). *)
Definition poll_fuel (c : Client) : nat := S (S (Z.to_nat (pollTimeout c / pollInterval c))).

Definition WaitForDeployment (c : Client) (w : W) (ctx : context) (request : WaitDeploymentRequest)
    : W * result Error Deployment :=
  if negb (scriptNamePattern (wr_ScriptName request)) || negb (uuidPattern (wr_DeploymentID request)) ||
     negb (uuidPattern (wr_VersionID request)) then (w, Err (validationError "wait_deployment"))
  else
    let pollContext := WithTimeout ctx (world_now w) (pollTimeout c) in
    match poll (poll_fuel c) c w ctx pollContext request with
    | (w, Some r) => (w, r)
    | (w, None) => (w, Err (retryable ErrorTimeout "wait_deployment"))
    end.

Definition as_value (r : result Error Deployment) : result Error ivalue :=
  match r with Ok d => Ok (VDeployment d) | Err e => Err e end.

Definition deploy_execute (c : Client) (ctx : context) (request : DeployRequest) (w : W) : W * result Error ivalue :=
  let '(w, created) := createDeployment c w ctx "deploy_version" (dr_ScriptName request) (dr_VersionID request)
                         (dr_Message request) "deployment" (dr_IdempotencyKey request) in
  match created with
  | Err e => (w, Err e)
  | Ok created =>
    let '(w, r) := WaitForDeployment c w ctx (mkWait (dr_ScriptName request) (pd_ID created) (dr_VersionID request)) in
    (w, as_value r)
  end.

Definition DeployVersion (c : Client) (w : W) (ctx : context) (order : list string) (others : Client → Client)
    (request : DeployRequest) : Client * W * result Error Deployment :=
  if negb (validDeploymentInput (dr_ScriptName request) (dr_VersionID request) (dr_Message request) (dr_IdempotencyKey request))
  then (c, w, Err (validationError "deploy_version"))
  else
    let '(c, w, value) := runIdempotent c w ctx order others "deploy_version" (dr_ScriptName request) (dr_IdempotencyKey request)
                            (fingerprint [dr_ScriptName request; dr_VersionID request; dr_Message request])
                            (deploy_execute c ctx request) in
    (c, w, match value with
           | Err e => Err e
           | Ok (VDeployment d) => Ok d
           | Ok _ => Err (error ErrorProvider "deploy_version")
           end).

Definition rollback_execute (c : Client) (ctx : context) (request : RollbackRequest) (w : W) : W * result Error ivalue :=
  let target := rr_TargetVersionID request in
  let '(w, history) := ListDeployments c w ctx (rr_ScriptName request) in
  match history with
  | Err e => (w, Err e)
  | Ok history =>
    let found := existsb (λ d, existsb (λ v, dv_VersionID v =? target) (pd_Versions d)) history in
    if negb found then (w, Err (error ErrorNotFound "rollback"))
    else if match history with d :: _ => deploymentHasVersionAt100 d target | [] => false end
    then (w, Err (error ErrorConflict "rollback"))
    else
      let '(w, created) := createDeployment c w ctx "rollback" (rr_ScriptName request) target (rr_Message request)
                             "rollback" (rr_IdempotencyKey request) in
      match created with
      | Err e => (w, Err e)
      | Ok created =>
        let '(w, r) := WaitForDeployment c w ctx (mkWait (rr_ScriptName request) (pd_ID created) target) in
        (w, as_value r)
      end
  end.

Definition Rollback (c : Client) (w : W) (ctx : context) (order : list string) (others : Client → Client)
    (request : RollbackRequest) : Client * W * result Error Deployment :=
  if negb (validDeploymentInput (rr_ScriptName request) (rr_TargetVersionID request) (rr_Message request) (rr_IdempotencyKey request))
  then (c, w, Err (validationError "rollback"))
  else
    let '(c, w, value) := runIdempotent c w ctx order others "rollback" (rr_ScriptName request) (rr_IdempotencyKey request)
                            (fingerprint [rr_ScriptName request; rr_TargetVersionID request; rr_Message request])
                            (rollback_execute c ctx request) in
    (c, w, match value with
           | Err e => Err e
           | Ok (VDeployment d) => Ok d
           | Ok _ => Err (error ErrorProvider "rollback")
           end).

(** The client as a [Provider] of one caller: nothing else uses it meanwhile. *)
Definition provided {T} (r : result Error T) : result provider_error T :=
  match r with Ok x => Ok x | Err e => Err (ProviderError e) end.

Definition client_provider : Provider (Client * W) := {|
  p_ValidateAccess p ctx := let '(w, r) := ValidateAccess p.1 p.2 ctx in ((p.1, w), provided r);
  p_UploadVersion p ctx m := let '(c, w, r) := UploadVersion p.1 p.2 ctx (map_to_list (idem p.1)).*1 id m in ((c, w), provided r);
  p_DeployVersion p ctx q := let '(c, w, r) := DeployVersion p.1 p.2 ctx (map_to_list (idem p.1)).*1 id q in ((c, w), provided r);
  p_Rollback p ctx q := let '(c, w, r) := Rollback p.1 p.2 ctx (map_to_list (idem p.1)).*1 id q in ((c, w), provided r);
|}.
End client.

(** ** Lemmas *)

Lemma New_bounds config has c :
  New config has = Ok c →
  millisecond ≤ pollInterval c ∧ pollInterval c ≤ pollTimeout c ∧ pollTimeout c ≤ 5 * minute ∧
  1 ≤ maxModuleBytes c ≤ maximumModuleBytes ∧ 1024 ≤ maxResponseBytes c ≤ maximumResponseBytes ∧
  1 ≤ maxIdemEntries c ≤ 100000 ∧ idem c = ∅ ∧ entries c = [].
Proof.
  unfold New. intros E. destruct (_ || _); [done|]. destruct (_ && _); [done|].
  destruct (_ || _) eqn:Eb; [done|]. simplify_eq. repeat rewrite orb_false_iff in Eb.
  destruct_and!. reflect_bools. cbn. split_and!; done.
Qed.

Lemma WithTimeout_deadline ctx now d : ∃ at_ e, WithTimeout ctx now d = Some (at_, e) ∧ at_ ≤ now + d.
Proof.
  unfold WithTimeout. destruct ctx as [[t e]|]; [|eauto with lia]. destruct (Z.leb_spec t (now + d)); eauto with lia.
Qed.

(** The parts of a fingerprint are free of the byte that ends them. *)
Lemma fingerprint_text_inj l k :
  sep_free nul l → sep_free nul k → fingerprint_text l = fingerprint_text k → l = k.
Proof.
  revert k. induction l as [|x l IH]; intros [|y k] Hl Hk E; cbn in E; try done.
  - by destruct y.
  - by destruct x.
  - apply Forall_cons in Hl as [Hx Hl], Hk as [Hy Hk]. apply append_sep_inj in E as [-> E]; [|done..]. f_equal. auto.
Qed.

Lemma head_tail_free first rest lo hi s :
  first 0 = false → rest 0 = false → head_tail first rest lo hi s = true → contains_char nul s = false.
Proof.
  intros Hf Hr. destruct s as [|a t]; [done|]. cbn [head_tail]. intros E. reflect_bools.
  repeat match goal with H : _ && _ = true |- _ => apply andb_true_iff in H as [? ?] end. cbn. apply orb_false_iff. split.
  - apply Ascii.eqb_neq. intros Ea. subst a. unfold char_in in *. change (byte_val nul) with 0 in *. congruence.
  - eapply all_chars_free; [exact Hr|done].
Qed.

Lemma match_classes_free classes s :
  Forall (λ p, p 0 = false) classes → match_classes classes s = true → contains_char nul s = false.
Proof.
  intros Hc. revert s. induction Hc as [|p classes Hp Hc IH]; intros [|a s]; cbn; try done.
  intros [Ha Hs]%andb_true_iff. rewrite IH by done. rewrite orb_false_r. apply Ascii.eqb_neq. intros Ea. subst a.
  unfold char_in in Ha. change (byte_val nul) with 0 in Ha. congruence.
Qed.

Lemma scriptName_free s : scriptNamePattern s = true → contains_char nul s = false.
Proof. by apply head_tail_free. Qed.
Lemma moduleName_free s : moduleNamePattern s = true → contains_char nul s = false.
Proof. by apply head_tail_free. Qed.
Lemma idempotency_free s : idempotencyPattern s = true → contains_char nul s = false.
Proof. by apply head_tail_free. Qed.
Lemma uuid_free s : uuidPattern s = true → contains_char nul s = false.
Proof. apply match_classes_free. repeat constructor. Qed.
Lemma message_free s n : validMessage s n = true → contains_char nul s = false.
Proof. unfold validMessage. intros E. reflect_bools. done. Qed.
Lemma hex_encode_free s : contains_char nul (hex_encode s) = false.
Proof. by apply graphic_free; [|apply hex_encode_graphic]. Qed.

Create HintDb nulfree discriminated.
#[export] Hint Resolve scriptName_free moduleName_free idempotency_free uuid_free message_free hex_encode_free : nulfree.

(** *** Idempotency *)

(** Entries keep their place and fingerprint, and an outcome once recorded
    stays: what concurrent calls may do to the entries of a client. *)
Definition evolves (c c' : Client) : Prop :=
  maxIdemEntries c' = maxIdemEntries c ∧
  ∀ p e, entries c !! p = Some e → ∃ e', entries c' !! p = Some e' ∧ e_fingerprint e' = e_fingerprint e ∧
    (e_outcome e ≠ None → e_outcome e' = e_outcome e).

#[global] Instance evolves_preorder : PreOrder evolves.
Proof.
  split; [intros c; split; eauto|]. intros a b c [Hm1 H1] [Hm2 H2]. split; [congruence|]. intros p e Hp.
  destruct (H1 p e Hp) as (e' & Hp' & Hf & Ho). destruct (H2 p e' Hp') as (e'' & Hp'' & Hf' & Ho').
  exists e''. split; [done|]. split; [congruence|]. intros Hn. rewrite Ho' by (rewrite Ho; done). auto.
Qed.

Lemma oldest_completed_spec c order key entry :
  oldest_completed c order None = Some (key, entry) →
  ∃ p, idem c !! key = Some p ∧ entries c !! p = Some entry ∧ completed entry = true.
Proof.
  assert (∀ old, (∀ k e, old = Some (k, e) → ∃ p, idem c !! k = Some p ∧ entries c !! p = Some e ∧ completed e = true) →
    oldest_completed c order old = Some (key, entry) →
    ∃ p, idem c !! key = Some p ∧ entries c !! p = Some entry ∧ completed entry = true) as Hg; [|by apply Hg].
  induction order as [|k order IH]; cbn [oldest_completed]; [eauto|]. intros old Hold.
  destruct (idem c !! k) as [p|] eqn:Ek; cbn; [|by apply IH].
  destruct (entries c !! p) as [e|] eqn:Ep; [|by apply IH]. apply IH. intros k' e' E.
  destruct (completed e) eqn:Ec; cbn in E; [|eauto]. repeat case_match; simplify_eq; eauto.
Qed.

Lemma evict_cases c order c' b :
  evictOldestCompletedLocked c order = (c', b) →
  entries c' = entries c ∧ maxIdemEntries c' = maxIdemEntries c ∧
  (b = false ∧ c' = c ∨
   b = true ∧ ∃ key p e, idem c !! key = Some p ∧ entries c !! p = Some e ∧ completed e = true ∧ idem c' = delete key (idem c)).
Proof.
  unfold evictOldestCompletedLocked. destruct (oldest_completed c order None) as [[key e]|] eqn:Eo; intros; simplify_eq.
  - apply oldest_completed_spec in Eo as (p & ? & ? & ?). split; [done|]. split; [done|]. right. eauto 10.
  - auto.
Qed.

(** What the first critical section can do. *)
Lemma idem_begin_cases c order operation key fp now c' s :
  idem_begin c order operation key fp now = (c', s) →
  match s with
  | StartRefused e => c' = c ∧ Kind e = ErrorConflict
  | StartJoin p => c' = c ∧ idem c !! key = Some p ∧ ∃ e, entries c !! p = Some e ∧ e_fingerprint e = fp
  | StartRun p =>
    p = length (entries c) ∧ idem c !! key = None ∧ entries c' = entries c ++ [mkEntry fp None now] ∧
    maxIdemEntries c' = maxIdemEntries c ∧
    ∃ m, idem c' = <[key := p]> m ∧
      ((len (idem c) < maxIdemEntries c ∧ m = idem c) ∨
       (maxIdemEntries c ≤ len (idem c) ∧
        ∃ k q e, idem c !! k = Some q ∧ entries c !! q = Some e ∧ completed e = true ∧ m = delete k (idem c)))
  end.
Proof.
  unfold idem_begin. intros E. destruct (idem c !! key) as [p|] eqn:Ek.
  { destruct (entries c !! p) as [e|] eqn:Ep; [|by simplify_eq]. destruct (_ ≠? _) eqn:Ef; simplify_eq; [done|].
    reflect_bools. eauto. }
  destruct (Z.leb_spec (maxIdemEntries c) (len (idem c))).
  - destruct (evictOldestCompletedLocked c order) as [c1 b] eqn:Ev. apply evict_cases in Ev as (He & Hm & Hcase).
    destruct b; cbn in E; simplify_eq.
    + destruct Hcase as [[? _]|(_ & k & q & e & ? & ? & ? & Hd)]; [done|]. cbn. rewrite He. split_and!; try done.
      exists (idem c1). split; [done|]. right. split; [done|]. exists k, q, e. done.
    + destruct Hcase as [[_ ->]|[? _]]; done.
  - cbn in E. simplify_eq. cbn. split_and!; try done. exists (idem c). auto.
Qed.

Lemma idem_begin_evolves c order operation key fp now c' s :
  idem_begin c order operation key fp now = (c', s) → evolves c c'.
Proof.
  intros E. apply idem_begin_cases in E. destruct s as [e|p|p].
  - by destruct E as [-> _].
  - by destruct E as [-> _].
  - destruct E as (_ & _ & He & Hm & _). split; [done|]. intros q e Hq. exists e. rewrite He.
    by rewrite lookup_app_l by (by eapply lookup_lt_Some).
Qed.

Lemma idem_finish_lookup c p key outcome q :
  entries (idem_finish c p key outcome) !! q =
  (if decide (p = q) then (λ e, mkEntry (e_fingerprint e) (Some outcome) (e_createdAt e)) <$> entries c !! q
   else entries c !! q).
Proof.
  unfold idem_finish. cbn. case_decide as Hd; [subst; by rewrite list_lookup_alter_eq|by rewrite list_lookup_alter_ne].
Qed.

Lemma idem_finish_evolves c p e key outcome :
  entries c !! p = Some e → e_outcome e = None → evolves c (idem_finish c p key outcome).
Proof.
  intros Hp Hn. split; [done|]. intros q e' Hq. rewrite idem_finish_lookup. case_decide as Hd; [subst|eauto].
  rewrite Hp in Hq. simplify_eq. rewrite Hp. cbn. eexists. split; [done|]. split; [done|]. done.
Qed.

(** The calls in progress: who executes, with its entry and key. *)
Inductive idem_step : Client * list (nat * string) → Client * list (nat * string) → Prop :=
| step_refused c run order operation key fp now c' e :
    idem_begin c order operation key fp now = (c', StartRefused e) → idem_step (c, run) (c', run)
| step_join c run order operation key fp now c' p :
    idem_begin c order operation key fp now = (c', StartJoin p) → idem_step (c, run) (c', run)
| step_run c run order operation key fp now c' p :
    idem_begin c order operation key fp now = (c', StartRun p) → idem_step (c, run) (c', (p, key) :: run)
| step_finish c run1 run2 p key outcome :
    idem_step (c, run1 ++ (p, key) :: run2) (idem_finish c p key outcome, run1 ++ run2).

(** The invariant: the executing calls have distinct keys, the map sends each
    of these keys to its open entry, and the map is within its limit. *)
Record idem_ok (s : Client * list (nat * string)) : Prop := {
  io_keys : NoDup (s.2.*2);
  io_open p key : (p, key) ∈ s.2 → idem s.1 !! key = Some p ∧ ∃ e, entries s.1 !! p = Some e ∧ e_outcome e = None;
  io_inj k1 k2 p : idem s.1 !! k1 = Some p → idem s.1 !! k2 = Some p → k1 = k2;
  io_valid k p : idem s.1 !! k = Some p → (p < length (entries s.1))%nat;
  io_bound : len (idem s.1) ≤ maxIdemEntries s.1;
  io_limit : 1 ≤ maxIdemEntries s.1;
}.

Lemma idem_ok_run c run order operation key fp now c' p :
  idem_ok (c, run) → idem_begin c order operation key fp now = (c', StartRun p) → idem_ok (c', (p, key) :: run).
Proof.
  intros [Hk Ho Hi Hv Hb Hl] E. cbn in *. apply idem_begin_cases in E as (-> & Hn & He & Hm & m & Hc & Hcase).
  assert (∀ k q, m !! k = Some q → idem c !! k = Some q) as Hsub.
  { destruct Hcase as [[_ ->]|(_ & k0 & ? & ? & _ & _ & _ & ->)]; [done|]. by intros k q [_ ?]%lookup_delete_Some. }
  assert (∀ q k, (q, k) ∈ run → m !! k = Some q) as Hrun.
  { intros q k Hin. destruct (Ho q k Hin) as (Hq & e & Hqe & Hopen).
    destruct Hcase as [[_ ->]|(_ & k0 & q0 & e0 & Hk0 & Hq0 & Hd0 & ->)]; [done|].
    apply lookup_delete_Some. split; [|done]. intros <-. unfold completed in Hd0. simplify_eq. by rewrite Hopen in Hd0. }
  split; cbn; rewrite ?Hc, ?He, ?Hm.
  - constructor; [|done]. intros [[q k] [-> Hin]]%list_elem_of_fmap. cbn in Hn. by destruct (Ho _ _ Hin) as [? _]; congruence.
  - intros q k [[= -> ->]|Hin]%elem_of_cons.
    + rewrite lookup_insert_eq. split; [done|]. rewrite lookup_app_r, Nat.sub_diag by done. eauto.
    + assert (k ≠ key) by (intros ->; destruct (Ho _ _ Hin) as [? _]; congruence). rewrite lookup_insert_ne by done.
      split; [auto|]. destruct (Ho _ _ Hin) as (_ & e & Hqe & Hopen). exists e. split; [|done].
      by apply lookup_app_l_Some.
  - intros k1 k2 q [[<- <-]|[? H1]]%lookup_insert_Some [[<- H2]|[? H2]]%lookup_insert_Some; try done.
    + apply Hsub, Hv in H2. lia.
    + subst. apply Hsub, Hv in H1. lia.
    + eauto.
  - intros k q [[<- <-]|[? H1]]%lookup_insert_Some; rewrite length_app; cbn; [lia|]. apply Hsub, Hv in H1. lia.
  - pose proof (len_insert_le m key (length (entries c))).
    destruct Hcase as [[? ->]|(_ & k0 & q0 & e0 & Hk0 & _ & _ & ->)]; [lia|].
    rewrite (len_delete_old _ _ _ Hk0) in *. lia.
  - done.
Qed.

Lemma idem_ok_finish c run1 run2 p key outcome :
  idem_ok (c, run1 ++ (p, key) :: run2) → idem_ok (idem_finish c p key outcome, run1 ++ run2).
Proof.
  intros [Hk Ho Hi Hv Hb Hl]. cbn in *. rewrite fmap_app, fmap_cons in Hk.
  assert (∀ q k, (q, k) ∈ run1 ++ run2 → k ≠ key ∧ q ≠ p ∧ (q, k) ∈ run1 ++ (p, key) :: run2) as Hother.
  { intros q k Hin.
    assert (k ≠ key) as Hne.
    { intros ->. apply (NoDup_app run1.*2) in Hk as (_ & Hd & [Hn _]%NoDup_cons).
      apply elem_of_app in Hin as [Hin|Hin].
      - apply (Hd key); [|left]. apply list_elem_of_fmap. by exists (q, key).
      - apply Hn. apply list_elem_of_fmap. by exists (q, key). }
    assert ((q, k) ∈ run1 ++ (p, key) :: run2) by set_solver.
    split_and!; [done| |done]. intros ->. apply Hne.
    destruct (Ho p k) as [? _]; [done|]. destruct (Ho p key) as [? _]; [set_solver|]. eauto. }
  assert (∀ k q, idem (idem_finish c p key outcome) !! k = Some q → idem c !! k = Some q) as Hsub.
  { intros k q. unfold idem_finish. cbn. destruct outcome; [done|]. by intros [_ ?]%lookup_delete_Some. }
  split; cbn [fst snd].
  - rewrite fmap_app. apply (NoDup_app run1.*2) in Hk as (? & Hd & [_ ?]%NoDup_cons). apply NoDup_app. split_and!; [done| |done].
    intros k H1 H2. apply (Hd k H1). by right.
  - intros q k Hin. destruct (Hother q k Hin) as (Hne & Hqp & Hin'). destruct (Ho q k Hin') as (Hq & e & He & Hopen). split.
    + unfold idem_finish. cbn. destruct outcome; [done|]. by rewrite lookup_delete_ne.
    + exists e. rewrite idem_finish_lookup. rewrite decide_False by done. done.
  - eauto.
  - intros k q Hq. apply Hsub, Hv in Hq. unfold idem_finish. cbn. by rewrite length_alter.
  - unfold idem_finish. cbn. destruct outcome; [done|]. pose proof (len_delete_le (idem c) key). lia.
  - done.
Qed.

Lemma idem_step_ok s s' : idem_ok s → idem_step s s' → idem_ok s'.
Proof.
  intros Hok Hs. destruct Hs as [c run order op key fp now c' e E|c run order op key fp now c' p E|c run order op key fp now c' p E|].
  - by apply idem_begin_cases in E as [-> _].
  - by apply idem_begin_cases in E as [-> _].
  - by eapply idem_ok_run.
  - by apply idem_ok_finish.
Qed.

Lemma idem_steps_ok s s' : idem_ok s → rtc idem_step s s' → idem_ok s'.
Proof. intros Hok Hr. induction Hr; eauto using idem_step_ok. Qed.

Lemma New_idem_ok config has c : New config has = Ok c → idem_ok (c, []).
Proof.
  intros E. apply New_bounds in E as (_ & _ & _ & _ & _ & Hb & Hi & He).
  split; cbn; rewrite ?Hi, ?He; try lia; try done; try (by constructor); try (by intros ?; rewrite lookup_empty); try (by intros ? ?; rewrite lookup_empty).
  - by intros p key ?%elem_of_nil.
  - unfold len. rewrite map_size_empty. cbn. lia.
Qed.

(** *** Requests, polling and results *)

(** A collision of the hash. *)
Definition collision (sha256 : string → string) : Prop := ∃ x y, x ≠ y ∧ sha256 x = sha256 y.

Section lemmas.
Context (sha256 : string → string).
Context (ParseMediaType : string → option string) (NewRequest : string → string → bool)
  (marshal_metadata : string → list (string * string) → option string)
  (marshal_deployment : string → list DeploymentVersion → list (string * string) → option string)
  (multipart : list (list (string * string) * string) → string * string).
Context {W : Type} `{WorldLaws W}.
Context `{Decode tokenVerifyResult, Decode accountResult, Decode versionResult, Decode deploymentResult,
          Decode deploymentListResult}.
#[local] Abbreviation GetDeployment := (GetDeployment ParseMediaType NewRequest).
#[local] Abbreviation poll_step := (poll_step ParseMediaType NewRequest).
#[local] Abbreviation poll := (poll ParseMediaType NewRequest).
#[local] Abbreviation WaitForDeployment := (WaitForDeployment ParseMediaType NewRequest).
#[local] Abbreviation upload_execute := (upload_execute sha256 ParseMediaType NewRequest marshal_metadata multipart).
#[local] Abbreviation deploy_execute := (deploy_execute ParseMediaType NewRequest marshal_deployment).
#[local] Abbreviation rollback_execute := (rollback_execute ParseMediaType NewRequest marshal_deployment).

Lemma requestAPI_clock {T} `{Decode T} c w ctx spec :
  world_now w ≤ world_now (requestAPI ParseMediaType NewRequest T c w ctx spec).1.
Proof using Type*.
  unfold requestAPI. destruct ctx as [ctx|]; [|done]. destruct (negb _); [done|].
  pose proof (Token_clock w ctx) as Ht. destruct (Token w ctx) as [w1 [tok|]]; [|done]. cbn in Ht.
  destruct (negb _); [done|].
  match goal with |- context [Do w1 ctx ?r] => pose proof (Do_clock w1 ctx r) as Hd; destruct (Do w1 ctx r) as [w2 ans] end.
  cbn in *. lia.
Qed.

Lemma statusError_not_found operation code pc h : Kind (statusError operation code pc h) = ErrorNotFound → code = 404.
Proof. unfold statusError. repeat case_match; cbn; try done. by reflect_bools. Qed.

(** A request under an ended context returns an error of its own. *)
Lemma requestAPI_ended {T} `{Decode T} c w ctx spec e :
  ctx_Err ctx (world_now w) = Some e →
  ∃ err, (requestAPI ParseMediaType NewRequest T c w (Some ctx) spec).2 = Err err ∧ Kind err ≠ ErrorNotFound.
Proof using Type*.
  intros Hc. unfold requestAPI. destruct (negb _); [by eauto|].
  pose proof (Token_clock w ctx) as Ht. destruct (Token w ctx) as [w1 [tok|]]; [|by eauto]. cbn in Ht.
  destruct (negb _); [by eauto|].
  assert (ctx_Err ctx (world_now w1) = Some e) as Hc1.
  { unfold ctx_Err in *. destruct ctx as [[t e']|]; [|done]. destruct (Z.leb_spec t (world_now w)); [|done].
    by rewrite (proj2 (Z.leb_le t (world_now w1))) by lia. }
  match goal with |- context [Do w1 ctx ?r] => destruct (Do_ended w1 ctx r e Hc1) as [de Hde]; destruct (Do w1 ctx r) as [w2 ans] end.
  cbn in *. subst ans. destruct de; eauto.
Qed.

Lemma GetDeployment_clock c w ctx s d : world_now w ≤ world_now (GetDeployment c w ctx s d).1.
Proof using Type*.
  unfold CloudflareProvider.GetDeployment. destruct (_ || _); [done|].
  match goal with |- context [requestAPI ?a ?b ?t c w (Some ctx) ?r] =>
    pose proof (requestAPI_clock (T := t) c w (Some ctx) r) as Hr; destruct (requestAPI a b t c w (Some ctx) r) as [w1 [x|]] end; done.
Qed.

Lemma GetDeployment_ended c w ctx s d e :
  ctx_Err ctx (world_now w) = Some e → ∃ err, (GetDeployment c w ctx s d).2 = Err err ∧ Kind err ≠ ErrorNotFound.
Proof using Type*.
  intros Hc. unfold CloudflareProvider.GetDeployment. destruct (_ || _); [by eauto|].
  match goal with |- context [requestAPI ?a ?b ?t c w (Some ctx) ?r] =>
    destruct (requestAPI_ended (T := t) c w ctx r e Hc) as (err & He & Hk); destruct (requestAPI a b t c w (Some ctx) r) as [w1 x] end.
  cbn in *. subst x. eauto.
Qed.

(** A round that goes on took at least the poll interval and started before
    the context ended. *)
Lemma poll_step_again c w ctx at_ e request w' :
  poll_step c w ctx (Some (at_, e)) request = (w', PollAgain) → world_now w + pollInterval c ≤ world_now w' ∧ world_now w < at_.
Proof using Type*.
  unfold CloudflareProvider.poll_step. intros E.
  pose proof (GetDeployment_clock c w (Some (at_, e)) (wr_ScriptName request) (wr_DeploymentID request)) as Hg.
  pose proof (GetDeployment_ended c w (Some (at_, e)) (wr_ScriptName request) (wr_DeploymentID request)) as Hend.
  destruct (GetDeployment c w _ _ _) as [w1 r]. cbn [fst snd] in *.
  assert (world_now w < at_) as Hlt.
  { destruct (Z.lt_ge_cases (world_now w) at_) as [|Hge]; [done|]. exfalso.
    destruct (Hend e) as (err & -> & Hk).
    - cbn. by rewrite (proj2 (Z.leb_le _ _)).
    - unfold IsKind in E. rewrite (bool_decide_eq_false_2 _ Hk) in E. by simplify_eq. }
  split; [|done]. pose proof (select_timer w1 (Some (at_, e)) (pollInterval c)) as Hs.
  destruct (select_done w1 (Some (at_, e)) (pollInterval c)) as [w2 done]. cbn in Hs.
  assert (done = false ∧ w2 = w') as [-> ->]; [|specialize (Hs eq_refl); lia].
  repeat case_match; simplify_eq; done.
Qed.

Lemma poll_enough c ctx at_ e request fuel w :
  0 < pollInterval c → at_ ≤ world_now w + Z.of_nat fuel * pollInterval c →
  ∃ w' r, poll (S fuel) c w ctx (Some (at_, e)) request = (w', Some r).
Proof using Type*.
  intros Hi. revert w. induction fuel as [|fuel IH]; intros w Hf; cbn [CloudflareProvider.poll];
    destruct (poll_step c w ctx (Some (at_, e)) request) as [w1 [r|]] eqn:Es; eauto;
    apply poll_step_again in Es as [Hadv Hlt]; [lia|]. apply (IH w1). lia.
Qed.

(** What polling can return. *)
Lemma poll_Ok fuel c ctx pc request w w' d :
  poll fuel c w ctx pc request = (w', Some (Ok d)) →
  pd_State d = DeploymentStateActive ∧ pd_ScriptName d = wr_ScriptName request ∧ pd_ID d ≠ "" ∧
  deploymentHasVersionAt100 d (wr_VersionID request) = true.
Proof.
  revert w. induction fuel as [|fuel IH]; intros w; cbn [CloudflareProvider.poll]; [done|].
  destruct (poll_step c w ctx pc request) as [w1 [r|]] eqn:Es; [|apply IH]. intros ?; simplify_eq.
  unfold CloudflareProvider.poll_step, CloudflareProvider.GetDeployment in Es.
  destruct (_ || _); [by repeat (case_match; simplify_eq)|].
  destruct (requestAPI _ _ _ _ _ _ _) as [w2 [x|]] eqn:Er; [|by repeat (case_match; simplify_eq)].
  unfold convertDeployment in Es. destruct (_ || _) eqn:Ev; [by repeat (case_match; simplify_eq)|].
  destruct (convert_percentages _) as [tot|]; [|by repeat (case_match; simplify_eq)].
  destruct (SFltb _ _); [by repeat (case_match; simplify_eq)|].
  destruct (deploymentHasVersionAt100 (mkDeployment _ _ _ _ _ _) _) eqn:Eh; [|by repeat (case_match; simplify_eq)]. simplify_eq. cbn.
  split_and!; [done..| |done]. intros Hid. rewrite Hid in Ev. done.
Qed.

(** What a recorded value says about the request with its fingerprint. *)
Definition module_parts (m : PrebuiltModule) : list string :=
  [ScriptName m; MainModule m; hex_encode (sha256 (Source m)); Message m; Tag m].

Definition version_for (m : PrebuiltModule) (v : Version) : Prop :=
  v_ScriptName v = ScriptName m ∧ v_SHA256 v = hex_encode (sha256 (Source m)) ∧ uuidPattern (v_ID v) = true ∧ 0 ≤ v_Number v.

Definition active_at (script versionID : string) (d : Deployment) : Prop :=
  pd_State d = DeploymentStateActive ∧ pd_ScriptName d = script ∧ pd_ID d ≠ "" ∧ deploymentHasVersionAt100 d versionID = true.

Definition value_ok (fp : string) (v : ivalue) : Prop :=
  match v with
  | VVersion v => ∃ m, sep_free nul (module_parts m) ∧ fp = module_fingerprint sha256 m ∧ version_for m v
  | VDeployment d => ∃ s vid msg, sep_free nul [s; vid; msg] ∧ fp = fingerprint sha256 [s; vid; msg] ∧ active_at s vid d
  end.

Definition entry_ok (e : idempotencyEntry) : Prop := ∀ v, e_outcome e = Some (Ok v) → value_ok (e_fingerprint e) v.
Definition entries_ok (c : Client) : Prop := Forall entry_ok (entries c).

(** What concurrent calls may do while a call runs without the lock. *)
Definition fair (others : Client → Client) : Prop := ∀ c, evolves c (others c) ∧ (entries_ok c → entries_ok (others c)).

Lemma runIdempotent_ok c w ctx order others operation scope key fp (execute : W → W * result Error ivalue) c' w' r :
  entries_ok c → fair others → (∀ w w' v, execute w = (w', Ok v) → value_ok fp v) →
  runIdempotent c w ctx order others operation scope key fp execute = (c', w', r) →
  entries_ok c' ∧ ∀ v, r = Ok v → value_ok fp v.
Proof.
  intros Hok Hfair Hex. unfold runIdempotent. destruct (idem_begin _ _ _ _ _ _) as [c1 s] eqn:Eb. intros E.
  apply idem_begin_cases in Eb. destruct s as [e|p|p].
  - destruct Eb as [-> _]. by simplify_eq.
  - destruct Eb as (-> & _ & e & He & Hfp).
    match type of E with context [if ?b then c else others c] => set (c2 := if b then c else others c) in E end.
    assert (entries_ok c2 ∧ evolves c c2) as [Hok2 Hev].
    { unfold c2. destruct (match entries c !! p with Some _ => _ | None => _ end); [by split; [|reflexivity]|]. destruct (Hfair c). auto. }
    destruct (proj2 Hev p e He) as (e' & He' & Hfp' & _). rewrite He' in E. cbn in E.
    pose proof (Forall_lookup_1 _ _ _ _ Hok2 He') as Heok.
    destruct (e_outcome e') as [o|] eqn:Eo; simplify_eq.
    + split; [done|]. intros v ->. rewrite <-Hfp'. by apply Heok.
    + split; [by repeat case_match; simplify_eq|]. intros v ->. by repeat case_match; simplify_eq.
  - destruct Eb as (-> & _ & He & _). destruct (execute w) as [w1 o] eqn:Ee. simplify_eq.
    assert (entries_ok c1) as Hok1.
    { unfold entries_ok. rewrite He. apply Forall_app. split; [done|]. by constructor. }
    destruct (Hfair c1) as [Hev Hpres]. specialize (Hpres Hok1).
    split; [|intros v ->; eauto]. apply Forall_lookup. intros q e Hq. rewrite idem_finish_lookup in Hq.
    case_decide as Hd; [|by eapply Forall_lookup_1]. subst q.
    destruct (proj2 Hev (length (entries c)) (mkEntry fp None (world_now w))) as (e' & He' & Hfp & _).
    { rewrite He, lookup_app_r, Nat.sub_diag by done. done. }
    rewrite He' in Hq. cbn in Hq. simplify_eq. intros v [= ->]. cbn. rewrite Hfp. eauto.
Qed.

Lemma fingerprint_inj l k :
  sep_free nul l → sep_free nul k → fingerprint sha256 l = fingerprint sha256 k → l = k ∨ collision sha256.
Proof.
  intros Hl Hk E. apply hex_encode_inj in E. destruct (decide (fingerprint_text l = fingerprint_text k)) as [Et|Ne].
  - left. by apply fingerprint_text_inj.
  - right. by exists (fingerprint_text l), (fingerprint_text k).
Qed.

Lemma validateModule_parts c m : validateModule c m = true → sep_free nul (module_parts m).
Proof.
  unfold validateModule. intros E. reflect_bools.
  repeat match goal with G : _ && _ = true |- _ => apply andb_true_iff in G as [? ?] end.
  repeat constructor; eauto with nulfree.
Qed.

Lemma validDeploymentInput_parts s v m k : validDeploymentInput s v m k = true → sep_free nul [s; v; m].
Proof.
  unfold validDeploymentInput. intros E. reflect_bools.
  repeat match goal with G : _ && _ = true |- _ => apply andb_true_iff in G as [? ?] end.
  repeat constructor; eauto with nulfree.
Qed.

Lemma upload_execute_ok c ctx m w w' v :
  sep_free nul (module_parts m) → upload_execute c ctx m w = (w', Ok v) → value_ok (module_fingerprint sha256 m) v.
Proof.
  intros Hm. unfold CloudflareProvider.upload_execute. destruct (buildVersionMultipart _ _ _) as [[body ct]|]; [|done].
  destruct (requestAPI _ _ _ _ _ _ _) as [w1 [x|]]; [|done]. destruct (_ || _) eqn:Ev; [done|]. intros; simplify_eq.
  reflect_bools. exists m. split_and!; done.
Qed.

Lemma wait_Ok c w ctx request w' d :
  WaitForDeployment c w ctx request = (w', Ok d) → active_at (wr_ScriptName request) (wr_VersionID request) d.
Proof.
  unfold CloudflareProvider.WaitForDeployment. destruct (_ || _); [done|].
  destruct (poll _ _ _ _ _ _) as [w1 [r|]] eqn:Ep; [|done]. intros; simplify_eq. by apply poll_Ok in Ep.
Qed.

Lemma deploy_execute_ok c ctx r w w' v :
  sep_free nul [dr_ScriptName r; dr_VersionID r; dr_Message r] → deploy_execute c ctx r w = (w', Ok v) →
  value_ok (fingerprint sha256 [dr_ScriptName r; dr_VersionID r; dr_Message r]) v.
Proof.
  intros Hs. unfold CloudflareProvider.deploy_execute. destruct (createDeployment _ _ _ _ _ _ _ _ _ _ _ _) as [w1 [x|]]; [|done].
  destruct (WaitForDeployment _ _ _ _) as [w2 [d|]] eqn:Ew; [|done]. intros [= <- <-]. apply wait_Ok in Ew. by do 3 eexists.
Qed.

Lemma rollback_execute_ok c ctx r w w' v :
  sep_free nul [rr_ScriptName r; rr_TargetVersionID r; rr_Message r] → rollback_execute c ctx r w = (w', Ok v) →
  value_ok (fingerprint sha256 [rr_ScriptName r; rr_TargetVersionID r; rr_Message r]) v.
Proof.
  intros Hs. unfold CloudflareProvider.rollback_execute. destruct (ListDeployments _ _ _ _ _ _) as [w1 [h|]]; [|done].
  destruct (negb _); [done|]. destruct (match h with [] => _ | _ :: _ => _ end); [done|].
  destruct (createDeployment _ _ _ _ _ _ _ _ _ _ _ _) as [w2 [x|]]; [|done].
  destruct (WaitForDeployment _ _ _ _) as [w3 [d|]] eqn:Ew; [|done]. intros [= <- <-]. apply wait_Ok in Ew. by do 3 eexists.
Qed.
End lemmas.

(** * Properties *)

(** whatever calls are made on a client and however they interleave, at
    most one of them executes for an idempotency key, every other call with
    that key joins it or is refused as a conflict, and the table of keys never
    grows beyond its limit. *)
Theorem provider_single_flight config has c c' run :
  New config has = Ok c → rtc idem_step (c, []) (c', run) →
  NoDup run.*2 ∧ len (idem c') ≤ maxIdemEntries c' ∧
  ∀ p key order operation fp now, (p, key) ∈ run →
    (∃ e, idem_begin c' order operation key fp now = (c', StartRefused e)) ∨
    idem_begin c' order operation key fp now = (c', StartJoin p).
Proof.
  intros HN Hr. pose proof (idem_steps_ok _ _ (New_idem_ok _ _ _ HN) Hr) as [Hk Ho _ _ Hb _]. cbn in *.
  split; [done|]. split; [done|]. intros p key order operation fp now Hin. destruct (Ho p key Hin) as (Hp & e & He & _).
  unfold idem_begin. rewrite Hp, He. destruct (_ ≠? _); eauto.
Qed.

Definition demo_config : Config := mkConfig "0123456789abcdef0123456789abcdef" "" 0 0 0 0 0 1.
Definition demo_client : Client :=
  mkClient "0123456789abcdef0123456789abcdef" "user" defaultPollInterval defaultPollTimeout defaultMaxModuleBytes
    defaultMaxResponseBytes 1 ∅ [].
Definition demo_started : Client := (idem_begin demo_client [] "rollback" "k" "f" 5).1.

Lemma provider_single_flight_witness :
  NoDup [(0%nat, "k")].*2 ∧ len (idem demo_started) ≤ maxIdemEntries demo_started ∧
  ((∃ e, idem_begin demo_started [] "rollback" "k" "g" 6 = (demo_started, StartRefused e)) ∨
   idem_begin demo_started [] "rollback" "k" "g" 6 = (demo_started, StartJoin 0)).
Proof.
  destruct (provider_single_flight demo_config true demo_client demo_started [(0%nat, "k")]) as (H1 & H2 & H3).
  - reflexivity.
  - apply rtc_once. apply (step_run _ _ [] "rollback" "k" "f" 5). reflexivity.
  - split; [exact H1|]. split; [exact H2|]. apply H3. by left.
Defined.

(** once a call for an idempotency key has succeeded, every later call with the
    same key and fingerprint returns the same value and does nothing else, as
    long as the key has not been evicted: the request is not sent again. *)
Theorem provider_replay {W} `{World W} c w ctx order operation scope key fp (execute execute' : W → W * result Error ivalue)
    c1 w1 v c2 w2 ctx2 order2 others2 :
  runIdempotent c w ctx order id operation scope key fp execute = (c1, w1, Ok v) →
  evolves c1 c2 → idem c2 !! cacheKey operation scope key = idem c1 !! cacheKey operation scope key →
  runIdempotent c2 w2 ctx2 order2 others2 operation scope key fp execute' = (c2, w2, Ok v).
Proof.
  intros E Hev Hkey.
  assert (∃ p e, idem c1 !! cacheKey operation scope key = Some p ∧ entries c1 !! p = Some e ∧ e_fingerprint e = fp ∧
            e_outcome e = Some (Ok v)) as (p & e & Hp & He & Hfp & Ho).
  { unfold runIdempotent in E. destruct (idem_begin _ _ _ _ _ _) as [c0 s] eqn:Eb. apply idem_begin_cases in Eb.
    destruct s as [err|p|p]; [by simplify_eq| |].
    - destruct Eb as (-> & Hp & e & He & Hfp). rewrite He in E. cbn in E.
      destruct (completed e); cbn in E; rewrite ?He in E; cbn in E; destruct (e_outcome e) eqn:Eo;
        repeat case_match; simplify_eq; eauto 8.
    - destruct Eb as (-> & _ & He & _ & m & Hm & _). destruct (execute w) as [w0 o]. simplify_eq. cbn.
      rewrite Hm, lookup_insert_eq. do 2 eexists. split; [done|]. rewrite list_lookup_alter_eq, He, lookup_app_r, Nat.sub_diag by done.
      done. }
  destruct (proj2 Hev p e He) as (e' & He' & Hfp' & Ho'). rewrite Ho in Ho'. specialize (Ho' ltac:(done)).
  unfold runIdempotent, idem_begin. rewrite Hkey, Hp, He'. rewrite Hfp', Hfp, String.eqb_refl. cbn. rewrite He'. cbn.
  unfold completed. rewrite Ho'. by rewrite He'; cbn; rewrite Ho'.
Qed.

(** A world without a network: every request fails, waiting advances the clock. *)
#[global] Instance offline : World time := {|
  Do w ctx r := (w, Err match ctx_Err ctx w with Some Canceled => DoCanceled | Some DeadlineExceeded => DoDeadlineExceeded | None => DoOther end);
  Token w ctx := (w, Some "0123456789abcdefghij");
  world_now w := w;
  select_done w ctx d := (w + d, match ctx_Err ctx (w + d) with Some _ => true | None => false end);
|}.

#[global] Instance offline_laws : WorldLaws time.
Proof. split; cbn; intros; try lia. eauto. Qed.

Definition demo_value : ivalue := VVersion (mkVersion "v" 1 None "script" "sha" 3).
Definition demo_execute (w : time) : time * result Error ivalue := (w + 1, Ok demo_value).
Definition demo_done : Client := (runIdempotent demo_client 5 None [] id "upload_version" "script" "k" "f" demo_execute).1.1.

Lemma provider_replay_witness :
  runIdempotent demo_done 9 None [] id "upload_version" "script" "k" "f" (λ w, (w + 100, Err (error ErrorTimeout "x"))) =
  (demo_done, 9, Ok demo_value).
Proof.
  apply (provider_replay demo_client 5 None [] "upload_version" "script" "k" "f" demo_execute _ demo_done 6).
  - reflexivity.
  - reflexivity.
  - reflexivity.
Defined.

Section results.
Context (sha256 : string → string).
Context (ParseMediaType : string → option string) (NewRequest : string → string → bool)
  (marshal_metadata : string → list (string * string) → option string)
  (marshal_deployment : string → list DeploymentVersion → list (string * string) → option string)
  (multipart : list (list (string * string) * string) → string * string).
Context {W : Type} `{World W}.
Context `{Decode tokenVerifyResult, Decode accountResult, Decode versionResult, Decode deploymentResult,
          Decode deploymentListResult}.
#[local] Abbreviation UploadVersion := (UploadVersion sha256 ParseMediaType NewRequest marshal_metadata multipart).
#[local] Abbreviation DeployVersion := (DeployVersion sha256 ParseMediaType NewRequest marshal_deployment).
#[local] Abbreviation Rollback := (Rollback sha256 ParseMediaType NewRequest marshal_deployment).

(** The entries stay truthful, and a result is what its request asked for. *)
Lemma upload_sound c w ctx order others m c' w' r :
  entries_ok sha256 c → fair sha256 others → UploadVersion c w ctx order others m = (c', w', r) →
  entries_ok sha256 c' ∧ (collision sha256 ∨ match r with Ok v => version_for sha256 m v | Err _ => True end).
Proof.
  intros Hok Hf. unfold CloudflareProvider.UploadVersion. destruct (negb _) eqn:Ev; [intros; simplify_eq; auto|].
  apply negb_false_iff, (validateModule_parts sha256) in Ev.
  destruct (runIdempotent _ _ _ _ _ _ _ _ _ _) as [[c1 w1] x] eqn:Er. intros; simplify_eq.
  apply (runIdempotent_ok sha256) in Er as [Hok' Hv]; [|done|done|intros; by eapply upload_execute_ok]. split; [done|].
  destruct x as [[v|d]|e]; [|by right..]. destruct (Hv _ eq_refl) as (m' & Hm' & Hfp & Hfor).
  apply fingerprint_inj in Hfp as [Hp|?]; [|by left|done..]. injection Hp as E1 E2 E3 E4 E5.
  right. unfold version_for in *. rewrite E1, E3. done.
Qed.

Lemma deploy_sound c w ctx order others q c' w' r :
  entries_ok sha256 c → fair sha256 others → DeployVersion c w ctx order others q = (c', w', r) →
  entries_ok sha256 c' ∧ (collision sha256 ∨ match r with Ok d => active_at (dr_ScriptName q) (dr_VersionID q) d | Err _ => True end).
Proof.
  intros Hok Hf. unfold CloudflareProvider.DeployVersion. destruct (negb _) eqn:Ev; [intros; simplify_eq; auto|].
  apply negb_false_iff, validDeploymentInput_parts in Ev.
  destruct (runIdempotent _ _ _ _ _ _ _ _ _ _) as [[c1 w1] x] eqn:Er. intros; simplify_eq.
  apply (runIdempotent_ok sha256) in Er as [Hok' Hv]; [|done|done|intros; by eapply deploy_execute_ok]. split; [done|].
  destruct x as [[v|d]|e]; [by right| |by right]. destruct (Hv _ eq_refl) as (s & v & msg & Hs & Hfp & Hd).
  apply fingerprint_inj in Hfp as [Hp|?]; [|by left|done..]. simplify_eq. by right.
Qed.

Lemma rollback_sound c w ctx order others q c' w' r :
  entries_ok sha256 c → fair sha256 others → Rollback c w ctx order others q = (c', w', r) →
  entries_ok sha256 c' ∧ (collision sha256 ∨ match r with Ok d => active_at (rr_ScriptName q) (rr_TargetVersionID q) d | Err _ => True end).
Proof.
  intros Hok Hf. unfold CloudflareProvider.Rollback. destruct (negb _) eqn:Ev; [intros; simplify_eq; auto|].
  apply negb_false_iff, validDeploymentInput_parts in Ev.
  destruct (runIdempotent _ _ _ _ _ _ _ _ _ _) as [[c1 w1] x] eqn:Er. intros; simplify_eq.
  apply (runIdempotent_ok sha256) in Er as [Hok' Hv]; [|done|done|intros; by eapply rollback_execute_ok]. split; [done|].
  destruct x as [[v|d]|e]; [by right| |by right]. destruct (Hv _ eq_refl) as (s & v & msg & Hs & Hfp & Hd).
  apply fingerprint_inj in Hfp as [Hp|?]; [|by left|done..]. simplify_eq. by right.
Qed.

(** The operations of a client, each with what concurrent calls do meanwhile. *)
Inductive client_step : Client → Client → Prop :=
| step_upload c w ctx order others m c' w' r :
    fair sha256 others → UploadVersion c w ctx order others m = (c', w', r) → client_step c c'
| step_deploy c w ctx order others q c' w' r :
    fair sha256 others → DeployVersion c w ctx order others q = (c', w', r) → client_step c c'
| step_rollback c w ctx order others q c' w' r :
    fair sha256 others → Rollback c w ctx order others q = (c', w', r) → client_step c c'.

Lemma client_steps_ok c c' : entries_ok sha256 c → rtc client_step c c' → entries_ok sha256 c'.
Proof.
  intros Hok Hr. induction Hr as [|c c1 c' Hs _ IH]; [done|]. apply IH.
  destruct Hs as [? ? ? ? ? ? ? ? ? ? E|? ? ? ? ? ? ? ? ? ? E|? ? ? ? ? ? ? ? ? ? E];
    [apply upload_sound in E|apply deploy_sound in E|apply rollback_sound in E]; tauto.
Qed.
End results.

(** a client reports a version as uploaded only with the digest of the very
    bytes of the request, and a deployment or rollback as done only when
    Cloudflare showed that the requested version of the requested script
    serves all traffic; also when the answer comes from the idempotency table
    or from a concurrent call, unless SHA-256 has a collision. *)
Theorem provider_results sha256 ParseMediaType NewRequest marshal_metadata marshal_deployment multipart {W} `{World W}
    `{Decode tokenVerifyResult, Decode accountResult, Decode versionResult, Decode deploymentResult, Decode deploymentListResult}
    config has c0 c w ctx order others :
  New config has = Ok c0 →
  rtc (client_step sha256 ParseMediaType NewRequest marshal_metadata marshal_deployment multipart) c0 c →
  fair sha256 others →
  (∀ m c' w' v, UploadVersion sha256 ParseMediaType NewRequest marshal_metadata multipart c w ctx order others m = (c', w', Ok v) →
     collision sha256 ∨ version_for sha256 m v) ∧
  (∀ q c' w' d, DeployVersion sha256 ParseMediaType NewRequest marshal_deployment c w ctx order others q = (c', w', Ok d) →
     collision sha256 ∨ active_at (dr_ScriptName q) (dr_VersionID q) d) ∧
  (∀ q c' w' d, Rollback sha256 ParseMediaType NewRequest marshal_deployment c w ctx order others q = (c', w', Ok d) →
     collision sha256 ∨ active_at (rr_ScriptName q) (rr_TargetVersionID q) d).
Proof.
  intros HN Hr Hf. apply New_bounds in HN as (_ & _ & _ & _ & _ & _ & _ & He).
  assert (entries_ok sha256 c) as Hok by (eapply client_steps_ok; [|done]; unfold entries_ok; by rewrite He).
  split_and!; intros ? ? ? ? E; [apply upload_sound in E|apply deploy_sound in E|apply rollback_sound in E]; by tauto.
Qed.

(** A world that answers every request, with decoders that read one result. *)
Record online := mkOnline { o_now : time }.
#[global] Instance online_world : World online := {|
  Do w ctx r := (mkOnline (o_now w + 1), match ctx_Err ctx (o_now w) with Some _ => Err DoOther
                                         | None => Ok (mkResponse 200 2 ("{}", false) "application/json" "") end);
  Token w ctx := (w, Some "0123456789abcdefghij");
  world_now := o_now;
  select_done w ctx d := (mkOnline (o_now w + d), match ctx_Err ctx (o_now w + d) with Some _ => true | None => false end);
|}.

#[global] Instance online_laws : WorldLaws online.
Proof. split; cbn; intros; try lia. destruct (ctx_Err ctx (o_now w)); eauto; congruence. Qed.

Definition demo_uuid : string := "01234567-89ab-4cde-8f01-23456789abcd".
Definition demo_decoder {T} (x : T) : Decode T := λ _, Some (mkEnvelope true [] x, "").
Definition demo_deployed : deploymentResult :=
  mkDeploymentResult demo_uuid None "api" "percentage" [mkDeploymentVersion demo_uuid percent_100].
Definition demo_deploy : DeployRequest := mkDeploy "script" demo_uuid "note" "deploy-0001".
Definition demo_deployment : Client * online * result Error Deployment :=
  @DeployVersion id Some (λ _ _, true) (λ _ _ _, Some "{}") online _ (demo_decoder demo_deployed)
    demo_client (mkOnline 5) None [] id demo_deploy.

Lemma provider_results_witness :
  demo_deployment.2 = Ok (activate (mkDeployment demo_uuid "script" "pending" None "api" [mkDeploymentVersion demo_uuid percent_100])) ∧
  (collision id ∨ active_at "script" demo_uuid
     (activate (mkDeployment demo_uuid "script" "pending" None "api" [mkDeploymentVersion demo_uuid percent_100]))).
Proof.
  split; [vm_compute; reflexivity|].
  pose proof (@provider_results id Some (λ _ _, true) (λ _ _, Some "{}") (λ _ _ _, Some "{}") (λ _, ("", "")) online _
    (demo_decoder (mkTokenVerify "t" "active" None None)) (demo_decoder (mkAccount "a" "n"))
    (demo_decoder (mkVersionResult demo_uuid 1 None)) (demo_decoder demo_deployed) (demo_decoder (mkDeploymentList [demo_deployed]))
    demo_config true demo_client demo_client (mkOnline 5) None [] id) as Hr.
  destruct Hr as (_ & Hd & _).
  - reflexivity.
  - apply rtc_refl.
  - intros c. split; [reflexivity|intros H; exact H].
  - refine (Hd demo_deploy demo_deployment.1.1 demo_deployment.1.2 _ _). vm_compute. reflexivity.
Defined.

(** C33: waiting for a deployment always returns, however long Cloudflare takes and
    whatever it answers: a client of any accepted configuration sends at most one status
    request per poll interval until the poll timeout and two more. *)
Theorem polling_terminates ParseMediaType NewRequest {W} `{WorldLaws W} `{Decode deploymentResult} config has c w ctx request :
  New config has = Ok c →
  ∃ w' r, poll ParseMediaType NewRequest (poll_fuel c) c w ctx (WithTimeout ctx (world_now w) (pollTimeout c)) request = (w', Some r).
Proof.
  intros HN. apply New_bounds in HN as (Hi & Hle & _). unfold millisecond in Hi.
  destruct (WithTimeout_deadline ctx (world_now w) (pollTimeout c)) as (at_ & e & -> & Hat).
  apply poll_enough; [done|lia|]. pose proof (Z.mul_succ_div_gt (pollTimeout c) (pollInterval c) ltac:(lia)).
  pose proof (Z.div_pos (pollTimeout c) (pollInterval c) ltac:(lia) ltac:(lia)). nia.
Qed.

Lemma polling_terminates_witness :
  ∃ w' r, @poll Some (λ _ _, true) time offline (demo_decoder demo_deployed) (poll_fuel demo_client) demo_client 5 None
            (WithTimeout None (@world_now time offline 5) (pollTimeout demo_client)) (mkWait "script" demo_uuid demo_uuid) = (w', Some r).
Proof.
  apply (@polling_terminates Some (λ _ _, true) time offline offline_laws (demo_decoder demo_deployed) demo_config true demo_client 5 None
    (mkWait "script" demo_uuid demo_uuid)). reflexivity.
Defined.
