(* ===== verification/CloudflareExecution.v ===== *)
(** * Execution of Cloudflare deployments

    Models [runCloudflareDeployment] and its failure paths of
    [services/control-plane/internal/api/cloudflare_execution.go] over the
    repository of Store: the executor claims a planned deployment, calls the
    provider and records the outcome.  The provider is
    any instance of the [Provider] class of CloudflareProvider.  Between two accesses to
    the repository other requests may change it: [others k] are the operations
    that come before the [k]-th access. *)

From S2P Require Import Prelude GoStrings Encoding AuditTrail Credentials Protocol Model Store CloudflareProvider.

(** The errors of an execution: the one of the claiming update, or a
    [cloudflareExecutionFailure] with its code and HTTP status. *)
Inductive execution_error :=
| ClaimFailed (e : store_error)
| ExecutionFailure (code : string) (status : Z).

Definition classifyCloudflareProviderError (err : provider_error) : string * Z :=
  match err with
  | OtherError => ("cloudflare_provider_failed", 502)
  | ProviderError e =>
    ("cloudflare_" +:+ ErrorKind_string (Kind e),
     match Kind e with
     | ErrorConflict | ErrorNotFound => 409
     | ErrorRateLimited | ErrorTimeout | ErrorTransport => 503
     | _ => 502
     end)
  end.

(** The assignments to the fields of the deployment copy. *)
Definition started (d : CloudflareDeployment) (providerVersionID : string) (at_ : time) : CloudflareDeployment :=
  mkCloudflareDeployment (d_ID d) (d_WorkerID d) (d_VersionID d) (d_PreviousDesiredVersionID d) (d_Kind d)
    "running" true providerVersionID (d_ProviderDeploymentID d) (d_ProviderState d) (d_ErrorCode d)
    (Some at_) (d_FinishedAt d) (d_CreatedAt d) (d_CreatedBy d).
Definition with_version (d : CloudflareDeployment) (providerVersionID : string) : CloudflareDeployment :=
  mkCloudflareDeployment (d_ID d) (d_WorkerID d) (d_VersionID d) (d_PreviousDesiredVersionID d) (d_Kind d)
    (d_State d) (d_ProviderExecutionAllowed d) providerVersionID (d_ProviderDeploymentID d) (d_ProviderState d)
    (d_ErrorCode d) (d_StartedAt d) (d_FinishedAt d) (d_CreatedAt d) (d_CreatedBy d).
Definition finished (d : CloudflareDeployment) (state providerVersionID deploymentID providerState code : string)
    (at_ : time) : CloudflareDeployment :=
  mkCloudflareDeployment (d_ID d) (d_WorkerID d) (d_VersionID d) (d_PreviousDesiredVersionID d) (d_Kind d)
    state (d_ProviderExecutionAllowed d) providerVersionID deploymentID providerState code
    (d_StartedAt d) (Some at_) (d_CreatedAt d) (d_CreatedBy d).

Section execution.
Context {P : Type} `{Provider P}.
Context (others : nat → list op) (ctx : context).

(** The state a step finds when it gets to its [k]-th repository access. *)
Definition meanwhile (k : nat) (m : Memory) : Memory := run_ops m (others k).

Definition failCloudflareDeploymentCode (m : Memory) (running : CloudflareDeployment) (providerVersionID code : string)
    (status : Z) (now : time) : Memory * result execution_error CloudflareDeployment :=
  let failed := finished running "failed" providerVersionID (d_ProviderDeploymentID running) (d_ProviderState running) code now in
  match UpdateWorkerDeployment (meanwhile 2 m) failed "running" with
  | (m', Err _) => (m', Err (ExecutionFailure "persistence_failure" 500))
  | (m', Ok _) => (m', Err (ExecutionFailure code status))
  end.

Definition failCloudflareDeployment (m : Memory) (running : CloudflareDeployment) (err : provider_error) (now : time)
    : Memory * result execution_error CloudflareDeployment :=
  let '(code, status) := classifyCloudflareProviderError err in
  failCloudflareDeploymentCode m running (d_ProviderVersionID running) code status now.

(** The claim at the start: [clock 0] is the start time. *)
Definition claim_deployment (m : Memory) (version : StoredCloudflareWorkerVersion) (deployment : CloudflareDeployment)
    (startedAt : time) : Memory * result execution_error CloudflareDeployment :=
  let providerVersionID := if d_Kind deployment =? "rollback" then wv_ProviderVersionID (sv_Metadata version)
                           else d_ProviderVersionID deployment in
  let running := started deployment providerVersionID startedAt in
  match UpdateWorkerDeployment (meanwhile 0 m) running "ready_for_provider" with
  | (m', Err e) => (m', Err (ClaimFailed e))
  | (m', Ok _) => (m', Ok running)
  end.

(** The upload of a "deploy": the provider's version id, or the failure. *)
Definition upload_step (m : Memory) (p : P) (worker : CloudflareWorker) (version : StoredCloudflareWorkerVersion)
    (running : CloudflareDeployment) (clock : nat → time)
    : Memory * P * result (Memory * result execution_error CloudflareDeployment) string :=
  if negb (d_Kind running =? "deploy") then (m, p, Ok (d_ProviderVersionID running))
  else
    let '(p, uploaded) := p_UploadVersion p ctx (mkModule (w_ScriptName worker) (wv_Entrypoint (sv_Metadata version))
      (sv_Module version) ("vpsmanager deployment " +:+ d_ID running) (d_ID running) (d_ID running +:+ ":upload")) in
    match uploaded with
    | Err e => (m, p, Err (failCloudflareDeployment m running e (clock 2%nat)))
    | Ok u =>
      if (v_ID u =? "") || (v_ScriptName u ≠? w_ScriptName worker) ||
         negb (v_SizeBytes u =? wv_SizeBytes (sv_Metadata version))%Z ||
         ("sha256:" +:+ v_SHA256 u ≠? wv_SHA256 (sv_Metadata version)) then
        (m, p, Err (failCloudflareDeployment m running (ProviderError (error ErrorProvider "upload_version")) (clock 2%nat)))
      else
        let uploadedAt := default (clock 1%nat) (v_CreatedAt u) in
        match UpdateWorkerVersionProvider (meanwhile 1 m) (w_ID worker) (wv_ID (sv_Metadata version)) (v_ID u)
                (v_Number u) uploadedAt with
        | (m', Err _) => (m', p, Err (failCloudflareDeploymentCode m' running (v_ID u) "persistence_failure" 500 (clock 2%nat)))
        | (m', Ok _) => (m', p, Ok (v_ID u))
        end
    end.

Definition release_step (p : P) (worker : CloudflareWorker) (running : CloudflareDeployment) (providerVersionID : string)
    : P * result provider_error Deployment :=
  let message := "vpsmanager deployment " +:+ d_ID running in
  if d_Kind running =? "rollback" then
    p_Rollback p ctx (mkRollback (w_ScriptName worker) providerVersionID message (d_ID running +:+ ":rollback"))
  else p_DeployVersion p ctx (mkDeploy (w_ScriptName worker) providerVersionID message (d_ID running +:+ ":deploy")).

Definition runCloudflareDeployment (m : Memory) (p : P) (worker : CloudflareWorker) (version : StoredCloudflareWorkerVersion)
    (deployment : CloudflareDeployment) (clock : nat → time) : Memory * P * result execution_error CloudflareDeployment :=
  match claim_deployment m version deployment (clock 0%nat) with
  | (m, Err e) => (m, p, Err e)
  | (m, Ok running) =>
    let '(p, access) := p_ValidateAccess p ctx in
    match access with
    | Err e => let '(m, r) := failCloudflareDeployment m running e (clock 2%nat) in (m, p, r)
    | Ok _ =>
      let '(m, p, upload) := upload_step m p worker version running clock in
      match upload with
      | Err (m, r) => (m, p, r)
      | Ok providerVersionID =>
        let '(p, released) := release_step p worker running providerVersionID in
        match released with
        | Err e =>
          let '(m, r) := failCloudflareDeployment m (with_version running providerVersionID) e (clock 2%nat) in (m, p, r)
        | Ok d =>
          if (pd_ID d =? "") || (pd_ScriptName d ≠? w_ScriptName worker) || (pd_State d ≠? DeploymentStateActive) then
            let '(m, r) := failCloudflareDeployment m (with_version running providerVersionID)
                             (ProviderError (error ErrorProvider "deployment_result")) (clock 2%nat) in (m, p, r)
          else
            let succeeded := finished running "succeeded" providerVersionID (pd_ID d) (pd_State d) "" (clock 2%nat) in
            match UpdateWorkerDeployment (meanwhile 2 m) succeeded "running" with
            | (m, Err _) => (m, p, Err (ExecutionFailure "persistence_failure" 500))
            | (m, Ok _) => (m, p, Ok succeeded)
            end
        end
      end
    end
  end.
End execution.

(** ** Lemmas *)

(** Other requests leave a deployment alone unless they update it. *)
Definition leaves (id : string) (o : op) : Prop :=
  match o with OpUpdateWorkerDeployment d _ => d_ID d ≠ id | _ => True end.

Lemma run_op_leaves m o id d :
  leaves id o → workerDeployments m !! id = Some d → workerDeployments (run_op m o) !! id = Some d.
Proof.
  intros Ho Hl. destruct o; cbn in *;
    unfold CreateHost, UpdateHost, DeleteHost, PutCredential, DeleteCredential, CreateJob, MutateJob, AppendAudit,
      CreateWorker, PutWorkerToken, DeleteWorkerToken, CreateWorkerVersion, UpdateWorkerVersionProvider,
      PlanWorkerDeployment, UpdateWorkerDeployment;
    try (repeat case_match; done).
  - repeat case_match; try done. cbn. rewrite lookup_insert_ne by congruence. done.
  - repeat case_match; try done. cbn. by rewrite lookup_insert_ne.
Qed.

(** *** Other executions of the same deployment

    An execution updates its deployment in two ways: it claims it, expecting it
    ready, and finishes it, expecting it running, only after its own claim
    succeeded. *)
Definition finishes (id : string) (o : op) : Prop :=
  match o with OpUpdateWorkerDeployment d expected => d_ID d = id ∧ expected ≠ "ready_for_provider" | _ => False end.
(** The operation claims the deployment, and succeeds. *)
Definition claims (id : string) (m : Memory) (o : op) : bool :=
  match o with
  | OpUpdateWorkerDeployment d expected =>
    (d_ID d =? id) && (expected =? "ready_for_provider") && is_ok (UpdateWorkerDeployment m d expected).2
  | _ => false
  end.
(** Whether one of the operations claims the deployment; [held] before them. *)
Fixpoint held_after (id : string) (m : Memory) (held : bool) (os : list op) : bool :=
  match os with [] => held | o :: os => held_after id (run_op m o) (held || claims id m o) os end.
(** The deployment is finished only by those who hold it. *)
Fixpoint respects (id : string) (m : Memory) (held : bool) (os : list op) : Prop :=
  match os with
  | [] => True
  | o :: os => (finishes id o → held = true) ∧ respects id (run_op m o) (held || claims id m o) os
  end.

(** A running deployment is not claimed again. *)
Lemma run_op_rival m o id d :
  workerDeployments m !! id = Some d → d_State d = "running" → ¬ finishes id o →
  claims id m o = false ∧ workerDeployments (run_op m o) !! id = Some d.
Proof.
  intros Hl Hr Hf. destruct o as [| | | | | | | | | | | | | |d' expected]; try (split; [done|by apply run_op_leaves]).
  destruct (decide (d_ID d' = id)) as [<-|Hne].
  - assert (expected = "ready_for_provider") as -> by (destruct (decide (expected = "ready_for_provider")); [done|by destruct Hf]).
    cbn. unfold UpdateWorkerDeployment. rewrite Hl, Hr. cbn. by destruct (_ ≠? _); rewrite andb_false_r.
  - split; [|by apply run_op_leaves]. cbn. by rewrite (proj2 (String.eqb_neq _ _) Hne).
Qed.

Lemma run_rivals os m id d : respects id m false os → workerDeployments m !! id = Some d → d_State d = "running" →
  workerDeployments (run_ops m os) !! id = Some d.
Proof.
  revert m. induction os as [|o os IH]; cbn; intros m H Hl Hr; [done|]. destruct H as [Hf H].
  destruct (run_op_rival m o id d Hl Hr) as [Hc Hl']; [by intros ?%Hf|]. rewrite Hc in H. by apply IH.
Qed.

(** A rival that holds the deployment when the claim comes makes it fail. *)
Lemma held_not_claimable os m id held d :
  store_ok m → Forall op_allowed os → d_ID d = id →
  (held = true → ∀ os, Forall op_allowed os → ∃ e, UpdateWorkerDeployment (run_ops m os) d "ready_for_provider" = (run_ops m os, Err e)) →
  held_after id m held os = true → ∃ e, UpdateWorkerDeployment (run_ops m os) d "ready_for_provider" = (run_ops m os, Err e).
Proof.
  revert m held. induction os as [|o os IH]; intros m held Hok Hos Hid Hh H; [by apply (Hh H [])|].
  apply Forall_cons in Hos as [Ho Hos]. apply (IH (run_op m o) (held || claims id m o)); [by apply run_op_ok|done|done| |done].
  intros [Hheld|Hc]%orb_true_iff os' Hos'; [by apply (Hh Hheld (o :: os')); constructor|].
  destruct o as [| | | | | | | | | | | | | |d' expected]; try done. cbn in Hc.
  apply andb_true_iff in Hc as [[E1%String.eqb_eq ->%String.eqb_eq]%andb_true_iff Hc]. cbn [run_op].
  destruct (UpdateWorkerDeployment m d' _) as [m1 [[]|]] eqn:E; [|done]. eapply claimed_not_claimable; eauto. congruence.
Qed.

Lemma UpdateWorkerVersionProvider_deployments m w v pv n t :
  workerDeployments (UpdateWorkerVersionProvider m w v pv n t).1 = workerDeployments m.
Proof. unfold UpdateWorkerVersionProvider. by repeat case_match. Qed.

(** A deployment that an executor has claimed. *)
Record claimed (d : CloudflareDeployment) (startedAt : time) : Prop := mkClaimed {
  cl_state : d_State d = "running";
  cl_allowed : d_ProviderExecutionAllowed d = true;
  cl_started : d_StartedAt d = Some startedAt;
  cl_created : d_CreatedAt d ≤ startedAt;
}.

Lemma finish_allowed d startedAt state v pd ps code now :
  claimed d startedAt → startedAt ≤ now →
  (state = "succeeded" ∧ code = "" ∧ v ≠ "" ∧ pd ≠ "" ∧ ps = "active" ∨
   state = "failed" ∧ code ≠ "" ∧ slen code ≤ 128) →
  validWorkerDeploymentTransition d (finished d state v pd ps code now) = true.
Proof.
  intros [Hs Ha Hst Hc] Hn Hcase. unfold validWorkerDeploymentTransition, validFinishedDeployment, finished.
  cbn [d_ID d_WorkerID d_VersionID d_PreviousDesiredVersionID d_Kind d_State d_ProviderExecutionAllowed
       d_ProviderVersionID d_ProviderDeploymentID d_ProviderState d_ErrorCode d_StartedAt d_FinishedAt d_CreatedAt d_CreatedBy].
  rewrite !String.eqb_refl, Z.eqb_refl, Ha, Hs, Hst. cbn [negb orb].
  rewrite (proj2 (Z.ltb_ge _ _) Hc), (proj2 (Z.ltb_ge _ _) Hn).
  destruct Hcase as [(-> & -> & Hv & Hp & ->)|(-> & Hcode & Hl)]; cbn -[slen].
  - by rewrite (proj2 (String.eqb_neq _ _) Hv), (proj2 (String.eqb_neq _ _) Hp).
  - rewrite (proj2 (String.eqb_neq _ _) Hcode). cbn. by apply Z.leb_le.
Qed.

Lemma finish_stored m d startedAt state v pd ps code now :
  claimed d startedAt → startedAt ≤ now → workerDeployments m !! d_ID d = Some d →
  (state = "succeeded" ∧ code = "" ∧ v ≠ "" ∧ pd ≠ "" ∧ ps = "active" ∨
   state = "failed" ∧ code ≠ "" ∧ slen code ≤ 128) →
  let f := finished d state v pd ps code now in
  UpdateWorkerDeployment m f "running" = (with_workerDeployments m (<[d_ID d := f]> (workerDeployments m)), Ok tt).
Proof.
  intros Hcl Hn Hl Hcase f.
  assert (validWorkerDeploymentTransition d f = true) as Hv by (by eapply finish_allowed).
  unfold UpdateWorkerDeployment. change (d_ID f) with (d_ID d). change (d_WorkerID f) with (d_WorkerID d).
  rewrite Hl, String.eqb_refl, Hv, (cl_state _ _ Hcl), cloneWorkerDeployment_id. done.
Qed.

Lemma classify_code err code status :
  classifyCloudflareProviderError err = (code, status) → code ≠ "" ∧ slen code ≤ 128.
Proof. destruct err as [[k ? ? ? ? ?]|]; [destruct k|]; cbn; intros [= <- _]; (split; [done|vm_compute; discriminate]). Qed.

Lemma claim_update_Ok m run startedAt m' :
  d_State run = "running" → d_StartedAt run = Some startedAt →
  UpdateWorkerDeployment m run "ready_for_provider" = (m', Ok tt) →
  claimed run startedAt ∧ d_FinishedAt run = None ∧ workerDeployments m' !! d_ID run = Some run.
Proof.
  intros Hr Hst Eu. unfold UpdateWorkerDeployment in Eu. rewrite cloneWorkerDeployment_id in Eu.
  destruct (workerDeployments _ !! d_ID run) as [cur|] eqn:Ec; [|done]. case_match; [done|].
  destruct (_ || _) eqn:Ev; [done|]. apply orb_false_iff in Ev as [Es Ev].
  injection Eu as <-. reflect_bools. unfold validWorkerDeploymentTransition in Ev.
  destruct (_ || negb (d_ProviderExecutionAllowed run)) eqn:Eg; [done|]. apply orb_false_iff in Eg as [_ Eg].
  rewrite Es, Hr, Hst in Ev. change ("ready_for_provider" =? "ready_for_provider") with true in Ev.
  change ("running" =? "running") with true in Ev. cbn [andb] in Ev.
  destruct (d_FinishedAt run) as [f|] eqn:Ef; [done|]. reflect_bools. split; [by constructor|]. split; [done|].
  cbn [workerDeployments with_workerDeployments]. by rewrite lookup_insert_eq.
Qed.

Section lemmas.
Context {P : Type} `{Provider P} (others : nat → list op) (ctx : context).

(** What the claim leaves behind. *)
Lemma claim_deployment_Ok m version deployment startedAt m' running :
  claim_deployment others m version deployment startedAt = (m', Ok running) →
  d_ID running = d_ID deployment ∧ d_Kind running = d_Kind deployment ∧ claimed running startedAt ∧
  d_FinishedAt running = None ∧ workerDeployments m' !! d_ID running = Some running ∧
  (d_Kind deployment = "rollback" → d_ProviderVersionID running = wv_ProviderVersionID (sv_Metadata version)) ∧
  UpdateWorkerDeployment (meanwhile others 0 m) running "ready_for_provider" = (m', Ok tt).
Proof.
  unfold claim_deployment. intros E.
  destruct (UpdateWorkerDeployment _ _ _) as [m1 [[]|e]] eqn:Eu; simplify_eq.
  pose proof Eu as Eu'. apply (claim_update_Ok _ _ startedAt) in Eu' as (Hc & Hf & Hl); [|done..].
  do 6 (split; [try done|]); [|done]. intros Ek. cbn. by rewrite Ek.
Qed.

(** The stored outcome of a claimed deployment. *)
Definition settled (m : Memory) (running : CloudflareDeployment) (now : time) (r : result execution_error CloudflareDeployment) : Prop :=
  ∃ d, workerDeployments m !! d_ID running = Some d ∧ d_StartedAt d = d_StartedAt running ∧ d_FinishedAt d = Some now ∧
    (d_State d = "succeeded" ∧ r = Ok d ∨
     d_State d = "failed" ∧ ∃ status, r = Err (ExecutionFailure (d_ErrorCode d) status)).

(** From a repository with the claim of this execution, the other requests
    respect the protocol of executions, and none of them holds the deployment. *)
Definition no_rival (running : CloudflareDeployment) : Prop :=
  ∀ k m, (1 ≤ k)%nat → workerDeployments m !! d_ID running = Some running → respects (d_ID running) m false (others k).

Lemma meanwhile_stored k m running startedAt : no_rival running → (1 ≤ k)%nat → claimed running startedAt →
  workerDeployments m !! d_ID running = Some running → workerDeployments (meanwhile others k m) !! d_ID running = Some running.
Proof. intros Hr Hk [Hs _ _ _] Hl. apply run_rivals; [by apply Hr|done|done]. Qed.

Lemma fail_settled m running running' startedAt v code status now :
  claimed running startedAt → startedAt ≤ now → no_rival running →
  workerDeployments m !! d_ID running = Some running → (∃ w, running' = with_version running w) ∨ running' = running →
  code ≠ "" → slen code ≤ 128 →
  let '(m', r) := failCloudflareDeploymentCode others m running' v code status now in settled m' running now r.
Proof.
  intros Hc Hn Ho Hl Hr Hne Hlen. unfold failCloudflareDeploymentCode.
  replace (finished running' "failed" v (d_ProviderDeploymentID running') (d_ProviderState running') code now)
    with (finished running "failed" v (d_ProviderDeploymentID running) (d_ProviderState running) code now)
    by (by destruct Hr as [[w ->]| ->]).
  rewrite (finish_stored _ running startedAt); [|done|done|by eapply meanwhile_stored; (done || lia)|auto].
  eexists. cbn [workerDeployments with_workerDeployments]. rewrite lookup_insert_eq. split; [done|].
  split; [done|]. split; [done|]. right. split; [done|]. by exists status.
Qed.

Lemma fail_provider_settled m running running' startedAt err now :
  claimed running startedAt → startedAt ≤ now → no_rival running →
  workerDeployments m !! d_ID running = Some running → (∃ w, running' = with_version running w) ∨ running' = running →
  let '(m', r) := failCloudflareDeployment others m running' err now in settled m' running now r.
Proof.
  intros Hc Hn Ho Hl Hr. unfold failCloudflareDeployment.
  destruct (classifyCloudflareProviderError err) as [code status] eqn:E. apply classify_code in E as [? ?].
  by eapply fail_settled.
Qed.

Lemma upload_step_settled m p worker version running startedAt clock m' p' x :
  claimed running startedAt → startedAt ≤ clock 2%nat →
  no_rival running →
  workerDeployments m !! d_ID running = Some running →
  upload_step others ctx m p worker version running clock = (m', p', x) →
  match x with
  | Ok v => workerDeployments m' !! d_ID running = Some running ∧
            (d_Kind running = "deploy" ∧ v ≠ "" ∨ d_Kind running ≠ "deploy" ∧ v = d_ProviderVersionID running)
  | Err (m2, r) => settled m2 running (clock 2%nat) r
  end.
Proof.
  intros Hc Hn Ho2 Hl. unfold upload_step. intros E.
  destruct (negb _) eqn:Ek; [simplify_eq; reflect_bools; auto|]. reflect_bools.
  destruct (p_UploadVersion _ _ _) as [p1 [u|e]] eqn:Eu.
  2: { pose proof (fail_provider_settled m running running startedAt e (clock 2%nat) Hc Hn Ho2 Hl (or_intror eq_refl)) as Hf.
       destruct (failCloudflareDeployment _ _ _ _ _). by simplify_eq. }
  destruct (_ || _) eqn:Ec.
  { pose proof (fail_provider_settled m running running startedAt (ProviderError (error ErrorProvider "upload_version")) (clock 2%nat) Hc Hn Ho2 Hl
      (or_intror eq_refl)) as Hf. destruct (failCloudflareDeployment _ _ _ _ _). by simplify_eq. }
  apply (meanwhile_stored 1%nat _ _ startedAt) in Hl; [|done..]. reflect_bools.
  destruct (UpdateWorkerVersionProvider _ _ _ _ _ _) as [m1 [|e]] eqn:Ev; simplify_eq;
    (assert (workerDeployments m' !! d_ID running = Some running) as Hl'
       by (pose proof (UpdateWorkerVersionProvider_deployments (meanwhile others 1 m) (w_ID worker) (wv_ID (sv_Metadata version))
             (v_ID u) (v_Number u) (default (clock 1%nat) (v_CreatedAt u))) as Hd; rewrite Ev in Hd; cbn in Hd; by rewrite Hd));
    [by auto|].
  pose proof (fail_settled m' running running startedAt (v_ID u) "persistence_failure" 500 (clock 2%nat) Hc Hn Ho2 Hl'
    (or_intror eq_refl) ltac:(done) ltac:(vm_compute; discriminate)) as Hf.
  by destruct (failCloudflareDeploymentCode _ _ _ _ _ _ _).
Qed.

Lemma run_settled m p worker version deployment clock m' p' r :
  store_ok m → Forall op_allowed (others 0%nat) →
  (∀ k m1 running, (1 ≤ k)%nat → workerDeployments m1 !! d_ID deployment = Some running → claimed running (clock 0%nat) →
     respects (d_ID deployment) m1 (held_after (d_ID deployment) m false (others 0%nat)) (others k)) →
  clock 0%nat ≤ clock 2%nat →
  d_Kind deployment = "deploy" ∨ d_Kind deployment = "rollback" ∧ wv_ProviderVersionID (sv_Metadata version) ≠ "" →
  runCloudflareDeployment others ctx m p worker version deployment clock = (m', p', r) →
  (∃ e, r = Err (ClaimFailed e) ∧ p' = p) ∨
  ∃ running, d_ID running = d_ID deployment ∧ d_StartedAt running = Some (clock 0%nat) ∧ settled m' running (clock 2%nat) r.
Proof.
  intros Hok Hall Hrely Hn Hk. unfold runCloudflareDeployment. intros E.
  destruct (claim_deployment _ _ _ _ _) as [m1 [running|e]] eqn:Ecl.
  2: { left. simplify_eq. unfold claim_deployment in Ecl. repeat case_match; simplify_eq; eauto. }
  right. exists running. apply claim_deployment_Ok in Ecl as (Hid & Hkind & Hc & Hfin & Hl & Hv & Hup).
  assert (no_rival running) as Ho.
  { intros k m2 Hk1 Hl2. rewrite Hid in *. specialize (Hrely k m2 running Hk1 Hl2 Hc).
    destruct (held_after _ _ _ _) eqn:Eh; [exfalso|done].
    destruct (held_not_claimable (others 0%nat) m (d_ID deployment) false running Hok Hall Hid ltac:(done) Eh) as [e Ee].
    unfold meanwhile in Hup. congruence. }
  split; [done|]. split; [apply Hc|].
  destruct (p_ValidateAccess p ctx) as [p1 [|e]].
  2: { pose proof (fail_provider_settled m1 running running _ e _ Hc Hn Ho Hl (or_intror eq_refl)) as Hf.
       destruct (failCloudflareDeployment _ _ _ _ _). by simplify_eq. }
  destruct (upload_step _ _ _ _ _ _ _ _) as [[m2 p2] x] eqn:Eu.
  apply (upload_step_settled _ _ _ _ _ (clock 0%nat)) in Eu; [|done..]. destruct x as [pv|[m3 r3]]; [|by simplify_eq].
  destruct Eu as [Hl2 Hpv].
  assert (pv ≠ "") as Hne by (destruct Hpv as [[_ ?]|[? ->]]; [done|]; destruct Hk as [?|[? ?]]; [congruence|rewrite Hv; done]).
  destruct (release_step _ _ _ _ _) as [p3 [d|e]].
  2: { pose proof (fail_provider_settled m2 running (with_version running pv) _ e _ Hc Hn Ho Hl2 (or_introl (ex_intro _ pv eq_refl))) as Hf.
       destruct (failCloudflareDeployment _ _ _ _ _). by simplify_eq. }
  destruct (_ || _) eqn:Ed.
  { pose proof (fail_provider_settled m2 running (with_version running pv) _ (ProviderError (error ErrorProvider "deployment_result")) _ Hc Hn Ho Hl2
      (or_introl (ex_intro _ pv eq_refl))) as Hf. destruct (failCloudflareDeployment _ _ _ _ _). by simplify_eq. }
  reflect_bools.
  rewrite (finish_stored _ running (clock 0%nat)) in E; [|done|done|by eapply meanwhile_stored; (done || lia)|].
  2: { left. split_and!; try done. }
  simplify_eq. eexists. cbn [workerDeployments with_workerDeployments]. rewrite lookup_insert_eq. split; [done|].
  split; [done|]. split; [done|]. by left.
Qed.
End lemmas.

(** * Properties *)

(** C32: an execution of a deployment either does not get to claim it, and
    then never calls the provider, or ends with the deployment recorded as
    succeeded, which is what is returned, or as failed with the error code that is
    returned: no deployment is left running.  This holds whatever the provider
    answers at each call and whatever other requests do to the repository between
    the accesses of this execution, other executions of the same deployment
    included: they may claim it at any time, and update it further once a claim of
    theirs has succeeded, as [runCloudflareDeployment] does. *)
Theorem execution_settles {P} `{Provider P} (others : nat → list op) ctx m p worker version deployment clock m' p' r :
  let id := d_ID deployment in
  store_ok m → Forall op_allowed (others 0%nat) →
  (∀ k m1 running, (1 ≤ k)%nat → workerDeployments m1 !! id = Some running → claimed running (clock 0%nat) →
     respects id m1 (held_after id m false (others 0%nat)) (others k)) →
  clock 0%nat ≤ clock 2%nat →
  d_Kind deployment = "deploy" ∨ d_Kind deployment = "rollback" ∧ wv_ProviderVersionID (sv_Metadata version) ≠ "" →
  runCloudflareDeployment others ctx m p worker version deployment clock = (m', p', r) →
  (∃ e, r = Err (ClaimFailed e) ∧ p' = p) ∨
  ∃ d, workerDeployments m' !! id = Some d ∧
    d_StartedAt d = Some (clock 0%nat) ∧ d_FinishedAt d = Some (clock 2%nat) ∧
    (d_State d = "succeeded" ∧ r = Ok d ∨
     d_State d = "failed" ∧ ∃ status, r = Err (ExecutionFailure (d_ErrorCode d) status)).
Proof.
  intros id Hok Hall Hrely Hc Hk E.
  destruct (run_settled others ctx _ _ _ _ _ _ _ _ _ Hok Hall Hrely Hc Hk E) as [?|(running & Hid & Hs & d & Hl & Hd)]; [by left|].
  right. exists d. unfold id. rewrite <-Hid, <-Hs. done.
Qed.

(** A provider that logs its calls and refuses the upload. *)
#[global] Instance LogProvider : Provider (list string) := {|
  p_ValidateAccess log _ := (log ++ ["validate"], Ok (mkAccess "acct" "" "" "active" None None));
  p_UploadVersion log _ m := (log ++ [IdempotencyKey m], Err (ProviderError (error ErrorRateLimited "upload_version")));
  p_DeployVersion log _ d := (log ++ [dr_IdempotencyKey d], Err OtherError);
  p_Rollback log _ d := (log ++ [rr_IdempotencyKey d], Err OtherError);
|}.

Definition demo_planned : CloudflareDeployment := Store.demo_deployment "dep_1" "ready_for_provider" false None.
Definition demo_worker : CloudflareWorker := mkCloudflareWorker "wrk_1" "w" "acct" "script" "v1" 1 1 1.
Definition demo_uploaded : StoredCloudflareWorkerVersion :=
  mkStoredCloudflareWorkerVersion (mkCloudflareWorkerVersion "v1" "wrk_1" "sha256:" 1 "" "main.js" "" "" 0 None 1 "") "x".
(** A second execution tries to claim the deployment at every access. *)
Definition demo_rival (k : nat) : list op :=
  match k with O => [] | _ => [OpUpdateWorkerDeployment (started demo_planned "" 201) "ready_for_provider"] end.
Definition demo_run : Memory * list string * result execution_error CloudflareDeployment :=
  runCloudflareDeployment demo_rival None demo_store [] demo_worker demo_uploaded demo_planned (λ k, 200 + Z.of_nat k).

Lemma execution_settles_witness :
  (∃ e, demo_run.2 = Err (ClaimFailed e) ∧ demo_run.1.2 = []) ∨
  ∃ d, workerDeployments demo_run.1.1 !! "dep_1" = Some d ∧
    d_StartedAt d = Some 200 ∧ d_FinishedAt d = Some 202 ∧
    (d_State d = "succeeded" ∧ demo_run.2 = Ok d ∨
     d_State d = "failed" ∧ ∃ status, demo_run.2 = Err (ExecutionFailure (d_ErrorCode d) status)).
Proof.
  refine (execution_settles demo_rival None demo_store [] demo_worker demo_uploaded demo_planned (λ k, 200 + Z.of_nat k)
    demo_run.1.1 demo_run.1.2 demo_run.2 _ _ _ _ _ _).
  - apply run_ops_ok; [repeat constructor|apply NewMemory_ok].
  - constructor.
  - intros [|k] m1 running Hk _ _; [lia|]. split; [by intros [_ []]|exact I].
  - vm_compute. discriminate.
  - left. reflexivity.
  - unfold demo_run. by destruct (runCloudflareDeployment _ _ _ _ _ _ _ _) as [[]].
Defined.

(** The refused upload is what was recorded. *)
Example demo_run_failed :
  demo_run.2 = Err (ExecutionFailure "cloudflare_rate_limited" 503) ∧ demo_run.1.2 = ["validate"; "dep_1:upload"].
Proof. by vm_compute. Qed.

(** once an executor has claimed a deployment, every other execution of
    it, at any later state of the repository and whatever else runs, is refused
    before it calls the provider. *)
Theorem provider_called_once {P} `{Provider P} (others others' : nat → list op) ctx m version deployment startedAt m1 running
    os p worker' version' deployment' clock :
  store_ok m → Forall op_allowed (others 0%nat) → Forall op_allowed os → Forall op_allowed (others' 0%nat) →
  claim_deployment others m version deployment startedAt = (m1, Ok running) →
  d_ID deployment' = d_ID deployment →
  ∃ e m2, runCloudflareDeployment others' ctx (run_ops m1 os) p worker' version' deployment' clock =
          (m2, p, Err (ClaimFailed e)) ∧ m2 = meanwhile others' 0 (run_ops m1 os).
Proof.
  intros Hok Ho Hos Ho' Hcl Hid. apply claim_deployment_Ok in Hcl as (Hrid & _ & _ & _ & _ & _ & Hup).
  unfold runCloudflareDeployment, claim_deployment, meanwhile.
  assert (run_ops (run_ops m1 os) (others' 0%nat) = run_ops m1 (os ++ others' 0%nat)) as ->
    by (unfold run_ops; by rewrite fold_left_app).
  destruct (claimed_not_claimable _ _ m1 (os ++ others' 0%nat)
    (started deployment' (if d_Kind deployment' =? "rollback" then wv_ProviderVersionID (sv_Metadata version')
                          else d_ProviderVersionID deployment') (clock 0%nat)) (run_ops_ok _ _ Ho Hok) Hup) as [e ->].
  - by apply Forall_app.
  - cbn. congruence.
  - eauto.
Qed.

(** The state after the claim, and after the executor has recorded a failure. *)
Definition demo_claimed : Memory * result execution_error CloudflareDeployment :=
  claim_deployment (λ _, []) demo_store demo_uploaded demo_planned 200.
Definition demo_after : list op :=
  [OpUpdateWorkerDeployment (finished (started demo_planned "" 200) "failed" "" "" "" "cloudflare_rate_limited" 202) "running"].

Lemma provider_called_once_witness :
  ∃ e m2, runCloudflareDeployment (λ _, []) None (run_ops demo_claimed.1 demo_after) ["log"] demo_worker demo_uploaded
            demo_planned (λ _, 300) = (m2, ["log"], Err (ClaimFailed e)) ∧
          m2 = meanwhile (λ _, []) 0 (run_ops demo_claimed.1 demo_after).
Proof.
  apply (provider_called_once (λ _, []) (λ _, []) None demo_store demo_uploaded demo_planned 200
    demo_claimed.1 (started demo_planned "" 200) demo_after).
  - apply run_ops_ok; [repeat constructor|apply NewMemory_ok].
  - constructor.
  - repeat constructor.
  - constructor.
  - apply injective_projections; [reflexivity|vm_compute; reflexivity].
  - reflexivity.
Defined.
