(* ===== verification/Runbook.v ===== *)
(** * The runbook catalog and its executor

    Models [services/runbook/types.go], [catalog.go] and [executor.go]: the
    reviewed operations with their literal shell commands, the seals and the
    scope digest, and the executor that runs the steps of a plan in order
    until the first failure.  SHA-256 is a parameter; the runner that executes
    a step over SSH is an argument with a state of its own. *)

From S2P Require Import Prelude GoStrings Encoding.

Definition CatalogVersion := "2026-08-29.1".

Definition ActionCapabilities := "system_capabilities_v1".
Definition ActionUpdateCheck := "package_update_check_v1".
Definition ActionServiceStatus := "service_status_v1".
Definition ActionServiceRestart := "service_restart_v1".
Definition ActionTimezoneSet := "timezone_set_v1".
Definition ActionProcessSIGTERM := "process_sigterm_v1".
Definition ActionHostRebootPlan := "host_reboot_plan_v1".

Definition ServiceNginx := "nginx".
Definition ServiceSSH := "ssh".
Definition ServiceDocker := "docker".
Definition ServiceCron := "cron".

Definition TimezoneUTC := "UTC".
Definition TimezoneShanghai := "Asia/Shanghai".
Definition TimezoneNewYork := "America/New_York".
Definition TimezoneLondon := "Europe/London".

Record Parameters := mkParameters {
  Service : string;
  Timezone : string;
  PID : Z;
  ProcessStartTicks : Z;
}.
Definition Parameters_zero : Parameters := mkParameters "" "" 0 0.
#[global] Instance Parameters_eq_dec : EqDecision Parameters.
Proof. solve_decision. Defined.

Inductive Phase := PhasePreflight | PhaseEvidence | PhaseApply | PhaseVerify.
#[global] Instance Phase_eq_dec : EqDecision Phase.
Proof. solve_decision. Defined.
Definition Phase_string (p : Phase) : string :=
  match p with
  | PhasePreflight => "preflight" | PhaseEvidence => "evidence" | PhaseApply => "apply" | PhaseVerify => "verify"
  end.

Record ActionDefinition := mkActionDefinition {
  def_ID : string;
  def_Version : Z;
  Title : string;
  Mutating : bool;
  Emergency : bool;
  RetryPolicy : string;
}.

Record Step := mkStep {
  step_id : string;
  step_phase : Phase;
  step_description : string;
  step_command : string;
  step_timeout : duration;
  step_seal : string;
}.

Record Plan := mkPlan {
  plan_definition : ActionDefinition;
  plan_parameters : Parameters;
  plan_steps : list Step;
}.

Inductive plan_error := ErrInvalidPlan | ErrCatalog (e : string).

Definition definitions : gmap string ActionDefinition := list_to_map
  [(ActionCapabilities, mkActionDefinition ActionCapabilities 1 "Inspect host capabilities" false false "never");
   (ActionUpdateCheck, mkActionDefinition ActionUpdateCheck 1 "Inspect cached package updates" false false "never");
   (ActionServiceStatus, mkActionDefinition ActionServiceStatus 1 "Inspect service status" false false "never");
   (ActionServiceRestart, mkActionDefinition ActionServiceRestart 1 "Restart an approved service" true true "never");
   (ActionTimezoneSet, mkActionDefinition ActionTimezoneSet 1 "Set an approved timezone" true true "never");
   (ActionProcessSIGTERM, mkActionDefinition ActionProcessSIGTERM 1 "Send SIGTERM to a bound process" true true "never");
   (ActionHostRebootPlan, mkActionDefinition ActionHostRebootPlan 1 "Schedule a host reboot in one minute" true true "never")].

Definition Definitions : list ActionDefinition :=
  omap (λ id, definitions !! id)
    [ActionCapabilities; ActionUpdateCheck; ActionServiceStatus; ActionServiceRestart; ActionTimezoneSet;
     ActionProcessSIGTERM; ActionHostRebootPlan].

(** ** Command texts *)

(** The double quote, which the shell texts contain. *)
Definition dq : string := String "034" "".

Definition capabilitiesCommand : string :=
  join newline
  ["LC_ALL=C";
   "printf 'init\t'; if command -v systemctl >/dev/null; then printf 'systemd\n'; else printf 'unknown\n'; fi";
   "for tool in sudo systemctl timedatectl shutdown apt apt-get dnf yum apk; do if command -v " +:+ dq +:+ "$tool" +:+ dq +:+ " >/dev/null; then printf 'tool\t%s\n' " +:+ dq +:+ "$tool" +:+ dq +:+ "; fi; done";
   "printf 'timezone\t'; (timedatectl show --property=Timezone --value 2>/dev/null || date +%Z)"].

Definition updateCheckCommand : string :=
  join newline
  ["LC_ALL=C";
   "if command -v apt >/dev/null; then apt list --upgradable 2>/dev/null || true";
   "elif command -v dnf >/dev/null; then dnf --cacheonly --quiet check-update 2>/dev/null || test " +:+ dq +:+ "$?" +:+ dq +:+ " -eq 100";
   "elif command -v yum >/dev/null; then yum --cacheonly --quiet check-update 2>/dev/null || test " +:+ dq +:+ "$?" +:+ dq +:+ " -eq 100";
   "elif command -v apk >/dev/null; then apk version -l '<' 2>/dev/null";
   "else printf 'unsupported package manager\n'; exit 3; fi"].


Definition privilegePreflight (tool : string) : string :=
  "LC_ALL=C command -v " +:+ tool +:+ " >/dev/null; command -v sudo >/dev/null; sudo -n true".

Definition serviceStatusCommands : gmap string string := list_to_map
  [(ServiceNginx, "LC_ALL=C systemctl show --no-pager --property=Id,Description,LoadState,ActiveState,SubState,UnitFileState,MainPID nginx.service");
   (ServiceSSH, "LC_ALL=C systemctl show --no-pager --property=Id,Description,LoadState,ActiveState,SubState,UnitFileState,MainPID ssh.service");
   (ServiceDocker, "LC_ALL=C systemctl show --no-pager --property=Id,Description,LoadState,ActiveState,SubState,UnitFileState,MainPID docker.service");
   (ServiceCron, "LC_ALL=C systemctl show --no-pager --property=Id,Description,LoadState,ActiveState,SubState,UnitFileState,MainPID cron.service")].

Record commandPair := mkCommandPair { evidence : string; apply_ : string; verify : string }.

Definition status_of (service : string) : string := default "" (serviceStatusCommands !! service).

Definition serviceRestartCommands : gmap string commandPair := list_to_map
  [(ServiceNginx, mkCommandPair (status_of ServiceNginx) "LC_ALL=C sudo -n systemctl restart nginx.service"
      "LC_ALL=C systemctl is-active --quiet nginx.service; systemctl show --no-pager --property=ActiveState,SubState,MainPID nginx.service");
   (ServiceSSH, mkCommandPair (status_of ServiceSSH) "LC_ALL=C sudo -n systemctl restart ssh.service"
      "LC_ALL=C systemctl is-active --quiet ssh.service; systemctl show --no-pager --property=ActiveState,SubState,MainPID ssh.service");
   (ServiceDocker, mkCommandPair (status_of ServiceDocker) "LC_ALL=C sudo -n systemctl restart docker.service"
      "LC_ALL=C systemctl is-active --quiet docker.service; systemctl show --no-pager --property=ActiveState,SubState,MainPID docker.service");
   (ServiceCron, mkCommandPair (status_of ServiceCron) "LC_ALL=C sudo -n systemctl restart cron.service"
      "LC_ALL=C systemctl is-active --quiet cron.service; systemctl show --no-pager --property=ActiveState,SubState,MainPID cron.service")].

Definition timezone_pair (zone : string) : commandPair :=
  mkCommandPair "" ("LC_ALL=C sudo -n timedatectl set-timezone " +:+ zone)
    ("LC_ALL=C test " +:+ dq +:+ "$(timedatectl show --property=Timezone --value)" +:+ dq +:+ " = '" +:+ zone +:+ "'").

Definition timezoneCommands : gmap string commandPair := list_to_map
  [(TimezoneUTC, timezone_pair "UTC"); (TimezoneShanghai, timezone_pair "Asia/Shanghai");
   (TimezoneNewYork, timezone_pair "America/New_York"); (TimezoneLondon, timezone_pair "Europe/London")].

(** ** [time.Duration.String] *)

(** [fmtFrac]: the [prec] lowest decimal digits of [v] as a fraction without
    trailing zeros, in front of [buf], and what is left of [v]. *)
Fixpoint fmtFrac (prec : nat) (print : bool) (v : Z) (buf : string) : string * Z :=
  match prec with
  | O => (if print then "." +:+ buf else buf, v)
  | S prec' =>
    let digit := v mod 10 in
    let print := print || negb (digit =? 0)%Z in
    fmtFrac prec' print (v / 10) (if print then String (byte_of (48 + digit)) buf else buf)
  end.

Definition duration_String (d : duration) : string :=
  let u := Z.abs d in
  let text :=
    if (u <? second)%Z then
      if (u =? 0)%Z then "0s"
      else if (u <? 1000)%Z then itoa u +:+ "ns"
      else if (u <? 1000000)%Z then
        let '(f, v) := fmtFrac 3 false u (String "194" (String "181" "s")) in itoa v +:+ f
      else let '(f, v) := fmtFrac 6 false u "ms" in itoa v +:+ f
    else
      let '(f, v) := fmtFrac 9 false u "s" in
      let s := itoa (v mod 60) +:+ f in
      let v := v / 60 in
      if (v =? 0)%Z then s
      else
        let s := itoa (v mod 60) +:+ "m" +:+ s in
        let v := v / 60 in
        if (v =? 0)%Z then s else itoa v +:+ "h" +:+ s
  in if (d <? 0)%Z then "-" +:+ text else text.

(** ** Steps *)

Definition newStep (id : string) (phase : Phase) (description command : string) (timeout : duration) : Step :=
  mkStep id phase description command timeout "".

Definition readOnlySteps (prefix description ev : string) : list Step :=
  [newStep (prefix +:+ "-preflight") PhasePreflight "check basic POSIX host capability" "LC_ALL=C id -u; uname -sr" (10 * second);
   newStep (prefix +:+ "-evidence") PhaseEvidence description ev (60 * second)].

Definition mutatingSteps (prefix ev ap ve : string) : list Step :=
  [newStep (prefix +:+ "-preflight") PhasePreflight "check systemctl and non-interactive sudo" (privilegePreflight "systemctl") (10 * second);
   newStep (prefix +:+ "-evidence") PhaseEvidence "record the current approved service state" ev (10 * second);
   newStep (prefix +:+ "-apply") PhaseApply "apply the approved service restart once" ap (20 * second);
   newStep (prefix +:+ "-verify") PhaseVerify "verify the approved service is active" ve (15 * second)].

Definition timezoneSteps (commands : commandPair) : list Step :=
  [newStep "timezone-preflight" PhasePreflight "check timedatectl and non-interactive sudo" (privilegePreflight "timedatectl") (10 * second);
   newStep "timezone-evidence" PhaseEvidence "record the current timezone" "LC_ALL=C timedatectl show --property=Timezone --value" (10 * second);
   newStep "timezone-apply" PhaseApply "set the approved timezone" (apply_ commands) (15 * second);
   newStep "timezone-verify" PhaseVerify "verify the selected timezone" (verify commands) (10 * second)].

(** [test "$(awk '{print $22}' /proc/PID/stat...)"] *)
Definition awk22 : string := "$(awk '{print $22}' /proc/".

Definition processSteps (pid ticks : string) : list Step :=
  let preflight := "LC_ALL=C; test " +:+ pid +:+ " -ne 1; test " +:+ pid +:+ " -ne " +:+ dq +:+ "$$" +:+ dq +:+
    "; test " +:+ pid +:+ " -ne " +:+ dq +:+ "$PPID" +:+ dq +:+ "; test -e /proc/" +:+ pid +:+ "/exe; test " +:+ dq +:+
    awk22 +:+ pid +:+ "/stat)" +:+ dq +:+ " = " +:+ dq +:+ ticks +:+ dq +:+ "; command -v sudo >/dev/null" in
  let evidence := "LC_ALL=C ps -p " +:+ pid +:+ " -o pid=,ppid=,user=,stat=,etimes=,comm=" in
  let apply := "LC_ALL=C; test " +:+ dq +:+ awk22 +:+ pid +:+ "/stat 2>/dev/null)" +:+ dq +:+ " = " +:+ dq +:+ ticks +:+ dq +:+
    "; sudo -n kill -TERM -- " +:+ pid in
  let verify := "LC_ALL=C; current=" +:+ awk22 +:+ pid +:+ "/stat 2>/dev/null || true); test " +:+ dq +:+ "$current" +:+ dq +:+
    " != " +:+ dq +:+ ticks +:+ dq in
  [newStep "process-preflight" PhasePreflight "reject reserved, self, kernel-thread, and stale process targets" preflight (10 * second);
   newStep "process-evidence" PhaseEvidence "record non-secret process identity" evidence (10 * second);
   newStep "process-apply" PhaseApply "send SIGTERM once to the bound process instance" apply (10 * second);
   newStep "process-verify" PhaseVerify "verify the original process instance exited" verify (15 * second)].

Definition rebootSteps : list Step :=
  [newStep "reboot-preflight" PhasePreflight "check shutdown and non-interactive sudo" (privilegePreflight "shutdown") (10 * second);
   newStep "reboot-evidence" PhaseEvidence "record uptime and logged-in sessions" "LC_ALL=C uptime; who" (10 * second);
   newStep "reboot-apply" PhaseApply "schedule a reboot in one minute" "LC_ALL=C sudo -n shutdown -r +1 'vpsmanager approved reboot'" (10 * second);
   newStep "reboot-verify" PhaseVerify "verify a shutdown is scheduled" "LC_ALL=C shutdown --show" (10 * second)].

Definition buildSteps (action : string) (p : Parameters) : result plan_error (list Step * Parameters) :=
  if action =? ActionCapabilities then
    if negb (bool_decide (p = Parameters_zero)) then Err (ErrCatalog "capabilities does not accept parameters")
    else Ok (readOnlySteps "capabilities" "collect supported host tools" capabilitiesCommand, p)
  else if action =? ActionUpdateCheck then
    if negb (bool_decide (p = Parameters_zero)) then Err (ErrCatalog "update check does not accept parameters")
    else Ok (readOnlySteps "updates" "inspect cached package update metadata" updateCheckCommand, p)
  else if action =? ActionServiceStatus then
    match serviceStatusCommands !! Service p with
    | Some command =>
      if (Timezone p ≠? "") || negb (PID p =? 0)%Z || negb (ProcessStartTicks p =? 0)%Z then
        Err (ErrCatalog "service status requires exactly one approved service")
      else Ok (readOnlySteps "service-status" "inspect approved service state" command, p)
    | None => Err (ErrCatalog "service status requires exactly one approved service")
    end
  else if action =? ActionServiceRestart then
    match serviceRestartCommands !! Service p with
    | Some commands =>
      if (Timezone p ≠? "") || negb (PID p =? 0)%Z || negb (ProcessStartTicks p =? 0)%Z then
        Err (ErrCatalog "service restart requires exactly one approved service")
      else Ok (mutatingSteps "service-restart" (evidence commands) (apply_ commands) (verify commands), p)
    | None => Err (ErrCatalog "service restart requires exactly one approved service")
    end
  else if action =? ActionTimezoneSet then
    match timezoneCommands !! Timezone p with
    | Some commands =>
      if (Service p ≠? "") || negb (PID p =? 0)%Z || negb (ProcessStartTicks p =? 0)%Z then
        Err (ErrCatalog "timezone set requires exactly one approved timezone")
      else Ok (timezoneSteps commands, p)
    | None => Err (ErrCatalog "timezone set requires exactly one approved timezone")
    end
  else if action =? ActionProcessSIGTERM then
    if (Service p ≠? "") || (Timezone p ≠? "") || (PID p <? 100)%Z || (ProcessStartTicks p =? 0)%Z then
      Err (ErrCatalog "SIGTERM requires PID >= 100 and a positive process start tick")
    else Ok (processSteps (itoa (PID p)) (itoa (ProcessStartTicks p)), p)
  else if action =? ActionHostRebootPlan then
    if negb (bool_decide (p = Parameters_zero)) then Err (ErrCatalog "host reboot plan does not accept parameters")
    else Ok (rebootSteps, p)
  else Err (ErrCatalog "unsupported runbook action").

(** ** Execution *)

Record CommandResult := mkCommandResult {
  cr_Stdout : string;
  cr_Stderr : string;
  cr_ExitCode : Z;
  cr_Duration : duration;
}.

(** The errors a runner can return, as [errors.Is] classifies them. *)
Inductive run_error := DeadlineExceeded | Canceled | ErrOutputLimit | RunInvalidPlan | RunOther (e : string).

Inductive StepState := StepSucceeded | StepFailed | StepCanceled.
#[global] Instance StepState_eq_dec : EqDecision StepState.
Proof. solve_decision. Defined.
Definition StepState_string (s : StepState) : string :=
  match s with StepSucceeded => "succeeded" | StepFailed => "failed" | StepCanceled => "canceled" end.

Record StepResult := mkStepResult {
  sr_ID : string;
  sr_Phase : Phase;
  sr_State : StepState;
  sr_Stdout : string;
  sr_Stderr : string;
  sr_ExitCode : Z;
  sr_Duration : duration;
  sr_ErrorCode : string;
}.

Record Execution := mkExecution {
  Status : string;
  Steps : list StepResult;
  Stopped : bool;
}.

Definition classifyError (err : option run_error) (exitCode : Z) : string :=
  match err with
  | Some DeadlineExceeded => "step_timeout"
  | Some Canceled => "step_canceled"
  | Some ErrOutputLimit => "output_limit"
  | _ =>
    if negb (exitCode =? 0)%Z then "nonzero_exit"
    else match err with
    | Some _ => "execution_error"
    | None => "exit_" +:+ itoa exitCode
    end
  end.

Section runbook.
Context (sha256 : string → string).

Definition sealStep (step : Step) : string :=
  sha256 (join nul [step_id step; Phase_string (step_phase step); step_description step; step_command step;
                    duration_String (step_timeout step)]).

Definition IsReviewedCatalogStep (s : Step) : bool := step_seal s =? sealStep s.

Definition set_seal (s : Step) : Step :=
  mkStep (step_id s) (step_phase s) (step_description s) (step_command s) (step_timeout s) (sealStep s).

Definition Build (action : string) (version : Z) (parameters : Parameters) : result plan_error Plan :=
  match definitions !! action with
  | None => Err (ErrCatalog "action and version are not in the runbook catalog")
  | Some definition =>
    if negb (version =? def_Version definition)%Z then
      Err (ErrCatalog "action and version are not in the runbook catalog")
    else
      '(steps, normalized) ← buildSteps action parameters;
      Ok (mkPlan definition normalized (map set_seal steps))
  end.

Definition scope_fields (hostID jobID : string) (plan : Plan) : list string :=
  [CatalogVersion; def_ID (plan_definition plan); itoa (def_Version (plan_definition plan)); hostID; jobID;
   Service (plan_parameters plan); Timezone (plan_parameters plan); itoa (PID (plan_parameters plan));
   itoa (ProcessStartTicks (plan_parameters plan))].

Definition ScopeDigest (hostID jobID : string) (plan : Plan) : result plan_error string :=
  match definitions !! def_ID (plan_definition plan) with
  | None => Err ErrInvalidPlan
  | Some _ =>
    if bool_decide (plan_steps plan = []) then Err ErrInvalidPlan
    else Ok (hex_encode (sha256 (join newline (scope_fields hostID jobID plan))))
  end.

(** The runner: its state, the step, its result and error.  [elapsed] is what
    [time.Since] measured, [cancelled] whether the caller's context is
    cancelled after the step. *)
Context {R : Type}.
Context (run : R → Step → R * (CommandResult * option run_error)).
Context (elapsed : R → duration) (cancelled : R → bool).

Definition step_failed (res : CommandResult) (err : option run_error) : bool :=
  bool_decide (err ≠ None) || negb (cr_ExitCode res =? 0)%Z.

(** The [StepResult] of one iteration of the loop, in the runner state after
    the step. *)
Definition step_outcome (r : R) (step : Step) (res : CommandResult) (err : option run_error) : StepResult :=
  let d := if (cr_Duration res <=? 0)%Z then elapsed r else cr_Duration res in
  let failed := step_failed res err in
  mkStepResult (step_id step) (step_phase step)
    (if failed then
       match err with
       | Some Canceled | Some DeadlineExceeded => StepCanceled
       | _ => if cancelled r then StepCanceled else StepFailed
       end
     else StepSucceeded)
    (cr_Stdout res) (cr_Stderr res) (cr_ExitCode res) d
    (if failed then classifyError err (cr_ExitCode res) else "").

Fixpoint execute_steps (r : R) (steps : list Step) (acc : list StepResult) : R * Execution :=
  match steps with
  | [] => (r, mkExecution "succeeded" acc false)
  | step :: rest =>
    let '(r', (res, err)) := run r step in
    let acc' := acc ++ [step_outcome r' step res err] in
    if step_failed res err then (r', mkExecution "failed" acc' true)
    else execute_steps r' rest acc'
  end.

Definition Execution_zero : Execution := mkExecution "" [] false.

Definition Execute (r : R) (plan : Plan) : R * Execution * option plan_error :=
  if bool_decide (plan_steps plan = []) then (r, Execution_zero, Some ErrInvalidPlan)
  else if negb (forallb IsReviewedCatalogStep (plan_steps plan)) then (r, Execution_zero, Some ErrInvalidPlan)
  else let '(r', e) := execute_steps r (plan_steps plan) [] in (r', e, None).
End runbook.

(** ** Lemmas: the catalog *)

Definition approved_services : list string := [ServiceNginx; ServiceSSH; ServiceDocker; ServiceCron].
Definition approved_timezones : list string := [TimezoneUTC; TimezoneShanghai; TimezoneNewYork; TimezoneLondon].

(** The parameters each action accepts. *)
Definition approved (action : string) (p : Parameters) : Prop :=
  (action ∈ [ActionCapabilities; ActionUpdateCheck; ActionHostRebootPlan] ∧ p = Parameters_zero) ∨
  (action ∈ [ActionServiceStatus; ActionServiceRestart] ∧ ∃ s, s ∈ approved_services ∧ p = mkParameters s "" 0 0) ∨
  (action = ActionTimezoneSet ∧ ∃ z, z ∈ approved_timezones ∧ p = mkParameters "" z 0 0) ∨
  (action = ActionProcessSIGTERM ∧ Service p = "" ∧ Timezone p = "" ∧ 100 ≤ PID p ∧ ProcessStartTicks p ≠ 0).

Lemma serviceStatus_approved s c : serviceStatusCommands !! s = Some c → s ∈ approved_services.
Proof.
  intros H%elem_of_list_to_map_2. apply (list_elem_of_fmap_2 fst) in H. exact H.
Qed.

Lemma serviceRestart_approved s c : serviceRestartCommands !! s = Some c → s ∈ approved_services.
Proof.
  intros H%elem_of_list_to_map_2. apply (list_elem_of_fmap_2 fst) in H. exact H.
Qed.

Lemma timezone_approved s c : timezoneCommands !! s = Some c → s ∈ approved_timezones.
Proof.
  intros H%elem_of_list_to_map_2. apply (list_elem_of_fmap_2 fst) in H. exact H.
Qed.

#[global] Arguments readOnlySteps : simpl never.
#[global] Arguments mutatingSteps : simpl never.
#[global] Arguments timezoneSteps : simpl never.
#[global] Arguments processSteps : simpl never.
#[global] Arguments rebootSteps : simpl never.

(** The shape of the steps of an accepted action. *)
Inductive built : string → Parameters → list Step → Prop :=
| built_capabilities :
    built ActionCapabilities Parameters_zero
      (readOnlySteps "capabilities" "collect supported host tools" capabilitiesCommand)
| built_updates :
    built ActionUpdateCheck Parameters_zero
      (readOnlySteps "updates" "inspect cached package update metadata" updateCheckCommand)
| built_status s c :
    s ∈ approved_services → serviceStatusCommands !! s = Some c →
    built ActionServiceStatus (mkParameters s "" 0 0)
      (readOnlySteps "service-status" "inspect approved service state" c)
| built_restart s c :
    s ∈ approved_services → serviceRestartCommands !! s = Some c →
    built ActionServiceRestart (mkParameters s "" 0 0)
      (mutatingSteps "service-restart" (evidence c) (apply_ c) (verify c))
| built_timezone z c :
    z ∈ approved_timezones → timezoneCommands !! z = Some c →
    built ActionTimezoneSet (mkParameters "" z 0 0) (timezoneSteps c)
| built_process pid ticks :
    100 ≤ pid → ticks ≠ 0 →
    built ActionProcessSIGTERM (mkParameters "" "" pid ticks) (processSteps (itoa pid) (itoa ticks))
| built_reboot : built ActionHostRebootPlan Parameters_zero rebootSteps.

Lemma buildSteps_built action p steps p' :
  buildSteps action p = Ok (steps, p') → p' = p ∧ built action p steps.
Proof.
  unfold buildSteps. intros H. destruct p as [s z pid ticks]. cbn [Service Timezone PID ProcessStartTicks] in *.
  repeat match type of H with
  | (if String.eqb ?a ?b then _ else _) = _ => destruct (String.eqb_spec a b) as [->|]
  | match ?m !! ?k with Some _ => _ | None => _ end = _ => destruct (m !! k) eqn:?
  | (if ?b then _ else _) = _ => destruct b eqn:?
  end; simplify_eq; reflect_bools; subst; (split; [done|]).
  - match goal with H : mkParameters _ _ _ _ = _ |- _ => rewrite H end. constructor.
  - match goal with H : mkParameters _ _ _ _ = _ |- _ => rewrite H end. constructor.
  - constructor; [by eapply serviceStatus_approved|done].
  - constructor; [by eapply serviceRestart_approved|done].
  - constructor; [by eapply timezone_approved|done].
  - by constructor.
  - match goal with H : mkParameters _ _ _ _ = _ |- _ => rewrite H end. constructor.
Qed.

(** Every definition of the catalog is listed under its own id, with version
    one, and is an emergency action exactly when it mutates. *)
Definition mutating_actions : list string :=
  [ActionServiceRestart; ActionTimezoneSet; ActionProcessSIGTERM; ActionHostRebootPlan].

Lemma definitions_facts action d :
  definitions !! action = Some d →
  def_ID d = action ∧ def_Version d = 1 ∧ Emergency d = Mutating d ∧
  Mutating d = bool_decide (action ∈ mutating_actions).
Proof.
  intros H%elem_of_list_to_map_2. unfold definitions in H.
  repeat (apply elem_of_cons in H as [[= -> ->]|H]; [vm_compute; by auto|]). by apply elem_of_nil in H.
Qed.

Lemma Build_Ok sha256 action version p plan :
  Build sha256 action version p = Ok plan →
  ∃ d steps, definitions !! action = Some d ∧ version = 1 ∧ built action p steps ∧
    plan = mkPlan d p (map (set_seal sha256) steps).
Proof.
  unfold Build. destruct (definitions !! action) as [d|] eqn:Ed; [|done]. case_match eqn:Ev; [done|].
  intros ([steps p'] & Hb & H)%bind_Ok_inv. simplify_eq. apply buildSteps_built in Hb as [-> Hb].
  reflect_bools. destruct (definitions_facts _ _ Ed) as (_ & E & _).
  exists d, steps. split_and!; [done|congruence|done..].
Qed.

Lemma set_seal_reviewed sha256 steps : forallb (IsReviewedCatalogStep sha256) (map (set_seal sha256) steps) = true.
Proof.
  induction steps as [|s steps IH]; [done|]. cbn. rewrite IH, andb_true_r. apply String.eqb_refl.
Qed.

(** The phases and limits of the steps of an accepted action. *)
Lemma built_shape action p steps :
  built action p steps →
  map step_phase steps = (if bool_decide (action ∈ mutating_actions)
    then [PhasePreflight; PhaseEvidence; PhaseApply; PhaseVerify] else [PhasePreflight; PhaseEvidence]) ∧
  Forall (λ s, 10 * second ≤ step_timeout s ≤ 60 * second) steps ∧ approved action p.
Proof.
  intros [| |s c Hs Hc|s c Hs Hc|z c Hz Hc|pid ticks Hpid Ht|].
  - split_and!; [done|repeat constructor; vm_compute; discriminate|]. left. set_solver.
  - split_and!; [done|repeat constructor; vm_compute; discriminate|]. left. set_solver.
  - split_and!; [done|repeat constructor; vm_compute; discriminate|]. right; left. split; [set_solver|eauto].
  - split_and!; [done|repeat constructor; vm_compute; discriminate|]. right; left. split; [set_solver|eauto].
  - split_and!; [done|repeat constructor; vm_compute; discriminate|]. right; right; left. eauto.
  - split_and!; [done|repeat constructor; vm_compute; discriminate|]. right; right; right. done.
  - split_and!; [done|repeat constructor; vm_compute; discriminate|]. left. set_solver.
Qed.

(** The parameters of an accepted action contain no line break. *)
Lemma approved_line_free action p :
  approved action p → sep_free newline [Service p; Timezone p].
Proof.
  assert (∀ l s, forallb (λ x, negb (contains_char newline x)) l = true → s ∈ l → contains_char newline s = false) as Hl.
  { intros l s Hall Hin. rewrite forallb_forall in Hall. apply negb_true_iff, Hall. by apply list_elem_of_In. }
  intros [(_ & ->)|[(_ & s & Hs & ->)|[(_ & z & Hz & ->)|(_ & -> & -> & _)]]];
    repeat apply Forall_cons_2; try done; (eapply Hl; [|eassumption]); done.
Qed.

Lemma definitions_line_free action d : definitions !! action = Some d → contains_char newline action = false.
Proof.
  intros H%elem_of_list_to_map_2. unfold definitions in H.
  repeat (apply elem_of_cons in H as [[= -> ->]|H]; [done|]). by apply elem_of_nil in H.
Qed.

Lemma ScopeDigest_Ok sha256 h j plan digest :
  ScopeDigest sha256 h j plan = Ok digest → digest = hex_encode (sha256 (join newline (scope_fields h j plan))).
Proof. unfold ScopeDigest. case_match; [|done]. case_bool_decide; [done|]. congruence. Qed.

(** The scope digest of catalog plans binds the action, the host, the job and
    every parameter, unless SHA-256 has a collision. *)
Lemma ScopeDigest_binds sha256 a1 v1 p1 plan1 h1 j1 a2 v2 p2 plan2 h2 j2 digest :
  Build sha256 a1 v1 p1 = Ok plan1 → Build sha256 a2 v2 p2 = Ok plan2 →
  sep_free newline [h1; j1; h2; j2] →
  ScopeDigest sha256 h1 j1 plan1 = Ok digest → ScopeDigest sha256 h2 j2 plan2 = Ok digest →
  (a1 = a2 ∧ v1 = v2 ∧ p1 = p2 ∧ h1 = h2 ∧ j1 = j2) ∨ ∃ x y, x ≠ y ∧ sha256 x = sha256 y.
Proof.
  intros B1 B2 Hsep D1 D2.
  apply Build_Ok in B1 as (d1 & s1 & E1 & -> & Hb1 & ->). apply Build_Ok in B2 as (d2 & s2 & E2 & -> & Hb2 & ->).
  pose proof (definitions_facts _ _ E1) as (I1 & V1 & _). pose proof (definitions_facts _ _ E2) as (I2 & V2 & _).
  apply built_shape in Hb1 as (_ & _ & A1%approved_line_free), Hb2 as (_ & _ & A2%approved_line_free).
  apply ScopeDigest_Ok in D1, D2. rewrite D1 in D2. apply hex_encode_inj in D2.
  match type of D2 with sha256 ?x = sha256 ?y =>
    destruct (decide (x = y)) as [Ex|Ex]; [|right; by exists x, y] end. left. clear D2.
  unfold sep_free in Hsep, A1, A2. rewrite !Forall_cons in Hsep. rewrite !Forall_cons in A1.
  rewrite !Forall_cons in A2. destruct Hsep as (? & ? & ? & ? & _).
  destruct A1 as (? & ? & _), A2 as (? & ? & _).
  apply join_inj in Ex; [|done|..].
  - unfold scope_fields in Ex. cbn in Ex. injection Ex as Hid _ Hh Hj Hs Hz Hp%itoa_inj Ht%itoa_inj.
    split_and!; try done; [congruence|]. destruct p1, p2; cbn in *; congruence.
  - unfold scope_fields. cbn. rewrite I1. repeat apply Forall_cons_2; try done;
      try (by apply itoa_free); by eapply definitions_line_free.
  - unfold scope_fields. cbn. rewrite I2. repeat apply Forall_cons_2; try done;
      try (by apply itoa_free); by eapply definitions_line_free.
Qed.

(** ** Lemmas: the executor *)

Section executor.
Context {R : Type} (run : R → Step → R * (CommandResult * option run_error)).
Context (elapsed : R → duration) (cancelled : R → bool).

(** The state of the runner after it ran the steps one after the other. *)
Definition ran (r : R) (steps : list Step) : R := foldl (λ r s, (run r s).1) r steps.

Definition succeeded (s : StepResult) : Prop := sr_State s = StepSucceeded.

Lemma step_outcome_state r s res err :
  succeeded (step_outcome elapsed cancelled r s res err) ↔ step_failed res err = false.
Proof.
  unfold succeeded, step_outcome. destruct (step_failed res err); cbn; [|done].
  split; [|done]. by repeat case_match.
Qed.

Lemma execute_steps_spec r steps acc r' e :
  execute_steps run elapsed cancelled r steps acc = (r', e) →
  ∃ done_ rest results, steps = done_ ++ rest ∧ Steps e = acc ++ results ∧
    map sr_ID results = map step_id done_ ∧ map sr_Phase results = map step_phase done_ ∧ r' = ran r done_ ∧
    (Stopped e = false ∧ Status e = "succeeded" ∧ rest = [] ∧ Forall succeeded results ∨
     Stopped e = true ∧ Status e = "failed" ∧
       ∃ init last, results = init ++ [last] ∧ Forall succeeded init ∧ ¬ succeeded last).
Proof.
  revert r acc. induction steps as [|s steps IH]; intros r acc H; cbn in H.
  - simplify_eq. exists [], [], []. split_and!; try done; [by rewrite app_nil_r|]. by left.
  - destruct (run r s) as [r1 [res err]] eqn:Er. destruct (step_failed res err) eqn:Ef.
    + simplify_eq. exists [s], steps, [step_outcome elapsed cancelled r' s res err].
      split_and!; try done; [unfold ran; cbn; by rewrite Er|]. right. split_and!; [done..|].
      exists [], (step_outcome elapsed cancelled r' s res err). split_and!; [done..|].
      rewrite step_outcome_state. congruence.
    + apply IH in H as (d & rest & results & -> & Es & Hid & Hph & -> & Hcase).
      exists (s :: d), rest, (step_outcome elapsed cancelled r1 s res err :: results).
      assert (succeeded (step_outcome elapsed cancelled r1 s res err)) as Hok by (by apply step_outcome_state).
      split_and!; [done|by rewrite Es, <-app_assoc|cbn; by rewrite Hid|cbn; by rewrite Hph|unfold ran; cbn; by rewrite Er|].
      destruct Hcase as [(? & ? & ? & ?)|(? & ? & init & last & -> & ? & ?)]; [left|right].
      * split_and!; try done. by constructor.
      * split_and!; [done..|]. exists (step_outcome elapsed cancelled r1 s res err :: init), last.
        split_and!; [done| |done]. by constructor.
Qed.
End executor.

(** Every command text an action other than the process signal can run. *)
Definition catalog_commands : list string :=
  map step_command
    (readOnlySteps "" "" capabilitiesCommand ++ readOnlySteps "" "" updateCheckCommand ++ rebootSteps ++
     concat (map (λ s, readOnlySteps "" "" (status_of s)) approved_services) ++
     concat (map (λ s, match serviceRestartCommands !! s with
                       | Some c => mutatingSteps "" (evidence c) (apply_ c) (verify c) | None => [] end) approved_services) ++
     concat (map (λ z, match timezoneCommands !! z with
                       | Some c => timezoneSteps c | None => [] end) approved_timezones)).

Definition from_catalog (s : Step) : Prop := step_command s ∈ catalog_commands.
#[global] Instance from_catalog_dec s : base.Decision (from_catalog s).
Proof. unfold from_catalog. apply _. Defined.

(** A command table checked entry by entry. *)
Lemma table_commands {A} (table : list (string * A)) (steps : A → list Step) s c :
  (list_to_map table : gmap string A) !! s = Some c →
  forallb (λ e, bool_decide (Forall from_catalog (steps e.2))) table = true → Forall from_catalog (steps c).
Proof.
  intros H%elem_of_list_to_map_2 Hall. rewrite forallb_forall in Hall.
  specialize (Hall (s, c)). cbn in Hall. apply (bool_decide_unpack _), Is_true_true, Hall. by apply list_elem_of_In.
Qed.

Lemma built_commands action p steps :
  action ≠ ActionProcessSIGTERM → built action p steps → Forall from_catalog steps.
Proof.
  intros Hne Hb. revert Hne. destruct Hb as [| |s c Hs Hc|s c Hs Hc|z c Hz Hc| |]; intros Hne; [..|done|].
  - apply (bool_decide_unpack _). vm_compute. exact I.
  - apply (bool_decide_unpack _). vm_compute. exact I.
  - eapply (table_commands _ (λ c, readOnlySteps "service-status" "inspect approved service state" c)); [exact Hc|].
    vm_compute. reflexivity.
  - eapply (table_commands _ (λ c, mutatingSteps "service-restart" (evidence c) (apply_ c) (verify c))); [exact Hc|].
    vm_compute. reflexivity.
  - eapply (table_commands _ timezoneSteps); [exact Hc|]. vm_compute. reflexivity.
  - apply (bool_decide_unpack _). vm_compute. exact I.
Qed.

(** * Properties *)

(** a plan that [Build] accepts consists of sealed catalog steps in the
    order preflight, evidence and, exactly for mutating (and then emergency) actions, apply
    and verify, each with a timeout between 10 and 60 seconds, and its parameters are on the
    approved lists: a catalog service, a catalog timezone, or a process id of at least 100. *)
Theorem build_reviewed sha256 action version p plan :
  Build sha256 action version p = Ok plan →
  forallb (IsReviewedCatalogStep sha256) (plan_steps plan) = true ∧
  map step_phase (plan_steps plan) =
    (if Mutating (plan_definition plan) then [PhasePreflight; PhaseEvidence; PhaseApply; PhaseVerify]
     else [PhasePreflight; PhaseEvidence]) ∧
  Emergency (plan_definition plan) = Mutating (plan_definition plan) ∧
  Forall (λ s, 10 * second ≤ step_timeout s ≤ 60 * second) (plan_steps plan) ∧
  plan_parameters plan = p ∧ approved action p.
Proof.
  intros (d & steps & Hd & _ & Hb & ->)%Build_Ok. cbn [plan_steps plan_definition plan_parameters].
  destruct (definitions_facts _ _ Hd) as (_ & _ & He & Hm). destruct (built_shape _ _ _ Hb) as (Hph & Ht & Ha).
  rewrite Hm, <-Hph, map_map. split_and!; try done.
  - apply set_seal_reviewed.
  - congruence.
  - by apply Forall_map.
Qed.

Definition demo_plan : Plan :=
  match Build id ActionServiceRestart 1 (mkParameters ServiceNginx "" 0 0) with Ok p => p | Err _ => mkPlan (mkActionDefinition "" 0 "" false false "") Parameters_zero [] end.

Lemma build_reviewed_witness :
  map step_phase (plan_steps demo_plan) = [PhasePreflight; PhaseEvidence; PhaseApply; PhaseVerify].
Proof.
  apply (build_reviewed id ActionServiceRestart 1 (mkParameters ServiceNginx "" 0 0) demo_plan).
  vm_compute. reflexivity.
Defined.

(** no text of a request reaches a shell: the commands of an
    accepted plan are literals of the catalog, except for the process signal, whose commands
    are the catalog's with the decimal digits of the process id and its start time. *)
Theorem commands_from_catalog sha256 action version p plan :
  Build sha256 action version p = Ok plan →
  if decide (action = ActionProcessSIGTERM)
  then map step_command (plan_steps plan) =
       map step_command (processSteps (itoa (PID p)) (itoa (ProcessStartTicks p))) ∧ 100 ≤ PID p
  else Forall (λ s, step_command s ∈ catalog_commands) (plan_steps plan).
Proof.
  intros (d & steps & Hd & _ & Hb & ->)%Build_Ok. cbn [plan_steps].
  case_decide as Ha.
  - rewrite map_map. inversion Hb; subst; try discriminate. done.
  - apply Forall_map. by apply (built_commands action p).
Qed.

Lemma commands_from_catalog_witness :
  Forall (λ s, step_command s ∈ catalog_commands) (plan_steps demo_plan).
Proof.
  apply (commands_from_catalog id ActionServiceRestart 1 (mkParameters ServiceNginx "" 0 0) demo_plan).
  vm_compute. reflexivity.
Defined.

(** C30: when [Execute] runs a plan, the runner sees a prefix of its steps, in
    order and each once; the execution succeeds exactly when every step ran and succeeded;
    otherwise it stops at the first step that failed, later steps are never started, and all
    earlier steps succeeded. *)
Theorem execute_in_order sha256 {R} (run : R → Step → R * (CommandResult * option run_error)) elapsed cancelled
    r plan r' e :
  Execute sha256 run elapsed cancelled r plan = (r', e, None) →
  ∃ done_ rest, plan_steps plan = done_ ++ rest ∧ map sr_ID (Steps e) = map step_id done_ ∧ r' = ran run r done_ ∧
    (Status e = "succeeded" ∧ Stopped e = false ∧ rest = [] ∧ Forall succeeded (Steps e) ∨
     Status e = "failed" ∧ Stopped e = true ∧
       ∃ init last, Steps e = init ++ [last] ∧ Forall succeeded init ∧ ¬ succeeded last).
Proof.
  unfold Execute. case_bool_decide; [done|]. case_match; [done|].
  destruct (execute_steps run elapsed cancelled r (plan_steps plan) []) as [r1 e1] eqn:E. intros [= <- <-].
  apply execute_steps_spec in E as (d & rest & results & Hs & He & Hid & _ & -> & Hcase). cbn in He. subst results.
  exists d, rest. split_and!; try done. naive_solver.
Qed.

(** A runner that logs the commands it was given and fails at [stop]. *)
Definition demo_run (stop : string) (log : list string) (s : Step) : list string * (CommandResult * option run_error) :=
  (log ++ [step_id s], (mkCommandResult "" "" (if step_id s =? stop then 1 else 0) second, None)).

Lemma execute_in_order_witness :
  ∃ done_ rest, plan_steps demo_plan = done_ ++ rest ∧
    ["service-restart-preflight"; "service-restart-evidence"; "service-restart-apply"] =
    ran (demo_run "service-restart-apply") [] done_.
Proof.
  destruct (execute_in_order id (demo_run "service-restart-apply") (λ _, second) (λ _, false) [] demo_plan
    ["service-restart-preflight"; "service-restart-evidence"; "service-restart-apply"]
    (Execute id (demo_run "service-restart-apply") (λ _, second) (λ _, false) [] demo_plan).1.2)
    as (d & rest & H1 & _ & H2 & _).
  - vm_compute. reflexivity.
  - exists d, rest. split; [exact H1|exact H2].
Defined.

(** a plan with any step that is not sealed as its catalog text,
    or without steps, is refused and the runner is never called. *)
Theorem execute_refuses_unsealed sha256 {R} (run : R → Step → R * (CommandResult * option run_error)) elapsed cancelled
    r plan :
  plan_steps plan = [] ∨ (∃ s, s ∈ plan_steps plan ∧ step_seal s ≠ sealStep sha256 s) →
  Execute sha256 run elapsed cancelled r plan = (r, Execution_zero, Some ErrInvalidPlan).
Proof.
  unfold Execute. intros [->|(s & Hin & Hs)]; [done|]. case_bool_decide; [done|].
  destruct (forallb _ _) eqn:E; [|done]. rewrite forallb_forall in E.
  specialize (E s (proj1 (list_elem_of_In _ _) Hin)). by apply String.eqb_eq in E.
Qed.

Lemma execute_refuses_unsealed_witness :
  Execute id (demo_run "") (λ _, second) (λ _, false) []
    (mkPlan (plan_definition demo_plan) Parameters_zero [newStep "x" PhaseApply "d" "rm -rf /" second]) =
  ([], Execution_zero, Some ErrInvalidPlan).
Proof.
  apply (execute_refuses_unsealed id (demo_run "") (λ _, second) (λ _, false) []). right.
  exists (newStep "x" PhaseApply "d" "rm -rf /" second). split; [left|vm_compute; discriminate].
Defined.
