(* ===== verification/Ledger.v ===== *)
(** * The Connector's idempotency ledger

    Models [services/connector/service/runbook_ledger.go]: one entry per job
    id, claimed before a runbook runs and completed with its response.  The
    order in which Go ranges over the map when it looks for the oldest
    completed entry is an argument. *)

From S2P Require Import Prelude GoStrings Protocol.

Inductive runbookLedgerState := runbookInProgress | runbookCompleted.
#[global] Instance runbookLedgerState_eq_dec : EqDecision runbookLedgerState.
Proof. solve_decision. Defined.

Definition RunbookExecuteResponse_zero : RunbookExecuteResponse :=
  mkExecuteResponse "" "" "" ""
    (mkRunbookBinding (mkActionRef "" 0) "" "" (mkTarget "" 0 "") "" "" (mkParameters "" "" 0 0))
    "" "" false false false [].

Record runbookLedgerEntry := mkEntry {
  scope : string;
  state : runbookLedgerState;
  startedAt : time;
  response : RunbookExecuteResponse;
}.

Record runbookLedger := mkLedger {
  entries : gmap string runbookLedgerEntry;
  max : Z;
}.

Inductive runbookClaim :=
| claimNew
| claimReplay (r : RunbookExecuteResponse)
| claimConflict
| claimInProgress
| claimFull.

Definition newRunbookLedger (maxEntries : Z) : runbookLedger :=
  mkLedger ∅ (if (maxEntries <=? 0)%Z then 10000 else maxEntries).

(** The copy of a response, with its steps' output buffers. *)
Definition cloneRunbookResponse (v : RunbookExecuteResponse) : RunbookExecuteResponse :=
  mkExecuteResponse (ex_ProtocolVersion v) (ex_RequestID v) (ex_Action v) (ex_CatalogVersion v) (ex_Binding v)
    (ex_ScopeDigest v) (ex_Status v) (ex_Stopped v) (ex_Retryable v) (ex_IdempotentReplay v)
    (map (λ s, mkStepResult (sr_ID s) (sr_Phase s) (sr_State s) ("" +:+ sr_Stdout s) ("" +:+ sr_Stderr s)
                 (sr_ExitCode s) (sr_DurationMillis s) (sr_ErrorCode s)) ([] ++ ex_Steps v)).

(** One iteration of the search for the oldest completed entry. *)
Definition older (acc : string * time) (kv : string * runbookLedgerEntry) : string * time :=
  if bool_decide (state kv.2 = runbookCompleted) && ((acc.1 =? "") || (startedAt kv.2 <? acc.2)%Z)
  then (kv.1, startedAt kv.2) else acc.

Definition claim (l : runbookLedger) (order : list (string * runbookLedgerEntry)) (jobID sc : string) (now : time)
    : runbookLedger * runbookClaim :=
  match entries l !! jobID with
  | Some entry =>
    (l, if scope entry ≠? sc then claimConflict
        else match state entry with
             | runbookInProgress => claimInProgress
             | runbookCompleted => claimReplay (cloneRunbookResponse (response entry))
             end)
  | None =>
    let fresh := mkEntry sc runbookInProgress now RunbookExecuteResponse_zero in
    if (max l <=? len (entries l))%Z then
      let oldestJob := (foldl older ("", 0) order).1 in
      if oldestJob =? "" then (l, claimFull)
      else (mkLedger (<[jobID := fresh]> (delete oldestJob (entries l))) (max l), claimNew)
    else (mkLedger (<[jobID := fresh]> (entries l)) (max l), claimNew)
  end.

Definition complete (l : runbookLedger) (jobID sc : string) (r : RunbookExecuteResponse) : runbookLedger :=
  match entries l !! jobID with
  | Some entry =>
    if (scope entry ≠? sc) || negb (bool_decide (state entry = runbookInProgress)) then l
    else mkLedger (<[jobID := mkEntry (scope entry) runbookCompleted (startedAt entry) (cloneRunbookResponse r)]> (entries l)) (max l)
  | None => l
  end.

(** ** Interleavings *)

Inductive ledger_step (allowed : string → string → Prop) : runbookLedger → runbookLedger → Prop :=
| step_claim l order j sc now l' c :
    order ≡ₚ map_to_list (entries l) → claim l order j sc now = (l', c) → ledger_step allowed l l'
| step_complete l j sc r : allowed j sc → ledger_step allowed l (complete l j sc r).

(** ** Lemmas *)

Lemma cloneRunbookResponse_id v : cloneRunbookResponse v = v.
Proof.
  destruct v. unfold cloneRunbookResponse. cbn. f_equal. rewrite (map_ext _ id), map_id; [done|].
  by intros [].
Qed.

(** The search returns no entry, or a completed one of the list. *)
Lemma older_completed order acc :
  (foldl older acc order).1 = acc.1 ∨
  ∃ e, ((foldl older acc order).1, e) ∈ order ∧ state e = runbookCompleted.
Proof.
  revert acc. induction order as [|[k e] order IH]; intros acc; cbn; [by left|].
  destruct (IH (older acc (k, e))) as [->|(e' & Hin & Hs)].
  - unfold older. cbn. case_match eqn:E; [|by left]. right. exists e. reflect_bools. split; [left|done].
  - right. exists e'. split; [by right|done].
Qed.

Lemma older_entry l order :
  order ≡ₚ map_to_list (entries l) → (foldl older ("", 0) order).1 ≠ "" →
  ∃ e, entries l !! (foldl older ("", 0) order).1 = Some e ∧ state e = runbookCompleted.
Proof.
  intros Hp Hne. destruct (older_completed order ("", 0)) as [Eo|(e & Hin & Hs)]; [done|].
  exists e. split; [|done]. apply elem_of_map_to_list. by rewrite <-Hp.
Qed.

Lemma claim_evicts_completed l order j sc now l' c k e :
  order ≡ₚ map_to_list (entries l) → claim l order j sc now = (l', c) →
  entries l !! k = Some e → state e = runbookInProgress → entries l' !! k = Some e.
Proof.
  unfold claim. intros Hp H He Hs. repeat case_match; simplify_eq; try done; cbn.
  - assert (k ≠ j) as Hkj by congruence. rewrite lookup_insert_ne by done.
    destruct (decide ((foldl older ("", 0) order).1 = k)) as [Ek|]; [|by rewrite lookup_delete_ne].
    reflect_bools. destruct (older_entry l order Hp) as (e' & Hin & Hs'); [done|]. congruence.
  - rewrite lookup_insert_ne by congruence. done.
Qed.

Lemma complete_lookup l j sc r k e :
  entries l !! k = Some e → k ≠ j ∨ scope e ≠ sc ∨ state e = runbookCompleted →
  entries (complete l j sc r) !! k = Some e.
Proof.
  intros He Hne. unfold complete. repeat case_match; try done. cbn. reflect_bools.
  rewrite lookup_insert_ne; [done|]. intros ->. destruct Hne as [?|[?|?]]; [done|..]; congruence.
Qed.

(** A running entry stays as it is until it is completed. *)
Lemma ledger_step_running j sc allowed l l' e :
  (∀ j' sc', allowed j' sc' → j' ≠ j ∨ sc' ≠ sc) → ledger_step allowed l l' →
  entries l !! j = Some e → scope e = sc → state e = runbookInProgress → entries l' !! j = Some e.
Proof.
  intros Hal [l0 order k sck now l1 c Hp H|l0 k sck r Hok] He Hsc Hst.
  - by eapply claim_evicts_completed.
  - apply complete_lookup; [done|]. destruct (Hal _ _ Hok); [left; congruence|right; left; congruence].
Qed.

Lemma claim_max l order j sc now : max (claim l order j sc now).1 = max l.
Proof. unfold claim. by repeat case_match. Qed.

Lemma ledger_step_size allowed l l' :
  ledger_step allowed l l' → max l' = max l ∧ len (entries l') ≤ len (entries l) + 1 ∧
  (1 ≤ max l → len (entries l) ≤ max l → len (entries l') ≤ max l).
Proof.
  intros [l0 order k sck now l1 c Hp H|l0 k sck r Hok].
  - split; [apply (f_equal fst) in H; cbn in H; subst l1; apply claim_max|].
    unfold claim in H. repeat case_match; simplify_eq; cbn; try lia.
    + reflect_bools. destruct (older_entry l0 order Hp) as (e' & Hin & _); [done|].
      rewrite len_insert_new by (rewrite lookup_delete_None; auto). rewrite (len_delete_old _ _ _ Hin). lia.
    + rewrite len_insert_new by done. reflect_bools. lia.
  - unfold complete. repeat case_match; cbn; try (split_and!; done || lia).
    rewrite (len_insert_old _ _ _ _ H). split_and!; [done|lia|done].
Qed.

(** Without reaching the capacity nothing is evicted. *)
Lemma claim_keeps l order j sc now k e :
  len (entries l) < max l → entries l !! k = Some e → entries (claim l order j sc now).1 !! k = Some e.
Proof.
  intros Hlen He. unfold claim. destruct (entries l !! j) eqn:Ej; [done|].
  rewrite (proj2 (Z.leb_gt _ _)) by lia. cbn. rewrite lookup_insert_ne by congruence. done.
Qed.

Lemma claim_running l order j sc now l1 l2 order' sc' now' :
  claim l order j sc now = (l1, claimNew) →
  rtc (ledger_step (λ j' sc', j' ≠ j ∨ sc' ≠ sc)) l1 l2 →
  claim l2 order' j sc' now' = (l2, if sc' =? sc then claimInProgress else claimConflict).
Proof.
  intros Hnew Hsteps.
  assert (∃ e, entries l1 !! j = Some e ∧ scope e = sc ∧ state e = runbookInProgress) as He.
  { unfold claim in Hnew. repeat case_match; simplify_eq; cbn; rewrite lookup_insert_eq; by eexists. }
  assert (∃ e, entries l2 !! j = Some e ∧ scope e = sc ∧ state e = runbookInProgress) as (e & He2 & Hsc & Hst).
  { clear -Hsteps He. induction Hsteps as [|x y z Hxy _ IH]; [done|]. apply IH.
    destruct He as (e & He & Hsc & Hst). exists e. split; [|done].
    by apply (ledger_step_running j sc (λ j' sc', j' ≠ j ∨ sc' ≠ sc) x). }
  unfold claim. rewrite He2, Hsc, Hst. rewrite String.eqb_sym. by destruct (sc' =? sc).
Qed.

Lemma claim_completed l j sc r e n l2 order now :
  entries l !! j = Some e → scope e = sc → state e = runbookInProgress →
  let l1 := complete l j sc r in
  nsteps (ledger_step (λ _ _, True)) n l1 l2 → len (entries l1) + Z.of_nat n ≤ max l1 →
  claim l2 order j sc now = (l2, claimReplay r).
Proof.
  intros He Hsc Hst l1 Hsteps Hlen.
  assert (∃ e', entries l1 !! j = Some e' ∧ scope e' = sc ∧ state e' = runbookCompleted ∧ response e' = r) as He1.
  { unfold l1, complete. rewrite He, Hsc, Hst, String.eqb_refl, bool_decide_true by done. cbn.
    rewrite lookup_insert_eq. eexists.
    split; [done|]. cbn. split_and!; try done. apply cloneRunbookResponse_id. }
  clearbody l1. clear He Hst Hsc e l.
  assert (∃ e', entries l2 !! j = Some e' ∧ scope e' = sc ∧ state e' = runbookCompleted ∧ response e' = r)
    as (e' & He2 & Hs2 & Hst2 & Hr).
  { revert Hlen He1. induction Hsteps as [|n x y z Hxy _ IH]; intros Hlen He1; [done|].
    pose proof (ledger_step_size _ _ _ Hxy) as (Hm & Hsz & _). apply IH; [rewrite Hm; lia|].
    destruct He1 as (e' & He' & Hsc' & Hst' & Hr'). exists e'. split; [|done].
    destruct Hxy as [l0 ord k sck nw l' c Hp H|l0 k sck rr Hok].
    - apply (f_equal fst) in H. cbn in H. subst l'. apply claim_keeps; [lia|done].
    - apply complete_lookup; [done|]. auto. }
  unfold claim. rewrite He2, Hs2, Hst2, Hr, String.eqb_refl. cbn. by rewrite cloneRunbookResponse_id.
Qed.

(** ** Sample runs *)

Definition demo_response (status : string) : RunbookExecuteResponse :=
  mkExecuteResponse "v1" "req" "" "" (ex_Binding RunbookExecuteResponse_zero) "scope" status false false false [].
Definition demo_running : runbookLedger := (claim (newRunbookLedger 1) [] "job_1" "scope" 100).1.
Definition demo_completed : runbookLedger := complete demo_running "job_1" "scope" (demo_response "succeeded").

(** * Properties *)

(** while a claimed job has not been completed, no interleaving
    of claims and completions of other jobs lets it start again: every further claim of its
    id is answered "in progress", or "conflict" for another scope, at any capacity. *)
Theorem running_job_not_restarted l order j sc now l1 l2 order' sc' now' :
  claim l order j sc now = (l1, claimNew) →
  rtc (ledger_step (λ j' sc', j' ≠ j ∨ sc' ≠ sc)) l1 l2 →
  claim l2 order' j sc' now' = (l2, if sc' =? sc then claimInProgress else claimConflict).
Proof. intros. by eapply claim_running. Qed.

Lemma running_job_not_restarted_witness :
  claim demo_running [] "job_1" "scope" 200 = (demo_running, claimInProgress).
Proof.
  apply (running_job_not_restarted (newRunbookLedger 1) [] "job_1" "scope" 100 demo_running demo_running [] "scope").
  - vm_compute. reflexivity.
  - apply rtc_refl.
Defined.

(** after a job was completed, a repeated claim with its scope is
    answered with the recorded response and does not start it again, as long as the further
    operations [n] since then cannot have filled the ledger; this holds whatever they are. *)
Theorem completed_job_replays l j sc r e n l2 order now :
  entries l !! j = Some e → scope e = sc → state e = runbookInProgress →
  let l1 := complete l j sc r in
  nsteps (ledger_step (λ _ _, True)) n l1 l2 → len (entries l1) + Z.of_nat n ≤ max l1 →
  claim l2 order j sc now = (l2, claimReplay r).
Proof. intros. by eapply claim_completed. Qed.

Lemma completed_job_replays_witness :
  claim demo_completed [] "job_1" "scope" 300 = (demo_completed, claimReplay (demo_response "succeeded")).
Proof.
  apply (completed_job_replays demo_running "job_1" "scope" (demo_response "succeeded")
    (mkEntry "scope" runbookInProgress 100 RunbookExecuteResponse_zero) 0).
  - vm_compute. reflexivity.
  - reflexivity.
  - reflexivity.
  - constructor.
  - vm_compute. discriminate.
Defined.

(** the ledger never holds more entries than its limit. *)
Theorem ledger_bounded maxEntries l :
  rtc (ledger_step (λ _ _, True)) (newRunbookLedger maxEntries) l →
  max l = max (newRunbookLedger maxEntries) ∧ len (entries l) ≤ max l.
Proof.
  intros H. remember (newRunbookLedger maxEntries) as l0 eqn:E.
  assert (1 ≤ max l0 ∧ len (entries l0) ≤ max l0) as [H1 H2].
  { subst l0. unfold newRunbookLedger, len. cbn. rewrite map_size_empty. destruct (Z.leb_spec maxEntries 0); cbn; lia. }
  clear E. induction H as [|x y z Hxy _ IH]; [done|]. apply ledger_step_size in Hxy as (E & _ & Hb).
  destruct IH as [E' ?]; [lia|rewrite E; by apply Hb|]. by rewrite E', E in *.
Qed.

Lemma ledger_bounded_witness : len (entries demo_running) ≤ max demo_running.
Proof.
  apply (ledger_bounded 1 demo_running). apply rtc_once.
  apply (step_claim _ _ [] "job_1" "scope" 100 _ claimNew); [|vm_compute; reflexivity].
  vm_compute. constructor.
Defined.

(** at capacity the ledger forgets its oldest completed job, and a
    repeated request for that job is claimed as new: the runbook would run a second time
    under the same id. *)
Theorem eviction_restarts :
  let l1 := demo_completed in
  let l2 := (claim l1 (map_to_list (entries l1)) "job_2" "other" 200).1 in
  let l3 := complete l2 "job_2" "other" (demo_response "succeeded") in
  (claim l1 [] "job_1" "scope" 200).2 = claimReplay (demo_response "succeeded") ∧
  (claim l3 (map_to_list (entries l3)) "job_1" "scope" 300).2 = claimNew.
Proof. vm_compute. done. Qed.
