(* ===== verification/RunbookHandler.v ===== *)
(** * The Connector's runbook endpoints

    Models [services/connector/service/runbook_handler.go]: validation of the
    binding, the scope digest that ties an approval to it, the approval
    window, the SSH material, and the two handlers composed of request
    authentication, the idempotency ledger and the executor.  JSON decoding
    and the SSH key parsers are parameters; responses carry status and error
    code, not the message texts. *)

From S2P Require Import Prelude GoStrings Encoding Credentials ConnectorAuth Runbook Protocol Ledger.

Definition defaultRunbookBodyLimit : Z := 128 * 1024.
Definition defaultRunbookConcurrency : Z := 4.
Definition maxApprovalLifetime : duration := 15 * minute.
Definition maxEmergencyLifetime : duration := 4 * hour.
Definition defaultOutputLimit : Z := 1048576.

(** ** Validators *)

Definition validIdentifier (value : string) (max : Z) : bool :=
  (1 <=? slen value)%Z && (slen value <=? max)%Z && trimmed value &&
  forallb (λ ic : Z * Z, let '(index, char) := ic in
    is_alnum_rune char ||
    ((0 <? index)%Z && ((char =? 46)%Z || (char =? 95)%Z || (char =? 58)%Z || (char =? 45)%Z)))
    (runes_idx value).

Definition validSSHFingerprint (value : string) : bool :=
  has_prefix "SHA256:" value && (20 <=? slen value)%Z && (slen value <=? 96)%Z &&
  all_runes (λ c, is_alnum_rune c || (c =? 43)%Z || (c =? 47)%Z || (c =? 45)%Z || (c =? 95)%Z)
    (trim_prefix "SHA256:" value).

Definition validReason (value : string) : bool :=
  (8 <=? slen value)%Z && (slen value <=? 500)%Z && trimmed value && all_runes (λ c, negb (is_control c)) value.

Definition validateBoundTarget (b : RunbookBinding) : result string unit :=
  require negb (trim_space (Address (rb_Target b)) =? "") && trimmed (Address (rb_Target b)) &&
          (slen (Address (rb_Target b)) <=? 253)%Z &&
          (1 <=? Port (rb_Target b))%Z && (Port (rb_Target b) <=? 65535)%Z &&
          negb (trim_space (User (rb_Target b)) =? "") && trimmed (User (rb_Target b)) &&
          (slen (User (rb_Target b)) <=? 64)%Z &&
          validSSHFingerprint (rb_PinnedHostKeySHA256 b) && validSSHFingerprint (rb_CredentialPublicKeySHA256 b)
    else "invalid bound SSH target" ;;
  require all_runes (λ c, negb (is_control c)) (Address (rb_Target b) +:+ User (rb_Target b))
    else "target contains control characters" ;;
  Ok tt.

(** ** Approvals *)

Definition validateApproval (payload : RunbookExecuteRequest) (definition : ActionDefinition) (digest : string)
    (now : time) : result string unit :=
  let approval := er_Approval payload in
  let binding := er_Binding payload in
  require (Decision approval =? "approved") && bool_decide (ap_Action approval = rb_Action binding) &&
          (ap_HostID approval =? rb_HostID binding) && (ap_JobID approval =? rb_JobID binding) &&
          (ap_ScopeDigest approval =? digest)
    else "approval does not match binding" ;;
  require negb (is_zero_time (ApprovedAt approval) || is_zero_time (ap_ExpiresAt approval) ||
                (now + 30 * second <? ApprovedAt approval)%Z ||
                (ApprovedAt approval <? now - maxApprovalLifetime)%Z ||
                negb (now <? ap_ExpiresAt approval)%Z ||
                (ApprovedAt approval + maxApprovalLifetime <? ap_ExpiresAt approval)%Z)
    else "approval is expired or outside its maximum lifetime" ;;
  require validReason (er_Reason payload) else "reason is invalid" ;;
  let grant := er_Emergency payload in
  if Emergency definition then
    require negb (negb (validIdentifier (IncidentID grant) 128) || is_zero_time (eg_ExpiresAt grant) ||
                  negb (now <? eg_ExpiresAt grant)%Z || (now + maxEmergencyLifetime <? eg_ExpiresAt grant)%Z)
      else "emergency grant is invalid" ;;
    Ok tt
  else
    require (IncidentID grant =? "") && is_zero_time (eg_ExpiresAt grant)
      else "non-emergency action included an emergency grant" ;;
    Ok tt.

(** ** HTTP *)

(** What the handlers read of a request: the authenticated part, the path,
    the raw query, the parsed media type, the declared length, and the body
    ([None] when reading it fails). *)
Record HttpRequest := mkHttpRequest {
  hr_request : Request;
  hr_Path : string;
  hr_RawQuery : string;
  hr_mediaType : option string;
  hr_ContentLength : Z;
  hr_body : option string;
}.

Inductive Response :=
| RNext
| RError (status : Z) (code : string) (retryable : bool)
| RPreview (p : RunbookPreviewResponse)
| RExecute (r : RunbookExecuteResponse).

Record RunbookHandler := mkRunbookHandler {
  verifier : Verifier;
  mutationsEnabled : bool;
  allowPrivateTargets : bool;
  bodyLimit : Z;
  outputLimit : Z;
  connectTimeout : duration;
  maxConcurrent : Z;    (* the capacity of the concurrency channel *)
  inFlight : Z;         (* its occupancy *)
  ledger : runbookLedger;
}.

Record RunbookOptions := mkRunbookOptions {
  ro_KeyID : string;
  ro_HMACKey : string;
  ro_MutationsEnabled : bool;
  ro_AllowPrivateTargets : bool;
  ro_MaxConcurrent : Z;
  ro_MaxRequestBodyBytes : Z;
  ro_MaxOutputBytes : Z;
  ro_ConnectTimeout : duration;
  ro_MaxTrackedNonces : Z;
  ro_MaxIdempotencyJobs : Z;
  ro_AuthenticationSkew : duration;
}.

Definition positive_or (v default : Z) : Z := if (v <=? 0)%Z then default else v.

Definition NewRunbookHandler (o : RunbookOptions) : result string RunbookHandler :=
  v ← NewVerifier (ro_KeyID o) (ro_HMACKey o) (ro_AuthenticationSkew o) (ro_MaxTrackedNonces o);
  let concurrent := positive_or (ro_MaxConcurrent o) defaultRunbookConcurrency in
  require (concurrent <=? 32)%Z else "runbook concurrency limit must not exceed 32" ;;
  let body := positive_or (ro_MaxRequestBodyBytes o) defaultRunbookBodyLimit in
  require (body <=? 1048576)%Z else "runbook request body limit must not exceed 1 MiB" ;;
  let output := positive_or (ro_MaxOutputBytes o) defaultOutputLimit in
  require (output <=? 4194304)%Z else "runbook output limit must not exceed 4 MiB" ;;
  let connect := positive_or (ro_ConnectTimeout o) (10 * second) in
  require (connect <=? 30 * second)%Z else "runbook connect timeout must not exceed 30 seconds" ;;
  Ok (mkRunbookHandler v (ro_MutationsEnabled o) (ro_AllowPrivateTargets o) body output connect concurrent 0
        (newRunbookLedger (ro_MaxIdempotencyJobs o))).

(** Assignments to the parts of the handler that change. *)
Definition set_verifier (h : RunbookHandler) (v : Verifier) : RunbookHandler :=
  mkRunbookHandler v (mutationsEnabled h) (allowPrivateTargets h) (bodyLimit h) (outputLimit h) (connectTimeout h)
    (maxConcurrent h) (inFlight h) (ledger h).
Definition set_inFlight (h : RunbookHandler) (n : Z) : RunbookHandler :=
  mkRunbookHandler (verifier h) (mutationsEnabled h) (allowPrivateTargets h) (bodyLimit h) (outputLimit h)
    (connectTimeout h) (maxConcurrent h) n (ledger h).
Definition set_ledger (h : RunbookHandler) (l : runbookLedger) : RunbookHandler :=
  mkRunbookHandler (verifier h) (mutationsEnabled h) (allowPrivateTargets h) (bodyLimit h) (outputLimit h)
    (connectTimeout h) (maxConcurrent h) (inFlight h) l.

Section handler.
Context (sha256 : string → string) (hmac : string → string → string).
(** JSON decoding of the two payloads. *)
Context (decodePreview : string → option RunbookPreviewRequest).
Context (decodeExecute : string → option RunbookExecuteRequest).
(** golang.org/x/crypto/ssh: key parsing and fingerprints. *)
Context {PublicKey SignerKey : Type}.
Context (ParseAuthorizedKey : string → option (PublicKey * string)).
Context (FingerprintSHA256 : PublicKey → string).
Context (ParsePrivateKey : string → option SignerKey).
Context (ParsePrivateKeyWithPassphrase : string → string → option SignerKey).
Context (signer_PublicKey : SignerKey → PublicKey).

Definition bound_fields (baseDigest : string) (b : RunbookBinding) : list string :=
  [baseDigest; Address (rb_Target b); itoa (Port (rb_Target b)); User (rb_Target b);
   rb_PinnedHostKeySHA256 b; rb_CredentialPublicKeySHA256 b].

Definition catalog_error (e : plan_error) : string :=
  match e with ErrInvalidPlan => "runbook plan is not from the reviewed catalog" | ErrCatalog e => e end.

Definition of_plan {A} (r : result plan_error A) : result string A :=
  match r with Ok a => Ok a | Err e => Err (catalog_error e) end.

Definition buildBoundPlan (protocolVersion : string) (b : RunbookBinding) : result string (Plan * string) :=
  require (protocolVersion =? ProtocolVersion) && validIdentifier (rb_HostID b) 128 && validIdentifier (rb_JobID b) 128
    else "invalid protocol or identifiers" ;;
  validateBoundTarget b ≫= λ _,
  plan ← of_plan (Build sha256 (ar_ID (rb_Action b)) (ar_Version (rb_Action b))
    (Runbook.mkParameters (Service (rb_Parameters b)) (Timezone (rb_Parameters b)) (PID (rb_Parameters b))
       (ProcessStartTicks (rb_Parameters b))));
  baseDigest ← of_plan (ScopeDigest sha256 (rb_HostID b) (rb_JobID b) plan);
  Ok (plan, hex_encode (sha256 (join newline (bound_fields baseDigest b)))).

Definition ParsePinnedHostKey (encoded : string) : result string PublicKey :=
  match ParseAuthorizedKey (trim_space encoded +:+ String newline "") with
  | None => Err "parse pinned host key"
  | Some (key, rest) =>
    if negb (slen (trim_space rest) =? 0)%Z then Err "pinned host key must contain exactly one key" else Ok key
  end.

Definition validateRunbookSSHMaterial (payload : RunbookExecuteRequest) : result string (PublicKey * SignerKey) :=
  let c := er_Credential payload in
  require negb ((slen (er_PinnedHostKey payload) =? 0)%Z || (16384 <? slen (er_PinnedHostKey payload))%Z ||
                (slen (PrivateKeyPEM c) =? 0)%Z || (49152 <? slen (PrivateKeyPEM c))%Z || (4096 <? slen (Passphrase c))%Z)
    else "SSH material size is invalid" ;;
  pinned ← (match ParsePinnedHostKey (er_PinnedHostKey payload) with
            | Ok k => Ok k | Err _ => Err "pinned host key does not match binding" end);
  require FingerprintSHA256 pinned =? rb_PinnedHostKeySHA256 (er_Binding payload)
    else "pinned host key does not match binding" ;;
  signer ← of_option (if (slen (Passphrase c) =? 0)%Z then ParsePrivateKey (PrivateKeyPEM c)
                      else ParsePrivateKeyWithPassphrase (PrivateKeyPEM c) (Passphrase c))
             "credential does not match binding";
  require FingerprintSHA256 (signer_PublicKey signer) =? rb_CredentialPublicKeySHA256 (er_Binding payload)
    else "credential does not match binding" ;;
  Ok (pinned, signer).

(** [authenticateJSON]: the body of an authentic request, or the error. *)
Definition authenticateJSON (h : RunbookHandler) (request : HttpRequest) (now : time)
    : RunbookHandler * (Response + string) :=
  if negb (bool_decide (hr_mediaType request = Some "application/json")) then
    (h, inl (RError 415 "invalid_content_type" false))
  else if (bodyLimit h <? hr_ContentLength request)%Z then (h, inl (RError 413 "request_too_large" false))
  else match hr_body request with
  | None => (h, inl (RError 413 "request_too_large" false))
  | Some body =>
    if (bodyLimit h <? slen body)%Z then (h, inl (RError 413 "request_too_large" false))
    else let '(v, r) := Verify sha256 hmac (verifier h) (hr_request request) body now in
      (set_verifier h v, match r with Ok _ => inr body | Err _ => inl (RError 401 "unauthorized" false) end)
  end.

Definition step_preview (s : Step) : RunbookStepPreview :=
  mkStepPreview (step_id s) (Phase_string (step_phase s)) (step_description s) (step_timeout s / second).

Definition handlePreview (h : RunbookHandler) (request : HttpRequest) (requestID : string) (now : time)
    : RunbookHandler * Response :=
  let '(h, auth) := authenticateJSON h request now in
  (h, match auth with
      | inl e => e
      | inr body =>
        match decodePreview body with
        | None => RError 400 "invalid_json" false
        | Some payload =>
          match buildBoundPlan (pr_ProtocolVersion payload) (pr_Binding payload) with
          | Err _ => RError 400 "invalid_runbook" false
          | Ok (plan, digest) =>
            let d := plan_definition plan in
            RPreview (mkPreviewResponse ProtocolVersion requestID ActionRunbookPreview CatalogVersion
              (pr_Binding payload) digest (Title d) (Mutating d) (Emergency d)
              (negb (Mutating d) || mutationsEnabled h) (RetryPolicy d) (map step_preview (plan_steps plan)))
          end
        end
      end).

(** The SSH configuration the runner is called with. *)
Record SSHConfig := mkSSHConfig {
  sc_Address : string;
  sc_Port : Z;
  sc_User : string;
  sc_Auth : SignerKey;
  sc_PinnedHostKey : PublicKey;
  sc_ConnectTimeout : duration;
  sc_MaxOutputBytes : Z;
  sc_AllowPrivateTargets : bool;
}.

(** The SSH runner, with a state of its own. *)
Context {R : Type}.
Context (run : SSHConfig → R → Step → R * (CommandResult * option run_error)).
Context (elapsed : R → duration) (cancelled : R → bool).

Definition sshConfig (h : RunbookHandler) (b : RunbookBinding) (pinned : PublicKey) (signer : SignerKey) : SSHConfig :=
  mkSSHConfig (Address (rb_Target b)) (Port (rb_Target b)) (User (rb_Target b)) signer pinned
    (connectTimeout h) (outputLimit h) (allowPrivateTargets h).

Definition totalTimeout (h : RunbookHandler) (plan : Plan) : duration :=
  let t := foldl (λ t s, t + connectTimeout h + step_timeout s) (5 * second) (plan_steps plan) in
  if (5 * minute <? t)%Z then 5 * minute else t.

Definition step_response (s : Runbook.StepResult) : RunbookStepResult :=
  mkStepResult (Runbook.sr_ID s) (Phase_string (Runbook.sr_Phase s)) (StepState_string (Runbook.sr_State s))
    (Runbook.sr_Stdout s) (Runbook.sr_Stderr s) (Runbook.sr_ExitCode s)
    (Runbook.sr_Duration s / millisecond) (Runbook.sr_ErrorCode s).

Definition execute_response (payload : RunbookExecuteRequest) (digest requestID : string) (e : Execution)
    (err : option plan_error) : RunbookExecuteResponse :=
  let failed := bool_decide (err ≠ None) in
  mkExecuteResponse ProtocolVersion requestID ActionRunbookExecute CatalogVersion (er_Binding payload) digest
    (if failed then "failed" else Status e) (if failed then true else Stopped e) false false
    (map step_response (Steps e)).

(** What [handleExecute] has established before it claims the job. *)
Record AcceptedRun := mkAccepted {
  ad_payload : RunbookExecuteRequest;
  ad_plan : Plan;
  ad_digest : string;
  ad_config : SSHConfig;
}.

Definition execute_checks (h : RunbookHandler) (body : string) (now : time) : Response + AcceptedRun :=
  match decodeExecute body with
  | None => inl (RError 400 "invalid_json" false)
  | Some payload =>
    match buildBoundPlan (er_ProtocolVersion payload) (er_Binding payload) with
    | Err _ => inl (RError 400 "invalid_runbook" false)
    | Ok (plan, digest) =>
      if Mutating (plan_definition plan) && negb (mutationsEnabled h) then
        inl (RError 403 "mutations_disabled" false)
      else match validateApproval payload (plan_definition plan) digest now with
      | Err _ => inl (RError 403 "approval_invalid" false)
      | Ok _ =>
        match validateRunbookSSHMaterial payload with
        | Err _ => inl (RError 400 "ssh_material_invalid" false)
        | Ok (pinned, signer) => inr (mkAccepted payload plan digest (sshConfig h (er_Binding payload) pinned signer))
        end
      end
    end
  end.

(** [acquire] and [release]: a slot of the concurrency channel. *)
Definition acquire_slot (h : RunbookHandler) : RunbookHandler * option Response :=
  if (maxConcurrent h <=? inFlight h)%Z then (h, Some (RError 429 "runbook_concurrency_limit" true))
  else (set_inFlight h (inFlight h + 1), None).
Definition release_slot (h : RunbookHandler) : RunbookHandler := set_inFlight h (inFlight h - 1).

(** The claim in the ledger and the answers to requests that do not get it. *)
Definition claim_run (h : RunbookHandler) (order : list (string * runbookLedgerEntry)) (a : AcceptedRun) (requestID : string)
    (now : time) : RunbookHandler * option Response :=
  let '(l, c) := claim (ledger h) order (rb_JobID (er_Binding (ad_payload a))) (ad_digest a) now in
  (set_ledger h l,
   match c with
   | claimReplay r =>
     Some (RExecute (mkExecuteResponse (ex_ProtocolVersion r) requestID (ex_Action r) (ex_CatalogVersion r)
       (ex_Binding r) (ex_ScopeDigest r) (ex_Status r) (ex_Stopped r) (ex_Retryable r) true (ex_Steps r)))
   | claimConflict => Some (RError 409 "job_scope_conflict" false)
   | claimInProgress => Some (RError 409 "job_in_progress" false)
   | claimFull => Some (RError 503 "idempotency_capacity" false)
   | claimNew => None
   end).

(** The first half of [handleExecute], up to the claim; it holds one slot of
    the concurrency channel when it returns a run. *)
Definition execute_begin (h : RunbookHandler) (order : list (string * runbookLedgerEntry)) (request : HttpRequest)
    (requestID : string) (now : time) : RunbookHandler * (Response + AcceptedRun) :=
  let '(h, auth) := authenticateJSON h request now in
  match auth with
  | inl e => (h, inl e)
  | inr body =>
    match acquire_slot h with
    | (h, Some e) => (h, inl e)
    | (h, None) =>
      match execute_checks h body now with
      | inl e => (release_slot h, inl e)
      | inr a =>
        match claim_run h order a requestID now with
        | (h, Some e) => (release_slot h, inl e)
        | (h, None) => (h, inr a)
        end
      end
    end
  end.

(** The second half: run the plan and record the response; then release the
    slot. *)
Definition execute_run (h : RunbookHandler) (r : R) (a : AcceptedRun) (requestID : string)
    : RunbookHandler * R * Response :=
  let '(r', e, err) := Execute sha256 (run (ad_config a)) elapsed cancelled r (ad_plan a) in
  let resp := execute_response (ad_payload a) (ad_digest a) requestID e err in
  (set_ledger h (complete (ledger h) (rb_JobID (er_Binding (ad_payload a))) (ad_digest a) resp), r', RExecute resp).
Definition execute_finish (h : RunbookHandler) (r : R) (a : AcceptedRun) (requestID : string)
    : RunbookHandler * R * Response :=
  let '(h, r, resp) := execute_run h r a requestID in (release_slot h, r, resp).

Definition handleExecute (h : RunbookHandler) (r : R) (order : list (string * runbookLedgerEntry))
    (request : HttpRequest) (requestID : string) (now : time) : RunbookHandler * R * Response :=
  match execute_begin h order request requestID now with
  | (h, inl e) => (h, r, e)
  | (h, inr a) => execute_finish h r a requestID
  end.

Definition RunbookPreviewPath := "/v1/runbooks/preview".
Definition RunbookExecutePath := "/v1/runbooks/execute".

Definition Wrap (h : RunbookHandler) (r : R) (order : list (string * runbookLedgerEntry)) (request : HttpRequest)
    (requestID : string) (now : time) : RunbookHandler * R * Response :=
  if (hr_Path request ≠? RunbookPreviewPath) && (hr_Path request ≠? RunbookExecutePath) then (h, r, RNext)
  else if hr_RawQuery request ≠? "" then (h, r, RError 400 "query_not_allowed" false)
  else if Method (hr_request request) ≠? "POST" then (h, r, RError 405 "method_not_allowed" false)
  else if hr_Path request =? RunbookPreviewPath then
    let '(h, resp) := handlePreview h request requestID now in (h, r, resp)
  else handleExecute h r order request requestID now.
End handler.

(** ** Lemmas: text that cannot contain a line break *)

Lemma validIdentifier_line_free v m : validIdentifier v m = true → contains_char newline v = false.
Proof.
  unfold validIdentifier. intros H. reflect_bools.
  destruct (contains_char newline v) eqn:E; [|done]. apply runes_ascii_mem in E; [|done].
  unfold runes in E. apply list_elem_of_fmap in E as ([i c] & Ec & Hin). cbn in Ec.
  rewrite forallb_forall in H. specialize (H _ (proj1 (list_elem_of_In _ _) Hin)). subst c.
  cbn in H. by rewrite andb_false_r in H.
Qed.

Lemma has_prefix_split p s : has_prefix p s = true → s = p +:+ trim_prefix p s.
Proof.
  intros H. unfold trim_prefix. rewrite H. unfold has_prefix in H.
  revert s H. induction p as [|a p IH]; intros s H; [by destruct s|].
  destruct s as [|b s]; [done|]. cbn in H. destruct (ascii_dec a b) as [->|]; [|done].
  rewrite append_String. cbn. f_equal. by apply IH.
Qed.

Lemma validSSHFingerprint_line_free v : validSSHFingerprint v = true → contains_char newline v = false.
Proof.
  unfold validSSHFingerprint. intros H. reflect_bools.
  match goal with G : has_prefix _ v = true |- _ => rewrite (has_prefix_split _ _ G) end.
  rewrite contains_char_append. apply orb_false_iff. split; [done|].
  eapply all_runes_excludes; [..|exact H]; reflexivity.
Qed.

Lemma validateBoundTarget_line_free b u :
  validateBoundTarget b = Ok u →
  sep_free newline [Address (rb_Target b); User (rb_Target b); rb_PinnedHostKeySHA256 b; rb_CredentialPublicKeySHA256 b].
Proof.
  unfold validateBoundTarget. intros H. ok_inv H. reflect_bools.
  match goal with G : all_runes _ _ = true |- _ =>
    apply (all_runes_excludes _ _ newline) in G; [|reflexivity|reflexivity];
    rewrite contains_char_append in G; apply orb_false_iff in G as [? ?] end.
  repeat apply Forall_cons_2; try done; by apply validSSHFingerprint_line_free.
Qed.

(** ** Lemmas: the bound plan *)

Section bound.
Context (sha256 : string → string).

Definition build_binding (b : RunbookBinding) : result plan_error Plan :=
  Build sha256 (ar_ID (rb_Action b)) (ar_Version (rb_Action b))
    (Runbook.mkParameters (Service (rb_Parameters b)) (Timezone (rb_Parameters b)) (PID (rb_Parameters b))
       (ProcessStartTicks (rb_Parameters b))).

Lemma of_plan_Ok {A} (r : result plan_error A) a : of_plan r = Ok a ↔ r = Ok a.
Proof. destruct r; cbn; split; congruence. Qed.

Lemma buildBoundPlan_Ok pv b plan digest :
  buildBoundPlan sha256 pv b = Ok (plan, digest) →
  pv = ProtocolVersion ∧ sep_free newline [rb_HostID b; rb_JobID b] ∧ is_ok (validateBoundTarget b) = true ∧
  build_binding b = Ok plan ∧
  ∃ base, ScopeDigest sha256 (rb_HostID b) (rb_JobID b) plan = Ok base ∧
    digest = hex_encode (sha256 (join newline (bound_fields base b))).
Proof.
  unfold buildBoundPlan. intros (? & G%guard_ok_Ok & H)%bind_Ok_inv.
  apply bind_Ok_inv in H as (u & Ht & H). apply bind_Ok_inv in H as (pl & Hb%of_plan_Ok & H).
  apply bind_Ok_inv in H as (base & Hs%of_plan_Ok & H). simplify_eq. reflect_bools.
  split_and!; [done| |by rewrite Ht|done|eauto].
  repeat apply Forall_cons_2; try done; by eapply validIdentifier_line_free.
Qed.

(** The digest an approval carries determines the binding it approves. *)
Lemma buildBoundPlan_binds pv1 b1 plan1 pv2 b2 plan2 digest :
  buildBoundPlan sha256 pv1 b1 = Ok (plan1, digest) → buildBoundPlan sha256 pv2 b2 = Ok (plan2, digest) →
  b1 = b2 ∨ ∃ x y, x ≠ y ∧ sha256 x = sha256 y.
Proof.
  intros (_ & I1 & T1 & B1 & base1 & S1 & ->)%buildBoundPlan_Ok (_ & I2 & T2 & B2 & base2 & S2 & D)%buildBoundPlan_Ok.
  apply hex_encode_inj in D. match type of D with sha256 ?x = sha256 ?y =>
    destruct (decide (x = y)) as [E|]; [|right; by exists x, y] end.
  destruct (validateBoundTarget b1) eqn:V1; [|done]. apply validateBoundTarget_line_free in V1.
  destruct (validateBoundTarget b2) eqn:V2; [|done]. apply validateBoundTarget_line_free in V2.
  pose proof (ScopeDigest_Ok _ _ _ _ _ S1) as F1. pose proof (ScopeDigest_Ok _ _ _ _ _ S2) as F2.
  assert (∀ s, contains_char newline (hex_encode s) = false) as Hhex.
  { intros s. apply graphic_free; [done|apply hex_encode_graphic]. }
  unfold sep_free in V1, V2, I1, I2. rewrite !Forall_cons in V1. rewrite !Forall_cons in V2.
  destruct V1 as (? & ? & ? & ? & _), V2 as (? & ? & ? & ? & _).
  apply join_inj in E; [|done|..].
  2-3: unfold bound_fields; rewrite ?F1, ?F2; repeat apply Forall_cons_2; try done; by apply itoa_free.
  unfold bound_fields in E. injection E as Ebase Ea Ep%itoa_inj Eu Epk Eck. subst base2.
  destruct (ScopeDigest_binds _ _ _ _ _ _ _ _ _ _ _ _ _ _ B1 B2 (Forall_app_2 _ _ _ I1 I2) S1 S2)
    as [(Eid & Ev & Epar & Eh & Ej)|?]; [|by right].
  left. destruct b1 as [[] ? ? [] ? ? []], b2 as [[] ? ? [] ? ? []]. cbn in *. congruence.
Qed.
End bound.

(** ** Lemmas: the handlers *)

Section handlers.
Context (sha256 : string → string) (hmac : string → string → string).
Context (decodePreview : string → option RunbookPreviewRequest).
Context (decodeExecute : string → option RunbookExecuteRequest).
Context {PublicKey SignerKey : Type}.
Context (ParseAuthorizedKey : string → option (PublicKey * string)) (FingerprintSHA256 : PublicKey → string).
Context (ParsePrivateKey : string → option SignerKey) (ParsePrivateKeyWithPassphrase : string → string → option SignerKey).
Context (signer_PublicKey : SignerKey → PublicKey).
Context {R : Type} (run : @SSHConfig PublicKey SignerKey → R → Step → R * (CommandResult * option run_error)).
Context (elapsed : R → duration) (cancelled : R → bool).

#[local] Abbreviation authenticateJSON := (authenticateJSON sha256 hmac).
#[local] Abbreviation execute_checks := (execute_checks sha256 decodeExecute ParseAuthorizedKey FingerprintSHA256
  ParsePrivateKey ParsePrivateKeyWithPassphrase signer_PublicKey).
#[local] Abbreviation execute_begin := (execute_begin sha256 hmac decodeExecute ParseAuthorizedKey FingerprintSHA256
  ParsePrivateKey ParsePrivateKeyWithPassphrase signer_PublicKey).
#[local] Abbreviation execute_run := (execute_run sha256 run elapsed cancelled).
#[local] Abbreviation execute_finish := (execute_finish sha256 run elapsed cancelled).
#[local] Abbreviation handlePreview := (handlePreview sha256 hmac decodePreview).
#[local] Abbreviation AcceptedRun := (@AcceptedRun PublicKey SignerKey).

(** What the checks before the claim establish. *)
Record cleared (h : RunbookHandler) (body : string) (now : time) (a : AcceptedRun) : Prop := {
  cl_payload : decodeExecute body = Some (ad_payload a);
  cl_plan : buildBoundPlan sha256 (er_ProtocolVersion (ad_payload a)) (er_Binding (ad_payload a)) =
            Ok (ad_plan a, ad_digest a);
  cl_mutation : Mutating (plan_definition (ad_plan a)) = true → mutationsEnabled h = true;
  cl_approval : validateApproval (ad_payload a) (plan_definition (ad_plan a)) (ad_digest a) now = Ok tt;
  cl_ssh : ∃ pinned signer, ad_config a = sshConfig h (er_Binding (ad_payload a)) pinned signer ∧
    FingerprintSHA256 pinned = rb_PinnedHostKeySHA256 (er_Binding (ad_payload a)) ∧
    FingerprintSHA256 (signer_PublicKey signer) = rb_CredentialPublicKeySHA256 (er_Binding (ad_payload a));
}.

Lemma execute_checks_cleared h body now a : execute_checks h body now = inr a → cleared h body now a.
Proof.
  unfold execute_checks. intros H. destruct (decodeExecute body) as [payload|] eqn:Ep; [|done].
  destruct (buildBoundPlan _ _ _) as [[plan digest]|] eqn:Eb; [|done].
  destruct (Mutating (plan_definition plan) && negb (mutationsEnabled h)) eqn:Em; [done|].
  destruct (validateApproval _ _ _ _) as [[]|] eqn:Ea; [|done].
  destruct (validateRunbookSSHMaterial _ _ _ _ _ _) as [[pinned signer]|] eqn:Es; [|done].
  injection H as <-. split; cbn; try done.
  - intros E. rewrite E in Em. by destruct (mutationsEnabled h).
  - exists pinned, signer. split; [done|]. unfold validateRunbookSSHMaterial in Es.
    apply bind_Ok_inv in Es as (? & _ & Es). apply bind_Ok_inv in Es as (pk & _ & Es).
    apply bind_Ok_inv in Es as (? & G1%guard_ok_Ok & Es). apply bind_Ok_inv in Es as (sg & _ & Es).
    apply bind_Ok_inv in Es as (? & G2%guard_ok_Ok & Es). simplify_eq. by reflect_bools.
Qed.

Lemma authenticateJSON_Ok h request now h' body :
  authenticateJSON h request now = (h', inr body) →
  hr_body request = Some body ∧ slen body ≤ bodyLimit h ∧
  (Verify sha256 hmac (verifier h) (hr_request request) body now).2 = Ok tt ∧
  ledger h' = ledger h ∧ inFlight h' = inFlight h ∧ maxConcurrent h' = maxConcurrent h ∧
  mutationsEnabled h' = mutationsEnabled h.
Proof.
  unfold authenticateJSON. intros H. case_match; [done|]. case_match; [done|].
  destruct (hr_body request) as [b|]; [|done]. case_match; [done|].
  destruct (Verify _ _ _ _ _ _) as [v [[]|e]] eqn:Ev; [|done]. simplify_eq/=. reflect_bools.
  by rewrite Ev.
Qed.

(** The first half keeps the configuration; the ledger changes by at most one
    claim, and a slot is taken exactly for a run. *)
Lemma claim_run_cases h order (a : AcceptedRun) requestID now h' res :
  claim_run h order a requestID now = (h', res) →
  maxConcurrent h' = maxConcurrent h ∧ inFlight h' = inFlight h ∧
  ∃ c, claim (ledger h) order (rb_JobID (er_Binding (ad_payload a))) (ad_digest a) now = (ledger h', c) ∧ (res = None ↔ c = claimNew).
Proof.
  unfold claim_run. destruct (claim _ _ _ _ _) as [l c]. intros [= <- <-]. split_and!; [done..|]. exists c. by destruct c.
Qed.

Lemma execute_begin_cases h order request requestID now h' res :
  execute_begin h order request requestID now = (h', res) →
  maxConcurrent h' = maxConcurrent h ∧
  match res with
  | inl _ => inFlight h' = inFlight h ∧
      (ledger h' = ledger h ∨ ∃ j sc c, claim (ledger h) order j sc now = (ledger h', c) ∧ c ≠ claimNew)
  | inr a => inFlight h < maxConcurrent h ∧ inFlight h' = inFlight h + 1 ∧
      claim (ledger h) order (rb_JobID (er_Binding (ad_payload a))) (ad_digest a) now = (ledger h', claimNew) ∧
      ∃ body h1 h2, authenticateJSON h request now = (h1, inr body) ∧ mutationsEnabled h2 = mutationsEnabled h1 ∧ cleared h2 body now a
  end.
Proof.
  unfold execute_begin. intros H. destruct (authenticateJSON h request now) as [h1 [e|body]] eqn:Eau.
  - simplify_eq. unfold authenticateJSON in Eau. repeat case_match; simplify_eq/=; auto.
  - pose proof (authenticateJSON_Ok _ _ _ _ _ Eau) as (_ & _ & _ & El & Ei & Em & _).
    rewrite <-El, <-Ei, <-Em. unfold acquire_slot in H. destruct (maxConcurrent h1 <=? inFlight h1)%Z eqn:Ec; [simplify_eq; auto|].
    reflect_bools. set (h2 := set_inFlight h1 (inFlight h1 + 1)) in *.
    destruct (execute_checks h2 body now) as [e|a] eqn:Ek; [simplify_eq/=; split_and!; auto; lia|].
    apply execute_checks_cleared in Ek. destruct (claim_run h2 order a requestID now) as [h3 o] eqn:Ecl.
    apply claim_run_cases in Ecl as (Em3 & Ei3 & c & Hc & Hn). cbn in Em3, Ei3, Hc.
    destruct o as [e|]; simplify_eq/=; (split; [done|]).
    + split; [lia|]. right. eexists _, _, c. split; [exact Hc|]. by intros E%Hn.
    + rewrite (proj1 Hn eq_refl) in Hc. split_and!; [lia|lia|done|]. by exists body, h1, h2.
Qed.

(** ** Interleavings of requests

    The state of the endpoint: the handler, the runner, the authenticated
    requests that wait for a slot, those that hold one and have not claimed, the
    runs, and how many have recorded their response and not released their slot.
    Each step is one access to shared state (the verifier, the channel, the
    ledger), and the steps of different requests come in any order. *)

Definition job_of (a : AcceptedRun) : string := rb_JobID (er_Binding (ad_payload a)).

Record endpoint := mkEndpoint {
  ep_handler : RunbookHandler;
  ep_runner : R;
  ep_waiting : list string;
  ep_entered : list string;
  ep_running : list AcceptedRun;
  ep_leaving : nat;
}.

Inductive endpoint_step : endpoint → endpoint → Prop :=
| ep_authenticated h r ws es rs n request now h' body :
    authenticateJSON h request now = (h', inr body) →
    endpoint_step (mkEndpoint h r ws es rs n) (mkEndpoint h' r (body :: ws) es rs n)
| ep_unauthenticated h r ws es rs n request now h' e :
    authenticateJSON h request now = (h', inl e) →
    endpoint_step (mkEndpoint h r ws es rs n) (mkEndpoint h' r ws es rs n)
| ep_enter h r ws ws' es rs n body h' :
    acquire_slot h = (h', None) →
    endpoint_step (mkEndpoint h r (ws ++ body :: ws') es rs n) (mkEndpoint h' r (ws ++ ws') (body :: es) rs n)
| ep_busy h r ws ws' es rs n body h' e :
    acquire_slot h = (h', Some e) →
    endpoint_step (mkEndpoint h r (ws ++ body :: ws') es rs n) (mkEndpoint h' r (ws ++ ws') es rs n)
| ep_refused h r ws es es' rs n body now e :
    execute_checks h body now = inl e →
    endpoint_step (mkEndpoint h r ws (es ++ body :: es') rs n) (mkEndpoint h r ws (es ++ es') rs (S n))
| ep_claim h r ws es es' rs n body now order requestID a h' res :
    order ≡ₚ map_to_list (entries (ledger h)) →
    execute_checks h body now = inr a → claim_run h order a requestID now = (h', res) →
    endpoint_step (mkEndpoint h r ws (es ++ body :: es') rs n)
      (match res with Some _ => mkEndpoint h' r ws (es ++ es') rs (S n) | None => mkEndpoint h' r ws (es ++ es') (a :: rs) n end)
| ep_finish h r ws es rs rs' n a requestID h' r' resp :
    execute_run h r a requestID = (h', r', resp) →
    endpoint_step (mkEndpoint h r ws es (rs ++ a :: rs') n) (mkEndpoint h' r' ws es (rs ++ rs') (S n))
| ep_release h r ws es rs n :
    endpoint_step (mkEndpoint h r ws es rs (S n)) (mkEndpoint (release_slot h) r ws es rs n)
| ep_preview h r ws es rs n request requestID now h' resp :
    handlePreview h request requestID now = (h', resp) →
    endpoint_step (mkEndpoint h r ws es rs n) (mkEndpoint h' r ws es rs n).

(** Each request that entered, runs or leaves holds one slot, and each run has an
    in-progress entry of its own. *)
Definition in_progress (h : RunbookHandler) (a : AcceptedRun) : Prop :=
  ∃ e, entries (ledger h) !! job_of a = Some e ∧ scope e = ad_digest a ∧ state e = runbookInProgress.
Definition slots_held (s : endpoint) : Z := Z.of_nat (length (ep_entered s) + length (ep_running s) + ep_leaving s).
Record endpoint_ok (s : endpoint) : Prop := mkEndpointOk {
  eo_jobs : NoDup (map job_of (ep_running s));
  eo_slots : inFlight (ep_handler s) = slots_held s;
  eo_limit : inFlight (ep_handler s) ≤ maxConcurrent (ep_handler s);
  eo_claimed : Forall (in_progress (ep_handler s)) (ep_running s);
}.

Lemma claim_new_entry l order j sc now l' :
  claim l order j sc now = (l', claimNew) →
  entries l !! j = None ∧ ∃ e, entries l' !! j = Some e ∧ scope e = sc ∧ state e = runbookInProgress.
Proof.
  unfold claim. intros H. repeat case_match; simplify_eq; cbn; (split; [done|]); rewrite lookup_insert_eq; by eexists.
Qed.

Lemma pending_claimed h h' order j sc now c (rs : list AcceptedRun) :
  order ≡ₚ map_to_list (entries (ledger h)) → claim (ledger h) order j sc now = (ledger h', c) →
  Forall (in_progress h) rs → Forall (in_progress h') rs.
Proof.
  intros Hp Hc HF. eapply Forall_impl; [exact HF|]. intros a (e & He & Hs & Hst). exists e.
  split; [|done]. by eapply claim_evicts_completed.
Qed.

Lemma in_progress_ledger h h' rs : ledger h' = ledger h → Forall (in_progress h) rs → Forall (in_progress h') rs.
Proof. intros E HF. eapply Forall_impl; [exact HF|]. intros a. unfold in_progress. by rewrite E. Qed.

Lemma execute_run_cases h r a requestID h' r' resp :
  execute_run h r a requestID = (h', r', resp) →
  maxConcurrent h' = maxConcurrent h ∧ inFlight h' = inFlight h ∧
  ∃ x, ledger h' = complete (ledger h) (job_of a) (ad_digest a) x.
Proof.
  unfold execute_run. destruct (Execute _ _ _ _ _ _) as [[r1 e] err]. intros. simplify_eq/=. eauto.
Qed.

Lemma execute_finish_cases h r a requestID h' r' resp :
  execute_finish h r a requestID = (h', r', resp) →
  maxConcurrent h' = maxConcurrent h ∧ inFlight h' = inFlight h - 1 ∧
  ∃ x, ledger h' = complete (ledger h) (job_of a) (ad_digest a) x.
Proof.
  unfold execute_finish. destruct (execute_run h r a requestID) as [[h1 r1] e] eqn:E. apply execute_run_cases in E as (Em & Ei & x & El).
  intros. simplify_eq/=. rewrite Em, Ei. eauto.
Qed.

Lemma authenticateJSON_keeps h request now h' res :
  authenticateJSON h request now = (h', res) →
  maxConcurrent h' = maxConcurrent h ∧ inFlight h' = inFlight h ∧ ledger h' = ledger h.
Proof. unfold authenticateJSON. intros H. repeat case_match; simplify_eq/=; done. Qed.

Lemma handlePreview_cases h request requestID now h' resp :
  handlePreview h request requestID now = (h', resp) →
  maxConcurrent h' = maxConcurrent h ∧ inFlight h' = inFlight h ∧ ledger h' = ledger h.
Proof.
  unfold handlePreview, authenticateJSON. intros H. repeat case_match; simplify_eq/=; done.
Qed.

(** The other runs keep their entries when one completes. *)
Lemma completed_others h h' (a : AcceptedRun) x (rs rs' : list AcceptedRun) :
  ledger h' = complete (ledger h) (job_of a) (ad_digest a) x → NoDup (map job_of (rs ++ a :: rs')) →
  Forall (in_progress h) (rs ++ a :: rs') → NoDup (map job_of (rs ++ rs')) ∧ Forall (in_progress h') (rs ++ rs').
Proof.
  intros El Hnd HF. rewrite map_app in Hnd. cbn in Hnd. apply NoDup_app in Hnd as (N1 & N2 & N3). apply NoDup_cons in N3 as [N4 N5].
  rewrite Forall_app, Forall_cons in HF. destruct HF as (F1 & _ & F2). split.
  - rewrite map_app. apply NoDup_app. split_and!; [done| |done]. intros y Hy Hy'. apply (N2 y Hy). by right.
  - assert (∀ b, b ∈ rs ++ rs' → job_of b ≠ job_of a) as Hne.
    { intros b [Hb|Hb]%elem_of_app Eq.
      - apply (N2 (job_of a)); [|left]. rewrite <-Eq. by apply list_elem_of_fmap_2.
      - apply N4. rewrite <-Eq. by apply list_elem_of_fmap_2. }
    assert (Forall (in_progress h) (rs ++ rs')) as HF by (by rewrite Forall_app).
    rewrite Forall_forall in HF |- *. intros b Hb. destruct (HF b Hb) as (e & He & Hs & Hst).
    exists e. split; [|done]. rewrite El. apply complete_lookup; [done|]. left. by apply Hne.
Qed.

(** A step that leaves the runs, the slots and the ledger alone. *)
Lemma endpoint_ok_same h r ws es rs n h' r' ws' es' n' :
  endpoint_ok (mkEndpoint h r ws es rs n) → maxConcurrent h' = maxConcurrent h → inFlight h' ≤ maxConcurrent h' → ledger h' = ledger h →
  inFlight h' = Z.of_nat (length es' + length rs + n') → endpoint_ok (mkEndpoint h' r' ws' es' rs n').
Proof. intros [Hj _ _ Hc] Em Hle El Hs. split; cbn in *; [done|done|done|by eapply in_progress_ledger]. Qed.

Ltac slots := unfold slots_held in *; cbn [ep_entered ep_running ep_leaving ep_handler] in *; rewrite ?length_app in *; cbn [length] in *; lia.

Lemma endpoint_step_ok s s' : endpoint_step s s' → endpoint_ok s → endpoint_ok s'.
Proof.
  intros Hst Hok. pose proof (eo_slots _ Hok) as Hs. pose proof (eo_limit _ Hok) as Hle. destruct Hst as
    [h r ws es rs n request now h' body H|h r ws es rs n request now h' e H|h r ws ws' es rs n body h' H|h r ws ws' es rs n body h' e H
    |h r ws es es' rs n body now e H|h r ws es es' rs n body now order rid a h' res Hp _ H|h r ws es rs rs' n a rid h' r' resp H
    |h r ws es rs n|h r ws es rs n request rid now h' resp H].
  - apply authenticateJSON_keeps in H as (? & ? & ?). eapply endpoint_ok_same; [exact Hok|done|cbn in *; congruence|done|slots].
  - apply authenticateJSON_keeps in H as (? & ? & ?). eapply endpoint_ok_same; [exact Hok|done|cbn in *; congruence|done|slots].
  - unfold acquire_slot in H. case_match eqn:E; [done|]. reflect_bools. simplify_eq.
    eapply endpoint_ok_same; [exact Hok|done|cbn; lia|done|cbn; slots].
  - unfold acquire_slot in H. case_match; simplify_eq. eapply endpoint_ok_same; [exact Hok|done|done|done|slots].
  - eapply endpoint_ok_same; [exact Hok|done|done|done|slots].
  - apply claim_run_cases in H as (Em & Ei & c & Hc & Hn). destruct Hok as [Hj _ _ HF]. cbn in *.
    pose proof (pending_claimed _ _ _ _ _ _ _ _ Hp Hc HF) as HF'. destruct res as [e|].
    + split; cbn; [done|rewrite Ei; slots|lia|done].
    + rewrite (proj1 Hn eq_refl) in Hc. destruct (claim_new_entry _ _ _ _ _ _ Hc) as [Hnone Hnew].
      split; cbn; [|rewrite Ei; slots|lia|by constructor]. constructor; [|done].
      intros (x & Ex & Hx)%list_elem_of_fmap. rewrite Forall_forall in HF. destruct (HF x Hx) as (e & He & _).
      unfold job_of in *. congruence.
  - apply execute_run_cases in H as (Em & Ei & x & El). destruct Hok as [Hj _ _ HF]. cbn in *.
    destruct (completed_others h h' a x rs rs' El Hj HF). split; cbn; [done|rewrite Ei; slots|lia|done].
  - eapply endpoint_ok_same; [exact Hok|done|cbn in *; lia|done|cbn; slots].
  - apply handlePreview_cases in H as (? & ? & ?). eapply endpoint_ok_same; [exact Hok|done|cbn in *; congruence|done|slots].
Qed.

(** A completed run keeps its entry while the ledger cannot have filled. *)
Lemma completed_not_claimed l j sc x e n l2 order sc' now l3 c :
  entries l !! j = Some e → scope e = sc → state e = runbookInProgress →
  nsteps (ledger_step (λ _ _, True)) n (complete l j sc x) l2 →
  len (entries (complete l j sc x)) + Z.of_nat n ≤ max (complete l j sc x) →
  claim l2 order j sc' now = (l3, c) → c ≠ claimNew.
Proof.
  intros He Hsc Hst Hn Hlen Hc ->.
  pose proof (claim_completed l j sc x e n l2 order now He Hsc Hst Hn Hlen) as Hrep.
  apply claim_new_entry in Hc as [Hnone _]. unfold claim in Hrep. rewrite Hnone in Hrep.
  repeat case_match; done.
Qed.

#[local] Abbreviation handleExecute := (handleExecute sha256 hmac decodeExecute ParseAuthorizedKey FingerprintSHA256
  ParsePrivateKey ParsePrivateKeyWithPassphrase signer_PublicKey run elapsed cancelled).

(** * Properties *)

(** C2: a request makes the SSH runner do anything only if all of
    this holds: its HMAC verified, its payload decoded to a catalog plan with a digest,
    mutations are enabled if the plan mutates, the approval says "approved" for exactly this
    digest and job, is at most 15 minutes old and unexpired, mutating plans carry an emergency
    grant that ends within four hours, the pinned host key and the credential have the
    fingerprints of the binding, and the job was not in the ledger; the runner then ran a
    prefix of the plan's steps against the bound target. *)
Theorem execution_requires_approval h r order request requestID now h' r' resp :
  handleExecute h r order request requestID now = (h', r', resp) → r' ≠ r →
  ∃ body payload plan digest config done_ rest,
    hr_body request = Some body ∧ (Verify sha256 hmac (verifier h) (hr_request request) body now).2 = Ok tt ∧
    decodeExecute body = Some payload ∧
    buildBoundPlan sha256 (er_ProtocolVersion payload) (er_Binding payload) = Ok (plan, digest) ∧
    (Mutating (plan_definition plan) = true → mutationsEnabled h = true) ∧
    Decision (er_Approval payload) = "approved" ∧ ap_ScopeDigest (er_Approval payload) = digest ∧
    ap_JobID (er_Approval payload) = rb_JobID (er_Binding payload) ∧
    now - 15 * minute ≤ ApprovedAt (er_Approval payload) ∧ now < ap_ExpiresAt (er_Approval payload) ∧
    (Mutating (plan_definition plan) = true → now < eg_ExpiresAt (er_Emergency payload) ≤ now + 4 * hour) ∧
    FingerprintSHA256 (sc_PinnedHostKey config) = rb_PinnedHostKeySHA256 (er_Binding payload) ∧
    FingerprintSHA256 (signer_PublicKey (sc_Auth config)) = rb_CredentialPublicKeySHA256 (er_Binding payload) ∧
    sc_Address config = Address (rb_Target (er_Binding payload)) ∧
    entries (ledger h) !! rb_JobID (er_Binding payload) = None ∧
    plan_steps plan = done_ ++ rest ∧ r' = ran (run config) r done_.
Proof.
  unfold handleExecute. destruct (execute_begin h order request requestID now) as [h1 [e|a]] eqn:Eb.
  { intros. simplify_eq. }
  apply execute_begin_cases in Eb as (_ & _ & _ & Hc & body & h2 & h3 & Hau & Hsame & [Hp Hb Hm Ha (pk & sg & Hcfg & Hf1 & Hf2)]).
  apply claim_new_entry in Hc as [Hnone _].
  apply authenticateJSON_Ok in Hau as (Hbody & _ & Hv & _ & _ & _ & Hmut).
  unfold execute_finish, execute_run. destruct (Execute sha256 (run (ad_config a)) elapsed cancelled r (ad_plan a)) as [[r1 ex] err] eqn:Ex.
  intros [= <- <- <-] Hne. exists body, (ad_payload a), (ad_plan a), (ad_digest a), (ad_config a).
  assert (∃ d rest, plan_steps (ad_plan a) = d ++ rest ∧ r1 = ran (run (ad_config a)) r d) as (d & rest & Hd & Hr).
  { unfold Execute in Ex. case_bool_decide; [by simplify_eq|]. case_match; [by simplify_eq|].
    destruct (execute_steps _ _ _ _ _ _) as [r2 e2] eqn:E2. simplify_eq.
    apply execute_steps_spec in E2 as (d & rest & _ & Hs & _ & _ & _ & -> & _). eauto. }
  assert (Emergency (plan_definition (ad_plan a)) = Mutating (plan_definition (ad_plan a))) as Hem.
  { apply buildBoundPlan_Ok in Hb as (_ & _ & _ & Hb & _). apply Build_Ok in Hb as (df & st & Hdef & _ & _ & ->).
    by apply definitions_facts in Hdef as (_ & _ & ? & _). }
  exists d, rest. rewrite Hcfg. cbn. rewrite Hsame, Hmut in Hm.
  unfold validateApproval, maxApprovalLifetime, maxEmergencyLifetime in Ha.
  apply bind_Ok_inv in Ha as (? & G1%guard_ok_Ok & Ha). apply bind_Ok_inv in Ha as (? & G2%guard_ok_Ok & Ha).
  apply bind_Ok_inv in Ha as (? & _ & Ha). reflect_bools. split_and!; try done; try lia.
  - intros Emut. rewrite Hem, Emut in Ha. apply bind_Ok_inv in Ha as (? & G3%guard_ok_Ok & _). reflect_bools. lia.
  - by rewrite <-Hcfg.
Qed.

(** C3: however requests and running plans interleave, access by access to the
    verifier, the slots and the ledger, the endpoint never has two runs of one job
    in flight, every run in flight is recorded as in progress with its digest, and
    requests that hold a slot, the runs among them, are never more than the
    configured limit. *)
Theorem one_run_per_job h0 r0 s :
  inFlight h0 = 0 → 0 ≤ maxConcurrent h0 → rtc endpoint_step (mkEndpoint h0 r0 [] [] [] 0) s →
  NoDup (map job_of (ep_running s)) ∧
  Z.of_nat (length (ep_running s)) ≤ slots_held s ≤ maxConcurrent (ep_handler s) ∧
  Forall (λ a, ∃ e, entries (ledger (ep_handler s)) !! job_of a = Some e ∧ scope e = ad_digest a ∧ state e = runbookInProgress)
    (ep_running s).
Proof.
  intros H0 Hmax Hrun.
  assert (endpoint_ok (mkEndpoint h0 r0 [] [] [] 0)) as Hok by (split; cbn; rewrite ?H0; [constructor|done..|constructor]).
  assert (∀ s s', rtc endpoint_step s s' → endpoint_ok s → endpoint_ok s') as Hind.
  { clear. induction 1; [done|]. intros. apply IHrtc. by eapply endpoint_step_ok. }
  destruct (Hind _ _ Hrun Hok) as [Hj Hs Hl HF]. split_and!; [done| |lia|done]. unfold slots_held. lia.
Qed.

(** after a run of a job finished and its response was recorded, no
    request starts that job again, with the same or another scope, as long as the ledger
    operations since then ([n] of them) cannot have filled the ledger. *)
Theorem executed_job_not_rerun h r a requestID h1 r1 resp e n h2 order request requestID2 now h3 a' :
  entries (ledger h) !! job_of a = Some e → scope e = ad_digest a → state e = runbookInProgress →
  execute_finish h r a requestID = (h1, r1, resp) →
  nsteps (ledger_step (λ _ _, True)) n (ledger h1) (ledger h2) →
  len (entries (ledger h1)) + Z.of_nat n ≤ max (ledger h1) →
  execute_begin h2 order request requestID2 now = (h3, inr a') →
  job_of a' ≠ job_of a.
Proof.
  intros He Hsc Hst Hf Hn Hlen Hb Eq. apply execute_finish_cases in Hf as (_ & _ & x & El).
  apply execute_begin_cases in Hb as (_ & _ & _ & Hc & _). rewrite El in Hn, Hlen.
  fold (job_of a') in Hc. rewrite Eq in Hc. by eapply completed_not_claimed.
Qed.
End handlers.

(** the digest that an approval quotes determines the whole binding:
    two valid bindings with the same digest are the same action, version, host, job, target
    address, port and user, host key, credential and parameters, or SHA-256 has a collision. *)
Theorem approval_digest_binds sha256 pv1 b1 plan1 pv2 b2 plan2 digest :
  buildBoundPlan sha256 pv1 b1 = Ok (plan1, digest) → buildBoundPlan sha256 pv2 b2 = Ok (plan2, digest) →
  b1 = b2 ∨ ∃ x y, x ≠ y ∧ sha256 x = sha256 y.
Proof. apply buildBoundPlan_binds. Qed.

(** ** A concrete endpoint *)

Definition demo_fp : string := "SHA256:abcdefghijklmnop".
Definition demo_binding (job : string) : RunbookBinding :=
  mkRunbookBinding (mkActionRef ActionServiceRestart 1) "host_1" job (mkTarget "203.0.113.5" 22 "root")
    demo_fp demo_fp (mkParameters "nginx" "" 0 0).
Definition demo_scope : string := hex_encode demo_key.
Definition demo_payload (job : string) : RunbookExecuteRequest :=
  mkExecuteRequest "v1" (demo_binding job)
    (mkApproval "approved" (mkActionRef ActionServiceRestart 1) "host_1" job demo_scope demo_now (demo_now + minute))
    (mkEmergency "inc_1" (demo_now + hour)) "restart the proxy" "ssh-ed25519 AAAA" (mkCredential "pem" "").
Definition demo_decode (job body : string) : option RunbookExecuteRequest :=
  if body =? "{}" then Some (demo_payload job) else None.
Definition demo_authorized (s : string) : option (string * string) := Some (s, "").
Definition demo_fingerprint (_ : string) : string := demo_fp.
Definition demo_runner (_ : @SSHConfig string string) (log : list string) (s : Step)
    : list string * (CommandResult * option run_error) := demo_run "" log s.
Definition demo_handler : RunbookHandler :=
  mkRunbookHandler demo_verifier true false 1024 1024 second 4 0 (newRunbookLedger 8).
Definition demo_http : HttpRequest :=
  mkHttpRequest (demo_signed demo_now) "/v1/runbooks/execute" "" (Some "application/json") 2 (Some "{}").
Definition demo_execute (h : RunbookHandler) (log : list string) (now : time)
    : RunbookHandler * list string * Response :=
  handleExecute demo_sha demo_hmac (demo_decode "job_1") demo_authorized demo_fingerprint Some (λ pem _, Some pem) id
    demo_runner (λ _, second) (λ _, false) h log (map_to_list (entries (ledger h))) demo_http "req_1" now.
Definition demo_begin (job : string) (h : RunbookHandler) (now : time) :=
  execute_begin demo_sha demo_hmac (demo_decode job) demo_authorized demo_fingerprint Some (λ pem _, Some pem) id
    h (map_to_list (entries (ledger h))) demo_http "req_1" now.
Definition demo_log : list string :=
  ["service-restart-preflight"; "service-restart-evidence"; "service-restart-apply"; "service-restart-verify"].

Lemma execution_requires_approval_witness :
  (Verify demo_sha demo_hmac demo_verifier (demo_signed demo_now) "{}" demo_now).2 = Ok tt.
Proof.
  destruct (execution_requires_approval demo_sha demo_hmac (demo_decode "job_1") demo_authorized demo_fingerprint Some
    (λ pem _, Some pem) id demo_runner (λ _, second) (λ _, false) demo_handler []
    (map_to_list (entries (ledger demo_handler))) demo_http "req_1" demo_now
    (demo_execute demo_handler [] demo_now).1.1 demo_log (demo_execute demo_handler [] demo_now).2)
    as (body & payload & plan & digest & config & d & rest & Hbody & Hv & _).
  - vm_compute. reflexivity.
  - discriminate.
  - injection Hbody as <-. exact Hv.
Defined.

Definition bound_plan : Plan :=
  match buildBoundPlan demo_sha "v1" (demo_binding "job_1") with Ok (p, _) => p | Err _ => demo_plan end.
Definition accepted_default : @AcceptedRun string string :=
  mkAccepted (demo_payload "job_1") bound_plan demo_scope
    (sshConfig demo_handler (demo_binding "job_1") "key" "pem").
Definition accepted_first : @AcceptedRun string string :=
  match (demo_begin "job_1" demo_handler demo_now).2 with inr a => a | inl _ => accepted_default end.

(** The request, access by access. *)
Definition demo_authenticated : RunbookHandler := (authenticateJSON demo_sha demo_hmac demo_handler demo_http demo_now).1.
Definition demo_entered : RunbookHandler := (acquire_slot demo_authenticated).1.
Definition demo_claimed : RunbookHandler :=
  (claim_run demo_entered (map_to_list (entries (ledger demo_entered))) accepted_first "req_1" demo_now).1.

Lemma one_run_per_job_witness :
  let s := mkEndpoint demo_claimed ([] : list string) [] [] [accepted_first] 0 in
  Z.of_nat (length [accepted_first]) ≤ slots_held s ≤ maxConcurrent demo_claimed.
Proof.
  refine (proj1 (proj2 (one_run_per_job demo_sha demo_hmac (λ _, None) (demo_decode "job_1") demo_authorized demo_fingerprint Some
    (λ pem _, Some pem) id demo_runner (λ _, second) (λ _, false) demo_handler [] (mkEndpoint demo_claimed [] [] [] [accepted_first] 0) _ _ _))).
  - reflexivity.
  - vm_compute. discriminate.
  - eapply rtc_l; [apply (ep_authenticated _ _ _ _ _ _ _ _ _ _ _ _ _ _ _ _ _ _ demo_http demo_now demo_authenticated "{}"); vm_compute; reflexivity|].
    eapply rtc_l; [apply (ep_enter _ _ _ _ _ _ _ _ _ _ _ _ _ _ [] [] _ _ _ "{}" demo_entered); vm_compute; reflexivity|].
    eapply rtc_l; [|apply rtc_refl].
    apply (ep_claim _ _ _ _ _ _ _ _ _ _ _ _ _ _ _ [] [] _ _ "{}" demo_now (map_to_list (entries (ledger demo_entered))) "req_1" accepted_first demo_claimed None).
    + reflexivity.
    + vm_compute. reflexivity.
    + apply injective_projections; [reflexivity|vm_compute; reflexivity].
Defined.

Definition demo_begun : RunbookHandler := (demo_begin "job_1" demo_handler demo_now).1.
Definition demo_done : RunbookHandler :=
  (execute_finish demo_sha demo_runner (λ _, second) (λ _, false) demo_begun [] accepted_default "req_1").1.1.
(** A Connector that restarted its verifier but kept its ledger. *)
Definition demo_again : RunbookHandler :=
  mkRunbookHandler demo_verifier true false 1024 1024 second 4 0 (ledger demo_done).
Definition accepted_other : @AcceptedRun string string :=
  match (demo_begin "job_2" demo_again demo_now).2 with inr a => a | inl _ => accepted_default end.

Lemma executed_job_not_rerun_witness : job_of accepted_other ≠ job_of accepted_default.
Proof.
  refine (executed_job_not_rerun demo_sha demo_hmac (demo_decode "job_2") demo_authorized demo_fingerprint Some
    (λ pem _, Some pem) id demo_runner (λ _, second) (λ _, false) demo_begun [] accepted_default "req_1" demo_done
    (execute_finish demo_sha demo_runner (λ _, second) (λ _, false) demo_begun [] accepted_default "req_1").1.2
    (execute_finish demo_sha demo_runner (λ _, second) (λ _, false) demo_begun [] accepted_default "req_1").2
    (mkEntry demo_scope runbookInProgress demo_now RunbookExecuteResponse_zero) 0 demo_again
    (map_to_list (entries (ledger demo_again))) demo_http "req_1" demo_now (demo_begin "job_2" demo_again demo_now).1
    accepted_other _ _ _ _ _ _ _).
  - vm_compute. reflexivity.
  - vm_compute. reflexivity.
  - reflexivity.
  - vm_compute. reflexivity.
  - constructor.
  - vm_compute. discriminate.
  - vm_compute. reflexivity.
Defined.

Lemma approval_digest_binds_witness :
  demo_binding "job_1" = demo_binding "job_1" ∨ ∃ x y : string, x ≠ y ∧ demo_sha x = demo_sha y.
Proof.
  apply (approval_digest_binds demo_sha "v1" (demo_binding "job_1") (bound_plan) "v1"
    (demo_binding "job_1") (bound_plan) demo_scope).
  - vm_compute. reflexivity.
  - vm_compute. reflexivity.
Defined.
