(* ===== verification/Identity.v ===== *)
(** * Identity assertions

    Models [services/control-plane/internal/identity/assertion.go]: the
    verifier of short-lived Ed25519 assertions, which are consumed once.
    Ed25519, SHA-256 and the JSON decoding of the two segments are
    parameters; each reading of the clock is an argument. *)

From S2P Require Import Prelude GoStrings Encoding Auth.

Definition maxAssertionBytes : Z := 12288.
Definition maxAssertionTTL : duration := 60 * second.
Definition defaultClockSkew : duration := 5 * second.
Definition ed25519_PublicKeySize : Z := 32.
Definition ed25519_SignatureSize : Z := 64.

Record Claims := mkClaims {
  Issuer : string;
  Audience : string;
  c_Subject : string;
  c_Role : string;
  c_AllHosts : bool;
  c_HostIDs : list string;
  IssuedAt : Z;
  Expires : Z;
  JWTID : string;
}.

Record header := mkHeader { Algorithm : string; hd_KeyID : string; Type_ : string }.

Record Config := mkConfig {
  cf_Issuer : string;
  cf_Audience : string;
  cf_KeyID : string;
  cf_PublicKey : string;
  cf_ClockSkew : duration;
}.

Record Verifier := mkVerifier {
  issuer : string;
  audience : string;
  keyID : string;
  key : string;
  skew : duration;
  consumed : gmap string time;
}.

Definition constantStringEqual (left right : string) : bool :=
  if negb (slen left =? slen right)%Z then false else constant_eq left right.

Lemma constantStringEqual_true left right : constantStringEqual left right = true ↔ left = right.
Proof.
  unfold constantStringEqual, constant_eq. split.
  - case_match; [done|]. apply String.eqb_eq.
  - intros ->. by rewrite Z.eqb_refl, String.eqb_refl.
Qed.

Definition NewVerifier (c : Config) : result string Verifier :=
  let i := trim_space (cf_Issuer c) in
  let a := trim_space (cf_Audience c) in
  let k := trim_space (cf_KeyID c) in
  require negb (i =? "") && (slen i <=? 256)%Z && negb (a =? "") && (slen a <=? 256)%Z
    else "identity issuer and audience are required" ;;
  require negb (k =? "") && (slen k <=? 128)%Z && negb (contains_any (String "013" (String newline "")) k)
    else "identity key id is invalid" ;;
  require (slen (cf_PublicKey c) =? ed25519_PublicKeySize)%Z else "identity Ed25519 public key is invalid" ;;
  let s := if (cf_ClockSkew c =? 0)%Z then defaultClockSkew else cf_ClockSkew c in
  require (0 <=? s)%Z && (s <=? 15 * second)%Z else "identity clock skew must be between zero and 15 seconds" ;;
  Ok (mkVerifier i a k (cf_PublicKey c) s ∅).

Definition decodeSegment (value : string) (limit : Z) : result string string :=
  require negb (contains "=" value) else "padded base64url is not accepted" ;;
  decoded ← of_option (b64_decode true value) "base64url segment is invalid";
  require (slen decoded <=? limit)%Z else "base64url segment is invalid" ;;
  Ok decoded.

(** The host scope loop, with the set of ids seen so far. *)
Fixpoint check_hosts (seen : gset string) (ids : list string) : result string unit :=
  match ids with
  | [] => Ok tt
  | id :: rest =>
    if negb (has_prefix "host_" id) || (128 <? slen id)%Z || negb (trimmed id) then
      Err "identity assertion host scope is invalid"
    else if bool_decide (id ∈ seen) then Err "identity assertion host scope contains duplicates"
    else check_hosts ({[id]} ∪ seen) rest
  end.

Definition validateClaims (v : Verifier) (c : Claims) (now : time) : result string unit :=
  require constantStringEqual (Issuer c) (issuer v) && constantStringEqual (Audience c) (audience v)
    else "identity assertion issuer or audience is not accepted" ;;
  require trimmed (c_Subject c) && (1 <=? slen (c_Subject c))%Z && (slen (c_Subject c) <=? 128)%Z && ValidRole (c_Role c)
    else "identity assertion principal is invalid" ;;
  require trimmed (JWTID c) && (16 <=? slen (JWTID c))%Z && (slen (JWTID c) <=? 128)%Z
    else "identity assertion id is invalid" ;;
  require negb (c_AllHosts c && negb (bool_decide (c_HostIDs c = [])) || (256 <? Z.of_nat (length (c_HostIDs c)))%Z)
    else "identity assertion host scope is invalid" ;;
  check_hosts ∅ (c_HostIDs c) ≫= λ _,
  let issued := time_unix (IssuedAt c) in
  let expires := time_unix (Expires c) in
  require (0 <? IssuedAt c)%Z && (0 <? Expires c)%Z && (issued <? expires)%Z && (expires - issued <=? maxAssertionTTL)%Z
    else "identity assertion lifetime is invalid" ;;
  require negb ((now + skew v <? issued)%Z || negb (now - skew v <? expires)%Z)
    else "identity assertion is outside its validity window" ;;
  Ok tt.

Lemma check_hosts_Ok seen ids u :
  check_hosts seen ids = Ok u →
  NoDup ids ∧ Forall (λ h, has_prefix "host_" h = true) ids ∧ ∀ h, h ∈ ids → h ∉ seen.
Proof.
  revert seen. induction ids as [|id ids IH]; intros seen H; cbn in H.
  - split_and!; [constructor|constructor|]. by intros h ?%not_elem_of_nil.
  - case_match eqn:E; [done|]. case_bool_decide as Hin; [done|]. apply IH in H as (Hnd & Hp & Hs). reflect_bools.
    split_and!.
    + constructor; [|done]. intros Hid. apply (Hs id Hid). set_solver.
    + by constructor.
    + intros h [->|Hh]%elem_of_cons; [done|]. specialize (Hs h Hh). set_solver.
Qed.

Section identity.
Context (sha256 : string → string).
Context (ed25519_Verify : string → string → string → bool). (* key message signature *)
Context (decodeHeader : string → option header) (decodeClaims : string → option Claims).

Definition consume (v : Verifier) (id : string) (expires now : time) : Verifier * bool :=
  let digest := sha256 id in
  let live := prune (λ deadline, (now - skew v <? deadline)%Z) (consumed v) in
  match live !! digest with
  | Some _ => (mkVerifier (issuer v) (audience v) (keyID v) (key v) (skew v) live, false)
  | None => (mkVerifier (issuer v) (audience v) (keyID v) (key v) (skew v)
               (<[digest := expires + skew v]> live), true)
  end.

(** The checks of [Verify] before the assertion is consumed. *)
Definition Verify_claims (v : Verifier) (assertion : string) (now : time) : result string Claims :=
  require negb ((slen assertion =? 0)%Z || (maxAssertionBytes <? slen assertion)%Z || negb (trimmed assertion))
    else "identity assertion is invalid" ;;
  match split_char "." assertion with
  | [p0; p1; p2] =>
    require negb ((p0 =? "") || (p1 =? "") || (p2 =? "")) else "identity assertion is malformed" ;;
    headerBytes ← (match decodeSegment p0 1024 with Ok b => Ok b | Err _ => Err "identity assertion header is invalid" end);
    parsedHeader ← of_option (decodeHeader headerBytes) "identity assertion header is not accepted";
    require (Algorithm parsedHeader =? "EdDSA") && (Type_ parsedHeader =? "VPSMGR+JWT") &&
            constantStringEqual (hd_KeyID parsedHeader) (keyID v)
      else "identity assertion header is not accepted" ;;
    signature ← (match decodeSegment p2 ed25519_SignatureSize with Ok b => Ok b | Err _ => Err "identity assertion signature is invalid" end);
    require (slen signature =? ed25519_SignatureSize)%Z else "identity assertion signature is invalid" ;;
    require ed25519_Verify (key v) (p0 +:+ "." +:+ p1) signature
      else "identity assertion signature verification failed" ;;
    payload ← (match decodeSegment p1 8192 with Ok b => Ok b | Err _ => Err "identity assertion payload is invalid" end);
    claims ← of_option (decodeClaims payload) "identity assertion claims are invalid";
    validateClaims v claims now ≫= λ _,
    Ok claims
  | _ => Err "identity assertion is malformed"
  end.

(** [Verify] reads the clock twice: for the validity window, and in [consume], just
    before it takes the mutex, for pruning. *)
Definition Verify (v : Verifier) (assertion : string) (now1 now2 : time) : Verifier * result string Principal :=
  match Verify_claims v assertion now1 with
  | Err e => (v, Err e)
  | Ok c =>
    match consume v (JWTID c) (time_unix (Expires c)) now2 with
    | (v', false) => (v', Err "identity assertion was already consumed")
    | (v', true) => (v', Ok (mkPrincipal (c_Subject c) (c_Role c) (c_AllHosts c) ([] ++ c_HostIDs c) ""))
    end
  end.

(** ** Sequences of verifications

    One at a time, the clock not going backwards.  Verifications that overlap can
    take the mutex in another order than their readings of the clock; those are
    covered as far as the readings are in the order of the critical sections. *)
Inductive identity_step : Verifier * time → Verifier * time → Prop :=
| identity_step_intro v clock assertion now1 now2 v' r :
    clock ≤ now1 → now1 ≤ now2 → Verify v assertion now1 now2 = (v', r) →
    identity_step (v, clock) (v', now2).

(** ** Lemmas *)

Lemma validateClaims_Ok v c now u :
  validateClaims v c now = Ok u →
  Issuer c = issuer v ∧ Audience c = audience v ∧ ValidRole (c_Role c) = true ∧
  (c_AllHosts c = true → c_HostIDs c = []) ∧ is_ok (check_hosts ∅ (c_HostIDs c)) = true ∧
  time_unix (IssuedAt c) < time_unix (Expires c) ≤ time_unix (IssuedAt c) + maxAssertionTTL ∧
  time_unix (IssuedAt c) ≤ now + skew v ∧ now - skew v < time_unix (Expires c).
Proof.
  unfold validateClaims. intros H.
  apply bind_Ok_inv in H as (? & G1%guard_ok_Ok & H). apply bind_Ok_inv in H as (? & G2%guard_ok_Ok & H).
  apply bind_Ok_inv in H as (? & G3%guard_ok_Ok & H). apply bind_Ok_inv in H as (? & G4%guard_ok_Ok & H).
  apply bind_Ok_inv in H as (? & G5 & H). apply bind_Ok_inv in H as (? & G6%guard_ok_Ok & H).
  apply bind_Ok_inv in H as (? & G7%guard_ok_Ok & H). clear H. reflect_bools.
  rewrite constantStringEqual_true in *. rewrite G5. split_and!; try done; try lia.
  intros E. match goal with G : c_AllHosts c && _ = false |- _ => rewrite E in G; cbn in G; reflect_bools end. done.
Qed.

Lemma Verify_claims_Ok v assertion now c :
  Verify_claims v assertion now = Ok c →
  validateClaims v c now = Ok tt ∧
  ∃ p0 p1 p2 signature payload, split_char "." assertion = [p0; p1; p2] ∧
    b64_decode true p2 = Some signature ∧ ed25519_Verify (key v) (p0 +:+ "." +:+ p1) signature = true ∧
    b64_decode true p1 = Some payload ∧ decodeClaims payload = Some c.
Proof.
  unfold Verify_claims. intros (? & _ & H)%bind_Ok_inv.
  destruct (split_char "." assertion) as [|p0 [|p1 [|p2 []]]]; try done.
  apply bind_Ok_inv in H as (? & _ & H). apply bind_Ok_inv in H as (? & _ & H).
  apply bind_Ok_inv in H as (? & _ & H). apply bind_Ok_inv in H as (? & _ & H).
  apply bind_Ok_inv in H as (sg & Hsig & H). apply bind_Ok_inv in H as (? & _ & H).
  apply bind_Ok_inv in H as (? & Hed%guard_ok_Ok & H). apply bind_Ok_inv in H as (pl & Hpl & H).
  apply bind_Ok_inv in H as (c' & Hc%of_option_Ok & H). apply bind_Ok_inv in H as ([] & Hv & H). simplify_eq.
  split; [done|]. exists p0, p1, p2, sg, pl.
  assert (∀ p lim out, decodeSegment p lim = Ok out → b64_decode true p = Some out) as Hseg.
  { intros p lim out Hd. unfold decodeSegment in Hd. apply bind_Ok_inv in Hd as (? & _ & Hd).
    apply bind_Ok_inv in Hd as (y & Hy%of_option_Ok & Hd). apply bind_Ok_inv in Hd as (? & _ & Hd). congruence. }
  destruct (decodeSegment p2 _) eqn:E2; [|done]. destruct (decodeSegment p1 _) eqn:E1; [|done].
  apply Hseg in E1, E2. split_and!; try done; congruence.
Qed.

Lemma consume_cases v id expires now v' ok :
  consume v id expires now = (v', ok) →
  skew v' = skew v ∧
  let live := prune (λ deadline, (now - skew v <? deadline)%Z) (consumed v) in
  if ok then live !! sha256 id = None ∧ consumed v' = <[sha256 id := expires + skew v]> live
  else consumed v' = live.
Proof. unfold consume. intros H. case_match; simplify_eq; done. Qed.

(** [Verify] leaves the state alone, prunes it, or adds one new digest. *)
Lemma Identity_Verify_cases v a n1 n2 v' r :
  Verify v a n1 n2 = (v', r) →
  skew v' = skew v ∧
  ((∃ e, r = Err e) ∧ v' = v ∨
   ∃ c, Verify_claims v a n1 = Ok c ∧
     let live := prune (λ deadline, (n2 - skew v <? deadline)%Z) (consumed v) in
     ((∃ e, r = Err e) ∧ consumed v' = live ∨
      (∃ p, r = Ok p) ∧ live !! sha256 (JWTID c) = None ∧
      consumed v' = <[sha256 (JWTID c) := time_unix (Expires c) + skew v]> live)).
Proof.
  unfold Verify. destruct (Verify_claims v a n1) as [c|e] eqn:Ec; intros H.
  - destruct (consume v _ _ n2) as [v1 [|]] eqn:Eco; simplify_eq;
      apply consume_cases in Eco as [Hs Hc]; (split; [done|]); right; exists c; (split; [done|]).
    + right. destruct Hc as [Hn He]. eauto.
    + left. eauto.
  - simplify_eq. split; [done|]. left. eauto.
Qed.

(** The verifier remembers the digest [d] until [D] has passed by the skew. *)
Definition remembers (d : string) (D : time) (s : Verifier * time) : Prop :=
  s.2 - skew s.1 < D → consumed s.1 !! d = Some D.

Lemma identity_step_remembers d D s s' :
  identity_step s s' → remembers d D s → remembers d D s' ∧ skew s'.1 = skew s.1 ∧ s.2 ≤ s'.2.
Proof.
  intros [v clock a n1 n2 v' r H1 H2 H] Hr. cbn in *. apply Identity_Verify_cases in H as [Hs H].
  split_and!; [|done|lia]. unfold remembers in *. cbn in *. rewrite Hs. intros Hlt.
  assert (consumed v !! d = Some D) as Hd by (apply Hr; lia).
  assert (prune (λ deadline, (n2 - skew v <? deadline)%Z) (consumed v) !! d = Some D) as Hl.
  { apply prune_lookup_Some. split; [done|]. by apply Z.ltb_lt. }
  destruct H as [(_ & ->)|(c & _ & [(_ & ->)|(_ & Hnone & ->)])]; [done..|].
  rewrite lookup_insert_ne; [done|]. intros E. congruence.
Qed.

Lemma identity_steps_remember d D s s' :
  rtc identity_step s s' → remembers d D s → remembers d D s' ∧ skew s'.1 = skew s.1 ∧ s.2 ≤ s'.2.
Proof.
  induction 1 as [s|x y z Hxy _ IH]; [done|]. intros Hr.
  apply (identity_step_remembers d D) in Hxy as (Hy & ? & ?); [|done].
  destruct (IH Hy) as (? & ? & ?). split_and!; [done|congruence|lia].
Qed.
End identity.

Section decode.
Context (sha256 : string → string) (ed25519_Verify : string → string → string → bool).
Context (decodeHeader : string → option header) (decodeClaims : string → option Claims).

(** The claims an assertion text carries do not depend on the verifier. *)
Lemma Verify_claims_same v1 v2 a n1 n2 c1 c2 :
  Verify_claims ed25519_Verify decodeHeader decodeClaims v1 a n1 = Ok c1 →
  Verify_claims ed25519_Verify decodeHeader decodeClaims v2 a n2 = Ok c2 → c1 = c2.
Proof.
  intros (_ & p0 & p1 & p2 & s & pl & E & _ & _ & Ep & Ec)%Verify_claims_Ok
         (_ & q0 & q1 & q2 & s' & pl' & E' & _ & _ & Ep' & Ec')%Verify_claims_Ok. congruence.
Qed.
End decode.

Definition demo_claims : Claims :=
  mkClaims "bridge" "control-plane" "alice" "operator" false ["host_1"] 1700000000 1700000030 "0123456789abcdef".
Definition demo_now : time := time_unix 1700000010.
Definition demo_verifier : Verifier := mkVerifier "bridge" "control-plane" "k1" "key" (5 * second) ∅.
Definition demo_assertion : string :=
  "e30.e30." +:+ b64_encode "0123456789abcdef0123456789abcdef0123456789abcdef0123456789abcdef".
Definition demo_verify (v : Verifier) (now : time) : Verifier * result string Principal :=
  Verify id (λ _ _ _, true) (λ _, Some (mkHeader "EdDSA" "k1" "VPSMGR+JWT")) (λ _, Some demo_claims) v demo_assertion now now.

(** * Properties *)

(** C38: an identity assertion is exchanged at most once: after it was
    accepted, presenting it again is refused for ever, whatever other assertions are verified
    in between, provided the second check's two clock readings are not further apart than
    the verifier's clock skew. *)
Theorem assertion_single_use sha256 ed25519 dh dc v a n1 n2 v1 p v2 clock t1 t2 :
  Verify sha256 ed25519 dh dc v a n1 n2 = (v1, Ok p) →
  rtc (identity_step sha256 ed25519 dh dc) (v1, n2) (v2, clock) →
  clock ≤ t1 → t1 ≤ t2 ≤ t1 + skew v →
  is_ok (Verify sha256 ed25519 dh dc v2 a t1 t2).2 = false.
Proof.
  intros H0 Hsteps Hc Ht.
  apply Identity_Verify_cases in H0 as [Hs0 [([e ?] & _)|(c & Hcl & [([e ?] & _)|(_ & _ & Hins)])]]; [done..|].
  apply (identity_steps_remember _ _ _ _ (sha256 (JWTID c)) (time_unix (Expires c) + skew v)) in Hsteps
    as (Hr & Hsk & _); cbn in *.
  2: { intros _. cbn. by rewrite Hins, lookup_insert_eq. }
  destruct (Verify sha256 ed25519 dh dc v2 a t1 t2) as [v3 r] eqn:E. cbn.
  apply Identity_Verify_cases in E as [_ [([e ->] & _)|(c' & Hcl' & [([e ->] & _)|([p' ->] & Hnone & _)])]]; [done..|].
  exfalso. assert (c' = c) as -> by (by eapply Verify_claims_same).
  apply Verify_claims_Ok in Hcl' as [Hv _]. apply validateClaims_Ok in Hv as (_ & _ & _ & _ & _ & _ & _ & Hexp).
  rewrite Hsk, Hs0 in *. specialize (Hr ltac:(cbn; lia)). cbn in Hr.
  assert (prune (λ deadline, (t2 - skew v <? deadline)%Z) (consumed v2) !! sha256 (JWTID c)
          = Some (time_unix (Expires c) + skew v)) as Hl.
  { apply prune_lookup_Some. split; [done|]. apply Z.ltb_lt. lia. }
  congruence.
Qed.

Lemma assertion_single_use_witness :
  is_ok (demo_verify (demo_verify demo_verifier demo_now).1 (demo_now + second)).2 = false.
Proof.
  apply (assertion_single_use id (λ _ _ _, true) (λ _, Some (mkHeader "EdDSA" "k1" "VPSMGR+JWT")) (λ _, Some demo_claims)
    demo_verifier demo_assertion demo_now demo_now (demo_verify demo_verifier demo_now).1
    (mkPrincipal "alice" "operator" false ["host_1"] "") (demo_verify demo_verifier demo_now).1 demo_now).
  - vm_compute. reflexivity.
  - apply rtc_refl.
  - vm_compute. discriminate.
  - vm_compute. split; discriminate.
Defined.

(** a principal is returned only for an assertion whose signature
    verified under the configured key and whose claims name the configured issuer and
    audience, a known role, a lifetime of at most 60 seconds that covers the clock up to the
    skew, and a scope that is either all hosts or an explicit list of distinct host ids; the
    principal carries exactly that identity and scope. *)
Theorem assertion_trusted sha256 ed25519 dh dc v a n1 n2 v1 p :
  Verify sha256 ed25519 dh dc v a n1 n2 = (v1, Ok p) →
  ∃ c p0 p1 p2 signature payload, split_char "." a = [p0; p1; p2] ∧
    b64_decode true p2 = Some signature ∧ ed25519 (key v) (p0 +:+ "." +:+ p1) signature = true ∧
    b64_decode true p1 = Some payload ∧ dc payload = Some c ∧
    Issuer c = issuer v ∧ Audience c = audience v ∧ ValidRole (Role p) = true ∧
    time_unix (Expires c) ≤ time_unix (IssuedAt c) + 60 * second ∧
    time_unix (IssuedAt c) ≤ n1 + skew v ∧ n1 - skew v < time_unix (Expires c) ∧
    p = mkPrincipal (c_Subject c) (c_Role c) (c_AllHosts c) (c_HostIDs c) "" ∧
    (AllHosts p = true → HostIDs p = []) ∧ NoDup (HostIDs p) ∧ Forall (λ h, has_prefix "host_" h = true) (HostIDs p).
Proof.
  unfold Verify. intros H. destruct (Verify_claims _ _ _ _ _ _) as [c|] eqn:Ec; [|done].
  destruct (consume _ _ _ _ _) as [v2 [|]] eqn:Eco; [|done]. simplify_eq/=.
  apply Verify_claims_Ok in Ec as (Hv & p0 & p1 & p2 & s & pl & ? & ? & ? & ? & ?).
  apply validateClaims_Ok in Hv as (? & ? & ? & ? & Hh & ? & ? & ?). unfold maxAssertionTTL in *.
  destruct (check_hosts ∅ (c_HostIDs c)) as [[]|] eqn:Ech; [|done]. apply check_hosts_Ok in Ech as (Hnd & Hp & _).
  exists c, p0, p1, p2, s, pl. split_and!; try done; lia.
Qed.

Lemma assertion_trusted_witness : ValidRole "operator" = true.
Proof.
  destruct (assertion_trusted id (λ _ _ _, true) (λ _, Some (mkHeader "EdDSA" "k1" "VPSMGR+JWT")) (λ _, Some demo_claims)
    demo_verifier demo_assertion demo_now demo_now (demo_verify demo_verifier demo_now).1
    (mkPrincipal "alice" "operator" false ["host_1"] "")) as (c & p0 & p1 & p2 & s & pl & H).
  - vm_compute. reflexivity.
  - apply H.
Defined.
