(* ===== verification/Broker.v ===== *)
(** * The WebSSH ticket broker

    Models [services/websshgateway/broker.go] with the request validation of
    [validation.go] and the ticket consumption of [websocket.go].  The Connector
    call and the authorizer are arguments; so are the clock readings and the
    random bytes.  The handlers that use the broker are in Gateway. *)

From S2P Require Import Prelude GoStrings Encoding Credentials Protocol.

Definition MessageHello := "hello".

Definition defaultTicketTTL : duration := 20 * second.
Definition defaultHandshakeTimeout : duration := 5 * second.
Definition defaultConnectorDialTimeout : duration := 5 * second.
Definition defaultAuthorizationTimeout : duration := 2 * second.
Definition defaultAuthorizationInterval : duration := 5 * second.
Definition defaultIdleTimeout : duration := 10 * minute.
Definition defaultAbsoluteTimeout : duration := hour.
Definition defaultWriteTimeout : duration := 5 * second.
Definition defaultMaxConcurrent : Z := 4.
Definition defaultMaxTickets : Z := 128.
Definition defaultInputMessageBytes : Z := 16384.
Definition defaultOutputMessageBytes : Z := 16384.
Definition defaultInputBytesPerSecond : Z := 65536.
Definition defaultOutputBytesPerSecond : Z := 262144.

(** ** Messages *)

Record Binding := mkBinding {
  PrincipalID : string;
  bd_SessionID : string;
  Roles : list string;
  bd_HostID : string;
  bd_CredentialID : string;
  bd_Action : string;
}.

Record IssueRequest := mkIssueRequest {
  iq_Binding : Binding;
  iq_Target : Target;
  iq_PinnedHostKey : string;
  iq_Credential : Credential;
  iq_InitialSize : TerminalSize;
  iq_Reason : string;
}.

Record IssueResponse := mkIssueResponse {
  is_ProtocolVersion : string;
  is_Ticket : string;
  is_ConnectionID : string;
  is_ExpiresAt : time;
  is_WebSocketURL : string;
}.

Record HelloMessage := mkHello {
  hl_Type : string;
  hl_Ticket : string;
  hl_ConnectionID : string;
  hl_Binding : Binding;
}.

Record Authorization := mkAuthorization { au_Binding : Binding; au_Reason : string }.

(** The limits of [Config]; its endpoints and origins are in Gateway. *)
Record Config := mkConfig {
  TicketTTL : duration;
  HandshakeTimeout : duration;
  ConnectorDialTimeout : duration;
  AuthorizationTimeout : duration;
  AuthorizationInterval : duration;
  IdleTimeout : duration;
  AbsoluteTimeout : duration;
  WriteTimeout : duration;
  MaxConcurrent : Z;
  MaxOutstandingTickets : Z;
  MaxInputMessageBytes : Z;
  MaxOutputMessageBytes : Z;
  InputBytesPerSecond : Z;
  OutputBytesPerSecond : Z;
}.

Definition set_default (value fallback : Z) : Z := if (value <=? 0)%Z then fallback else value.

Definition applyConfigDefaults (c : Config) : result string Config :=
  let c := mkConfig
    (set_default (TicketTTL c) defaultTicketTTL)
    (set_default (HandshakeTimeout c) defaultHandshakeTimeout)
    (set_default (ConnectorDialTimeout c) defaultConnectorDialTimeout)
    (set_default (AuthorizationTimeout c) defaultAuthorizationTimeout)
    (set_default (AuthorizationInterval c) defaultAuthorizationInterval)
    (set_default (IdleTimeout c) defaultIdleTimeout)
    (set_default (AbsoluteTimeout c) defaultAbsoluteTimeout)
    (set_default (WriteTimeout c) defaultWriteTimeout)
    (set_default (MaxConcurrent c) defaultMaxConcurrent)
    (set_default (MaxOutstandingTickets c) defaultMaxTickets)
    (set_default (MaxInputMessageBytes c) defaultInputMessageBytes)
    (set_default (MaxOutputMessageBytes c) defaultOutputMessageBytes)
    (set_default (InputBytesPerSecond c) defaultInputBytesPerSecond)
    (set_default (OutputBytesPerSecond c) defaultOutputBytesPerSecond) in
  require negb ((30 * second <? TicketTTL c)%Z || (15 * second <? HandshakeTimeout c)%Z ||
                (30 * second <? ConnectorDialTimeout c)%Z || (5 * second <? AuthorizationTimeout c)%Z ||
                (5 * second <? AuthorizationInterval c)%Z || (hour <? IdleTimeout c)%Z ||
                (8 * hour <? AbsoluteTimeout c)%Z || (AbsoluteTimeout c <? IdleTimeout c)%Z ||
                (10 * second <? WriteTimeout c)%Z)
    else "WebSSH timeout configuration is outside the allowed bounds" ;;
  require negb ((64 <? MaxConcurrent c)%Z || (4096 <? MaxOutstandingTickets c)%Z ||
                (65536 <? MaxInputMessageBytes c)%Z || (65536 <? MaxOutputMessageBytes c)%Z ||
                (4194304 <? InputBytesPerSecond c)%Z || (8388608 <? OutputBytesPerSecond c)%Z)
    else "WebSSH capacity or byte limit is outside the allowed bounds" ;;
  Ok c.

(** ** Validation *)

Definition validID (value : string) : bool :=
  (1 <=? slen value)%Z && (slen value <=? 128)%Z && trimmed value &&
  all_runes (λ c, negb (is_control c || is_space c)) value.


Fixpoint has_adjacent_duplicate (l : list string) : bool :=
  match l with
  | x :: rest => match rest with
                 | y :: _ => (y =? x) || has_adjacent_duplicate rest
                 | [] => false
                 end
  | [] => false
  end.

Definition normalizeBinding (v : Binding) : result string Binding :=
  require validID (PrincipalID v) && validID (bd_SessionID v) && validID (bd_HostID v) &&
          validID (bd_CredentialID v) && (bd_Action v =? ActionWebSSH)
    else "invalid WebSSH binding" ;;
  require negb (bool_decide (Roles v = [])) && (Z.of_nat (length (Roles v)) <=? 32)%Z
    else "WebSSH binding must contain between one and 32 roles" ;;
  require forallb validID (Roles v) else "invalid WebSSH role" ;;
  let roles := sort_strings (Roles v) in
  require negb (has_adjacent_duplicate roles) else "duplicate WebSSH role" ;;
  Ok (mkBinding (PrincipalID v) (bd_SessionID v) roles (bd_HostID v) (bd_CredentialID v) (bd_Action v)).

Definition validateReason (value : string) : result string unit :=
  require negb (value =? "") && (slen value <=? 500)%Z && trimmed value
    else "WebSSH reason must contain between one and 500 trimmed characters" ;;
  require all_runes (λ c, negb (is_control c && negb (c =? 9)%Z)) value
    else "WebSSH reason contains control characters" ;;
  Ok tt.

Definition validTerminalSize (s : TerminalSize) : bool :=
  (20 <=? Columns s)%Z && (Columns s <=? 500)%Z && (5 <=? Rows s)%Z && (Rows s <=? 300)%Z &&
  (WidthPixels s <=? 10000)%Z && (HeightPixels s <=? 10000)%Z.

Definition validateIssueRequest (r : IssueRequest) : result string unit :=
  normalizeBinding (iq_Binding r) ≫= λ _,
  validateReason (iq_Reason r) ≫= λ _,
  let t := iq_Target r in
  let c := iq_Credential r in
  require negb ((trim_space (Address t) =? "") || negb (trimmed (Address t)) || (253 <? slen (Address t))%Z ||
                (Port t <? 1)%Z || (65535 <? Port t)%Z || negb (validID (User t)) ||
                (slen (iq_PinnedHostKey r) =? 0)%Z || (16384 <? slen (iq_PinnedHostKey r))%Z ||
                (slen (PrivateKeyPEM c) =? 0)%Z || (49152 <? slen (PrivateKeyPEM c))%Z ||
                (4096 <? slen (Passphrase c))%Z || negb (validTerminalSize (iq_InitialSize r)))
    else "invalid WebSSH target, credential, host key, or terminal size" ;;
  Ok tt.

(** The index loop over the roles of equal length. *)
Fixpoint same_roles (left right : list string) : bool :=
  match left, right with
  | x :: l, y :: r => (x =? y) && same_roles l r
  | _, _ => true
  end.

Definition sameBinding (left right : Binding) : bool :=
  (PrincipalID left =? PrincipalID right) && (bd_SessionID left =? bd_SessionID right) &&
  (bd_HostID left =? bd_HostID right) && (bd_CredentialID left =? bd_CredentialID right) &&
  (bd_Action left =? bd_Action right) && Nat.eqb (length (Roles left)) (length (Roles right)) &&
  same_roles (Roles left) (Roles right).

(** ** The broker *)

Record browserTicket := mkBrowserTicket {
  connectionID : string;
  binding : Binding;
  reason : string;
  upstreamTicket : string;
  upstreamSession : string;
  connectorBinding : WebSSHBinding;
  expiresAt : time;
}.

Record Broker := mkBroker {
  config : Config;
  publicURL : string;
  closed : bool;
  issuing : Z;
  tickets : gmap string browserTicket;
  consumed : gmap string time;
}.

(** Assignments under the lock. *)
Definition set_maps (b : Broker) (ts : gmap string browserTicket) (cs : gmap string time) : Broker :=
  mkBroker (config b) (publicURL b) (closed b) (issuing b) ts cs.
Definition set_issuing (b : Broker) (n : Z) : Broker :=
  mkBroker (config b) (publicURL b) (closed b) n (tickets b) (consumed b).

Definition pruneLocked (b : Broker) (now : time) : Broker :=
  set_maps b (prune (λ t, (now <? expiresAt t)%Z) (tickets b)) (prune (λ e, (now <? e)%Z) (consumed b)).

Definition reserveTicket (b : Broker) (now : time) : Broker * bool :=
  let b := pruneLocked b now in
  if closed b || (MaxOutstandingTickets (config b) <=? len (tickets b) + issuing b)%Z then (b, false)
  else (set_issuing b (issuing b + 1), true).

Definition releaseTicketReservation (b : Broker) : Broker :=
  if (0 <? issuing b)%Z then set_issuing b (issuing b - 1) else b.

Definition storeTicket (b : Broker) (hash : string) (t : browserTicket) (now : time) : Broker * bool :=
  let b := pruneLocked b now in
  if closed b || (MaxOutstandingTickets (config b) <=? len (tickets b))%Z ||
     (MaxOutstandingTickets (config b) * 4 <=? len (consumed b))%Z then (b, false)
  else match tickets b !! hash with
  | Some _ => (b, false)
  | None => (set_maps b (<[hash := t]> (tickets b)) (consumed b), true)
  end.

(** [Close] up to the release of the lock. *)
Definition Close (b : Broker) : Broker :=
  if closed b then b else mkBroker (config b) (publicURL b) true (issuing b) ∅ (consumed b).

Definition validateConnectorResponse (r : WebSSHTicketResponse) (now : time) : result string (string * string) :=
  require (ts_ProtocolVersion r =? ProtocolVersion) && (now <? ts_ExpiresAt r)%Z && (ts_ExpiresAt r <=? now + minute)%Z
    else "invalid Connector WebSSH response" ;;
  ticketDecoded ← of_option (b64_decode false (ts_Ticket r)) "invalid Connector ticket";
  require (slen ticketDecoded =? 32)%Z else "invalid Connector ticket" ;;
  sessionDecoded ← of_option (b64_decode false (ts_SessionID r)) "invalid Connector session";
  require (slen sessionDecoded =? 16)%Z else "invalid Connector session" ;;
  Ok (ts_Ticket r, ts_SessionID r).

Inductive issue_error := ErrInvalidRequest | ErrUnauthorized | ErrCapacity | ErrConnector | ErrRandom.

(** The clock readings of one [Issue] call. *)
Record issue_clock := mkIssueClock { at_reserve : time; at_response : time; at_ticket : time; at_store : time }.

Section broker.
Context (sha256 : string → string).
(** The authorizer, and the Connector's ticket endpoint ([None] is an error). *)
Context (authorize : Authorization → bool) (WebSSHTicket : WebSSHTicketRequest → option WebSSHTicketResponse).

(** The middle of [Issue], between reservation and release: the ticket hash
    and entry to store, and the response. *)
Definition issue_ticket (b : Broker) (request : IssueRequest) (bd : Binding) (clock : issue_clock)
    (browserRandom connectionRandom : option string)
    : result issue_error (string * browserTicket * IssueResponse) :=
  let cb := mkWebSSHBinding (PrincipalID bd) (bd_HostID bd) (bd_CredentialID bd) ActionWebSSH in
  resp ← of_option (WebSSHTicket (mkTicketRequest "" cb (iq_Target request) (iq_PinnedHostKey request)
                      (iq_Credential request) (iq_InitialSize request))) ErrConnector;
  '(upT, upS) ← (match validateConnectorResponse resp (at_response clock) with
                 | Ok p => Ok p | Err _ => Err ErrConnector end);
  browserRaw ← (match read_full 32 browserRandom "" with Ok r => Ok r | Err _ => Err ErrRandom end);
  connectionRaw ← (match read_full 16 connectionRandom "" with Ok r => Ok r | Err _ => Err ErrRandom end);
  let now := at_ticket clock in
  let exp := now + TicketTTL (config b) in
  let exp := if (ts_ExpiresAt resp <? exp)%Z then ts_ExpiresAt resp else exp in
  require (now <? exp)%Z else ErrConnector ;;
  Ok (sha256 browserRaw,
      mkBrowserTicket (b64_encode connectionRaw) bd (iq_Reason request) upT upS cb exp,
      mkIssueResponse ProtocolVersion (b64_encode browserRaw) (b64_encode connectionRaw) exp (publicURL b)).

Definition Issue (b : Broker) (request : IssueRequest) (clock : issue_clock)
    (browserRandom connectionRandom : option string) : Broker * result issue_error IssueResponse :=
  match validateIssueRequest request, normalizeBinding (iq_Binding request) with
  | Ok _, Ok bd =>
    if negb (authorize (mkAuthorization bd (iq_Reason request))) then (b, Err ErrUnauthorized)
    else let '(b, reserved) := reserveTicket b (at_reserve clock) in
      if negb reserved then (b, Err ErrCapacity)
      else match issue_ticket b request bd clock browserRandom connectionRandom with
      | Err e => (releaseTicketReservation b, Err e)
      | Ok (hash, entry, response) =>
        let '(b, stored) := storeTicket b hash entry (at_store clock) in
        (releaseTicketReservation b, if stored then Ok response else Err ErrCapacity)
      end
  | _, _ => (b, Err ErrInvalidRequest)
  end.

(** [consumeTicket] of the WebSocket handler. *)
Definition consumeTicket (b : Broker) (hello : HelloMessage) (now : time) : Broker * (browserTicket + string) :=
  match b64_decode false (hl_Ticket hello) with
  | None => (b, inr "invalid_ticket")
  | Some decoded =>
    if negb (slen decoded =? 32)%Z then (b, inr "invalid_ticket")
    else
      let hash := sha256 decoded in
      let b := pruneLocked b now in
      match tickets b !! hash with
      | None => (b, inr (if bool_decide (is_Some (consumed b !! hash)) then "ticket_replayed" else "invalid_ticket"))
      | Some entry =>
        let b := set_maps b (delete hash (tickets b)) (<[hash := now + TicketTTL (config b)]> (consumed b)) in
        if negb (now <? expiresAt entry)%Z then (b, inr "ticket_expired")
        else match normalizeBinding (hl_Binding hello) with
        | Err _ => (b, inr "ticket_binding_mismatch")
        | Ok bd =>
          if (hl_ConnectionID hello ≠? connectionID entry) || (hl_Type hello ≠? MessageHello) ||
             negb (sameBinding (binding entry) bd) then (b, inr "ticket_binding_mismatch")
          else (b, inl entry)
        end
      end
  end.
End broker.

(** ** Lemmas: canonical bindings *)

Lemma sorted_no_duplicate l :
  StronglySorted str_le l → has_adjacent_duplicate l = false → NoDup l.
Proof.
  induction 1 as [|x l Hs IH Hall]; [constructor|]. intros H. cbn in H. constructor; [|apply IH].
  - destruct l as [|y l]; [by apply not_elem_of_nil|]. apply orb_false_iff in H as [Hne _].
    apply String.eqb_neq in Hne. intros [->|Hin]%elem_of_cons; [done|]. apply Hne.
    apply (anti_symm str_le); [|by inversion Hall]. apply StronglySorted_inv in Hs as [_ Hy].
    rewrite Forall_forall in Hy. by apply Hy.
  - destruct l; [done|]. by apply orb_false_iff in H as [_ ?].
Qed.

(** Two bindings that differ only in the order of the roles. *)
Definition equivalent (a b : Binding) : Prop :=
  PrincipalID a = PrincipalID b ∧ bd_SessionID a = bd_SessionID b ∧ Roles a ≡ₚ Roles b ∧
  bd_HostID a = bd_HostID b ∧ bd_CredentialID a = bd_CredentialID b ∧ bd_Action a = bd_Action b.

#[global] Instance equivalent_equiv : Equivalence equivalent.
Proof.
  split; unfold equivalent; [intros a|intros a b H|intros a b c H1 H2]; destruct_and?; split_and!; try done;
    (etrans; eassumption) || congruence.
Qed.

Lemma normalizeBinding_Ok v b :
  normalizeBinding v = Ok b →
  equivalent v b ∧ NoDup (Roles b) ∧ StronglySorted str_le (Roles b) ∧ bd_Action b = ActionWebSSH.
Proof.
  unfold normalizeBinding. intros H.
  apply bind_Ok_inv in H as (? & G1%guard_ok_Ok & H). apply bind_Ok_inv in H as (? & _ & H).
  apply bind_Ok_inv in H as (? & _ & H). apply bind_Ok_inv in H as (? & G4%guard_ok_Ok & H). simplify_eq. reflect_bools.
  assert (StronglySorted str_le (sort_strings (Roles v))) as Hs by (apply StronglySorted_merge_sort; apply _).
  split_and!; cbn; try done; [|by apply sorted_no_duplicate].
  unfold equivalent. cbn. by rewrite sort_strings_perm.
Qed.

(** Normalization respects the order of the roles: it maps equivalent
    bindings to the same result. *)
#[global] Instance normalizeBinding_proper : Proper (equivalent ==> eq) normalizeBinding.
Proof.
  intros [p s r h c a] [p' s' r' h' c' a'] (E1 & E2 & Hr & E3 & E4 & E5). cbn in *. subst.
  unfold normalizeBinding. cbn [PrincipalID bd_SessionID Roles bd_HostID bd_CredentialID bd_Action]. rewrite (sort_strings_unique _ _ Hr).
  assert (forallb validID r = forallb validID r') as ->.
  { apply eq_true_iff_eq. rewrite !forallb_forall. setoid_rewrite <-list_elem_of_In.
    split; intros H x Hx; apply H; [by rewrite Hr|by rewrite <-Hr]. }
  rewrite (Permutation_length Hr).
  assert (bool_decide (r = []) = bool_decide (r' = [])) as ->; [|done]. apply bool_decide_ext. split; intros ->.
  - by apply Permutation_nil in Hr.
  - by apply Permutation_nil_r in Hr.
Qed.

Lemma same_roles_eq l r : length l = length r → same_roles l r = true ↔ l = r.
Proof.
  revert r. induction l as [|x l IH]; intros [|y r] Hlen; try done. cbn in *. injection Hlen as Hlen.
  rewrite andb_true_iff, IH, String.eqb_eq by done. naive_solver.
Qed.

Lemma sameBinding_true a b : sameBinding a b = true ↔ a = b.
Proof.
  unfold sameBinding. destruct a, b. cbn. rewrite !andb_true_iff, !String.eqb_eq, Nat.eqb_eq. split.
  - intros ((((((-> & ->) & ->) & ->) & ->) & Hlen) & Hr%same_roles_eq); [by subst|done].
  - intros [= -> -> -> -> -> ->]. by rewrite same_roles_eq.
Qed.

(** ** Lemmas: the ticket table *)

Section tables.
Context (sha256 : string → string).
Context (authorize : Authorization → bool) (WebSSHTicket : WebSSHTicketRequest → option WebSSHTicketResponse).
#[local] Abbreviation consumeTicket := (consumeTicket sha256).
#[local] Abbreviation issue_ticket := (issue_ticket sha256 WebSSHTicket).

Definition ticket_hash (value : string) : option string :=
  match b64_decode false value with
  | Some d => if (slen d =? 32)%Z then Some (sha256 d) else None
  | None => None
  end.

(** What a presented hello does to the tables. *)
Lemma consumeTicket_cases b hello now b' r :
  consumeTicket b hello now = (b', r) →
  config b' = config b ∧ issuing b' = issuing b ∧ closed b' = closed b ∧
  match ticket_hash (hl_Ticket hello) with
  | None => b' = b ∧ ∃ e, r = inr e
  | Some h =>
    let p := pruneLocked b now in
    (tickets p !! h = None ∧ b' = p ∧
       r = inr (if bool_decide (is_Some (consumed p !! h)) then "ticket_replayed" else "invalid_ticket")) ∨
    ∃ entry, tickets p !! h = Some entry ∧ tickets b' = delete h (tickets p) ∧
      consumed b' = <[h := now + TicketTTL (config b)]> (consumed p) ∧
      (r = inl entry ↔ now < expiresAt entry ∧ hl_ConnectionID hello = connectionID entry ∧
                       hl_Type hello = MessageHello ∧ normalizeBinding (hl_Binding hello) = Ok (binding entry)) ∧
      (∀ x, r = inl x → x = entry)
  end.
Proof.
  unfold consumeTicket, ticket_hash. intros H. destruct (b64_decode false (hl_Ticket hello)) as [d|]; [|simplify_eq; eauto 10].
  destruct (slen d =? 32)%Z; cbn in H; [|simplify_eq; eauto 10].
  destruct (prune _ (tickets b) !! sha256 d) as [entry|] eqn:Ee.
  2: { simplify_eq. cbn. eauto 10. }
  split_and!; [by repeat case_match; simplify_eq..|]. right. exists entry. split; [done|].
  split_and!; [by repeat case_match; simplify_eq|by repeat case_match; simplify_eq|..].
  - destruct (Z.ltb_spec now (expiresAt entry)) as [Hlt|Hge]; cbn in H; [|simplify_eq; split; [done|lia]].
    destruct (normalizeBinding (hl_Binding hello)) as [bd|] eqn:En; [|simplify_eq; split; [done|naive_solver]].
    destruct (_ || _ || _) eqn:Eb; simplify_eq.
    + split; [done|]. intros (_ & E1 & E2 & [= ->]). rewrite E1, E2, !String.eqb_refl in Eb. cbn in Eb.
      by rewrite (proj2 (sameBinding_true _ _)) in Eb.
    + reflect_bools. split; [|done]. intros _. split_and!; try done. f_equal. symmetry. by apply sameBinding_true.
  - intros x ->. by repeat case_match; simplify_eq.
Qed.

(** ** Interleavings

    The broker together with the issue calls in flight: [reserved] of them
    hold a reservation and have not stored yet, [settled] have stored or
    given up and not released yet. *)
Record system := mkSystem { sys_broker : Broker; reserved : nat; settled : nat }.

Inductive broker_step (fresh : string → Prop) : system → system → Prop :=
| bs_reserve b n k now b' :
    reserveTicket b now = (b', true) → broker_step fresh (mkSystem b n k) (mkSystem b' (S n) k)
| bs_refused b n k now b' :
    reserveTicket b now = (b', false) → broker_step fresh (mkSystem b n k) (mkSystem b' n k)
| bs_store b n k h t now b' ok :
    fresh h → storeTicket b h t now = (b', ok) → broker_step fresh (mkSystem b (S n) k) (mkSystem b' n (S k))
| bs_abandon b n k : broker_step fresh (mkSystem b (S n) k) (mkSystem b n (S k))
| bs_release b n k : broker_step fresh (mkSystem b n (S k)) (mkSystem (releaseTicketReservation b) n k)
| bs_consume b n k hello now b' r :
    consumeTicket b hello now = (b', r) → broker_step fresh (mkSystem b n k) (mkSystem b' n k)
| bs_prune b n k now : broker_step fresh (mkSystem b n k) (mkSystem (pruneLocked b now) n k)
| bs_close b n k : broker_step fresh (mkSystem b n k) (mkSystem (Close b) n k).

(** Reservations are counted exactly, stored tickets and pending
    reservations together stay within the limit, and so do the tables. *)
Definition broker_ok (s : system) : Prop :=
  let b := sys_broker s in
  let limit := MaxOutstandingTickets (config b) in
  issuing b = Z.of_nat (reserved s) + Z.of_nat (settled s) ∧
  len (tickets b) + Z.of_nat (reserved s) ≤ limit ∧
  len (consumed b) + len (tickets b) ≤ 5 * limit.

Lemma pruneLocked_sizes b now :
  len (tickets (pruneLocked b now)) ≤ len (tickets b) ∧ len (consumed (pruneLocked b now)) ≤ len (consumed b).
Proof. split; apply len_prune_le. Qed.

Lemma broker_step_ok fresh s s' : broker_step fresh s s' → broker_ok s → broker_ok s' ∧ config (sys_broker s') = config (sys_broker s).
Proof.
  intros H (Hi & Ht & Hc). unfold broker_ok.
  destruct H as [b n k now b' H|b n k now b' H|b n k h t now b' ok _ H|b n k|b n k|b n k hello now b' r H|b n k now|b n k];
    cbn in *; try pose proof (pruneLocked_sizes b now) as [Ps Pc].
  - unfold reserveTicket in H. case_match eqn:E; simplify_eq. cbn in *. reflect_bools. split; [split_and!|]; try done; lia.
  - unfold reserveTicket in H. case_match eqn:E; simplify_eq. cbn in *. split; [split_and!|]; try done; lia.
  - unfold storeTicket in H. repeat case_match; simplify_eq; cbn in *; try (split; [split_and!|]; try done; lia).
    reflect_bools. rewrite len_insert_new by done. split; [split_and!|]; try done; lia.
  - split; [split_and!|]; try done; lia.
  - unfold releaseTicketReservation. destruct (Z.ltb_spec 0 (issuing b)); cbn; (split; [split_and!|]; try done; lia).
  - apply consumeTicket_cases in H as (Ec & Ei & _ & H). rewrite Ec, Ei.
    destruct (ticket_hash (hl_Ticket hello)) as [h|].
    2: { destruct H as [-> _]. split; [split_and!|]; try done; lia. }
    destruct H as [(_ & -> & _)|(e & Hl & -> & -> & _)]; [split; [split_and!|]; try done; lia|].
    rewrite (len_delete_old _ _ _ Hl).
    pose proof (len_insert_le (consumed (pruneLocked b now)) h (now + TicketTTL (config b))).
    split; [split_and!|]; try done; lia.
  - cbn in Ps, Pc. split; [split_and!|]; try done; lia.
  - unfold Close. destruct (closed b); cbn; [split; [split_and!|]; try done; lia|].
    pose proof (len_nonneg (tickets b)). assert (len (∅ : gmap string browserTicket) = 0) as -> by (unfold len; by rewrite map_size_empty).
    split; [split_and!|]; try done; lia.
Qed.

Lemma broker_steps_ok fresh s s' :
  rtc (broker_step fresh) s s' → broker_ok s → broker_ok s' ∧ config (sys_broker s') = config (sys_broker s).
Proof.
  induction 1 as [|x y z Hxy _ IH]; [done|]. intros Hok.
  apply broker_step_ok in Hxy as [Hy Ey]; [|done]. destruct (IH Hy). split; [done|congruence].
Qed.

(** A hash that is not in the table appears there only by being stored. *)
Lemma broker_steps_absent h s s' :
  rtc (broker_step (λ h', h' ≠ h)) s s' → tickets (sys_broker s) !! h = None → tickets (sys_broker s') !! h = None.
Proof.
  assert (∀ b now, tickets b !! h = None → tickets (pruneLocked b now) !! h = None) as Hp.
  { intros. apply prune_lookup_None. by left. }
  induction 1 as [|x y z Hxy _ IH]; [done|]. intros Hn. apply IH. clear IH.
  destruct Hxy as [b n k now b' H|b n k now b' H|b n k h' t now b' ok Hf H|b n k|b n k|b n k hello now b' r H|b n k now|b n k];
    cbn in *; try (apply (Hp _ now) in Hn as Hn'); try done.
  - unfold reserveTicket in H. case_match; by simplify_eq.
  - unfold reserveTicket in H. case_match; by simplify_eq.
  - unfold storeTicket in H. repeat case_match; simplify_eq; try done. cbn. by rewrite lookup_insert_ne.
  - unfold releaseTicketReservation. by case_match.
  - apply consumeTicket_cases in H as (_ & _ & _ & H). destruct (ticket_hash _) as [h'|]; [|by destruct H as [-> _]].
    destruct H as [(_ & -> & _)|(e & _ & -> & _)]; [done|]. rewrite lookup_delete_None. auto.
  - unfold Close. case_match; [done|]. cbn. apply lookup_empty.
Qed.

Lemma issue_ticket_Ok b request bd clock r1 r2 hash entry resp :
  issue_ticket b request bd clock r1 r2 = Ok (hash, entry, resp) →
  ∃ raw, slen raw = 32 ∧ hash = sha256 raw ∧ is_Ticket resp = b64_encode raw ∧
    is_ConnectionID resp = connectionID entry ∧ binding entry = bd ∧ is_ExpiresAt resp = expiresAt entry ∧
    at_ticket clock < expiresAt entry ≤ at_ticket clock + TicketTTL (config b).
Proof.
  unfold issue_ticket. intros H. apply bind_Ok_inv in H as (cr & _ & H). apply bind_Ok_inv in H as ([uT uS] & _ & H).
  apply bind_Ok_inv in H as (raw & Hraw & H). apply bind_Ok_inv in H as (craw & _ & H).
  apply bind_Ok_inv in H as (? & G%guard_ok_Ok & H). simplify_eq. cbn.
  exists raw. split_and!; try done.
  - unfold read_full in Hraw. destruct r1 as [s|]; [|done].
    destruct (Z.eqb_spec (slen s) 32); [|done]. congruence.
  - by apply Z.ltb_lt.
  - destruct (Z.ltb_spec (ts_ExpiresAt cr) (at_ticket clock + TicketTTL (config b))); lia.
Qed.

Lemma ticket_hash_encode raw : slen raw = 32 → ticket_hash (b64_encode raw) = Some (sha256 raw).
Proof. intros H. unfold ticket_hash. by rewrite b64_roundtrip, H. Qed.
End tables.

Lemma reserveTicket_config b now : config (reserveTicket b now).1 = config b.
Proof. unfold reserveTicket. by case_match. Qed.

(** ** Sample data *)

Definition demo_config : Config := mkConfig (20 * second) 0 0 0 0 0 0 0 4 8 0 0 0 0.
Definition demo_broker : Broker := mkBroker demo_config "wss://example.test/api/v1/webssh/connect" false 0 ∅ ∅.
Definition demo_binding (roles : list string) : Binding :=
  mkBinding "alice" "session_1" roles "host_1" "cred_1" ActionWebSSH.
Definition demo_request : IssueRequest :=
  mkIssueRequest (demo_binding ["operator"; "admin"]) (mkTarget "203.0.113.5" 22 "root") "ssh-ed25519 AAAA"
    (mkCredential "pem" "") (mkTerminalSize 80 24 0 0) "inspect the logs".
Definition demo_raw : string := "0123456789abcdef0123456789abcdef".
Definition demo_connector (r : WebSSHTicketRequest) : option WebSSHTicketResponse :=
  Some (mkTicketResponse "v1" "req" (b64_encode demo_raw) (b64_encode "0123456789abcdef") (130 * second)).
Definition demo_clock : issue_clock := mkIssueClock (100 * second) (101 * second) (101 * second) (102 * second).
Definition demo_issued : Broker * result issue_error IssueResponse :=
  Issue id (λ _, true) demo_connector demo_broker demo_request demo_clock (Some demo_raw) (Some "0123456789abcdef").
Definition demo_hello (roles : list string) : HelloMessage :=
  mkHello MessageHello (b64_encode demo_raw) (b64_encode "0123456789abcdef") (demo_binding roles).
Definition demo_consumed : Broker := (consumeTicket id demo_issued.1 (demo_hello ["viewer"]) (103 * second)).1.

(** * Properties *)

(** a WebSSH ticket that was presented once, with a right or a
    wrong hello, is never accepted again, whatever issues, consumptions, prunings or
    shutdowns follow, unless a new ticket with the same digest is stored. *)
Theorem webssh_ticket_single_use sha256 b hello now b1 r h n k s hello' now' b3 r' :
  ticket_hash sha256 (hl_Ticket hello) = Some h → consumeTicket sha256 b hello now = (b1, r) →
  rtc (broker_step sha256 (λ h', h' ≠ h)) (mkSystem b1 n k) s →
  hl_Ticket hello' = hl_Ticket hello → consumeTicket sha256 (sys_broker s) hello' now' = (b3, r') →
  ∃ e, r' = inr e.
Proof.
  intros Hh H1 Hsteps Ht H2.
  assert (tickets b1 !! h = None) as Hnone.
  { apply consumeTicket_cases in H1 as (_ & _ & _ & H). rewrite Hh in H.
    destruct H as [(? & -> & _)|(e & _ & -> & _)]; [done|]. apply lookup_delete_eq. }
  apply broker_steps_absent in Hsteps as Hn; [|done].
  apply consumeTicket_cases in H2 as (_ & _ & _ & H). rewrite Ht, Hh in H.
  destruct H as [(_ & _ & ->)|(e & He & _)]; [by eauto|].
  exfalso. apply prune_lookup_Some in He as [He _]. congruence.
Qed.

Lemma webssh_ticket_single_use_witness :
  ∃ e, (consumeTicket id demo_consumed (demo_hello ["admin"; "operator"]) (104 * second)).2 = inr e.
Proof.
  refine (webssh_ticket_single_use id demo_issued.1 (demo_hello ["viewer"]) (103 * second) demo_consumed
    (consumeTicket id demo_issued.1 (demo_hello ["viewer"]) (103 * second)).2 demo_raw 0 0 (mkSystem demo_consumed 0 0)
    (demo_hello ["admin"; "operator"]) (104 * second)
    (consumeTicket id demo_consumed (demo_hello ["admin"; "operator"]) (104 * second)).1 _ _ _ _ _ _).
  - vm_compute. reflexivity.
  - vm_compute. reflexivity.
  - apply rtc_refl.
  - reflexivity.
  - vm_compute. reflexivity.
Defined.

(** under every interleaving of issues, consumptions, prunings and
    shutdown, the outstanding tickets never exceed the limit and the replay table five times
    the limit, and an issue that holds a reservation always finds room for its ticket: its
    store fails only on shutdown, a full replay table, or a ticket with the same digest. *)
Theorem webssh_capacity sha256 b0 s :
  issuing b0 = 0 → tickets b0 = ∅ → consumed b0 = ∅ → 0 ≤ MaxOutstandingTickets (config b0) →
  rtc (broker_step sha256 (λ _, True)) (mkSystem b0 0 0) s →
  let b := sys_broker s in
  len (tickets b) ≤ MaxOutstandingTickets (config b0) ∧ len (consumed b) ≤ 5 * MaxOutstandingTickets (config b0) ∧
  ∀ h t now, (0 < reserved s)%nat → (storeTicket b h t now).2 = false →
    closed b = true ∨ 4 * MaxOutstandingTickets (config b0) ≤ len (consumed b) ∨ is_Some (tickets b !! h).
Proof.
  intros Hi Ht Hc Hm Hsteps b.
  assert (broker_ok (mkSystem b0 0 0)) as H0.
  { unfold broker_ok, len. cbn. rewrite Hi, Ht, Hc, !map_size_empty. split_and!; [done|lia|lia]. }
  destruct (broker_steps_ok _ _ _ _ Hsteps H0) as [(Hiss & Hlen & Hcon) Ecfg]. cbn in Ecfg. fold b in Hlen, Hcon, Ecfg.
  rewrite Ecfg in *. pose proof (len_nonneg (tickets b)). pose proof (len_nonneg (consumed b)).
  split_and!; [lia|lia|]. intros h t now Hres Hst. unfold storeTicket in Hst. cbn in Hst. rewrite Ecfg in Hst.
  destruct (pruneLocked_sizes b now) as [Ps Pc]. cbn in Ps, Pc.
  destruct (closed b); [by left|]. cbn in Hst. rewrite (proj2 (Z.leb_gt _ _)) in Hst by lia. cbn in Hst.
  case_match eqn:E; [right; left; apply Z.leb_le in E; lia|].
  case_match eqn:E2; [|done]. apply prune_lookup_Some in E2 as [E2 _]. right; right. by rewrite E2.
Qed.

Lemma webssh_capacity_witness : len (tickets demo_broker) ≤ 8.
Proof.
  refine (proj1 (webssh_capacity id demo_broker (mkSystem demo_broker 0 0) _ _ _ _ _)).
  - reflexivity.
  - reflexivity.
  - reflexivity.
  - vm_compute. discriminate.
  - apply rtc_refl.
Defined.

(** the ticket that [Issue] returned is accepted with the issued
    connection id and the issued binding, its roles in any order, until it expires, and the
    session gets exactly that binding; the ticket lives no longer than the configured time. *)
Theorem webssh_issue_consume sha256 authorize connector b request clock r1 r2 b' resp bd now :
  Issue sha256 authorize connector b request clock r1 r2 = (b', Ok resp) →
  equivalent (iq_Binding request) bd → at_store clock ≤ now < is_ExpiresAt resp →
  is_ExpiresAt resp ≤ at_ticket clock + TicketTTL (config b) ∧
  ∃ entry, (consumeTicket sha256 b' (mkHello MessageHello (is_Ticket resp) (is_ConnectionID resp) bd) now).2 = inl entry ∧
    equivalent (binding entry) bd ∧ expiresAt entry = is_ExpiresAt resp.
Proof.
  intros H Hbd Hnow. unfold Issue in H. destruct (validateIssueRequest request); [|done].
  destruct (normalizeBinding (iq_Binding request)) as [nb|] eqn:En; [|done].
  destruct (authorize _); [|done]. cbn in H.
  destruct (reserveTicket b (at_reserve clock)) as [br [|]] eqn:Er; [|done]. cbn in H.
  pose proof (reserveTicket_config b (at_reserve clock)) as Ecfg. rewrite Er in Ecfg. cbn in Ecfg.
  destruct (issue_ticket _ _ _ _ _ _ _ _) as [[[hash entry] rp]|] eqn:Ei; [|done].
  apply issue_ticket_Ok in Ei as (raw & Hraw & -> & Etk & Econ & Ebd & Eexp & Hexp).
  destruct (storeTicket br (sha256 raw) entry (at_store clock)) as [bs [|]] eqn:Est; [|done].
  injection H as <- <-. rewrite Ecfg in Hexp. split; [lia|].
  assert (tickets (releaseTicketReservation bs) !! sha256 raw = Some entry) as Hl.
  { unfold storeTicket in Est. repeat case_match; simplify_eq. unfold releaseTicketReservation.
    case_match; cbn; apply lookup_insert_eq. }
  exists entry. split; [|rewrite Ebd; split; [|by symmetry]].
  - destruct (consumeTicket _ _ _ _) as [b3 r3] eqn:Ec. apply consumeTicket_cases in Ec as (_ & _ & _ & Hc).
    cbn in Hc. rewrite Etk, ticket_hash_encode in Hc by done. cbn.
    assert (prune (λ t, (now <? expiresAt t)%Z) (tickets (releaseTicketReservation bs)) !! sha256 raw = Some entry) as Hp.
    { apply prune_lookup_Some. split; [done|]. apply Z.ltb_lt. lia. }
    destruct Hc as [(Hn & _)|(e & He & _ & _ & Hr & _)]; [cbn in Hn; congruence|].
    cbn in He. rewrite Hp in He. injection He as <-. apply Hr. split_and!; [lia|done|done|].
    rewrite <-Hbd, En. by rewrite Ebd.
  - etrans; [|exact Hbd]. symmetry. by apply normalizeBinding_Ok in En as [? _].
Qed.

Lemma webssh_issue_consume_witness :
  ∃ entry, (consumeTicket id demo_issued.1 (demo_hello ["admin"; "operator"]) (103 * second)).2 = inl entry ∧
    equivalent (binding entry) (demo_binding ["admin"; "operator"]) ∧ expiresAt entry = 121 * second.
Proof.
  refine (proj2 (webssh_issue_consume id (λ _, true) demo_connector demo_broker demo_request demo_clock (Some demo_raw)
    (Some "0123456789abcdef") demo_issued.1
    (mkIssueResponse "v1" (b64_encode demo_raw) (b64_encode "0123456789abcdef") (121 * second)
       "wss://example.test/api/v1/webssh/connect") (demo_binding ["admin"; "operator"]) (103 * second) _ _ _)).
  - vm_compute. reflexivity.
  - repeat split. apply Permutation_swap.
  - vm_compute. split; [discriminate|reflexivity].
Defined.
