(* ===== verification/Persistence.v ===== *)
(** * The persistence repository

    Models [services/persistence/types.go] and [memory.go]: the storage
    records with their validation, the JSON boundary that keeps secret-bearing
    payloads out, and [MemoryRepository], whose Go maps are keyed by
    [composite] strings.  The repository is shown to implement tables keyed by
    installation and id. *)

From S2P Require Import Prelude GoStrings Encoding Json.

Inductive error :=
| ErrNotFound
| ErrConflict
| ErrUnsafeJSON
| Invalid (message : string)
| Wrapped (context : string) (e : error).

Definition DefaultListLimit : Z := 100.
Definition MaxListLimit : Z := 500.
Definition MaxJSONBytes : Z := Z.shiftl 1 20.

Record HostKeyPin := mkPin {
  Algorithm : string;
  FingerprintSHA256 : string;
  PublicKey : string;
  ConfirmedAt : time;
  ConfirmedBy : string;
}.

(** [json.RawMessage] and [[]byte] are byte strings; a nil slice is the empty
    one.  A nil [Labels] map is [None]. *)
Record Asset := mkAsset {
  a_InstallationID : string;
  a_ID : string;
  a_Name : string;
  a_Address : string;
  a_Port : Z;
  a_Username : string;
  a_Labels : option (gmap string string);
  a_HostKey : option HostKeyPin;
  a_Version : Z;
  a_CreatedAt : time;
  a_UpdatedAt : time;
}.

Record CredentialEnvelope := mkCredential {
  c_InstallationID : string;
  c_CredentialID : string;
  c_Version : Z;
  c_Kind : string;
  c_KeyID : string;
  c_Ciphertext : string;
  c_CipherNonce : string;
  c_WrappedKey : string;
  c_WrappedKeyNonce : string;
  c_Metadata : string;
  c_CreatedAt : time;
}.

Record Job := mkJob {
  j_InstallationID : string;
  j_ID : string;
  j_Type : string;
  j_AssetID : string;
  j_State : string;
  j_RequestedBy : string;
  j_RequestID : string;
  j_IdempotencyKey : string;
  j_Parameters : string;
  j_Result : string;
  j_ErrorCode : string;
  j_ErrorMessage : string;
  j_Version : Z;
  j_CreatedAt : time;
  j_StartedAt : option time;
  j_FinishedAt : option time;
  j_UpdatedAt : time;
}.

Record AuditEvent := mkAudit {
  e_InstallationID : string;
  e_ID : string;
  e_Timestamp : time;
  e_Actor : string;
  e_Role : string;
  e_Action : string;
  e_TargetType : string;
  e_TargetID : string;
  e_Outcome : string;
  e_RequestID : string;
  e_JobID : string;
  e_Details : string;
}.

Record AuditFilter := mkFilter {
  f_InstallationID : string;
  f_Before : time;
  f_BeforeID : string;
  f_Limit : Z;
}.

Definition normalizeLimit (limit : Z) : Z :=
  if (limit <=? 0)%Z then DefaultListLimit
  else if (MaxListLimit <? limit)%Z then MaxListLimit else limit.

(** ** Validation *)

Definition alnum_char (a : ascii) : bool :=
  let b := byte_val a in in_range 48 57 b || in_range 65 90 b || in_range 97 122 b.
Definition identifier_char (a : ascii) : bool :=
  alnum_char a || Ascii.eqb a "_" || Ascii.eqb a "." || Ascii.eqb a ":" || Ascii.eqb a "-".

(** [^[A-Za-z0-9][A-Za-z0-9_.:-]{0,127}$] *)
Definition identifierPattern (s : string) : bool :=
  match s with
  | EmptyString => false
  | String a t => alnum_char a && forallb identifier_char (String.list_ascii_of_string t) && (slen t <=? 127)%Z
  end.

Definition validateIdentifier (label value : string) : result error unit :=
  require identifierPattern value else Invalid (label +:+ " is invalid") ;; Ok tt.

Definition validateEnvironment (environment : string) : result error unit :=
  require bool_decide (environment ∈ ["production"; "development"; "test"])
    else Invalid "environment must be production, development, or test" ;; Ok tt.

(** [strings.NewReplacer("-", "_", ".", "_", " ", "_").Replace] *)
Definition underscore (a : ascii) : ascii :=
  if Ascii.eqb a "-" || Ascii.eqb a "." || Ascii.eqb a " " then "_"%char else a.

(** [strings.HasSuffix] and equality with ASCII text, on rune sequences. *)
Definition ends_with (suffix l : list Z) : bool :=
  bool_decide (drop (length l - length suffix) l = suffix).

Definition secret_fields : list string :=
  ["password"; "passwd"; "passphrase"; "private_key"; "privatekey"; "secret"; "client_secret"; "api_token";
   "access_token"; "refresh_token"; "authorization"; "cookie"; "set_cookie"; "credential"; "credentials";
   "ciphertext"; "wrapped_key"].

Definition isSecretField (key : string) : bool :=
  let normalized := to_lower (map_str underscore key) in
  if ends_with (runes "_id") normalized || ends_with (runes "_version") normalized ||
     ends_with (runes "_fingerprint") normalized then false
  else existsb (λ w, bool_decide (normalized = runes w)) secret_fields.
#[global] Arguments isSecretField : simpl never.

Fixpoint containsSecretField (value : json) (depth : Z) {struct value} : bool :=
  if (64 <? depth)%Z then true
  else match value with
  | JObject l => existsb (λ kv, let '(key, child) := kv in
                     isSecretField key || containsSecretField child (depth + 1)) l
  | JArray l => existsb (λ child, containsSecretField child (depth + 1)) l
  | _ => false
  end.

Definition ValidateSafeJSON (raw : string) : result error unit :=
  if (slen raw =? 0)%Z then Ok tt
  else if (MaxJSONBytes <? slen raw)%Z then Err (Invalid "JSON payload is invalid or too large")
  else match parse raw with
  | None => Err (Invalid "JSON payload is invalid or too large")
  | Some value => if containsSecretField value 0 then Err ErrUnsafeJSON else Ok tt
  end.

Definition validateSafeJSONObject (raw : string) : result error unit :=
  if (slen raw =? 0)%Z then Ok tt
  else match ValidateSafeJSON raw with
  | Err e => Err e
  | Ok _ =>
    match parse raw with
    | Some (JObject _) => Ok tt
    | _ => Err (Invalid "JSON payload must be an object")
    end
  end.

Definition wrap {A} (context : string) (r : result error A) : result error A :=
  match r with Ok a => Ok a | Err e => Err (Wrapped context e) end.

Definition validJobState (state : string) : bool :=
  bool_decide (state ∈ ["created"; "prechecking"; "awaiting_approval"; "queued"; "running"; "verifying";
                        "succeeded"; "failed"; "timed_out"; "cancelled"; "orphaned"; "reconciling"]).

Definition blank (s : string) : bool := trim_space s =? "".

Definition validateAsset (asset : Asset) : result error unit :=
  validateIdentifier "installation id" (a_InstallationID asset) ;;
  validateIdentifier "asset id" (a_ID asset) ;;
  require negb (blank (a_Name asset) || (200 <? slen (a_Name asset))%Z) else Invalid "asset name is invalid" ;;
  require negb (blank (a_Address asset) || (255 <? slen (a_Address asset))%Z) else Invalid "asset address is invalid" ;;
  require negb ((a_Port asset <? 1)%Z || (65535 <? a_Port asset)%Z) else Invalid "asset port is invalid" ;;
  require negb (blank (a_Username asset) || (128 <? slen (a_Username asset))%Z)
    else Invalid "asset username is invalid" ;;
  require forallb (λ kv, negb ((slen kv.1 =? 0)%Z || (128 <? slen kv.1)%Z || (512 <? slen kv.2)%Z || isSecretField kv.1))
            (map_to_list (default ∅ (a_Labels asset)))
    else Invalid "asset labels are invalid" ;;
  Ok tt.

Definition validateCredential (envelope : CredentialEnvelope) : result error unit :=
  validateIdentifier "installation id" (c_InstallationID envelope) ;;
  validateIdentifier "credential id" (c_CredentialID envelope) ;;
  require negb ((c_Version envelope =? 0)%Z || negb (identifierPattern (c_Kind envelope)) ||
                (c_KeyID envelope =? "") || (512 <? slen (c_KeyID envelope))%Z)
    else Invalid "credential envelope metadata is incomplete" ;;
  require negb ((slen (c_Ciphertext envelope) =? 0)%Z || (slen (c_WrappedKey envelope) =? 0)%Z)
    else Invalid "credential envelope is incomplete" ;;
  validateSafeJSONObject (c_Metadata envelope).

Definition validate_optional (label value : string) : result error unit :=
  if value =? "" then Ok tt else validateIdentifier label value.

Definition validateJob (job : Job) : result error unit :=
  validateIdentifier "installation id" (j_InstallationID job) ;;
  validateIdentifier "job id" (j_ID job) ;;
  validateIdentifier "asset id" (j_AssetID job) ;;
  require negb (negb (identifierPattern (j_Type job)) || negb (validJobState (j_State job)) ||
                (j_RequestedBy job =? "") || (256 <? slen (j_RequestedBy job))%Z)
    else Invalid "job metadata is incomplete" ;;
  validate_optional "request id" (j_RequestID job) ;;
  validate_optional "idempotency key" (j_IdempotencyKey job) ;;
  wrap "job parameters" (validateSafeJSONObject (j_Parameters job)) ;;
  wrap "job result" (validateSafeJSONObject (j_Result job)) ;;
  require negb ((128 <? slen (j_ErrorCode job))%Z || isSecretField (j_ErrorCode job) ||
                (4096 <? slen (j_ErrorMessage job))%Z)
    else Invalid "job error is invalid" ;;
  Ok tt.

Definition validateAudit (event : AuditEvent) : result error unit :=
  validateIdentifier "installation id" (e_InstallationID event) ;;
  validateIdentifier "audit id" (e_ID event) ;;
  require negb ((e_Actor event =? "") || (e_Action event =? "") || (e_TargetType event =? "") || (e_Outcome event =? ""))
    else Invalid "audit event is incomplete" ;;
  wrap "audit details" (validateSafeJSONObject (e_Details event)).

(** ** MemoryRepository *)

Record MemoryRepository := mkRepository {
  assets : gmap string Asset;
  credentials : gmap string CredentialEnvelope;
  jobs : gmap string Job;
  audits : list AuditEvent;
}.

Definition NewMemoryRepository : MemoryRepository := mkRepository ∅ ∅ ∅ [].

Fixpoint composite (parts : list string) : string :=
  match parts with
  | [] => ""
  | part :: rest => itoa (slen part) +:+ ":" +:+ part +:+ "|" +:+ composite rest
  end.

(** Copies: the maps, slices and pointed-to values are rebuilt, element by
    element, so that the caller's value and the stored one share nothing. *)
Definition copy_bytes (b : string) : string := "" +:+ b.
Definition cloneTime (value : option time) : option time :=
  match value with None => None | Some t => Some t end.

Definition cloneAsset (asset : Asset) : Asset :=
  mkAsset (a_InstallationID asset) (a_ID asset) (a_Name asset) (a_Address asset) (a_Port asset) (a_Username asset)
    (Some (foldr (λ kv m, <[kv.1 := kv.2]> m) ∅ (map_to_list (default ∅ (a_Labels asset)))))
    (match a_HostKey asset with None => None | Some pin => Some pin end)
    (a_Version asset) (a_CreatedAt asset) (a_UpdatedAt asset).

Definition cloneCredential (v : CredentialEnvelope) : CredentialEnvelope :=
  mkCredential (c_InstallationID v) (c_CredentialID v) (c_Version v) (c_Kind v) (c_KeyID v)
    (copy_bytes (c_Ciphertext v)) (copy_bytes (c_CipherNonce v)) (copy_bytes (c_WrappedKey v))
    (copy_bytes (c_WrappedKeyNonce v)) (copy_bytes (c_Metadata v)) (c_CreatedAt v).

Definition cloneJob (j : Job) : Job :=
  mkJob (j_InstallationID j) (j_ID j) (j_Type j) (j_AssetID j) (j_State j) (j_RequestedBy j) (j_RequestID j)
    (j_IdempotencyKey j) (copy_bytes (j_Parameters j)) (copy_bytes (j_Result j)) (j_ErrorCode j) (j_ErrorMessage j)
    (j_Version j) (j_CreatedAt j) (cloneTime (j_StartedAt j)) (cloneTime (j_FinishedAt j)) (j_UpdatedAt j).

Definition cloneAudit (e : AuditEvent) : AuditEvent :=
  mkAudit (e_InstallationID e) (e_ID e) (e_Timestamp e) (e_Actor e) (e_Role e) (e_Action e) (e_TargetType e)
    (e_TargetID e) (e_Outcome e) (e_RequestID e) (e_JobID e) (copy_bytes (e_Details e)).

Definition with_assets m x := mkRepository x (credentials m) (jobs m) (audits m).
Definition with_credentials m x := mkRepository (assets m) x (jobs m) (audits m).
Definition with_jobs m x := mkRepository (assets m) (credentials m) x (audits m).
Definition with_audits m x := mkRepository (assets m) (credentials m) (jobs m) x.

Definition CreateAsset (m : MemoryRepository) (asset : Asset) : MemoryRepository * result error unit :=
  match validateAsset asset with
  | Err e => (m, Err e)
  | Ok _ =>
    let key := composite [a_InstallationID asset; a_ID asset] in
    match assets m !! key with
    | Some _ => (m, Err ErrConflict)
    | None => (with_assets m (<[key := cloneAsset asset]> (assets m)), Ok tt)
    end
  end.

Definition GetAsset (m : MemoryRepository) (installationID id : string) : result error Asset :=
  match assets m !! composite [installationID; id] with
  | None => Err ErrNotFound
  | Some asset => Ok (cloneAsset asset)
  end.

(** [sort.Slice] by id, and the cut at the limit. *)
Definition by_id {A} (id : A → string) (x y : A) : Prop := str_le (id x) (id y).
#[global] Instance by_id_dec {A} (id : A → string) : RelDecision (by_id id) := λ x y, str_le_dec (id x) (id y).
Definition page {A} (id : A → string) (limit : Z) (items : list A) : list A :=
  take (Z.to_nat (normalizeLimit limit)) (merge_sort (by_id id) items).

(** [a > b] on strings. *)
Definition str_gt (a b : string) : bool := negb (String.leb a b).

(** [order] is the order in which the range visits the map. *)
Definition ListAssets (order : list Asset) (installationID : string) (limit : Z) (afterID : string)
    : result error (list Asset) :=
  validateIdentifier "installation id" installationID ;;
  Ok (page a_ID limit (map cloneAsset
       (List.filter (λ a, (a_InstallationID a =? installationID) && str_gt (a_ID a) afterID) order))).

Definition UpdateAsset (m : MemoryRepository) (asset : Asset) (expectedVersion : Z)
    : MemoryRepository * result error unit :=
  match validateAsset asset with
  | Err e => (m, Err e)
  | Ok _ =>
    let key := composite [a_InstallationID asset; a_ID asset] in
    match assets m !! key with
    | None => (m, Err ErrNotFound)
    | Some current =>
      if negb (a_Version current =? expectedVersion)%Z || negb (a_Version asset =? u64 (expectedVersion + 1))%Z
      then (m, Err ErrConflict)
      else (with_assets m (<[key := cloneAsset asset]> (assets m)), Ok tt)
    end
  end.

Definition DeleteAsset (m : MemoryRepository) (installationID id : string) (expectedVersion : Z)
    : MemoryRepository * result error unit :=
  let key := composite [installationID; id] in
  match assets m !! key with
  | None => (m, Err ErrNotFound)
  | Some current =>
    if negb (a_Version current =? expectedVersion)%Z then (m, Err ErrConflict)
    else (with_assets m (delete key (assets m)), Ok tt)
  end.

Definition PutCredentialEnvelope (m : MemoryRepository) (envelope : CredentialEnvelope)
    : MemoryRepository * result error unit :=
  match validateCredential envelope with
  | Err e => (m, Err e)
  | Ok _ =>
    let key := composite [c_InstallationID envelope; c_CredentialID envelope; itoa (c_Version envelope)] in
    match credentials m !! key with
    | Some _ => (m, Err ErrConflict)
    | None => (with_credentials m (<[key := cloneCredential envelope]> (credentials m)), Ok tt)
    end
  end.

Definition GetCredentialEnvelope (m : MemoryRepository) (installationID credentialID : string) (version : Z)
    : result error CredentialEnvelope :=
  match credentials m !! composite [installationID; credentialID; itoa version] with
  | None => Err ErrNotFound
  | Some v => Ok (cloneCredential v)
  end.

Definition CreateJob (m : MemoryRepository) (job : Job) : MemoryRepository * result error unit :=
  match validateJob job with
  | Err e => (m, Err e)
  | Ok _ =>
    let key := composite [j_InstallationID job; j_ID job] in
    match jobs m !! key with
    | Some _ => (m, Err ErrConflict)
    | None => (with_jobs m (<[key := cloneJob job]> (jobs m)), Ok tt)
    end
  end.

Definition GetJob (m : MemoryRepository) (installationID id : string) : result error Job :=
  match jobs m !! composite [installationID; id] with
  | None => Err ErrNotFound
  | Some job => Ok (cloneJob job)
  end.

Definition ListJobs (order : list Job) (installationID : string) (limit : Z) (afterID : string)
    : result error (list Job) :=
  validateIdentifier "installation id" installationID ;;
  Ok (page j_ID limit (map cloneJob
       (List.filter (λ j, (j_InstallationID j =? installationID) && str_gt (j_ID j) afterID) order))).

Definition UpdateJob (m : MemoryRepository) (job : Job) (expectedVersion : Z)
    : MemoryRepository * result error unit :=
  match validateJob job with
  | Err e => (m, Err e)
  | Ok _ =>
    let key := composite [j_InstallationID job; j_ID job] in
    match jobs m !! key with
    | None => (m, Err ErrNotFound)
    | Some current =>
      if negb (j_Version current =? expectedVersion)%Z || negb (j_Version job =? u64 (expectedVersion + 1))%Z
      then (m, Err ErrConflict)
      else (with_jobs m (<[key := cloneJob job]> (jobs m)), Ok tt)
    end
  end.

Definition AppendAudit (m : MemoryRepository) (event : AuditEvent) : MemoryRepository * result error unit :=
  match validateAudit event with
  | Err e => (m, Err e)
  | Ok _ =>
    if existsb (λ x, (e_InstallationID x =? e_InstallationID event) && (e_ID x =? e_ID event)) (audits m)
    then (m, Err ErrConflict)
    else (with_audits m (audits m ++ [cloneAudit event]), Ok tt)
  end.

(** Newest first, ties by descending id. *)
Definition newest_first (x y : AuditEvent) : Prop :=
  e_Timestamp y < e_Timestamp x ∨ e_Timestamp x = e_Timestamp y ∧ str_le (e_ID y) (e_ID x).
#[global] Instance newest_first_dec : RelDecision newest_first.
Proof. intros x y. unfold newest_first. apply _. Defined.

(** An event that the loop of [ListAudit] does not [continue] past. *)
Definition audit_selected (filter : AuditFilter) (beforeID : string) (event : AuditEvent) : bool :=
  (e_InstallationID event =? f_InstallationID filter) &&
  (is_zero_time (f_Before filter) ||
   (negb (f_Before filter <? e_Timestamp event)%Z &&
    negb ((e_Timestamp event =? f_Before filter)%Z && String.leb beforeID (e_ID event)))).

Definition ListAudit (m : MemoryRepository) (filter : AuditFilter) : result error (list AuditEvent) :=
  validateIdentifier "installation id" (f_InstallationID filter) ;;
  (if f_BeforeID filter =? "" then Ok tt else validateIdentifier "audit cursor id" (f_BeforeID filter)) ;;
  let beforeID := if f_BeforeID filter =? "" then "~" else f_BeforeID filter in
  Ok (take (Z.to_nat (normalizeLimit (f_Limit filter)))
       (merge_sort newest_first (map cloneAudit (List.filter (audit_selected filter beforeID) (audits m))))).

(** ** Requests, and the repository as a step relation *)

Inductive request :=
| RCreateAsset (asset : Asset)
| RGetAsset (installationID id : string)
| RListAssets (installationID : string) (limit : Z) (afterID : string)
| RUpdateAsset (asset : Asset) (expectedVersion : Z)
| RDeleteAsset (installationID id : string) (expectedVersion : Z)
| RPutCredential (envelope : CredentialEnvelope)
| RGetCredential (installationID credentialID : string) (version : Z)
| RCreateJob (job : Job)
| RGetJob (installationID id : string)
| RListJobs (installationID : string) (limit : Z) (afterID : string)
| RUpdateJob (job : Job) (expectedVersion : Z)
| RAppendAudit (event : AuditEvent)
| RListAudit (filter : AuditFilter).

Inductive reply :=
| Done
| OneAsset (a : Asset)
| ManyAssets (l : list Asset)
| OneCredential (c : CredentialEnvelope)
| OneJob (j : Job)
| ManyJobs (l : list Job)
| ManyAudits (l : list AuditEvent).

#[global] Instance result_fmap {E} : FMap (result E) := λ A B f r,
  match r with Ok a => Ok (f a) | Err e => Err e end.

Definition done_reply {S} (p : S * result error unit) : S * result error reply := (p.1, (λ _, Done) <$> p.2).

(** The repository's answer to a request; [oa] and [oj] are the orders in which
    a range visits the assets and the jobs. *)
Definition run (oa : list Asset) (oj : list Job) (m : MemoryRepository) (r : request)
    : MemoryRepository * result error reply :=
  match r with
  | RCreateAsset a => done_reply (CreateAsset m a)
  | RGetAsset i id => (m, OneAsset <$> GetAsset m i id)
  | RListAssets i limit after => (m, ManyAssets <$> ListAssets oa i limit after)
  | RUpdateAsset a v => done_reply (UpdateAsset m a v)
  | RDeleteAsset i id v => done_reply (DeleteAsset m i id v)
  | RPutCredential c => done_reply (PutCredentialEnvelope m c)
  | RGetCredential i id v => (m, OneCredential <$> GetCredentialEnvelope m i id v)
  | RCreateJob j => done_reply (CreateJob m j)
  | RGetJob i id => (m, OneJob <$> GetJob m i id)
  | RListJobs i limit after => (m, ManyJobs <$> ListJobs oj i limit after)
  | RUpdateJob j v => done_reply (UpdateJob m j v)
  | RAppendAudit e => done_reply (AppendAudit m e)
  | RListAudit f => (m, ManyAudits <$> ListAudit m f)
  end.

Definition exchange : Type := request * result error reply.

Inductive repo_steps : MemoryRepository → list exchange → MemoryRepository → Prop :=
| repo_nil m : repo_steps m [] m
| repo_cons m r oa oj m1 x log m2 :
    oa ≡ₚ (map_to_list (assets m)).*2 → oj ≡ₚ (map_to_list (jobs m)).*2 →
    run oa oj m r = (m1, x) → repo_steps m1 log m2 → repo_steps m ((r, x) :: log) m2.

(** ** The specification: tables keyed by installation and id

    No key strings, no copies, no map order: a table per kind of record, in
    which creating conflicts with an existing row and updating is a
    compare-and-swap on the version. *)

Record Tables := mkTables {
  t_assets : gmap (string * string) Asset;
  t_credentials : gmap (string * string * Z) CredentialEnvelope;
  t_jobs : gmap (string * string) Job;
  t_audits : list AuditEvent;
}.

Section tables.
Context {K A : Type} `{Countable K}.
Implicit Types t : gmap K A.

Definition create_row t (k : K) (a : A) : gmap K A * result error unit :=
  if decide (is_Some (t !! k)) then (t, Err ErrConflict) else (<[k := a]> t, Ok tt).
Definition read_row t (k : K) : result error A := of_option (t !! k) ErrNotFound.
Definition swap_row (version : A → Z) t (k : K) (a : A) (expected : Z) : gmap K A * result error unit :=
  match t !! k with
  | None => (t, Err ErrNotFound)
  | Some old => if decide (version old = expected ∧ version a = u64 (expected + 1))
                then (<[k := a]> t, Ok tt) else (t, Err ErrConflict)
  end.
Definition delete_row (version : A → Z) t (k : K) (expected : Z) : gmap K A * result error unit :=
  match t !! k with
  | None => (t, Err ErrNotFound)
  | Some old => if decide (version old = expected) then (delete k t, Ok tt) else (t, Err ErrConflict)
  end.
End tables.

(** The rows of an installation after a cursor, in the order of their ids. *)
Definition list_rows {A} (t : gmap (string * string) A) (installationID : string) (limit : Z) (afterID : string)
    : result error (list A) :=
  validateIdentifier "installation id" installationID ;;
  Ok (take (Z.to_nat (normalizeLimit limit))
       (merge_sort (by_id (λ kv, kv.1.2))
         (filter (λ kv, kv.1.1 = installationID ∧ str_gt kv.1.2 afterID = true) (map_to_list t))).*2).

Definition set_assets (t : Tables) p := (mkTables p.1 (t_credentials t) (t_jobs t) (t_audits t), p.2 : result error unit).
Definition set_credentials (t : Tables) p := (mkTables (t_assets t) p.1 (t_jobs t) (t_audits t), p.2 : result error unit).
Definition set_jobs (t : Tables) p := (mkTables (t_assets t) (t_credentials t) p.1 (t_audits t), p.2 : result error unit).
Definition set_audits (t : Tables) p := (mkTables (t_assets t) (t_credentials t) (t_jobs t) p.1, p.2 : result error unit).

Definition validated {S} (v : result error unit) (s : S) (k : S * result error unit) : S * result error unit :=
  match v with Err e => (s, Err e) | Ok _ => k end.

(** A missing label map is stored as an empty one. *)
Definition filled (a : Asset) : Asset :=
  mkAsset (a_InstallationID a) (a_ID a) (a_Name a) (a_Address a) (a_Port a) (a_Username a) (Some (default ∅ (a_Labels a)))
    (a_HostKey a) (a_Version a) (a_CreatedAt a) (a_UpdatedAt a).

Definition append_event (l : list AuditEvent) (e : AuditEvent) : list AuditEvent * result error unit :=
  if decide ((e_InstallationID e, e_ID e) ∈ map (λ x, (e_InstallationID x, e_ID x)) l)
  then (l, Err ErrConflict) else (l ++ [e], Ok tt).

(** An event a page starts with or goes on to, after the cursor [f_Before],
    [f_BeforeID]: the zero time is no cursor, an empty id leaves events of that
    instant in. *)
Definition past (f : AuditFilter) (e : AuditEvent) : Prop :=
  f_Before f = 0 ∨ e_Timestamp e < f_Before f ∨
  e_Timestamp e = f_Before f ∧ (f_BeforeID f = "" ∨ str_le (e_ID e) (f_BeforeID f) ∧ f_BeforeID f ≠ e_ID e).
#[global] Instance past_dec f e : Decision (past f e).
Proof. unfold past. apply _. Defined.

(** The events of an installation, newest first, from the cursor on. *)
Definition list_events (l : list AuditEvent) (f : AuditFilter) : result error (list AuditEvent) :=
  validateIdentifier "installation id" (f_InstallationID f) ;;
  (if f_BeforeID f =? "" then Ok tt else validateIdentifier "audit cursor id" (f_BeforeID f)) ;;
  Ok (take (Z.to_nat (normalizeLimit (f_Limit f)))
       (List.filter (λ e, bool_decide (past f e))
         (merge_sort newest_first (List.filter (λ e, e_InstallationID e =? f_InstallationID f) l)))).

(** No two events of an installation share an id, and the ids are identifiers. *)
Definition events_ok (l : list AuditEvent) : Prop :=
  NoDup (map (λ x, (e_InstallationID x, e_ID x)) l) ∧ Forall (λ e, identifierPattern (e_ID e) = true) l.

Definition spec_run (t : Tables) (r : request) : Tables * result error reply :=
  match r with
  | RCreateAsset a => done_reply (validated (validateAsset a) t
      (set_assets t (create_row (t_assets t) (a_InstallationID a, a_ID a) (filled a))))
  | RGetAsset i id => (t, OneAsset <$> read_row (t_assets t) (i, id))
  | RListAssets i limit after => (t, ManyAssets <$> list_rows (t_assets t) i limit after)
  | RUpdateAsset a v => done_reply (validated (validateAsset a) t
      (set_assets t (swap_row a_Version (t_assets t) (a_InstallationID a, a_ID a) (filled a) v)))
  | RDeleteAsset i id v => done_reply (set_assets t (delete_row a_Version (t_assets t) (i, id) v))
  | RPutCredential c => done_reply (validated (validateCredential c) t
      (set_credentials t (create_row (t_credentials t) (c_InstallationID c, c_CredentialID c, c_Version c) c)))
  | RGetCredential i id v => (t, OneCredential <$> read_row (t_credentials t) (i, id, v))
  | RCreateJob j => done_reply (validated (validateJob j) t
      (set_jobs t (create_row (t_jobs t) (j_InstallationID j, j_ID j) j)))
  | RGetJob i id => (t, OneJob <$> read_row (t_jobs t) (i, id))
  | RListJobs i limit after => (t, ManyJobs <$> list_rows (t_jobs t) i limit after)
  | RUpdateJob j v => done_reply (validated (validateJob j) t
      (set_jobs t (swap_row j_Version (t_jobs t) (j_InstallationID j, j_ID j) j v)))
  | RAppendAudit e => done_reply (validated (validateAudit e) t (set_audits t (append_event (t_audits t) e)))
  | RListAudit f => (t, ManyAudits <$> list_events (t_audits t) f)
  end.

(** The replies of the specification to a sequence of requests. *)
Fixpoint spec_log (t : Tables) (rs : list request) : list exchange :=
  match rs with
  | [] => []
  | r :: rs' => (r, (spec_run t r).2) :: spec_log (spec_run t r).1 rs'
  end.

Definition no_tables : Tables := mkTables ∅ ∅ ∅ [].

(** ** Lemmas: keys and copies *)

Lemma composite_cons p l : composite (p :: l) = itoa (slen p) +:+ String ":" (p +:+ String "|" (composite l)).
Proof. reflexivity. Qed.

(** The length prefix makes the key unambiguous whatever the parts contain. *)
Lemma composite_inj l k : composite l = composite k → l = k.
Proof.
  revert k. induction l as [|p l IH]; intros [|q k]; rewrite ?composite_cons; try done.
  - by destruct (itoa (slen q)).
  - by destruct (itoa (slen p)).
  - intros H. apply append_sep_inj in H as [Hp H]; [|apply itoa_free; done..].
    apply itoa_inj in Hp. apply append_same_length in H as [-> H]; [|done].
    simplify_eq. f_equal. by apply IH.
Qed.

Definition key2 (k : string * string) : string := composite [k.1; k.2].
Definition key3 (k : string * string * Z) : string := composite [k.1.1; k.1.2; itoa k.2].

#[global] Instance key2_inj : Inj (=) (=) key2.
Proof. intros [] [] H%composite_inj. naive_solver. Qed.
#[global] Instance key3_inj : Inj (=) (=) key3.
Proof. intros [[] v] [[] w] H%composite_inj. cbn in H. by simplify_eq. Qed.

Lemma cloneAsset_filled a : cloneAsset a = filled a.
Proof.
  destruct a as [i id n ad p u labels h v c up]. unfold cloneAsset, filled. cbn.
  f_equal; [|by destruct h]. f_equal. rewrite <-(list_to_map_to_list (default ∅ labels)) at 2. done.
Qed.
Lemma filled_twice a : filled (filled a) = filled a.
Proof. done. Qed.
Lemma map_filled l : Forall (λ a, filled a = a) l → map cloneAsset l = l.
Proof. induction 1 as [|a l Ha _ IH]; cbn; [done|]. by rewrite cloneAsset_filled, Ha, IH. Qed.
Lemma cloneCredential_same c : cloneCredential c = c.
Proof. by destruct c. Qed.
Lemma cloneJob_same j : cloneJob j = j.
Proof. destruct j as [? ? ? ? ? ? ? ? ? ? ? ? ? ? st fi up]. by destruct st, fi. Qed.
Lemma cloneAudit_same e : cloneAudit e = e.
Proof. by destruct e. Qed.

(** ** Lemmas: sorted pages *)

#[global] Instance by_id_trans {A} (id : A → string) : Transitive (by_id id).
Proof. intros x y z. unfold by_id. apply transitivity. Qed.
#[global] Instance by_id_total {A} (id : A → string) : Total (by_id id).
Proof. intros x y. unfold by_id. apply (total str_le). Qed.

Lemma StronglySorted_map {A B} (f : A → B) (R : relation A) (S : relation B) l :
  (∀ x y, x ∈ l → y ∈ l → R x y → S (f x) (f y)) → StronglySorted R l → StronglySorted S (map f l).
Proof.
  induction l as [|x l IH]; intros HR; cbn; [constructor|].
  intros [Hs Hx]%StronglySorted_inv. constructor.
  - apply IH; [|done]. intros y z Hy Hz. apply HR; by right.
  - apply Forall_forall. intros y (z & -> & Hz)%list_elem_of_fmap. apply HR; [by left|by right|].
    by eapply Forall_forall in Hx.
Qed.

(** The rows of a table whose values carry their own key. *)
Definition self_keyed {A} (inst id : A → string) (t : gmap (string * string) A) : Prop :=
  ∀ k a, t !! k = Some a → k = (inst a, id a).

Lemma list_rows_page {A} (inst id : A → string) t (order : list A) i limit after :
  self_keyed inst id t → order ≡ₚ (map_to_list t).*2 →
  page id limit (List.filter (λ a, (inst a =? i) && str_gt (id a) after) order) =
  take (Z.to_nat (normalizeLimit limit))
    (merge_sort (by_id (λ kv, kv.1.2))
       (filter (λ kv, kv.1.1 = i ∧ str_gt kv.1.2 after = true) (map_to_list t))).*2.
Proof.
  intros Hk Ho. unfold page. f_equal. set (L := filter _ (map_to_list t)).
  assert (∀ kv, kv ∈ L → t !! kv.1 = Some kv.2 ∧ kv.1 = (inst kv.2, id kv.2) ∧ kv.1.1 = i) as HL.
  { intros [k a] [[Hi _] Hm]%list_elem_of_filter. apply elem_of_map_to_list in Hm. split_and!; [done|by apply Hk|done]. }
  assert (List.filter (λ a, (inst a =? i) && str_gt (id a) after) order ≡ₚ L.*2) as HP.
  { rewrite Ho. subst L. clear Ho HL.
    assert (∀ kv, kv ∈ map_to_list t → kv.1 = (inst kv.2, id kv.2)) as Hm
      by (intros [k a] H%elem_of_map_to_list; by apply Hk).
    revert Hm. generalize (map_to_list t). intros l. induction l as [|[k a] l IH]; intros Hm; [done|].
    pose proof (Hm (k, a) ltac:(by left)) as Ek. cbn in Ek. subst k. rewrite filter_cons. cbn.
    specialize (IH (λ kv H, Hm kv (list_elem_of_further _ _ _ H))).
    destruct (decide _) as [[Hi Hg]|Hn]; cbn in *.
    - rewrite (proj2 (String.eqb_eq _ _) Hi), Hg. cbn. by rewrite IH.
    - destruct (_ && _) eqn:E; [|done]. reflect_bools. tauto. }
  apply (StronglySorted_unique_strong (by_id id)).
  - intros x y Hx Hy Hxy Hyx. rewrite merge_sort_Permutation, HP in Hx.
    apply list_elem_of_fmap in Hx as (kx & -> & Hx). apply list_elem_of_fmap in Hy as (ky & -> & Hy).
    rewrite merge_sort_Permutation in Hy. destruct (HL _ Hx) as (Lx & Kx & Ix), (HL _ Hy) as (Ly & Ky & Iy).
    assert (id kx.2 = id ky.2) as E by (apply (anti_symm str_le); done).
    assert (kx.1 = ky.1) as E1 by (destruct kx as [[] ?], ky as [[] ?]; cbn in *; congruence).
    rewrite E1 in Lx. congruence.
  - apply StronglySorted_merge_sort; apply _.
  - apply (StronglySorted_map _ (by_id (λ kv, kv.1.2))); [|apply StronglySorted_merge_sort; apply _].
    intros x y Hx Hy. rewrite merge_sort_Permutation in Hx, Hy.
    destruct (HL _ Hx) as (_ & Kx & _), (HL _ Hy) as (_ & Ky & _). unfold by_id. by rewrite Kx, Ky.
  - by rewrite !merge_sort_Permutation, HP.
Qed.

(** ** Lemmas: listings *)

Lemma map_same {A} (clone : A → A) l : (∀ x, clone x = x) → map clone l = l.
Proof. intros H. induction l; cbn; by rewrite ?H, ?IHl. Qed.

(** Sorting commutes with filtering when equal keys mean equal items. *)
Lemma sort_filter {A} (R : relation A) `{!RelDecision R, !Transitive R, !Total R} (p : A → bool) l :
  (∀ x y, x ∈ l → y ∈ l → R x y → R y x → x = y) →
  merge_sort R (List.filter p l) = List.filter p (merge_sort R l).
Proof.
  intros Ha. assert (∀ (q : A → bool) k x, x ∈ List.filter q k → x ∈ k) as Hsub.
  { intros q k x. rewrite !list_elem_of_In. by intros [? _]%filter_In. }
  apply (StronglySorted_unique_strong R).
  - intros x y Hx Hy. rewrite merge_sort_Permutation in Hx, Hy. apply Ha; by eapply Hsub.
  - apply StronglySorted_merge_sort; apply _.
  - assert (StronglySorted R (merge_sort R l)) as Hs by (apply StronglySorted_merge_sort; apply _).
    revert Hs. generalize (merge_sort R l). intros k. induction k as [|x k IH]; cbn; [constructor|].
    intros [Hs Hx]%StronglySorted_inv. destruct (p x); [|by apply IH]. constructor; [by apply IH|].
    apply Forall_forall. intros y Hy%Hsub. by eapply Forall_forall in Hx.
  - by rewrite !merge_sort_Permutation.
Qed.

Lemma str_gt_iff a b : str_gt a b = true ↔ str_le b a ∧ a ≠ b.
Proof.
  unfold str_gt. rewrite negb_true_iff. split.
  - intros H. destruct (total str_le a b) as [E|E]; [unfold str_le in E; congruence|].
    split; [done|]. intros ->. by rewrite E in H.
  - intros [Hle Hne]. destruct (String.leb a b) eqn:E; [|done]. exfalso. apply Hne. by apply (anti_symm str_le).
Qed.

Lemma filter_filter_and {A} (p q : A → bool) l :
  List.filter (λ x, p x && q x) l = List.filter q (List.filter p l).
Proof. induction l as [|x l IH]; cbn; [done|]. destruct (p x); cbn; destruct (q x); by rewrite ?IH. Qed.

Lemma elem_of_List_filter {A} (p : A → bool) l x : x ∈ List.filter p l ↔ x ∈ l ∧ p x = true.
Proof. by rewrite !list_elem_of_In, filter_In. Qed.

#[global] Instance newest_first_trans : Transitive newest_first.
Proof.
  intros x y z. unfold newest_first. intros [?|[? ?]] [?|[? ?]]; [left; lia..|right]. split; [congruence|].
  by etrans.
Qed.
#[global] Instance newest_first_total : Total newest_first.
Proof.
  intros x y. unfold newest_first. destruct (Z.lt_trichotomy (e_Timestamp x) (e_Timestamp y)) as [?|[E|?]]; [auto| |auto].
  destruct (total str_le (e_ID x) (e_ID y)); auto.
Qed.

(** The smallest string above every identifier. *)
Lemma identifier_below_tilde s : identifierPattern s = true → String.leb "~" s = false.
Proof.
  destruct s as [|a t]; [done|]. unfold identifierPattern, alnum_char. intros H. reflect_bools.
  destruct (String.leb "~" (String a t)) eqn:E; [|done]. exfalso.
  apply str_le_cons in E. assert (byte_val a ≤ 122) as Ha.
  { repeat match goal with H : _ || _ = true |- _ => apply orb_true_iff in H as [H|H] end;
      repeat match goal with H : in_range _ _ _ = true |- _ => apply in_range_true in H end; lia. }
  unfold byte_val in Ha. destruct E as [E|[<- _]]; [|by vm_compute in Ha].
  change (N_of_ascii "~") with 126%N in E. lia.
Qed.

Lemma newest_first_antisym x y : newest_first x y → newest_first y x → e_ID x = e_ID y.
Proof.
  unfold newest_first. intros [?|[? H1]] [?|[? H2]]; try lia. by apply (anti_symm str_le).
Qed.

Lemma audit_unique l x y :
  NoDup (map (λ x, (e_InstallationID x, e_ID x)) l) → x ∈ l → y ∈ l →
  e_InstallationID x = e_InstallationID y → e_ID x = e_ID y → x = y.
Proof.
  intros Hd Hx Hy Ei Eid. induction l as [|z l IH]; [by apply not_elem_of_nil in Hx|].
  cbn in Hd. apply NoDup_cons in Hd as [Hz Hd].
  apply elem_of_cons in Hx as [->|Hx]; apply elem_of_cons in Hy as [->|Hy]; [done| | |by apply IH].
  - exfalso. apply Hz. rewrite Ei, Eid. by apply (list_elem_of_fmap_2 (λ x, (e_InstallationID x, e_ID x))).
  - exfalso. apply Hz. rewrite <-Ei, <-Eid. by apply (list_elem_of_fmap_2 (λ x, (e_InstallationID x, e_ID x))).
Qed.

Lemma validateIdentifier_Ok label v u : validateIdentifier label v = Ok u → identifierPattern v = true.
Proof. unfold validateIdentifier. destruct (identifierPattern v); done. Qed.

Lemma validateAudit_id e : validateAudit e = Ok tt → identifierPattern (e_ID e) = true.
Proof. unfold validateAudit. intros H. do 2 apply bind_Ok_inv in H as (? & ? & H). by eapply validateIdentifier_Ok. Qed.

(** [ListAudit] sorts what it has selected, the specification selects from what
    is sorted; and the code's stand-in for a missing cursor id comes after every
    identifier. *)
Lemma ListAudit_events m f : events_ok (audits m) → ListAudit m f = list_events (audits m) f.
Proof.
  intros [Hd Hid]. unfold ListAudit, list_events. destruct (validateIdentifier "installation id" _); [|done]. cbn.
  assert (∀ (r : result error unit) (x y : list AuditEvent), x = y → (r ≫= λ _, Ok x) = (r ≫= λ _, Ok y)) as E
    by (by intros ? ? ? ->). apply E. clear E.
  rewrite map_same by apply cloneAudit_same. f_equal.
  rewrite <-(sort_filter newest_first).
  - f_equal. rewrite <-filter_filter_and. apply filter_ext_in. intros e He%list_elem_of_In.
    assert (identifierPattern (e_ID e) = true) as Hp by exact (proj1 (Forall_forall _ _) Hid e He).
    unfold audit_selected. f_equal. apply eq_bool_prop_intro. rewrite !Is_true_true, bool_decide_eq_true.
    unfold past, is_zero_time. rewrite orb_true_iff, andb_true_iff, !negb_true_iff, Z.ltb_ge, andb_false_iff, Z.eqb_eq, Z.eqb_neq.
    destruct (f_BeforeID f =? "") eqn:En; reflect_bools;
      (destruct (Z.lt_trichotomy (e_Timestamp e) (f_Before f)) as [?|[?|?]]; [split; intuition lia| |split; intuition lia]).
    + rewrite identifier_below_tilde by done. split; intuition lia.
    + assert (String.leb (f_BeforeID f) (e_ID e) = false ↔ str_le (e_ID e) (f_BeforeID f) ∧ f_BeforeID f ≠ e_ID e) as ->
        by (rewrite <-str_gt_iff; unfold str_gt; by rewrite negb_true_iff).
      split; intuition lia.
  - intros x y [Hx Ex]%elem_of_List_filter [Hy Ey]%elem_of_List_filter H1 H2. reflect_bools.
    apply (audit_unique (audits m)); try done; [congruence|]. by apply newest_first_antisym.
Qed.

Lemma append_event_ok l e : validateAudit e = Ok tt → events_ok l → events_ok (append_event l e).1.
Proof.
  intros He [Hd Hid]. unfold append_event. destruct (decide _) as [|Hn]; [done|]. split; cbn.
  - rewrite map_app. apply NoDup_app. split_and!; [done| |apply NoDup_singleton].
    by intros x Hx ->%list_elem_of_singleton.
  - apply Forall_app. split; [done|]. constructor; [by apply validateAudit_id|done].
Qed.

(** ** Refinement *)

Record refines (m : MemoryRepository) (t : Tables) : Prop := mkRefines {
  ref_assets : assets m = kmap key2 (t_assets t);
  ref_credentials : credentials m = kmap key3 (t_credentials t);
  ref_jobs : jobs m = kmap key2 (t_jobs t);
  ref_audits : audits m = t_audits t;
  ref_audits_ok : events_ok (t_audits t);
  ref_assets_keyed : self_keyed a_InstallationID a_ID (t_assets t);
  ref_jobs_keyed : self_keyed j_InstallationID j_ID (t_jobs t);
  ref_assets_filled : map_Forall (λ _ a, filled a = a) (t_assets t);
}.

Lemma self_keyed_insert {A} (inst id : A → string) t a :
  self_keyed inst id t → self_keyed inst id (<[(inst a, id a) := a]> t).
Proof. intros H k b [[<- <-]|[_ Hk]]%lookup_insert_Some; [done|by apply H]. Qed.

Lemma self_keyed_delete {A} (inst id : A → string) t k :
  self_keyed inst id t → self_keyed inst id (delete k t).
Proof. intros H k' b [_ Hk]%lookup_delete_Some. by apply H. Qed.

Lemma range_values {A} (t : gmap (string * string) A) (order : list A) :
  order ≡ₚ (map_to_list (kmap key2 t : gmap string A)).*2 → order ≡ₚ (map_to_list t).*2.
Proof.
  intros ->. rewrite (map_to_list_kmap key2), <-list_fmap_compose.
  by rewrite (list_fmap_ext (snd ∘ prod_map key2 id) snd) by (by intros ? []).
Qed.

Lemma filled_values (t : gmap (string * string) Asset) (order : list Asset) p :
  map_Forall (λ _ a, filled a = a) t → order ≡ₚ (map_to_list t).*2 → Forall (λ a, filled a = a) (List.filter p order).
Proof.
  intros Hf Ho. apply Forall_forall. intros a Ha. apply list_elem_of_In, filter_In in Ha as [Ha _].
  apply list_elem_of_In in Ha. rewrite Ho in Ha. apply list_elem_of_fmap in Ha as ([k b] & -> & Hk).
  apply elem_of_map_to_list in Hk. by eapply Hf.
Qed.

(** Unfold an operation of the repository at a refined state and reduce its
    table lookups to those of the specification. *)
Ltac repo_op H :=
  destruct H as [Ha Hc Hj Hau Hao Hka Hkj Hf]; cbn [run spec_run];
  repeat match goal with
  | |- context [composite [?i; ?id; itoa ?v]] => change (composite [i; id; itoa v]) with (key3 (i, id, v))
  | |- context [composite [?i; ?id]] => change (composite [i; id]) with (key2 (i, id))
  end;
  rewrite ?Ha, ?Hc, ?Hj, ?(lookup_kmap key2), ?(lookup_kmap key3).

Definition is_asset_request (r : request) : bool :=
  match r with RCreateAsset _ | RGetAsset _ _ | RListAssets _ _ _ | RUpdateAsset _ _ | RDeleteAsset _ _ _ => true | _ => false end.
Definition is_job_request (r : request) : bool :=
  match r with RCreateJob _ | RGetJob _ _ | RListJobs _ _ _ | RUpdateJob _ _ => true | _ => false end.

Lemma asset_op_refines m t r oa oj :
  refines m t → oa ≡ₚ (map_to_list (assets m)).*2 → is_asset_request r = true →
  (spec_run t r).2 = (run oa oj m r).2 ∧ refines (run oa oj m r).1 (spec_run t r).1.
Proof.
  intros H Ho Hr. destruct r; try done.
  - unfold run, CreateAsset, spec_run. destruct (validateAsset asset); [|done]. repo_op H.
    rewrite cloneAsset_filled. unfold create_row. destruct (t_assets t !! _) eqn:E; cbn -[key2].
    + by rewrite decide_True by eauto.
    + rewrite decide_False by (intros []; congruence). split; [done|]. constructor; try done; cbn -[key2].
      * symmetry. apply (kmap_insert key2).
      * by apply (self_keyed_insert a_InstallationID a_ID (t_assets t) (filled asset)).
      * by apply map_Forall_insert_2.
  - unfold run, GetAsset, spec_run, read_row. split; [|done]. repo_op H.
    destruct (t_assets t !! _) eqn:E; cbn; [|done]. rewrite cloneAsset_filled. by rewrite (Hf _ _ E).
  - split; [|done]. cbn. unfold ListAssets, list_rows.
    destruct H as [Ha _ _ _ _ Hk _ Hf]. rewrite Ha in Ho. apply range_values in Ho.
    rewrite map_filled; [by rewrite (list_rows_page a_InstallationID a_ID (t_assets t))|]. by eapply filled_values.
  - unfold run, UpdateAsset, spec_run. destruct (validateAsset asset); [|done]. repo_op H.
    rewrite cloneAsset_filled. unfold swap_row. destruct (t_assets t !! _) as [old|] eqn:E; [|done]. cbn -[key2].
    destruct (_ || _) eqn:Ev.
    + rewrite decide_False; [done|]. intros [??]. apply orb_true_iff in Ev as [?|?]; reflect_bools; done.
    + reflect_bools. rewrite decide_True by done. split; [done|]. constructor; try done; cbn -[key2].
      * symmetry. apply (kmap_insert key2).
      * by apply (self_keyed_insert a_InstallationID a_ID (t_assets t) (filled asset)).
      * by apply map_Forall_insert_2.
  - unfold run, DeleteAsset, spec_run, delete_row. repo_op H.
    destruct (t_assets t !! _) as [old|] eqn:E; [|done]. cbn -[key2]. destruct (negb _) eqn:Ev; reflect_bools.
    + by rewrite decide_False.
    + rewrite decide_True by done. split; [done|]. constructor; try done; cbn -[key2].
      * symmetry. apply (kmap_delete key2).
      * by apply self_keyed_delete.
      * by apply map_Forall_delete.
Qed.

Lemma job_op_refines m t r oa oj :
  refines m t → oj ≡ₚ (map_to_list (jobs m)).*2 → is_job_request r = true →
  (spec_run t r).2 = (run oa oj m r).2 ∧ refines (run oa oj m r).1 (spec_run t r).1.
Proof.
  intros H Ho Hr. destruct r; try done.
  - unfold run, CreateJob, spec_run. destruct (validateJob job); [|done]. repo_op H.
    rewrite cloneJob_same. unfold create_row. destruct (t_jobs t !! _) eqn:E; cbn -[key2].
    + by rewrite decide_True by eauto.
    + rewrite decide_False by (intros []; congruence). split; [done|]. constructor; try done; cbn -[key2].
      * symmetry. apply (kmap_insert key2).
      * by apply self_keyed_insert.
  - unfold run, GetJob, spec_run, read_row. split; [|done]. repo_op H.
    destruct (t_jobs t !! _); cbn; by rewrite ?cloneJob_same.
  - split; [|done]. cbn. unfold ListJobs, list_rows. rewrite map_same by apply cloneJob_same.
    destruct H as [_ _ Hj _ _ _ Hk _]. rewrite Hj in Ho. apply range_values in Ho.
    by rewrite (list_rows_page j_InstallationID j_ID (t_jobs t)).
  - unfold run, UpdateJob, spec_run. destruct (validateJob job); [|done]. repo_op H.
    rewrite cloneJob_same. unfold swap_row. destruct (t_jobs t !! _) as [old|] eqn:E; [|done]. cbn -[key2].
    destruct (_ || _) eqn:Ev.
    + rewrite decide_False; [done|]. intros [??]. apply orb_true_iff in Ev as [?|?]; reflect_bools; done.
    + reflect_bools. rewrite decide_True by done. split; [done|]. constructor; try done; cbn -[key2].
      * symmetry. apply (kmap_insert key2).
      * by apply self_keyed_insert.
Qed.

Lemma audit_present (l : list AuditEvent) e :
  existsb (λ x, (e_InstallationID x =? e_InstallationID e) && (e_ID x =? e_ID e)) l = true ↔
  (e_InstallationID e, e_ID e) ∈ map (λ x, (e_InstallationID x, e_ID x)) l.
Proof.
  rewrite existsb_exists, list_elem_of_In, in_map_iff. split; intros (x & ? & ?); exists x.
  - reflect_bools. by split; [congruence|].
  - simplify_eq. split; [done|]. rewrite !(proj2 (String.eqb_eq _ _)) by congruence. done.
Qed.

Lemma run_refines m t r oa oj :
  refines m t → oa ≡ₚ (map_to_list (assets m)).*2 → oj ≡ₚ (map_to_list (jobs m)).*2 →
  (spec_run t r).2 = (run oa oj m r).2 ∧ refines (run oa oj m r).1 (spec_run t r).1.
Proof.
  intros H Hoa Hoj. destruct (is_asset_request r) eqn:Ea; [by apply asset_op_refines|].
  destruct (is_job_request r) eqn:Ej; [by apply job_op_refines|]. destruct r; try done.
  - unfold run, PutCredentialEnvelope, spec_run. destruct (validateCredential envelope); [|done]. repo_op H.
    rewrite cloneCredential_same. unfold create_row. destruct (t_credentials t !! _) eqn:E; cbn -[key3].
    + by rewrite decide_True by eauto.
    + rewrite decide_False by (intros []; congruence). split; [done|]. constructor; try done; cbn -[key3].
      symmetry. apply (kmap_insert key3).
  - unfold run, GetCredentialEnvelope, spec_run, read_row. split; [|done]. repo_op H.
    destruct (t_credentials t !! _); cbn; by rewrite ?cloneCredential_same.
  - unfold run, AppendAudit, spec_run. destruct (validateAudit event) as [[]|] eqn:Ev; [|done]. cbn.
    destruct H as [? ? ? Hau Hao ? ? ?]. assert (events_ok (append_event (t_audits t) event).1) as Hok
      by by apply append_event_ok.
    revert Hok. unfold append_event. rewrite cloneAudit_same, <-Hau. destruct (existsb _ _) eqn:E.
    + rewrite decide_True by (by apply audit_present). by rewrite Hau.
    + rewrite decide_False by (rewrite <-audit_present, E; done). intros Hok. split; [done|]. constructor; cbn; (done || by rewrite <-Hau).
  - split; [|done]. cbn. destruct H as [? ? ? Hau Hao ? ? ?]. rewrite ListAudit_events by (by rewrite Hau). by rewrite Hau.
Qed.

Lemma repo_steps_refine m log m' t :
  repo_steps m log m' → refines m t →
  log = spec_log t log.*1 ∧ ∃ t', refines m' t'.
Proof.
  intros H. revert t. induction H as [m|m r oa oj m1 x log m2 Ha Hj E _ IH]; intros t Hr; [eauto|].
  destruct (run_refines m t r oa oj Hr Ha Hj) as [Hx Hr1]. rewrite E in Hx, Hr1. cbn in Hx, Hr1.
  destruct (IH _ Hr1) as [El Ht]. split; [|done]. cbn. by rewrite Hx, <-El.
Qed.

Lemma New_refines : refines NewMemoryRepository no_tables.
Proof. constructor; try done. split; constructor. Qed.

(** ** Following cursors

    A client reads a list page by page, passing the cursor of the last item it
    received, until a page is empty. *)

Fixpoint pages {A C} (fetch : C → result error (list A)) (cursor : A → C) (fuel : nat) (c : C) : list A :=
  match fuel with
  | O => []
  | S f =>
    match fetch c with
    | Err _ => []
    | Ok items => match last items with None => [] | Some a => items ++ pages fetch cursor f (cursor a) end
    end
  end.

Section paging.
Context {A C : Type} (fetch : C → result error (list A)) (cursor : A → C) (after : C → A → bool).
Context (lt : relation A) (n : nat) (L : list A).

(** [L] lists the items in the strict order [lt], a cursor selects what comes
    after its item, and [fetch] returns the first [n] selected items. *)
Lemma filter_after l1 a l2 :
  (∀ x y, lt x y → ¬ lt y x) → (∀ x, ¬ lt x x) → StronglySorted lt (l1 ++ a :: l2) →
  (∀ x, x ∈ l1 ++ a :: l2 → after (cursor a) x = true ↔ lt a x) →
  List.filter (after (cursor a)) (l1 ++ a :: l2) = l2.
Proof.
  intros Has Hir Hs Haf. rewrite List.filter_app. cbn.
  apply StronglySorted_app in Hs as (Hx & H1 & [_ H2]%StronglySorted_inv).
  replace (List.filter _ l1) with (@nil A).
  - destruct (after _ a) eqn:Ea.
    { exfalso. apply (Hir a), Haf; [|done]. set_solver. }
    cbn. assert (∀ x, x ∈ l2 → after (cursor a) x = true) as Hall.
    { intros x Hin. apply Haf; [set_solver|]. by eapply Forall_forall in H2. }
    clear -Hall. induction l2 as [|x l2 IH]; cbn; [done|].
    rewrite Hall by (by left). f_equal. apply IH. intros y Hy. apply Hall. by right.
  - assert (∀ x, x ∈ l1 → after (cursor a) x = false) as Hall.
    { intros x Hin. destruct (after _ x) eqn:E; [|done]. exfalso. apply Haf in E; [|set_solver].
      apply (Has a x E). apply Hx; [done|by left]. }
    clear -Hall. induction l1 as [|x l1 IH]; cbn; [done|]. rewrite Hall by (by left).
    apply IH. intros y Hy. apply Hall. by right.
Qed.

Lemma pages_all fuel c P R :
  (∀ x y, lt x y → ¬ lt y x) → (∀ x, ¬ lt x x) → StronglySorted lt L → (0 < n)%nat →
  (∀ a x, a ∈ L → x ∈ L → after (cursor a) x = true ↔ lt a x) →
  (∀ a, a ∈ L → fetch (cursor a) = Ok (take n (List.filter (after (cursor a)) L))) →
  L = P ++ R → fetch c = Ok (take n R) → (length R < fuel)%nat → pages fetch cursor fuel c = R.
Proof.
  intros Has Hir Hs Hn Haf Hf. revert c P R. induction fuel as [|fuel IH]; intros c P R HL Hc Hl; [lia|].
  cbn. rewrite Hc. destruct (last (take n R)) as [a|] eqn:Ea.
  - apply last_Some in Ea as [R1 Ea].
    remember (drop n R) as R2 eqn:E2.
    assert (R = R1 ++ a :: R2) as ER
      by (rewrite <-(take_drop n R), Ea, <-E2, <-(assoc_L (++)); done).
    assert (L = (P ++ R1) ++ a :: R2) as EL by (by rewrite HL, ER, (assoc_L (++))).
    assert (a ∈ L) as Hin by (rewrite EL; set_solver).
    assert (List.filter (after (cursor a)) L = R2) as EF.
    { rewrite EL. apply filter_after; try done; rewrite <-EL; [done|]. intros x Hx. by apply Haf. }
    rewrite (IH (cursor a) ((P ++ R1) ++ [a]) R2); [rewrite E2; apply take_drop| | |].
    + rewrite EL. by rewrite <-!(assoc_L (++)).
    + by rewrite Hf, EF.
    + rewrite ER, length_app in Hl. cbn in Hl. lia.
  - apply last_None in Ea. destruct R; [done|]. destruct n; [lia|done].
Qed.
End paging.

Lemma sorted_strict {A K} (R : relation A) (key : A → K) l :
  StronglySorted R l → NoDup (map key l) → StronglySorted (λ x y, R x y ∧ key x ≠ key y) l.
Proof.
  induction l as [|x l IH]; cbn; [constructor|].
  intros [Hs Hx]%StronglySorted_inv [Hn Hd]%NoDup_cons. constructor; [by apply IH|].
  apply Forall_forall. intros y Hy. split; [by eapply Forall_forall in Hx|].
  intros E. apply Hn. rewrite E. by apply list_elem_of_fmap_2.
Qed.

Lemma normalizeLimit_range limit : 1 ≤ normalizeLimit limit ≤ MaxListLimit.
Proof.
  unfold normalizeLimit, MaxListLimit, DefaultListLimit.
  destruct (limit <=? 0)%Z eqn:?; [lia|]. destruct (500 <? limit)%Z eqn:?; reflect_bools; lia.
Qed.

Lemma str_gt_empty a : a ≠ "" → str_gt a "" = true.
Proof. intros H. apply str_gt_iff. split; [|done]. by destruct a. Qed.

(** Reading a list of items with distinct ids to the end, starting at the
    empty cursor, gives every item once, in the order of the ids. *)
Lemma id_pages_all {A} (id : A → string) (fetch : string → result error (list A)) limit l fuel :
  NoDup (map id l) → Forall (λ x, id x ≠ "") l →
  (∀ c, fetch c = Ok (page id limit (List.filter (λ x, str_gt (id x) c) l))) →
  (length l < fuel)%nat → pages fetch id fuel "" = merge_sort (by_id id) l.
Proof.
  intros Hd Hne Hf Hl. set (L := merge_sort (by_id id) l).
  assert (L ≡ₚ l) as HP by apply merge_sort_Permutation.
  assert (∀ x y, x ∈ l → y ∈ l → id x = id y → x = y) as Hinj.
  { intros x y Hx Hy E. clear -Hd Hx Hy E. induction l as [|z l IH]; [by apply not_elem_of_nil in Hx|].
    cbn in Hd. apply NoDup_cons in Hd as [Hz Hd].
    apply elem_of_cons in Hx as [->|Hx]; apply elem_of_cons in Hy as [->|Hy]; [done| | |by apply IH].
    - exfalso. apply Hz. rewrite E. by apply list_elem_of_fmap_2.
    - exfalso. apply Hz. rewrite <-E. by apply list_elem_of_fmap_2. }
  assert (∀ c, fetch c = Ok (take (Z.to_nat (normalizeLimit limit)) (List.filter (λ x, str_gt (id x) c) L))) as Hf'.
  { intros c. rewrite Hf. unfold page. rewrite (sort_filter (by_id id)); [done|]. intros x y Hx Hy H1 H2.
    apply Hinj; [done..|]. by apply (anti_symm str_le). }
  apply (pages_all fetch id (λ c x, str_gt (id x) c) (λ x y, by_id id x y ∧ id x ≠ id y)
           (Z.to_nat (normalizeLimit limit)) L fuel "" [] L).
  - intros x y [H1 Hn] [H2 _]. apply Hn. by apply (anti_symm str_le).
  - intros x [_ []]; done.
  - apply sorted_strict; [apply StronglySorted_merge_sort; apply _|]. by rewrite HP.
  - pose proof (normalizeLimit_range limit). lia.
  - intros a x _ _. rewrite str_gt_iff. unfold by_id. naive_solver.
  - intros a _. apply Hf'.
  - done.
  - rewrite Hf'. do 2 f_equal. rewrite <-HP in Hne. clear -Hne. induction L as [|x k IH]; cbn; [done|].
    apply Forall_cons in Hne as [Hx Hne]. rewrite str_gt_empty by done. f_equal. by apply IH.
  - by rewrite HP.
Qed.

(** ** What every reachable repository satisfies *)

Record repo_ok (m : MemoryRepository) : Prop := mkRepoOk {
  ok_assets : map_Forall (λ _ a, validateAsset a = Ok tt) (assets m);
  ok_credentials : map_Forall (λ _ c, validateCredential c = Ok tt) (credentials m);
  ok_jobs : map_Forall (λ _ j, validateJob j = Ok tt) (jobs m);
  ok_audits : Forall (λ e, validateAudit e = Ok tt) (audits m);
  ok_audit_ids : NoDup (map (λ x, (e_InstallationID x, e_ID x)) (audits m));
}.

Lemma run_ok oa oj m r : repo_ok m → repo_ok (run oa oj m r).1.
Proof.
  intros [Ha Hc Hj Hau Hid]. destruct r; cbn; try done;
    unfold CreateAsset, UpdateAsset, DeleteAsset, PutCredentialEnvelope, CreateJob, UpdateJob, AppendAudit;
    repeat case_match; try done; constructor; cbn; try done;
    rewrite ?cloneAsset_filled, ?cloneCredential_same, ?cloneJob_same, ?cloneAudit_same;
    repeat match goal with x : () |- _ => destruct x end;
    try (apply map_Forall_insert_2; done); try (apply map_Forall_delete; done).
  - apply Forall_app. split; [done|]. by constructor.
  - rewrite map_app. cbn. apply NoDup_app. split_and!; [done| |apply NoDup_singleton].
    intros x Hx ->%list_elem_of_singleton. apply audit_present in Hx. congruence.
Qed.

Lemma reachable_repo log m :
  repo_steps NewMemoryRepository log m → repo_ok m ∧ ∃ t, refines m t.
Proof.
  intros H. split; [|by destruct (repo_steps_refine _ _ _ _ H New_refines)].
  assert (repo_ok NewMemoryRepository) as H0 by (constructor; (apply map_Forall_empty || constructor)).
  revert H0. induction H as [m|m r oa oj m1 x log m2 _ _ E _ IH]; [done|].
  intros H0. apply IH. pose proof (run_ok oa oj m r H0) as H1. by rewrite E in H1.
Qed.

Lemma validateAsset_id a : validateAsset a = Ok tt → identifierPattern (a_ID a) = true.
Proof. unfold validateAsset. intros H. repeat apply bind_Ok_inv in H as (? & ? & H). by eapply validateIdentifier_Ok. Qed.

Lemma validateJob_id j : validateJob j = Ok tt → identifierPattern (j_ID j) = true.
Proof. unfold validateJob. intros H. do 2 apply bind_Ok_inv in H as (? & ? & H). by eapply validateIdentifier_Ok. Qed.

Lemma identifier_nonempty s : identifierPattern s = true → s ≠ "".
Proof. by intros H ->. Qed.

Lemma self_keyed_ids {A} (inst id : A → string) t order i :
  self_keyed inst id t → order ≡ₚ (map_to_list t).*2 →
  NoDup (map id (List.filter (λ a, inst a =? i) order)).
Proof.
  intros Hk ->. pose proof (NoDup_fst_map_to_list t) as Hd.
  assert (∀ kv, kv ∈ map_to_list t → kv.1 = (inst kv.2, id kv.2)) as Hm
    by (intros [k a] H%elem_of_map_to_list; by apply Hk).
  revert Hd Hm. generalize (map_to_list t). intros l. induction l as [|[k a] l IH]; cbn; [constructor|].
  intros [Hn Hd]%NoDup_cons Hm.
  assert (NoDup (map id (List.filter (λ a, inst a =? i) l.*2))) as HI
    by (apply IH; [done|]; intros kv Hin; apply Hm; by right).
  destruct (inst a =? i) eqn:Ei; [|done]. cbn. constructor; [|done].
  intros Hin. apply list_elem_of_fmap in Hin as (b & Eb & Hb).
  apply list_elem_of_In, filter_In in Hb as [Hb Ebi]. apply list_elem_of_In, list_elem_of_fmap in Hb as ([k' b'] & -> & Hb).
  pose proof (Hm (k, a) ltac:(by left)) as Ek. pose proof (Hm (k', b') ltac:(by right)) as Ek'. cbn in *.
  reflect_bools. apply Hn. replace k with k' by congruence. by apply (list_elem_of_fmap_2 fst) in Hb.
Qed.

(** The pages of a self-keyed table, whatever order each read visits it in. *)
Lemma table_pages {A} (inst id : A → string) t (orders : string → list A) i limit fuel order :
  self_keyed inst id t → (∀ k a, t !! k = Some a → id a ≠ "") →
  (∀ c, orders c ≡ₚ (map_to_list t).*2) → order ≡ₚ (map_to_list t).*2 → (length order < fuel)%nat →
  pages (λ c, Ok (page id limit (List.filter (λ a, (inst a =? i) && str_gt (id a) c) (orders c)))) id fuel "" =
  merge_sort (by_id id) (List.filter (λ a, inst a =? i) order).
Proof.
  intros Hk Hne Hos Ho Hl. apply (id_pages_all id _ limit).
  - by apply (self_keyed_ids inst id t).
  - apply Forall_forall. intros x Hx. apply list_elem_of_In, filter_In in Hx as [Hx _].
    apply list_elem_of_In in Hx. rewrite Ho in Hx. apply list_elem_of_fmap in Hx as ([k a] & -> & Hx).
    apply elem_of_map_to_list in Hx. by eapply Hne.
  - intros c. rewrite <-filter_filter_and.
    by rewrite (list_rows_page inst id t (orders c)), <-(list_rows_page inst id t order) by done.
  - pose proof (List.filter_length_le (λ a, inst a =? i) order) as Hle. lia.
Qed.

Lemma pages_ext {A C} (f g : C → result error (list A)) cursor fuel c :
  (∀ c, f c = g c) → pages f cursor fuel c = pages g cursor fuel c.
Proof.
  intros E. revert c. induction fuel as [|fuel IH]; intros c; cbn; [done|]. rewrite E.
  destruct (g c) as [l|]; [|done]. destruct (last l); by rewrite ?IH.
Qed.

Lemma ListAssets_page (t : gmap (string * string) Asset) order i limit c :
  map_Forall (λ _ a, filled a = a) t → order ≡ₚ (map_to_list t).*2 →
  identifierPattern i = true → ListAssets order i limit c =
  Ok (page a_ID limit (List.filter (λ a, (a_InstallationID a =? i) && str_gt (a_ID a) c) order)).
Proof.
  intros Hf Ho Hi. unfold ListAssets, validateIdentifier. rewrite Hi, map_filled; [done|]. by eapply filled_values.
Qed.

Lemma ListJobs_page order i limit c :
  identifierPattern i = true → ListJobs order i limit c =
  Ok (page j_ID limit (List.filter (λ j, (j_InstallationID j =? i) && str_gt (j_ID j) c) order)).
Proof. intros Hi. unfold ListJobs, validateIdentifier. rewrite Hi, map_same by apply cloneJob_same. done. Qed.

(** ** Lemmas: audit pages *)

Definition audit_cursor (i : string) (limit : Z) (e : AuditEvent) : AuditFilter :=
  mkFilter i (e_Timestamp e) (e_ID e) limit.

(** Events that come strictly after [x] in the listing. *)
Definition older (x y : AuditEvent) : Prop := newest_first x y ∧ e_ID x ≠ e_ID y.

Lemma audit_selected_older i limit a x :
  e_Timestamp a ≠ 0 → e_InstallationID x = i → (e_ID a = e_ID x → a = x) →
  audit_selected (audit_cursor i limit a) (e_ID a) x = true ↔ older a x.
Proof.
  intros Ha Hx Hu. unfold audit_selected, audit_cursor, older, newest_first. cbn.
  rewrite Hx, String.eqb_refl. unfold is_zero_time. rewrite (proj2 (Z.eqb_neq _ _) Ha). cbn.
  rewrite andb_true_iff, !negb_true_iff, Z.ltb_ge, andb_false_iff, Z.eqb_neq. split.
  - intros [Hle Hc]. destruct (decide (e_Timestamp x = e_Timestamp a)) as [E|N].
    + destruct Hc as [?|Hc]; [done|]. assert (str_gt (e_ID a) (e_ID x) = true) as G by (unfold str_gt; by rewrite Hc).
      apply str_gt_iff in G as [? ?]. naive_solver.
    + split; [left; lia|]. intros E. apply Hu in E. congruence.
  - intros [[Hlt|[E Hle]] Hne]; [split; [lia|left; lia]|]. split; [lia|right].
    assert (str_gt (e_ID a) (e_ID x) = true) as G by (by apply str_gt_iff).
    unfold str_gt in G. by apply negb_true_iff in G.
Qed.

Lemma audit_ids l i :
  NoDup (map (λ x, (e_InstallationID x, e_ID x)) l) →
  NoDup (map e_ID (List.filter (λ e, e_InstallationID e =? i) l)).
Proof.
  induction l as [|x l IH]; cbn; [constructor|]. intros [Hx Hd]%NoDup_cons.
  destruct (e_InstallationID x =? i) eqn:E; [|by apply IH]. cbn. constructor; [|by apply IH].
  intros (y & Ey & [Hy Ei]%elem_of_List_filter)%list_elem_of_fmap. reflect_bools. apply Hx.
  rewrite E, <-Ei, Ey. by apply (list_elem_of_fmap_2 (λ x, (e_InstallationID x, e_ID x))).
Qed.

Lemma List_filter_all {A} (p : A → bool) l : (∀ x, x ∈ l → p x = true) → List.filter p l = l.
Proof.
  induction l as [|x l IH]; intros H; cbn; [done|]. rewrite H by (by left). f_equal.
  apply IH. intros y Hy. apply H. by right.
Qed.

(** [ListAudit] sorts the installation's events and then selects. *)
Lemma ListAudit_page m i before limit beforeID :
  NoDup (map (λ x, (e_InstallationID x, e_ID x)) (audits m)) → identifierPattern i = true →
  beforeID = "" ∨ identifierPattern beforeID = true →
  ListAudit m (mkFilter i before beforeID limit) =
  Ok (take (Z.to_nat (normalizeLimit limit))
       (List.filter (audit_selected (mkFilter i before beforeID limit) (if beforeID =? "" then "~" else beforeID))
         (merge_sort newest_first (List.filter (λ e, e_InstallationID e =? i) (audits m))))).
Proof.
  intros Hd Hi Hb. unfold ListAudit, validateIdentifier. cbn. rewrite Hi. cbn.
  replace (if beforeID =? "" then Ok tt else guard_ok (identifierPattern beforeID) _ ≫= _) with (Ok (E := error) tt).
  2: { destruct (beforeID =? "") eqn:E; [done|]. destruct Hb as [->|Hb]; [done|]. by rewrite Hb. }
  cbn. rewrite map_same by apply cloneAudit_same. do 2 f_equal. rewrite <-(sort_filter newest_first).
  - f_equal. rewrite <-filter_filter_and. apply filter_ext. intros e.
    unfold audit_selected at 2. cbn. unfold audit_selected. cbn. by destruct (e_InstallationID e =? i).
  - intros x y [Hx Ex]%elem_of_List_filter [Hy Ey]%elem_of_List_filter H1 H2. reflect_bools.
    apply (audit_unique (audits m)); try done; [congruence|]. by apply newest_first_antisym.
Qed.

(** ** Lemmas: installations do not see each other *)

Definition installation (r : request) : string :=
  match r with
  | RCreateAsset a | RUpdateAsset a _ => a_InstallationID a
  | RGetAsset i _ | RListAssets i _ _ | RDeleteAsset i _ _ | RGetCredential i _ _ | RGetJob i _ | RListJobs i _ _ => i
  | RPutCredential c => c_InstallationID c
  | RCreateJob j | RUpdateJob j _ => j_InstallationID j
  | RAppendAudit e => e_InstallationID e
  | RListAudit f => f_InstallationID f
  end.

(** The tables agree on the rows of installation [i]. *)
Record agree (i : string) (t t' : Tables) : Prop := mkAgree {
  agree_assets id : t_assets t !! (i, id) = t_assets t' !! (i, id);
  agree_credentials id v : t_credentials t !! (i, id, v) = t_credentials t' !! (i, id, v);
  agree_jobs id : t_jobs t !! (i, id) = t_jobs t' !! (i, id);
  agree_audits : List.filter (λ e, e_InstallationID e =? i) (t_audits t) =
                 List.filter (λ e, e_InstallationID e =? i) (t_audits t');
}.

Lemma list_rows_agree {A} (t t' : gmap (string * string) A) i limit c :
  (∀ id, t !! (i, id) = t' !! (i, id)) → list_rows t i limit c = list_rows t' i limit c.
Proof.
  intros Ht. unfold list_rows. destruct (validateIdentifier _ i); [|done]. cbn. do 3 f_equal.
  assert (∀ (t : gmap (string * string) A) kv,
    kv ∈ filter (λ kv, kv.1.1 = i ∧ str_gt kv.1.2 c = true) (map_to_list t) →
    kv.1.1 = i ∧ t !! kv.1 = Some kv.2) as Hin.
  { intros u [k b] [[Hi _] H%elem_of_map_to_list]%list_elem_of_filter. done. }
  apply (StronglySorted_unique_strong (by_id (λ kv, kv.1.2))).
  - intros [[i1 d1] a1] [[i2 d2] a2] H1 H2 R1 R2. rewrite merge_sort_Permutation in H1, H2.
    apply Hin in H1 as [E1 L1]. apply Hin in H2 as [E2 L2]. cbn in *. subst i1 i2.
    assert (d1 = d2) as -> by (by apply (anti_symm str_le)). rewrite Ht in L1. congruence.
  - apply StronglySorted_merge_sort; apply _.
  - apply StronglySorted_merge_sort; apply _.
  - rewrite !merge_sort_Permutation. apply NoDup_Permutation.
    + apply NoDup_filter, NoDup_map_to_list.
    + apply NoDup_filter, NoDup_map_to_list.
    + intros [[j d] b]. rewrite !list_elem_of_filter, !elem_of_map_to_list. cbn.
      split; intros [[-> ?] Hl]; (split; [done|]); [rewrite <-Ht|rewrite Ht]; done.
Qed.

Lemma list_events_agree l l' f :
  List.filter (λ e, e_InstallationID e =? f_InstallationID f) l =
  List.filter (λ e, e_InstallationID e =? f_InstallationID f) l' → list_events l f = list_events l' f.
Proof. intros H. unfold list_events. by rewrite H. Qed.

Lemma append_event_agree l l' e :
  List.filter (λ x, e_InstallationID x =? e_InstallationID e) l =
  List.filter (λ x, e_InstallationID x =? e_InstallationID e) l' →
  (append_event l e).2 = (append_event l' e).2.
Proof.
  intros H. unfold append_event.
  assert (∀ k, (e_InstallationID e, e_ID e) ∈ map (λ x, (e_InstallationID x, e_ID x)) k ↔
               (e_InstallationID e, e_ID e) ∈ map (λ x, (e_InstallationID x, e_ID x))
                 (List.filter (λ x, e_InstallationID x =? e_InstallationID e) k)) as Hk.
  { intros k. rewrite !list_elem_of_fmap. setoid_rewrite elem_of_List_filter.
    setoid_rewrite String.eqb_eq. split; intros (x & ? & ?); exists x; [|tauto]. split; [done|]. split; [done|congruence]. }
  pose proof (Hk l) as H1. pose proof (Hk l') as H2. rewrite H in H1. repeat destruct (decide _); first [done|exfalso; tauto].
Qed.

Lemma spec_run_agree t t' r :
  agree (installation r) t t' → (spec_run t r).2 = (spec_run t' r).2.
Proof.
  intros [Ha Hc Hj Hau]. destruct r; cbn in *;
    unfold validated, create_row, swap_row, delete_row, read_row, set_assets, set_credentials, set_jobs, set_audits;
    try (case_match; [|done]); cbn; rewrite ?Ha, ?Hc, ?Hj; try done.
  all: try (by repeat case_match).
  - by rewrite (list_rows_agree (t_assets t) (t_assets t')).
  - by rewrite (list_rows_agree (t_jobs t) (t_jobs t')).
  - by rewrite (append_event_agree _ _ _ Hau).
  - by rewrite (list_events_agree _ _ _ Hau).
Qed.

Lemma spec_run_other t r i : installation r ≠ i → agree i t (spec_run t r).1.
Proof.
  intros Hi. destruct r; cbn in *;
    unfold validated, create_row, swap_row, delete_row, append_event, set_assets, set_credentials, set_jobs, set_audits;
    repeat case_match; try done; constructor; cbn; intros; try done.
  all: try (rewrite lookup_insert_ne by congruence; done).
  all: try (rewrite lookup_delete_ne by congruence; done).
  rewrite List.filter_app. cbn. rewrite (proj2 (String.eqb_neq _ _) Hi). by rewrite app_nil_r.
Qed.

(** ** Lemmas: the JSON boundary *)

(** A member with a secret-bearing key, at any depth. *)
Inductive has_secret : json → Prop :=
| secret_key l k x : (k, x) ∈ l → isSecretField k = true → has_secret (JObject l)
| secret_member l k x : (k, x) ∈ l → has_secret x → has_secret (JObject l)
| secret_item l x : x ∈ l → has_secret x → has_secret (JArray l).

(** The depth of the deepest value. *)
Fixpoint depth (v : json) : Z :=
  match v with
  | JArray l => foldr (λ x n, (1 + depth x) `max` n) 0 l
  | JObject l => foldr (λ kv n, let '(_, x) := kv in (1 + depth x) `max` n) 0 l
  | _ => 0
  end.

Lemma fold_max_exceeds {A} (f : A → Z) (g : A → Z → Z) l n :
  (∀ x m, g x m = f x `max` m) → 0 ≤ n → n < foldr g 0 l ↔ ∃ x, x ∈ l ∧ n < f x.
Proof.
  intros Hg Hn. induction l as [|y l IH]; cbn.
  - split; [lia|]. intros (x & Hx & _). by apply not_elem_of_nil in Hx.
  - rewrite Hg, Z.max_lt_iff, IH. setoid_rewrite elem_of_cons. naive_solver.
Qed.

Lemma depth_nonneg v : 0 ≤ depth v.
Proof. destruct v as [| | | |l|l]; cbn; try lia; (induction l as [|x l IH]; cbn; [lia|]); [|destruct x]; lia. Qed.

Lemma containsSecretField_spec v d :
  0 ≤ d → containsSecretField v d = true ↔ has_secret v ∨ 64 < d + depth v.
Proof.
  revert d. induction v as [|b|n|s|l IH|l IH] using json_nested_ind; intros d Hd;
    match goal with |- context [depth ?v] => pose proof (depth_nonneg v) end;
    cbn [containsSecretField]; destruct (64 <? d)%Z eqn:E; reflect_bools;
    try (split; [intros _; right; lia|done]).
  1-4: split; [done|]; intros [H1|H1]; [inversion H1|cbn in H1; lia].
  - rewrite existsb_exists. setoid_rewrite <-list_elem_of_In. rewrite Forall_forall in IH. cbn [depth].
    transitivity (∃ x, x ∈ l ∧ (has_secret x ∨ 64 < d + 1 + depth x)).
    { split; intros (x & Hx & H1); exists x; (split; [done|]); apply (IH x Hx (d + 1)); (done || lia). }
    pose proof (fold_max_exceeds (λ x, 1 + depth x) (λ x n, (1 + depth x) `max` n) l (64 - d) ltac:(done) ltac:(lia)) as Hm.
    split.
    + intros (x & Hx & [Hs|Hlt]); [left; by econstructor|]. right. apply Z.lt_sub_lt_add_l, Hm. exists x. split; [done|lia].
    + intros [Hs|Hlt]; [inversion Hs; eauto|]. apply Z.lt_sub_lt_add_l, Hm in Hlt as (x & Hx & Hlt).
      exists x. split; [done|]. right. lia.
  - rewrite existsb_exists. setoid_rewrite <-list_elem_of_In. rewrite Forall_forall in IH. cbn [depth].
    transitivity (∃ k x, (k, x) ∈ l ∧ (isSecretField k = true ∨ has_secret x ∨ 64 < d + 1 + depth x)).
    { split.
      - intros ([k x] & Hx & [Hk|Hk]%orb_true_iff); exists k, x; (split; [done|]); [by left|right].
        apply (IH (k, x) Hx (d + 1)); (done || lia).
      - intros (k & x & Hx & Hk). exists (k, x). split; [done|]. rewrite orb_true_iff. destruct Hk as [Hk|Hk]; [by left|right].
        apply (IH (k, x) Hx (d + 1)); (done || lia). }
    pose proof (fold_max_exceeds (λ kv : string * json, 1 + depth kv.2)
      (λ kv n, let '(_, x) := kv in (1 + depth x) `max` n) l (64 - d) ltac:(by intros [] ?) ltac:(lia)) as Hm.
    split.
    + intros (k & x & Hx & [Hk|[Hs|Hlt]]); [left; by eapply secret_key|left; by eapply secret_member|].
      right. apply Z.lt_sub_lt_add_l, Hm. exists (k, x). split; [done|]. cbn. lia.
    + intros [Hs|Hlt]; [inversion Hs; simplify_eq; eauto 10|].
      apply Z.lt_sub_lt_add_l, Hm in Hlt as ([k x] & Hx & Hlt). cbn in Hlt. exists k, x. split; [done|]. right; right. lia.
Qed.

(** * Properties *)

(** C26: for every sequence of requests and every order in which the
    ranges visit the maps, [MemoryRepository] answers exactly as tables keyed
    by installation and id do, with the records that were written, conflicts
    on existing rows and compare-and-swap on versions: no two different keys
    ever share a composite key string, the listings do not depend on the
    map order, and the audit listing is the installation's events, newest first,
    from its cursor on. *)
Theorem memory_refines log m :
  repo_steps NewMemoryRepository log m → log = spec_log no_tables log.*1.
Proof. intros H. by destruct (repo_steps_refine _ _ _ _ H New_refines). Qed.

Definition demo_asset (i id : string) (v : Z) : Asset :=
  mkAsset i id "web" "192.0.2.1" 22 "root" (Some ∅) None v 1 1.

Lemma memory_refines_witness :
  [(RCreateAsset (demo_asset "i" "a1" 1), Ok Done); (RGetAsset "i" "a1", Ok (OneAsset (demo_asset "i" "a1" 1)))] =
  spec_log no_tables [RCreateAsset (demo_asset "i" "a1" 1); RGetAsset "i" "a1"].
Proof.
  refine (memory_refines [(RCreateAsset (demo_asset "i" "a1" 1), Ok Done);
                          (RGetAsset "i" "a1", Ok (OneAsset (demo_asset "i" "a1" 1)))]
            (mkRepository {[composite ["i"; "a1"] := demo_asset "i" "a1" 1]} ∅ ∅ []) _).
  eapply (repo_cons _ _ [] []); [reflexivity..|vm_compute; reflexivity|].
  eapply (repo_cons _ _ [demo_asset "i" "a1" 1] []); [reflexivity..|vm_compute; reflexivity|].
  apply repo_nil.
Defined.

(** a request of one installation, whatever it is, never changes
    the answer to any request of another installation. *)
Theorem installations_isolated log m r q oa oj m1 x oa1 oj1 oa2 oj2 :
  repo_steps NewMemoryRepository log m → installation r ≠ installation q →
  oa ≡ₚ (map_to_list (assets m)).*2 → oj ≡ₚ (map_to_list (jobs m)).*2 → run oa oj m r = (m1, x) →
  oa1 ≡ₚ (map_to_list (assets m)).*2 → oj1 ≡ₚ (map_to_list (jobs m)).*2 →
  oa2 ≡ₚ (map_to_list (assets m1)).*2 → oj2 ≡ₚ (map_to_list (jobs m1)).*2 →
  (run oa2 oj2 m1 q).2 = (run oa1 oj1 m q).2.
Proof.
  intros H Hi Ha Hj Hr Ha1 Hj1 Ha2 Hj2. destruct (reachable_repo _ _ H) as [_ [t Ht]].
  destruct (run_refines m t r oa oj Ht Ha Hj) as [_ Ht1]. rewrite Hr in Ht1. cbn in Ht1.
  destruct (run_refines m t q oa1 oj1 Ht Ha1 Hj1) as [<- _].
  destruct (run_refines m1 _ q oa2 oj2 Ht1 Ha2 Hj2) as [<- _].
  symmetry. by apply spec_run_agree, spec_run_other.
Qed.

Definition demo_repository : MemoryRepository :=
  mkRepository {[composite ["i"; "a1"] := demo_asset "i" "a1" 1]} ∅ ∅ [].

Lemma demo_repository_reachable : repo_steps NewMemoryRepository [(RCreateAsset (demo_asset "i" "a1" 1), Ok Done)] demo_repository.
Proof. eapply (repo_cons _ _ [] []); [reflexivity..|vm_compute; reflexivity|apply repo_nil]. Qed.

Lemma installations_isolated_witness :
  (run [demo_asset "i" "a1" 1] [] demo_repository (RGetAsset "i" "a1")).2 =
  (run [demo_asset "i" "a1" 1] [] demo_repository (RGetAsset "i" "a1")).2.
Proof.
  refine (installations_isolated _ demo_repository (RGetAsset "j" "a1") (RGetAsset "i" "a1")
    [demo_asset "i" "a1" 1] [] _ _ [demo_asset "i" "a1" 1] [] [demo_asset "i" "a1" 1] []
    demo_repository_reachable _ _ _ eq_refl _ _ _ _); [done|reflexivity..].
Defined.

(** a client that follows the cursors of [ListAssets] or [ListJobs]
    from the empty one, with any page limit and while each read visits the map
    in its own order, receives every record of the installation exactly once,
    in the order of the ids, and then an empty page. *)
Theorem listing_pages_complete log m (oa : string → list Asset) (oj : string → list Job) i limit fuel :
  repo_steps NewMemoryRepository log m → identifierPattern i = true →
  (∀ c, oa c ≡ₚ (map_to_list (assets m)).*2) → (∀ c, oj c ≡ₚ (map_to_list (jobs m)).*2) →
  (size (assets m) < fuel)%nat → (size (jobs m) < fuel)%nat →
  let got_a := pages (λ c, ListAssets (oa c) i limit c) a_ID fuel "" in
  let got_j := pages (λ c, ListJobs (oj c) i limit c) j_ID fuel "" in
  (got_a ≡ₚ List.filter (λ a, a_InstallationID a =? i) (map_to_list (assets m)).*2 ∧ StronglySorted (by_id a_ID) got_a) ∧
  (got_j ≡ₚ List.filter (λ j, j_InstallationID j =? i) (map_to_list (jobs m)).*2 ∧ StronglySorted (by_id j_ID) got_j).
Proof.
  intros H Hi Ha Hj Hfa Hfj. destruct (reachable_repo _ _ H) as [Hok [t [Ea _ Ej _ _ Ka Kj Hf]]].
  intros got_a got_j. split.
  - setoid_rewrite Ea in Ha. subst got_a.
    rewrite (pages_ext _ _ _ _ _ (λ c, ListAssets_page (t_assets t) (oa c) i limit c Hf (range_values _ _ (Ha c)) Hi)).
    rewrite (table_pages _ _ (t_assets t) oa i limit fuel (map_to_list (assets m)).*2 Ka).
    + split; [apply merge_sort_Permutation|apply StronglySorted_merge_sort; apply _].
    + intros k a Hk. eapply identifier_nonempty, validateAsset_id, (ok_assets m Hok (key2 k)). by rewrite Ea, (lookup_kmap key2).
    + intros c. by apply range_values.
    + rewrite Ea. by apply range_values.
    + by rewrite length_fmap, length_map_to_list.
  - setoid_rewrite Ej in Hj. subst got_j.
    rewrite (pages_ext _ _ _ _ _ (λ c, ListJobs_page (oj c) i limit c Hi)).
    rewrite (table_pages _ _ (t_jobs t) oj i limit fuel (map_to_list (jobs m)).*2 Kj).
    + split; [apply merge_sort_Permutation|apply StronglySorted_merge_sort; apply _].
    + intros k a Hk. eapply identifier_nonempty, validateJob_id, (ok_jobs m Hok (key2 k)). by rewrite Ej, (lookup_kmap key2).
    + intros c. by apply range_values.
    + rewrite Ej. by apply range_values.
    + by rewrite length_fmap, length_map_to_list.
Qed.

Lemma listing_pages_complete_witness :
  pages (λ c, ListAssets [demo_asset "i" "a1" 1] "i" 1 c) a_ID 2 "" ≡ₚ
  List.filter (λ a, a_InstallationID a =? "i") (map_to_list (assets demo_repository)).*2.
Proof.
  refine (proj1 (proj1 (listing_pages_complete _ demo_repository (λ _, [demo_asset "i" "a1" 1]) (λ _, []) "i" 1 2
    demo_repository_reachable eq_refl _ _ _ _))); [done|done|vm_compute; lia|vm_compute; lia].
Defined.

(** a client that follows the cursors of [ListAudit] from the newest
    event back receives every audit event of the installation exactly once,
    newest first with ties by descending id, provided the events carry a
    timestamp; a zero timestamp would be read as no cursor. *)
Theorem audit_pages_complete log m i limit fuel :
  repo_steps NewMemoryRepository log m → identifierPattern i = true →
  Forall (λ e, e_Timestamp e ≠ 0) (audits m) → (length (audits m) < fuel)%nat →
  let got := pages (ListAudit m) (audit_cursor i limit) fuel (mkFilter i 0 "" limit) in
  got ≡ₚ List.filter (λ e, e_InstallationID e =? i) (audits m) ∧ StronglySorted newest_first got.
Proof.
  intros H Hi Hts Hl got. destruct (reachable_repo _ _ H) as [[_ _ _ Hv Hd] _].
  set (L := merge_sort newest_first (List.filter (λ e, e_InstallationID e =? i) (audits m))).
  assert (∀ e, e ∈ L → e ∈ audits m ∧ e_InstallationID e = i) as HL.
  { intros e He. subst L. rewrite merge_sort_Permutation in He. apply elem_of_List_filter in He as [? E].
    by apply String.eqb_eq in E. }
  assert (StronglySorted newest_first L) as Hs by (apply StronglySorted_merge_sort; apply _).
  enough (got = L) as -> by (split; [apply merge_sort_Permutation|done]).
  apply (pages_all (ListAudit m) (audit_cursor i limit) (λ f, audit_selected f (f_BeforeID f)) older
           (Z.to_nat (normalizeLimit limit)) L fuel _ [] L).
  - intros x y [H1 Hn] [H2 _]. by apply Hn, newest_first_antisym.
  - by intros x [_ []].
  - apply (sorted_strict newest_first e_ID); [done|]. subst L. rewrite merge_sort_Permutation. by apply audit_ids.
  - pose proof (normalizeLimit_range limit). lia.
  - intros a x [Ha Ia]%HL [Hx Ix]%HL. apply audit_selected_older; [by eapply Forall_forall in Hts|done|].
    intros E. apply (audit_unique (audits m)); congruence.
  - intros a [Ha Ia]%HL. assert (identifierPattern (e_ID a) = true) as Hid by (eapply Forall_forall in Hv; [by apply validateAudit_id|done]).
    unfold audit_cursor at 1. rewrite ListAudit_page by auto. unfold audit_cursor. cbn.
    apply identifier_nonempty in Hid. by rewrite (proj2 (String.eqb_neq _ _) Hid).
  - done.
  - rewrite ListAudit_page by auto. do 2 f_equal. apply List_filter_all. intros x [_ Ix]%HL.
    unfold audit_selected. cbn. by rewrite Ix, String.eqb_refl.
  - subst L. rewrite merge_sort_Permutation. pose proof (List.filter_length_le (λ e, e_InstallationID e =? i) (audits m)). lia.
Qed.

Definition demo_event (id : string) (ts : Z) : AuditEvent :=
  mkAudit "i" id ts "alice" "admin" "host.delete" "host" "h1" "success" "" "" "".
Definition demo_audited : MemoryRepository := mkRepository ∅ ∅ ∅ [demo_event "e1" 5; demo_event "e2" 5].

Lemma demo_audited_reachable : repo_steps NewMemoryRepository
  [(RAppendAudit (demo_event "e1" 5), Ok Done); (RAppendAudit (demo_event "e2" 5), Ok Done)] demo_audited.
Proof.
  eapply (repo_cons _ _ [] []); [reflexivity..|vm_compute; reflexivity|].
  eapply (repo_cons _ _ [] []); [reflexivity..|vm_compute; reflexivity|apply repo_nil].
Qed.

Lemma audit_pages_complete_witness :
  pages (ListAudit demo_audited) (audit_cursor "i" 1) 3 (mkFilter "i" 0 "" 1) ≡ₚ
  List.filter (λ e, e_InstallationID e =? "i") (audits demo_audited).
Proof.
  refine (proj1 (audit_pages_complete _ demo_audited "i" 1 3 demo_audited_reachable eq_refl _ _)).
  - repeat constructor; vm_compute; discriminate.
  - vm_compute. lia.
Defined.

(** for a payload that is the text of a JSON value (ASCII strings,
    distinct keys) within the size limit, the persistence boundary accepts it
    exactly when no member at any depth has a secret-bearing key and nothing
    lies deeper than 64 levels. *)
Theorem safe_json_spec v :
  well_formed v = true → nesting v ≤ maxNestingDepth → 0 < slen (print v) ≤ MaxJSONBytes →
  ValidateSafeJSON (print v) = Ok tt ↔ ¬ has_secret v ∧ depth v ≤ 64.
Proof.
  intros Hw Hn Hl. unfold ValidateSafeJSON.
  rewrite (proj2 (Z.eqb_neq _ _)), (proj2 (Z.ltb_ge _ _)), parse_print by (done || lia).
  pose proof (containsSecretField_spec v 0 ltac:(lia)) as Hs. rewrite Z.add_0_l in Hs.
  destruct (containsSecretField v 0); split; try done.
  - intros [H1 H2]. exfalso. destruct (proj1 Hs eq_refl); [done|lia].
  - intros _. split; [|apply Z.nlt_ge]; intros H; discriminate (proj2 Hs ltac:(auto)).
Qed.

Definition demo_json : json := JObject [("region", JString "eu"); ("tags", JArray [JNumber "1"; JNull])].

Lemma safe_json_spec_witness :
  ValidateSafeJSON (print demo_json) = Ok tt ↔ ¬ has_secret demo_json ∧ depth demo_json ≤ 64.
Proof.
  refine (safe_json_spec demo_json _ _ _); [vm_compute; reflexivity|vm_compute; discriminate|].
  split; [vm_compute; reflexivity|vm_compute; discriminate].
Defined.

Definition q : string := String quote "".
(** The text of an object with the member "a" twice, first holding a password. *)
Definition shadowed_secret : string :=
  "{" +:+ q +:+ "a" +:+ q +:+ ":{" +:+ q +:+ "password" +:+ q +:+ ":" +:+ q +:+ "hunter2" +:+ q +:+ "}," +:+
  q +:+ "a" +:+ q +:+ ":1}".
Definition shadowed_job : Job :=
  mkJob "i" "j1" "snapshot" "a1" "queued" "alice" "" "" shadowed_secret "" "" "" 1 0 None None 0.

(** a member that occurs twice hides a secret: the check looks at
    the decoded value, in which the second occurrence replaced the first,
    while the repository stores and returns the bytes with the password. *)
Theorem duplicate_member_hides_secret :
  ValidateSafeJSON shadowed_secret = Ok tt ∧
  (CreateJob NewMemoryRepository shadowed_job).2 = Ok tt ∧
  GetJob (CreateJob NewMemoryRepository shadowed_job).1 "i" "j1" = Ok shadowed_job ∧
  contains "hunter2" (j_Parameters shadowed_job) = true.
Proof. by vm_compute. Qed.
