(* ===== verification/Postgres.v ===== *)
(** * PostgreSQL: the schema and the repository on it

    Models the tables of [migrations/*.up.sql] with their types, checks, keys
    and foreign keys, and on them [services/persistence/postgres.go],
    [controlplane.go] and [cloudflare_execution.go].  A statement is one atomic
    step on the database, and so is a serializable transaction; before each of
    them the connection may fail, and it may fail after the server has done its
    work, so that the caller sees an error for a change that was made.

    The collation of the server, its [jsonb] type and the encodings of
    [encoding/json] are parameters. *)

From S2P Require Import Prelude GoStrings Encoding Json Persistence.

(** ** Errors *)

(** No row, an error code of the server, anything else. *)
Inductive pg_error := ErrNoRows | SqlState (code : string) | PgOther.

Definition unique_violation := SqlState "23505".
Definition foreign_key_violation := SqlState "23503".
Definition check_violation := SqlState "23514".

Definition mapPostgresError (e : pg_error) : error :=
  match e with
  | ErrNoRows => ErrNotFound
  | SqlState code =>
    if (code =? "23505") || (code =? "40001") || (code =? "40P01") then ErrConflict else Invalid "PostgreSQL operation failed"
  | PgOther => Invalid "PostgreSQL operation failed"
  end.

(** ** Column types *)

Definition text_value (s : string) : bool := utf8_valid s && negb (contains_char nul s).
Definition text_option (s : option string) : bool := match s with Some s => text_value s | None => true end.
Definition bigint (v : Z) : bool := (- 2 ^ 63 <=? v)%Z && (v <? 2 ^ 63)%Z.
Definition integer (v : Z) : bool := (- 2 ^ 31 <=? v)%Z && (v <? 2 ^ 31)%Z.
(** [timestamptz] counts microseconds; the driver cuts the nanoseconds off. *)
Definition timestamptz (t : time) : time := t / 1000 * 1000.
Definition char_length (s : string) : Z := Z.of_nat (length (runes s)).
Definition length_between (lo hi : Z) (s : string) : bool := (lo <=? char_length s)%Z && (char_length s <=? hi)%Z.

(** [jsonb]: whether a text is accepted, and the text it is read back as. *)
Class Jsonb := jsonb : string → option string.
(** The encoding of a Go type by [encoding/json]. *)
Class Codec (A : Type) := { marshal : A → option string; unmarshal : string → option A }.

(** [jsonb_typeof(x) = 'object']. *)
Definition json_object (text : string) : bool := match parse text with Some (JObject _) => true | _ => false end.

(** ** Rows *)

Record asset_row := mkAssetRow {
  ar_name : string;
  ar_address : string;
  ar_port : Z;
  ar_username : string;
  ar_labels : string;
  ar_host_key : option string;
  ar_version : Z;
  ar_created_at : time;
  ar_updated_at : time;
}.

Record envelope_row := mkEnvelopeRow {
  er_kind : string;
  er_key_id : string;
  er_ciphertext : string;
  er_cipher_nonce : string;
  er_wrapped_key : string;
  er_wrapped_key_nonce : string;
  er_metadata : string;
  er_created_at : time;
}.

Record binding_row := mkBindingRow { br_credential_id : string; br_credential_version : Z; br_updated_at : time }.

Record job_row := mkJobRow {
  jr_type : string;
  jr_asset_id : string;
  jr_state : string;
  jr_requested_by : string;
  jr_request_id : option string;
  jr_idempotency_key : option string;
  jr_parameters : string;
  jr_result : string;
  jr_error_code : option string;
  jr_error_message : option string;
  jr_version : Z;
  jr_created_at : time;
  jr_started_at : option time;
  jr_finished_at : option time;
  jr_updated_at : time;
}.

Record audit_row := mkAuditRow {
  ur_installation_id : string;
  ur_event_id : string;
  ur_occurred_at : time;
  ur_actor : string;
  ur_role : string;
  ur_action : string;
  ur_target_type : string;
  ur_target_id : option string;
  ur_outcome : string;
  ur_request_id : option string;
  ur_job_id : option string;
  ur_details : string;
}.

Record worker_row := mkWorkerRow {
  wr_name : string;
  wr_account_id : string;
  wr_script_name : string;
  wr_desired_version_id : option string;
  wr_version : Z;
  wr_created_at : time;
  wr_updated_at : time;
}.

Record version_row := mkVersionRow {
  vr_worker_id : string;
  vr_sha256 : string;
  vr_size_bytes : Z;
  vr_content_type : string;
  vr_entrypoint : string;
  vr_state : string;
  vr_module : string;
  vr_provider_version_id : option string;
  vr_provider_version_number : option Z;
  vr_provider_uploaded_at : option time;
  vr_created_at : time;
  vr_created_by : string;
}.

Record deployment_row := mkDeploymentRow {
  dr_worker_id : string;
  dr_version_id : string;
  dr_previous_desired_version_id : option string;
  dr_kind : string;
  dr_state : string;
  dr_provider_execution_allowed : bool;
  dr_provider_version_id : option string;
  dr_provider_deployment_id : option string;
  dr_provider_state : option string;
  dr_error_code : option string;
  dr_started_at : option time;
  dr_finished_at : option time;
  dr_created_at : time;
  dr_created_by : string;
}.

(** Primary keys are the keys of the maps; audit events are in the order of
    their sequence numbers. *)
Record database := mkDatabase {
  db_assets : gmap (string * string) asset_row;
  db_envelopes : gmap (string * string * Z) envelope_row;
  db_bindings : gmap (string * string * string) binding_row;
  db_jobs : gmap (string * string) job_row;
  db_audit : list audit_row;
  db_workers : gmap (string * string) worker_row;
  db_versions : gmap (string * string) version_row;
  db_deployments : gmap (string * string) deployment_row;
}.

Definition empty_database : database := mkDatabase ∅ ∅ ∅ ∅ [] ∅ ∅ ∅.

Definition set_db_assets d x := mkDatabase x (db_envelopes d) (db_bindings d) (db_jobs d) (db_audit d) (db_workers d) (db_versions d) (db_deployments d).
Definition set_db_envelopes d x := mkDatabase (db_assets d) x (db_bindings d) (db_jobs d) (db_audit d) (db_workers d) (db_versions d) (db_deployments d).
Definition set_db_bindings d x := mkDatabase (db_assets d) (db_envelopes d) x (db_jobs d) (db_audit d) (db_workers d) (db_versions d) (db_deployments d).
Definition set_db_jobs d x := mkDatabase (db_assets d) (db_envelopes d) (db_bindings d) x (db_audit d) (db_workers d) (db_versions d) (db_deployments d).
Definition set_db_audit d x := mkDatabase (db_assets d) (db_envelopes d) (db_bindings d) (db_jobs d) x (db_workers d) (db_versions d) (db_deployments d).
Definition set_db_workers d x := mkDatabase (db_assets d) (db_envelopes d) (db_bindings d) (db_jobs d) (db_audit d) x (db_versions d) (db_deployments d).
Definition set_db_versions d x := mkDatabase (db_assets d) (db_envelopes d) (db_bindings d) (db_jobs d) (db_audit d) (db_workers d) x (db_deployments d).
Definition set_db_deployments d x := mkDatabase (db_assets d) (db_envelopes d) (db_bindings d) (db_jobs d) (db_audit d) (db_workers d) (db_versions d) x.

(** ** Checks *)

Definition asset_check (r : asset_row) : bool :=
  length_between 1 200 (ar_name r) && length_between 1 255 (ar_address r) && (1 <=? ar_port r)%Z && (ar_port r <=? 65535)%Z &&
  length_between 1 128 (ar_username r) && json_object (ar_labels r) && (0 <=? ar_version r)%Z && (ar_created_at r <=? ar_updated_at r)%Z.

Definition envelope_check (version : Z) (r : envelope_row) : bool :=
  (0 <? version)%Z && length_between 1 128 (er_kind r) && length_between 1 512 (er_key_id r) && (0 <? slen (er_ciphertext r))%Z &&
  (0 <? slen (er_wrapped_key r))%Z && json_object (er_metadata r).

Definition binding_check (scope_type : string) (r : binding_row) : bool :=
  ((scope_type =? "host") || (scope_type =? "cloudflare_worker")) && (0 <? br_credential_version r)%Z.

Definition time_le (a : time) (b : option time) : bool := match b with Some b => (a <=? b)%Z | None => true end.
Definition present {A} (o : option A) : bool := match o with Some _ => true | None => false end.

Definition job_check (r : job_row) : bool :=
  length_between 1 128 (jr_type r) && validJobState (jr_state r) && length_between 1 256 (jr_requested_by r) &&
  match jr_error_message r with Some m => (char_length m <=? 4096)%Z | None => true end && (0 <=? jr_version r)%Z &&
  json_object (jr_parameters r) && json_object (jr_result r) && (jr_created_at r <=? jr_updated_at r)%Z &&
  time_le (jr_created_at r) (jr_started_at r) && (negb (present (jr_finished_at r)) || present (jr_started_at r)).

Definition audit_check (r : audit_row) : bool := length_between 1 256 (ur_actor r) && json_object (ur_details r).

Definition hex_text (n : Z) (s : string) : bool := (slen s =? n)%Z && all_chars (λ b, in_range 48 57 b || in_range 97 102 b) s.
(** [^[a-z0-9](?:[a-z0-9-]{0,61}[a-z0-9])?$] *)
Definition script_text (s : string) : bool :=
  (1 <=? slen s)%Z && (slen s <=? 63)%Z && all_chars (λ b, is_lower_rune b || is_digit_rune b || (b =? 45)%Z) s &&
  match String.get 0 s, String.get (String.length s - 1) s with
  | Some a, Some z => negb (Ascii.eqb a "-") && negb (Ascii.eqb z "-")
  | _, _ => false
  end.

Definition worker_check (r : worker_row) : bool :=
  length_between 1 100 (wr_name r) && hex_text 32 (wr_account_id r) && script_text (wr_script_name r) && (0 <? wr_version r)%Z &&
  (wr_created_at r <=? wr_updated_at r)%Z.

Definition version_check (r : version_row) : bool :=
  has_prefix "sha256:" (vr_sha256 r) && hex_text 64 (drop_str 7 (vr_sha256 r)) && (1 <=? vr_size_bytes r)%Z && (vr_size_bytes r <=? 262144)%Z &&
  (vr_content_type r =? "application/javascript") && (vr_entrypoint r =? "index.js") && (vr_state r =? "staged") &&
  (slen (vr_module r) =? vr_size_bytes r)%Z && length_between 1 256 (vr_created_by r) &&
  match vr_provider_version_id r, vr_provider_version_number r, vr_provider_uploaded_at r with
  | None, None, None => true
  | Some id, Some n, Some _ => length_between 1 128 id && (0 <=? n)%Z
  | Some id, None, Some _ => length_between 1 128 id     (* a comparison with NULL does not refuse the row *)
  | _, _, _ => false
  end.

(** [^[a-z0-9_]{1,128}$] *)
Definition error_code_text (s : string) : bool :=
  (1 <=? slen s)%Z && (slen s <=? 128)%Z && all_chars (λ b, is_lower_rune b || is_digit_rune b || (b =? 95)%Z) s.
Definition optional (p : string → bool) (o : option string) : bool := match o with Some s => p s | None => true end.

Definition deployment_check (r : deployment_row) : bool :=
  ((dr_kind r =? "deploy") || (dr_kind r =? "rollback")) && length_between 1 256 (dr_created_by r) &&
  (if dr_state r =? "ready_for_provider" then
     negb (dr_provider_execution_allowed r) && negb (present (dr_started_at r)) && negb (present (dr_finished_at r)) && negb (present (dr_error_code r))
   else if dr_state r =? "running" then
     dr_provider_execution_allowed r && present (dr_started_at r) && negb (present (dr_finished_at r)) && negb (present (dr_error_code r))
   else if dr_state r =? "succeeded" then
     dr_provider_execution_allowed r && present (dr_started_at r) && present (dr_finished_at r) && present (dr_provider_version_id r) &&
     present (dr_provider_deployment_id r) && optional (String.eqb "active") (dr_provider_state r) && negb (present (dr_error_code r))
   else if dr_state r =? "failed" then
     dr_provider_execution_allowed r && present (dr_started_at r) && present (dr_finished_at r) && present (dr_error_code r)
   else false) &&
  optional (length_between 1 128) (dr_provider_version_id r) && optional (length_between 1 128) (dr_provider_deployment_id r) &&
  optional (λ s, (s =? "pending") || (s =? "active")) (dr_provider_state r) && optional error_code_text (dr_error_code r) &&
  time_le (dr_created_at r) (dr_started_at r) &&
  match dr_finished_at r with
  | None => true
  | Some finished => match dr_started_at r with Some started => (started <=? finished)%Z | None => false end
  end.

(** ** Statements *)

(** [INSERT] of one row: the values have the types of their columns, the
    checks, the primary key and other unique keys, the foreign keys. *)
Definition insert_row {K A} `{Countable K} (typed checked unique referenced : bool) (k : K) (a : A) (t : gmap K A) : result pg_error (gmap K A) :=
  require typed else PgOther ;;
  require checked else check_violation ;;
  require unique && negb (present (t !! k)) else unique_violation ;;
  require referenced else foreign_key_violation ;;
  Ok (<[k := a]> t).

(** [UPDATE] of the row with a primary key, if it meets a condition: the table
    and the number of rows. *)
Definition update_row {K A} `{Countable K} (typed : bool) (k : K) (cond : A → bool) (f : A → A) (check : A → bool) (t : gmap K A)
    : result pg_error (gmap K A * Z) :=
  require typed else PgOther ;;
  match t !! k with
  | None => Ok (t, 0)
  | Some a =>
    if cond a then require check (f a) else check_violation ;; Ok (<[k := f a]> t, 1) else Ok (t, 0)
  end.

(** What may happen to a statement: nothing, a failure before the server has
    executed it, or after; with an error code of the server, or none. *)
Inductive fault := Fine | Refused (code : option string) | Unacknowledged (code : option string).
Definition fault_error (code : option string) : pg_error := match code with Some c => SqlState c | None => PgOther end.

(** The server and the faults to come; no more faults when the list is used up. *)
Record server := mkServer { db : database; faults : list fault }.
Definition M (A : Type) : Type := server → server * A.
#[global] Instance M_ret : MRet M := λ A a s, (s, a).
#[global] Instance M_bind : MBind M := λ A B k m s, let '(s, a) := m s in k a s.

Definition next_fault (s : server) : fault * server :=
  match faults s with [] => (Fine, s) | f :: l => (f, mkServer (db s) l) end.

Definition stmt {A} (op : database → result pg_error (database * A)) : M (result pg_error A) := λ s,
  let '(f, s) := next_fault s in
  match f with
  | Refused code => (s, Err (fault_error code))
  | Unacknowledged code => (match op (db s) with Ok (d, _) => mkServer d (faults s) | Err _ => s end, Err (fault_error code))
  | Fine => match op (db s) with Ok (d, a) => (mkServer d (faults s), Ok a) | Err e => (s, Err e) end
  end.

(** Reading statements. *)
Definition query {A} (f : database → result pg_error A) : M (result pg_error A) := stmt (λ d, a ← f d; Ok (d, a)).

(** Whether strings can be parameters of a statement. *)
Definition texts (l : list string) : bool := forallb text_value l.
Definition query_with {A} (parameters : list string) (f : database → result pg_error A) : M (result pg_error A) :=
  query (λ d, require texts parameters else PgOther ;; f d).

(** A statement whose error ends the function. *)
Definition or_fail {E A B} (f : pg_error → E) (m : M (result pg_error A)) (k : A → M (result E B)) : M (result E B) :=
  r ← m; match r with Ok a => k a | Err e => mret (Err (f e)) end.
Notation "'run' a ← m 'else' f ; k" := (or_fail f m (λ a, k)) (at level 100, a binder, m at level 99, f at level 99, k at level 200, right associativity).
(** A check that ends the function. *)
Definition checked {E B} (v : result E unit) (k : M (result E B)) : M (result E B) :=
  match v with Ok _ => k | Err e => mret (Err e) end.

(** [BeginTx] with [pgx.Serializable], the deferred [Rollback], [Commit]. *)
Definition in_transaction {E A} (begin_error : E) (lift : error → E) (body : M (result E A)) : M (result E A) := λ s,
  let '(began, s) := next_fault s in
  match began with
  | Refused _ | Unacknowledged _ => (s, Err begin_error)
  | Fine =>
    let '(s', r) := body s in
    match r with
    | Err e => (mkServer (db s) (faults s'), Err e)
    | Ok a =>
      let '(committed, s') := next_fault s' in
      match committed with
      | Fine => (s', Ok a)
      | Refused code => (mkServer (db s) (faults s'), Err (lift (mapPostgresError (fault_error code))))
      | Unacknowledged code => (s', Err (lift (mapPostgresError (fault_error code))))
      end
    end
  end.

Definition failed {E} (e : E) (_ : pg_error) : E := e.

(** [mapPostgresError] and [mapCASResult] at the end of a function. *)
Definition exec_result (m : M (result pg_error unit)) : M (result error unit) :=
  run _ ← m else mapPostgresError; mret (Ok tt).
Definition mapCASResult (m : M (result pg_error Z)) : M (result error unit) :=
  run rows ← m else mapPostgresError; mret (if (rows =? 0)%Z then Err ErrConflict else Ok tt).

(** ** Values as parameters of statements *)

Definition nullString (value : string) : option string := if value =? "" then None else Some value.
Definition orEmpty (value : option string) : string := default "" value.
Definition normalizedJSON (raw : string) : string := if (slen raw =? 0)%Z then "{}" else raw.
(** A nil slice and an empty one are the same byte string. *)
Definition nonNilBytes (value : string) : string := value.

(** [ORDER BY]: a list sorted by [le], cut at the limit. *)
Definition ordered {A} (le : relation A) `{!RelDecision le} (limit : Z) (l : list A) : list A := take (Z.to_nat limit) (merge_sort le l).
Definition rows_of {A} (installation : string) (p : string → A → bool) (t : gmap (string * string) A) : list (string * A) :=
  omap (λ kv, if (kv.1.1 =? installation) && p kv.1.2 kv.2 then Some (kv.1.2, kv.2) else None) (map_to_list t).

(** The order of [text] values under the collation of the database. *)
Class Collation := {
  text_le : relation string;
  text_le_dec :: RelDecision text_le;
  text_le_trans :: Transitive text_le;
  text_le_total :: Total text_le;
  text_le_antisym :: AntiSymm (=) text_le;
}.
Definition text_lt `{Collation} (a b : string) : bool := bool_decide (text_le a b) && negb (a =? b).

Definition MaxControlPlaneCollectionLen : Z := 10000.

(** ** Assets *)

Section repository.
Context `{Jsonb} `{Codec (gmap string string)} `{Codec HostKeyPin} `{Collation}.

(** [json.Marshal] and [json.Unmarshal] of a label map; null is the nil map. *)
Definition labels_json (labels : option (gmap string string)) : string :=
  match labels with None => "null" | Some m => default "" (marshal m) end.
Definition labels_of (text : string) : option (option (gmap string string)) :=
  if text =? "null" then Some None else Some <$> unmarshal text.

Definition nullableHostKey (pin : option HostKeyPin) : option string := default "" ∘ marshal <$> pin.

Definition jsonb_option (o : option string) : option (option string) :=
  match o with None => Some None | Some s => Some <$> jsonb s end.

(** The columns of an asset, if [jsonb] accepts its documents. *)
Definition asset_columns (a : Asset) : option asset_row :=
  labels ← jsonb (labels_json (a_Labels a));
  host_key ← jsonb_option (nullableHostKey (a_HostKey a));
  Some (mkAssetRow (a_Name a) (a_Address a) (a_Port a) (a_Username a) labels host_key (a_Version a)
    (timestamptz (a_CreatedAt a)) (timestamptz (a_UpdatedAt a))).

Definition asset_typed (installation id : string) (r : asset_row) : bool :=
  texts [installation; id; ar_name r; ar_address r; ar_username r] && integer (ar_port r) && bigint (ar_version r).

Definition CreateAsset (asset : Asset) : M (result error unit) :=
  checked (validateAsset asset) (exec_result (stmt (λ d,
    row ← of_option (asset_columns asset) PgOther;
    t ← insert_row (asset_typed (a_InstallationID asset) (a_ID asset) row) (asset_check row) true true
          (a_InstallationID asset, a_ID asset) row (db_assets d);
    Ok (set_db_assets d t, tt)))).

Definition decodeAssetJSON (labels : string) (hostKey : option string)
    : result error (option (gmap string string) * option HostKeyPin) :=
  l ← of_option (labels_of labels) (Invalid "decode PostgreSQL asset labels");
  match hostKey with
  | None => Ok (l, None)
  | Some text =>
    if (slen text =? 0)%Z || (text =? "null") then Ok (l, None)
    else pin ← of_option (unmarshal text) (Invalid "decode PostgreSQL host key"); Ok (l, Some pin)
  end.

Definition scan_asset (installation id : string) (r : asset_row) : result error Asset :=
  '(labels, hostKey) ← decodeAssetJSON (ar_labels r) (ar_host_key r);
  Ok (mkAsset installation id (ar_name r) (ar_address r) (ar_port r) (ar_username r) labels hostKey (ar_version r)
    (ar_created_at r) (ar_updated_at r)).

Definition GetAsset (installationID id : string) : M (result error Asset) :=
  checked (validateIdentifier "installation id" installationID)
  (checked (validateIdentifier "asset id" id)
  (run row ← query_with [installationID; id] (λ d, of_option (db_assets d !! (installationID, id)) ErrNoRows) else mapPostgresError;
   mret (scan_asset installationID id row))).

(** The rows of a query, decoded one after the other. *)
Fixpoint scan_all {A B} (scan : A → result error B) (l : list A) : result error (list B) :=
  match l with [] => Ok [] | x :: l => y ← scan x; ys ← scan_all scan l; Ok (y :: ys) end.

(** [Query], the loop over [Next], [Err]. *)
Definition query_all {A B} (parameters : list string) (f : database → list A) (scan : A → result error B) (listing iterating : string) : M (result error (list B)) :=
  run rows ← query_with parameters (λ d, Ok (f d)) else failed (Invalid listing);
  match scan_all scan rows with
  | Err e => mret (Err e)
  | Ok items => run _ ← query (λ d, Ok tt) else failed (Invalid iterating); mret (Ok items)
  end.

Definition by_row_id {A} (x y : string * A) : Prop := text_le x.1 y.1.
#[global] Instance by_row_id_dec {A} : RelDecision (by_row_id (A := A)).
Proof. intros x y. unfold by_row_id. apply _. Defined.
(** [ORDER BY created_at,id] and [ORDER BY created_at DESC,id DESC]. *)
Definition by_created {A} (created : A → time) (x y : string * A) : Prop :=
  created x.2 < created y.2 ∨ created x.2 = created y.2 ∧ text_le x.1 y.1.
#[global] Instance by_created_dec {A} (created : A → time) : RelDecision (by_created created).
Proof. intros x y. unfold by_created. apply _. Defined.
Definition by_created_desc {A} (created : A → time) (x y : string * A) : Prop := by_created created y x.
#[global] Instance by_created_desc_dec {A} (created : A → time) : RelDecision (by_created_desc created).
Proof. intros x y. unfold by_created_desc. apply _. Defined.

Definition ListAssets (installationID : string) (limit : Z) (afterID : string) : M (result error (list Asset)) :=
  checked (validateIdentifier "installation id" installationID)
  (query_all [installationID; afterID] (λ d, ordered by_row_id (normalizeLimit limit) (rows_of installationID (λ id _, text_lt afterID id) (db_assets d)))
     (λ r, scan_asset installationID r.1 r.2) "list PostgreSQL assets" "iterate PostgreSQL assets").

Definition ListAllAssets (installationID : string) : M (result error (list Asset)) :=
  checked (validateIdentifier "installation id" installationID)
  (query_all [installationID] (λ d, ordered (by_created ar_created_at) MaxControlPlaneCollectionLen (rows_of installationID (λ _ _, true) (db_assets d)))
     (λ r, scan_asset installationID r.1 r.2) "list PostgreSQL assets" "iterate PostgreSQL assets").

Definition UpdateAsset (asset : Asset) (expectedVersion : Z) : M (result error unit) :=
  checked (validateAsset asset)
  (if negb (a_Version asset =? u64 (expectedVersion + 1))%Z then mret (Err ErrConflict)
   else mapCASResult (stmt (λ d,
     row ← of_option (asset_columns asset) PgOther;
     '(t, n) ← update_row (asset_typed (a_InstallationID asset) (a_ID asset) row && bigint expectedVersion)
       (a_InstallationID asset, a_ID asset) (λ old, (ar_version old =? expectedVersion)%Z)
       (λ old, mkAssetRow (ar_name row) (ar_address row) (ar_port row) (ar_username row) (ar_labels row) (ar_host_key row)
                 (ar_version row) (ar_created_at old) (ar_updated_at row))
       asset_check (db_assets d);
     Ok (set_db_assets d t, n)))).

(** Jobs refer to their asset and restrict its deletion. *)
Definition DeleteAsset (installationID id : string) (expectedVersion : Z) : M (result error unit) :=
  mapCASResult (stmt (λ d,
    require texts [installationID; id] && bigint expectedVersion else PgOther ;;
    match db_assets d !! (installationID, id) with
    | None => Ok (d, 0)
    | Some row =>
      if negb (ar_version row =? expectedVersion)%Z then Ok (d, 0)
      else
        require negb (existsb (λ kv, (kv.1.1 =? installationID) && (jr_asset_id kv.2 =? id)) (map_to_list (db_jobs d)))
          else foreign_key_violation ;;
        Ok (set_db_assets d (delete (installationID, id) (db_assets d)), 1)
    end)).

(** ** Credential envelopes and the current secret of a scope *)

Definition envelope_columns (e : CredentialEnvelope) : option envelope_row :=
  metadata ← jsonb (normalizedJSON (c_Metadata e));
  Some (mkEnvelopeRow (c_Kind e) (c_KeyID e) (c_Ciphertext e) (nonNilBytes (c_CipherNonce e)) (c_WrappedKey e)
    (nonNilBytes (c_WrappedKeyNonce e)) metadata (timestamptz (c_CreatedAt e))).

Definition insert_envelope (e : CredentialEnvelope) (d : database) : result pg_error (database * unit) :=
  row ← of_option (envelope_columns e) PgOther;
  t ← insert_row (texts [c_InstallationID e; c_CredentialID e; c_Kind e; c_KeyID e] && bigint (c_Version e))
        (envelope_check (c_Version e) row) true true (c_InstallationID e, c_CredentialID e, c_Version e) row (db_envelopes d);
  Ok (set_db_envelopes d t, tt).

Definition PutCredentialEnvelope (envelope : CredentialEnvelope) : M (result error unit) :=
  checked (validateCredential envelope) (exec_result (stmt (insert_envelope envelope))).

Definition scan_envelope (installation credential : string) (version : Z) (r : envelope_row) : CredentialEnvelope :=
  mkCredential installation credential version (er_kind r) (er_key_id r) (er_ciphertext r) (er_cipher_nonce r) (er_wrapped_key r)
    (er_wrapped_key_nonce r) (er_metadata r) (er_created_at r).

Definition GetCredentialEnvelope (installationID credentialID : string) (version : Z) : M (result error CredentialEnvelope) :=
  run row ← query_with [installationID; credentialID] (λ d,
      require bigint version else PgOther ;;
      of_option (db_envelopes d !! (installationID, credentialID, version)) ErrNoRows) else mapPostgresError;
  mret (Ok (scan_envelope installationID credentialID version row)).

Record SecretBinding := mkSecretBinding {
  sb_InstallationID : string;
  sb_ScopeType : string;
  sb_ScopeID : string;
  sb_CredentialID : string;
  sb_Version : Z;
  sb_Envelope : CredentialEnvelope;
}.

Definition SecretScopeHost : string := "host".
Definition SecretScopeCloudflareWorker : string := "cloudflare_worker".

Definition validateSecretBinding (b : SecretBinding) : result error unit :=
  validateIdentifier "installation id" (sb_InstallationID b) ;;
  validateIdentifier "secret scope id" (sb_ScopeID b) ;;
  require (sb_ScopeType b =? SecretScopeHost) || (sb_ScopeType b =? SecretScopeCloudflareWorker) else Invalid "secret scope is invalid" ;;
  require (sb_CredentialID b =? c_CredentialID (sb_Envelope b)) && (sb_Version b =? c_Version (sb_Envelope b))%Z &&
          (sb_InstallationID b =? c_InstallationID (sb_Envelope b)) else Invalid "secret binding does not match envelope" ;;
  validateCredential (sb_Envelope b).

(** [SELECT EXISTS] on the table of the scope. *)
Definition scope_exists (b : SecretBinding) (d : database) : bool :=
  if sb_ScopeType b =? SecretScopeCloudflareWorker then present (db_workers d !! (sb_InstallationID b, sb_ScopeID b))
  else present (db_assets d !! (sb_InstallationID b, sb_ScopeID b)).
Definition verifySecretScope {B} (b : SecretBinding) (k : M (result error B)) : M (result error B) :=
  run found ← query_with [sb_InstallationID b; sb_ScopeID b] (λ d, Ok (scope_exists b d)) else failed (Invalid "verify PostgreSQL secret scope");
  if negb found then mret (Err ErrNotFound) else k.

(** [INSERT ... ON CONFLICT DO UPDATE]. *)
Definition upsert_binding (b : SecretBinding) (d : database) : result pg_error (database * unit) :=
  let row := mkBindingRow (sb_CredentialID b) (sb_Version b) (timestamptz (c_CreatedAt (sb_Envelope b))) in
  require texts [sb_InstallationID b; sb_ScopeType b; sb_ScopeID b; sb_CredentialID b] && bigint (sb_Version b) else PgOther ;;
  require binding_check (sb_ScopeType b) row else check_violation ;;
  require present (db_envelopes d !! (sb_InstallationID b, sb_CredentialID b, sb_Version b)) else foreign_key_violation ;;
  Ok (set_db_bindings d (<[(sb_InstallationID b, sb_ScopeType b, sb_ScopeID b) := row]> (db_bindings d)), tt).

Definition PutCurrentSecret (binding : SecretBinding) : M (result error unit) :=
  checked (validateSecretBinding binding)
  (in_transaction (Invalid "begin PostgreSQL secret rotation") id
    (verifySecretScope binding
    (run _ ← stmt (insert_envelope (sb_Envelope binding)) else mapPostgresError;
     run _ ← stmt (upsert_binding binding) else mapPostgresError;
     mret (Ok tt)))).

Definition GetCurrentSecret (installationID scopeType scopeID : string) : M (result error SecretBinding) :=
  run found ← query_with [installationID; scopeType; scopeID] (λ d,
      b ← of_option (db_bindings d !! (installationID, scopeType, scopeID)) ErrNoRows;
      e ← of_option (db_envelopes d !! (installationID, br_credential_id b, br_credential_version b)) ErrNoRows;
      Ok (b, e)) else mapPostgresError;
  let '(b, e) := found in
  mret (Ok (mkSecretBinding installationID scopeType scopeID (br_credential_id b) (br_credential_version b)
    (scan_envelope installationID (br_credential_id b) (br_credential_version b) e))).

Definition DeleteCurrentSecret (installationID scopeType scopeID : string) : M (result error unit) :=
  run rows ← stmt (λ d,
      require texts [installationID; scopeType; scopeID] else PgOther ;;
      let k := (installationID, scopeType, scopeID) in
      if present (db_bindings d !! k) then Ok (set_db_bindings d (delete k (db_bindings d)), 1) else Ok (d, 0)) else mapPostgresError;
  mret (if (rows =? 0)%Z then Err ErrNotFound else Ok tt).

(** ** Jobs *)

Definition job_columns (j : Job) : option job_row :=
  parameters ← jsonb (normalizedJSON (j_Parameters j));
  result ← jsonb (normalizedJSON (j_Result j));
  Some (mkJobRow (j_Type j) (j_AssetID j) (j_State j) (j_RequestedBy j) (nullString (j_RequestID j)) (nullString (j_IdempotencyKey j))
    parameters result (nullString (j_ErrorCode j)) (nullString (j_ErrorMessage j)) (j_Version j) (timestamptz (j_CreatedAt j))
    (timestamptz <$> j_StartedAt j) (timestamptz <$> j_FinishedAt j) (timestamptz (j_UpdatedAt j))).

Definition job_typed (installation id : string) (r : job_row) : bool :=
  texts [installation; id; jr_type r; jr_asset_id r; jr_state r; jr_requested_by r] && text_option (jr_request_id r) &&
  text_option (jr_idempotency_key r) && text_option (jr_error_code r) && text_option (jr_error_message r) && bigint (jr_version r).

(** [UNIQUE (installation_id, idempotency_key)]; NULL is distinct from NULL. *)
Definition idempotency_free (installation : string) (key : option string) (t : gmap (string * string) job_row) : bool :=
  match key with
  | None => true
  | Some k => negb (existsb (λ kv, (kv.1.1 =? installation) && bool_decide (jr_idempotency_key kv.2 = Some k)) (map_to_list t))
  end.

Definition CreateJob (job : Job) : M (result error unit) :=
  checked (validateJob job) (exec_result (stmt (λ d,
    row ← of_option (job_columns job) PgOther;
    t ← insert_row (job_typed (j_InstallationID job) (j_ID job) row) (job_check row)
          (idempotency_free (j_InstallationID job) (jr_idempotency_key row) (db_jobs d))
          (present (db_assets d !! (j_InstallationID job, j_AssetID job))) (j_InstallationID job, j_ID job) row (db_jobs d);
    Ok (set_db_jobs d t, tt)))).

(** The scan with [assignOptionalStrings]. *)
Definition scan_job (installation id : string) (r : job_row) : Job :=
  mkJob installation id (jr_type r) (jr_asset_id r) (jr_state r) (jr_requested_by r) (orEmpty (jr_request_id r))
    (orEmpty (jr_idempotency_key r)) (jr_parameters r) (jr_result r) (orEmpty (jr_error_code r)) (orEmpty (jr_error_message r))
    (jr_version r) (jr_created_at r) (jr_started_at r) (jr_finished_at r) (jr_updated_at r).

Definition GetJob (installationID id : string) : M (result error Job) :=
  run row ← query_with [installationID; id] (λ d, of_option (db_jobs d !! (installationID, id)) ErrNoRows) else mapPostgresError;
  mret (Ok (scan_job installationID id row)).

Definition ListJobs (installationID : string) (limit : Z) (afterID : string) : M (result error (list Job)) :=
  checked (validateIdentifier "installation id" installationID)
  (query_all [installationID; afterID]
     (λ d, ordered by_row_id (normalizeLimit limit) (rows_of installationID (λ id _, text_lt afterID id) (db_jobs d)))
     (λ r, Ok (scan_job installationID r.1 r.2)) "list PostgreSQL jobs" "iterate PostgreSQL jobs").

Definition ListAllJobs (installationID : string) : M (result error (list Job)) :=
  query_all [installationID]
    (λ d, ordered (by_created_desc jr_created_at) MaxControlPlaneCollectionLen (rows_of installationID (λ _ _, true) (db_jobs d)))
    (λ r, Ok (scan_job installationID r.1 r.2)) "list PostgreSQL jobs" "rows".

(** [UPDATE jobs SET state,result,error_code,error_message,version,started_at,
    finished_at,updated_at]; the other columns keep their values. *)
Definition update_job (job : Job) (expectedVersion : Z) (d : database) : result pg_error (database * Z) :=
  document ← of_option (jsonb (normalizedJSON (j_Result job))) PgOther;
  let code := nullString (j_ErrorCode job) in
  let message := nullString (j_ErrorMessage job) in
  '(t, n) ← update_row
    (texts [j_InstallationID job; j_ID job; j_State job] && text_option code && text_option message && bigint (j_Version job) &&
     bigint expectedVersion)
    (j_InstallationID job, j_ID job) (λ old, (jr_version old =? expectedVersion)%Z)
    (λ old, mkJobRow (jr_type old) (jr_asset_id old) (j_State job) (jr_requested_by old) (jr_request_id old) (jr_idempotency_key old)
       (jr_parameters old) document code message (j_Version job) (jr_created_at old)
       (timestamptz <$> j_StartedAt job) (timestamptz <$> j_FinishedAt job) (timestamptz (j_UpdatedAt job)))
    job_check (db_jobs d);
  Ok (set_db_jobs d t, n).

Definition UpdateJob (job : Job) (expectedVersion : Z) : M (result error unit) :=
  checked (validateJob job)
  (if negb (j_Version job =? u64 (expectedVersion + 1))%Z then mret (Err ErrConflict)
   else mapCASResult (stmt (update_job job expectedVersion))).

(** [SELECT ... FOR UPDATE]. *)
Definition getJobForUpdate (installationID id : string) : M (result pg_error Job) :=
  query_with [installationID; id] (λ d, row ← of_option (db_jobs d !! (installationID, id)) ErrNoRows; Ok (scan_job installationID id row)).

(** [inl] is an error of this package, [inr] one of the callback. *)
Definition MutateJob {E} (installationID id : string) (mutate : Job → result E Job) : M (result (error + E) Job) :=
  in_transaction (inl (Invalid "begin PostgreSQL job mutation")) inl
  (run current ← getJobForUpdate installationID id else (λ e, inl (mapPostgresError e));
   match mutate current with
   | Err e => mret (Err (inr e))
   | Ok updated =>
     if (j_InstallationID updated ≠? j_InstallationID current) || (j_ID updated ≠? j_ID current) ||
        negb (j_Version updated =? u64 (j_Version current + 1))%Z then mret (Err (inl ErrConflict))
     else match validateJob updated with
     | Err e => mret (Err (inl e))
     | Ok _ =>
       run rows ← stmt (update_job updated (j_Version current)) else (λ e, inl (mapPostgresError e));
       mret (if (rows =? 0)%Z then Err (inl ErrConflict) else Ok updated)
     end
   end).

(** ** Audit events *)

Definition audit_columns (e : AuditEvent) : option audit_row :=
  details ← jsonb (normalizedJSON (e_Details e));
  Some (mkAuditRow (e_InstallationID e) (e_ID e) (timestamptz (e_Timestamp e)) (e_Actor e) (e_Role e) (e_Action e) (e_TargetType e)
    (nullString (e_TargetID e)) (e_Outcome e) (nullString (e_RequestID e)) (nullString (e_JobID e)) details).

Definition audit_typed (r : audit_row) : bool :=
  texts [ur_installation_id r; ur_event_id r; ur_actor r; ur_role r; ur_action r; ur_target_type r; ur_outcome r] &&
  text_option (ur_target_id r) && text_option (ur_request_id r) && text_option (ur_job_id r).

Definition AppendAudit (event : AuditEvent) : M (result error unit) :=
  checked (validateAudit event) (exec_result (stmt (λ d,
    row ← of_option (audit_columns event) PgOther;
    require audit_typed row else PgOther ;;
    require audit_check row else check_violation ;;
    require negb (existsb (λ x, (ur_installation_id x =? ur_installation_id row) && (ur_event_id x =? ur_event_id row)) (db_audit d))
      else unique_violation ;;
    Ok (set_db_audit d (db_audit d ++ [row]), tt)))).

Definition scan_audit (r : audit_row) : AuditEvent :=
  mkAudit (ur_installation_id r) (ur_event_id r) (ur_occurred_at r) (ur_actor r) (ur_role r) (ur_action r) (ur_target_type r)
    (orEmpty (ur_target_id r)) (ur_outcome r) (orEmpty (ur_request_id r)) (orEmpty (ur_job_id r)) (ur_details r).

Definition newest (x y : audit_row) : Prop :=
  ur_occurred_at y < ur_occurred_at x ∨ ur_occurred_at x = ur_occurred_at y ∧ text_le (ur_event_id y) (ur_event_id x).
#[global] Instance newest_dec : RelDecision newest.
Proof. intros x y. unfold newest. apply _. Defined.

Definition audit_before (before : time) (beforeID : string) (r : audit_row) : bool :=
  (ur_occurred_at r <? before)%Z || ((ur_occurred_at r =? before)%Z && text_lt (ur_event_id r) beforeID).

Definition ListAudit (now : time) (filter : AuditFilter) : M (result error (list AuditEvent)) :=
  checked (validateIdentifier "installation id" (f_InstallationID filter))
  (let zero := is_zero_time (f_Before filter) in
   let before := if zero then now + second else f_Before filter in
   let beforeID := if zero || (f_BeforeID filter =? "") then "~" else f_BeforeID filter in
   checked (if zero || (f_BeforeID filter =? "") then Ok tt else validateIdentifier "audit cursor id" beforeID)
   (query_all [f_InstallationID filter; beforeID]
      (λ d, ordered newest (normalizeLimit (f_Limit filter))
         (List.filter (λ r, (ur_installation_id r =? f_InstallationID filter) && audit_before (timestamptz before) beforeID r) (db_audit d)))
      (λ r, Ok (scan_audit r)) "list PostgreSQL audit events" "iterate PostgreSQL audit events")).

(** ** Cloudflare workers *)

Record Worker := mkWorker {
  pw_InstallationID : string;
  pw_ID : string;
  pw_Name : string;
  pw_AccountID : string;
  pw_ScriptName : string;
  pw_DesiredVersion : string;
  pw_Version : Z;
  pw_CreatedAt : time;
  pw_UpdatedAt : time;
}.

Record WorkerVersion := mkWorkerVersion {
  pv_InstallationID : string;
  pv_ID : string;
  pv_WorkerID : string;
  pv_SHA256 : string;
  pv_SizeBytes : Z;
  pv_ContentType : string;
  pv_Entrypoint : string;
  pv_State : string;
  pv_Module : string;
  pv_ProviderVersionID : string;
  pv_ProviderVersionNumber : Z;
  pv_ProviderUploadedAt : option time;
  pv_CreatedAt : time;
  pv_CreatedBy : string;
}.

Record WorkerDeployment := mkWorkerDeployment {
  pd_InstallationID : string;
  pd_ID : string;
  pd_WorkerID : string;
  pd_VersionID : string;
  pd_PreviousDesiredVersion : string;
  pd_Kind : string;
  pd_State : string;
  pd_ProviderExecution : bool;
  pd_ProviderVersionID : string;
  pd_ProviderDeploymentID : string;
  pd_ProviderState : string;
  pd_ErrorCode : string;
  pd_StartedAt : option time;
  pd_FinishedAt : option time;
  pd_CreatedAt : time;
  pd_CreatedBy : string;
}.

(** The foreign key of the desired version, checked at the end of the
    transaction. *)
Definition desired_exists (installation : string) (desired : option string) (d : database) : bool :=
  match desired with None => true | Some v => present (db_versions d !! (installation, v)) end.
(** [UNIQUE (installation_id, account_id, script_name)]. *)
Definition script_free (installation account script : string) (t : gmap (string * string) worker_row) : bool :=
  negb (existsb (λ kv, (kv.1.1 =? installation) && (wr_account_id kv.2 =? account) && (wr_script_name kv.2 =? script)) (map_to_list t)).

Definition CreateWorker (w : Worker) : M (result error unit) :=
  let row := mkWorkerRow (pw_Name w) (pw_AccountID w) (pw_ScriptName w) (nullString (pw_DesiredVersion w)) (pw_Version w)
               (timestamptz (pw_CreatedAt w)) (timestamptz (pw_UpdatedAt w)) in
  exec_result (stmt (λ d,
    t ← insert_row
          (texts [pw_InstallationID w; pw_ID w; pw_Name w; pw_AccountID w; pw_ScriptName w; pw_DesiredVersion w] && bigint (pw_Version w))
          (worker_check row) (script_free (pw_InstallationID w) (pw_AccountID w) (pw_ScriptName w) (db_workers d))
          (desired_exists (pw_InstallationID w) (wr_desired_version_id row) d) (pw_InstallationID w, pw_ID w) row (db_workers d);
    Ok (set_db_workers d t, tt))).

Definition scan_worker (installation id : string) (r : worker_row) : Worker :=
  mkWorker installation id (wr_name r) (wr_account_id r) (wr_script_name r) (orEmpty (wr_desired_version_id r)) (wr_version r)
    (wr_created_at r) (wr_updated_at r).

Definition GetWorker (installationID id : string) : M (result error Worker) :=
  run row ← query_with [installationID; id] (λ d, of_option (db_workers d !! (installationID, id)) ErrNoRows) else mapPostgresError;
  mret (Ok (scan_worker installationID id row)).

Definition ListWorkers (installationID : string) : M (result error (list Worker)) :=
  query_all [installationID]
    (λ d, ordered (by_created wr_created_at) MaxControlPlaneCollectionLen (rows_of installationID (λ _ _, true) (db_workers d)))
    (λ r, Ok (scan_worker installationID r.1 r.2)) "list PostgreSQL workers" "rows".

Definition CreateWorkerVersion (v : WorkerVersion) : M (result error unit) :=
  let row := mkVersionRow (pv_WorkerID v) (pv_SHA256 v) (pv_SizeBytes v) (pv_ContentType v) (pv_Entrypoint v) (pv_State v) (pv_Module v)
               None None None (timestamptz (pv_CreatedAt v)) (pv_CreatedBy v) in
  exec_result (stmt (λ d,
    t ← insert_row
          (texts [pv_InstallationID v; pv_ID v; pv_WorkerID v; pv_SHA256 v; pv_ContentType v; pv_Entrypoint v; pv_State v; pv_CreatedBy v] &&
           integer (pv_SizeBytes v))
          (version_check row) true (present (db_workers d !! (pv_InstallationID v, pv_WorkerID v))) (pv_InstallationID v, pv_ID v) row
          (db_versions d);
    Ok (set_db_versions d t, tt))).

(** The scan with [COALESCE]. *)
Definition scan_version (installation id : string) (r : version_row) : WorkerVersion :=
  mkWorkerVersion installation id (vr_worker_id r) (vr_sha256 r) (vr_size_bytes r) (vr_content_type r) (vr_entrypoint r) (vr_state r)
    (vr_module r) (orEmpty (vr_provider_version_id r)) (default 0 (vr_provider_version_number r)) (vr_provider_uploaded_at r)
    (vr_created_at r) (vr_created_by r).

(** The row with a primary key, if it belongs to a worker. *)
Definition version_row_of (installationID workerID id : string) (d : database) : option version_row :=
  r ← db_versions d !! (installationID, id); if vr_worker_id r =? workerID then Some r else None.

Definition GetWorkerVersion (installationID workerID id : string) : M (result error WorkerVersion) :=
  run row ← query_with [installationID; workerID; id] (λ d, of_option (version_row_of installationID workerID id d) ErrNoRows)
    else mapPostgresError;
  mret (Ok (scan_version installationID id row)).

Definition ListWorkerVersions (installationID workerID : string) : M (result error (list WorkerVersion)) :=
  query_all [installationID; workerID]
    (λ d, ordered (by_created_desc vr_created_at) MaxControlPlaneCollectionLen
            (rows_of installationID (λ _ r, vr_worker_id r =? workerID) (db_versions d)))
    (λ r, Ok (scan_version installationID r.1 r.2)) "list PostgreSQL worker versions" "rows".

Definition UpdateWorkerVersionProvider (installationID workerID versionID providerVersionID : string) (providerVersionNumber : Z)
    (uploadedAt : time) : M (result error unit) :=
  if (installationID =? "") || (workerID =? "") || (versionID =? "") || (providerVersionID =? "") || (providerVersionNumber <? 0)%Z ||
     is_zero_time uploadedAt then mret (Err ErrConflict)
  else mapCASResult (stmt (λ d,
    '(t, n) ← update_row (texts [installationID; workerID; versionID; providerVersionID] && bigint providerVersionNumber)
      (installationID, versionID) (λ old, vr_worker_id old =? workerID)
      (λ old, mkVersionRow (vr_worker_id old) (vr_sha256 old) (vr_size_bytes old) (vr_content_type old) (vr_entrypoint old) (vr_state old)
         (vr_module old) (Some providerVersionID) (Some providerVersionNumber) (Some (timestamptz uploadedAt)) (vr_created_at old)
         (vr_created_by old))
      version_check (db_versions d);
    Ok (set_db_versions d t, n))).

(** ** Deployments *)

Definition insert_deployment (x : WorkerDeployment) (d : database) : result pg_error (database * unit) :=
  let row := mkDeploymentRow (pd_WorkerID x) (pd_VersionID x) (nullString (pd_PreviousDesiredVersion x)) (pd_Kind x) (pd_State x)
               (pd_ProviderExecution x) None None None None None None (timestamptz (pd_CreatedAt x)) (pd_CreatedBy x) in
  t ← insert_row
        (texts [pd_InstallationID x; pd_ID x; pd_WorkerID x; pd_VersionID x; pd_PreviousDesiredVersion x; pd_Kind x; pd_State x; pd_CreatedBy x])
        (deployment_check row) true
        (present (db_workers d !! (pd_InstallationID x, pd_WorkerID x)) && present (db_versions d !! (pd_InstallationID x, pd_VersionID x)))
        (pd_InstallationID x, pd_ID x) row (db_deployments d);
  Ok (set_db_deployments d t, tt).

(** [UPDATE cloudflare_workers SET desired_version_id,version,updated_at]. *)
Definition update_worker (w : Worker) (expectedVersion : Z) (d : database) : result pg_error (database * Z) :=
  '(t, n) ← update_row (texts [pw_InstallationID w; pw_ID w; pw_DesiredVersion w] && bigint (pw_Version w) && bigint expectedVersion)
    (pw_InstallationID w, pw_ID w) (λ old, (wr_version old =? expectedVersion)%Z)
    (λ old, mkWorkerRow (wr_name old) (wr_account_id old) (wr_script_name old) (Some (pw_DesiredVersion w)) (pw_Version w)
       (wr_created_at old) (timestamptz (pw_UpdatedAt w)))
    worker_check (db_workers d);
  Ok (set_db_workers d t, n).

Definition PlanWorkerDeployment (deployment : WorkerDeployment) (updated : Worker) : M (result error unit) :=
  let i := pd_InstallationID deployment in
  in_transaction (Invalid "begin PostgreSQL deployment plan") id
  (run current ← query_with [i; pd_WorkerID deployment] (λ d, of_option (db_workers d !! (i, pd_WorkerID deployment)) ErrNoRows)
     else mapPostgresError;
   let currentDesired := orEmpty (wr_desired_version_id current) in
   if (pd_PreviousDesiredVersion deployment ≠? currentDesired) || negb (pw_Version updated =? u64 (wr_version current + 1))%Z ||
      (pw_DesiredVersion updated ≠? pd_VersionID deployment) || pd_ProviderExecution deployment then mret (Err ErrConflict)
   else
     run versionExists ← query_with [i; pd_WorkerID deployment; pd_VersionID deployment]
         (λ d, Ok (present (version_row_of i (pd_WorkerID deployment) (pd_VersionID deployment) d)))
       else failed (Invalid "verify PostgreSQL worker version");
     run tokenExists ← query_with [i; pd_WorkerID deployment]
         (λ d, Ok (present (db_bindings d !! (i, "cloudflare_worker", pd_WorkerID deployment))))
       else failed (Invalid "verify PostgreSQL worker token");
     if negb versionExists || negb tokenExists then mret (Err ErrNotFound)
     else if (pd_Kind deployment =? "rollback") && ((currentDesired =? "") || (currentDesired =? pd_VersionID deployment)) then
       mret (Err ErrConflict)
     else
       run _ ← stmt (insert_deployment deployment) else mapPostgresError;
       mapCASResult (stmt (update_worker updated (wr_version current)))).

Definition scan_deployment (installation id : string) (r : deployment_row) : WorkerDeployment :=
  mkWorkerDeployment installation id (dr_worker_id r) (dr_version_id r) (orEmpty (dr_previous_desired_version_id r)) (dr_kind r) (dr_state r)
    (dr_provider_execution_allowed r) (orEmpty (dr_provider_version_id r)) (orEmpty (dr_provider_deployment_id r))
    (orEmpty (dr_provider_state r)) (orEmpty (dr_error_code r)) (dr_started_at r) (dr_finished_at r) (dr_created_at r) (dr_created_by r).

Definition ListWorkerDeployments (installationID workerID : string) : M (result error (list WorkerDeployment)) :=
  query_all [installationID; workerID]
    (λ d, ordered (by_created_desc dr_created_at) MaxControlPlaneCollectionLen
            (rows_of installationID (λ _ r, dr_worker_id r =? workerID) (db_deployments d)))
    (λ r, Ok (scan_deployment installationID r.1 r.2)) "list PostgreSQL worker deployments" "rows".

Definition GetWorkerDeployment (installationID workerID deploymentID : string) : M (result error WorkerDeployment) :=
  run row ← query_with [installationID; workerID; deploymentID] (λ d,
      r ← of_option (db_deployments d !! (installationID, deploymentID)) ErrNoRows;
      if dr_worker_id r =? workerID then Ok r else Err ErrNoRows) else mapPostgresError;
  mret (Ok (scan_deployment installationID deploymentID row)).

Definition UpdateWorkerDeployment (updated : WorkerDeployment) (expectedState : string) : M (result error unit) :=
  if (pd_InstallationID updated =? "") || (pd_ID updated =? "") || (pd_WorkerID updated =? "") || (expectedState =? "") then
    mret (Err ErrConflict)
  else if (pd_State updated ≠? "running") && (pd_State updated ≠? "succeeded") && (pd_State updated ≠? "failed") then mret (Err ErrConflict)
  else mapCASResult (stmt (λ d,
    '(t, n) ← update_row
      (texts [pd_InstallationID updated; pd_WorkerID updated; pd_ID updated; pd_State updated; expectedState; pd_ProviderVersionID updated;
              pd_ProviderDeploymentID updated; pd_ProviderState updated; pd_ErrorCode updated])
      (pd_InstallationID updated, pd_ID updated) (λ old, (dr_worker_id old =? pd_WorkerID updated) && (dr_state old =? expectedState))
      (λ old, mkDeploymentRow (dr_worker_id old) (dr_version_id old) (dr_previous_desired_version_id old) (dr_kind old) (pd_State updated)
         (pd_ProviderExecution updated) (nullString (pd_ProviderVersionID updated)) (nullString (pd_ProviderDeploymentID updated))
         (nullString (pd_ProviderState updated)) (nullString (pd_ErrorCode updated)) (timestamptz <$> pd_StartedAt updated)
         (timestamptz <$> pd_FinishedAt updated) (dr_created_at old) (dr_created_by old))
      deployment_check (db_deployments d);
    Ok (set_db_deployments d t, n))).

Definition Ping : M (result error unit) := run _ ← query (λ d, Ok tt) else failed (Invalid "ping PostgreSQL"); mret (Ok tt).
End repository.

(** ** Reasoning about statements and transactions *)

(** Whatever fails: on success [post] holds of the new database and the
    result; on an error the database is unchanged, or as after a success. *)
Definition atomic {E A} (m : M (result E A)) (d : database) (post : database → A → Prop) : Prop :=
  ∀ fs, match m (mkServer d fs) with
        | (s, Ok a) => post (db s) a
        | (s, Err _) => db s = d ∨ ∃ a, post (db s) a
        end.
(** A function that does not change the database. *)
Definition reads {E A} (m : M (result E A)) (d : database) (post : A → Prop) : Prop :=
  ∀ fs, match m (mkServer d fs) with (s, r) => db s = d ∧ match r with Ok a => post a | Err _ => True end end.
(** The body of a transaction: what holds if it succeeds. *)
Definition body_ok {E A} (m : M (result E A)) (d : database) (post : database → A → Prop) : Prop :=
  ∀ fs, match m (mkServer d fs) with (s, Ok a) => post (db s) a | (_, Err _) => True end.

Section rules.
Context {E : Type}.
Implicit Types d : database.

Lemma or_fail_run {A B} (f : pg_error → E) (m : M (result pg_error A)) (k : A → M (result E B)) s :
  or_fail f m k s = let '(s', r) := m s in match r with Ok a => k a s' | Err e => (s', Err (f e)) end.
Proof. unfold or_fail, mbind, M_bind. destruct (m s) as [? [|]]; reflexivity. Qed.

Lemma next_fault_db s : db (next_fault s).2 = db s.
Proof. unfold next_fault. by destruct (faults s). Qed.

Lemma stmt_cases {A} (op : database → result pg_error (database * A)) d fs :
  (∃ e fs', stmt op (mkServer d fs) = (mkServer d fs', Err e)) ∨
  ∃ d' a, op d = Ok (d', a) ∧ ∃ fs' r, stmt op (mkServer d fs) = (mkServer d' fs', r) ∧ (r = Ok a ∨ ∃ e, r = Err e).
Proof.
  unfold stmt, next_fault. destruct fs as [|[|e|e] fs]; cbn; [..|eauto|]; destruct (op d) as [[d' a]|e'] eqn:Eo; eauto 10.
Qed.

(** A missing row is reported by the statement, not by a fault. *)
Lemma stmt_no_rows {A} (op : database → result pg_error (database * A)) d fs s :
  stmt op (mkServer d fs) = (s, Err ErrNoRows) → db s = d ∧ op d = Err ErrNoRows.
Proof.
  unfold stmt, next_fault. destruct fs as [|[|[c|]|[c|]] fs]; cbn; [..|by intros|by intros|by intros|by intros]; destruct (op d) as [[d' a]|e']; by intros [= <- <-].
Qed.

Lemma query_cases {A} (f : database → result pg_error A) d fs :
  ∃ fs' r, query f (mkServer d fs) = (mkServer d fs', r) ∧ match r with Ok a => f d = Ok a | Err _ => True end.
Proof.
  unfold query. destruct (stmt_cases (λ d, a ← f d; Ok (d, a)) d fs) as [(e & fs' & ->)|(d' & a & Ho & fs' & r & -> & Hr)]; [by exists fs', (Err e)|].
  apply bind_Ok_inv in Ho as (x & Hx & [= <- <-]). destruct Hr as [->|[e ->]]; eexists _, _; done.
Qed.

Lemma query_with_Ok {A} ps (f : database → result pg_error A) d a : (require texts ps else PgOther ;; f d) = Ok a → texts ps = true ∧ f d = Ok a.
Proof. intros (? & ?%guard_ok_Ok & ?)%bind_Ok_inv. done. Qed.

Lemma atomic_ret {A} d (post : database → A → Prop) a : post d a → atomic (E := E) (mret (Ok a)) d post.
Proof. by intros Hp fs. Qed.
Lemma atomic_err {A} d (post : database → A → Prop) (e : E) : atomic (mret (Err e)) d post.
Proof. intros fs. by left. Qed.
Lemma atomic_pure {A} d (post : database → A → Prop) (r : result E A) : (∀ a, r = Ok a → post d a) → atomic (mret r) d post.
Proof. destruct r; intros Hr; [by apply atomic_ret, Hr|apply atomic_err]. Qed.

Lemma atomic_checked {A} d (post : database → A → Prop) (v : result E unit) k :
  (v = Ok tt → atomic k d post) → atomic (checked v k) d post.
Proof. destruct v as [[]|e]; cbn; [auto|]. intros _. apply atomic_err. Qed.

Lemma atomic_conseq {A} (m : M (result E A)) d (post post' : database → A → Prop) :
  atomic m d post → (∀ d' a, post d' a → post' d' a) → atomic m d post'.
Proof.
  intros Hm Hp fs. specialize (Hm fs). destruct (m _) as [s [a|e]]; [by apply Hp|].
  destruct Hm as [?|[a ?]]; [by left|right; exists a; by apply Hp].
Qed.

(** A statement that ends a function. *)
Lemma atomic_stmt {A B} d (post : database → B → Prop) (op : database → result pg_error (database * A)) (f : pg_error → E) (k : A → result E B) :
  (∀ d' a, op d = Ok (d', a) → match k a with Ok b => post d' b | Err _ => d' = d end) →
  atomic (run a ← stmt op else f; mret (k a)) d post.
Proof.
  intros Hop fs. rewrite or_fail_run. destruct (stmt_cases op d fs) as [(e & fs' & ->)|(d' & a & Ho & fs' & r & -> & Hr)]; [by left|].
  specialize (Hop _ _ Ho). destruct Hr as [->|[e ->]]; cbn; destruct (k a); eauto.
Qed.

Lemma reads_query {A} d (post : A → Prop) (f : database → result pg_error A) (g : pg_error → E) (ps : list string) :
  (∀ a, texts ps = true → f d = Ok a → post a) → reads (run a ← query_with ps f else g; mret (Ok a)) d post.
Proof.
  intros Hf fs. rewrite or_fail_run. unfold query_with. destruct (query_cases (λ d, require texts ps else PgOther ;; f d) d fs) as (fs' & r & -> & Hr).
  destruct r as [a|e]; cbn; [|done]. split; [done|]. apply query_with_Ok in Hr as [? ?]. by apply Hf.
Qed.

Lemma reads_then {A B} d (post : B → Prop) (f : database → result pg_error A) (g : pg_error → E) (ps : list string) k :
  (∀ a, texts ps = true → f d = Ok a → reads (k a) d post) → reads (run a ← query_with ps f else g; k a) d post.
Proof.
  intros Hf fs. rewrite or_fail_run. unfold query_with. destruct (query_cases (λ d, require texts ps else PgOther ;; f d) d fs) as (fs' & r & -> & Hr).
  destruct r as [a|e]; cbn; [|done]. apply query_with_Ok in Hr as [? ?]. by apply Hf.
Qed.

Lemma reads_pure {A} d (post : A → Prop) (r : result E A) : (∀ a, r = Ok a → post a) → reads (mret r) d post.
Proof. intros Hr fs. cbn. split; [done|]. destruct r; [by apply Hr|done]. Qed.

Lemma reads_checked {A} d (post : A → Prop) (v : result E unit) k : (v = Ok tt → reads k d post) → reads (checked v k) d post.
Proof. destruct v as [[]|e]; cbn; [auto|]. by intros _ fs. Qed.

Lemma reads_atomic {A} d (post : A → Prop) (m : M (result E A)) : reads m d post → atomic m d (λ d' a, d' = d ∧ post a).
Proof. intros Hm fs. specialize (Hm fs). destruct (m _) as [s [a|e]]; [done|]. left. apply Hm. Qed.

(** Transactions are all or nothing. *)
Lemma atomic_transaction {A} d (post : database → A → Prop) (e : E) lift body :
  body_ok body d post → atomic (in_transaction e lift body) d post.
Proof.
  intros Hb fs. unfold in_transaction. destruct (next_fault (mkServer d fs)) as [f s] eqn:En.
  pose proof (next_fault_db (mkServer d fs)) as Hd. rewrite En in Hd. cbn in Hd. destruct s as [d0 fs0]. cbn in Hd. subst d0.
  destruct f; [|by left..]. specialize (Hb fs0). destruct (body _) as [s' [a|e']]; [|by left].
  pose proof (next_fault_db s') as Hd'. destruct (next_fault s') as [f s'']. cbn in Hd'. rewrite <-Hd' in Hb.
  destruct f; [done|by left|right; by exists a].
Qed.

Lemma body_stmt {A B} d (post : database → B → Prop) (op : database → result pg_error (database * A)) (f : pg_error → E) k :
  (∀ d' a, op d = Ok (d', a) → body_ok (k a) d' post) → body_ok (run a ← stmt op else f; k a) d post.
Proof.
  intros Hop fs. rewrite or_fail_run. destruct (stmt_cases op d fs) as [(e & fs' & ->)|(d' & a & Ho & fs' & r & -> & Hr)]; [done|].
  destruct Hr as [->|[e ->]]; cbn; [|done]. by apply Hop.
Qed.
Lemma body_query {A B} d (post : database → B → Prop) (f : database → result pg_error A) (g : pg_error → E) ps k :
  (∀ a, texts ps = true → f d = Ok a → body_ok (k a) d post) → body_ok (run a ← query_with ps f else g; k a) d post.
Proof.
  intros Hf fs. rewrite or_fail_run. unfold query_with. destruct (query_cases (λ d, require texts ps else PgOther ;; f d) d fs) as (fs' & r & -> & Hr).
  destruct r as [a|e]; cbn; [|done]. apply query_with_Ok in Hr as [? ?]. by apply Hf.
Qed.
Lemma body_pure {A} d (post : database → A → Prop) (r : result E A) : (∀ a, r = Ok a → post d a) → body_ok (mret r) d post.
Proof. intros Hr fs. cbn. destruct r; [by apply Hr|done]. Qed.
End rules.
