(* ===== verification/PostgresStore.v ===== *)
(** * The durable repository of the control plane

    Models [services/control-plane/internal/store/postgres.go] and
    [postgres_cloudflare_execution.go], which implement the [Repository]
    interface ([repository.go]) on the tables of file Postgres, and relates
    them to the in-memory repository of file Store: every durable operation
    either changes nothing or does what the in-memory one does, whatever fails. *)

From S2P Require Import Prelude GoStrings Encoding Persistence Postgres AuditTrail Credentials Protocol Model Store.

(** ** Mapping records *)

Fixpoint mapPersistenceError (e : Persistence.error) : store_error :=
  match e with
  | Persistence.ErrNotFound => ErrNotFound
  | Persistence.ErrConflict => ErrConflict
  | ErrUnsafeJSON => ErrOther "payload may contain secret material"
  | Invalid message => ErrOther message
  | Wrapped context e => match mapPersistenceError e with ErrOther m => ErrOther (context +:+ ": " +:+ m) | x => x end
  end.

Definition pin_to_asset (p : HostKeyPin) : Persistence.HostKeyPin :=
  mkPin (hk_Algorithm p) (hk_FingerprintSHA256 p) (hk_PublicKey p) (ConfirmedAt p) (ConfirmedBy p).
Definition pin_to_host (p : Persistence.HostKeyPin) : HostKeyPin :=
  mkHostKeyPin (Algorithm p) (FingerprintSHA256 p) (PublicKey p) (Persistence.ConfirmedAt p) (Persistence.ConfirmedBy p).

Definition hostToAsset (installationID : string) (h : Host) : Asset :=
  mkAsset installationID (h_ID h) (h_Name h) (h_Address h) (h_Port h) (h_Username h) (h_Labels h) (pin_to_asset <$> h_HostKey h)
    (h_Version h) (h_CreatedAt h) (h_UpdatedAt h).
Definition assetToHost (a : Asset) : Host :=
  mkHost (a_ID a) (a_Name a) (a_Address a) (a_Port a) (a_Username a) (a_Labels a) (pin_to_host <$> a_HostKey a)
    (a_Version a) (a_CreatedAt a) (a_UpdatedAt a).

Record persistedJobParameters := mkJobParameters {
  pp_RequestedSessionID : string;
  pp_Command : option CommandDescriptor;
}.
Record persistedJobResult := mkJobResult {
  pr_Snapshot : option RuntimeSnapshot;
  pr_CommandResult : option CommandResult;
  pr_AnomalyScan : option AnomalyScanResult;
  pr_RunbookPreview : option RunbookPreviewResult;
  pr_RunbookExecution : option RunbookExecutionResult;
}.

(** [model.JobState(s)]. *)
Definition JobState_of (s : string) : JobState :=
  if s =? "queued" then JobQueued else if s =? "running" then JobRunning
  else if s =? "awaiting_approval" then JobAwaitingApproval else if s =? "succeeded" then JobSucceeded
  else if s =? "failed" then JobFailed else if s =? "timed_out" then JobTimedOut
  else if s =? "cancelled" then JobCancelled else JobOther s.

Definition persistenceToEnvelope (e : CredentialEnvelope) : Envelope :=
  mkEnvelope (copy_bytes (c_Ciphertext e)) (copy_bytes (c_CipherNonce e)) (copy_bytes (c_WrappedKey e))
    (copy_bytes (c_WrappedKeyNonce e)) (c_KeyID e).

Definition workerToPersistence (installationID : string) (w : CloudflareWorker) : Worker :=
  mkWorker installationID (w_ID w) (w_Name w) (w_AccountID w) (w_ScriptName w) (w_DesiredVersionID w) (w_Version w) (w_CreatedAt w) (w_UpdatedAt w).
Definition persistenceToWorker (w : Worker) : CloudflareWorker :=
  mkCloudflareWorker (pw_ID w) (pw_Name w) (pw_AccountID w) (pw_ScriptName w) (pw_DesiredVersion w) (pw_Version w) (pw_CreatedAt w) (pw_UpdatedAt w).

Definition persistenceToWorkerVersion (v : WorkerVersion) : StoredCloudflareWorkerVersion :=
  mkStoredCloudflareWorkerVersion
    (mkCloudflareWorkerVersion (pv_ID v) (pv_WorkerID v) (pv_SHA256 v) (pv_SizeBytes v) (pv_ContentType v) (pv_Entrypoint v) (pv_State v)
       (pv_ProviderVersionID v) (pv_ProviderVersionNumber v) (pv_ProviderUploadedAt v) (pv_CreatedAt v) (pv_CreatedBy v))
    (copy_bytes (pv_Module v)).

Definition workerDeploymentToPersistence (installationID : string) (d : CloudflareDeployment) : WorkerDeployment :=
  mkWorkerDeployment installationID (d_ID d) (d_WorkerID d) (d_VersionID d) (d_PreviousDesiredVersionID d) (d_Kind d) (d_State d)
    (d_ProviderExecutionAllowed d) (d_ProviderVersionID d) (d_ProviderDeploymentID d) (d_ProviderState d) (d_ErrorCode d)
    (d_StartedAt d) (d_FinishedAt d) (d_CreatedAt d) (d_CreatedBy d).
Definition persistenceToWorkerDeployment (d : WorkerDeployment) : CloudflareDeployment :=
  mkCloudflareDeployment (pd_ID d) (pd_WorkerID d) (pd_VersionID d) (pd_PreviousDesiredVersion d) (pd_Kind d) (pd_State d)
    (pd_ProviderExecution d) (pd_ProviderVersionID d) (pd_ProviderDeploymentID d) (pd_ProviderState d) (pd_ErrorCode d)
    (pd_StartedAt d) (pd_FinishedAt d) (pd_CreatedAt d) (pd_CreatedBy d).

(** The fixed-length calls of [PlanWorkerDeployment]: the provider fields are
    not set. *)
Definition planned_deployment (installationID : string) (d : CloudflareDeployment) : WorkerDeployment :=
  mkWorkerDeployment installationID (d_ID d) (d_WorkerID d) (d_VersionID d) (d_PreviousDesiredVersionID d) (d_Kind d) (d_State d)
    (d_ProviderExecutionAllowed d) "" "" "" "" None None (d_CreatedAt d) (d_CreatedBy d).

(** ** The operations *)

Section store.
Context `{Jsonb} `{Codec (gmap string string)} `{Codec Persistence.HostKeyPin} `{Collation}.
Context `{Codec CredentialMetadata} `{Codec CloudflareTokenMetadata} `{Codec persistedJobParameters} `{Codec persistedJobResult}.
Context `{Codec (option (list (string * value)))}.
(** [p.installationID]. *)
Context (installationID : string).

(** [mapPersistenceError] on a result. *)
Definition mapped {A} (m : M (result Persistence.error A)) : M (result store_error A) :=
  r ← m; mret (match r with Ok a => Ok a | Err e => Err (mapPersistenceError e) end).
(** A call whose result is used further. *)
Definition calling {A B} (m : M (result Persistence.error A)) (k : A → M (result store_error B)) : M (result store_error B) :=
  r ← m; match r with Ok a => k a | Err e => mret (Err (mapPersistenceError e)) end.

Definition pg_CreateHost (host : Host) : M (result store_error unit) := mapped (Postgres.CreateAsset (hostToAsset installationID host)).
Definition pg_GetHost (id : string) : M (result store_error Host) :=
  calling (Postgres.GetAsset installationID id) (λ asset, mret (Ok (assetToHost asset))).
Definition pg_ListHosts : M (result store_error (list Host)) :=
  calling (Postgres.ListAllAssets installationID) (λ assets, mret (Ok (map assetToHost assets))).
Definition pg_UpdateHost (host : Host) (expectedVersion : Z) : M (result store_error unit) :=
  mapped (Postgres.UpdateAsset (hostToAsset installationID host) expectedVersion).

(** Three statements, each in a transaction of its own. *)
Definition pg_DeleteHost (id : string) : M (result store_error unit) :=
  calling (Postgres.GetAsset installationID id) (λ asset,
  deleted ← Postgres.DeleteCurrentSecret installationID SecretScopeHost id;
  match deleted with
  | Ok _ | Err Persistence.ErrNotFound => mapped (Postgres.DeleteAsset installationID id (a_Version asset))
  | Err e => mret (Err (mapPersistenceError e))
  end).

Definition secret_of (scope owner credential kind metadata : string) (e : Envelope) (created : time) : SecretBinding :=
  mkSecretBinding installationID scope owner credential 1
    (Persistence.mkCredential installationID credential 1 kind (env_KeyID e) (Ciphertext e) (Nonce e) (WrappedKey e) (KeyNonce e) metadata created).

Definition pg_PutCredential (c : StoredCredential) : M (result store_error unit) :=
  let x := sc_Metadata c in
  match marshal x with
  | None => mret (Err (ErrOther "json"))
  | Some metadata => mapped (PutCurrentSecret (secret_of SecretScopeHost (cm_HostID x) (cm_ID x) (cm_Kind x) metadata (sc_Envelope c) (cm_CreatedAt x)))
  end.

Definition pg_GetCredential (hostID : string) : M (result store_error StoredCredential) :=
  calling (GetCurrentSecret installationID SecretScopeHost hostID) (λ binding,
  mret (match unmarshal (c_Metadata (sb_Envelope binding)) with
  | Some metadata =>
    if (cm_ID metadata ≠? sb_CredentialID binding) || (cm_HostID metadata ≠? hostID) then Err (ErrOther "stored SSH credential metadata is invalid")
    else Ok (mkStoredCredential metadata (persistenceToEnvelope (sb_Envelope binding)))
  | None => Err (ErrOther "stored SSH credential metadata is invalid")
  end)).

Definition pg_DeleteCredential (hostID : string) : M (result store_error unit) :=
  mapped (Postgres.DeleteCurrentSecret installationID SecretScopeHost hostID).

Definition modelToJob (j : Job) : result store_error Persistence.Job :=
  parameters ← of_option (marshal (mkJobParameters (j_RequestedSessionID j) (j_Command j))) (ErrOther "json");
  result ← of_option (marshal (mkJobResult (j_Snapshot j) (j_CommandResult j) (j_AnomalyScan j) (j_RunbookPreview j) (j_RunbookExecution j))) (ErrOther "json");
  let updatedAt := match j_FinishedAt j, j_StartedAt j with Some t, _ => t | None, Some t => t | None, None => j_CreatedAt j end in
  Ok (Persistence.mkJob installationID (j_ID j) (j_Type j) (j_HostID j) (JobState_string (j_State j)) (j_RequestedBy j) "" "" parameters result
    (match j_Error j with Some e => je_Code e | None => "" end) (match j_Error j with Some e => je_Message e | None => "" end)
    (j_Version j) (j_CreatedAt j) (j_StartedAt j) (j_FinishedAt j) updatedAt).

Definition jobToModel (j : Persistence.Job) : result store_error Job :=
  parameters ← of_option (unmarshal (A := persistedJobParameters) (j_Parameters j)) (ErrOther "stored job parameters are invalid");
  result ← of_option (unmarshal (A := persistedJobResult) (j_Result j)) (ErrOther "stored job result is invalid");
  Ok (mkJob (Persistence.j_ID j) (Persistence.j_Type j) (j_AssetID j) (JobState_of (Persistence.j_State j)) (Persistence.j_RequestedBy j)
    (pp_RequestedSessionID parameters) (Persistence.j_CreatedAt j) (Persistence.j_StartedAt j) (Persistence.j_FinishedAt j)
    (pr_Snapshot result) (pp_Command parameters) (pr_CommandResult result) (pr_AnomalyScan result) (pr_RunbookPreview result)
    (pr_RunbookExecution result)
    (if j_ErrorCode j ≠? "" then Some (mkJobError (j_ErrorCode j) (j_ErrorMessage j)) else None) (Persistence.j_Version j)).

Definition pg_CreateJob (job : Job) : M (result store_error unit) :=
  match modelToJob job with Err e => mret (Err e) | Ok persisted => mapped (Postgres.CreateJob persisted) end.
Definition pg_GetJob (id : string) : M (result store_error Job) :=
  calling (Postgres.GetJob installationID id) (λ job, mret (jobToModel job)).

Fixpoint map_results {A B E} (f : A → result E B) (l : list A) : result E (list B) :=
  match l with [] => Ok [] | x :: l => y ← f x; ys ← map_results f l; Ok (y :: ys) end.

Definition pg_ListJobs : M (result store_error (list Job)) :=
  calling (Postgres.ListAllJobs installationID) (λ jobs, mret (map_results jobToModel jobs)).

Definition pg_MutateJob (id : string) (mutate : Job → result store_error Job) : M (result store_error Job) :=
  r ← Postgres.MutateJob installationID id (λ current,
    modelCurrent ← jobToModel current;
    modelUpdated ← mutate modelCurrent;
    modelToJob modelUpdated);
  mret (match r with
  | Err (inl e) => Err (mapPersistenceError e)
  | Err (inr e) => Err e
  | Ok updated => jobToModel updated
  end).

Definition pg_AppendAudit (event : AuditEvent) : M (result store_error unit) :=
  match marshal (SanitizeDetails (ae_Details event)) with
  | None => mret (Err (ErrOther "json"))
  | Some details =>
    mapped (Postgres.AppendAudit (mkAudit installationID (ae_ID event) (ae_Timestamp event) (ae_Actor event) (ae_Role event) (ae_Action event)
      (ae_TargetType event) (ae_TargetID event) (ae_Outcome event) (ae_RequestID event) "" details))
  end.

Definition event_of (e : Persistence.AuditEvent) : result store_error AuditEvent :=
  details ← (if (0 <? slen (e_Details e))%Z then of_option (unmarshal (e_Details e)) (ErrOther "stored audit details are invalid") else Ok None);
  Ok (mkAuditEvent (e_ID e) (e_Timestamp e) (e_Actor e) (e_Role e) (e_Action e) (e_TargetType e) (e_TargetID e) (e_Outcome e) (e_RequestID e) details).

Definition pg_ListAudits (now : time) (limit : Z) : M (result store_error (list AuditEvent)) :=
  calling (Postgres.ListAudit now (mkFilter installationID 0 "" limit)) (λ events, mret (map_results event_of events)).

Definition pg_CreateWorker (w : CloudflareWorker) : M (result store_error unit) := mapped (Postgres.CreateWorker (workerToPersistence installationID w)).
Definition pg_GetWorker (id : string) : M (result store_error CloudflareWorker) :=
  calling (Postgres.GetWorker installationID id) (λ w, mret (Ok (persistenceToWorker w))).
Definition pg_ListWorkers : M (result store_error (list CloudflareWorker)) :=
  calling (Postgres.ListWorkers installationID) (λ l, mret (Ok (map persistenceToWorker l))).

Definition pg_PutWorkerToken (t : StoredCloudflareToken) : M (result store_error unit) :=
  let x := st_Metadata t in
  match marshal x with
  | None => mret (Err (ErrOther "json"))
  | Some metadata => mapped (PutCurrentSecret (secret_of SecretScopeCloudflareWorker (tm_WorkerID x) (tm_ID x) (tm_Kind x) metadata (st_Envelope t) (tm_CreatedAt x)))
  end.
Definition pg_GetWorkerToken (workerID : string) : M (result store_error StoredCloudflareToken) :=
  calling (GetCurrentSecret installationID SecretScopeCloudflareWorker workerID) (λ binding,
  mret (match unmarshal (c_Metadata (sb_Envelope binding)) with
  | Some metadata =>
    if (tm_ID metadata ≠? sb_CredentialID binding) || (tm_WorkerID metadata ≠? workerID) then Err (ErrOther "stored Cloudflare token metadata is invalid")
    else Ok (mkStoredCloudflareToken metadata (persistenceToEnvelope (sb_Envelope binding)))
  | None => Err (ErrOther "stored Cloudflare token metadata is invalid")
  end)).
Definition pg_DeleteWorkerToken (workerID : string) : M (result store_error unit) :=
  mapped (Postgres.DeleteCurrentSecret installationID SecretScopeCloudflareWorker workerID).

Definition pg_CreateWorkerVersion (v : StoredCloudflareWorkerVersion) : M (result store_error unit) :=
  let x := sv_Metadata v in
  mapped (Postgres.CreateWorkerVersion (mkWorkerVersion installationID (wv_ID x) (wv_WorkerID x) (wv_SHA256 x) (wv_SizeBytes x) (wv_ContentType x)
    (wv_Entrypoint x) (wv_State x) (copy_bytes (sv_Module v)) "" 0 None (wv_CreatedAt x) (wv_CreatedBy x))).
Definition pg_GetWorkerVersion (workerID versionID : string) : M (result store_error StoredCloudflareWorkerVersion) :=
  calling (Postgres.GetWorkerVersion installationID workerID versionID) (λ v, mret (Ok (persistenceToWorkerVersion v))).
Definition pg_ListWorkerVersions (workerID : string) : M (result store_error (list CloudflareWorkerVersion)) :=
  calling (Postgres.ListWorkerVersions installationID workerID) (λ l, mret (Ok (map (λ v, sv_Metadata (persistenceToWorkerVersion v)) l))).
Definition pg_UpdateWorkerVersionProvider (workerID versionID providerVersionID : string) (number : Z) (uploadedAt : time) : M (result store_error unit) :=
  mapped (Postgres.UpdateWorkerVersionProvider installationID workerID versionID providerVersionID number uploadedAt).

Definition pg_PlanWorkerDeployment (d : CloudflareDeployment) (updated : CloudflareWorker) : M (result store_error unit) :=
  mapped (Postgres.PlanWorkerDeployment (planned_deployment installationID d) (workerToPersistence installationID updated)).
Definition pg_ListWorkerDeployments (workerID : string) : M (result store_error (list CloudflareDeployment)) :=
  calling (Postgres.ListWorkerDeployments installationID workerID) (λ l, mret (Ok (map persistenceToWorkerDeployment l))).
Definition pg_GetWorkerDeployment (workerID deploymentID : string) : M (result store_error CloudflareDeployment) :=
  calling (Postgres.GetWorkerDeployment installationID workerID deploymentID) (λ d, mret (Ok (persistenceToWorkerDeployment d))).
Definition pg_UpdateWorkerDeployment (updated : CloudflareDeployment) (expectedState : string) : M (result store_error unit) :=
  calling (Postgres.GetWorkerDeployment installationID (d_WorkerID updated) (d_ID updated)) (λ current,
  if (pd_State current ≠? expectedState) || negb (validWorkerDeploymentTransition (persistenceToWorkerDeployment current) updated) then
    mret (Err ErrConflict)
  else mapped (Postgres.UpdateWorkerDeployment (workerDeploymentToPersistence installationID updated) expectedState)).
End store.
