(* ===== verification/PostgresRefinement.v ===== *)
(** * The durable repository refines the in-memory one

    The tables of one installation represent a state of the in-memory
    repository.  Every operation of file PostgresStore, whatever fails on the
    way, either leaves that state or takes it to the one that the operation of
    file Store gives, with times in microseconds; when it succeeds, so does
    the other, with the same answer. *)

From S2P Require Import Prelude GoStrings Encoding Json Persistence Postgres AuditTrail Credentials Protocol Model Store PostgresStore.

(** ** Times in the database *)

Definition round_host (h : Host) : Host :=
  mkHost (h_ID h) (h_Name h) (h_Address h) (h_Port h) (h_Username h) (h_Labels h) (h_HostKey h) (h_Version h)
    (timestamptz (h_CreatedAt h)) (timestamptz (h_UpdatedAt h)).
Definition round_job (j : Job) : Job :=
  mkJob (j_ID j) (j_Type j) (j_HostID j) (j_State j) (j_RequestedBy j) (j_RequestedSessionID j) (timestamptz (j_CreatedAt j))
    (timestamptz <$> j_StartedAt j) (timestamptz <$> j_FinishedAt j) (j_Snapshot j) (j_Command j) (j_CommandResult j) (j_AnomalyScan j)
    (j_RunbookPreview j) (j_RunbookExecution j) (j_Error j) (j_Version j).
Definition round_event (e : AuditEvent) : AuditEvent :=
  mkAuditEvent (ae_ID e) (timestamptz (ae_Timestamp e)) (ae_Actor e) (ae_Role e) (ae_Action e) (ae_TargetType e) (ae_TargetID e)
    (ae_Outcome e) (ae_RequestID e) (ae_Details e).
Definition round_worker (w : CloudflareWorker) : CloudflareWorker :=
  mkCloudflareWorker (w_ID w) (w_Name w) (w_AccountID w) (w_ScriptName w) (w_DesiredVersionID w) (w_Version w)
    (timestamptz (w_CreatedAt w)) (timestamptz (w_UpdatedAt w)).
Definition round_version (v : StoredCloudflareWorkerVersion) : StoredCloudflareWorkerVersion :=
  let x := sv_Metadata v in
  mkStoredCloudflareWorkerVersion
    (mkCloudflareWorkerVersion (wv_ID x) (wv_WorkerID x) (wv_SHA256 x) (wv_SizeBytes x) (wv_ContentType x) (wv_Entrypoint x) (wv_State x)
       (wv_ProviderVersionID x) (wv_ProviderVersionNumber x) (timestamptz <$> wv_ProviderUploadedAt x) (timestamptz (wv_CreatedAt x)) (wv_CreatedBy x))
    (sv_Module v).
Definition round_deployment (d : CloudflareDeployment) : CloudflareDeployment :=
  mkCloudflareDeployment (d_ID d) (d_WorkerID d) (d_VersionID d) (d_PreviousDesiredVersionID d) (d_Kind d) (d_State d)
    (d_ProviderExecutionAllowed d) (d_ProviderVersionID d) (d_ProviderDeploymentID d) (d_ProviderState d) (d_ErrorCode d)
    (timestamptz <$> d_StartedAt d) (timestamptz <$> d_FinishedAt d) (timestamptz (d_CreatedAt d)) (d_CreatedBy d).

(** ** The interface *)

Inductive request :=
| QCreateHost (h : Host)
| QGetHost (id : string)
| QListHosts
| QUpdateHost (h : Host) (expected : Z)
| QDeleteHost (id : string)
| QPutCredential (c : StoredCredential)
| QGetCredential (hostID : string)
| QDeleteCredential (hostID : string)
| QCreateJob (j : Job)
| QGetJob (id : string)
| QListJobs
| QMutateJob (id : string) (mutate : Job → result store_error Job)
| QAppendAudit (e : AuditEvent)
| QCreateWorker (w : CloudflareWorker)
| QGetWorker (id : string)
| QListWorkers
| QPutWorkerToken (t : StoredCloudflareToken)
| QGetWorkerToken (workerID : string)
| QDeleteWorkerToken (workerID : string)
| QCreateWorkerVersion (v : StoredCloudflareWorkerVersion)
| QGetWorkerVersion (workerID versionID : string)
| QListWorkerVersions (workerID : string)
| QUpdateWorkerVersionProvider (workerID versionID providerVersionID : string) (number : Z) (uploadedAt : time)
| QPlanWorkerDeployment (d : CloudflareDeployment) (updated : CloudflareWorker)
| QGetWorkerDeployment (workerID deploymentID : string)
| QListWorkerDeployments (workerID : string)
| QUpdateWorkerDeployment (updated : CloudflareDeployment) (expectedState : string).

Inductive reply :=
| ADone
| AHost (h : Host) | AHosts (l : list Host)
| ACredential (c : StoredCredential)
| AJob (j : Job) | AJobs (l : list Job) | AMutated (j : Job)
| AWorker (w : CloudflareWorker) | AWorkers (l : list CloudflareWorker)
| AToken (t : StoredCloudflareToken)
| AVersion (v : StoredCloudflareWorkerVersion) | AVersions (l : list CloudflareWorkerVersion)
| ADeployment (d : CloudflareDeployment) | ADeployments (l : list CloudflareDeployment).

Definition with_reply {A} (f : A → reply) (r : result store_error A) : result store_error reply := a ← r; Ok (f a).
Definition step_reply {S A} (f : A → reply) (p : S * result store_error A) : S * result store_error reply := (p.1, with_reply f p.2).

Definition mem_run (m : Memory) (q : request) : Memory * result store_error reply :=
  match q with
  | QCreateHost h => step_reply (λ _, ADone) (CreateHost m h)
  | QGetHost id => (m, with_reply AHost (GetHost m id))
  | QListHosts => (m, Ok (AHosts (ListHosts m)))
  | QUpdateHost h v => step_reply (λ _, ADone) (UpdateHost m h v)
  | QDeleteHost id => step_reply (λ _, ADone) (DeleteHost m id)
  | QPutCredential c => step_reply (λ _, ADone) (PutCredential m c)
  | QGetCredential id => (m, with_reply ACredential (GetCredential m id))
  | QDeleteCredential id => step_reply (λ _, ADone) (DeleteCredential m id)
  | QCreateJob j => step_reply (λ _, ADone) (CreateJob m j)
  | QGetJob id => (m, with_reply AJob (GetJob m id))
  | QListJobs => (m, Ok (AJobs (ListJobs m)))
  | QMutateJob id f => step_reply AMutated (MutateJob m id f)
  | QAppendAudit e => step_reply (λ _, ADone) (AppendAudit m e)
  | QCreateWorker w => step_reply (λ _, ADone) (CreateWorker m w)
  | QGetWorker id => (m, with_reply AWorker (GetWorker m id))
  | QListWorkers => (m, Ok (AWorkers (ListWorkers m)))
  | QPutWorkerToken t => step_reply (λ _, ADone) (PutWorkerToken m t)
  | QGetWorkerToken id => (m, with_reply AToken (GetWorkerToken m id))
  | QDeleteWorkerToken id => step_reply (λ _, ADone) (DeleteWorkerToken m id)
  | QCreateWorkerVersion v => step_reply (λ _, ADone) (CreateWorkerVersion m v)
  | QGetWorkerVersion w v => (m, with_reply AVersion (GetWorkerVersion m w v))
  | QListWorkerVersions w => (m, Ok (AVersions (ListWorkerVersions m w)))
  | QUpdateWorkerVersionProvider w v p n t => step_reply (λ _, ADone) (UpdateWorkerVersionProvider m w v p n t)
  | QPlanWorkerDeployment d w => step_reply (λ _, ADone) (PlanWorkerDeployment m d w)
  | QGetWorkerDeployment w d => (m, with_reply ADeployment (GetWorkerDeployment m w d))
  | QListWorkerDeployments w => (m, Ok (ADeployments (ListWorkerDeployments m w)))
  | QUpdateWorkerDeployment d st => step_reply (λ _, ADone) (UpdateWorkerDeployment m d st)
  end.

(** The request as the database sees it. *)
Definition rounded (q : request) : request :=
  match q with
  | QCreateHost h => QCreateHost (round_host h)
  | QUpdateHost h v => QUpdateHost (round_host h) v
  | QCreateJob j => QCreateJob (round_job j)
  | QMutateJob id f => QMutateJob id (λ j, j' ← f j; Ok (round_job j'))
  | QAppendAudit e => QAppendAudit (round_event e)
  | QCreateWorker w => QCreateWorker (round_worker w)
  | QCreateWorkerVersion v => QCreateWorkerVersion (round_version v)
  | QUpdateWorkerVersionProvider w v p n t => QUpdateWorkerVersionProvider w v p n (timestamptz t)
  | QPlanWorkerDeployment d w => QPlanWorkerDeployment (round_deployment d) (round_worker w)
  | QUpdateWorkerDeployment d st => QUpdateWorkerDeployment (round_deployment d) st
  | q => q
  end.

(** Listings agree up to the order of records created at the same time; the
    job a mutation returns has not been through the database. *)
Definition same_listing {A} (key : A → Z) (l l' : list A) : Prop := l ≡ₚ l' ∧ StronglySorted (key_le key) l.
Definition agrees (a b : reply) : Prop :=
  match a, b with
  | AHosts l, AHosts l' => same_listing h_CreatedAt l l'
  | AJobs l, AJobs l' => same_listing (λ j, - j_CreatedAt j) l l'
  | AWorkers l, AWorkers l' => same_listing w_CreatedAt l l'
  | AVersions l, AVersions l' => same_listing (λ v, - wv_CreatedAt v) l l'
  | ADeployments l, ADeployments l' => same_listing (λ d, - d_CreatedAt d) l l'
  | AMutated j, AMutated j' => j' = round_job j
  | a, b => a = b
  end.

Section refinement.
Context `{Jsonb} `{Codec (gmap string string)} `{Codec Persistence.HostKeyPin} `{Collation}.
Context `{Codec CredentialMetadata} `{Codec CloudflareTokenMetadata} `{Codec persistedJobParameters} `{Codec persistedJobResult}.
Context `{Codec (option (list (string * value)))}.
(** [jsonb] keeps the kind of a document. *)
Class JsonbLaws : Prop := jsonb_kind s t : jsonb s = Some t → json_object t = json_object s.
Context (i : string).

Definition answering {A} (f : A → reply) (m : M (result store_error A)) : M (result store_error reply) := r ← m; mret (with_reply f r).

Definition pg_run (q : request) : M (result store_error reply) :=
  match q with
  | QCreateHost h => answering (λ _, ADone) (pg_CreateHost i h)
  | QGetHost id => answering AHost (pg_GetHost i id)
  | QListHosts => answering AHosts (pg_ListHosts i)
  | QUpdateHost h v => answering (λ _, ADone) (pg_UpdateHost i h v)
  | QDeleteHost id => answering (λ _, ADone) (pg_DeleteHost i id)
  | QPutCredential c => answering (λ _, ADone) (pg_PutCredential i c)
  | QGetCredential id => answering ACredential (pg_GetCredential i id)
  | QDeleteCredential id => answering (λ _, ADone) (pg_DeleteCredential i id)
  | QCreateJob j => answering (λ _, ADone) (pg_CreateJob i j)
  | QGetJob id => answering AJob (pg_GetJob i id)
  | QListJobs => answering AJobs (pg_ListJobs i)
  | QMutateJob id f => answering AMutated (pg_MutateJob i id f)
  | QAppendAudit e => answering (λ _, ADone) (pg_AppendAudit i e)
  | QCreateWorker w => answering (λ _, ADone) (pg_CreateWorker i w)
  | QGetWorker id => answering AWorker (pg_GetWorker i id)
  | QListWorkers => answering AWorkers (pg_ListWorkers i)
  | QPutWorkerToken t => answering (λ _, ADone) (pg_PutWorkerToken i t)
  | QGetWorkerToken id => answering AToken (pg_GetWorkerToken i id)
  | QDeleteWorkerToken id => answering (λ _, ADone) (pg_DeleteWorkerToken i id)
  | QCreateWorkerVersion v => answering (λ _, ADone) (pg_CreateWorkerVersion i v)
  | QGetWorkerVersion w v => answering AVersion (pg_GetWorkerVersion i w v)
  | QListWorkerVersions w => answering AVersions (pg_ListWorkerVersions i w)
  | QUpdateWorkerVersionProvider w v p n t => answering (λ _, ADone) (pg_UpdateWorkerVersionProvider i w v p n t)
  | QPlanWorkerDeployment d w => answering (λ _, ADone) (pg_PlanWorkerDeployment i d w)
  | QGetWorkerDeployment w d => answering ADeployment (pg_GetWorkerDeployment i w d)
  | QListWorkerDeployments w => answering ADeployments (pg_ListWorkerDeployments i w)
  | QUpdateWorkerDeployment d st => answering (λ _, ADone) (pg_UpdateWorkerDeployment i d st)
  end.

(** ** Representation *)

(** The rows of the installation are the entries of a map. *)
Definition table_rep {R A} (dec : string → R → option A) (t : gmap (string * string) R) (mm : gmap string A) : Prop :=
  ∀ id, match t !! (i, id), mm !! id with
        | Some r, Some a => dec id r = Some a
        | None, None => True
        | _, _ => False
        end.

Definition ok_option {E A} (r : result E A) : option A := match r with Ok a => Some a | Err _ => None end.

Definition host_dec (id : string) (r : asset_row) : option Host := assetToHost <$> ok_option (scan_asset i id r).
Definition job_dec (id : string) (r : job_row) : option Job := ok_option (jobToModel (scan_job i id r)).
Definition worker_dec (id : string) (r : worker_row) : option CloudflareWorker := Some (persistenceToWorker (scan_worker i id r)).
Definition version_dec (id : string) (r : version_row) : option StoredCloudflareWorkerVersion :=
  Some (persistenceToWorkerVersion (scan_version i id r)).
Definition deployment_dec (id : string) (r : deployment_row) : option CloudflareDeployment :=
  Some (persistenceToWorkerDeployment (scan_deployment i id r)).

Definition credential_dec (id : string) (b : binding_row) (e : envelope_row) : option StoredCredential :=
  x ← unmarshal (er_metadata e);
  if (cm_ID x =? br_credential_id b) && (cm_HostID x =? id)
  then Some (mkStoredCredential x (persistenceToEnvelope (scan_envelope i (br_credential_id b) (br_credential_version b) e))) else None.
Definition token_dec (id : string) (b : binding_row) (e : envelope_row) : option StoredCloudflareToken :=
  x ← unmarshal (er_metadata e);
  if (tm_ID x =? br_credential_id b) && (tm_WorkerID x =? id)
  then Some (mkStoredCloudflareToken x (persistenceToEnvelope (scan_envelope i (br_credential_id b) (br_credential_version b) e))) else None.

(** The current secrets of a kind of scope. *)
Definition secret_rep {A} (scope : string) (dec : string → binding_row → envelope_row → option A) (d : database) (mm : gmap string A) : Prop :=
  ∀ id, match db_bindings d !! (i, scope, id), mm !! id with
        | Some b, Some a => ∃ e, db_envelopes d !! (i, br_credential_id b, br_credential_version b) = Some e ∧ dec id b e = Some a
        | None, None => True
        | _, _ => False
        end.

Definition own_events (d : database) : list audit_row := List.filter (λ r, ur_installation_id r =? i) (db_audit d).

Record represents (d : database) (m : Memory) : Prop := mkRepresents {
  rep_hosts : table_rep host_dec (db_assets d) (hosts m);
  rep_credentials : secret_rep SecretScopeHost credential_dec d (credentials m);
  rep_jobs : table_rep job_dec (db_jobs d) (jobs m);
  rep_audits : Forall2 (λ r e, event_of (scan_audit r) = Ok e) (own_events d) (audits m);
  rep_workers : table_rep worker_dec (db_workers d) (workers m);
  rep_tokens : secret_rep SecretScopeCloudflareWorker token_dec d (workerTokens m);
  rep_versions : table_rep version_dec (db_versions d) (workerVersions m);
  rep_deployments : table_rep deployment_dec (db_deployments d) (workerDeployments m);
}.

(** ** What the requests must satisfy *)

(** The JSON of a value survives its column: both the text that is written
    and the one that is read back decode to the value, and it is an object. *)
Definition json_kept {A} `{Codec A} (x : A) : Prop :=
  ∃ s, marshal x = Some s ∧ s ≠ "" ∧ unmarshal s = Some x ∧
    ∀ t, jsonb s = Some t → t ≠ "" ∧ t ≠ "null" ∧ unmarshal t = Some x.

Definition host_kept (h : Host) : Prop :=
  match h_Labels h with Some l => json_kept l | None => True end ∧
  match h_HostKey h with Some p => json_kept (pin_to_asset p) | None => True end.
Definition job_kept (j : Job) : Prop :=
  JobState_of (JobState_string (j_State j)) = j_State j ∧ match j_Error j with Some e => je_Code e ≠ "" | None => True end ∧
  json_kept (mkJobParameters (j_RequestedSessionID j) (j_Command j)) ∧
  json_kept (mkJobResult (j_Snapshot j) (j_CommandResult j) (j_AnomalyScan j) (j_RunbookPreview j) (j_RunbookExecution j)).

(** What a mutation may not change, because the statement does not write it. *)
Definition same_origin (j j' : Job) : Prop :=
  j_Type j' = j_Type j ∧ j_HostID j' = j_HostID j ∧ j_RequestedBy j' = j_RequestedBy j ∧ j_RequestedSessionID j' = j_RequestedSessionID j ∧
  j_Command j' = j_Command j ∧ timestamptz (j_CreatedAt j') = j_CreatedAt j.

(** No listing is cut off. *)
Definition fits {K A} `{Countable K} (t : gmap K A) : Prop := Z.of_nat (size t) ≤ MaxControlPlaneCollectionLen.
Definition within_limit (d : database) : Prop :=
  fits (db_assets d) ∧ fits (db_jobs d) ∧ fits (db_workers d) ∧ fits (db_versions d) ∧ fits (db_deployments d).

Definition admissible (m : Memory) (q : request) : Prop :=
  match q with
  | QCreateHost h => host_kept h
  | QUpdateHost h _ => host_kept h ∧ ∀ current, hosts m !! h_ID h = Some current → timestamptz (h_CreatedAt h) = h_CreatedAt current
  | QPutCredential c => json_kept (sc_Metadata c)
  | QPutWorkerToken t => json_kept (st_Metadata t)
  | QCreateJob j => job_kept j
  | QMutateJob id f => ∀ j j', jobs m !! id = Some j → f j = Ok j' → job_kept j' ∧ same_origin j j'
  | QAppendAudit e => json_kept (SanitizeDetails (ae_Details e))
  | QCreateWorkerVersion v => wv_ProviderVersionID (sv_Metadata v) = "" ∧ wv_ProviderVersionNumber (sv_Metadata v) = 0 ∧
                              wv_ProviderUploadedAt (sv_Metadata v) = None
  | QUpdateWorkerVersionProvider _ _ _ _ t => timestamptz t ≠ 0
  | QPlanWorkerDeployment d w =>
      d_ProviderVersionID d = "" ∧ d_ProviderDeploymentID d = "" ∧ d_ProviderState d = "" ∧ d_ErrorCode d = "" ∧
      d_StartedAt d = None ∧ d_FinishedAt d = None ∧ w_ID w = d_WorkerID d ∧
      ∀ current, workers m !! w_ID w = Some current →
        w_Name w = w_Name current ∧ w_AccountID w = w_AccountID current ∧ w_ScriptName w = w_ScriptName current ∧ timestamptz (w_CreatedAt w) = w_CreatedAt current
  | QUpdateWorkerDeployment d _ => timestamptz (d_CreatedAt d) = d_CreatedAt d
  | _ => True
  end.

(** ** Lemmas: representations *)

Section tables.
Context {R A : Type} (dec : string → R → option A).
Implicit Types t : gmap (string * string) R.
Implicit Types mm : gmap string A.

Lemma rep_Some t mm id r : table_rep dec t mm → t !! (i, id) = Some r → ∃ a, mm !! id = Some a ∧ dec id r = Some a.
Proof. intros Ht Hr. specialize (Ht id). rewrite Hr in Ht. destruct (mm !! id) as [a|]; [|done]. by exists a. Qed.
Lemma rep_None t mm id : table_rep dec t mm → t !! (i, id) = None → mm !! id = None.
Proof. intros Ht Hr. specialize (Ht id). rewrite Hr in Ht. by destruct (mm !! id). Qed.
Lemma rep_insert t mm id r a : table_rep dec t mm → dec id r = Some a → table_rep dec (<[(i, id) := r]> t) (<[id := a]> mm).
Proof.
  intros Ht Hd id'. destruct (decide (id' = id)) as [->|Hn]; [by rewrite !lookup_insert_eq|].
  rewrite !lookup_insert_ne by congruence. apply Ht.
Qed.
Lemma rep_delete t mm id : table_rep dec t mm → table_rep dec (delete (i, id) t) (delete id mm).
Proof.
  intros Ht id'. destruct (decide (id' = id)) as [->|Hn]; [by rewrite !lookup_delete_eq|].
  rewrite !lookup_delete_ne by congruence. apply Ht.
Qed.
End tables.

Lemma present_true {A} (o : option A) : present o = true → is_Some o.
Proof. destruct o; [eauto|done]. Qed.

Lemma insert_row_Ok {K A} `{Countable K} ty ch un re (k : K) (a : A) t t' :
  insert_row ty ch un re k a t = Ok t' → ty = true ∧ ch = true ∧ un = true ∧ t !! k = None ∧ re = true ∧ t' = <[k := a]> t.
Proof.
  unfold insert_row. intros E. ok_inv E. reflect_bools. split_and!; try done. by destruct (t !! k).
Qed.

Lemma update_row_Ok {K A} `{Countable K} ty (k : K) cond f check (t : gmap K A) t' n :
  update_row ty k cond f check t = Ok (t', n) →
  (n = 0 ∧ t' = t) ∨ (∃ a, t !! k = Some a ∧ cond a = true ∧ check (f a) = true ∧ t' = <[k := f a]> t ∧ n = 1).
Proof.
  unfold update_row. intros E. apply bind_Ok_inv in E as (? & _ & E). destruct (t !! k) as [a|] eqn:Ek; [|left; by simplify_eq].
  destruct (cond a) eqn:Ec; [|left; by simplify_eq]. apply bind_Ok_inv in E as (? & Hc%guard_ok_Ok & E). simplify_eq. right. by exists a.
Qed.

Lemma atomic_answering {A} (f : A → reply) m d (post : database → reply → Prop) :
  atomic m d (λ d' a, post d' (f a)) → atomic (answering f m) d post.
Proof.
  intros Hm fs. specialize (Hm fs). unfold answering, mbind, M_bind. destruct (m _) as [s [a|e]]; cbn; [done|].
  destruct Hm as [?|[a ?]]; [by left|right; eauto].
Qed.
Lemma atomic_mapped {A} (m : M (result Persistence.error A)) d post : atomic m d post → atomic (mapped m) d post.
Proof. intros Hm fs. specialize (Hm fs). unfold mapped, mbind, M_bind. by destruct (m _) as [s [a|e]]. Qed.
Lemma atomic_calling {A B} (m : M (result Persistence.error A)) (k : A → M (result store_error B)) d P post :
  reads m d P → (∀ a, P a → atomic (k a) d post) → atomic (calling m k) d post.
Proof.
  intros Hm Hk fs. specialize (Hm fs). unfold calling, mbind, M_bind. destruct (m _) as [[d' fs'] r]. cbn in Hm. destruct Hm as [-> Hr].
  destruct r as [a|e]; [by apply Hk|by left].
Qed.

Lemma reads_calling {A B} (m : M (result Persistence.error A)) (k : A → result store_error B) d (P : A → Prop) :
  reads m d P → reads (calling m (λ a, mret (k a))) d (λ b, ∃ a, P a ∧ k a = Ok b).
Proof.
  intros Hm fs. specialize (Hm fs). unfold calling, mbind, M_bind. destruct (m _) as [[d' fs'] r]. cbn in Hm. destruct Hm as [-> Hr].
  destruct r as [a|e]; cbn; [|done]. split; [done|]. destruct (k a) eqn:Ek; [by exists a|done].
Qed.

Lemma scan_all_Ok {A B} (scan : A → result Persistence.error B) l l' : scan_all scan l = Ok l' → Forall2 (λ a b, scan a = Ok b) l l'.
Proof.
  revert l'. induction l as [|x l IH]; intros l' E; cbn in E; [by simplify_eq|].
  apply bind_Ok_inv in E as (y & Hy & E). apply bind_Ok_inv in E as (ys & Hys & [= <-]). constructor; [done|]. by apply IH.
Qed.
Lemma map_results_Ok {A B E} (f : A → result E B) l l' : map_results f l = Ok l' → Forall2 (λ a b, f a = Ok b) l l'.
Proof.
  revert l'. induction l as [|x l IH]; intros l' Er; cbn in Er; [by simplify_eq|].
  apply bind_Ok_inv in Er as (y & Hy & Er). apply bind_Ok_inv in Er as (ys & Hys & [= <-]). constructor; [done|]. by apply IH.
Qed.

Lemma reads_query_all {A B} ps (f : database → list A) (scan : A → result Persistence.error B) l1 l2 d :
  reads (query_all ps f scan l1 l2) d (λ items, Forall2 (λ a b, scan a = Ok b) (f d) items).
Proof.
  apply reads_then. intros rows _ [= <-]. destruct (scan_all scan (f d)) as [items|e] eqn:Es; [|by apply reads_pure].
  apply (reads_then d _ _ _ []). intros _ _ _. apply reads_pure. intros a [= <-]. by apply scan_all_Ok.
Qed.

(** ** Lemmas: listings *)

Lemma filter_true {A} (l : list A) : List.filter (λ _, true) l = l.
Proof. induction l; cbn; congruence. Qed.

Lemma rows_of_elem {R} (j : string) (p : string → R → bool) (t : gmap (string * string) R) id r : (id, r) ∈ rows_of j p t ↔ t !! (j, id) = Some r ∧ p id r = true.
Proof.
  unfold rows_of. rewrite list_elem_of_omap. split.
  - intros ([[k1 k2] r'] & Hin & E). apply elem_of_map_to_list in Hin. cbn in E. destruct (_ && _) eqn:Eb; [|done]. simplify_eq.
    apply andb_true_iff in Eb as [->%String.eqb_eq ?]. done.
  - intros [Hl Hp]. exists ((j, id), r). split; [by apply elem_of_map_to_list|]. cbn. by rewrite String.eqb_refl, Hp.
Qed.

Lemma rows_of_NoDup {R} (j : string) (p : string → R → bool) (t : gmap (string * string) R) : NoDup (rows_of j p t).*1.
Proof.
  unfold rows_of. pose proof (NoDup_fst_map_to_list t) as Hd. revert Hd. generalize (map_to_list t). intros l.
  induction l as [|[[k1 k2] r] l IH]; cbn; [constructor|]. intros [Hn Hd]%NoDup_cons. specialize (IH Hd).
  destruct (_ && _) eqn:Eb; [|done]. apply andb_true_iff in Eb as [->%String.eqb_eq _]. cbn. constructor; [|done].
  intros ([id r'] & E & Hin)%list_elem_of_fmap. cbn in E. subst id. apply Hn. apply list_elem_of_omap in Hin as ([[k1' k2'] r''] & Hin & E).
  cbn in E. destruct (_ && _) eqn:Eb; [|done]. simplify_eq. apply andb_true_iff in Eb as [->%String.eqb_eq _].
  by apply (list_elem_of_fmap_2 fst) in Hin.
Qed.

Lemma rows_of_length {R} (j : string) (p : string → R → bool) (t : gmap (string * string) R) : (length (rows_of j p t) ≤ size t)%nat.
Proof.
  unfold rows_of. rewrite <-length_map_to_list. generalize (map_to_list t). intros l. induction l as [|kv l IH]; cbn; [done|].
  destruct (_ && _); cbn; lia.
Qed.

Lemma StronglySorted_Forall2 {A B} (R : relation A) (S : relation B) (Rel : A → B → Prop) l l' :
  (∀ x y a b, Rel x a → Rel y b → R x y → S a b) → Forall2 Rel l l' → StronglySorted R l → StronglySorted S l'.
Proof.
  intros Hrel HF. induction HF as [|x a l l' Hx Hl IH]; intros Hs; [constructor|]. apply StronglySorted_inv in Hs as [Hs Hall].
  constructor; [by apply IH|]. clear IH Hs. induction Hl as [|y b l l' Hy Hl IH]; [done|]. apply Forall_cons in Hall as [Hxy Hall].
  constructor; [by eapply Hrel|by apply IH].
Qed.

Lemma listing_rep {R A} (dec : string → R → option A) (t : gmap (string * string) R) (mm : gmap string A) (p : string → R → bool) (q : A → bool)
    (le : relation (string * R)) `{!RelDecision le, !Transitive le, !Total le} (key : A → Z) l :
  table_rep dec t mm → fits t → (∀ id r a, dec id r = Some a → p id r = q a) →
  (∀ x y a b, dec x.1 x.2 = Some a → dec y.1 y.2 = Some b → le x y → key a ≤ key b) →
  Forall2 (λ r a, dec r.1 r.2 = Some a) (ordered le MaxControlPlaneCollectionLen (rows_of i p t)) l →
  same_listing key l (List.filter q (map_to_list mm).*2).
Proof.
  intros Ht Hf Hpq Hkey HF. unfold ordered in HF. rewrite take_ge in HF.
  2: { rewrite merge_sort_Permutation. pose proof (rows_of_length i p t). unfold fits in Hf. lia. }
  split; [|by eapply StronglySorted_Forall2; [|exact HF|apply StronglySorted_merge_sort; apply _]].
  set (rows := merge_sort le (rows_of i p t)) in *. assert (NoDup rows.*1) as Hnd by (unfold rows; rewrite merge_sort_Permutation; apply rows_of_NoDup).
  assert (∀ id r, (id, r) ∈ rows ↔ t !! (i, id) = Some r ∧ p id r = true) as Hel
    by (intros id r; unfold rows; rewrite merge_sort_Permutation; apply rows_of_elem).
  assert (zip rows.*1 l ≡ₚ List.filter (λ kv, q kv.2) (map_to_list mm)) as HP.
  { apply NoDup_Permutation.
    - eapply NoDup_fmap_1 with (f := fst). rewrite fst_zip; [done|]. rewrite length_fmap. by rewrite (Forall2_length _ _ _ HF).
    - apply NoDup_ListNoDup, List.NoDup_filter, NoDup_ListNoDup, NoDup_map_to_list.
    - intros [id a]. rewrite (list_elem_of_In (List.filter _ _) (id, a)), filter_In, <-list_elem_of_In, elem_of_map_to_list. cbn. split.
      + intros Hin. apply list_elem_of_lookup in Hin as [n Hn]. apply lookup_zip_Some in Hn as [Hid Ha].
        apply list_lookup_fmap_Some in Hid as ([id' r] & -> & Hr). pose proof (Forall2_lookup_lr _ _ _ _ _ _ HF Hr Ha) as Hdec. cbn in Hdec.
        apply list_elem_of_lookup_2, Hel in Hr as [Hr Hp]. cbn in *. destruct (rep_Some _ _ _ _ _ Ht Hr) as (b & Hb & Hd).
        rewrite Hd in Hdec. simplify_eq. split; [done|]. by rewrite <-(Hpq _ _ _ Hd).
      + intros [Ha Hq]. specialize (Ht id) as Hti. rewrite Ha in Hti. destruct (t !! (i, id)) as [r|] eqn:Er; [|done].
        assert ((id, r) ∈ rows) as Hr by (apply Hel; split; [done|by rewrite (Hpq _ _ _ Hti)]).
        apply list_elem_of_lookup in Hr as [n Hn]. destruct (Forall2_lookup_l _ _ _ _ _ HF Hn) as (b & Hb & Hd). cbn in Hd.
        rewrite Hti in Hd. simplify_eq. apply list_elem_of_lookup. exists n. apply lookup_zip_Some. split; [|done].
        by apply list_lookup_fmap_Some; exists (id, r). }
  apply (fmap_Permutation snd) in HP. rewrite snd_zip in HP by (rewrite length_fmap; by rewrite (Forall2_length _ _ _ HF)). rewrite HP.
  clear. induction (map_to_list mm) as [|kv L IH]; [done|]. cbn. destruct (q kv.2); cbn; by rewrite ?IH.
Qed.

(** What one operation must show. *)
Definition refined (m : Memory) (q : request) (d : database) : Prop :=
  atomic (pg_run q) d (λ d' r, ∃ m' r', mem_run m (rounded q) = (m', Ok r') ∧ represents d' m' ∧ agrees r r').

(** ** Lemmas: hosts *)

Lemma jsonb_option_Some o t : jsonb_option o = Some t → match o, t with None, None => True | Some s, Some t => jsonb s = Some t | _, _ => False end.
Proof. unfold jsonb_option. destruct o as [s|]; [|by intros [= <-]]. by intros (x & Hx & ->)%fmap_Some. Qed.

Lemma pin_round p : pin_to_host (pin_to_asset p) = p.
Proof. by destruct p. Qed.

Lemma host_decodes `{!JsonbLaws} h row :
  host_kept h → asset_columns (hostToAsset i h) = Some row → asset_check row = true → host_dec (h_ID h) row = Some (round_host h).
Proof.
  intros [Hl Hp] Hc Hk. unfold asset_columns in Hc. apply bind_Some in Hc as (labels & El & Hc). apply bind_Some in Hc as (pin & Ep & [= <-]).
  assert (json_object labels = true) as Hobj by (unfold asset_check in Hk; cbn in Hk; reflect_bools; done). clear Hk.
  cbn in El, Ep. rewrite (jsonb_kind _ _ El) in Hobj. destruct (h_Labels h) as [l|] eqn:Ehl; [|by vm_compute in Hobj].
  destruct Hl as (s & Es & _ & _ & Hs). cbn in El. rewrite Es in El. destruct (Hs _ El) as (_ & Hnn & Hu).
  assert (decodeAssetJSON labels pin = Ok (Some l, pin_to_asset <$> h_HostKey h)) as Hd.
  { unfold decodeAssetJSON, labels_of. rewrite (proj2 (String.eqb_neq labels "null") Hnn), Hu. cbn. apply jsonb_option_Some in Ep.
    destruct (h_HostKey h) as [p|] eqn:Ehk; cbn in Ep; [|by destruct pin]. destruct pin as [pin|]; [|done].
    destruct Hp as (s' & Es' & _ & _ & Hs'). rewrite Es' in Ep. destruct (Hs' _ Ep) as (Hne & Hnn' & Hu').
    rewrite (proj2 (String.eqb_neq pin "null") Hnn'), orb_false_r. destruct (slen pin =? 0)%Z eqn:E0; [|by rewrite Hu'].
    destruct pin; [done|]. apply Z.eqb_eq in E0. unfold slen in E0. cbn in E0. lia. }
  unfold host_dec, scan_asset. cbn [ar_labels ar_host_key]. rewrite Hd. cbn. f_equal. unfold assetToHost, round_host. cbn. f_equal; [done|].
  destruct (h_HostKey h); cbn; [|done]. by rewrite pin_round.
Qed.

Lemma refined_CreateHost `{!JsonbLaws} m d h : represents d m → admissible m (QCreateHost h) → refined m (QCreateHost h) d.
Proof.
  intros Hr Ha. apply atomic_answering, atomic_mapped, atomic_checked. intros _. apply atomic_stmt. intros d' [] Hop.
  apply bind_Ok_inv in Hop as (row & Hc%of_option_Ok & Hop). apply bind_Ok_inv in Hop as (t & Hi%insert_row_Ok & [= <-]).
  destruct Hi as (_ & Hk & _ & Hn & _ & ->). cbn in Hn. exists (with_hosts m (<[h_ID h := round_host h]> (hosts m))), ADone. split_and!; [|..|done].
  - cbn. unfold CreateHost. cbn. by rewrite (rep_None _ _ _ _ (rep_hosts _ _ Hr) Hn), cloneHost_id.
  - destruct Hr. constructor; try done. apply rep_insert; [done|]. by apply host_decodes.
Qed.

Lemma refined_reads {A} (f : A → reply) (inner : M (result store_error A)) (Q : A → Prop) m q d :
  pg_run q = answering f inner → represents d m → reads inner d Q →
  (∀ a, Q a → ∃ r', mem_run m (rounded q) = (m, Ok r') ∧ agrees (f a) r') → refined m q d.
Proof.
  intros Eq Hr Hi Hq. unfold refined. rewrite Eq. apply atomic_answering. eapply atomic_conseq; [by apply reads_atomic|].
  intros d' a [-> Ha]. destruct (Hq a Ha) as (r' & ? & ?). exists m, r'. done.
Qed.

Lemma reads_GetAsset id d :
  reads (Postgres.GetAsset i id) d (λ a, ∃ row, db_assets d !! (i, id) = Some row ∧ scan_asset i id row = Ok a).
Proof.
  apply reads_checked. intros _. apply reads_checked. intros _. apply reads_then. intros row _ Hrow%of_option_Ok.
  apply reads_pure. intros a Ha. by exists row.
Qed.

Lemma refined_GetHost m d id : represents d m → refined m (QGetHost id) d.
Proof.
  intros Hr. eapply (refined_reads AHost); [done|done|eapply (reads_calling _ (λ a, Ok (assetToHost a))), reads_GetAsset|].
  intros b (a & (row & Hrow & Hs) & [= <-]). destruct (rep_Some _ _ _ _ _ (rep_hosts _ _ Hr) Hrow) as (h & Hh & Hd).
  unfold host_dec in Hd. rewrite Hs in Hd. cbn in Hd. simplify_eq. eexists. split; [|done]. cbn. unfold GetHost. by rewrite Hh, cloneHost_id.
Qed.

#[local] Instance by_created_trans {R} (created : R → time) : Transitive (by_created created).
Proof. intros x y z. unfold by_created. intros [?|[? ?]] [?|[? ?]]; [left; lia..|right]. split; [congruence|by etrans]. Qed.
#[local] Instance by_created_total {R} (created : R → time) : Total (by_created created).
Proof.
  intros x y. unfold by_created. destruct (Z.lt_trichotomy (created x.2) (created y.2)) as [?|[E|?]]; [auto| |auto].
  destruct (total text_le x.1 y.1); auto.
Qed.
#[local] Instance by_created_desc_trans {R} (created : R → time) : Transitive (by_created_desc created).
Proof. intros x y z. unfold by_created_desc. intros. by etrans. Qed.
#[local] Instance by_created_desc_total {R} (created : R → time) : Total (by_created_desc created).
Proof. intros x y. unfold by_created_desc. apply (total (by_created created)). Qed.

Lemma by_created_key {R} (created : R → time) x y : by_created created x y → created x.2 ≤ created y.2.
Proof. intros [?|[? _]]; lia. Qed.

Lemma host_dec_Some id r h : host_dec id r = Some h → ∃ a, scan_asset i id r = Ok a ∧ h = assetToHost a.
Proof. unfold host_dec. destruct (scan_asset i id r) as [a|]; [|done]. intros [= <-]. by exists a. Qed.
Lemma host_dec_created id r h : host_dec id r = Some h → h_CreatedAt h = ar_created_at r.
Proof. intros (a & Hs & ->)%host_dec_Some. unfold scan_asset in Hs. apply bind_Ok_inv in Hs as ([] & _ & [= <-]). done. Qed.

Lemma refined_ListHosts m d : represents d m → within_limit d → refined m QListHosts d.
Proof.
  intros Hr Hl. eapply (refined_reads AHosts); [done|done|eapply (reads_calling _ (λ l, Ok (map assetToHost l))); apply reads_checked|].
  { intros _. apply reads_query_all. }
  intros b (l & HF & [= <-]). eexists. split; [done|]. cbn. unfold ListHosts. rewrite map_same by apply cloneHost_id.
  destruct (listing_rep host_dec (db_assets d) (hosts m) (λ _ _, true) (λ _, true) (by_created ar_created_at) h_CreatedAt (map assetToHost l))
    as [HP HS].
  - apply Hr.
  - apply Hl.
  - done.
  - intros x y a b Ha Hb Hxy%by_created_key. by rewrite (host_dec_created _ _ _ Ha), (host_dec_created _ _ _ Hb).
  - apply Forall2_fmap_r. eapply Forall2_impl; [exact HF|]. intros r a Ha. unfold host_dec. by rewrite Ha.
  - split; [|done]. unfold sort_by. rewrite HP, merge_sort_Permutation. by rewrite filter_true.
Qed.

Lemma host_dec_version id r h : host_dec id r = Some h → h_Version h = ar_version r.
Proof. intros (a & Hs & ->)%host_dec_Some. unfold scan_asset in Hs. apply bind_Ok_inv in Hs as ([] & _ & [= <-]). done. Qed.

Lemma refined_UpdateHost `{!JsonbLaws} m d h v : represents d m → admissible m (QUpdateHost h v) → refined m (QUpdateHost h v) d.
Proof.
  intros Hr [Hk Hc]. apply atomic_answering, atomic_mapped, atomic_checked. intros _. case_match; [apply atomic_err|]. apply atomic_stmt.
  intros d' n Hop. apply bind_Ok_inv in Hop as (row & Hrow%of_option_Ok & Hop). apply bind_Ok_inv in Hop as ([t n'] & Hu & [= <- ->]).
  apply update_row_Ok in Hu as [[-> ->]|(old & Hold & Hv & Hck & -> & ->)]; [by destruct d|]. cbn in Hold. apply Z.eqb_eq in Hv.
  destruct (rep_Some _ _ _ _ _ (rep_hosts _ _ Hr) Hold) as (current & Hcur & Hdec).
  assert (ar_created_at old = ar_created_at row) as Hcr.
  { rewrite <-(host_dec_created _ _ _ Hdec), <-(Hc _ Hcur). unfold asset_columns in Hrow.
    apply bind_Some in Hrow as (? & _ & Hrow). by apply bind_Some in Hrow as (? & _ & [= <-]). }
  rewrite Hcr in Hck |- *. assert (row = mkAssetRow (ar_name row) (ar_address row) (ar_port row) (ar_username row) (ar_labels row) (ar_host_key row)
    (ar_version row) (ar_created_at row) (ar_updated_at row)) as Erow by (by destruct row). rewrite <-Erow in Hck |- *.
  exists (with_hosts m (<[h_ID h := round_host h]> (hosts m))), ADone. split_and!; [|..|done].
  - cbn. unfold UpdateHost. cbn. rewrite Hcur, (host_dec_version _ _ _ Hdec), Hv, Z.eqb_refl. cbn. by rewrite cloneHost_id.
  - destruct Hr. constructor; try done. apply rep_insert; [done|]. by apply host_decodes.
Qed.

(** ** Lemmas: secrets *)

Lemma secret_keeps {A} scope dec d d' (mm : gmap string A) :
  secret_rep scope dec d mm → db_bindings d' = db_bindings d → (∀ k e, db_envelopes d !! k = Some e → db_envelopes d' !! k = Some e) →
  secret_rep scope dec d' mm.
Proof.
  intros Hs Eb He id. specialize (Hs id). rewrite Eb. destruct (db_bindings d !! _) as [b|], (mm !! id) as [a|]; try done.
  destruct Hs as (e & ? & ?). eauto.
Qed.

(** Removing the secret of a scope. *)
Lemma secret_delete {A} scope dec d (mm : gmap string A) id :
  secret_rep scope dec d mm → secret_rep scope dec (set_db_bindings d (delete (i, scope, id) (db_bindings d))) (delete id mm).
Proof.
  intros Hs id'. cbn. destruct (decide (id' = id)) as [->|Hn]; [by rewrite !lookup_delete_eq|].
  rewrite !lookup_delete_ne by congruence. apply Hs.
Qed.
Lemma secret_delete_other {A} scope scope' dec d (mm : gmap string A) id :
  scope ≠ scope' → secret_rep scope dec d mm → secret_rep scope dec (set_db_bindings d (delete (i, scope', id) (db_bindings d))) mm.
Proof. intros Hn Hs id'. cbn. rewrite lookup_delete_ne by congruence. apply Hs. Qed.

Lemma atomic_DeleteCurrentSecret scope id d :
  atomic (DeleteCurrentSecret i scope id) d
    (λ d' _, is_Some (db_bindings d !! (i, scope, id)) ∧ d' = set_db_bindings d (delete (i, scope, id) (db_bindings d))).
Proof.
  apply atomic_stmt. intros d' n Hop. apply bind_Ok_inv in Hop as (? & _ & Hop). cbv zeta in Hop.
  destruct (present _) eqn:Ep; simplify_eq; [|done]. split; [by apply present_true|done].
Qed.

Lemma secret_present {A} scope dec d (mm : gmap string A) id : secret_rep scope dec d mm → is_Some (db_bindings d !! (i, scope, id)) → is_Some (mm !! id).
Proof. intros Hs [b Hb]. specialize (Hs id). rewrite Hb in Hs. by destruct (mm !! id). Qed.

Lemma deleted_credential d m id :
  represents d m → represents (set_db_bindings d (delete (i, SecretScopeHost, id) (db_bindings d))) (with_credentials m (delete id (credentials m))).
Proof. intros []. constructor; try done; [by apply secret_delete|by apply secret_delete_other]. Qed.
Lemma deleted_token d m id :
  represents d m →
  represents (set_db_bindings d (delete (i, SecretScopeCloudflareWorker, id) (db_bindings d))) (with_workerTokens m (delete id (workerTokens m))).
Proof. intros []. constructor; try done; [by apply secret_delete_other|by apply secret_delete]. Qed.

Lemma refined_DeleteCredential m d id : represents d m → refined m (QDeleteCredential id) d.
Proof.
  intros Hr. apply atomic_answering, atomic_mapped. eapply atomic_conseq; [apply atomic_DeleteCurrentSecret|]. intros d' [] [Hb ->].
  exists (with_credentials m (delete id (credentials m))), ADone. split_and!; [|by apply deleted_credential|done]. cbn. unfold DeleteCredential.
  by destruct (secret_present _ _ _ _ _ (rep_credentials _ _ Hr) Hb) as [? ->].
Qed.
Lemma refined_DeleteWorkerToken m d id : represents d m → refined m (QDeleteWorkerToken id) d.
Proof.
  intros Hr. apply atomic_answering, atomic_mapped. eapply atomic_conseq; [apply atomic_DeleteCurrentSecret|]. intros d' [] [Hb ->].
  exists (with_workerTokens m (delete id (workerTokens m))), ADone. split_and!; [|by apply deleted_token|done]. cbn. unfold DeleteWorkerToken.
  by destruct (secret_present _ _ _ _ _ (rep_tokens _ _ Hr) Hb) as [? ->].
Qed.

Lemma reads_GetCurrentSecret scope id d :
  reads (GetCurrentSecret i scope id) d (λ s, ∃ b e, db_bindings d !! (i, scope, id) = Some b ∧
    db_envelopes d !! (i, br_credential_id b, br_credential_version b) = Some e ∧
    s = mkSecretBinding i scope id (br_credential_id b) (br_credential_version b) (scan_envelope i (br_credential_id b) (br_credential_version b) e)).
Proof.
  apply reads_then. intros [b e] _ Hq. apply bind_Ok_inv in Hq as (b' & Hb%of_option_Ok & Hq).
  apply bind_Ok_inv in Hq as (e' & He%of_option_Ok & [= -> ->]). apply reads_pure. intros s [= <-]. by exists b, e.
Qed.

Lemma refined_GetCredential m d id : represents d m → refined m (QGetCredential id) d.
Proof.
  intros Hr. eapply (refined_reads ACredential); [done|done|eapply reads_calling, reads_GetCurrentSecret|].
  intros c (s & (b & e & Hb & He & ->) & Hc). pose proof (rep_credentials _ _ Hr id) as Hs. rewrite Hb in Hs.
  destruct (credentials m !! id) as [c'|] eqn:Ec; [|done]. destruct Hs as (e' & He' & Hd). rewrite He' in He. simplify_eq.
  eexists. split; [|done]. cbn. unfold GetCredential. rewrite Ec, cloneCredential_id. cbn. do 3 f_equal.
  unfold credential_dec in Hd. apply bind_Some in Hd as (x & Hx & Hd). cbn in Hc. rewrite Hx in Hc.
  destruct (cm_ID x =? _), (cm_HostID x =? _); cbn in *; by simplify_eq.
Qed.
Lemma refined_GetWorkerToken m d id : represents d m → refined m (QGetWorkerToken id) d.
Proof.
  intros Hr. eapply (refined_reads AToken); [done|done|eapply reads_calling, reads_GetCurrentSecret|].
  intros c (s & (b & e & Hb & He & ->) & Hc). pose proof (rep_tokens _ _ Hr id) as Hs. rewrite Hb in Hs.
  destruct (workerTokens m !! id) as [c'|] eqn:Ec; [|done]. destruct Hs as (e' & He' & Hd). rewrite He' in He. simplify_eq.
  eexists. split; [|done]. cbn. unfold GetWorkerToken. rewrite Ec, cloneWorkerToken_id. cbn. do 3 f_equal.
  unfold token_dec in Hd. apply bind_Some in Hd as (x & Hx & Hd). cbn in Hc. rewrite Hx in Hc.
  destruct (tm_ID x =? _), (tm_WorkerID x =? _); cbn in *; by simplify_eq.
Qed.

(** The database after a secret was put. *)
Definition with_secret (d : database) (s : SecretBinding) (row : envelope_row) : database :=
  let d := set_db_envelopes d (<[(sb_InstallationID s, sb_CredentialID s, sb_Version s) := row]> (db_envelopes d)) in
  set_db_bindings d (<[(sb_InstallationID s, sb_ScopeType s, sb_ScopeID s) :=
    mkBindingRow (sb_CredentialID s) (sb_Version s) (timestamptz (c_CreatedAt (sb_Envelope s)))]> (db_bindings d)).

Lemma atomic_PutCurrentSecret s d :
  atomic (PutCurrentSecret s) d (λ d' _, scope_exists s d = true ∧ ∃ row, envelope_columns (sb_Envelope s) = Some row ∧
    db_envelopes d !! (sb_InstallationID s, sb_CredentialID s, sb_Version s) = None ∧ d' = with_secret d s row).
Proof.
  apply atomic_checked. intros Hv. unfold validateSecretBinding in Hv. ok_inv Hv. reflect_bools.
  apply atomic_transaction. unfold verifySecretScope. apply body_query. intros found _ [= <-].
  destruct (scope_exists s d) eqn:Es; [|by apply body_pure]. cbn [negb]. apply body_stmt. intros d1 [] Hop1.
  unfold insert_envelope in Hop1. apply bind_Ok_inv in Hop1 as (row & Hrow%of_option_Ok & Hop1).
  apply bind_Ok_inv in Hop1 as (t & Hi%insert_row_Ok & [= <-]). destruct Hi as (_ & _ & _ & Hn & _ & ->).
  apply body_stmt. intros d2 [] Hop2. unfold upsert_binding in Hop2. ok_inv Hop2. simplify_eq. apply body_pure. intros [] _. split; [done|].
  exists row. split_and!; [done|congruence|]. unfold with_secret, set_db_bindings, set_db_envelopes. cbn. congruence.
Qed.

(** The secret that was put is the one of its scope; the others stay. *)
Lemma secret_put {A} dec d (mm : gmap string A) s row a :
  secret_rep (sb_ScopeType s) dec d mm → sb_InstallationID s = i → db_envelopes d !! (i, sb_CredentialID s, sb_Version s) = None →
  dec (sb_ScopeID s) (mkBindingRow (sb_CredentialID s) (sb_Version s) (timestamptz (c_CreatedAt (sb_Envelope s)))) row = Some a →
  secret_rep (sb_ScopeType s) dec (with_secret d s row) (<[sb_ScopeID s := a]> mm).
Proof.
  intros Hs Ei Hn Hd id. cbn. rewrite Ei. destruct (decide (id = sb_ScopeID s)) as [->|Hid].
  - rewrite !lookup_insert_eq. by exists row.
  - rewrite !lookup_insert_ne by congruence. specialize (Hs id). destruct (db_bindings d !! _) as [b|], (mm !! id) as [x|]; try done.
    destruct Hs as (e & He & ?). exists e. split; [|done]. rewrite lookup_insert_ne; [done|]. congruence.
Qed.
Lemma secret_put_other {A} scope dec d (mm : gmap string A) s row :
  scope ≠ sb_ScopeType s → secret_rep scope dec d mm → sb_InstallationID s = i →
  db_envelopes d !! (i, sb_CredentialID s, sb_Version s) = None → secret_rep scope dec (with_secret d s row) mm.
Proof.
  intros Hne Hs Ei Hn id. cbn. rewrite Ei. rewrite lookup_insert_ne by congruence. specialize (Hs id).
  destruct (db_bindings d !! _) as [b|], (mm !! id) as [x|]; try done. destruct Hs as (e & He & ?). exists e. split; [|done].
  rewrite lookup_insert_ne; [done|]. congruence.
Qed.

Lemma envelope_copies (e : Envelope) : mkEnvelope (copy_bytes (Ciphertext e)) (copy_bytes (Nonce e)) (copy_bytes (WrappedKey e))
  (copy_bytes (KeyNonce e)) (env_KeyID e) = e.
Proof. by destruct e. Qed.

(** The metadata of a secret that was put is read back. *)
Lemma metadata_kept {A} `{Codec A} (x : A) metadata scope owner credential kind e created row :
  json_kept x → marshal x = Some metadata → envelope_columns (sb_Envelope (secret_of i scope owner credential kind metadata e created)) = Some row →
  unmarshal (er_metadata row) = Some x ∧ persistenceToEnvelope (scan_envelope i credential 1 row) = e.
Proof.
  intros (s & Es & Hne & _ & Hs) Em Hc. assert (s = metadata) as -> by congruence. unfold envelope_columns in Hc.
  apply bind_Some in Hc as (t & Ht & [= <-]). cbn in Ht. unfold normalizedJSON in Ht. destruct (slen metadata =? 0)%Z eqn:E0.
  { destruct metadata; [done|]. apply Z.eqb_eq in E0. unfold slen in E0. cbn in E0. lia. }
  cbn. destruct (Hs _ Ht) as (_ & _ & ->). split; [done|]. apply envelope_copies.
Qed.

Lemma refined_PutCredential m d c : represents d m → admissible m (QPutCredential c) → refined m (QPutCredential c) d.
Proof.
  intros Hr Ha. apply atomic_answering. unfold pg_PutCredential. destruct (marshal (sc_Metadata c)) as [metadata|] eqn:Em; [|apply atomic_err].
  apply atomic_mapped. eapply atomic_conseq; [apply atomic_PutCurrentSecret|]. intros d' [] (Hx & row & Hrow & Hn & ->).
  destruct (metadata_kept _ _ _ _ _ _ _ _ _ Ha Em Hrow) as [Hu He].
  exists (with_credentials m (<[cm_HostID (sc_Metadata c) := c]> (credentials m))), ADone. split_and!; [|..|done].
  - cbn. unfold PutCredential. cbn in Hx. apply present_true in Hx as [r Hx].
    destruct (rep_Some _ _ _ _ _ (rep_hosts _ _ Hr) Hx) as (h & -> & _). by rewrite cloneCredential_id.
  - destruct Hr. constructor; try done.
    + apply (secret_put credential_dec); [done..|]. unfold credential_dec. cbn. rewrite Hu. cbn. rewrite !String.eqb_refl. cbn. rewrite He. by destruct c.
    + by apply secret_put_other.
Qed.
Lemma refined_PutWorkerToken m d t : represents d m → admissible m (QPutWorkerToken t) → refined m (QPutWorkerToken t) d.
Proof.
  intros Hr Ha. apply atomic_answering. unfold pg_PutWorkerToken. destruct (marshal (st_Metadata t)) as [metadata|] eqn:Em; [|apply atomic_err].
  apply atomic_mapped. eapply atomic_conseq; [apply atomic_PutCurrentSecret|]. intros d' [] (Hx & row & Hrow & Hn & ->).
  destruct (metadata_kept _ _ _ _ _ _ _ _ _ Ha Em Hrow) as [Hu He].
  exists (with_workerTokens m (<[tm_WorkerID (st_Metadata t) := t]> (workerTokens m))), ADone. split_and!; [|..|done].
  - cbn. unfold PutWorkerToken. cbn in Hx. apply present_true in Hx as [r Hx].
    destruct (rep_Some _ _ _ _ _ (rep_workers _ _ Hr) Hx) as (h & -> & _). by rewrite cloneWorkerToken_id.
  - destruct Hr. constructor; try done.
    + by apply secret_put_other.
    + apply (secret_put token_dec); [done..|]. unfold token_dec. cbn. rewrite Hu. cbn. rewrite !String.eqb_refl. cbn. rewrite He. by destruct t.
Qed.

(** ** Lemmas: jobs *)

Lemma orEmpty_nullString v : orEmpty (nullString v) = v.
Proof. unfold nullString. by destruct (String.eqb_spec v "") as [->|]. Qed.

Lemma normalizedJSON_text s : s ≠ "" → normalizedJSON s = s.
Proof.
  intros Hn. unfold normalizedJSON. destruct (slen s =? 0)%Z eqn:E; [|done]. destruct s; [done|]. apply Z.eqb_eq in E. unfold slen in E. cbn in E. lia.
Qed.

Lemma job_error (e : option JobError) : match e with Some e => je_Code e ≠ "" | None => True end →
  (if (match e with Some e => je_Code e | None => "" end) ≠? ""
   then Some (mkJobError (match e with Some e => je_Code e | None => "" end) (match e with Some e => je_Message e | None => "" end)) else None) = e.
Proof. destruct e as [[c msg]|]; cbn; [|done]. intros Hc. by rewrite (proj2 (String.eqb_neq c "") Hc). Qed.

Lemma modelToJob_Ok j p :
  job_kept j → modelToJob i j = Ok p →
  jobToModel p = Ok j ∧ Persistence.j_ID p = j_ID j ∧ j_InstallationID p = i ∧ Persistence.j_State p = JobState_string (j_State j) ∧
  j_ErrorCode p = (match j_Error j with Some e => je_Code e | None => "" end) ∧
  j_ErrorMessage p = (match j_Error j with Some e => je_Message e | None => "" end) ∧ Persistence.j_Version p = j_Version j ∧
  Persistence.j_CreatedAt p = j_CreatedAt j ∧ Persistence.j_StartedAt p = j_StartedAt j ∧ Persistence.j_FinishedAt p = j_FinishedAt j ∧
  Persistence.j_Type p = j_Type j ∧ j_AssetID p = j_HostID j ∧ Persistence.j_RequestedBy p = j_RequestedBy j ∧
  (∀ t, jsonb (normalizedJSON (j_Parameters p)) = Some t → unmarshal t = Some (mkJobParameters (j_RequestedSessionID j) (j_Command j))) ∧
  (∀ t, jsonb (normalizedJSON (j_Result p)) = Some t →
     unmarshal t = Some (mkJobResult (j_Snapshot j) (j_CommandResult j) (j_AnomalyScan j) (j_RunbookPreview j) (j_RunbookExecution j))).
Proof.
  intros (Hst & He & (s1 & E1 & N1 & U1 & K1) & (s2 & E2 & N2 & U2 & K2)) Hm. unfold modelToJob in Hm.
  apply bind_Ok_inv in Hm as (x1 & Hx1%of_option_Ok & Hm). apply bind_Ok_inv in Hm as (x2 & Hx2%of_option_Ok & Hm). simplify_eq. cbn.
  split_and!; try done.
  - unfold jobToModel. cbn. rewrite U1, U2. cbn. rewrite Hst, (job_error _ He). by destruct j.
  - intros t Ht. rewrite normalizedJSON_text in Ht by done. by apply K1.
  - intros t Ht. rewrite normalizedJSON_text in Ht by done. by apply K2.
Qed.

Lemma job_decodes j p row :
  job_kept j → modelToJob i j = Ok p → job_columns p = Some row → job_dec (j_ID j) row = Some (round_job j).
Proof.
  intros Hk Hm Hc. pose proof Hk as (Hst & He & _). destruct (modelToJob_Ok _ _ Hk Hm) as (_ & E1 & E2 & E3 & E4 & E5 & E6 & E7 & E8 & E9 & E10 & E11 & E12 & K1 & K2).
  unfold job_columns in Hc. apply bind_Some in Hc as (t1 & H1' & Hc). apply bind_Some in Hc as (t2 & H2' & [= <-]).
  unfold job_dec, jobToModel, scan_job. cbn. rewrite (K1 _ H1'), (K2 _ H2'). cbn. rewrite !orEmpty_nullString, E3, E4, E5, Hst, (job_error _ He).
  unfold round_job. by rewrite E6, E7, E8, E9, E10, E11, E12.
Qed.

Lemma refined_CreateJob m d j : represents d m → admissible m (QCreateJob j) → refined m (QCreateJob j) d.
Proof.
  intros Hr Hk. apply atomic_answering. unfold pg_CreateJob. destruct (modelToJob i j) as [p|] eqn:Em; [|apply atomic_err].
  apply atomic_mapped, atomic_checked. intros _. apply atomic_stmt. intros d' [] Hop.
  apply bind_Ok_inv in Hop as (row & Hc%of_option_Ok & Hop). apply bind_Ok_inv in Hop as (t & Hi%insert_row_Ok & [= <-]).
  destruct Hi as (_ & _ & _ & Hn & _ & ->). destruct (modelToJob_Ok _ _ Hk Em) as (_ & E1 & E2 & _). rewrite E1, E2 in *.
  exists (with_jobs m (<[j_ID j := round_job j]> (jobs m))), ADone. split_and!; [|..|done].
  - cbn. unfold CreateJob. cbn. by rewrite (rep_None _ _ _ _ (rep_jobs _ _ Hr) Hn), cloneJob_id.
  - destruct Hr. constructor; try done. apply rep_insert; [done|]. by eapply job_decodes.
Qed.

Lemma refined_GetJob m d id : represents d m → refined m (QGetJob id) d.
Proof.
  intros Hr. eapply (refined_reads AJob (pg_GetJob i id)); [done|done|apply (reads_calling _ jobToModel)|].
  { apply (reads_then d (λ j, ∃ row, db_jobs d !! (i, id) = Some row ∧ j = scan_job i id row)). intros row _ Hrow%of_option_Ok.
    apply reads_pure. intros a [= <-]. by exists row. }
  intros j (p & (row & Hrow & ->) & Hj). destruct (rep_Some _ _ _ _ _ (rep_jobs _ _ Hr) Hrow) as (j' & Hj' & Hd).
  unfold job_dec in Hd. rewrite Hj in Hd. cbn in Hd. simplify_eq. eexists. split; [|done]. cbn. unfold GetJob. by rewrite Hj', cloneJob_id.
Qed.

Lemma job_dec_Some id r j : job_dec id r = Some j → jobToModel (scan_job i id r) = Ok j.
Proof. unfold job_dec. destruct (jobToModel _); [|done]. cbn. congruence. Qed.
Lemma jobToModel_fields p j : jobToModel p = Ok j →
  j_CreatedAt j = Persistence.j_CreatedAt p ∧ j_Type j = Persistence.j_Type p ∧ j_HostID j = j_AssetID p ∧ j_RequestedBy j = Persistence.j_RequestedBy p ∧
  unmarshal (j_Parameters p) = Some (mkJobParameters (j_RequestedSessionID j) (j_Command j)).
Proof.
  unfold jobToModel. intros E. apply bind_Ok_inv in E as ([s c] & Hp%of_option_Ok & E). apply bind_Ok_inv in E as (r & _ & [= <-]). done.
Qed.

Lemma refined_ListJobs m d : represents d m → within_limit d → refined m QListJobs d.
Proof.
  intros Hr Hl. eapply (refined_reads AJobs); [done|done|eapply (reads_calling _ (map_results jobToModel)), reads_query_all|].
  intros l (ps & HF & Hm%map_results_Ok). eexists. split; [done|]. cbn. unfold ListJobs. rewrite map_same by apply cloneJob_id.
  destruct (listing_rep job_dec (db_jobs d) (jobs m) (λ _ _, true) (λ _, true) (by_created_desc jr_created_at) (λ j, - j_CreatedAt j) l) as [HP HS].
  - apply Hr.
  - apply Hl.
  - done.
  - intros x y a b Ha%job_dec_Some Hb%job_dec_Some Hxy%by_created_key. apply jobToModel_fields in Ha as [-> _], Hb as [-> _]. cbn. lia.
  - revert Hm. generalize l. induction HF as [|r p rows ps Hp HF IH]; intros l' Hm; inversion Hm as [|? ? ? ? Hj]; subst; [constructor|].
    injection Hp as <-. constructor; [|by apply IH]. unfold job_dec. by rewrite Hj.
  - split; [|done]. unfold sort_by. rewrite HP, merge_sort_Permutation. by rewrite filter_true.
Qed.

(** The row after a mutation. *)
Definition mutated_row (old : job_row) (p : Persistence.Job) (document : string) : job_row :=
  mkJobRow (jr_type old) (jr_asset_id old) (Persistence.j_State p) (jr_requested_by old) (jr_request_id old) (jr_idempotency_key old)
    (jr_parameters old) document (nullString (j_ErrorCode p)) (nullString (j_ErrorMessage p)) (Persistence.j_Version p) (jr_created_at old)
    (timestamptz <$> Persistence.j_StartedAt p) (timestamptz <$> Persistence.j_FinishedAt p) (timestamptz (j_UpdatedAt p)).

Lemma atomic_MutateJob {E} id (mutate : Persistence.Job → result E Persistence.Job) d :
  atomic (Postgres.MutateJob i id mutate) d (λ d' p, ∃ old document, db_jobs d !! (i, id) = Some old ∧ mutate (scan_job i id old) = Ok p ∧
    Persistence.j_ID p = id ∧ jsonb (normalizedJSON (j_Result p)) = Some document ∧ job_check (mutated_row old p document) = true ∧
    d' = set_db_jobs d (<[(i, id) := mutated_row old p document]> (db_jobs d))).
Proof.
  apply atomic_transaction. apply body_query. intros current _ Hq. apply bind_Ok_inv in Hq as (old & Hold%of_option_Ok & [= <-]).
  destruct (mutate (scan_job i id old)) as [p|e] eqn:Em; [|by apply body_pure]. case_match eqn:Ec; [by apply body_pure|].
  apply orb_false_iff in Ec as [[Ei%negb_false_iff%String.eqb_eq Eid%negb_false_iff%String.eqb_eq]%orb_false_iff _]. cbn in Ei, Eid.
  destruct (validateJob p); [|by apply body_pure]. apply body_stmt. intros d' n Hop. unfold update_job in Hop.
  apply bind_Ok_inv in Hop as (document & Hdoc%of_option_Ok & Hop). cbv zeta in Hop. apply bind_Ok_inv in Hop as ([t n'] & Hu & [= <- ->]).
  apply body_pure. intros p' Hp'. apply update_row_Ok in Hu as [[-> ->]|(old' & Hold' & _ & Hck & -> & ->)]; [done|]. injection Hp' as <-.
  rewrite Ei, Eid in Hold'. cbn in Hold'. simplify_eq. exists old, document. by split_and!.
Qed.

Lemma mutated_decodes id old j j' p document :
  job_dec id old = Some j → job_kept j' → same_origin j j' → modelToJob i j' = Ok p → j_ID j' = id →
  jsonb (normalizedJSON (j_Result p)) = Some document → job_dec id (mutated_row old p document) = Some (round_job j').
Proof.
  intros Hd Hk (O1 & O2 & O3 & O4 & O5 & O6) Hm Hid Hdoc. pose proof Hk as (Hst & He & _).
  destruct (modelToJob_Ok _ _ Hk Hm) as (_ & E1 & E2 & E3 & E4 & E5 & E6 & E7 & E8 & E9 & E10 & E11 & E12 & K1 & K2).
  apply job_dec_Some, jobToModel_fields in Hd as (F1 & F2 & F3 & F4 & F5). cbn in F1, F2, F3, F4, F5.
  unfold job_dec, jobToModel, scan_job. cbn. rewrite F5, (K2 _ Hdoc). cbn. rewrite !orEmpty_nullString, E3, E4, E5, E6, E8, E9, Hst, (job_error _ He).
  unfold round_job. by rewrite <-F1, <-F2, <-F3, <-F4, <-O1, <-O2, <-O3, <-O4, <-O5, <-O6, Hid.
Qed.

Lemma refined_MutateJob m d id f : represents d m → admissible m (QMutateJob id f) → refined m (QMutateJob id f) d.
Proof.
  intros Hr Ha. apply atomic_answering. intros fs. unfold pg_MutateJob, mbind, M_bind.
  pose proof (atomic_MutateJob id (λ current, modelCurrent ← jobToModel current; modelUpdated ← f modelCurrent; modelToJob i modelUpdated) d fs) as Hm.
  assert (∀ d' p, (∃ old document, db_jobs d !! (i, id) = Some old ∧
      (modelCurrent ← jobToModel (scan_job i id old); modelUpdated ← f modelCurrent; modelToJob i modelUpdated) = Ok p ∧ Persistence.j_ID p = id ∧
      jsonb (normalizedJSON (j_Result p)) = Some document ∧ job_check (mutated_row old p document) = true ∧
      d' = set_db_jobs d (<[(i, id) := mutated_row old p document]> (db_jobs d))) →
    ∃ j, jobToModel p = Ok j ∧ ∃ m' r', mem_run m (rounded (QMutateJob id f)) = (m', Ok r') ∧ represents d' m' ∧ agrees (AMutated j) r') as Hpost.
  { intros d' p (old & document & Hold & Hmut & Hid & Hdoc & _ & ->).
    destruct (rep_Some _ _ _ _ _ (rep_jobs _ _ Hr) Hold) as (j & Hj & Hd). rewrite (job_dec_Some _ _ _ Hd) in Hmut. cbn in Hmut.
    apply bind_Ok_inv in Hmut as (j' & Hf & Hmj). destruct (Ha _ _ Hj Hf) as [Hk Ho]. destruct (modelToJob_Ok _ _ Hk Hmj) as (Hback & E1 & _).
    exists j'. split; [done|]. exists (with_jobs m (<[id := round_job j']> (jobs m))), (AMutated (round_job j')). split_and!; [|..|done].
    - cbn. unfold MutateJob. rewrite Hj, cloneJob_id, Hf. cbn. by rewrite cloneJob_id.
    - destruct Hr. constructor; try done. apply rep_insert; [done|]. eapply mutated_decodes; try done. congruence. }
  destruct (Postgres.MutateJob _ _ _ _) as [s [p|[e|e]]]; cbn in *.
  - destruct (Hpost _ _ Hm) as (j & -> & Hj). done.
  - destruct Hm as [->|(p & Hp)]; [by left|]. destruct (Hpost _ _ Hp) as (j & _ & Hj). right. by exists j.
  - destruct Hm as [->|(p & Hp)]; [by left|]. destruct (Hpost _ _ Hp) as (j & _ & Hj). right. by exists j.
Qed.

(** ** Lemmas: audit events *)

Lemma refined_AppendAudit m d e : represents d m → admissible m (QAppendAudit e) → refined m (QAppendAudit e) d.
Proof.
  intros Hr (s & Es & Hne & _ & Hs). apply atomic_answering. unfold pg_AppendAudit. rewrite Es. apply atomic_mapped, atomic_checked. intros _.
  apply atomic_stmt. intros d' [] Hop. apply bind_Ok_inv in Hop as (row & Hrow%of_option_Ok & Hop).
  do 3 apply bind_Ok_inv in Hop as (? & _ & Hop). injection Hop as <-. unfold audit_columns in Hrow.
  apply bind_Some in Hrow as (details & Hd & [= <-]). cbn in Hd. rewrite normalizedJSON_text in Hd by done. destruct (Hs _ Hd) as (Hnd & _ & Hu).
  exists (with_audits m (audits m ++ [cloneAudit (round_event e)])), ADone. split_and!; [done| |done].
  destruct Hr. constructor; try done. unfold own_events. cbn. rewrite List.filter_app. cbn. rewrite String.eqb_refl. apply Forall2_app; [done|].
  constructor; [|done]. unfold event_of, scan_audit. cbn. rewrite !orEmpty_nullString.
  assert ((0 <? slen details)%Z = true) as ->. { apply Z.ltb_lt. unfold slen. destruct details; [done|]. cbn. lia. }
  by rewrite Hu.
Qed.

(** ** Lemmas: workers *)

Lemma refined_CreateWorker m d w : represents d m → refined m (QCreateWorker w) d.
Proof.
  intros Hr. apply atomic_answering, atomic_mapped, atomic_stmt. intros d' [] Hop.
  apply bind_Ok_inv in Hop as (t & Hi%insert_row_Ok & [= <-]). destruct Hi as (_ & _ & _ & Hn & _ & ->). cbn in Hn |- *.
  exists (with_workers m (<[w_ID w := round_worker w]> (workers m))), ADone. split_and!; [|..|done].
  - unfold CreateWorker. cbn. by rewrite (rep_None _ _ _ _ (rep_workers _ _ Hr) Hn).
  - destruct Hr. constructor; try done. apply rep_insert; [done|]. unfold worker_dec, persistenceToWorker, scan_worker. cbn. by rewrite orEmpty_nullString.
Qed.

Lemma refined_GetWorker m d id : represents d m → refined m (QGetWorker id) d.
Proof.
  intros Hr. eapply (refined_reads AWorker (pg_GetWorker i id)); [done|done|apply (reads_calling _ (λ w, Ok (persistenceToWorker w)))|].
  { apply (reads_then d (λ w, ∃ row, db_workers d !! (i, id) = Some row ∧ w = scan_worker i id row)). intros row _ Hrow%of_option_Ok.
    apply reads_pure. intros a [= <-]. by exists row. }
  intros w (p & (row & Hrow & ->) & [= <-]). destruct (rep_Some _ _ _ _ _ (rep_workers _ _ Hr) Hrow) as (w & Hw & [= <-]).
  eexists. split; [|done]. cbn. unfold GetWorker. by rewrite Hw.
Qed.

Lemma refined_ListWorkers m d : represents d m → within_limit d → refined m QListWorkers d.
Proof.
  intros Hr Hl. eapply (refined_reads AWorkers); [done|done|eapply (reads_calling _ (λ l, Ok (map persistenceToWorker l))), reads_query_all|].
  intros l (ps & HF & [= <-]). eexists. split; [done|]. cbn. unfold ListWorkers.
  destruct (listing_rep worker_dec (db_workers d) (workers m) (λ _ _, true) (λ _, true) (by_created wr_created_at) w_CreatedAt (map persistenceToWorker ps))
    as [HP HS].
  - apply Hr.
  - apply Hl.
  - done.
  - intros x y a b [= <-] [= <-] Hxy%by_created_key. done.
  - apply Forall2_fmap_r. eapply Forall2_impl; [exact HF|]. intros r a [= <-]. done.
  - split; [|done]. unfold sort_by. rewrite HP, merge_sort_Permutation. by rewrite filter_true.
Qed.

Lemma refined_CreateWorkerVersion m d v : represents d m → admissible m (QCreateWorkerVersion v) → refined m (QCreateWorkerVersion v) d.
Proof.
  intros Hr (Hp1 & Hp2 & Hp3). apply atomic_answering, atomic_mapped, atomic_stmt. intros d' [] Hop.
  apply bind_Ok_inv in Hop as (t & Hi%insert_row_Ok & [= <-]). destruct Hi as (_ & _ & _ & Hn & Hw & ->). cbn in Hn, Hw |- *.
  exists (with_workerVersions m (<[wv_ID (sv_Metadata v) := round_version v]> (workerVersions m))), ADone. split_and!; [|..|done].
  - unfold CreateWorkerVersion. cbn. apply present_true in Hw as [row Hw]. destruct (rep_Some _ _ _ _ _ (rep_workers _ _ Hr) Hw) as (w & -> & _).
    by rewrite (rep_None _ _ _ _ (rep_versions _ _ Hr) Hn), cloneWorkerVersion_id.
  - destruct Hr. constructor; try done. apply rep_insert; [done|]. unfold version_dec, persistenceToWorkerVersion, scan_version, round_version. cbn.
    by rewrite Hp1, Hp2, Hp3.
Qed.

Lemma version_dec_worker id r v : version_dec id r = Some v → wv_WorkerID (sv_Metadata v) = vr_worker_id r ∧ wv_CreatedAt (sv_Metadata v) = vr_created_at r.
Proof. by intros [= <-]. Qed.

(** The row of a version of a worker. *)
Lemma version_row_rep m d workerID id row :
  represents d m → version_row_of i workerID id d = Some row →
  db_versions d !! (i, id) = Some row ∧ version_of m workerID id = Some (persistenceToWorkerVersion (scan_version i id row)).
Proof.
  intros Hr Hv. unfold version_row_of in Hv. apply bind_Some in Hv as (r & Hrow & Hv). destruct (vr_worker_id r =? workerID) eqn:Ew; [|done]. simplify_eq.
  split; [done|]. destruct (rep_Some _ _ _ _ _ (rep_versions _ _ Hr) Hrow) as (v & Hm & [= <-]). unfold version_of. rewrite Hm. cbn. by rewrite Ew.
Qed.

Lemma refined_GetWorkerVersion m d w v : represents d m → refined m (QGetWorkerVersion w v) d.
Proof.
  intros Hr. eapply (refined_reads AVersion (pg_GetWorkerVersion i w v)); [done|done|apply (reads_calling _ (λ x, Ok (persistenceToWorkerVersion x)))|].
  { apply (reads_then d (λ x, ∃ row, version_row_of i w v d = Some row ∧ x = scan_version i v row)). intros row _ Hrow%of_option_Ok.
    apply reads_pure. intros a [= <-]. by exists row. }
  intros x (p & (row & Hrow & ->) & [= <-]). destruct (version_row_rep _ _ _ _ _ Hr Hrow) as [_ Hv].
  eexists. split; [|done]. cbn. unfold GetWorkerVersion. by rewrite Hv, cloneWorkerVersion_id.
Qed.

Lemma refined_ListWorkerVersions m d w : represents d m → within_limit d → refined m (QListWorkerVersions w) d.
Proof.
  intros Hr Hl. eapply (refined_reads AVersions); [done|done|
    eapply (reads_calling _ (λ l, Ok (map (λ v, sv_Metadata (persistenceToWorkerVersion v)) l))), reads_query_all|].
  intros l (ps & HF & [= <-]). eexists. split; [done|]. cbn [agrees]. unfold ListWorkerVersions.
  destruct (listing_rep version_dec (db_versions d) (workerVersions m) (λ _ r, vr_worker_id r =? w) (λ v, wv_WorkerID (sv_Metadata v) =? w)
    (by_created_desc vr_created_at) (λ v, - wv_CreatedAt (sv_Metadata v)) (map persistenceToWorkerVersion ps)) as [HP HS].
  - apply Hr.
  - apply Hl.
  - by intros id r v [= <-].
  - intros x y a b [= <-] [= <-] Hxy%by_created_key. cbn. lia.
  - apply Forall2_fmap_r. eapply Forall2_impl; [exact HF|]. intros r a [= <-]. done.
  - match goal with |- same_listing _ ?L _ => replace L with (map sv_Metadata (map persistenceToWorkerVersion ps)) by (by rewrite map_map) end.
    split.
    + unfold sort_by. rewrite merge_sort_Permutation. rewrite HP. by rewrite (map_ext (λ v, sv_Metadata (cloneWorkerVersion v)) sv_Metadata) by (intros v; by rewrite cloneWorkerVersion_id).
    + eapply StronglySorted_map; [|exact HS]. by intros.
Qed.

Lemma refined_UpdateWorkerVersionProvider m d w v p n t :
  represents d m → admissible m (QUpdateWorkerVersionProvider w v p n t) → refined m (QUpdateWorkerVersionProvider w v p n t) d.
Proof.
  intros Hr Ht. cbn in Ht. apply atomic_answering, atomic_mapped. unfold Postgres.UpdateWorkerVersionProvider. case_match eqn:Eg; [apply atomic_err|].
  apply atomic_stmt. intros d' k Hop. apply bind_Ok_inv in Hop as ([tb k'] & Hu & [= <- ->]).
  apply update_row_Ok in Hu as [[-> ->]|(old & Hold & Hw & _ & -> & ->)]; [by destruct d|]. cbn. apply String.eqb_eq in Hw.
  assert (version_row_of i w v d = Some old) as Hrow by (unfold version_row_of; rewrite Hold; cbn; by rewrite Hw, String.eqb_refl).
  destruct (version_row_rep _ _ _ _ _ Hr Hrow) as [_ Hv].
  eexists _, ADone. split_and!; [|..|done].
  - unfold UpdateWorkerVersionProvider. rewrite Hv. cbn. case_match eqn:Eg'; [|reflexivity]. exfalso. rewrite !orb_false_iff in Eg.
    destruct Eg as (((((_ & E1) & E2) & E3) & E4) & _). rewrite E1, E2, E3, E4 in Eg'. cbn in Eg'. apply Z.eqb_eq in Eg'. done.
  - destruct Hr. constructor; try done. apply rep_insert; [done|]. unfold version_dec. by rewrite cloneWorkerVersion_id.
Qed.

(** ** Lemmas: deployments *)

Lemma atomic_PlanWorkerDeployment x w d :
  atomic (Postgres.PlanWorkerDeployment x w) d (λ d' _, ∃ current,
    db_workers d !! (pd_InstallationID x, pd_WorkerID x) = Some current ∧ pd_PreviousDesiredVersion x = orEmpty (wr_desired_version_id current) ∧
    pw_Version w = u64 (wr_version current + 1) ∧ pw_DesiredVersion w = pd_VersionID x ∧ pd_ProviderExecution x = false ∧
    is_Some (version_row_of (pd_InstallationID x) (pd_WorkerID x) (pd_VersionID x) d) ∧
    is_Some (db_bindings d !! (pd_InstallationID x, "cloudflare_worker", pd_WorkerID x)) ∧
    (pd_Kind x =? "rollback") && ((orEmpty (wr_desired_version_id current) =? "") || (orEmpty (wr_desired_version_id current) =? pd_VersionID x)) = false ∧
    db_deployments d !! (pd_InstallationID x, pd_ID x) = None ∧ ((pd_Kind x =? "deploy") || (pd_Kind x =? "rollback")) = true ∧
    pd_State x = "ready_for_provider" ∧ ∃ old, db_workers d !! (pw_InstallationID w, pw_ID w) = Some old ∧
    d' = set_db_workers (set_db_deployments d (<[(pd_InstallationID x, pd_ID x) := mkDeploymentRow (pd_WorkerID x) (pd_VersionID x)
             (nullString (pd_PreviousDesiredVersion x)) (pd_Kind x) (pd_State x) (pd_ProviderExecution x) None None None None None None
             (timestamptz (pd_CreatedAt x)) (pd_CreatedBy x)]> (db_deployments d)))
           (<[(pw_InstallationID w, pw_ID w) := mkWorkerRow (wr_name old) (wr_account_id old) (wr_script_name old) (Some (pw_DesiredVersion w))
             (pw_Version w) (wr_created_at old) (timestamptz (pw_UpdatedAt w))]> (db_workers d))).
Proof.
  apply atomic_transaction. apply body_query. intros current _ Hcur%of_option_Ok. cbv zeta. case_match eqn:Eg; [by apply body_pure|].
  rewrite !orb_false_iff, !negb_false_iff in Eg. destruct Eg as (((E1%String.eqb_eq & E2%Z.eqb_eq) & E3%String.eqb_eq) & E4).
  apply body_query. intros ve _ [= <-]. apply body_query. intros te _ [= <-].
  destruct (present (version_row_of _ _ _ _)) eqn:Ev; [|by apply body_pure]. destruct (present (db_bindings d !! _)) eqn:Et; [|by apply body_pure].
  cbn [negb orb]. case_match eqn:Er; [by apply body_pure|]. apply body_stmt. intros d1 [] Hop. unfold insert_deployment in Hop.
  apply bind_Ok_inv in Hop as (t & Hi%insert_row_Ok & [= <-]). destruct Hi as (_ & Hck & _ & Hn & _ & ->).
  apply body_stmt. intros d2 n Hop. unfold update_worker in Hop. apply bind_Ok_inv in Hop as ([t n'] & Hu & [= <- ->]). apply body_pure. intros [] Ha.
  apply update_row_Ok in Hu as [[-> ->]|(old & Hold & _ & _ & -> & ->)]; [done|]. cbn in Hold.
  assert (pd_State x = "ready_for_provider") as Hst.
  { unfold deployment_check in Hck. cbn in Hck. rewrite E4 in Hck. destruct (String.eqb_spec (pd_State x) "ready_for_provider") as [->|]; [done|].
    repeat case_match; rewrite ?andb_false_r in Hck; cbn in Hck; rewrite ?andb_false_r in Hck; done. }
  assert (((pd_Kind x =? "deploy") || (pd_Kind x =? "rollback")) = true) as Hkind.
  { unfold deployment_check in Hck. cbn in Hck. destruct ((pd_Kind x =? "deploy") || (pd_Kind x =? "rollback")); done. }
  exists current. split_and!; try done; [by apply present_true..|]. by exists old.
Qed.

Lemma refined_PlanWorkerDeployment m d x w :
  represents d m → admissible m (QPlanWorkerDeployment x w) → refined m (QPlanWorkerDeployment x w) d.
Proof.
  intros Hr (P1 & P2 & P3 & P4 & P5 & P6 & Hid & Hkeep). apply atomic_answering, atomic_mapped. eapply atomic_conseq; [apply atomic_PlanWorkerDeployment|].
  intros d' [] (current & Hcur & E1 & E2 & E3 & E4 & Hv & Ht & Er & Hn & Hkind & Hst & old & Hold & ->). cbn in *.
  rewrite Hid in Hold. simplify_eq. destruct (rep_Some _ _ _ _ _ (rep_workers _ _ Hr) Hcur) as (wk & Hwk & [= <-]).
  destruct Hv as [vrow Hv]. destruct (version_row_rep _ _ _ _ _ Hr Hv) as [_ Hvm].
  destruct (secret_present _ _ _ _ _ (rep_tokens _ _ Hr) Ht) as [tok Htok].
  specialize (Hkeep (persistenceToWorker (scan_worker i (d_WorkerID x) current))). rewrite Hid in Hkeep. destruct (Hkeep Hwk) as (K1 & K2 & K3 & K4).
  eexists _, ADone. split_and!; [|..|done].
  - unfold PlanWorkerDeployment. cbn. rewrite Hkind, Hst, E4. cbn. rewrite Hwk. cbn. rewrite Hvm, Htok, (rep_None _ _ _ _ (rep_deployments _ _ Hr) Hn), E1, String.eqb_refl. cbn. rewrite Er, Hid, String.eqb_refl, E2, Z.eqb_refl, E3, String.eqb_refl. cbn. reflexivity.
  - destruct Hr. constructor; try done; cbn.
    + rewrite Hid. apply rep_insert; [done|]. unfold worker_dec, persistenceToWorker, scan_worker. cbn in *. unfold round_worker. by rewrite K1, K2, K3, K4, Hid.
    + apply rep_insert; [done|]. rewrite cloneWorkerDeployment_id. unfold deployment_dec, persistenceToWorkerDeployment, scan_deployment. cbn.
      unfold round_deployment. by rewrite orEmpty_nullString, P1, P2, P3, P4, P5, P6.
Qed.

Lemma timestamptz_mono a b : a ≤ b → timestamptz a ≤ timestamptz b.
Proof. intros Hab. unfold timestamptz. apply Z.mul_le_mono_nonneg_r; [lia|]. apply Z.div_le_mono; lia. Qed.

Lemma transition_fields c u : validWorkerDeploymentTransition c u = true →
  d_ID u = d_ID c ∧ d_WorkerID u = d_WorkerID c ∧ d_VersionID u = d_VersionID c ∧ d_PreviousDesiredVersionID u = d_PreviousDesiredVersionID c ∧
  d_Kind u = d_Kind c ∧ d_CreatedAt u = d_CreatedAt c ∧ d_CreatedBy u = d_CreatedBy c.
Proof.
  unfold validWorkerDeploymentTransition. destruct (_ || _) eqn:E; [done|]. intros _. rewrite !orb_false_iff, !negb_false_iff in E.
  destruct E as (((((((?%String.eqb_eq & ?%String.eqb_eq) & ?%String.eqb_eq) & ?%String.eqb_eq) & ?%String.eqb_eq) & ?%Z.eqb_eq) & ?%String.eqb_eq) & _).
  done.
Qed.

Lemma finished_rounded u : timestamptz (d_CreatedAt u) = d_CreatedAt u → validFinishedDeployment u = true → validFinishedDeployment (round_deployment u) = true.
Proof.
  unfold validFinishedDeployment. cbn. intros Hc. destruct (d_StartedAt u) as [s|], (d_FinishedAt u) as [f|]; cbn; try done. intros Hb. reflect_bools.
  apply andb_true_iff. split; apply negb_true_iff, Z.ltb_ge; by apply timestamptz_mono.
Qed.

Lemma transition_rounded c u :
  timestamptz (d_CreatedAt u) = d_CreatedAt u → validWorkerDeploymentTransition c u = true → validWorkerDeploymentTransition c (round_deployment u) = true.
Proof.
  intros Hc. unfold validWorkerDeploymentTransition. cbn [round_deployment d_ID d_WorkerID d_VersionID d_PreviousDesiredVersionID d_Kind d_State
    d_ProviderExecutionAllowed d_ProviderVersionID d_ProviderDeploymentID d_ProviderState d_ErrorCode d_StartedAt d_FinishedAt d_CreatedAt d_CreatedBy].
  rewrite Hc. case_match; [done|]. case_match.
  - destruct (d_StartedAt u) as [s|], (d_FinishedAt u) as [f|]; cbn; try done. rewrite !andb_true_iff, !negb_true_iff, !Z.ltb_ge.
    intros [? Hs]. split; [done|]. rewrite <-Hc. by apply timestamptz_mono.
  - case_match; [|case_match; [|done]].
    + rewrite !andb_true_iff. intros ((((Hf & ?) & ?) & ?) & ?). split_and!; try done. by apply finished_rounded.
    + rewrite !andb_true_iff. intros ((Hf & ?) & ?). split_and!; try done. by apply finished_rounded.
Qed.

Lemma reads_GetWorkerDeployment w id d :
  reads (Postgres.GetWorkerDeployment i w id) d
    (λ x, ∃ row, db_deployments d !! (i, id) = Some row ∧ dr_worker_id row = w ∧ x = scan_deployment i id row).
Proof.
  apply reads_then. intros row _ Hq. apply bind_Ok_inv in Hq as (r & Hr%of_option_Ok & Hq). destruct (String.eqb_spec (dr_worker_id r) w); [|done].
  simplify_eq. apply reads_pure. intros x [= <-]. by exists row.
Qed.

Lemma refined_GetWorkerDeployment m d w id : represents d m → refined m (QGetWorkerDeployment w id) d.
Proof.
  intros Hr. eapply (refined_reads ADeployment (pg_GetWorkerDeployment i w id)); [done|done|
    apply (reads_calling _ (λ x, Ok (persistenceToWorkerDeployment x))), reads_GetWorkerDeployment|].
  intros x (p & (row & Hrow & <- & ->) & [= <-]). destruct (rep_Some _ _ _ _ _ (rep_deployments _ _ Hr) Hrow) as (x & Hx & [= <-]).
  eexists. split; [|done]. cbn. unfold GetWorkerDeployment. rewrite Hx. cbn. by rewrite String.eqb_refl, cloneWorkerDeployment_id.
Qed.

Lemma refined_ListWorkerDeployments m d w : represents d m → within_limit d → refined m (QListWorkerDeployments w) d.
Proof.
  intros Hr Hl. eapply (refined_reads ADeployments); [done|done|
    eapply (reads_calling _ (λ l, Ok (map persistenceToWorkerDeployment l))), reads_query_all|].
  intros l (ps & HF & [= <-]). eexists. split; [done|]. cbn [agrees]. unfold ListWorkerDeployments. rewrite map_same by apply cloneWorkerDeployment_id.
  destruct (listing_rep deployment_dec (db_deployments d) (workerDeployments m) (λ _ r, dr_worker_id r =? w) (λ x, d_WorkerID x =? w)
    (by_created_desc dr_created_at) (λ x, - d_CreatedAt x) (map persistenceToWorkerDeployment ps)) as [HP HS].
  - apply Hr.
  - apply Hl.
  - by intros id r x [= <-].
  - intros x y a b [= <-] [= <-] Hxy%by_created_key. cbn. lia.
  - apply Forall2_fmap_r. eapply Forall2_impl; [exact HF|]. intros r a [= <-]. done.
  - split; [|done]. unfold sort_by. by rewrite merge_sort_Permutation.
Qed.

Lemma refined_UpdateWorkerDeployment m d u st :
  represents d m → admissible m (QUpdateWorkerDeployment u st) → refined m (QUpdateWorkerDeployment u st) d.
Proof.
  intros Hr Hc. cbn in Hc. apply atomic_answering. eapply atomic_calling; [apply reads_GetWorkerDeployment|]. intros x (row & Hrow & Hw & ->).
  case_match eqn:Eg; [apply atomic_err|]. apply orb_false_iff in Eg as [Est%negb_false_iff%String.eqb_eq Hv%negb_false_iff].
  apply atomic_mapped. unfold Postgres.UpdateWorkerDeployment. do 2 (case_match; [apply atomic_err|]). apply atomic_stmt. intros d' n Hop.
  apply bind_Ok_inv in Hop as ([t n'] & Hu & [= <- ->]). apply update_row_Ok in Hu as [[-> ->]|(old & Hold & _ & _ & -> & ->)]; [by destruct d|].
  cbn in Hold. simplify_eq. destruct (rep_Some _ _ _ _ _ (rep_deployments _ _ Hr) Hrow) as (c & Hcm & [= <-]).
  destruct (transition_fields _ _ Hv) as (F1 & F2 & F3 & F4 & F5 & F6 & F7). cbn in F1, F2, F3, F4, F5, F6, F7.
  exists (with_workerDeployments m (<[d_ID u := round_deployment u]> (workerDeployments m))), ADone. split_and!; [|..|done].
  - cbn -[round_deployment]. unfold UpdateWorkerDeployment. change (d_ID (round_deployment u)) with (d_ID u).
    change (d_WorkerID (round_deployment u)) with (d_WorkerID u). rewrite Hcm. cbn -[round_deployment validWorkerDeploymentTransition persistenceToWorkerDeployment].
    rewrite (transition_rounded _ _ Hc Hv), F2, String.eqb_refl. cbn. by rewrite String.eqb_refl, cloneWorkerDeployment_id.
  - destruct Hr. constructor; try done. apply rep_insert; [done|]. unfold deployment_dec, persistenceToWorkerDeployment, scan_deployment. cbn.
    unfold round_deployment. by rewrite !orEmpty_nullString, Hc, F2, F3, F4, F5, F6, F7.
Qed.

(** ** Lemmas: deleting a host *)

Lemma DeleteCurrentSecret_absent scope id d fs :
  match DeleteCurrentSecret i scope id (mkServer d fs) with
  | (s, r) => r = Err Persistence.ErrNotFound → db s = d ∧ db_bindings d !! (i, scope, id) = None
  end.
Proof.
  unfold DeleteCurrentSecret. rewrite or_fail_run. set (op := λ d : database, _). pose proof (stmt_no_rows op d fs) as Hn.
  destruct (stmt_cases op d fs) as [(e & fs' & Es)|(d' & n & Hop & fs' & r & Es & Hr)]; rewrite Es in *.
  - cbn. intros Ee. destruct e as [|c|]; cbn in Ee; [|by destruct (_ || _)|done]. destruct (Hn _ eq_refl) as [_ Hop]. unfold op in Hop.
    destruct (texts _); cbn in Hop; [|done]. by destruct (present _).
  - destruct Hr as [->|[e ->]]; cbn.
    + intros Ee. unfold op in Hop. apply bind_Ok_inv in Hop as (? & _ & Hop). cbv zeta in Hop. destruct (present _) eqn:Ep; simplify_eq; try done.
      split; [done|]. by destruct (db_bindings d' !! _).
    + intros Ee. destruct e as [|c|]; cbn in Ee; [|by destruct (_ || _)|done]. destruct (Hn _ eq_refl) as [_ Hop']. by rewrite Hop in Hop'.
Qed.

Lemma atomic_DeleteAsset id version d :
  atomic (Postgres.DeleteAsset i id version) d (λ d' _, d' = set_db_assets d (delete (i, id) (db_assets d))).
Proof.
  apply atomic_stmt. intros d' n Hop. apply bind_Ok_inv in Hop as (? & _ & Hop). destruct (db_assets d !! (i, id)) as [row|]; [|by simplify_eq].
  destruct (negb _); [by simplify_eq|]. apply bind_Ok_inv in Hop as (? & _ & Hop). by simplify_eq.
Qed.

(** The last statement, once the credential is gone. *)
Lemma DeleteHost_last m d id asset fs h :
  hosts m !! id = Some h → represents d (with_credentials m (delete id (credentials m))) →
  match answering (λ _, ADone) (mapped (Postgres.DeleteAsset i id (a_Version asset))) (mkServer d fs) with
  | (s, Ok r) => ∃ m' r', mem_run m (QDeleteHost id) = (m', Ok r') ∧ represents (db s) m' ∧ agrees r r'
  | (s, Err _) => represents (db s) m ∨ (∃ m' r', mem_run m (QDeleteHost id) = (m', Ok r') ∧ represents (db s) m') ∨
                  represents (db s) (with_credentials m (delete id (credentials m)))
  end.
Proof.
  intros Hh Hr. assert (∀ d', d' = set_db_assets d (delete (i, id) (db_assets d)) →
    ∃ m', mem_run m (QDeleteHost id) = (m', Ok ADone) ∧ represents d' m') as Hdone.
  { intros d' ->. eexists. split; [cbn; unfold DeleteHost; by rewrite Hh|]. destruct Hr. constructor; try done. by apply (rep_delete host_dec). }
  pose proof (atomic_DeleteAsset id (a_Version asset) d fs) as Hd. unfold answering, mapped, mbind, M_bind.
  destruct (Postgres.DeleteAsset _ _ _ _) as [s [u|e]]; cbn.
  - destruct (Hdone _ Hd) as (m' & ? & ?). by exists m', ADone.
  - destruct Hd as [->|[_ Hd]]; [by right; right|]. destruct (Hdone _ Hd) as (m' & ? & ?). right. left. by exists m', ADone.
Qed.

(** A successful deletion removes host and credential; a failed one may have
    removed the credential only. *)
Lemma DeleteHost_outcomes m d id fs :
  represents d m →
  match pg_run (QDeleteHost id) (mkServer d fs) with
  | (s, Ok r) => ∃ m' r', mem_run m (QDeleteHost id) = (m', Ok r') ∧ represents (db s) m' ∧ agrees r r'
  | (s, Err _) => represents (db s) m ∨ (∃ m' r', mem_run m (QDeleteHost id) = (m', Ok r') ∧ represents (db s) m') ∨
                  represents (db s) (with_credentials m (delete id (credentials m)))
  end.
Proof.
  intros Hr. cbn [pg_run]. unfold answering, pg_DeleteHost, calling, mbind, M_bind. pose proof (reads_GetAsset id d fs) as Hg.
  destruct (Postgres.GetAsset i id (mkServer d fs)) as [[d0 fs0] r]. cbn in Hg. destruct Hg as [-> Hg]. destruct r as [asset|e]; cbn; [|by left].
  destruct Hg as (row & Hrow & _). destruct (rep_Some _ _ _ _ _ (rep_hosts _ _ Hr) Hrow) as (h & Hh & _).
  pose proof (atomic_DeleteCurrentSecret SecretScopeHost id d fs0) as Hd. pose proof (DeleteCurrentSecret_absent SecretScopeHost id d fs0) as Habs.
  destruct (DeleteCurrentSecret i SecretScopeHost id (mkServer d fs0)) as [[d1 fs1] r]. cbn in Hd, Habs.
  assert (represents d1 m ∨ represents d1 (with_credentials m (delete id (credentials m)))) as Hd1.
  { destruct r; [destruct Hd as [_ ->]; right; by apply deleted_credential|]. destruct Hd as [->|(? & _ & ->)]; [by left|right; by apply deleted_credential]. }
  assert ((∃ u, r = Ok u) ∨ r = Err Persistence.ErrNotFound → represents d1 (with_credentials m (delete id (credentials m)))) as Hgo.
  { intros [[u ->]| ->]; [destruct Hd as [_ ->]; by apply deleted_credential|]. destruct (Habs eq_refl) as [-> Hn].
    assert (credentials m !! id = None) as Hc by (pose proof (rep_credentials _ _ Hr id) as Hc; rewrite Hn in Hc; by destruct (credentials m !! id)).
    rewrite delete_id by done. by destruct m. }
  destruct r as [u|e].
  - specialize (Hgo (or_introl (ex_intro _ u eq_refl))). by apply (DeleteHost_last m d1 id asset fs1 h).
  - destruct e; [specialize (Hgo (or_intror eq_refl)); by apply (DeleteHost_last m d1 id asset fs1 h)|cbn; destruct Hd1; auto..].
Qed.

(** ** Lemmas: what the schema refuses *)

Lemma never {E A} (m : M (result E A)) d : atomic m d (λ _ _, False) → ∀ fs, ∃ s e, m (mkServer d fs) = (s, Err e) ∧ db s = d.
Proof. intros Hm fs. specialize (Hm fs). destruct (m _) as [s [a|e]]; [done|]. exists s, e. split; [done|]. by destruct Hm as [?|[_ []]]. Qed.

Lemma null_details_refused e d : marshal (None : option (list (string * value))) = Some "null" → ae_Details e = None → atomic (pg_AppendAudit i e) d (λ _ _, False).
Proof.
  intros Hm He. unfold pg_AppendAudit. rewrite He. cbn. rewrite Hm. apply atomic_mapped, atomic_checked. intros Hv. exfalso.
  unfold validateAudit in Hv. do 3 apply bind_Ok_inv in Hv as (? & _ & Hv). by vm_compute in Hv.
Qed.

Lemma null_labels_refused `{!JsonbLaws} h d : h_Labels h = None → atomic (pg_CreateHost i h) d (λ _ _, False).
Proof.
  intros Hl. apply atomic_mapped, atomic_checked. intros _. apply atomic_stmt. intros d' [] Hop.
  apply bind_Ok_inv in Hop as (row & Hc%of_option_Ok & Hop). apply bind_Ok_inv in Hop as (t & Hi%insert_row_Ok & _). destruct Hi as (_ & Hck & _).
  unfold asset_columns in Hc. apply bind_Some in Hc as (labels & El & Hc). apply bind_Some in Hc as (pin & _ & [= <-]). cbn in El. rewrite Hl in El.
  assert (json_object labels = true) as Ho by (unfold asset_check in Hck; cbn in Hck; reflect_bools; done).
  rewrite (jsonb_kind _ _ El) in Ho. by vm_compute in Ho.
Qed.

Lemma unstarted_refused id f d m :
  represents d m → (∀ j j', jobs m !! id = Some j → f j = Ok j' → job_kept j' ∧ j_StartedAt j' = None ∧ is_Some (j_FinishedAt j')) →
  atomic (Postgres.MutateJob i id (λ current, modelCurrent ← jobToModel current; modelUpdated ← f modelCurrent; modelToJob i modelUpdated)) d (λ _ _, False).
Proof.
  intros Hr Hf. eapply atomic_conseq; [apply atomic_MutateJob|]. intros d' p (old & document & Hold & Hmut & _ & _ & Hck & _).
  destruct (rep_Some _ _ _ _ _ (rep_jobs _ _ Hr) Hold) as (j & Hj & Hd). rewrite (job_dec_Some _ _ _ Hd) in Hmut. cbn in Hmut.
  apply bind_Ok_inv in Hmut as (j' & Hfj & Hmj). destruct (Hf _ _ Hj Hfj) as (Hk & Hs & [t Ht]).
  destruct (modelToJob_Ok _ _ Hk Hmj) as (_ & _ & _ & _ & _ & _ & _ & _ & E8 & E9 & _). unfold job_check in Hck. cbn in Hck.
  rewrite E8, E9, Hs, Ht in Hck. cbn in Hck. by rewrite andb_false_r in Hck.
Qed.

Lemma pg_MutateJob_never id f d fs :
  (∀ fs, ∃ s e, Postgres.MutateJob i id (λ current, modelCurrent ← jobToModel current; modelUpdated ← f modelCurrent; modelToJob i modelUpdated)
     (mkServer d fs) = (s, Err e) ∧ db s = d) →
  ∃ s e, pg_MutateJob i id f (mkServer d fs) = (s, Err e) ∧ db s = d.
Proof.
  unfold pg_MutateJob. generalize (λ current : Persistence.Job, modelCurrent ← jobToModel current; modelUpdated ← f modelCurrent; modelToJob i modelUpdated).
  intros mutate Hm. unfold mbind, M_bind. destruct (Hm fs) as (s & e & -> & Hd). exists s. destruct e as [e|e]; eexists; done.
Qed.

(** A host that a job refers to. *)
Lemma referred_refused m d id version :
  represents d m → (∃ job j, jobs m !! job = Some j ∧ j_HostID j = id) → atomic (Postgres.DeleteAsset i id version) d (λ _ _, False).
Proof.
  intros Hr (job & j & Hj & Hid). apply atomic_stmt. intros d' n Hop. apply bind_Ok_inv in Hop as (? & _ & Hop).
  destruct (db_assets d !! (i, id)) as [row|]; [|by simplify_eq]. destruct (negb (_ =? version)%Z); [by simplify_eq|].
  apply bind_Ok_inv in Hop as (? & Hg%guard_ok_Ok%negb_true_iff & _). exfalso. apply not_true_iff_false in Hg. apply Hg, existsb_exists.
  pose proof (rep_jobs _ _ Hr job) as Ht. rewrite Hj in Ht. destruct (db_jobs d !! (i, job)) as [r|] eqn:Er; [|done].
  exists ((i, job), r). split; [by apply list_elem_of_In, elem_of_map_to_list|]. cbn. rewrite String.eqb_refl.
  apply job_dec_Some, jobToModel_fields in Ht as (_ & _ & Ht & _). cbn in Ht. rewrite <-Ht, Hid. by apply String.eqb_refl.
Qed.

Lemma DeleteHost_referred m d id h c fs :
  represents d m → hosts m !! id = Some h → credentials m !! id = Some c → (∃ job j, jobs m !! job = Some j ∧ j_HostID j = id) →
  ∃ s e, pg_DeleteHost i id (mkServer d fs) = (s, Err e).
Proof.
  intros Hr Hh Hc Hj. unfold pg_DeleteHost, calling, mbind, M_bind. pose proof (reads_GetAsset id d fs) as Hg.
  destruct (Postgres.GetAsset i id (mkServer d fs)) as [[d0 fs0] r]. cbn in Hg. destruct Hg as [-> Hg]. destruct r as [asset|e]; [|by eexists _, _].
  pose proof (atomic_DeleteCurrentSecret SecretScopeHost id d fs0) as Hd.
  destruct (DeleteCurrentSecret i SecretScopeHost id (mkServer d fs0)) as [[d1 fs1] r]. cbn in Hd.
  assert (∃ m1, represents d1 m1 ∧ jobs m1 = jobs m) as (m1 & Hr1 & Ej).
  { assert (d1 = d ∨ d1 = set_db_bindings d (delete (i, SecretScopeHost, id) (db_bindings d))) as [->| ->].
    { destruct r; [right; apply Hd|]. destruct Hd as [?|(? & _ & ?)]; auto. }
    - by exists m.
    - eexists. split; [by apply deleted_credential|done]. }
  assert (∃ s e, mapped (Postgres.DeleteAsset i id (a_Version asset)) (mkServer d1 fs1) = (s, Err e)) as Hlast.
  { rewrite <-Ej in Hj. destruct (never _ _ (referred_refused m1 d1 id (a_Version asset) Hr1 Hj) fs1) as (s & e & Hs & _).
    unfold mapped, mbind, M_bind. rewrite Hs. by eexists _, _. }
  destruct r as [u|e]; [done|]. destruct e; try done; by eexists _, _.
Qed.

(** The same calls when no fault occurs. *)
Lemma GetAsset_fine d id row asset :
  identifierPattern i = true → identifierPattern id = true → texts [i; id] = true →
  db_assets d !! (i, id) = Some row → scan_asset i id row = Ok asset →
  Postgres.GetAsset i id (mkServer d []) = (mkServer d [], Ok asset).
Proof.
  intros Pi Pid Ht Er Hs. unfold Postgres.GetAsset, validateIdentifier. rewrite Pi, Pid. cbn [mbind result_bind guard_ok checked]. rewrite or_fail_run.
  unfold query_with, query, stmt. cbn [next_fault faults db]. rewrite Ht, Er. cbn. by rewrite Hs.
Qed.

Lemma DeleteCurrentSecret_fine d scope id b :
  texts [i; scope; id] = true → db_bindings d !! (i, scope, id) = Some b →
  DeleteCurrentSecret i scope id (mkServer d []) = (mkServer (set_db_bindings d (delete (i, scope, id) (db_bindings d))) [], Ok tt).
Proof. intros Ht Eb. unfold DeleteCurrentSecret. rewrite or_fail_run. unfold stmt. cbn [next_fault faults db]. rewrite Ht, Eb. reflexivity. Qed.

(** Without faults, the credential of such a host is gone after the attempt. *)
Lemma DeleteHost_loses m d id h c :
  represents d m → hosts m !! id = Some h → credentials m !! id = Some c → (∃ job j, jobs m !! job = Some j ∧ j_HostID j = id) →
  identifierPattern i = true → identifierPattern id = true → texts [i; id] = true →
  represents (db (pg_DeleteHost i id (mkServer d [])).1) (with_credentials m (delete id (credentials m))).
Proof.
  intros Hr Hh Hc Hj Pi Pid Ht. unfold pg_DeleteHost, calling, mbind, M_bind. pose proof (rep_hosts _ _ Hr id) as Hrow. rewrite Hh in Hrow.
  destruct (db_assets d !! (i, id)) as [row|] eqn:Er; [|done]. apply host_dec_Some in Hrow as (asset & Hs & _). rewrite (GetAsset_fine d id row asset) by done.
  assert (texts [i; SecretScopeHost; id] = true) as Ht'.
  { unfold texts in *. cbn [forallb] in *. apply andb_true_iff in Ht as [-> Ht]. apply andb_true_iff in Ht as [-> _]. done. }
  pose proof (rep_credentials _ _ Hr id) as Hb. rewrite Hc in Hb. destruct (db_bindings d !! (i, SecretScopeHost, id)) as [b|] eqn:Eb; [|done].
  rewrite (DeleteCurrentSecret_fine d SecretScopeHost id b) by done. pose proof (deleted_credential _ _ id Hr) as Hr1.
  destruct (never _ _ (referred_refused _ _ id (a_Version asset) Hr1 Hj) []) as (s & e & Es & Hd).
  unfold mapped, mbind, M_bind. rewrite Es. cbn. by rewrite Hd.
Qed.
End refinement.

(** ** The properties *)

(** C22: The PostgreSQL repository refines the in-memory one, request by
    request, except for [ListAudits], which is not among the requests.  Take any
    database whose rows of an installation represent a state of the in-memory
    repository and whose tables are below the row limit of the listings
    ([within_limit]); any request that is [admissible], that is, whose JSON values
    come back as stored, whose times are kept by microseconds, and which changes no
    field that the statements do not write; and any faults of the connection, also
    ones that hide from the caller that a statement or a commit took effect.  If the
    call succeeds, the in-memory operation, on the request with its times rounded to
    microseconds, succeeds too, gives the same answer (listings up to the order of
    records created together), and leads to the state that the new rows represent.
    If it fails, the rows represent the old state or that new one, or, when the
    request was the deletion of a host, the old state without the credential of that
    host, which such a failed deletion may have removed. *)
Theorem postgres_refines `{Jsonb} `{Codec (gmap string string)} `{Codec Persistence.HostKeyPin} `{Collation}
    `{Codec CredentialMetadata} `{Codec CloudflareTokenMetadata} `{Codec persistedJobParameters} `{Codec persistedJobResult}
    `{Codec (option (list (string * value)))} i d m q :
  JsonbLaws → represents i d m → admissible m q → within_limit d →
  ∀ fs, match pg_run i q (mkServer d fs) with
  | (s, Ok r) => ∃ m' r', mem_run m (rounded q) = (m', Ok r') ∧ represents i (db s) m' ∧ agrees r r'
  | (s, Err _) =>
    represents i (db s) m ∨ (∃ m' r', mem_run m (rounded q) = (m', Ok r') ∧ represents i (db s) m') ∨
    ∃ id, q = QDeleteHost id ∧ represents i (db s) (with_credentials m (delete id (credentials m)))
  end.
Proof.
  intros HJ Hr Ha Hl fs. assert (refined i m q d ∨ ∃ id, q = QDeleteHost id) as [Hq|[id ->]].
  { destruct q; try (by right; eexists); left; first [by apply refined_CreateHost | by apply refined_UpdateHost | idtac];
      auto using refined_GetHost, refined_ListHosts, refined_PutCredential, refined_GetCredential, refined_DeleteCredential, refined_CreateJob,
        refined_GetJob, refined_ListJobs, refined_MutateJob, refined_AppendAudit, refined_CreateWorker, refined_GetWorker, refined_ListWorkers,
        refined_PutWorkerToken, refined_GetWorkerToken, refined_DeleteWorkerToken, refined_CreateWorkerVersion, refined_GetWorkerVersion,
        refined_ListWorkerVersions, refined_UpdateWorkerVersionProvider, refined_PlanWorkerDeployment, refined_GetWorkerDeployment,
        refined_ListWorkerDeployments, refined_UpdateWorkerDeployment. }
  - specialize (Hq fs). destruct (pg_run i q _) as [s [r|e]]; [done|]. destruct Hq as [->|(r & m' & r' & ? & ? & _)]; [by left|right; left]. by exists m', r'.
  - pose proof (DeleteHost_outcomes i m d id fs Hr) as Ho. destruct (pg_run i _ _) as [s [r|e]]; [done|].
    destruct Ho as [?|[?|?]]; [by left|by right; left|right; right; by exists id].
Qed.

(** ** A concrete database *)

Module DurableDemo.
(** An encoding of one value; [jsonb] keeps the text; the C collation. *)
Definition only {A} (x : A) : Codec A := {| marshal _ := Some "{}"; unmarshal s := if s =? "{}" then Some x else None |}.
Definition metadata : CredentialMetadata := mkCredentialMetadata "cred_1" "host_1" "password" "" "key-1" 1000 "ops".
#[export] Instance demo_jsonb : Jsonb := λ s, Some s.
#[export] Instance labels_codec : Codec (gmap string string) := only ∅.
#[export] Instance pin_codec : Codec Persistence.HostKeyPin := only (Persistence.mkPin "" "" "" 0 "").
#[export] Instance metadata_codec : Codec CredentialMetadata := only metadata.
#[export] Instance token_codec : Codec CloudflareTokenMetadata := only (mkCloudflareTokenMetadata "" "" "" "" 0 "").
#[export] Instance parameters_codec : Codec persistedJobParameters := only (mkJobParameters "" None).
#[export] Instance result_codec : Codec persistedJobResult := only (mkJobResult None None None None None).
#[export] Instance details_codec : Codec (option (list (string * value))) :=
  {| marshal x := match x with None => Some "null" | Some _ => Some "{}" end; unmarshal s := if s =? "null" then Some None else Some (Some []) |}.
#[export] Instance c_collation : Collation := {| text_le := str_le |}.

Lemma demo_laws : JsonbLaws.
Proof. intros s t. unfold jsonb, demo_jsonb. by intros [= ->]. Defined.

Definition host : Host := mkHost "host_1" "web" "192.0.2.1" 22 "deploy" (Some ∅) None 1 1000 1000.
Definition host_row : asset_row := mkAssetRow "web" "192.0.2.1" 22 "deploy" "{}" None 1 1000 1000.
Definition job : Job := mkJob "job_1" "snapshot" "host_1" JobQueued "ops" "" 2000 None None None None None None None None None 1.
Definition queued_row : job_row := mkJobRow "snapshot" "host_1" "queued" "ops" None None "{}" "{}" None None 1 2000 None None 2000.
Definition credential : StoredCredential := mkStoredCredential metadata (mkEnvelope "c" "n" "w" "k" "key-1").
Definition credential_row : envelope_row := mkEnvelopeRow "password" "key-1" "c" "n" "w" "k" "{}" 1000.

(** A host with its credential and a queued job, for installation [main]. *)
Definition store : Memory := mkMemory {["host_1" := host]} {["host_1" := credential]} {["job_1" := job]} [] ∅ ∅ ∅ ∅.
Definition tables : database :=
  mkDatabase {[("main", "host_1") := host_row]} {[("main", "cred_1", 1) := credential_row]}
    {[("main", "host", "host_1") := mkBindingRow "cred_1" 1 1000]} {[("main", "job_1") := queued_row]} [] ∅ ∅ ∅.

Lemma no_rows {R A} (dec : string → R → option A) : table_rep "main" dec ∅ ∅.
Proof. intros id. by rewrite !lookup_empty. Defined.
Lemma one_row {R A} (dec : string → R → option A) id r a : dec id r = Some a → table_rep "main" dec {[("main", id) := r]} {[id := a]}.
Proof. intros Hd. rewrite <-!insert_empty. apply rep_insert; [apply no_rows|done]. Defined.

Lemma tables_represent : represents "main" tables store.
Proof.
  constructor; try apply no_rows; [by apply one_row| |by apply one_row|done|].
  - intros id. cbn. destruct (decide (id = "host_1")) as [->|Hn].
    + rewrite !lookup_singleton_eq. by exists credential_row.
    + by rewrite !lookup_singleton_ne by congruence.
  - intros id. cbn. rewrite lookup_empty. by rewrite lookup_singleton_ne.
Defined.

Lemma tables_fit : within_limit tables.
Proof. unfold within_limit. split_and!; vm_compute; discriminate. Defined.

Definition start (now : time) (j : Job) : result store_error Job :=
  match TransitionJob j JobRunning now with Ok j => Ok j | Err e => Err (ErrOther e) end.

Lemma job_stays st v started finished e : JobState_of (JobState_string st) = st → match e with Some e => je_Code e ≠ "" | None => True end →
  job_kept (mkJob "job_1" "snapshot" "host_1" st "ops" "" 2000 started finished None None None None None None e v).
Proof. intros Hs He. split_and!; [done|done|..]; exists "{}"; split_and!; try done; by intros t [= <-]. Defined.

Lemma start_admissible : admissible store (QMutateJob "job_1" (start 3000)).
Proof. intros j j' Hj. vm_compute in Hj. injection Hj as <-. cbn. intros [= <-]. split; [by apply job_stays|done]. Defined.
End DurableDemo.
Import (hints) DurableDemo.

(** Starting the queued job. *)
Lemma postgres_refines_witness :
  ∃ s r m' r', pg_run "main" (QMutateJob "job_1" (DurableDemo.start 3000)) (mkServer DurableDemo.tables []) = (s, Ok r) ∧
    mem_run DurableDemo.store (rounded (QMutateJob "job_1" (DurableDemo.start 3000))) = (m', Ok r') ∧ represents "main" (db s) m' ∧ agrees r r'.
Proof.
  pose proof (postgres_refines "main" DurableDemo.tables DurableDemo.store (QMutateJob "job_1" (DurableDemo.start 3000)) DurableDemo.demo_laws
    DurableDemo.tables_represent DurableDemo.start_admissible DurableDemo.tables_fit []) as H.
  destruct (pg_run _ _ _) as [s [r|e]] eqn:E; [|by vm_compute in E]. destruct H as (m' & r' & Hm & Hr & Ha). by exists s, r, m', r'.
Defined.
