(* ===== verification/Coordinator.v ===== *)
(** * Task coordination: leases, idempotency records, cancellation signals

    Models [services/persistence/coordinator.go]: the [Coordinator] interface
    and its two implementations.  [MemoryCoordinator] keeps Go maps;
    [RedisCoordinator] sends commands and two Lua scripts to a Redis server,
    which is a parameter with the documented behaviour of SET, SET NX, GET,
    PEXPIRE and DEL.  What callers rely on is the class [CoordinatorLaws]; the
    theorems about leases and idempotency are proved from it once and hold for
    both implementations. *)

From S2P Require Import Prelude GoStrings Encoding Persistence.

Inductive coord_error :=
| ErrLeaseHeld
| ErrLeaseLost
| Refused (message : string).

Definition maxCoordinatorReferenceBytes : Z := 512.

Record Lease := mkLease { l_key : string; l_token : string; l_expires : time; l_resource : string }.

Definition validateReference (value : string) : result coord_error unit :=
  require negb ((trim_space value =? "") || (maxCoordinatorReferenceBytes <? slen value)%Z ||
                contains_any (String "013" (String "010" (String "000" ""))) value)
    else Refused "coordinator reference is invalid" ;; Ok tt.

Definition valid_ttl (ttl : duration) : bool := (second <=? ttl)%Z && (ttl <=? 24 * hour)%Z.

Definition validateCoordinatorInput (first second : string) (ttl : duration) : result coord_error unit :=
  validateReference first ;;
  validateReference second ;;
  require valid_ttl ttl else Refused "coordinator TTL must be between one second and 24 hours" ;; Ok tt.

Definition validate_result_reference (value : string) : result coord_error unit :=
  match validateIdentifier "idempotency result reference" value with
  | Ok _ => Ok tt
  | Err _ => Err (Refused "idempotency result reference is invalid")
  end.

(** [randomToken] on the bytes the system returned, [None] when it failed. *)
Definition randomToken (random : option string) : option string := b64_encode <$> random.

(** ** The interface

    [now] is the instant at which the state is read or changed; [reply_at]
    the instant at which the caller has the reply, used only for the expiry the
    returned lease reports. *)
Class Coordinator (S : Type) := {
  acquire : S → string → string → duration → option string → time → time → S * result coord_error Lease;
  renew : S → Lease → duration → time → time → S * result coord_error Lease;
  release : S → Lease → time → S * result coord_error unit;
  put_idempotency : S → string → string → duration → time → S * result coord_error bool;
  get_idempotency : S → string → time → S * result coord_error (option string);
  request_cancellation : S → string → duration → time → S * result coord_error unit;
  cancellation_requested : S → string → time → S * result coord_error bool;
}.

(** ** MemoryCoordinator *)

Record memoryLease := mkMemoryLease { ml_token : string; ml_owner : string; ml_expires : time; ml_resource : string }.
Record memoryValue := mkMemoryValue { mv_value : string; mv_expires : time }.

Record MemoryCoordinator := mkMemory {
  leases : gmap string memoryLease;
  idempotency : gmap string memoryValue;
  cancel : gmap string time;
}.

Definition NewMemoryCoordinator : MemoryCoordinator := mkMemory ∅ ∅ ∅.

Module Memory.
Definition AcquireLease (m : MemoryCoordinator) (resource owner : string) (ttl : duration) (random : option string)
    (now reply_at : time) : MemoryCoordinator * result coord_error Lease :=
  match validateCoordinatorInput resource owner ttl with
  | Err e => (m, Err e)
  | Ok _ =>
    match randomToken random with
    | None => (m, Err (Refused "read random bytes"))
    | Some token =>
      let grant :=
        let expires := now + ttl in
        (mkMemory (<[resource := mkMemoryLease token owner expires resource]> (leases m)) (idempotency m) (cancel m),
         Ok (mkLease resource token expires resource)) in
      match leases m !! resource with
      | Some current => if (now <? ml_expires current)%Z then (m, Err ErrLeaseHeld) else grant
      | None => grant
      end
    end
  end.

Definition RenewLease (m : MemoryCoordinator) (lease : Lease) (ttl : duration) (now reply_at : time)
    : MemoryCoordinator * result coord_error Lease :=
  if negb (valid_ttl ttl) then (m, Err (Refused "positive TTL is required"))
  else match leases m !! l_resource lease with
  | None => (m, Err ErrLeaseLost)
  | Some current =>
    if negb (ml_token current =? l_token lease) || negb (now <? ml_expires current)%Z then (m, Err ErrLeaseLost)
    else (mkMemory (<[l_resource lease := mkMemoryLease (ml_token current) (ml_owner current) (now + ttl)
                                            (ml_resource current)]> (leases m)) (idempotency m) (cancel m),
          Ok (mkLease (l_key lease) (l_token lease) (now + ttl) (l_resource lease)))
  end.

Definition ReleaseLease (m : MemoryCoordinator) (lease : Lease) (now : time)
    : MemoryCoordinator * result coord_error unit :=
  match leases m !! l_resource lease with
  | None => (m, Err ErrLeaseLost)
  | Some current =>
    if negb (ml_token current =? l_token lease) then (m, Err ErrLeaseLost)
    else (mkMemory (delete (l_resource lease) (leases m)) (idempotency m) (cancel m), Ok tt)
  end.

Definition PutIdempotency (m : MemoryCoordinator) (key resultReference : string) (ttl : duration) (now : time)
    : MemoryCoordinator * result coord_error bool :=
  match validateCoordinatorInput key resultReference ttl ;; validate_result_reference resultReference with
  | Err e => (m, Err e)
  | Ok _ =>
    let create := (mkMemory (leases m) (<[key := mkMemoryValue resultReference (now + ttl)]> (idempotency m)) (cancel m),
                   Ok true) in
    match idempotency m !! key with
    | Some current => if (now <? mv_expires current)%Z then (m, Ok false) else create
    | None => create
    end
  end.

Definition GetIdempotency (m : MemoryCoordinator) (key : string) (now : time)
    : MemoryCoordinator * result coord_error (option string) :=
  match validateReference key with
  | Err e => (m, Err e)
  | Ok _ =>
    let forget := (mkMemory (leases m) (delete key (idempotency m)) (cancel m), Ok None) in
    match idempotency m !! key with
    | None => forget
    | Some current => if negb (now <? mv_expires current)%Z then forget else (m, Ok (Some (mv_value current)))
    end
  end.

Definition RequestCancellation (m : MemoryCoordinator) (jobID : string) (ttl : duration) (now : time)
    : MemoryCoordinator * result coord_error unit :=
  match validateCoordinatorInput jobID jobID ttl with
  | Err e => (m, Err e)
  | Ok _ => (mkMemory (leases m) (idempotency m) (<[jobID := now + ttl]> (cancel m)), Ok tt)
  end.

Definition CancellationRequested (m : MemoryCoordinator) (jobID : string) (now : time)
    : MemoryCoordinator * result coord_error bool :=
  match validateReference jobID with
  | Err e => (m, Err e)
  | Ok _ =>
    let forget := (mkMemory (leases m) (idempotency m) (delete jobID (cancel m)), Ok false) in
    match cancel m !! jobID with
    | None => forget
    | Some expires => if negb (now <? expires)%Z then forget else (m, Ok true)
    end
  end.
End Memory.

#[global] Instance Memory_Coordinator : Coordinator MemoryCoordinator := {|
  acquire := Memory.AcquireLease;
  renew := Memory.RenewLease;
  release := Memory.ReleaseLease;
  put_idempotency := Memory.PutIdempotency;
  get_idempotency := Memory.GetIdempotency;
  request_cancellation := Memory.RequestCancellation;
  cancellation_requested := Memory.CancellationRequested;
|}.

(** ** Redis configuration *)

Record RedisConfig := mkRedisConfig {
  URL : string;
  InstallationID : string;
  Environment : string;
  ExpectedUsername : string;
  AllowInsecureDevelopment : bool;
}.

Definition RedisConfig_Validate (c : RedisConfig) : result error unit :=
  let secure := has_prefix "rediss://" (URL c) in
  let insecure := has_prefix "redis://" (URL c) in
  validateEnvironment (Environment c) ;;
  validateIdentifier "installation id" (InstallationID c) ;;
  require negb (trim_space (URL c) =? "") else Invalid "Redis URL is required" ;;
  require secure || insecure else Invalid "Redis URL must use rediss scheme" ;;
  if Environment c =? "production" then
    require negb (negb secure || AllowInsecureDevelopment c) else Invalid "production Redis requires TLS" ;;
    require negb ((ExpectedUsername c =? "") || (ExpectedUsername c =? "default"))
      else Invalid "production Redis requires a dedicated ACL username" ;;
    Ok tt
  else if insecure && negb (AllowInsecureDevelopment c) then
    Err (Invalid "plaintext Redis requires explicit development-only opt-in")
  else if AllowInsecureDevelopment c && (Environment c ≠? "development") && (Environment c ≠? "test") then
    Err (Invalid "Redis insecure mode is development-only")
  else Ok tt.

(** ** The Redis server

    [live s t k] is the value GET returns at time [t]; a command changes what
    is visible from its own instant on.  Expiry is kept in milliseconds. *)
Definition whole_ms (ttl : duration) : duration := ttl / millisecond * millisecond.

Class RedisServer (S : Type) := {
  live : S → time → string → option string;
  SETNX : S → time → string → string → duration → S * bool;
  SET : S → time → string → string → duration → S;
  PEXPIRE : S → time → string → Z → S * Z;
  DEL : S → time → string → S * Z;
}.

(** What a key shows from [now] on when it holds [v] for [d]. *)
Definition shows (o : option string) (now : time) (d : duration) (t : time) : option string :=
  if (t <? now + d)%Z then o else None.

Class RedisLaws (S : Type) `{RedisServer S} : Prop := {
  live_expires s t t' k v : t ≤ t' → live s t' k = Some v → live s t k = Some v;
  SETNX_spec s now k v ttl t k' : now ≤ t →
    let '(s', created) := SETNX s now k v ttl in
    created = bool_decide (live s now k = None) ∧
    live s' t k' = if bool_decide (created = true ∧ k' = k) then shows (Some v) now (whole_ms ttl) t else live s t k';
  SET_spec s now k v ttl t k' : now ≤ t →
    live (SET s now k v ttl) t k' = if bool_decide (k' = k) then shows (Some v) now (whole_ms ttl) t else live s t k';
  PEXPIRE_spec s now k ms t k' : now ≤ t →
    let '(s', n) := PEXPIRE s now k ms in
    n = (if bool_decide (live s now k = None) then 0 else 1) ∧
    live s' t k' = if bool_decide (k' = k) then shows (live s now k) now (ms * millisecond) t else live s t k';
  DEL_spec s now k t k' : now ≤ t →
    let '(s', n) := DEL s now k in
    n = (if bool_decide (live s now k = None) then 0 else 1) ∧
    live s' t k' = if bool_decide (k' = k) then None else live s t k';
}.

(** A command may be carried out with its reply lost, or never arrive.  The client
    library sends a command again, up to three times, when no reply comes: that is
    the same operation several times in a sequence of operations, the earlier ones
    with their reply or request lost, and other callers' operations between them. *)
Inductive delivery := Delivered | ReplyLost | RequestLost.

(** [network] says what happens to the next commands; after its end all is well. *)
Record RedisCoordinator (S : Type) := mkRedis { client : S; prefix : string; network : list delivery }.
Arguments mkRedis {S} _ _ _.
Arguments client {S} _.
Arguments prefix {S} _.
Arguments network {S} _.

Section redis.
Context (sha256 : string → string) {S : Type} `{RedisServer S}.
Implicit Types r : RedisCoordinator S.

(** Send an atomic command once: [None] when no reply came. *)
Definition send {A} r (command : S → S * A) : RedisCoordinator S * option A :=
  let '(s, a) := command (client r) in
  match network r with
  | RequestLost :: later => (mkRedis (client r) (prefix r) later, None)
  | ReplyLost :: later => (mkRedis s (prefix r) later, None)
  | Delivered :: later => (mkRedis s (prefix r) later, Some a)
  | [] => (mkRedis s (prefix r) [], Some a)
  end.

Definition coordinatorPrefix (installationID : string) : string :=
  "vpsmgr:" +:+ hex_encode (take_str 8 (sha256 installationID)) +:+ ":".
End redis.

Module Redis.
Section redis.
Context (sha256 : string → string) {S : Type} `{RedisServer S}.
Implicit Types r : RedisCoordinator S.

Definition key r (kind reference : string) : string :=
  prefix r +:+ kind +:+ ":" +:+ hex_encode (sha256 reference).

(** The Lua scripts, each run atomically by the server. *)
Definition renewLeaseScript (k token : string) (ms : Z) (now : time) (s : S) : S * Z :=
  if bool_decide (live s now k = Some token) then PEXPIRE s now k ms else (s, 0).
Definition releaseLeaseScript (k token : string) (now : time) (s : S) : S * Z :=
  if bool_decide (live s now k = Some token) then DEL s now k else (s, 0).

Definition AcquireLease r (resource owner : string) (ttl : duration) (random : option string) (now reply_at : time)
    : RedisCoordinator S * result coord_error Lease :=
  match validateCoordinatorInput resource owner ttl with
  | Err e => (r, Err e)
  | Ok _ =>
    match randomToken random with
    | None => (r, Err (Refused "generate task lease token"))
    | Some token =>
      let k := key r "lease" resource in
      match send r (λ s, SETNX s now k token ttl) with
      | (r', None) => (r', Err (Refused "acquire Redis task lease"))
      | (r', Some false) => (r', Err ErrLeaseHeld)
      | (r', Some true) => (r', Ok (mkLease k token (reply_at + ttl) resource))
      end
    end
  end.

Definition own_lease r (lease : Lease) : bool :=
  negb ((l_key lease =? "") || (l_token lease =? "") || negb (has_prefix (prefix r +:+ "lease:") (l_key lease))).

Definition RenewLease r (lease : Lease) (ttl : duration) (now reply_at : time)
    : RedisCoordinator S * result coord_error Lease :=
  if negb (own_lease r lease && valid_ttl ttl) then (r, Err (Refused "lease and positive TTL are required"))
  else match send r (renewLeaseScript (l_key lease) (l_token lease) (ttl / millisecond) now) with
  | (r', None) => (r', Err (Refused "renew Redis task lease"))
  | (r', Some n) => if negb (n =? 1)%Z then (r', Err ErrLeaseLost)
                    else (r', Ok (mkLease (l_key lease) (l_token lease) (reply_at + ttl) (l_resource lease)))
  end.

Definition ReleaseLease r (lease : Lease) (now : time) : RedisCoordinator S * result coord_error unit :=
  if negb (own_lease r lease) then (r, Err (Refused "lease is required"))
  else match send r (releaseLeaseScript (l_key lease) (l_token lease) now) with
  | (r', None) => (r', Err (Refused "release Redis task lease"))
  | (r', Some n) => if negb (n =? 1)%Z then (r', Err ErrLeaseLost) else (r', Ok tt)
  end.

Definition PutIdempotency r (k resultReference : string) (ttl : duration) (now : time)
    : RedisCoordinator S * result coord_error bool :=
  match validateCoordinatorInput k resultReference ttl ;; validate_result_reference resultReference with
  | Err e => (r, Err e)
  | Ok _ =>
    match send r (λ s, SETNX s now (key r "idempotency" k) resultReference ttl) with
    | (r', None) => (r', Err (Refused "write Redis idempotency record"))
    | (r', Some created) => (r', Ok created)
    end
  end.

Definition GetIdempotency r (k : string) (now : time) : RedisCoordinator S * result coord_error (option string) :=
  match validateReference k with
  | Err e => (r, Err e)
  | Ok _ =>
    match send r (λ s, (s, live s now (key r "idempotency" k))) with
    | (r', None) => (r', Err (Refused "read Redis idempotency record"))
    | (r', Some v) => (r', Ok v)
    end
  end.

Definition RequestCancellation r (jobID : string) (ttl : duration) (now : time)
    : RedisCoordinator S * result coord_error unit :=
  match validateCoordinatorInput jobID jobID ttl with
  | Err e => (r, Err e)
  | Ok _ =>
    match send r (λ s, (SET s now (key r "cancel" jobID) "1" ttl, tt)) with
    | (r', None) => (r', Err (Refused "write Redis cancellation signal"))
    | (r', Some _) => (r', Ok tt)
    end
  end.

Definition CancellationRequested r (jobID : string) (now : time) : RedisCoordinator S * result coord_error bool :=
  match validateReference jobID with
  | Err e => (r, Err e)
  | Ok _ =>
    match send r (λ s, (s, if bool_decide (live s now (key r "cancel" jobID) = None) then 0 else 1)) with
    | (r', None) => (r', Err (Refused "read Redis cancellation signal"))
    | (r', Some n) => (r', Ok (n =? 1)%Z)
    end
  end.

(** The startup probe: [t] gives the instants of its commands, and the
    deferred deletions of the probe keys run at the end, last one first. *)
Definition VerifyRuntime r (ping : bool) (reference : string) (random : option string) (t : nat → time)
    : RedisCoordinator S * result string unit :=
  if negb ping then (r, Err "ping Redis")
  else
    let probe := "startup_probe_" +:+ reference in
    match AcquireLease r probe "startup_probe" minute random (t 0%nat) (t 0%nat) with
    | (r1, Err _) => (r1, Err "verify Redis lease acquisition")
    | (r1, Ok lease) =>
      let delete_lease p := ((send (A := Z) p.1 (λ s, DEL s (t 6%nat) (l_key lease))).1, p.2 : result string unit) in
      delete_lease
        match RenewLease r1 lease minute (t 1%nat) (t 1%nat) with
        | (r2, Err _) => (r2, Err "verify Redis lease renewal")
        | (r2, Ok _) =>
          match ReleaseLease r2 lease (t 2%nat) with
          | (r3, Err _) => (r3, Err "verify Redis lease release")
          | (r3, Ok _) =>
            let delete_signal p := ((send (A := Z) p.1 (λ s, DEL s (t 5%nat) (key r "cancel" probe))).1, p.2 : result string unit) in
            delete_signal
              match RequestCancellation r3 probe minute (t 3%nat) with
              | (r4, Err _) => (r4, Err "verify Redis cancellation write")
              | (r4, Ok _) =>
                match CancellationRequested r4 probe (t 4%nat) with
                | (r5, Ok true) => (r5, Ok tt)
                | (r5, _) => (r5, Err "verify Redis cancellation read")
                end
              end
          end
        end
    end.

Instance Redis_Coordinator : Coordinator (RedisCoordinator S) := {|
  acquire := AcquireLease;
  renew := RenewLease;
  release := ReleaseLease;
  put_idempotency := PutIdempotency;
  get_idempotency := GetIdempotency;
  request_cancellation := RequestCancellation;
  cancellation_requested := CancellationRequested;
|}.
End redis.
End Redis.

(** ** What callers rely on *)

Inductive op :=
| OAcquire (resource owner : string) (ttl : duration) (random : option string)
| ORenew (lease : Lease) (ttl : duration)
| ORelease (lease : Lease)
| OPut (key resultReference : string) (ttl : duration)
| OGet (key : string)
| ORequest (jobID : string) (ttl : duration)
| ORequested (jobID : string).

Definition perform {S} `{Coordinator S} (s : S) (o : op) (now reply_at : time) : S :=
  match o with
  | OAcquire r owner ttl random => (acquire s r owner ttl random now reply_at).1
  | ORenew l ttl => (renew s l ttl now reply_at).1
  | ORelease l => (release s l now).1
  | OPut k v ttl => (put_idempotency s k v ttl now).1
  | OGet k => (get_idempotency s k now).1
  | ORequest j ttl => (request_cancellation s j ttl now).1
  | ORequested j => (cancellation_requested s j now).1
  end.

(** The operation renews or releases with this token. *)
Definition presents (token : string) (o : op) : bool :=
  match o with ORenew l _ | ORelease l => l_token l =? token | _ => false end.

(** Operations of any callers, at times that do not decrease. *)
Inductive coord_steps {S} `{Coordinator S} (allowed : op → Prop) : S → time → S → time → Prop :=
| coord_nil s t : coord_steps allowed s t s t
| coord_cons s t o now reply_at s' t' :
    t ≤ now → allowed o → coord_steps allowed (perform s o now reply_at) now s' t' →
    coord_steps allowed s t s' t'.

Class CoordinatorLaws (S : Type) `{Coordinator S} := {
  (** the token under which a resource is held, and the recorded result, at an instant *)
  lease_of : S → string → time → option string;
  record_of : S → string → time → option string;
  (** the lease was returned by this coordinator *)
  issued : S → Lease → Prop;
  issued_stays s o now at_ l : issued s l → issued (perform s o now at_) l;
  acquire_granted s r owner ttl random now at_ s' l :
    acquire s r owner ttl random now at_ = (s', Ok l) →
    l_resource l = r ∧ issued s' l ∧ valid_ttl ttl = true ∧ lease_of s r now = None ∧
    ∀ t, now ≤ t < now + whole_ms ttl → lease_of s' r t = Some (l_token l);
  renew_granted s l ttl now at_ s' l' :
    issued s l → renew s l ttl now at_ = (s', Ok l') →
    lease_of s (l_resource l) now = Some (l_token l) ∧ l_token l' = l_token l ∧ l_resource l' = l_resource l ∧
    ∀ t, now ≤ t < now + whole_ms ttl → lease_of s' (l_resource l) t = Some (l_token l);
  renew_available s l ttl now at_ :
    issued s l → lease_of s (l_resource l) now = Some (l_token l) → valid_ttl ttl = true →
    (renew s l ttl now at_).2 ≠ Err ErrLeaseLost;
  release_granted s l now s' tok :
    issued s l → release s l now = (s', Ok tt) → lease_of s (l_resource l) now = Some tok → tok = l_token l;
  lease_kept s o now at_ r t tok :
    presents tok o = false → now ≤ t → lease_of s r t = Some tok → lease_of (perform s o now at_) r t = Some tok;
  put_created s k v ttl now s' :
    put_idempotency s k v ttl now = (s', Ok true) →
    record_of s k now = None ∧ ∀ t, now ≤ t < now + whole_ms ttl → record_of s' k t = Some v;
  get_recorded s k now o : (get_idempotency s k now).2 = Ok o → o = record_of s k now;
  record_kept s o now at_ k t v :
    now ≤ t → record_of s k t = Some v → record_of (perform s o now at_) k t = Some v;
}.

Section laws.
#[local] Set Default Proof Using "All".
Context {S : Type} `{CoordinatorLaws S}.

Lemma lease_kept_steps allowed s t s' t' r u tok :
  coord_steps allowed s t s' t' → (∀ o, allowed o → presents tok o = false) → t' ≤ u →
  lease_of s r u = Some tok → lease_of s' r u = Some tok ∧ t ≤ t'.
Proof.
  intros Hs Ha. induction Hs as [s t|s t o now at_ s' t' Ht Ho Hs IH]; intros Hu Hl; [done|].
  assert (now ≤ t') as Hn by (clear -Hs; induction Hs; lia).
  destruct (IH Hu) as [? ?]; [|split; [done|lia]]. apply lease_kept; [by apply Ha|lia|done].
Qed.

Lemma record_kept_steps allowed s t s' t' k u v :
  coord_steps allowed s t s' t' → t' ≤ u → record_of s k u = Some v → record_of s' k u = Some v.
Proof.
  induction 1 as [s t|s t o now at_ s' t' Ht Ho Hs IH]; intros Hu Hl; [done|].
  assert (now ≤ t') as Hn by (clear -Hs; induction Hs; lia).
  apply IH; [done|]. apply record_kept; [lia|done].
Qed.

Lemma issued_steps allowed s t s' t' l : coord_steps allowed s t s' t' → issued s l → issued s' l.
Proof. induction 1; [done|]. intros. eauto using issued_stays. Qed.

(** Exclusion, from the laws alone. *)
Lemma laws_exclusive s r owner ttl random now at_ s1 l s2 now2 u :
  acquire s r owner ttl random now at_ = (s1, Ok l) →
  coord_steps (λ o, presents (l_token l) o = false) s1 now s2 now2 →
  now2 ≤ u < now + whole_ms ttl →
  (∀ owner' ttl' random' at' l', (acquire s2 r owner' ttl' random' u at').2 ≠ Ok l') ∧
  (∀ ttl' at', valid_ttl ttl' = true → (renew s2 l ttl' u at').2 ≠ Err ErrLeaseLost) ∧
  (∀ l' ttl' at' x, issued s2 l' → l_resource l' = r → l_token l' ≠ l_token l →
     (renew s2 l' ttl' u at').2 ≠ Ok x ∧ (release s2 l' u).2 ≠ Ok tt).
Proof.
  intros Hacq Hs Hu. apply acquire_granted in Hacq as (Hr & Hi & _ & _ & Hh).
  assert (now ≤ now2) as Hn by (clear -Hs; induction Hs; lia).
  destruct (lease_kept_steps _ _ _ _ _ r u (l_token l) Hs) as [Hl _]; [done|lia|apply Hh; lia|].
  split_and!.
  - intros owner' ttl' random' at' l' E. destruct (acquire s2 _ _ _ _ _ _) as [s3 x] eqn:Ea. cbn in E. subst x.
    apply acquire_granted in Ea as (_ & _ & _ & Hnone & _). congruence.
  - intros ttl' at' Ht. apply renew_available; [by eapply issued_steps|by rewrite Hr|done].
  - intros l' ttl' at' x Hi' Hr' Hne. split; intros E.
    + destruct (renew s2 l' _ _ _) as [s3 y] eqn:Er. cbn in E. subst y.
      apply renew_granted in Er as (Hown & _); [|done]. rewrite Hr' in Hown. congruence.
    + destruct (release s2 l' u) as [s3 y] eqn:Er. cbn in E. subst y.
      eapply release_granted in Er; [|done|by rewrite Hr']. congruence.
Qed.

Lemma laws_idempotent s k v ttl now s1 s2 now2 u :
  put_idempotency s k v ttl now = (s1, Ok true) →
  coord_steps (λ _, True) s1 now s2 now2 → now2 ≤ u < now + whole_ms ttl →
  (∀ v' ttl', (put_idempotency s2 k v' ttl' u).2 ≠ Ok true) ∧
  (∀ o, (get_idempotency s2 k u).2 = Ok o → o = Some v).
Proof.
  intros Hput Hs Hu. apply put_created in Hput as [_ Hh].
  assert (now ≤ now2) as Hn by (clear -Hs; induction Hs; lia).
  pose proof (record_kept_steps _ _ _ _ _ k u v Hs ltac:(lia) (Hh u ltac:(lia))) as Hl. split.
  - intros v' ttl' E. destruct (put_idempotency s2 _ _ _ _) as [s3 x] eqn:Ep. cbn in E. subst x.
    apply put_created in Ep as [Hnone _]. congruence.
  - intros o E. apply get_recorded in E. congruence.
Qed.
End laws.

Lemma whole_ms_le ttl : whole_ms ttl ≤ ttl.
Proof. unfold whole_ms, millisecond. pose proof (Z.mul_div_le ttl 1000000). lia. Qed.

Lemma validateCoordinatorInput_ttl a b ttl u : validateCoordinatorInput a b ttl = Ok u → valid_ttl ttl = true.
Proof. unfold validateCoordinatorInput. intros H. ok_inv H. done. Qed.

(** *** MemoryCoordinator keeps the laws *)

Definition memory_lease_of (m : MemoryCoordinator) (r : string) (t : time) : option string :=
  c ← leases m !! r; if (t <? ml_expires c)%Z then Some (ml_token c) else None.
Definition memory_record_of (m : MemoryCoordinator) (k : string) (t : time) : option string :=
  c ← idempotency m !! k; if (t <? mv_expires c)%Z then Some (mv_value c) else None.

Lemma memory_lease_of_Some m r t tok :
  memory_lease_of m r t = Some tok ↔ ∃ c, leases m !! r = Some c ∧ t < ml_expires c ∧ ml_token c = tok.
Proof.
  unfold memory_lease_of. rewrite bind_Some. split; intros (c & ? & E); exists c; (split; [done|]).
  - destruct (t <? ml_expires c)%Z eqn:?; [|done]. reflect_bools. by simplify_eq.
  - destruct E as [E <-]. by rewrite (proj2 (Z.ltb_lt _ _)).
Qed.

Lemma memory_record_of_Some m k t v :
  memory_record_of m k t = Some v ↔ ∃ c, idempotency m !! k = Some c ∧ t < mv_expires c ∧ mv_value c = v.
Proof.
  unfold memory_record_of. rewrite bind_Some. split; intros (c & ? & E); exists c; (split; [done|]).
  - destruct (t <? mv_expires c)%Z eqn:?; [|done]. reflect_bools. by simplify_eq.
  - destruct E as [E <-]. by rewrite (proj2 (Z.ltb_lt _ _)).
Qed.

Lemma memory_lease_kept m o now at_ r t tok :
  presents tok o = false → now ≤ t → memory_lease_of m r t = Some tok →
  memory_lease_of (perform m o now at_) r t = Some tok.
Proof.
  intros Hp Ht Hl. destruct (proj1 (memory_lease_of_Some _ _ _ _) Hl) as (c & Hc & He & Etok). apply memory_lease_of_Some.
  destruct o; cbn in *; unfold Memory.AcquireLease, Memory.RenewLease, Memory.ReleaseLease,
    Memory.PutIdempotency, Memory.GetIdempotency, Memory.RequestCancellation, Memory.CancellationRequested;
    repeat case_match; cbn; try (by eauto); reflect_bools.
  all: exists c; split; [|done].
  all: first [rewrite lookup_insert_ne; [done|]|rewrite lookup_delete_ne; [done|]].
  all: intros E; rewrite ?E in *; simplify_eq; first [lia|congruence].
Qed.

Lemma memory_record_kept m o now at_ k t v :
  now ≤ t → memory_record_of m k t = Some v → memory_record_of (perform m o now at_) k t = Some v.
Proof.
  intros Ht Hl. destruct (proj1 (memory_record_of_Some _ _ _ _) Hl) as (c & Hc & He & Ev). apply memory_record_of_Some.
  destruct o; cbn in *; unfold Memory.AcquireLease, Memory.RenewLease, Memory.ReleaseLease,
    Memory.PutIdempotency, Memory.GetIdempotency, Memory.RequestCancellation, Memory.CancellationRequested;
    repeat case_match; cbn; try (by eauto); reflect_bools.
  all: exists c; split; [|done].
  all: first [rewrite lookup_insert_ne; [done|]|rewrite lookup_delete_ne; [done|]].
  all: intros E; rewrite ?E in *; simplify_eq; first [lia|congruence].
Qed.

#[global] Instance Memory_laws : CoordinatorLaws MemoryCoordinator.
Proof.
  refine {| lease_of := memory_lease_of; record_of := memory_record_of; issued _ _ := True |}; try done.
  - intros m r owner ttl random now at_ m' l E. cbn in E. unfold Memory.AcquireLease in E.
    pose proof (whole_ms_le ttl).
    destruct (validateCoordinatorInput r owner ttl) eqn:Ev; [|done]. apply validateCoordinatorInput_ttl in Ev.
    destruct (randomToken random) as [token|]; [|done].
    assert (memory_lease_of m r now = None ∧ m' = mkMemory (<[r := mkMemoryLease token owner (now + ttl) r]> (leases m))
              (idempotency m) (cancel m) ∧ l = mkLease r token (now + ttl) r) as (Hn & -> & ->).
    { unfold memory_lease_of. destruct (leases m !! r) as [c|]; cbn; [|by simplify_eq].
      destruct (now <? ml_expires c)%Z; by simplify_eq. }
    split_and!; try done. intros t Ht. apply memory_lease_of_Some. eexists.
    split; [apply lookup_insert_eq|]. cbn. split; [lia|done].
  - intros m l ttl now at_ m' l' _ E. cbn in E. unfold Memory.RenewLease in E. pose proof (whole_ms_le ttl).
    destruct (negb _); [done|]. destruct (leases m !! l_resource l) as [c|] eqn:Ec; [|done].
    destruct (_ || _) eqn:Et; [done|]. reflect_bools. simplify_eq. cbn. split_and!; try done.
    + apply memory_lease_of_Some. eauto.
    + intros t Ht. apply memory_lease_of_Some. eexists. split; [apply lookup_insert_eq|]. cbn. split; [lia|done].
  - intros m l ttl now at_ _ (c & Ec & He & Et)%memory_lease_of_Some Hv. cbn. unfold Memory.RenewLease.
    rewrite Hv, Ec, Et, String.eqb_refl, (proj2 (Z.ltb_lt _ _)) by done. done.
  - intros m l now m' tok _ E (c & Ec & He & Et)%memory_lease_of_Some. cbn in E. unfold Memory.ReleaseLease in E.
    rewrite Ec in E. destruct (negb _) eqn:Eq; [done|]. reflect_bools. congruence.
  - apply memory_lease_kept.
  - intros m k v ttl now m' E. cbn in E. unfold Memory.PutIdempotency in E. pose proof (whole_ms_le ttl).
    destruct (_ ≫= _); [|done].
    assert (memory_record_of m k now = None ∧
      m' = mkMemory (leases m) (<[k := mkMemoryValue v (now + ttl)]> (idempotency m)) (cancel m)) as (Hn & ->).
    { unfold memory_record_of. destruct (idempotency m !! k) as [c|]; cbn; [|by simplify_eq].
      destruct (now <? mv_expires c)%Z; by simplify_eq. }
    split; [done|]. intros t Ht. apply memory_record_of_Some. eexists. split; [apply lookup_insert_eq|]. cbn. split; [lia|done].
  - intros m k now o E. cbn in E. unfold Memory.GetIdempotency, memory_record_of in *.
    destruct (validateReference k); [|done]. destruct (idempotency m !! k) as [c|]; cbn in *; [|by simplify_eq].
    destruct (now <? mv_expires c)%Z; cbn in *; by simplify_eq.
  - apply memory_record_kept.
Defined.

(** *** RedisCoordinator keeps the laws *)

Section redis_laws.
#[local] Set Default Proof Using "All".
Context (sha256 : string → string) {S : Type} `{RedisLaws S}.
#[local] Existing Instance Redis.Redis_Coordinator.
Implicit Types r : RedisCoordinator S.
#[local] Abbreviation key := (Redis.key sha256).
#[local] Instance redis_instance : Coordinator (RedisCoordinator S) := Redis.Redis_Coordinator sha256.

Lemma send_cases {A} r (c : S → S * A) r' x :
  send r c = (r', x) → prefix r' = prefix r ∧
  ((client r' = client r ∧ x = None) ∨
   (client r' = (c (client r)).1 ∧ (x = None ∨ x = Some (c (client r)).2))).
Proof. unfold send. destruct (c (client r)) as [s a]. intros E. repeat case_match; simplify_eq/=; auto. Qed.

Definition redis_lease_of r (res : string) (t : time) : option string := live (client r) t (key r "lease" res).
Definition redis_record_of r (k : string) (t : time) : option string := live (client r) t (key r "idempotency" k).
Definition redis_issued r (l : Lease) : Prop := l_key l = key r "lease" (l_resource l).

(** A live value survives a command at an earlier instant, except a DEL, a
    PEXPIRE or a SET of its own key. *)
Lemma SETNX_keeps s now k v ttl t k' w :
  now ≤ t → live s t k' = Some w → live (SETNX s now k v ttl).1 t k' = Some w.
Proof.
  intros Ht Hl. pose proof (SETNX_spec s now k v ttl t k' Ht) as Hs.
  destruct (SETNX s now k v ttl) as [s' b]. cbn in *. destruct Hs as [-> ->].
  rewrite bool_decide_eq_false_2; [done|]. intros [Hb%bool_decide_eq_true ->].
  rewrite (live_expires _ _ _ _ _ Ht Hl) in Hb. done.
Qed.

Lemma SETNX_created s now k v ttl t :
  now ≤ t → (SETNX s now k v ttl).2 = true →
  live s now k = None ∧ live (SETNX s now k v ttl).1 t k = shows (Some v) now (whole_ms ttl) t.
Proof.
  intros Ht Hb. pose proof (SETNX_spec s now k v ttl t k Ht) as Hs.
  destruct (SETNX s now k v ttl) as [s' b]. cbn in *. subst b. destruct Hs as [E ->].
  symmetry in E. apply bool_decide_eq_true in E. split; [done|]. by rewrite bool_decide_eq_true_2.
Qed.

Lemma SET_keeps s now k v ttl t k' w :
  now ≤ t → k' ≠ k → live s t k' = Some w → live (SET s now k v ttl) t k' = Some w.
Proof. intros Ht Hk Hl. by rewrite SET_spec, bool_decide_eq_false_2. Qed.

Lemma renewScript_keeps s now k token ms t k' w :
  now ≤ t → k' ≠ k ∨ token ≠ w → live s t k' = Some w →
  live (Redis.renewLeaseScript k token ms now s).1 t k' = Some w.
Proof.
  intros Ht Hk Hl. unfold Redis.renewLeaseScript. case_bool_decide as E; [|done].
  pose proof (PEXPIRE_spec s now k ms t k' Ht) as Hs. destruct (PEXPIRE s now k ms) as [s' n]. cbn in *.
  destruct Hs as [_ ->]. rewrite bool_decide_eq_false_2; [done|]. intros ->.
  rewrite (live_expires _ _ _ _ _ Ht Hl) in E. destruct Hk; congruence.
Qed.

Lemma releaseScript_keeps s now k token t k' w :
  now ≤ t → k' ≠ k ∨ token ≠ w → live s t k' = Some w →
  live (Redis.releaseLeaseScript k token now s).1 t k' = Some w.
Proof.
  intros Ht Hk Hl. unfold Redis.releaseLeaseScript. case_bool_decide as E; [|done].
  pose proof (DEL_spec s now k t k' Ht) as Hs. destruct (DEL s now k) as [s' n]. cbn in *.
  destruct Hs as [_ ->]. rewrite bool_decide_eq_false_2; [done|]. intros ->.
  rewrite (live_expires _ _ _ _ _ Ht Hl) in E. destruct Hk; congruence.
Qed.

Lemma key_prefix r r' kind ref : prefix r' = prefix r → key r' kind ref = key r kind ref.
Proof. unfold Redis.key. by intros ->. Qed.

(** The kinds of keys are apart. *)
Lemma cancel_not_lease r a b : key r "lease" a ≠ key r "cancel" b.
Proof. unfold Redis.key. by intros E%append_inj_r. Qed.
Lemma cancel_not_record r a b : key r "idempotency" a ≠ key r "cancel" b.
Proof. unfold Redis.key. by intros E%append_inj_r. Qed.
Lemma own_lease_not_record r l k : Redis.own_lease r l = true → key r "idempotency" k ≠ l_key l.
Proof.
  unfold Redis.own_lease. intros Ho E. reflect_bools.
  match goal with Hp : has_prefix _ _ = true |- _ => rewrite <-E in Hp; unfold Redis.key in Hp; rewrite has_prefix_common in Hp end.
  done.
Qed.

Lemma perform_send r o now at_ :
  prefix (perform r o now at_) = prefix r ∧
  (client (perform r o now at_) = client r ∨
   client (perform r o now at_) =
     match o with
     | OAcquire res _ ttl random => (SETNX (client r) now (key r "lease" res) (default "" (randomToken random)) ttl).1
     | ORenew l ttl => (Redis.renewLeaseScript (l_key l) (l_token l) (ttl / millisecond) now (client r)).1
     | ORelease l => (Redis.releaseLeaseScript (l_key l) (l_token l) now (client r)).1
     | OPut k v ttl => (SETNX (client r) now (key r "idempotency" k) v ttl).1
     | ORequest j ttl => SET (client r) now (key r "cancel" j) "1" ttl
     | OGet _ | ORequested _ => client r
     end ∧ match o with ORenew l _ | ORelease l => Redis.own_lease r l = true | _ => True end).
Proof.
  destruct o; cbn; unfold Redis.AcquireLease, Redis.RenewLease, Redis.ReleaseLease, Redis.PutIdempotency,
    Redis.GetIdempotency, Redis.RequestCancellation, Redis.CancellationRequested;
  repeat (case_match; try (by auto));
  repeat match goal with
  | E : send _ _ = _ |- _ => apply send_cases in E as (? & [[? ?]|[? ?]])
  | E : negb _ = false |- _ => apply negb_false_iff in E
  | E : Redis.own_lease _ _ && _ = true |- _ => apply andb_true_iff in E as [? _]
  end; simplify_eq/=; auto.
Qed.

Lemma redis_lease_kept r o now at_ res t tok :
  presents tok o = false → now ≤ t → redis_lease_of r res t = Some tok →
  redis_lease_of (perform r o now at_) res t = Some tok.
Proof.
  intros Hp Ht Hl. unfold redis_lease_of in *. destruct (perform_send r o now at_) as [Ep [Ec|[Ec Ho]]];
    rewrite (key_prefix _ _ _ _ Ep), Ec; [done|].
  destruct o; cbn in Hp; try done.
  - by apply SETNX_keeps.
  - apply String.eqb_neq in Hp. apply renewScript_keeps; auto.
  - apply String.eqb_neq in Hp. apply releaseScript_keeps; auto.
  - by apply SETNX_keeps.
  - apply SET_keeps; [done|apply cancel_not_lease|done].
Qed.

Lemma redis_record_kept r o now at_ k t v :
  now ≤ t → redis_record_of r k t = Some v → redis_record_of (perform r o now at_) k t = Some v.
Proof.
  intros Ht Hl. unfold redis_record_of in *. destruct (perform_send r o now at_) as [Ep [Ec|[Ec Ho]]];
    rewrite (key_prefix _ _ _ _ Ep), Ec; [done|].
  destruct o; try done.
  - by apply SETNX_keeps.
  - apply renewScript_keeps; [done|left; by apply own_lease_not_record|done].
  - apply releaseScript_keeps; [done|left; by apply own_lease_not_record|done].
  - by apply SETNX_keeps.
  - apply SET_keeps; [done|apply cancel_not_record|done].
Qed.

Lemma shows_within v now d t : t < now + d → shows (Some v) now d t = Some v.
Proof. intros Ht. unfold shows. by rewrite (proj2 (Z.ltb_lt _ _)). Qed.

Lemma redis_acquire_granted r res owner ttl random now at_ r' l :
  acquire r res owner ttl random now at_ = (r', Ok l) →
  l_resource l = res ∧ redis_issued r' l ∧ valid_ttl ttl = true ∧ redis_lease_of r res now = None ∧
  ∀ t, now ≤ t < now + whole_ms ttl → redis_lease_of r' res t = Some (l_token l).
Proof.
  cbn. unfold Redis.AcquireLease. intros E.
  destruct (validateCoordinatorInput res owner ttl) eqn:Ev; [|done]. apply validateCoordinatorInput_ttl in Ev.
  destruct (randomToken random) as [token|]; [|done].
  destruct (send r _) as [r1 [[]|]] eqn:Es; simplify_eq. apply send_cases in Es as (Ep & [[_ ?]|[Ec [?|Eb]]]); [done..|].
  injection Eb as Eb. symmetry in Eb. cbn. split_and!; try done.
  - unfold redis_issued. cbn. symmetry. by apply key_prefix.
  - by apply (SETNX_created _ _ _ _ _ now) in Eb as [? _].
  - intros t Ht. unfold redis_lease_of. rewrite (key_prefix _ _ _ _ Ep), Ec.
    destruct (SETNX_created _ _ _ _ _ t (proj1 Ht) Eb) as [_ ->]. apply shows_within. lia.
Qed.

Lemma redis_renew_granted r l ttl now at_ r' l' :
  redis_issued r l → renew r l ttl now at_ = (r', Ok l') →
  redis_lease_of r (l_resource l) now = Some (l_token l) ∧ l_token l' = l_token l ∧ l_resource l' = l_resource l ∧
  ∀ t, now ≤ t < now + whole_ms ttl → redis_lease_of r' (l_resource l) t = Some (l_token l).
Proof.
  intros Hi. cbn. unfold Redis.RenewLease. intros E. destruct (negb _); [done|].
  destruct (send r _) as [r1 [n|]] eqn:Es; [|done]. destruct (negb _) eqn:En; simplify_eq. reflect_bools. subst n.
  apply send_cases in Es as (Ep & [[_ ?]|[Ec [?|Eb]]]); [done..|]. injection Eb as Eb.
  unfold redis_lease_of. rewrite (key_prefix _ _ _ _ Ep), <-Hi, Ec. unfold Redis.renewLeaseScript in *.
  destruct (bool_decide (live (client r) now (l_key l) = Some (l_token l))) eqn:El; [|done].
  apply bool_decide_eq_true in El. cbn. split_and!; try done. intros t Ht. rewrite <-?Hi.
  pose proof (PEXPIRE_spec (client r) now (l_key l) (ttl / millisecond) t (l_key l) ltac:(lia)) as Hs.
  destruct (PEXPIRE _ _ _ _) as [s' n]. destruct Hs as [_ Hs]. cbn. rewrite Hs, bool_decide_eq_true_2, El by done.
  apply shows_within. apply Ht.
Qed.

Lemma redis_renew_available r l ttl now at_ :
  redis_issued r l → redis_lease_of r (l_resource l) now = Some (l_token l) → valid_ttl ttl = true →
  (renew r l ttl now at_).2 ≠ Err ErrLeaseLost.
Proof.
  intros Hi Hl Hv. cbn. unfold Redis.RenewLease. destruct (negb _); [done|].
  destruct (send r _) as [r1 [n|]] eqn:Es; [|done].
  apply send_cases in Es as (Ep & [[_ ?]|[Ec [?|Eb]]]); [done..|]. injection Eb as ->.
  unfold Redis.renewLeaseScript. unfold redis_lease_of in Hl. rewrite <-Hi in Hl. rewrite bool_decide_eq_true_2 by done.
  pose proof (PEXPIRE_spec (client r) now (l_key l) (ttl / millisecond) now (l_key l) ltac:(lia)) as Hs.
  destruct (PEXPIRE _ _ _ _) as [s' n]. destruct Hs as [-> _]. cbn. rewrite bool_decide_eq_false_2 by congruence. done.
Qed.

Lemma redis_put_created r k v ttl now r' :
  put_idempotency r k v ttl now = (r', Ok true) →
  redis_record_of r k now = None ∧ ∀ t, now ≤ t < now + whole_ms ttl → redis_record_of r' k t = Some v.
Proof.
  cbn. unfold Redis.PutIdempotency. intros E. destruct (_ ≫= _); [|done].
  destruct (send r _) as [r1 [b|]] eqn:Es; simplify_eq. apply send_cases in Es as (Ep & [[_ ?]|[Ec [?|Eb]]]); [done..|].
  injection Eb as Eb. symmetry in Eb. split.
  - by apply (SETNX_created _ _ _ _ _ now) in Eb as [? _].
  - intros t Ht. unfold redis_record_of. rewrite (key_prefix _ _ _ _ Ep), Ec.
    destruct (SETNX_created _ _ _ _ _ t (proj1 Ht) Eb) as [_ ->]. apply shows_within. lia.
Qed.

#[global] Instance Redis_laws : CoordinatorLaws (RedisCoordinator S).
Proof.
  refine {| lease_of := redis_lease_of; record_of := redis_record_of; issued := redis_issued |}.
  - intros r o now at_ l Hi. unfold redis_issued in *. destruct (perform_send r o now at_) as [Ep _].
    by rewrite (key_prefix _ _ _ _ Ep).
  - apply redis_acquire_granted.
  - apply redis_renew_granted.
  - apply redis_renew_available.
  - intros r l now r' tok Hi E Hl. cbn in E. unfold Redis.ReleaseLease in E. destruct (negb _); [done|].
    destruct (send r _) as [r1 [n|]] eqn:Es; [|done]. destruct (negb _) eqn:En; simplify_eq. reflect_bools. subst n.
    apply send_cases in Es as (Ep & [[_ ?]|[Ec [?|Eb]]]); [done..|]. injection Eb as Eb.
    unfold Redis.releaseLeaseScript in Eb. unfold redis_lease_of in Hl. rewrite <-Hi in Hl.
    case_bool_decide as El; [congruence|done].
  - apply redis_lease_kept.
  - apply redis_put_created.
  - intros r k now o E. cbn in E. unfold Redis.GetIdempotency in E. destruct (validateReference k); [|done].
    destruct (send r _) as [r1 [x|]] eqn:Es; [|done]. cbn in E. simplify_eq.
    apply send_cases in Es as (_ & [[_ ?]|[_ [?|Eb]]]); [done..|]. by injection Eb.
  - apply redis_record_kept.
Defined.
End redis_laws.

(** ** A server that keeps the laws: a map of values with their expiry *)

Abbreviation Table := (gmap string (string * time)).
Definition table_live (s : Table) (t : time) (k : string) : option string :=
  c ← s !! k; if (t <? c.2)%Z then Some c.1 else None.

#[global] Instance Table_server : RedisServer Table := {|
  live := table_live;
  SETNX s now k v ttl := if table_live s now k is Some _ then (s, false) else (<[k := (v, now + whole_ms ttl)]> s, true);
  SET s now k v ttl := <[k := (v, now + whole_ms ttl)]> s;
  PEXPIRE s now k ms :=
    match table_live s now k with
    | Some v => (<[k := (v, now + ms * millisecond)]> s, 1)
    | None => (delete k s, 0)
    end;
  DEL s now k := (delete k s, if table_live s now k is Some _ then 1 else 0);
|}.

Lemma table_live_insert s t k k' v e :
  table_live (<[k := (v, e)]> s) t k' = if bool_decide (k' = k) then (if (t <? e)%Z then Some v else None) else table_live s t k'.
Proof.
  unfold table_live. case_bool_decide as E; [subst; by rewrite lookup_insert_eq|by rewrite lookup_insert_ne].
Qed.

Lemma table_live_delete s t k k' :
  table_live (delete k s) t k' = if bool_decide (k' = k) then None else table_live s t k'.
Proof.
  unfold table_live. case_bool_decide as E; [subst; by rewrite lookup_delete_eq|by rewrite lookup_delete_ne].
Qed.

Lemma table_live_later s t t' k v : t ≤ t' → table_live s t' k = Some v → table_live s t k = Some v.
Proof.
  unfold table_live. destruct (s !! k) as [c|]; cbn; [|done]. intros Ht.
  destruct (t' <? c.2)%Z eqn:?; [|done]. reflect_bools. by rewrite (proj2 (Z.ltb_lt _ _)) by lia.
Qed.

Lemma table_live_expired s now t k : now ≤ t → table_live s now k = None → table_live s t k = None.
Proof.
  intros Ht Hn. destruct (table_live s t k) eqn:E; [|done]. apply (table_live_later _ now) in E; [|done]. congruence.
Qed.

#[global] Instance Table_laws : RedisLaws Table.
Proof.
  split; cbn.
  - apply table_live_later.
  - intros s now k v ttl t k' Ht. destruct (table_live s now k) eqn:E; [done|].
    split; [by rewrite bool_decide_eq_true_2|]. rewrite table_live_insert. unfold shows.
    repeat case_bool_decide; naive_solver.
  - intros. by rewrite table_live_insert.
  - intros s now k ms t k' Ht. destruct (table_live s now k) as [v|] eqn:E.
    + split; [done|]. by rewrite table_live_insert.
    + split; [done|]. rewrite table_live_delete. unfold shows. case_bool_decide; [|done]. by case_match.
  - intros s now k t k' Ht. split; [by destruct (table_live s now k)|]. apply table_live_delete.
Qed.

(** * Properties *)

(** while a lease that [MemoryCoordinator] granted has not expired and its
    token has not been used to renew or release it, no other caller can
    acquire the resource, its holder is never told that the lease was lost,
    and no lease with another token can renew or release it, whatever
    operations happen in between. *)
Theorem memory_lease_exclusive (s s1 s2 : MemoryCoordinator) r owner ttl random now at_ l now2 u :
  Memory.AcquireLease s r owner ttl random now at_ = (s1, Ok l) →
  coord_steps (λ o, presents (l_token l) o = false) s1 now s2 now2 →
  now2 ≤ u < now + whole_ms ttl →
  (∀ owner' ttl' random' at' l', (Memory.AcquireLease s2 r owner' ttl' random' u at').2 ≠ Ok l') ∧
  (∀ ttl' at', valid_ttl ttl' = true → (Memory.RenewLease s2 l ttl' u at').2 ≠ Err ErrLeaseLost) ∧
  (∀ l' ttl' at' x, l_resource l' = r → l_token l' ≠ l_token l →
     (Memory.RenewLease s2 l' ttl' u at').2 ≠ Ok x ∧ (Memory.ReleaseLease s2 l' u).2 ≠ Ok tt).
Proof.
  intros Ha Hs Hu. destruct (@laws_exclusive _ _ Memory_laws s r owner ttl random now at_ s1 l s2 now2 u Ha Hs Hu) as (H1 & H2 & H3).
  split_and!; [exact H1|exact H2|]. intros l' ttl' at' x. by apply H3.
Qed.

Definition demo_bytes : string := "0123456789abcdef0123456789abcdef".
Definition demo_lease : Lease := mkLease "task" (b64_encode demo_bytes) (60 * second) "task".

Lemma memory_lease_exclusive_witness :
  (Memory.AcquireLease (Memory.AcquireLease NewMemoryCoordinator "task" "worker1" minute (Some demo_bytes) 0 0).1
     "task" "worker2" minute (Some demo_bytes) (30 * second) 0).2 ≠ Ok demo_lease.
Proof.
  refine (proj1 (memory_lease_exclusive NewMemoryCoordinator _ _ "task" "worker1" minute (Some demo_bytes) 0 0
    demo_lease 0 (30 * second) _ (coord_nil _ _ _) _) "worker2" minute (Some demo_bytes) 0 demo_lease).
  - vm_compute. reflexivity.
  - vm_compute. split; [discriminate|reflexivity].
Defined.

(** C27: A lease of the Redis coordinator is exclusive.  After a caller has
    acquired a resource, and until the lifetime that the server keeps for it is
    over, counted in whole milliseconds from the instant the server executed the
    acquisition: no caller acquires the resource again; the holder's renewal does
    not report the lease as lost; and a lease of the resource with another token is
    neither renewed nor released.  This holds over any server with the documented
    behaviour of the commands, after any operations of any callers that do not
    present the holder's token, with any requests and replies lost; a command that
    the client library sends again counts as one operation per sending. *)
Theorem redis_lease_exclusive (sha256 : string → string) {S} `{RedisLaws S}
    (s s1 s2 : RedisCoordinator S) r owner ttl random now at_ l now2 u :
  Redis.AcquireLease sha256 s r owner ttl random now at_ = (s1, Ok l) →
  @coord_steps _ (Redis.Redis_Coordinator sha256) (λ o, presents (l_token l) o = false) s1 now s2 now2 →
  now2 ≤ u < now + whole_ms ttl →
  (∀ owner' ttl' random' at' l', (Redis.AcquireLease sha256 s2 r owner' ttl' random' u at').2 ≠ Ok l') ∧
  (∀ ttl' at', valid_ttl ttl' = true → (Redis.RenewLease s2 l ttl' u at').2 ≠ Err ErrLeaseLost) ∧
  (∀ l' ttl' at' x, l_key l' = Redis.key sha256 s2 "lease" r → l_resource l' = r → l_token l' ≠ l_token l →
     (Redis.RenewLease s2 l' ttl' u at').2 ≠ Ok x ∧ (Redis.ReleaseLease s2 l' u).2 ≠ Ok tt).
Proof.
  intros Ha Hs Hu.
  destruct (@laws_exclusive _ _ (Redis_laws sha256) s r owner ttl random now at_ s1 l s2 now2 u Ha Hs Hu) as (H1 & H2 & H3).
  split_and!; [exact H1|exact H2|]. intros l' ttl' at' x Hk Hr. apply H3; [|done]. cbn. unfold redis_issued. by rewrite Hr.
Qed.

(** A digest of the right length, for the examples. *)
Definition demo_sha256 (s : string) : string := take_str 32 (s +:+ demo_bytes).
Definition demo_redis : RedisCoordinator Table := mkRedis ∅ (coordinatorPrefix demo_sha256 "inst") [].

Definition demo_redis1 : RedisCoordinator Table :=
  (Redis.AcquireLease demo_sha256 demo_redis "task" "worker1" minute (Some demo_bytes) 0 5).1.

(** An acquisition whose reply is lost and which is sent again finds its own
    token, and reports the lease as held. *)
Example resent_acquisition :
  let lost := mkRedis (client demo_redis) (prefix demo_redis) [ReplyLost] in
  let '(r1, first) := Redis.AcquireLease demo_sha256 lost "task" "worker1" minute (Some demo_bytes) 0 5 in
  let '(r2, again) := Redis.AcquireLease demo_sha256 r1 "task" "worker1" minute (Some demo_bytes) second 5 in
  first = Err (Refused "acquire Redis task lease") ∧ again = Err ErrLeaseHeld ∧
  live (client r2) second (Redis.key demo_sha256 r2 "lease" "task") = Some (b64_encode demo_bytes).
Proof. vm_compute. by split_and!. Qed.

Lemma redis_lease_exclusive_witness :
  (Redis.AcquireLease demo_sha256 demo_redis1 "task" "worker2" minute (Some demo_bytes) (30 * second) 0).2 ≠ Ok demo_lease.
Proof.
  refine (proj1 (redis_lease_exclusive demo_sha256 demo_redis demo_redis1 demo_redis1 "task" "worker1" minute (Some demo_bytes) 0 5
    (mkLease (Redis.key demo_sha256 demo_redis "lease" "task") (b64_encode demo_bytes) (5 + minute) "task")
    0 (30 * second) _ (@coord_nil _ (Redis.Redis_Coordinator demo_sha256) _ _ _) _) "worker2" minute (Some demo_bytes) 0 demo_lease).
  - apply injective_projections; [reflexivity|vm_compute; reflexivity].
  - vm_compute. split; [discriminate|reflexivity].
Defined.

(** once a result reference was recorded for an idempotency key, then for
    its lifetime no later call records another one, and every read that
    answers returns the recorded reference, in both coordinators, whatever
    operations happen in between and whatever the network loses. *)
Theorem idempotency_first_wins (sha256 : string → string) {S} `{RedisLaws S} k v ttl now now2 u :
  now2 ≤ u < now + whole_ms ttl →
  (∀ s s1 s2 : MemoryCoordinator,
     Memory.PutIdempotency s k v ttl now = (s1, Ok true) → coord_steps (λ _, True) s1 now s2 now2 →
     (∀ v' ttl', (Memory.PutIdempotency s2 k v' ttl' u).2 ≠ Ok true) ∧
     (∀ o, (Memory.GetIdempotency s2 k u).2 = Ok o → o = Some v)) ∧
  (∀ s s1 s2 : RedisCoordinator S,
     Redis.PutIdempotency sha256 s k v ttl now = (s1, Ok true) →
     @coord_steps _ (Redis.Redis_Coordinator sha256) (λ _, True) s1 now s2 now2 →
     (∀ v' ttl', (Redis.PutIdempotency sha256 s2 k v' ttl' u).2 ≠ Ok true) ∧
     (∀ o, (Redis.GetIdempotency sha256 s2 k u).2 = Ok o → o = Some v)).
Proof.
  intros Hu. split; intros s s1 s2 Hp Hs.
  - exact (@laws_idempotent _ _ Memory_laws s k v ttl now s1 s2 now2 u Hp Hs Hu).
  - exact (@laws_idempotent _ _ (Redis_laws sha256) s k v ttl now s1 s2 now2 u Hp Hs Hu).
Qed.

Lemma idempotency_first_wins_witness :
  (Memory.PutIdempotency (Memory.PutIdempotency NewMemoryCoordinator "key1" "job_1" minute 0).1 "key1" "job_2" minute second).2
  ≠ Ok true.
Proof.
  refine (proj1 (proj1 (idempotency_first_wins demo_sha256 (S := Table) "key1" "job_1" minute 0 0 second _)
    NewMemoryCoordinator _ _ _ (coord_nil _ _ _)) "job_2" minute).
  - vm_compute. split; [discriminate|reflexivity].
  - vm_compute. reflexivity.
Defined.
