(* ===== verification/Snapshot.v ===== *)
(** * The runtime snapshot parser

    Models [parseLinuxSnapshot] of
    [services/control-plane/internal/snapshot/collector.go], which turns the
    output of the fixed snapshot command into a [RuntimeSnapshot].
    [strconv.ParseFloat] is a parameter; [bufio.Scanner] is modelled with its
    64 KiB line limit. *)

From S2P Require Import Prelude GoStrings Encoding Protocol Model.

Definition tab : ascii := "009"%char.
Definition carriage_return : ascii := "013"%char.

(** [value[:max]] of the trimmed text: a cut at a byte. *)
Definition boundedText (value : string) (max : Z) : string :=
  let value := trim_space value in
  if (max <? slen value)%Z then take_str (Z.to_nat max) value else value.

Definition displayField (field : string) : string :=
  if field =? "uptime" then "uptimeSeconds"
  else if field =? "memory_kib" then "memory"
  else if field =? "cpu_model" then "cpuModel"
  else if field =? "cpu_logical" then "cpuLogicalCores"
  else if field =? "filesystem" then "filesystems"
  else field.

(** [bufio.ScanLines] drops one trailing carriage return. *)
Fixpoint drop_cr (s : string) : string :=
  match s with
  | EmptyString => EmptyString
  | String a EmptyString => if Ascii.eqb a carriage_return then EmptyString else s
  | String a s' => String a (drop_cr s')
  end.

(** The lines a [bufio.Scanner] with the given buffer limit delivers from the
    newline-separated segments, and whether it stopped at a line too long for
    its buffer.  An empty last segment is no line. *)
Fixpoint scan_segments (limit : Z) (segments : list string) : list string * bool :=
  match segments with
  | [] => ([], false)
  | s :: rest =>
    if bool_decide (rest = []) && (s =? "") then ([], false)
    else if (limit <=? slen s)%Z then ([], true)
    else let '(lines, err) := scan_segments limit rest in (drop_cr s :: lines, err)
  end.
Definition scan_lines (limit : Z) (output : string) : list string * bool :=
  scan_segments limit (split_char newline output).

Definition fields : list string :=
  ["hostname"; "kernel"; "uptime"; "load"; "memory_kib"; "cpu_model"; "cpu_logical"; "filesystem"].

(** The snapshot being built, its [FieldErrors] map and the names seen. *)
Record progress := mkProgress {
  snapshot : RuntimeSnapshot;
  errors : gmap string string;
  seen : gset string;
}.

Definition zero : float64 := S754_zero false.

Definition set_hostname s v := mkRuntimeSnapshot (ObservedAt s) v (Kernel s) (UptimeSeconds s) (Load s)
  (MemoryTotalBytes s) (MemoryAvailableBytes s) (CPUModel s) (CPULogicalCores s) (Filesystems s) (FieldErrors s).
Definition set_kernel s v := mkRuntimeSnapshot (ObservedAt s) (Hostname s) v (UptimeSeconds s) (Load s)
  (MemoryTotalBytes s) (MemoryAvailableBytes s) (CPUModel s) (CPULogicalCores s) (Filesystems s) (FieldErrors s).
Definition set_uptime s v := mkRuntimeSnapshot (ObservedAt s) (Hostname s) (Kernel s) v (Load s)
  (MemoryTotalBytes s) (MemoryAvailableBytes s) (CPUModel s) (CPULogicalCores s) (Filesystems s) (FieldErrors s).
Definition set_load s v := mkRuntimeSnapshot (ObservedAt s) (Hostname s) (Kernel s) (UptimeSeconds s) v
  (MemoryTotalBytes s) (MemoryAvailableBytes s) (CPUModel s) (CPULogicalCores s) (Filesystems s) (FieldErrors s).
Definition set_memory s total available := mkRuntimeSnapshot (ObservedAt s) (Hostname s) (Kernel s) (UptimeSeconds s) (Load s)
  total available (CPUModel s) (CPULogicalCores s) (Filesystems s) (FieldErrors s).
Definition set_cpu_model s v := mkRuntimeSnapshot (ObservedAt s) (Hostname s) (Kernel s) (UptimeSeconds s) (Load s)
  (MemoryTotalBytes s) (MemoryAvailableBytes s) v (CPULogicalCores s) (Filesystems s) (FieldErrors s).
Definition set_cpu_cores s v := mkRuntimeSnapshot (ObservedAt s) (Hostname s) (Kernel s) (UptimeSeconds s) (Load s)
  (MemoryTotalBytes s) (MemoryAvailableBytes s) (CPUModel s) v (Filesystems s) (FieldErrors s).
Definition set_filesystems s v := mkRuntimeSnapshot (ObservedAt s) (Hostname s) (Kernel s) (UptimeSeconds s) (Load s)
  (MemoryTotalBytes s) (MemoryAvailableBytes s) (CPUModel s) (CPULogicalCores s) v (FieldErrors s).
Definition set_errors s v := mkRuntimeSnapshot (ObservedAt s) (Hostname s) (Kernel s) (UptimeSeconds s) (Load s)
  (MemoryTotalBytes s) (MemoryAvailableBytes s) (CPUModel s) (CPULogicalCores s) (Filesystems s) v.

Section parser.
Context (ParseFloat : string → option float64).

Definition load_value (s : string) : option float64 :=
  match ParseFloat s with
  | None => None
  | Some value =>
    match value with
    | S754_nan | S754_infinity _ => None
    | _ => if SFltb value zero then None else Some value
    end
  end.

(** The [switch] on the name of a line that was not seen before: the snapshot
    and the field errors after it. *)
Definition record_line (s : RuntimeSnapshot) (e : gmap string string) (parts : list string)
    : RuntimeSnapshot * gmap string string :=
  let part n := nth n parts "" in
  let count := length parts in
  let name := part 0%nat in
  if name =? "hostname" then (set_hostname s (boundedText (part 1%nat) 255), e)
  else if name =? "kernel" then (set_kernel s (boundedText (part 1%nat) 512), e)
  else if name =? "uptime" then
    match parse_uint 64 (part 1%nat) with
    | Some value => (set_uptime s value, e)
    | None => (s, <["uptimeSeconds" := "unavailable"]> e)
    end
  else if name =? "load" then
    if negb (count =? 4)%nat then (s, <["load" := "unavailable"]> e)
    else match load_value (part 1%nat), load_value (part 2%nat), load_value (part 3%nat) with
    | Some a, Some b, Some c => (set_load s (a, b, c), e)
    | _, _, _ => (set_load s (zero, zero, zero), <["load" := "unavailable"]> e)
    end
  else if name =? "memory_kib" then
    if negb (count =? 3)%nat then (s, <["memory" := "unavailable"]> e)
    else match parse_uint 64 (part 1%nat), parse_uint 64 (part 2%nat) with
    | Some total, Some available =>
      if (total <? available)%Z || ((2 ^ 64 - 1) / 1024 <? total)%Z then (s, <["memory" := "unavailable"]> e)
      else (set_memory s (u64 (total * 1024)) (u64 (available * 1024)), e)
    | _, _ => (s, <["memory" := "unavailable"]> e)
    end
  else if name =? "cpu_model" then (set_cpu_model s (boundedText (part 1%nat) 512), e)
  else if name =? "cpu_logical" then
    match parse_uint 32 (part 1%nat) with
    | Some value => if (value =? 0)%Z || (65536 <? value)%Z then (s, <["cpuLogicalCores" := "unavailable"]> e)
                    else (set_cpu_cores s value, e)
    | None => (s, <["cpuLogicalCores" := "unavailable"]> e)
    end
  else if name =? "filesystem" then
    if negb (count =? 5)%nat || (256 <=? length (Filesystems s))%nat then
      (s, <["filesystems" := "partial or unavailable"]> e)
    else match parse_uint 64 (part 2%nat), parse_uint 64 (part 3%nat), parse_uint 64 (part 4%nat) with
    | Some total, Some used, Some free =>
      if (total <? used)%Z || (total <? free)%Z then (s, <["filesystems" := "partial or unavailable"]> e)
      else (set_filesystems s (Filesystems s ++ [mkFilesystemUsage (boundedText (part 1%nat) 1024) total used free]), e)
    | _, _, _ => (s, <["filesystems" := "partial or unavailable"]> e)
    end
  else (s, e).

Definition parse_line (p : progress) (line : string) : progress :=
  let parts := split_char tab line in
  let name := nth 0 parts "" in
  if (length parts <? 2)%nat || bool_decide (name ∈ seen p) then p
  else let '(s, e) := record_line (snapshot p) (errors p) parts in mkProgress s e ({[name]} ∪ seen p).

Definition empty_snapshot (observedAt : time) : RuntimeSnapshot :=
  mkRuntimeSnapshot observedAt "" "" 0 (zero, zero, zero) 0 0 "" 0 [] (Some ∅).

Definition parseLinuxSnapshot (output : string) (observedAt : time) : RuntimeSnapshot :=
  let '(lines, err) := scan_lines 65536 output in
  let p := fold_left parse_line lines (mkProgress (empty_snapshot observedAt) ∅ ∅) in
  let e1 := if err : bool then <["collectorOutput" := "truncated or invalid"]> (errors p) else errors p in
  let e2 := fold_left (λ e field, if bool_decide (field ∈ seen p) then e
                                  else <[displayField field := "unavailable"]> e) fields e1 in
  set_errors (snapshot p) (if bool_decide (e2 = ∅) then None else Some e2).
End parser.

(** ** Lemmas *)

Lemma take_str_length n s : slen (take_str n s) ≤ Z.of_nat n.
Proof. unfold slen. revert s. induction n as [|n IH]; intros [|a s]; cbn; try lia. specialize (IH s). lia. Qed.

Lemma boundedText_length v max : 0 ≤ max → slen (boundedText v max) ≤ max.
Proof.
  intros Hm. unfold boundedText. destruct (max <? _)%Z eqn:E; reflect_bools; [|lia].
  pose proof (take_str_length (Z.to_nat max) (trim_space v)). lia.
Qed.

Lemma parse_digits_nonneg s acc n : 0 ≤ acc → parse_digits acc s = Some n → 0 ≤ n.
Proof.
  revert acc. induction s as [|a s IH]; cbn; intros acc Ha H; [by simplify_eq|].
  apply bind_Some in H as (d & Hd & H). apply IH in H; [done|].
  unfold digit_val in Hd. destruct (in_range 48 57 (byte_val a)) eqn:E; simplify_eq. apply in_range_true in E. lia.
Qed.

Lemma parse_uint_range bits s n : parse_uint bits s = Some n → 0 ≤ n < 2 ^ bits.
Proof.
  unfold parse_uint. case_match; [done|]. intros H'. apply bind_Some in H' as (m & Hm & H').
  case_match; simplify_eq. reflect_bools. split; [|done]. by eapply parse_digits_nonneg in Hm.
Qed.

(** What holds of a snapshot at every point of the parsing. *)
Record sound (s : RuntimeSnapshot) : Prop := mkSound {
  sound_text : slen (Hostname s) ≤ 255 ∧ slen (Kernel s) ≤ 512 ∧ slen (CPUModel s) ≤ 512;
  sound_uptime : 0 ≤ UptimeSeconds s < 2 ^ 64;
  sound_memory : 0 ≤ MemoryAvailableBytes s ≤ MemoryTotalBytes s ∧ MemoryTotalBytes s < 2 ^ 64;
  sound_cores : 0 ≤ CPULogicalCores s ≤ 65536;
  sound_filesystems : Forall (λ f, slen (Mount f) ≤ 1024 ∧ 0 ≤ UsedBytes f ≤ TotalBytes f ∧
                                   0 ≤ FreeBytes f ≤ TotalBytes f ∧ TotalBytes f < 2 ^ 64) (Filesystems s);
}.

Lemma sound_set_text s v :
  sound s → sound (set_hostname s (boundedText v 255)) ∧ sound (set_kernel s (boundedText v 512)) ∧
            sound (set_cpu_model s (boundedText v 512)).
Proof.
  pose proof (boundedText_length v 255 ltac:(lia)). pose proof (boundedText_length v 512 ltac:(lia)).
  intros [(? & ? & ?) ? ? ? ?]. split_and!; constructor; done.
Qed.

Lemma sound_set_uptime s v : 0 ≤ v < 2 ^ 64 → sound s → sound (set_uptime s v).
Proof. intros Hv [? ? ? ? ?]. by constructor. Qed.

Lemma sound_set_load s v : sound s → sound (set_load s v).
Proof. intros [? ? ? ? ?]. by constructor. Qed.

Lemma sound_set_memory s total available :
  0 ≤ available ≤ total → total ≤ (2 ^ 64 - 1) / 1024 → sound s →
  sound (set_memory s (u64 (total * 1024)) (u64 (available * 1024))).
Proof.
  intros Ha Ht [? ? ? ? ?]. constructor; try done. unfold set_memory. cbn [MemoryAvailableBytes MemoryTotalBytes].
  change ((2 ^ 64 - 1) / 1024) with 18014398509481983 in Ht. rewrite !u64_small; change (2 ^ 64) with 18446744073709551616; lia.
Qed.

Lemma sound_set_cores s v : 0 ≤ v ≤ 65536 → sound s → sound (set_cpu_cores s v).
Proof. intros Hv [? ? ? ? ?]. by constructor. Qed.

Lemma sound_add_filesystem s m total used free :
  0 ≤ used ≤ total → 0 ≤ free ≤ total → total < 2 ^ 64 → sound s →
  sound (set_filesystems s (Filesystems s ++ [mkFilesystemUsage (boundedText m 1024) total used free])).
Proof.
  intros Hu Hf Ht [? ? ? ? Hfs]. constructor; try done. apply Forall_app. split; [done|].
  constructor; [|done]. cbn [Mount UsedBytes TotalBytes FreeBytes].
  split; [apply boundedText_length; lia|]. split_and!; (done || lia).
Qed.

Lemma record_line_sound pf s e parts : sound s → sound (record_line pf s e parts).1.
Proof.
  intros Hs. unfold record_line. set (part := λ n, nth n parts ""). generalize (part 0%nat) as name. intros name.
  repeat (case_match; cbn [fst]; [try exact Hs; try (by apply sound_set_text)|]); try exact Hs;
    repeat case_match; cbn [fst]; try exact Hs; try (by apply sound_set_load); reflect_bools;
    repeat match goal with H : parse_uint _ _ = Some _ |- _ => apply parse_uint_range in H end.
  - by apply sound_set_uptime.
  - apply sound_set_memory; [lia..|done].
  - apply sound_set_cores; [lia|done].
  - apply sound_add_filesystem; [lia..|done].
Qed.

(** ** What the lines say

    An independent reading: each field is read from the first line that names it
    and has a second column, and a field that cannot be read keeps its zero value
    and is flagged under the name it has in the snapshot. *)

Definition names (parts : list string) (field : string) : bool := (nth 0 parts "" =? field) && (2 <=? length parts)%nat.

(** The columns of the first line for a field. *)
Fixpoint first_line (lines : list string) (field : string) : option (list string) :=
  match lines with
  | [] => None
  | line :: rest =>
    let parts := split_char tab line in
    if names parts field then Some parts else first_line rest field
  end.

Definition text_of (limit : Z) (parts : list string) : option string := Some (boundedText (nth 1 parts "") limit).
Definition uptime_of (parts : list string) : option Z := parse_uint 64 (nth 1 parts "").
Definition load_of ParseFloat (parts : list string) : option (float64 * float64 * float64) :=
  match parts with
  | [_; a; b; c] =>
    a ← load_value ParseFloat a; b ← load_value ParseFloat b; c ← load_value ParseFloat c; Some (a, b, c)
  | _ => None
  end.
Definition memory_of (parts : list string) : option (Z * Z) :=
  match parts with
  | [_; total; available] =>
    total ← parse_uint 64 total; available ← parse_uint 64 available;
    if bool_decide (available ≤ total ∧ total * 1024 < 2 ^ 64) then Some (total * 1024, available * 1024) else None
  | _ => None
  end.
Definition cores_of (parts : list string) : option Z :=
  n ← parse_uint 32 (nth 1 parts ""); if bool_decide (1 ≤ n ≤ 65536) then Some n else None.
Definition filesystem_of (parts : list string) : option (list FilesystemUsage) :=
  match parts with
  | [_; mount; total; used; free] =>
    total ← parse_uint 64 total; used ← parse_uint 64 used; free ← parse_uint 64 free;
    if bool_decide (used ≤ total ∧ free ≤ total) then Some [mkFilesystemUsage (boundedText mount 1024) total used free] else None
  | _ => None
  end.

(** A field and its flag, for the line it is read from; [missing] is the flag of
    a field without a line. *)
Definition states {A} (missing : option string) (line : option (list string)) (read : list string → option A)
    (complaint : string) (zero value : A) (flag : option string) : Prop :=
  match line with
  | None => value = zero ∧ flag = missing
  | Some parts => match read parts with
                  | Some v => value = v ∧ flag = None
                  | None => value = zero ∧ flag = Some complaint
                  end
  end.

Record reported ParseFloat (missing : option string) (line : string → option (list string))
    (s : RuntimeSnapshot) (e : gmap string string) : Prop := mkReported {
  rep_hostname : states missing (line "hostname") (text_of 255) "" "" (Hostname s) (e !! "hostname");
  rep_kernel : states missing (line "kernel") (text_of 512) "" "" (Kernel s) (e !! "kernel");
  rep_uptime : states missing (line "uptime") uptime_of "unavailable" 0 (UptimeSeconds s) (e !! "uptimeSeconds");
  rep_load : states missing (line "load") (load_of ParseFloat) "unavailable" (zero, zero, zero) (Load s) (e !! "load");
  rep_memory : states missing (line "memory_kib") memory_of "unavailable" (0, 0)
                 (MemoryTotalBytes s, MemoryAvailableBytes s) (e !! "memory");
  rep_model : states missing (line "cpu_model") (text_of 512) "" "" (CPUModel s) (e !! "cpuModel");
  rep_cores : states missing (line "cpu_logical") cores_of "unavailable" 0 (CPULogicalCores s) (e !! "cpuLogicalCores");
  rep_filesystems : states missing (line "filesystem") filesystem_of "partial or unavailable" []
                      (Filesystems s) (e !! "filesystems");
}.

(** The names under which a field can be flagged. *)
Definition labels : list string :=
  ["hostname"; "kernel"; "uptimeSeconds"; "load"; "memory"; "cpuModel"; "cpuLogicalCores"; "filesystems"].

Lemma first_line_snoc lines line field :
  first_line (lines ++ [line]) field =
  match first_line lines field with
  | Some parts => Some parts
  | None => if names (split_char tab line) field then Some (split_char tab line) else None
  end.
Proof. induction lines as [|l lines IH]; cbn [app first_line]; [done|]. cbv zeta. rewrite IH. by destruct (names (split_char tab l) field). Qed.

Lemma states_other {A} m l r c (z v : A) f l' : l' = l → states m l r c z v f → states m l' r c z v f.
Proof. by intros ->. Qed.

(** The readers, in the shape of the code. *)
Lemma read_load pf parts : load_of pf parts =
  if negb (length parts =? 4)%nat then None else
  match load_value pf (nth 1 parts ""), load_value pf (nth 2 parts ""), load_value pf (nth 3 parts "") with
  | Some a, Some b, Some c => Some (a, b, c) | _, _, _ => None end.
Proof.
  do 4 (destruct parts as [|? parts]; [done|]). destruct parts; [|done]. cbn.
  by destruct (load_value _ _), (load_value _ _) in |- *, (load_value _ _) in |- *.
Qed.

Lemma read_memory parts : memory_of parts =
  if negb (length parts =? 3)%nat then None else
  match parse_uint 64 (nth 1 parts ""), parse_uint 64 (nth 2 parts "") with
  | Some total, Some available =>
    if (total <? available)%Z || ((2 ^ 64 - 1) / 1024 <? total)%Z then None
    else Some (u64 (total * 1024), u64 (available * 1024))
  | _, _ => None end.
Proof.
  do 3 (destruct parts as [|? parts]; [done|]). destruct parts; [|done]. cbn -[parse_uint Z.pow Z.div Z.mul].
  destruct (parse_uint 64 _) as [total|] eqn:Et, (parse_uint 64 _) as [available|] eqn:Ea in |- *; try done.
  apply parse_uint_range in Et, Ea. cbn -[Z.pow Z.div Z.mul]. change ((2 ^ 64 - 1) / 1024) with 18014398509481983.
  case_bool_decide as H; case_match eqn:E; reflect_bools; try lia; [|done].
  by rewrite !u64_small by (change (2 ^ 64) with 18446744073709551616 in *; lia).
Qed.

Lemma read_cores parts : cores_of parts =
  match parse_uint 32 (nth 1 parts "") with
  | Some n => if (n =? 0)%Z || (65536 <? n)%Z then None else Some n
  | None => None end.
Proof.
  unfold cores_of. destruct (parse_uint 32 _) as [n|] eqn:E; [|done]. apply parse_uint_range in E. cbn.
  case_bool_decide; case_match eqn:E'; reflect_bools; (done || lia).
Qed.

Lemma read_filesystem parts : filesystem_of parts =
  if negb (length parts =? 5)%nat then None else
  match parse_uint 64 (nth 2 parts ""), parse_uint 64 (nth 3 parts ""), parse_uint 64 (nth 4 parts "") with
  | Some total, Some used, Some free =>
    if (total <? used)%Z || (total <? free)%Z then None
    else Some [mkFilesystemUsage (boundedText (nth 1 parts "") 1024) total used free]
  | _, _, _ => None end.
Proof.
  do 5 (destruct parts as [|? parts]; [done|]). destruct parts; [|done]. cbn -[parse_uint boundedText].
  destruct (parse_uint 64 _) as [total|], (parse_uint 64 _) as [used|] in |- *, (parse_uint 64 _) as [free|] in |- *; try done.
  cbn -[boundedText]. case_bool_decide; case_match eqn:E; reflect_bools; (done || lia).
Qed.

(** One field of a line: another field keeps what it has, and the field of the
    line has what its reader says. *)
Ltac report_field Ho Hs := constructor; cbn [Hostname Kernel UptimeSeconds Load MemoryTotalBytes MemoryAvailableBytes
    CPUModel CPULogicalCores Filesystems set_hostname set_kernel set_uptime set_load set_memory set_cpu_model set_cpu_cores
    set_filesystems fst snd];
  try (rewrite Ho by done; rewrite ?lookup_insert_ne by done; assumption);
  rewrite Hs; unfold states, text_of, uptime_of; rewrite ?read_load, ?read_memory, ?read_cores, ?read_filesystem;
  repeat match goal with H : ?x = _ |- context [match ?x with _ => _ end] => rewrite H; cbv iota end;
  rewrite ?lookup_insert_eq; try done.

(** A line for a field without one so far reports that field, and only it. *)
Lemma record_line_reported pf line line' s e parts :
  reported pf None line s e → line (nth 0 parts "") = None → line' (nth 0 parts "") = Some parts →
  (∀ f, f ≠ nth 0 parts "" → line' f = line f) →
  reported pf None line' (record_line pf s e parts).1 (record_line pf s e parts).2.
Proof.
  intros [R1 R2 R3 R4 R5 R6 R7 R8] Hn Hs Ho. unfold record_line.
  generalize dependent (nth 0 parts ""). intros name Hn Hs Ho.
  destruct (String.eqb_spec name "hostname") as [->|N1];
    [|destruct (String.eqb_spec name "kernel") as [->|N2];
    [|destruct (String.eqb_spec name "uptime") as [->|N3];
    [|destruct (String.eqb_spec name "load") as [->|N4];
    [|destruct (String.eqb_spec name "memory_kib") as [->|N5];
    [|destruct (String.eqb_spec name "cpu_model") as [->|N6];
    [|destruct (String.eqb_spec name "cpu_logical") as [->|N7];
    [|destruct (String.eqb_spec name "filesystem") as [->|N8]]]]]]]];
    match goal with
    | H : states None (line ?f) _ _ _ _ _, Hn : line ?f = None |- _ => rewrite Hn in H; destruct H as [Hz He]
    | _ => idtac
    end.
  - report_field Ho Hs.
  - report_field Ho Hs.
  - case_match; report_field Ho Hs.
  - case_match; [|repeat case_match]; report_field Ho Hs.
  - case_match; [|case_match; [case_match; [case_match|]|]]; report_field Ho Hs.
  - report_field Ho Hs.
  - case_match; [case_match|]; report_field Ho Hs.
  - rewrite Hz, orb_false_r by done. case_match; [|repeat case_match]; report_field Ho Hs.
  - report_field Ho Hs.
Qed.

Lemma record_line_labels pf s e parts k :
  is_Some ((record_line pf s e parts).2 !! k) → is_Some (e !! k) ∨ k ∈ labels.
Proof.
  unfold record_line. generalize (nth 0 parts "") as name. intros name.
  repeat (case_match; cbn [snd]; try (intros; by left)); rewrite lookup_insert_is_Some'; (intros [<- |?]; [right|by left]);
    apply (bool_decide_unpack _); exact I.
Qed.

Lemma record_line_observed pf s e parts : ObservedAt (record_line pf s e parts).1 = ObservedAt s.
Proof. unfold record_line. generalize (nth 0 parts "") as name. intros name. repeat case_match; done. Qed.

Record parsing pf observedAt (lines : list string) (p : progress) : Prop := mkParsing {
  parsing_observed : ObservedAt (snapshot p) = observedAt;
  parsing_sound : sound (snapshot p);
  parsing_reported : reported pf None (first_line lines) (snapshot p) (errors p);
  parsing_labels k : is_Some (errors p !! k) → k ∈ labels;
  parsing_seen field : field ∈ seen p ↔ is_Some (first_line lines field);
}.

Lemma parse_line_parsing pf observedAt lines line p :
  parsing pf observedAt lines p → parsing pf observedAt (lines ++ [line]) (parse_line pf p line).
Proof.
  intros [Ht Hs Hr Hl Hse]. unfold parse_line. pose proof (first_line_snoc lines line) as Hf. revert Hf.
  set (parts := split_char tab line). intros Hf.
  destruct (_ || _) eqn:E; [|apply orb_false_iff in E as [E1 E2]; apply bool_decide_eq_false in E2].
  - assert (∀ f, first_line (lines ++ [line]) f = first_line lines f) as Heq.
    { intros f. rewrite Hf. destruct (first_line lines f) eqn:E3; [done|]. unfold names.
      destruct (String.eqb_spec (nth 0 parts "") f) as [Hn|]; [|done].
      apply orb_true_iff in E as [E|[? E]%bool_decide_eq_true%Hse]; [|congruence].
      apply Nat.ltb_lt in E. by rewrite (proj2 (Nat.leb_gt _ _) E). }
    constructor; [done..| |done|intros f; by rewrite Heq]. destruct Hr. constructor; by rewrite Heq.
  - assert (first_line lines (nth 0 parts "") = None) as Hnone by (apply eq_None_not_Some; by rewrite <-Hse).
    assert (∀ f, names parts f = bool_decide (f = nth 0 parts "")) as Hnames.
    { intros f. unfold names. apply Nat.ltb_ge, Nat.leb_le in E1. rewrite E1, andb_true_r.
      destruct (String.eqb_spec (nth 0 parts "") f); case_bool_decide; congruence. }
    pose proof (record_line_reported pf _ (first_line (lines ++ [line])) _ _ parts Hr Hnone) as Hr'.
    pose proof (record_line_sound pf (snapshot p) (errors p) parts Hs) as Hs'.
    pose proof (record_line_labels pf (snapshot p) (errors p) parts) as Hl'.
    pose proof (record_line_observed pf (snapshot p) (errors p) parts) as Ht'.
    destruct (record_line pf _ _ parts) as [s e]. cbn [fst snd] in *. constructor; cbn [snapshot errors seen]; [congruence|done|..].
    + apply Hr'; [by rewrite Hf, Hnone, Hnames, bool_decide_eq_true_2|].
      intros f Hne. rewrite Hf, Hnames, bool_decide_eq_false_2 by done. by destruct (first_line lines f).
    + intros k [?|?]%Hl'; auto.
    + intros f. rewrite elem_of_union, elem_of_singleton, Hse, Hf, Hnames.
      destruct (first_line lines f); [naive_solver|]. case_bool_decide; naive_solver.
Qed.

Lemma fold_parsing pf observedAt lines :
  parsing pf observedAt lines (fold_left (parse_line pf) lines (mkProgress (empty_snapshot observedAt) ∅ ∅)).
Proof.
  induction lines as [|line lines IH] using rev_ind.
  - constructor; [done|constructor; cbn -[Z.pow]; try done; split_and!; done|by constructor| |];
      cbn; [intros k [? Hk]; by rewrite lookup_empty in Hk|]. intros f. split; [set_solver|by intros []].
  - rewrite fold_left_app. cbn. by apply parse_line_parsing.
Qed.

(** The loop over the fields flags each missing one under its own name, and
    nothing else. *)
Definition flag_missing (present : string → bool) (e : gmap string string) (field : string) : gmap string string :=
  if present field then e else <[displayField field := "unavailable"]> e.

Lemma flag_missing_other present fs e k : k ∉ map displayField fs → fold_left (flag_missing present) fs e !! k = e !! k.
Proof.
  revert e. induction fs as [|f fs IH]; cbn; intros e Hk; [done|]. apply not_elem_of_cons in Hk as [Hf Hk].
  rewrite IH by done. unfold flag_missing. case_match; [done|]. by rewrite lookup_insert_ne.
Qed.

Lemma flag_missing_field present fs e f : NoDup (map displayField fs) → f ∈ fs →
  fold_left (flag_missing present) fs e !! displayField f = if present f then e !! displayField f else Some "unavailable".
Proof.
  revert e. induction fs as [|g fs IH]; cbn; intros e Hd Hf; [by apply not_elem_of_nil in Hf|].
  apply NoDup_cons in Hd as [Hg Hd]. apply elem_of_cons in Hf as [->|Hf].
  - rewrite flag_missing_other by done. unfold flag_missing. case_match; [done|]. by rewrite lookup_insert_eq.
  - rewrite IH by done. case_match; [|done]. unfold flag_missing. case_match; [done|]. rewrite lookup_insert_ne; [done|].
    intros Heq. apply Hg. rewrite Heq. by apply list_elem_of_fmap_2.
Qed.

Lemma states_missing {A} line (read : list string → option A) complaint zero value flag : states None line read complaint zero value flag →
  states (Some "unavailable") line read complaint zero value (if bool_decide (is_Some line) then flag else Some "unavailable").
Proof. by destruct line; [|intros [? _]]. Qed.

Lemma flag_missing_reported pf line s e : reported pf None line s e →
  reported pf (Some "unavailable") line s (fold_left (flag_missing (λ f, bool_decide (is_Some (line f)))) fields e).
Proof.
  intros [R1 R2 R3 R4 R5 R6 R7 R8].
  assert (NoDup (map displayField fields)) as Hd by (apply (bool_decide_unpack _); exact I).
  constructor; match goal with |- states _ (line ?f) _ _ _ _ (_ !! ?k) => change k with (displayField f);
    rewrite flag_missing_field by (done || (apply (bool_decide_unpack _); exact I)); by apply states_missing end.
Qed.

Lemma reported_insert pf missing line s e k v : k ∉ labels → reported pf missing line s e → reported pf missing line s (<[k := v]> e).
Proof.
  intros Hk [R1 R2 R3 R4 R5 R6 R7 R8].
  constructor; (rewrite lookup_insert_ne; [assumption|]); intros ->; apply Hk; apply (bool_decide_unpack _); exact I.
Qed.

(** The flags of the result, before an empty map is dropped. *)
Lemma parse_flags ParseFloat output observedAt :
  let '(lines, truncated) := scan_lines 65536 output in
  ∃ p e, parsing ParseFloat observedAt lines p ∧
    e = fold_left (flag_missing (λ f, bool_decide (is_Some (first_line lines f)))) fields
          (if truncated : bool then <["collectorOutput" := "truncated or invalid"]> (errors p) else errors p) ∧
    parseLinuxSnapshot ParseFloat output observedAt = set_errors (snapshot p) (if bool_decide (e = ∅) then None else Some e).
Proof.
  unfold parseLinuxSnapshot. destruct (scan_lines 65536 output) as [lines truncated].
  pose proof (fold_parsing ParseFloat observedAt lines) as Hp. eexists _, _. split_and!; [exact Hp|reflexivity|].
  set (p := fold_left _ lines _) in *.
  assert (∀ f, bool_decide (f ∈ seen p) = bool_decide (is_Some (first_line lines f))) as Hse
    by (intros f; apply bool_decide_ext, (parsing_seen _ _ _ _ Hp)).
  assert (∀ l e, fold_left (λ e field, if bool_decide (field ∈ seen p) then e else <[displayField field := "unavailable"]> e) l e =
    fold_left (flag_missing (λ f, bool_decide (is_Some (first_line lines f)))) l e) as Hfold.
  { induction l as [|f l IH]; intros e; [done|]. cbn [fold_left]. rewrite IH. unfold flag_missing. by rewrite Hse. }
  by rewrite Hfold.
Qed.

(** * Properties *)

(** C40: whatever a host prints, the snapshot says exactly what the first line of
    each field says.  Each of the eight fields has the value read from the first
    line that names it; a field without such a line is flagged "unavailable", and
    one whose line cannot be read is flagged with its complaint, under its own name
    in the snapshot and with its zero value.  Nothing else is flagged, but for an
    output cut off at an overlong line.  All values are within their bounds: texts
    are cut, available memory never exceeds the total and both fit 64 bits after
    the conversion from KiB, at most 65536 cores, used and free space within the
    size. *)
Theorem snapshot_sound ParseFloat output observedAt :
  let '(lines, truncated) := scan_lines 65536 output in
  let s := parseLinuxSnapshot ParseFloat output observedAt in
  let flags := default ∅ (FieldErrors s) in
  sound s ∧ ObservedAt s = observedAt ∧
  reported ParseFloat (Some "unavailable") (first_line lines) s flags ∧
  flags !! "collectorOutput" = (if truncated : bool then Some "truncated or invalid" else None) ∧
  (∀ k, is_Some (flags !! k) → k ∈ "collectorOutput" :: labels) ∧ FieldErrors s ≠ Some ∅.
Proof.
  pose proof (parse_flags ParseFloat output observedAt) as Hp.
  destruct (scan_lines 65536 output) as [lines truncated]. destruct Hp as (p & e & [Ht Hs Hr Hl _] & He & ->).
  cbv zeta. assert (default ∅ (FieldErrors (set_errors (snapshot p) (if bool_decide (e = ∅) then None else Some e))) = e) as ->.
  { cbn. by case_bool_decide. }
  assert ("collectorOutput" ∉ labels) as Hc by (apply (bool_decide_unpack _); exact I).
  split_and!; [by destruct Hs| done| | | |].
  - rewrite He. assert (∀ s t m, reported ParseFloat m (first_line lines) s e →
      reported ParseFloat m (first_line lines) (set_errors s t) e) as Hset by (intros ? ? ? []; by constructor).
    subst e. apply Hset, flag_missing_reported. destruct truncated; [|done]. by apply reported_insert.
  - rewrite He, flag_missing_other by exact Hc. destruct truncated; [by rewrite lookup_insert_eq|].
    apply eq_None_not_Some. by intros ?%Hl.
  - intros k Hk. destruct (decide (k ∈ labels)) as [|Hn]; [by right|]. rewrite He, flag_missing_other in Hk by exact Hn.
    destruct truncated; [|by apply Hl in Hk]. apply lookup_insert_is_Some' in Hk as [<- |?]; [left|by apply Hl in H].
  - cbn. case_bool_decide; congruence.
Qed.

(** the snapshot never reports more than one file system, however many
    the host lists, because every line after the first that starts with the
    same name is skipped as a repetition. *)
Theorem one_filesystem ParseFloat output observedAt :
  (length (Filesystems (parseLinuxSnapshot ParseFloat output observedAt)) ≤ 1)%nat.
Proof.
  pose proof (parse_flags ParseFloat output observedAt) as Hp.
  destruct (scan_lines 65536 output) as [lines truncated]. destruct Hp as (p & e & [_ _ Hr _ _] & _ & ->).
  destruct Hr as [_ _ _ _ _ _ _ Hf]. cbn [Filesystems set_errors]. revert Hf. unfold states, filesystem_of.
  repeat case_match; intros [-> _]; cbn; try lia; simplify_option_eq; cbn; lia.
Qed.

Definition demo_output : string :=
  join newline [join tab ["filesystem"; "/"; "100"; "40"; "60"]; join tab ["filesystem"; "/data"; "900"; "1"; "899"]; ""].

(** The second file system of a host with two is lost without a field error. *)
Example second_filesystem_lost :
  Filesystems (parseLinuxSnapshot (λ _, None) demo_output 0) = [mkFilesystemUsage "/" 100 40 60] ∧
  FieldErrors (parseLinuxSnapshot (λ _, None) demo_output 0) ≫= lookup "filesystems" = None.
Proof. by vm_compute. Qed.
