(* ===== verification/SshConnector.v ===== *)
(** * The SSH connector: command catalog, destination policy, output budget

    Models [services/connector/sshconnector]: [catalog.go] and the parts of
    [client.go] that decide what may be run, where, and how much output is
    kept.  [netip.Addr] is modelled with its IPv6 zone; parsing and resolving
    addresses, and the public keys of the ssh library, are parameters. *)

From S2P Require Import Prelude GoStrings Encoding.

(** ** The catalog *)

Record Command := mkCommand { c_id : string; c_script : string }.

Definition CommandRuntimeSnapshot := "runtime_snapshot_v1".
Definition CommandDiskUsage := "disk_usage_v1".
Definition CommandListeningPorts := "listening_ports_v1".
Definition CommandServiceStatus := "service_status_v1".
Definition CommandProcessList := "process_inventory_v1".

Definition ServiceNginx := "nginx".
Definition ServiceSSH := "ssh".
Definition ServiceDocker := "docker".
Definition ServiceCron := "cron".

Record ReadOnlyCommandRequest := mkReadOnly { ro_ID : string; ro_Service : string }.

Definition serviceStatusCommands : gmap string string := list_to_map [
  (ServiceNginx, "LC_ALL=C systemctl show --no-pager --property=Id,Description,LoadState,ActiveState,SubState,UnitFileState,MainPID nginx.service 2>/dev/null");
  (ServiceSSH, "LC_ALL=C systemctl show --no-pager --property=Id,Description,LoadState,ActiveState,SubState,UnitFileState,MainPID ssh.service 2>/dev/null");
  (ServiceDocker, "LC_ALL=C systemctl show --no-pager --property=Id,Description,LoadState,ActiveState,SubState,UnitFileState,MainPID docker.service 2>/dev/null");
  (ServiceCron, "LC_ALL=C systemctl show --no-pager --property=Id,Description,LoadState,ActiveState,SubState,UnitFileState,MainPID cron.service 2>/dev/null")].

Definition ReadOnlyCommand (request : ReadOnlyCommandRequest) : result string Command :=
  let id := ro_ID request in
  if id =? CommandDiskUsage then
    if ro_Service request ≠? "" then Err "disk usage does not accept parameters"
    else Ok (mkCommand id "LC_ALL=C df -P -B1 2>/dev/null")
  else if id =? CommandListeningPorts then
    if ro_Service request ≠? "" then Err "listening ports does not accept parameters"
    else Ok (mkCommand id "LC_ALL=C ss -H -lntu 2>/dev/null")
  else if id =? CommandServiceStatus then
    match serviceStatusCommands !! ro_Service request with
    | None => Err "service must be one of nginx, ssh, docker, or cron"
    | Some script => Ok (mkCommand id script)
    end
  else Err "command id is not in the read-only catalog".

Definition ProcessInventoryCommand : Command :=
  mkCommand CommandProcessList "LC_ALL=C ps -eo pid=,ppid=,user=,pcpu=,etimes=,comm= --sort=-pcpu 2>/dev/null".

(** A script whose double quotes are written as at signs. *)
Definition with_quotes (s : string) : string := map_str (λ a, if Ascii.eqb a "@" then "034"%char else a) s.

Definition RuntimeSnapshotCommand : Command := mkCommand CommandRuntimeSnapshot (with_quotes
"LC_ALL=C
printf 'hostname\t'; hostname 2>/dev/null || true
printf 'kernel\t'; uname -sr 2>/dev/null || true
awk '{printf @uptime\t%.0f\n@, $1}' /proc/uptime 2>/dev/null || true
awk '{printf @load\t%s\t%s\t%s\n@, $1, $2, $3}' /proc/loadavg 2>/dev/null || true
awk '/^MemTotal:/ {total=$2} /^MemAvailable:/ {available=$2} END {printf @memory_kib\t%.0f\t%.0f\n@, total, available}' /proc/meminfo 2>/dev/null || true
awk -F: '/^model name[[:space:]]*:/ {sub(/^[[:space:]]+/, @@, $2); printf @cpu_model\t%s\n@, $2; exit}' /proc/cpuinfo 2>/dev/null || true
awk '/^processor[[:space:]]*:/ {count++} END {printf @cpu_logical\t%.0f\n@, count}' /proc/cpuinfo 2>/dev/null || true
df -P -B1 2>/dev/null | awk 'NR > 1 && $2 ~ /^[0-9]+$/ {mount=$6; for (i=7; i<=NF; i++) mount=mount @ @ $i; printf @filesystem\t%s\t%s\t%s\t%s\n@, mount, $2, $3, $4}' || true
").

Record Result := mkResult { r_Stdout : string; r_Stderr : string; r_ExitCode : Z; r_Duration : duration }.

(** ** Addresses: [netip.Addr] *)

Inductive Addr :=
| AddrInvalid
| AddrV4 (a : Z)
| AddrV6 (a : Z) (zone : string).

Definition byte_at (a : Z) (shift : Z) : Z := Z.land (Z.shiftr a shift) 255.

Definition Is4In6 (a : Z) : bool := (Z.shiftr a 32 =? 65535)%Z.

Definition Unmap (ip : Addr) : Addr :=
  match ip with
  | AddrV6 a zone => if Is4In6 a then AddrV4 (Z.land a 4294967295) else ip
  | _ => ip
  end.

Definition IsValid (ip : Addr) : bool := match ip with AddrInvalid => false | _ => true end.

Definition IsUnspecified (ip : Addr) : bool :=
  match ip with
  | AddrV4 a => (a =? 0)%Z
  | AddrV6 a zone => (a =? 0)%Z && (zone =? "")
  | AddrInvalid => false
  end.

Definition IsLoopback (ip : Addr) : bool :=
  match Unmap ip with
  | AddrV4 a => (byte_at a 24 =? 127)%Z
  | AddrV6 a _ => (a =? 1)%Z
  | AddrInvalid => false
  end.

Definition IsMulticast (ip : Addr) : bool :=
  match Unmap ip with
  | AddrV4 a => (Z.land (byte_at a 24) 240 =? 224)%Z
  | AddrV6 a _ => (byte_at a 120 =? 255)%Z
  | AddrInvalid => false
  end.

Definition IsLinkLocalUnicast (ip : Addr) : bool :=
  match Unmap ip with
  | AddrV4 a => (byte_at a 24 =? 169)%Z && (byte_at a 16 =? 254)%Z
  | AddrV6 a _ => (Z.land (Z.shiftr a 112) 65472 =? 65152)%Z
  | AddrInvalid => false
  end.

Definition IsPrivate (ip : Addr) : bool :=
  match Unmap ip with
  | AddrV4 a =>
    (byte_at a 24 =? 10)%Z || ((byte_at a 24 =? 172)%Z && (Z.land (byte_at a 16) 240 =? 16)%Z) ||
    ((byte_at a 24 =? 192)%Z && (byte_at a 16 =? 168)%Z)
  | AddrV6 a _ => (Z.land (byte_at a 120) 254 =? 252)%Z
  | AddrInvalid => false
  end.

Definition IsGlobalUnicast (ip : Addr) : bool :=
  match Unmap ip with
  | AddrInvalid => false
  | AddrV4 a =>
    negb ((a =? 0)%Z || (a =? 4294967295)%Z) && negb (IsLoopback (AddrV4 a)) && negb (IsMulticast (AddrV4 a)) &&
    negb (IsLinkLocalUnicast (AddrV4 a))
  | AddrV6 a zone =>
    negb ((a =? 0)%Z && (zone =? "")) && negb (IsLoopback (AddrV6 a zone)) && negb (IsMulticast (AddrV6 a zone)) &&
    negb (IsLinkLocalUnicast (AddrV6 a zone))
  end.

(** [netip.Prefix] and [Contains]: an address with a zone is in no prefix. *)
Inductive Prefix :=
| Prefix4 (a : Z) (bits : Z)
| Prefix6 (a : Z) (bits : Z).

Definition Contains (p : Prefix) (ip : Addr) : bool :=
  match p, ip with
  | Prefix4 a bits, AddrV4 b => (Z.shiftr (Z.lxor a b) (32 - bits) =? 0)%Z
  | Prefix6 a bits, AddrV6 b zone => (zone =? "") && (Z.shiftr (Z.lxor a b) (128 - bits) =? 0)%Z
  | _, _ => false
  end.

Definition v4 (a b c d : Z) : Z := a * 2 ^ 24 + b * 2 ^ 16 + c * 2 ^ 8 + d.

Definition deniedPublicPrefixes : list Prefix :=
  [Prefix4 (v4 0 0 0 0) 8; Prefix4 (v4 100 64 0 0) 10;
   Prefix4 (v4 192 0 0 0) 24; Prefix4 (v4 192 0 2 0) 24;
   Prefix4 (v4 198 18 0 0) 15; Prefix4 (v4 198 51 100 0) 24;
   Prefix4 (v4 203 0 113 0) 24; Prefix4 (v4 240 0 0 0) 4;
   Prefix6 (0x20010db8 * 2 ^ 96) 32; Prefix6 (0x20010002 * 2 ^ 96) 48].

Definition targetAllowed (address : Addr) (allowPrivate : bool) : bool :=
  let address := Unmap address in
  if negb (IsValid address) || IsUnspecified address || IsMulticast address || IsLinkLocalUnicast address ||
     IsLoopback address then false
  else if allowPrivate then IsGlobalUnicast address || IsPrivate address
  else if negb (IsGlobalUnicast address) || IsPrivate address then false
  else negb (existsb (λ prefix, Contains prefix address) deniedPublicPrefixes).

(** [Addr.Less]: IPv4 before IPv6, then by value, then by zone. *)
Definition addr_key (ip : Addr) : Z * Z * string :=
  match ip with AddrInvalid => (0, 0, "") | AddrV4 a => (1, a, "") | AddrV6 a zone => (2, a, zone) end.
Definition Less (x y : Addr) : bool :=
  let '(k1, a1, z1) := addr_key x in
  let '(k2, a2, z2) := addr_key y in
  (k1 <? k2)%Z || ((k1 =? k2)%Z && ((a1 <? a2)%Z || ((a1 =? a2)%Z && String.ltb z1 z2))).

(** The first of the sorted candidates. *)
Definition least (x : Addr) (l : list Addr) : Addr := fold_left (λ best y, if Less y best then y else best) l x.

Inductive ssh_error :=
| ErrHostKeyRequired | ErrHostKeyMismatch | ErrOutputLimit | ErrTargetDenied
| ErrSSH (message : string).

Section target.
Context (ParseAddr : string → option Addr).

Definition ValidateTargetLiteral (address : string) (allowPrivate : bool) : result ssh_error unit :=
  match ParseAddr address with
  | None => Ok tt
  | Some parsed => if negb (targetAllowed parsed allowPrivate) then Err ErrTargetDenied else Ok tt
  end.

(** [resolveTarget]: [lookup] is the answer of the resolver. *)
Definition resolveTarget (address : string) (allowPrivate : bool) (lookup : option (list Addr)) : result ssh_error Addr :=
  let candidates :=
    match ParseAddr address with
    | Some parsed => Ok [Unmap parsed]
    | None => match lookup with None => Err (ErrSSH "resolve ssh target") | Some resolved => Ok (map Unmap resolved) end
    end in
  match candidates with
  | Err e => Err e
  | Ok [] => Err (ErrSSH "ssh target resolved to no addresses")
  | Ok (x :: l) =>
    if forallb (λ c, targetAllowed c allowPrivate) (x :: l) then Ok (least x l) else Err ErrTargetDenied
  end.
End target.

(** ** Host keys *)

Section keys.
Context {PublicKey : Type} (Marshal : PublicKey → string)
  (ParseAuthorizedKey : string → option (PublicKey * string)).

Definition ParsePinnedHostKey (encoded : string) : result string PublicKey :=
  match ParseAuthorizedKey (trim_space encoded +:+ String newline "") with
  | None => Err "parse pinned host key"
  | Some (key, rest) =>
    if negb (slen (trim_space rest) =? 0)%Z then Err "pinned host key must contain exactly one key" else Ok key
  end.

Definition PinnedHostKeyCallback (pinned : option PublicKey) (remote : PublicKey) : result ssh_error unit :=
  match pinned with
  | None => Err ErrHostKeyRequired
  | Some pinned =>
    let want := Marshal pinned in
    let got := Marshal remote in
    if negb (slen want =? slen got)%Z || negb (constant_eq want got) then Err ErrHostKeyMismatch else Ok tt
  end.

(** The connection policy; [Auth] is present or nil. *)
Record Config := mkConfig {
  sc_Address : string;
  sc_Port : Z;
  sc_User : string;
  sc_HasAuth : bool;
  sc_PinnedHostKey : option PublicKey;
  sc_ConnectTimeout : duration;
  sc_CommandTimeout : duration;
  sc_MaxOutputBytes : Z;
  sc_AllowPrivateTargets : bool;
}.

Definition validateConfig (cfg : Config) : result ssh_error unit :=
  if trim_space (sc_Address cfg) =? "" then Err (ErrSSH "ssh address is required")
  else if (sc_Port cfg <? 1)%Z || (65535 <? sc_Port cfg)%Z then Err (ErrSSH "ssh port must be between 1 and 65535")
  else if trim_space (sc_User cfg) =? "" then Err (ErrSSH "ssh user is required")
  else if negb (sc_HasAuth cfg) then Err (ErrSSH "ssh authentication method is required")
  else match sc_PinnedHostKey cfg with None => Err ErrHostKeyRequired | Some _ => Ok tt end.
End keys.

(** ** The output budget *)

(** Two buffers share one budget: [remaining], whether [exceeded] was closed,
    and the bytes of stdout and stderr. *)
Record outputBudget := mkBudget { remaining : Z; exceeded : bool }.
Record buffers := mkBuffers { budget : outputBudget; out : string; err : string }.

Definition newOutputBudget (max : Z) : outputBudget := mkBudget max false.
Definition newBuffers (max : Z) : buffers := mkBuffers (newOutputBudget max) "" "".

(** [boundedBuffer.Write] has two critical sections: it takes from the budget,
    then appends.  [reserve] is the first: the bytes it may append, and whether
    the write overflows. *)
Definition reserve (b : outputBudget) (p : string) : outputBudget * Z * bool :=
  let allowed := if (remaining b <? slen p)%Z then remaining b else slen p in
  (mkBudget (remaining b - allowed) (exceeded b), allowed, (allowed <? slen p)%Z).

Definition commit (buf p : string) (allowed : Z) : string :=
  if (0 <? allowed)%Z then buf +:+ take_str (Z.to_nat allowed) p else buf.

(** The whole write to stdout ([false]) or stderr ([true]). *)
Definition Write (s : buffers) (toErr : bool) (p : string) : buffers * (Z * option ssh_error) :=
  let '(b, allowed, overflow) := reserve (budget s) p in
  let s' := if toErr then mkBuffers b (out s) (commit (err s) p allowed) else mkBuffers b (commit (out s) p allowed) (err s) in
  if overflow then (mkBuffers (mkBudget (remaining b) true) (out s') (err s'), (allowed, Some ErrOutputLimit))
  else (s', (slen p, None)).

(** ** The destination policy as ranges *)

(** The first and the last address of a range. *)
Definition range4 (a b c d bits : Z) : Z * Z := (v4 a b c d, v4 a b c d + 2 ^ (32 - bits) - 1).

(** Special-purpose IPv4 ranges: "this network", private, shared, loopback,
    link-local, protocol assignments, documentation, benchmarking, multicast and
    reserved. *)
Definition reserved4 : list (Z * Z) :=
  [range4 0 0 0 0 8; range4 10 0 0 0 8; range4 100 64 0 0 10; range4 127 0 0 0 8; range4 169 254 0 0 16;
   range4 172 16 0 0 12; range4 192 0 0 0 24; range4 192 0 2 0 24; range4 192 168 0 0 16; range4 198 18 0 0 15;
   range4 198 51 100 0 24; range4 203 0 113 0 24; range4 224 0 0 0 4; range4 240 0 0 0 4].

(** IPv6: unspecified, loopback, benchmarking, documentation, unique local,
    link-local and multicast. *)
Definition reserved6 : list (Z * Z) :=
  [(0, 0); (1, 1); (0x20010002 * 2 ^ 96, 0x20010002 * 2 ^ 96 + 2 ^ 80 - 1);
   (0x20010db8 * 2 ^ 96, 0x20010db8 * 2 ^ 96 + 2 ^ 96 - 1);
   (0xfc * 2 ^ 120, 0xfe * 2 ^ 120 - 1); (0xfe80 * 2 ^ 112, 0xfec0 * 2 ^ 112 - 1); (0xff * 2 ^ 120, 2 ^ 128 - 1)].

Definition in_ranges (ranges : list (Z * Z)) (a : Z) : bool := existsb (λ r, (r.1 <=? a)%Z && (a <=? r.2)%Z) ranges.

(** An IPv6 address with a zone is in no prefix and is not the unspecified
    address, so only the ranges that have a method of their own are left:
    loopback, unique local, link-local and multicast. *)
Definition reserved_zoned : list (Z * Z) :=
  [(1, 1); (0xfc * 2 ^ 120, 0xfe * 2 ^ 120 - 1); (0xfe80 * 2 ^ 112, 0xfec0 * 2 ^ 112 - 1); (0xff * 2 ^ 120, 2 ^ 128 - 1)].

(** The addresses that the policy accepts: with IPv4-mapped addresses read as
    IPv4, those in none of the ranges of their kind. *)
Definition accepted (ip : Addr) : bool :=
  match Unmap ip with
  | AddrInvalid => false
  | AddrV4 a => negb (in_ranges reserved4 a)
  | AddrV6 a zone => negb (in_ranges (if zone =? "" then reserved6 else reserved_zoned) a)
  end.

(** Addresses as the library builds them. *)
Definition addr_ok (ip : Addr) : Prop :=
  match ip with AddrInvalid => True | AddrV4 a => 0 ≤ a < 2 ^ 32 | AddrV6 a _ => 0 ≤ a < 2 ^ 128 end.

(** ** Lemmas *)

Lemma shiftr_block a p k : 0 ≤ k → (Z.shiftr a k =? p)%Z = (p * 2 ^ k <=? a)%Z && (a <=? p * 2 ^ k + 2 ^ k - 1)%Z.
Proof.
  intros Hk. rewrite Z.shiftr_div_pow2 by done. assert (0 < 2 ^ k) by (apply Z.pow_pos_nonneg; lia).
  pose proof (Z.div_mod a (2 ^ k)). pose proof (Z.mod_pos_bound a (2 ^ k)).
  apply eq_true_iff_eq. rewrite Z.eqb_eq, andb_true_iff, !Z.leb_le. split; [intros <-; lia|]. intros [? ?].
  symmetry. apply Z.div_unique with (r := a - p * 2 ^ k); lia.
Qed.

Lemma byte_at_shiftr a w k : 0 ≤ k → w = k + 8 → 0 ≤ a < 2 ^ w → byte_at a k = Z.shiftr a k.
Proof.
  intros Hk -> Ha. unfold byte_at. change 255 with (Z.ones 8). rewrite Z.land_ones by lia. apply Z.mod_small.
  assert (0 < 2 ^ k) by (apply Z.pow_pos_nonneg; lia). rewrite Z.shiftr_div_pow2 by lia.
  split; [apply Z.div_pos; lia|]. apply Z.div_lt_upper_bound; [lia|].
  rewrite <-Z.pow_add_r by lia. apply Ha.
Qed.

(** A mask of leading ones compares the leading bits. *)
Lemma mask_shiftr x m k p :
  0 ≤ k → 0 ≤ m → 0 ≤ x < 2 ^ (m + k) → (Z.land x (Z.shiftl (Z.ones m) k) =? Z.shiftl p k)%Z = (Z.shiftr x k =? p)%Z.
Proof.
  intros Hk Hm Hx.
  assert (Z.land x (Z.shiftl (Z.ones m) k) = Z.shiftl (Z.shiftr x k) k) as ->.
  { apply Z.bits_inj'. intros n Hn. rewrite Z.land_spec, !Z.shiftl_spec by done.
    destruct (Z.lt_ge_cases n k); [rewrite !(Z.testbit_neg_r _ (n - k)) by lia; apply andb_false_r|].
    rewrite Z.shiftr_spec by lia. replace (n - k + k) with n by lia.
    destruct (Z.lt_ge_cases (n - k) m).
    - rewrite Z.ones_spec_low by lia. apply andb_true_r.
    - rewrite Z.ones_spec_high by lia. rewrite andb_false_r. symmetry. destruct (Z.eq_dec x 0) as [->|]; [apply Z.bits_0|].
      apply Z.bits_above_log2; [lia|]. apply Z.log2_lt_pow2; [lia|]. apply Z.lt_le_trans with (2 ^ (m + k)); [lia|].
      apply Z.pow_le_mono_r; lia. }
  apply eq_true_iff_eq. rewrite !Z.eqb_eq. split; [|congruence]. intros E.
  apply (f_equal (λ z, Z.shiftr z k)) in E. by rewrite !Z.shiftr_shiftl_l, Z.sub_diag, !Z.shiftl_0_r in E by lia.
Qed.

Lemma prefix_block a b k : 0 ≤ k → (Z.shiftr (Z.lxor a b) k =? 0)%Z = (Z.shiftr b k =? Z.shiftr a k)%Z.
Proof.
  intros Hk. apply eq_true_iff_eq. rewrite !Z.eqb_eq, Z.shiftr_lxor, Z.lxor_eq_0_iff. split; congruence.
Qed.

Lemma byte_at_div a k : 0 ≤ k → byte_at a k = (a / 2 ^ k) `mod` 256.
Proof. intros Hk. unfold byte_at. change 255 with (Z.ones 8). by rewrite Z.land_ones, Z.shiftr_div_pow2 by lia. Qed.

Lemma mask_240 x p : 0 ≤ x < 256 → (Z.land x 240 =? 16 * p)%Z = (x / 16 =? p)%Z.
Proof.
  intros Hx. change 240 with (Z.shiftl (Z.ones 4) 4). replace (16 * p) with (Z.shiftl p 4) by (rewrite Z.shiftl_mul_pow2 by lia; lia).
  rewrite mask_shiftr, Z.shiftr_div_pow2 by lia. done.
Qed.

Definition within4 (r : Z * Z) (a : Z) : bool := (r.1 <=? a)%Z && (a <=? r.2)%Z.

(** The tests of the code, one by one, as ranges. *)
Ltac eval_powers :=
  repeat match goal with
  | |- context [2 ^ ?k] => let v := eval vm_compute in (2 ^ k) in change (2 ^ k) with v
  | H : context [2 ^ ?k] |- _ => let v := eval vm_compute in (2 ^ k) in change (2 ^ k) with v in H
  end.
Ltac range_test :=
  intros; unfold within4, range4, v4; cbn [fst snd]; rewrite ?byte_at_div by lia; eval_powers;
  apply eq_true_iff_eq;
  repeat (rewrite orb_true_iff || rewrite andb_true_iff || rewrite Z.eqb_eq || rewrite Z.leb_le); Z.to_euclidean_division_equations; lia.

Lemma loopback4 a : 0 ≤ a < 2 ^ 32 → (byte_at a 24 =? 127)%Z = within4 (range4 127 0 0 0 8) a.
Proof. range_test. Qed.
Lemma private10 a : 0 ≤ a < 2 ^ 32 → (byte_at a 24 =? 10)%Z = within4 (range4 10 0 0 0 8) a.
Proof. range_test. Qed.
Lemma linklocal4 a : 0 ≤ a < 2 ^ 32 → (byte_at a 24 =? 169)%Z && (byte_at a 16 =? 254)%Z = within4 (range4 169 254 0 0 16) a.
Proof. range_test. Qed.
Lemma private192 a : 0 ≤ a < 2 ^ 32 → (byte_at a 24 =? 192)%Z && (byte_at a 16 =? 168)%Z = within4 (range4 192 168 0 0 16) a.
Proof. range_test. Qed.
Lemma private172 a :
  0 ≤ a < 2 ^ 32 → (byte_at a 24 =? 172)%Z && (Z.land (byte_at a 16) 240 =? 16)%Z = within4 (range4 172 16 0 0 12) a.
Proof.
  intros Ha. change 16 with (16 * 1) at 2. rewrite (byte_at_div a 16), mask_240 by (try apply Z.mod_pos_bound; lia).
  revert Ha. range_test.
Qed.
Lemma multicast4 a : 0 ≤ a < 2 ^ 32 → (Z.land (byte_at a 24) 240 =? 224)%Z = within4 (range4 224 0 0 0 4) a.
Proof.
  intros Ha. change 224 with (16 * 14) at 1. rewrite (byte_at_div a 24), mask_240 by (try apply Z.mod_pos_bound; lia).
  revert Ha. range_test.
Qed.

Lemma Contains4 p bits a b : 0 ≤ bits ≤ 32 → p * 2 ^ (32 - bits) = b →
  Contains (Prefix4 b bits) (AddrV4 a) = (b <=? a)%Z && (a <=? b + 2 ^ (32 - bits) - 1)%Z.
Proof.
  intros Hb <-. unfold Contains. rewrite prefix_block by lia. rewrite <-(Z.shiftl_mul_pow2 p) by lia.
  rewrite Z.shiftr_shiftl_l, Z.sub_diag, Z.shiftl_0_r by lia. rewrite shiftr_block by lia. by rewrite Z.shiftl_mul_pow2 by lia.
Qed.

Lemma Contains6 p bits a b zone : 0 ≤ bits ≤ 128 → p * 2 ^ (128 - bits) = b → zone = "" →
  Contains (Prefix6 b bits) (AddrV6 a zone) = (b <=? a)%Z && (a <=? b + 2 ^ (128 - bits) - 1)%Z.
Proof.
  intros Hb <- ->. unfold Contains. rewrite prefix_block by lia. rewrite <-(Z.shiftl_mul_pow2 p) by lia.
  rewrite Z.shiftr_shiftl_l, Z.sub_diag, Z.shiftl_0_r by lia. rewrite shiftr_block by lia. by rewrite Z.shiftl_mul_pow2 by lia.
Qed.

Lemma Unmap_V4 a : Unmap (AddrV4 a) = AddrV4 a.
Proof. done. Qed.

(** Both sides are disjunctions of the same tests: true as soon as one is. *)
Ltac same_tests a :=
  repeat match goal with
  | |- context [(?lo <=? a)%Z && (a <=? ?hi)%Z] =>
    let E := fresh "E" in destruct ((lo <=? a)%Z && (a <=? hi)%Z) eqn:E; cbn [orb negb andb];
      [rewrite ?orb_true_r; cbn [negb andb orb]; rewrite ?andb_false_r; try reflexivity; try (by repeat case_match)|]
  end.

Lemma targetAllowed_4 a : 0 ≤ a < 2 ^ 32 → targetAllowed (AddrV4 a) false = negb (in_ranges reserved4 a).
Proof.
  intros Ha. unfold targetAllowed, IsUnspecified, IsPrivate, IsGlobalUnicast, IsMulticast, IsLinkLocalUnicast, IsLoopback.
  rewrite !Unmap_V4. rewrite loopback4, private10, linklocal4, private192, private172, multicast4 by done.
  unfold in_ranges, reserved4, deniedPublicPrefixes. cbn [existsb IsValid negb orb].
  rewrite (Contains4 0 8), (Contains4 401 10), (Contains4 12582912 24), (Contains4 12582914 24), (Contains4 25353 15),
    (Contains4 12989284 24), (Contains4 13303921 24), (Contains4 15 4) by (done || lia).
  change (Contains (Prefix6 _ 32) _) with false. change (Contains (Prefix6 _ 48) _) with false.
  unfold within4, range4. cbn [fst snd].
  same_tests a.
  assert (a ≠ 0 ∧ a ≠ 4294967295) as [H0 H1].
  { split; intros ->; [|clear E5]; vm_compute in *; congruence. }
  by rewrite (proj2 (Z.eqb_neq _ _) H0), (proj2 (Z.eqb_neq _ _) H1).
Qed.

Lemma unique_local6 a : 0 ≤ a < 2 ^ 128 →
  (Z.land (byte_at a 120) 254 =? 252)%Z = (0xfc * 2 ^ 120 <=? a)%Z && (a <=? 0xfe * 2 ^ 120 - 1)%Z.
Proof.
  intros Ha. change 254 with (Z.shiftl (Z.ones 7) 1). change 252 with (Z.shiftl 126 1). rewrite (byte_at_shiftr a 128 120) by (done || lia).
  assert (0 ≤ Z.shiftr a 120 < 2 ^ (7 + 1)).
  { rewrite Z.shiftr_div_pow2 by lia. revert Ha. eval_powers. intros. Z.to_euclidean_division_equations. lia. }
  rewrite mask_shiftr, Z.shiftr_shiftr, shiftr_block by (done || lia). done.
Qed.

Lemma link_local6 a : 0 ≤ a < 2 ^ 128 →
  (Z.land (Z.shiftr a 112) 65472 =? 65152)%Z = (0xfe80 * 2 ^ 112 <=? a)%Z && (a <=? 0xfec0 * 2 ^ 112 - 1)%Z.
Proof.
  intros Ha. change 65472 with (Z.shiftl (Z.ones 10) 6). change 65152 with (Z.shiftl 1018 6).
  assert (0 ≤ Z.shiftr a 112 < 2 ^ (10 + 6)).
  { rewrite Z.shiftr_div_pow2 by lia. revert Ha. eval_powers. intros. Z.to_euclidean_division_equations. lia. }
  rewrite mask_shiftr, Z.shiftr_shiftr, shiftr_block by (done || lia). done.
Qed.

Lemma multicast6 a : 0 ≤ a < 2 ^ 128 → (byte_at a 120 =? 255)%Z = (0xff * 2 ^ 120 <=? a)%Z && (a <=? 2 ^ 128 - 1)%Z.
Proof. intros Ha. rewrite (byte_at_shiftr a 128 120), shiftr_block by (done || lia). done. Qed.

Lemma Unmap_V6 a zone : Is4In6 a = false → Unmap (AddrV6 a zone) = AddrV6 a zone.
Proof. intros E. unfold Unmap. by rewrite E. Qed.

Lemma targetAllowed_6 a : 0 ≤ a < 2 ^ 128 → Is4In6 a = false →
  targetAllowed (AddrV6 a "") false = negb (in_ranges reserved6 a).
Proof.
  intros Ha Hm. unfold targetAllowed, IsUnspecified, IsPrivate, IsGlobalUnicast, IsMulticast, IsLinkLocalUnicast, IsLoopback.
  rewrite !Unmap_V6 by done. rewrite unique_local6, link_local6, multicast6 by done.
  unfold in_ranges, reserved6, deniedPublicPrefixes. cbn [existsb IsValid negb orb].
  rewrite (Contains6 0x20010db8 32), (Contains6 0x200100020000 48) by (done || lia).
  repeat match goal with |- context [Contains (Prefix4 ?x ?y) ?z] => change (Contains (Prefix4 x y) z) with false end.
  cbn [fst snd]. replace ((0 <=? a)%Z && (a <=? 0)%Z) with (a =? 0)%Z by (apply eq_true_iff_eq; rewrite andb_true_iff, Z.eqb_eq, !Z.leb_le; lia).
  replace ((1 <=? a)%Z && (a <=? 1)%Z) with (a =? 1)%Z by (apply eq_true_iff_eq; rewrite andb_true_iff, Z.eqb_eq, !Z.leb_le; lia).
  change (128 - 32) with 96. change (128 - 48) with 80. same_tests a.
  by destruct (a =? 0)%Z, (a =? 1)%Z.
Qed.

Lemma targetAllowed_zoned a zone : 0 ≤ a < 2 ^ 128 → Is4In6 a = false → (zone =? "") = false →
  targetAllowed (AddrV6 a zone) false = negb (in_ranges reserved_zoned a).
Proof.
  intros Ha Hm Hz. unfold targetAllowed, IsUnspecified, IsPrivate, IsGlobalUnicast, IsMulticast, IsLinkLocalUnicast, IsLoopback.
  rewrite !Unmap_V6 by done. rewrite unique_local6, link_local6, multicast6 by done.
  unfold in_ranges, reserved_zoned, deniedPublicPrefixes, Contains. cbn [existsb IsValid negb orb]. rewrite Hz, andb_false_r.
  cbn [fst snd]. replace ((1 <=? a)%Z && (a <=? 1)%Z) with (a =? 1)%Z by (apply eq_true_iff_eq; rewrite andb_true_iff, Z.eqb_eq, !Z.leb_le; lia).
  cbn [andb orb negb]. same_tests a. by destruct (a =? 1)%Z.
Qed.

Lemma targetAllowed_unmap ip b : targetAllowed (Unmap ip) b = targetAllowed ip b.
Proof. unfold targetAllowed. assert (Unmap (Unmap ip) = Unmap ip) as ->; [|done]. destruct ip as [|a|a z]; cbn; try done. by destruct (Is4In6 a) eqn:E; [|cbn; rewrite E]. Qed.

Lemma targetAllowed_accepted ip : addr_ok ip → targetAllowed ip false = accepted ip.
Proof.
  intros Hok. unfold accepted. destruct ip as [|a|a zone]; [done|by apply targetAllowed_4|].
  rewrite <-targetAllowed_unmap. unfold Unmap. destruct (Is4In6 a) eqn:Em.
  - apply targetAllowed_4. change 4294967295 with (Z.ones 32). rewrite Z.land_ones by lia. apply Z.mod_pos_bound. lia.
  - destruct (String.eqb_spec zone "") as [-> |Hz]; [by apply targetAllowed_6|]. apply targetAllowed_zoned; [done..|by apply String.eqb_neq].
Qed.

Lemma least_in x l : least x l ∈ x :: l.
Proof.
  unfold least. revert x. induction l as [|y l IH]; intros x; cbn; [by left|].
  destruct (Less y x); [specialize (IH y)|specialize (IH x)]; set_solver.
Qed.

(** *** The budget under concurrent writes *)

(** A write that has taken from the budget and not appended yet. *)
Record pending := mkPending { pw_err : bool; pw_bytes : string; pw_allowed : Z }.

(** The copying goroutines of stdout and stderr, one critical section a step;
    the last component is what has been presented for writing in all. *)
Inductive copy_step : buffers * list pending * Z → buffers * list pending * Z → Prop :=
| copy_reserve s ps n toErr p b allowed overflow :
    reserve (budget s) p = (b, allowed, overflow) →
    copy_step (s, ps, n) (mkBuffers (mkBudget (remaining b) (exceeded b || overflow)) (out s) (err s),
                          mkPending toErr p allowed :: ps, n + slen p)
| copy_commit s ps1 ps2 n w :
    copy_step (s, ps1 ++ w :: ps2, n)
      (if pw_err w then mkBuffers (budget s) (out s) (commit (err s) (pw_bytes w) (pw_allowed w))
       else mkBuffers (budget s) (commit (out s) (pw_bytes w) (pw_allowed w)) (err s), ps1 ++ ps2, n).

Definition pending_total (ps : list pending) : Z := foldr (λ w n, pw_allowed w + n) 0 ps.

Record budget_ok (max : Z) (x : buffers * list pending * Z) : Prop := {
  bo_pending : Forall (λ w, 0 ≤ pw_allowed w ≤ slen (pw_bytes w)) x.1.2;
  bo_rest : 0 ≤ remaining (budget x.1.1);
  bo_sum : slen (out x.1.1) + slen (err x.1.1) + pending_total x.1.2 + remaining (budget x.1.1) = max;
  bo_exceeded : if exceeded (budget x.1.1) then max < x.2 else x.2 = max - remaining (budget x.1.1);
}.

Lemma slen_commit buf p n : 0 ≤ n ≤ slen p → slen (commit buf p n) = slen buf + n.
Proof.
  intros Hn. unfold commit. destruct (Z.ltb_spec 0 n); [|lia]. unfold slen in *. rewrite length_append.
  assert (String.length (take_str (Z.to_nat n) p) = Z.to_nat n) as ->; [|lia].
  assert (Z.to_nat n ≤ String.length p)%nat as Hle by lia. revert Hle. generalize (Z.to_nat n). clear.
  induction p as [|a p IH]; intros [|k] Hk; cbn in *; try lia. rewrite IH; lia.
Qed.

Lemma pending_total_app ps qs : pending_total (ps ++ qs) = pending_total ps + pending_total qs.
Proof. unfold pending_total. induction ps as [|w ps IH]; cbn [foldr app]; [lia|]. rewrite IH. lia. Qed.

Lemma pending_total_nonneg ps : Forall (λ w, 0 ≤ pw_allowed w ≤ slen (pw_bytes w)) ps → 0 ≤ pending_total ps.
Proof. unfold pending_total. induction 1; cbn [foldr]; lia. Qed.

Lemma copy_step_ok max x y : budget_ok max x → copy_step x y → budget_ok max y.
Proof.
  intros [Hp Hr Hs He] Hst. destruct Hst as [s ps n toErr p b allowed overflow E|s ps1 ps2 n w]; cbn in *.
  - unfold reserve in E. simplify_eq. cbn. assert (0 ≤ slen p) by (unfold slen; lia).
    set (allowed := if (remaining (budget s) <? slen p)%Z then remaining (budget s) else slen p).
    assert (0 ≤ allowed ≤ slen p ∧ allowed ≤ remaining (budget s) ∧ (allowed < slen p → allowed = remaining (budget s))) as (? & ? & ?).
    { unfold allowed. destruct (Z.ltb_spec (remaining (budget s)) (slen p)); lia. }
    split; cbn; [by constructor|lia|unfold pending_total in *; lia|].
    destruct (exceeded (budget s)); cbn; [lia|]. destruct (Z.ltb_spec allowed (slen p)); lia.
  - apply Forall_app in Hp as [Hp1 [Hw Hp2]%Forall_cons]. rewrite pending_total_app in Hs. cbn in Hs.
    pose proof (slen_commit (out s) _ _ Hw). pose proof (slen_commit (err s) _ _ Hw).
    split; cbn; rewrite ?pending_total_app; [by apply Forall_app|by destruct (pw_err w)|destruct (pw_err w); cbn; unfold pending_total in *; lia|].
    by destruct (pw_err w).
Qed.

Lemma copy_steps_ok max x y : budget_ok max x → rtc copy_step x y → budget_ok max y.
Proof. intros Hx Hr. induction Hr; eauto using copy_step_ok. Qed.

Lemma newBuffers_ok max : 0 ≤ max → budget_ok max (newBuffers max, [], 0).
Proof. intros Hm. split; cbn; [constructor|done|change (slen "") with 0; lia|lia]. Qed.

(** * Properties *)

(** C36: what the destination policy accepts, exactly.  An address, with
    IPv4-mapped addresses read as IPv4, is allowed when it is in none of the
    fourteen IPv4 ranges (this network, private, shared, loopback, link-local,
    protocol assignments, documentation, benchmarking, multicast, reserved) or in
    none of the seven IPv6 ranges (unspecified, loopback, benchmarking,
    documentation, unique local, link-local, multicast); of an IPv6 address with a
    zone only loopback, unique local, link-local and multicast are looked at.  And
    a name is connected to only when every address it resolved to is allowed.  Other
    special-purpose addresses pass: [policy_gaps]. *)
Theorem target_policy ParseAddr ip name lookup ip' :
  addr_ok ip →
  resolveTarget ParseAddr name false lookup = Ok ip' →
  targetAllowed ip false = accepted ip ∧
  targetAllowed ip' false = true ∧
  ∀ l, ParseAddr name = None → lookup = Some l → ip' ∈ map Unmap l ∧ Forall (λ x, targetAllowed x false = true) l.
Proof.
  intros Hok Hr. split; [by apply targetAllowed_accepted|].
  unfold resolveTarget in Hr. destruct (ParseAddr name) as [x|] eqn:Ep.
  - cbn [map] in Hr. destruct (forallb _ _) eqn:Ef; [|done]. cbn in Hr. simplify_eq. cbn in Ef.
    apply andb_true_iff in Ef as [Ef _]. by split.
  - destruct lookup as [l|]; [|done]. destruct (map Unmap l) as [|x k] eqn:El; [done|]. destruct (forallb _ _) eqn:Ef; [|done].
    simplify_eq. rewrite forallb_forall in Ef. pose proof (least_in x k) as Hin. split; [by apply Ef, list_elem_of_In|].
    intros l' _ [= <-]. rewrite El. split; [done|]. apply Forall_forall. intros y Hy. rewrite <-targetAllowed_unmap. apply Ef.
    rewrite <-El. apply in_map. by apply list_elem_of_In.
Qed.

(** 2606:4700::1 is in no range. *)
Definition demo_public : Addr := AddrV6 (0x26064700 * 2 ^ 96 + 1) "".
Lemma target_policy_witness :
  targetAllowed demo_public false = accepted demo_public ∧ targetAllowed (AddrV4 (v4 1 1 1 1)) false = true ∧
  (AddrV4 (v4 1 1 1 1) ∈ map Unmap [demo_public; AddrV4 (v4 1 1 1 1)] ∧
   Forall (λ x, targetAllowed x false = true) [demo_public; AddrV4 (v4 1 1 1 1)]).
Proof.
  destruct (target_policy (λ _, None) demo_public "example.org" (Some [demo_public; AddrV4 (v4 1 1 1 1)]) (AddrV4 (v4 1 1 1 1)))
    as (H1 & H2 & H3).
  - vm_compute. split; [discriminate|reflexivity].
  - vm_compute. reflexivity.
  - split; [exact H1|]. split; [exact H2|]. by apply H3.
Defined.

(** the documented default "rejects private and reserved destination ranges", and
    these addresses are accepted: a documentation address and the unspecified
    address written with a zone, the NAT64 form of 127.0.0.1, the 6to4 form of
    10.0.0.1, and the discard-only prefix. *)
Theorem policy_gaps :
  targetAllowed (AddrV6 (0x20010db8 * 2 ^ 96 + 1) "") false = false ∧
  targetAllowed (AddrV6 (0x20010db8 * 2 ^ 96 + 1) "eth0") false = true ∧
  targetAllowed (AddrV6 0 "") false = false ∧ targetAllowed (AddrV6 0 "eth0") false = true ∧
  targetAllowed (AddrV6 (0x0064ff9b * 2 ^ 96 + v4 127 0 0 1) "") false = true ∧
  targetAllowed (AddrV6 (0x2002 * 2 ^ 112 + v4 10 0 0 1 * 2 ^ 80) "") false = true ∧
  targetAllowed (AddrV6 (0x0100 * 2 ^ 112 + 1) "") false = true.
Proof. by vm_compute. Qed.

(** however the writes to stdout and stderr interleave, the bytes kept for both
    never exceed the limit, and the limit is reported as exceeded exactly when more was presented
    than fits; when all writes are done and it is not, everything was kept. *)
Theorem output_bounded max s ps n :
  0 ≤ max → rtc copy_step (newBuffers max, [], 0) (s, ps, n) →
  slen (out s) + slen (err s) ≤ max ∧
  exceeded (budget s) = (max <? n)%Z ∧
  (ps = [] → n ≤ max → slen (out s) + slen (err s) = n).
Proof.
  intros Hm Hr. destruct (copy_steps_ok max _ _ (newBuffers_ok max Hm) Hr) as [Hp H0 Hs He]. cbn [fst snd] in *.
  pose proof (pending_total_nonneg _ Hp). split; [lia|]. split.
  - symmetry. destruct (exceeded (budget s)); [by apply Z.ltb_lt|]. apply Z.ltb_ge. lia.
  - intros -> Hn. cbn in Hs. destruct (exceeded (budget s)); lia.
Qed.

Definition demo_buffers : buffers := mkBuffers (mkBudget 0 true) "ab" "c".
Lemma output_bounded_witness :
  slen (out demo_buffers) + slen (err demo_buffers) ≤ 3 ∧ exceeded (budget demo_buffers) = (3 <? 4)%Z.
Proof.
  destruct (output_bounded 3 demo_buffers [] 4) as (H1 & H2 & _); [lia| |by split].
  apply rtc_l with (mkBuffers (mkBudget 1 false) "" "", [mkPending false "ab" 2], 2);
    [exact (copy_reserve (newBuffers 3) [] 0 false "ab" _ _ _ eq_refl)|].
  apply rtc_l with (mkBuffers (mkBudget 0 true) "" "", [mkPending true "cd" 1; mkPending false "ab" 2], 4);
    [exact (copy_reserve (mkBuffers (mkBudget 1 false) "" "") _ 2 true "cd" _ _ _ eq_refl)|].
  apply rtc_l with (mkBuffers (mkBudget 0 true) "ab" "", [mkPending true "cd" 1], 4);
    [exact (copy_commit (mkBuffers (mkBudget 0 true) "" "") [mkPending true "cd" 1] [] 4 (mkPending false "ab" 2))|].
  apply rtc_once. exact (copy_commit (mkBuffers (mkBudget 0 true) "ab" "") [] [] 4 (mkPending true "cd" 1)).
Defined.
