(* ===== verification/ConnectorWebSSH.v ===== *)
(** * The WebSSH manager of the Connector

    Models the tables, the limits and the validation of
    [services/connector/service/webssh.go].  A ticket entry is shared between
    the table and the session that consumes it, and its credential is
    overwritten in place when it is no longer needed; so credentials live in a
    memory of cells, and an entry holds the location of its cell.  Parsing
    URLs and SSH keys are parameters, random bytes and clock readings
    arguments.  The handlers that use the manager are in ConnectorService, the
    terminal session in TerminalSession. *)

From S2P Require Import Prelude GoStrings Encoding Text Url Credentials Protocol SshConnector.

Definition defaultWebSSHTicketTTL : duration := 30 * second.
Definition defaultWebSSHHandshakeTimeout : duration := 5 * second.
Definition defaultWebSSHIdleTimeout : duration := 10 * minute.
Definition defaultWebSSHAbsoluteTimeout : duration := hour.
Definition defaultWebSSHConcurrent : Z := 4.
Definition defaultWebSSHOutstandingTickets : Z := 128.
Definition defaultWebSSHInputMessageBytes : Z := 16384.
Definition defaultWebSSHOutputMessageBytes : Z := 16384.
Definition defaultWebSSHInputBytesPerSecond : Z := 65536.
Definition defaultWebSSHOutputBytesPerSecond : Z := 262144.

(** ** Credentials in memory *)

(** The byte slices of a credential are overwritten with zeros and the fields
    set to nil. *)
Definition wiped : Credential := mkCredential "" "".

Record Memory := mkMemory { cells : gmap nat Credential; next : nat }.

Definition empty_memory : Memory := mkMemory ∅ 0.

Definition alloc (c : Credential) (mem : Memory) : Memory * nat :=
  (mkMemory (<[next mem := c]> (cells mem)) (S (next mem)), next mem).

Definition read (mem : Memory) (l : nat) : Credential := default wiped (cells mem !! l).

Definition wipeCredential (l : nat) (mem : Memory) : Memory := mkMemory (<[l := wiped]> (cells mem)) (next mem).

(** A copy with slices of its own. *)
Definition cloneCredential (l : nat) (mem : Memory) : Memory * nat := alloc (read mem l) mem.

(** ** Origins *)

Section origins.
Context (Parse : string → option URL) (ToLower : string → string).

Definition normalizeOrigin (value : string) : result string string :=
  require negb ((value =? "") || negb (trimmed value) || contains_any "*?," value)
    else "web SSH origins must be exact HTTP(S) origins without wildcards" ;;
  parsed ← of_option (Parse value) "web SSH origins must be exact HTTP(S) origins";
  require negb ((Scheme parsed ≠? "https") && (Scheme parsed ≠? "http") || (Host parsed =? "") || HasUser parsed ||
                (Path parsed ≠? "") || (RawQuery parsed ≠? "") || (Fragment parsed ≠? ""))
    else "web SSH origins must be exact HTTP(S) origins" ;;
  Ok (ToLower (Scheme parsed) +:+ "://" +:+ ToLower (Host parsed)).

Fixpoint collect_origins (values : list string) (acc : gset string) : result string (gset string) :=
  match values with
  | [] => Ok acc
  | value :: rest => normalized ← normalizeOrigin value; collect_origins rest ({[ normalized ]} ∪ acc)
  end.

Definition normalizeOrigins (values : list string) : result string (gset string) :=
  origins ← collect_origins values ∅;
  require negb (bool_decide (origins = ∅)) else "at least one exact web SSH origin is required" ;;
  Ok origins.

(** [Origin] is the list of values of that request header. *)
Definition originAllowed (origins : gset string) (Origin : list string) : bool :=
  match Origin with
  | [value] =>
    match normalizeOrigin value with
    | Err _ => false
    | Ok normalized => bool_decide (normalized ∈ origins)
    end
  | _ => false
  end.
End origins.

(** ** The manager *)

Record WebSSHOptions := mkWebSSHOptions {
  op_AllowedOrigins : list string;
  op_TicketTTL : duration;
  op_HandshakeTimeout : duration;
  op_IdleTimeout : duration;
  op_AbsoluteTimeout : duration;
  op_MaxConcurrent : Z;
  op_MaxOutstandingTickets : Z;
  op_MaxInputMessageBytes : Z;
  op_MaxOutputMessageBytes : Z;
  op_InputBytesPerSecond : Z;
  op_OutputBytesPerSecond : Z;
  op_AllowPrivateTargets : bool;
  op_ConnectTimeout : duration;
}.

(** The fields that never change; a channel contributes its capacity. *)
Record settings := mkSettings {
  enabled : bool;
  origins : gset string;
  ticketTTL : duration;
  handshakeTimeout : duration;
  idleTimeout : duration;
  absoluteTimeout : duration;
  maxTickets : Z;
  maxConsumed : Z;
  maxInputMessageBytes : Z;
  maxOutputMessageBytes : Z;
  inputBytesPerSecond : Z;
  outputBytesPerSecond : Z;
  allowPrivateTargets : bool;
  connectTimeout : duration;
  cap_concurrency : Z;
  cap_connections : Z;
}.

Record webSSHTicket := mkTicket {
  sessionID : string;
  binding : WebSSHBinding;
  target : Target;
  pinnedHostKey : string;
  credential : nat;
  initialSize : TerminalSize;
  expiresAt : time;
}.

(** [concurrency] and [connections] are the occupancies of the channels,
    [wait] the counter of the wait group, [cancelled] whether [ctx] is done,
    and [pruning] whether the goroutine of [pruneLoop] runs. *)
Record webSSHManager := mkManager {
  closed : bool;
  cancelled : bool;
  pruning : bool;
  concurrency : Z;
  connections : Z;
  wait : Z;
  tickets : gmap string webSSHTicket;
  consumed : gmap string time;
}.

Definition or_default (value fallback : Z) : Z := if (value <=? 0)%Z then fallback else value.

Definition disabled : settings := mkSettings false ∅ 0 0 0 0 0 0 0 0 0 0 false 0 0 0.
Definition fresh_manager (running : bool) : webSSHManager :=
  mkManager false false running 0 0 (if running then 1 else 0) ∅ ∅.

Definition newWebSSHManager Parse ToLower (o : WebSSHOptions) : result string (settings * webSSHManager) :=
  if bool_decide (op_AllowedOrigins o = []) then Ok (disabled, fresh_manager false)
  else
    origins ← normalizeOrigins Parse ToLower (op_AllowedOrigins o);
    let ttl := or_default (op_TicketTTL o) defaultWebSSHTicketTTL in
    require (ttl <=? minute)%Z else "web SSH ticket TTL must not exceed one minute" ;;
    let handshake := or_default (op_HandshakeTimeout o) defaultWebSSHHandshakeTimeout in
    require (handshake <=? 15 * second)%Z else "web SSH handshake timeout must not exceed 15 seconds" ;;
    let idle := or_default (op_IdleTimeout o) defaultWebSSHIdleTimeout in
    require (idle <=? hour)%Z else "web SSH idle timeout must not exceed one hour" ;;
    let absolute := or_default (op_AbsoluteTimeout o) defaultWebSSHAbsoluteTimeout in
    require (absolute <=? 8 * hour)%Z else "web SSH absolute timeout must not exceed eight hours" ;;
    let concurrent := or_default (op_MaxConcurrent o) defaultWebSSHConcurrent in
    require (concurrent <=? 64)%Z else "web SSH concurrency limit must not exceed 64" ;;
    let outstanding := or_default (op_MaxOutstandingTickets o) defaultWebSSHOutstandingTickets in
    require (outstanding <=? 4096)%Z else "web SSH outstanding ticket limit must not exceed 4096" ;;
    let input := or_default (op_MaxInputMessageBytes o) defaultWebSSHInputMessageBytes in
    require (input <=? 65536)%Z else "web SSH input message limit must not exceed 64 KiB" ;;
    let output := or_default (op_MaxOutputMessageBytes o) defaultWebSSHOutputMessageBytes in
    require (output <=? 65536)%Z else "web SSH output message limit must not exceed 64 KiB" ;;
    let inputRate := or_default (op_InputBytesPerSecond o) defaultWebSSHInputBytesPerSecond in
    require (inputRate <=? 4194304)%Z else "web SSH input rate must not exceed 4 MiB/s" ;;
    let outputRate := or_default (op_OutputBytesPerSecond o) defaultWebSSHOutputBytesPerSecond in
    require (outputRate <=? 8388608)%Z else "web SSH output rate must not exceed 8 MiB/s" ;;
    let connect := or_default (op_ConnectTimeout o) (10 * second) in
    require (connect <=? 30 * second)%Z else "web SSH connect timeout must not exceed 30 seconds" ;;
    Ok (mkSettings true origins ttl handshake idle absolute outstanding (outstanding * 4) input output inputRate
          outputRate (op_AllowPrivateTargets o) connect concurrent (concurrent * 2),
        fresh_manager true).

(** Assignments to the parts that change. *)
Definition set_tables (m : webSSHManager) (ts : gmap string webSSHTicket) (cs : gmap string time) : webSSHManager :=
  mkManager (closed m) (cancelled m) (pruning m) (concurrency m) (connections m) (wait m) ts cs.
Definition set_concurrency (m : webSSHManager) (n : Z) : webSSHManager :=
  mkManager (closed m) (cancelled m) (pruning m) n (connections m) (wait m) (tickets m) (consumed m).
Definition set_connections (m : webSSHManager) (n : Z) : webSSHManager :=
  mkManager (closed m) (cancelled m) (pruning m) (concurrency m) n (wait m) (tickets m) (consumed m).
Definition set_wait (m : webSSHManager) (n : Z) : webSSHManager :=
  mkManager (closed m) (cancelled m) (pruning m) (concurrency m) (connections m) n (tickets m) (consumed m).

(** The credentials of the entries that fail a test are wiped. *)
Definition wipe_dropped (keep : webSSHTicket → bool) (ts : list (string * webSSHTicket)) (mem : Memory) : Memory :=
  foldr (λ kt mem, if keep kt.2 then mem else wipeCredential (credential kt.2) mem) mem ts.

Definition pruneLocked (m : webSSHManager) (mem : Memory) (now : time) : webSSHManager * Memory :=
  let keep t := (now <? expiresAt t)%Z in
  (set_tables m (prune keep (tickets m)) (prune (λ e, (now <? e)%Z) (consumed m)),
   wipe_dropped keep (map_to_list (tickets m)) mem).

(** [Close] up to the release of the lock; then [cancel]. *)
Definition close_tables (m : webSSHManager) (mem : Memory) : webSSHManager * Memory :=
  if closed m then (m, mem)
  else (mkManager true (cancelled m) (pruning m) (concurrency m) (connections m) (wait m) ∅ (consumed m),
        wipe_dropped (λ _, false) (map_to_list (tickets m)) mem).

Definition cancel (m : webSSHManager) : webSSHManager :=
  mkManager (closed m) true (pruning m) (concurrency m) (connections m) (wait m) (tickets m) (consumed m).

(** The two ways out of the [select] of [pruneLoop]. *)
Definition prune_tick (m : webSSHManager) (mem : Memory) (now : time) : webSSHManager * Memory :=
  if pruning m then pruneLocked m mem now else (m, mem).
Definition prune_exit (m : webSSHManager) : webSSHManager :=
  if pruning m && cancelled m
  then mkManager (closed m) (cancelled m) false (concurrency m) (connections m) (wait m - 1) (tickets m) (consumed m)
  else m.

Definition beginSession (m : webSSHManager) : webSSHManager * bool :=
  if closed m then (m, false) else (set_wait m (wait m + 1), true).
Definition wait_Done (m : webSSHManager) : webSSHManager := set_wait m (wait m - 1).

(** The sends to the two channels, in a [select] with a default. *)
Definition acquire_connection (cfg : settings) (m : webSSHManager) : webSSHManager * bool :=
  if (connections m <? cap_connections cfg)%Z then (set_connections m (connections m + 1), true) else (m, false).
Definition release_connection (m : webSSHManager) : webSSHManager := set_connections m (connections m - 1).
Definition acquire_session (cfg : settings) (m : webSSHManager) : webSSHManager * bool :=
  if (concurrency m <? cap_concurrency cfg)%Z then (set_concurrency m (concurrency m + 1), true) else (m, false).
Definition release_session (m : webSSHManager) : webSSHManager := set_concurrency m (concurrency m - 1).

(** ** Tickets *)

Section tickets.
Context (sha256 : string → string) (cfg : settings).

(** [createTicket], with the clock reading [now] and the random bytes. *)
Definition new_ticket (payload : WebSSHTicketRequest) (l : nat) (now : time) (sessionBytes : string) : webSSHTicket :=
  mkTicket (b64_encode sessionBytes) (tr_Binding payload) (tr_Target payload) (tr_PinnedHostKey payload) l
    (tr_InitialSize payload) (now + ticketTTL cfg).

(** The credential of the payload is the one in cell [p]. *)
Definition createTicket (m : webSSHManager) (mem : Memory) (payload : WebSSHTicketRequest) (p : nat) (requestID : string)
    (now : time) (ticketRandom sessionRandom : option string)
    : webSSHManager * Memory * result string WebSSHTicketResponse :=
  match read_full 32 ticketRandom "read random", read_full 16 sessionRandom "read random" with
  | Ok ticketBytes, Ok sessionBytes =>
    let ticketHash := sha256 ticketBytes in
    let '(mem, l) := cloneCredential p mem in
    let entry := new_ticket payload l now sessionBytes in
    let '(m, mem) := pruneLocked m mem now in
    if closed m || (maxTickets cfg <=? len (tickets m))%Z || (maxConsumed cfg <=? len (consumed m))%Z then
      (m, wipeCredential l mem, Err "web SSH ticket capacity reached")
    else match tickets m !! ticketHash with
    | Some _ => (m, wipeCredential l mem, Err "web SSH ticket collision")
    | None =>
      (set_tables m (<[ticketHash := entry]> (tickets m)) (consumed m), mem,
       Ok (mkTicketResponse ProtocolVersion requestID (b64_encode ticketBytes) (sessionID entry) (expiresAt entry)))
    end
  | _, _ => (m, mem, Err "read random")
  end.

Definition sameString (left right : string) : bool :=
  if negb (slen left =? slen right)%Z then false else constant_eq left right.

Definition sameBinding (left right : WebSSHBinding) : bool :=
  sameString (wb_PrincipalID left) (wb_PrincipalID right) && sameString (wb_HostID left) (wb_HostID right) &&
  sameString (wb_CredentialID left) (wb_CredentialID right) && sameString (wb_Action left) (wb_Action right).

(** The digest of a ticket that is 32 bytes in base64. *)
Definition ticket_digest (value : string) : option string :=
  match b64_decode false value with
  | Some decoded => if (slen decoded =? 32)%Z then Some (sha256 decoded) else None
  | None => None
  end.

Definition consumeTicket (m : webSSHManager) (mem : Memory) (hello : WebSSHHelloMessage) (now : time)
    : webSSHManager * Memory * (webSSHTicket + string) :=
  match ticket_digest (wh_Ticket hello) with
  | None => (m, mem, inr "invalid_ticket")
  | Some hash =>
    let '(m, mem) := pruneLocked m mem now in
    match tickets m !! hash with
    | None =>
      (m, mem, inr (if bool_decide (is_Some (consumed m !! hash)) then "ticket_replayed" else "invalid_ticket"))
    | Some entry =>
      let m := set_tables m (delete hash (tickets m)) (<[hash := now + ticketTTL cfg]> (consumed m)) in
      if negb (now <? expiresAt entry)%Z then (m, wipeCredential (credential entry) mem, inr "ticket_expired")
      else if negb (sameString (sessionID entry) (wh_SessionID hello)) ||
              negb (sameBinding (binding entry) (wh_Binding hello)) || (wh_Type hello ≠? WebSSHMessageHello) then
        (m, wipeCredential (credential entry) mem, inr "ticket_binding_mismatch")
      else (m, mem, inl entry)
    end
  end.
End tickets.

(** ** Validation of a ticket request *)

Definition validBoundID (value : string) : bool :=
  (1 <=? slen value)%Z && (slen value <=? 128)%Z && trimmed value &&
  all_runes (λ c, negb (is_control c || is_space c)) value.

Definition validSSHUser (value : string) : bool :=
  (1 <=? slen value)%Z && (slen value <=? 64)%Z && trimmed value &&
  all_runes (λ c, negb (is_control c || is_space c)) value.

(** The fields are [uint16]. *)
Definition validTerminalSize (s : TerminalSize) : bool :=
  (20 <=? Columns s)%Z && (Columns s <=? 500)%Z && (5 <=? Rows s)%Z && (Rows s <=? 300)%Z &&
  (WidthPixels s <=? 10000)%Z && (HeightPixels s <=? 10000)%Z.

Section validation.
Context (ParseAddr : string → option Addr) {PublicKey Signer : Type}
  (ParseAuthorizedKey : string → option (PublicKey * string)) (ParsePrivateKey : string → option Signer)
  (ParsePrivateKeyWithPassphrase : string → string → option Signer).

Definition parse_signer (c : Credential) : option Signer :=
  if (slen (Passphrase c) =? 0)%Z then ParsePrivateKey (PrivateKeyPEM c)
  else ParsePrivateKeyWithPassphrase (PrivateKeyPEM c) (Passphrase c).

Definition validateWebSSHTicketRequest (payload : WebSSHTicketRequest) (allowPrivate : bool) : bool :=
  let b := tr_Binding payload in
  let t := tr_Target payload in
  let c := tr_Credential payload in
  if (tr_ProtocolVersion payload ≠? ProtocolVersion) || (wb_Action b ≠? ActionWebSSH) ||
     negb (validBoundID (wb_PrincipalID b)) || negb (validBoundID (wb_HostID b)) ||
     negb (validBoundID (wb_CredentialID b)) ||
     (trim_space (Address t) =? "") || negb (trimmed (Address t)) || (253 <? slen (Address t))%Z ||
     (Port t <? 1)%Z || (65535 <? Port t)%Z || negb (validSSHUser (User t)) ||
     (slen (tr_PinnedHostKey payload) =? 0)%Z || (16384 <? slen (tr_PinnedHostKey payload))%Z ||
     (slen (PrivateKeyPEM c) =? 0)%Z || (49152 <? slen (PrivateKeyPEM c))%Z || (4096 <? slen (Passphrase c))%Z ||
     negb (validTerminalSize (tr_InitialSize payload)) then false
  else is_ok (ValidateTargetLiteral ParseAddr (Address t) allowPrivate) &&
       is_ok (ParsePinnedHostKey ParseAuthorizedKey (tr_PinnedHostKey payload)) &&
       bool_decide (is_Some (parse_signer c)).
End validation.

(** ** Lemmas: memory and comparison *)

Lemma wipe_dropped_next keep ts mem : next (wipe_dropped keep ts mem) = next mem.
Proof. induction ts as [|[k t] ts IH]; [done|]. cbn. by destruct (keep t). Qed.

Lemma wipe_dropped_lookup keep ts mem l :
  (∃ kt, kt ∈ ts ∧ keep kt.2 = false ∧ credential kt.2 = l) ∧ cells (wipe_dropped keep ts mem) !! l = Some wiped ∨
  (∀ kt, kt ∈ ts → credential kt.2 = l → keep kt.2 = true) ∧ cells (wipe_dropped keep ts mem) !! l = cells mem !! l.
Proof.
  induction ts as [|[k t] ts IH].
  { right. split; [intros kt Hin; by apply elem_of_nil in Hin|done]. }
  cbn. destruct (keep t) eqn:Ek.
  - destruct IH as [[(kt & Hin & Hk & Hl) IH]|[Hk IH]]; [left|right]; (split; [|done]).
    + exists kt. split_and!; [by apply elem_of_cons; right|done..].
    + intros kt [->|Hin]%elem_of_cons Hc; [done|]. by apply Hk.
  - cbn. destruct (decide (credential t = l)) as [<-|Hne].
    + left. rewrite lookup_insert_eq. split; [|done]. exists (k, t). by split_and!; [apply elem_of_cons; left|..].
    + rewrite lookup_insert_ne by done. destruct IH as [[(kt & Hin & Hk & Hl) IH]|[Hk IH]]; [left|right]; (split; [|done]).
      * exists kt. split_and!; [by apply elem_of_cons; right|done..].
      * intros kt [->|Hin]%elem_of_cons Hc; [done|]. by apply Hk.
Qed.

Lemma same_string_eq a b : sameString a b = true → a = b.
Proof. unfold sameString, constant_eq. case_match; [done|]. by intros ?%String.eqb_eq. Qed.

Lemma same_binding_eq a b : sameBinding a b = true → a = b.
Proof.
  unfold sameBinding. intros Hb. reflect_bools. destruct a, b. cbn in *.
  repeat match goal with G : sameString _ _ = true |- _ => apply same_string_eq in G end. by subst.
Qed.

Lemma same_string_refl a : sameString a a = true.
Proof. unfold sameString, constant_eq. by rewrite Z.eqb_refl, String.eqb_refl. Qed.

Lemma same_binding_refl b : sameBinding b b = true.
Proof. unfold sameBinding. by rewrite !same_string_refl. Qed.
