(* ===== verification/RateLimit.v ===== *)
(** * The byte rate limiter

    Models [byteRateLimiter] of [services/connector/service/webssh.go], a
    token bucket in [float64] arithmetic; [rateLimiter] of
    [services/websshgateway/websocket.go] is the same code.  A [float64] is a
    [spec_float] with the precision and exponent range of IEEE 754 binary64
    and rounding to nearest even. *)

From S2P Require Import Prelude Protocol.

Definition f64_add : float64 → float64 → float64 := SFadd 53 1024.
Definition f64_sub : float64 → float64 → float64 := SFsub 53 1024.
Definition f64_mul : float64 → float64 → float64 := SFmul 53 1024.
Definition f64_div : float64 → float64 → float64 := SFdiv 53 1024.

(** [x < y]; false when one of them is a NaN. *)
Definition f64_lt : float64 → float64 → bool := SFltb.

(** The conversion of an [int64]. *)
Definition f64_of_int (z : Z) : float64 := binary_normalize 53 1024 z 0 false.

(** [Duration.Seconds]: whole seconds plus the fraction. *)
Definition Seconds (d : duration) : float64 :=
  f64_add (f64_of_int (Z.quot d second)) (f64_div (f64_of_int (Z.rem d second)) (f64_of_int second)).

(** [Time.Sub] saturates. *)
Definition Sub (t u : time) : duration := Z.max (- 2 ^ 63) (Z.min (2 ^ 63 - 1) (t - u)).

Record byteRateLimiter := mkLimiter { rate : float64; burst : float64; tokens : float64; last : time }.

Definition newByteRateLimiter (rate burst : Z) (now : time) : byteRateLimiter :=
  mkLimiter (f64_of_int rate) (f64_of_int burst) (f64_of_int burst) now.

(** The tokens after the refill. *)
Definition refill (l : byteRateLimiter) (now : time) : float64 :=
  let t := f64_add (tokens l) (f64_mul (Seconds (Sub now (last l))) (rate l)) in
  if f64_lt (burst l) t then burst l else t.

Definition Allow (l : byteRateLimiter) (amount : Z) (now : time) : byteRateLimiter * bool :=
  if (amount <? 0)%Z then (l, false)
  else
    let t := refill l now in
    if f64_lt t (f64_of_int amount) then (mkLimiter (rate l) (burst l) t now, false)
    else (mkLimiter (rate l) (burst l) (f64_sub t (f64_of_int amount)) now, true).

(** ** What a limiter admits *)

Definition is_number (x : float64) : bool := match x with S754_nan => false | _ => true end.

Lemma f64_lt_irrefl x : f64_lt x x = false.
Proof.
  unfold f64_lt, SFltb. destruct x as [| []| |[] m e]; cbn; try done;
    rewrite Z.compare_refl, Pos.compare_cont_refl; done.
Qed.

(** Finite floats compare by sign, exponent and mantissa; so the order is
    transitive, whatever their values. *)
Lemma f64_not_lt_trans x y z :
  is_number y = true → f64_lt y x = false → f64_lt z y = false → f64_lt z x = false.
Proof.
  unfold f64_lt, SFltb.
  destruct x as [sx|[]| |[] mx ex], y as [sy|[]| |[] my ey], z as [sz|[]| |[] mz ez]; cbn; try done;
    repeat match goal with |- context [Z.compare ?a ?b] => destruct (Z.compare_spec a b) end;
    change (Pos.compare_cont Eq) with Pos.compare in *;
    repeat match goal with |- context [Pos.compare ?a ?b] => destruct (Pos.compare_spec a b) end;
    subst; cbn; try done; lia.
Qed.

Lemma refill_le_burst l now : is_number (burst l) = true → f64_lt (burst l) (refill l now) = false.
Proof. intros Hb. unfold refill. case_match eqn:E; [apply f64_lt_irrefl|done]. Qed.

(** An amount above the burst is refused, however long the limiter rested. *)
Lemma Allow_burst l amount now l' :
  is_number (burst l) = true → is_number (refill l now) = true → Allow l amount now = (l', true) →
  0 ≤ amount ∧ f64_lt (burst l) (f64_of_int amount) = false.
Proof.
  unfold Allow. intros Hb Hr H. destruct (Z.ltb_spec amount 0); [done|]. split; [done|].
  case_match eqn:E; [done|].
  eapply (f64_not_lt_trans _ (refill l now)); [done|done|by apply refill_le_burst].
Qed.
