(* ===== verification/TerminalSession.v ===== *)
(** * One terminal session of the Connector

    Models the goroutines of [serveConnection] in
    [services/connector/service/webssh.go]: [readClient] carries the frames of
    the client to the remote shell, [writeOutput] the output of the shell to
    the client, and the [select] loop ends the session.  The remote shell is an
    object of the SSH library, known by what its documentation promises
    ([ShellLaws]); what arrives from the network, and when, are arguments, with
    the decoding of a JSON text. *)

From S2P Require Import Prelude GoStrings Encoding Url Protocol ConnectorWebSSH RateLimit.

(** Decoding of a message: [json.Unmarshal] into a struct with the one member
    [type], and [decodeStrictJSON] into the structs of the protocol. *)
Class Decoders := {
  header_type : string → option string;
  decode_input : string → option WebSSHInputMessage;
  decode_resize : string → option WebSSHResizeMessage;
}.

(** ** The remote shell *)

(** [WriteInput] returns the number of bytes it took and an error or nil;
    [Resize] an error or nil. *)
Class Shell (P : Type) := {
  WriteInput : string → P → P * (Z * bool);
  Resize : TerminalSize → P → P * bool;
}.

(** What the shell has been told: its input, and its window sizes. *)
Class ShellLaws (P : Type) `{Shell P} := {
  received : P → string;
  window : P → list TerminalSize;
  WriteInput_received v p n failed p' : WriteInput v p = (p', (n, failed)) →
    received p' = received p +:+ take_str (Z.to_nat n) v ∧ window p' = window p;
  Resize_received size p failed p' : Resize size p = (p', failed) →
    received p' = received p ∧ window p' = if failed then window p else window p ++ [size];
}.

Inductive write_error := WriteFailed | ErrShortWrite.

(** The loop of [writeAll]; it takes at least one byte per turn. *)
Fixpoint write_all {P} `{Shell P} (fuel : nat) (p : P) (value : string) : P * option write_error :=
  match fuel with
  | O => (p, None)
  | S fuel =>
    if (slen value =? 0)%Z then (p, None)
    else
      let '(p, (written, failed)) := WriteInput value p in
      if failed then (p, Some WriteFailed)
      else if (written <=? 0)%Z || (slen value <? written)%Z then (p, Some ErrShortWrite)
      else write_all fuel p (drop_str (Z.to_nat written) value)
  end.

Definition writeAll {P} `{Shell P} (p : P) (value : string) : P * option write_error :=
  write_all (S (String.length value)) p value.

(** ** The frames of the client *)

Record sessionEvent := mkEvent { code : string; message : string; retryable : bool }.

(** One result of [connection.Read]: the message and when it is charged. *)
Record frame := mkFrame { fr_text : bool; fr_body : string; fr_at : time }.

Definition client_closed : sessionEvent := mkEvent "client_closed" "" false.

Section client.
Context `{Decoders} {P : Type} `{Shell P} (cfg : settings).

(** The handling of one message; [Some] ends the session. *)
Definition handle_frame (p : P) (limiter : byteRateLimiter) (f : frame) : P * byteRateLimiter * option sessionEvent :=
  if negb (fr_text f) then
    (p, limiter, Some (mkEvent "invalid_message" "web SSH messages must be JSON text" false))
  else
    let charge := if (slen (fr_body f) <? 512)%Z then 512 else slen (fr_body f) in
    let '(limiter, allowed) := Allow limiter charge (fr_at f) in
    if negb allowed then
      (p, limiter, Some (mkEvent "input_rate_limit" "web SSH input rate limit exceeded" false))
    else match header_type (fr_body f) with
    | None => (p, limiter, Some (mkEvent "invalid_message" "web SSH message is invalid" false))
    | Some ty =>
      if ty =? WebSSHMessageInput then
        match decode_input (fr_body f) with
        | Some m =>
          if (maxInputMessageBytes cfg <? slen (wi_Data m))%Z then
            (p, limiter, Some (mkEvent "input_too_large" "web SSH input message is invalid or too large" false))
          else match writeAll p (wi_Data m) with
          | (p, Some _) => (p, limiter, Some (mkEvent "ssh_input_failed" "could not write SSH input" true))
          | (p, None) => (p, limiter, None)
          end
        | None => (p, limiter, Some (mkEvent "input_too_large" "web SSH input message is invalid or too large" false))
        end
      else if ty =? WebSSHMessageResize then
        match decode_resize (fr_body f) with
        | Some m =>
          if negb (validTerminalSize (wz_Size m)) then
            (p, limiter, Some (mkEvent "invalid_resize" "PTY size is outside the allowed range" false))
          else match Resize (wz_Size m) p with
          | (p, true) => (p, limiter, Some (mkEvent "resize_failed" "could not resize SSH PTY" true))
          | (p, false) => (p, limiter, None)
          end
        | None => (p, limiter, Some (mkEvent "invalid_resize" "PTY size is outside the allowed range" false))
        end
      else (p, limiter, Some (mkEvent "unsupported_message" "web SSH message type is not supported" false))
    end.

(** The loop, over the messages that arrive before [Read] fails. *)
Fixpoint read_frames (p : P) (limiter : byteRateLimiter) (frames : list frame) : P * sessionEvent :=
  match frames with
  | [] => (p, client_closed)
  | f :: rest =>
    match handle_frame p limiter f with
    | (p, limiter, Some event) => (p, event)
    | (p, limiter, None) => read_frames p limiter rest
    end
  end.

Definition readClient (p : P) (start : time) (frames : list frame) : P * sessionEvent :=
  read_frames p (newByteRateLimiter (inputBytesPerSecond cfg) (inputBytesPerSecond cfg * 2) start) frames.

(** ** The output of the shell *)

Inductive read_failure := EOF | ReadFailed.

(** One result of [ReadOutput]: the bytes it put into the buffer and an error
    or nil; [rd_sent] is whether the message with them could be written. *)
Record output_read := mkRead { rd_data : string; rd_err : option read_failure; rd_at : time; rd_sent : bool }.

(** The messages written, and the event that ends the loop; [None] while the
    shell has nothing more to read. *)
Fixpoint write_reads (limiter : byteRateLimiter) (reads : list output_read)
    : list WebSSHOutputMessage * option sessionEvent :=
  match reads with
  | [] => ([], None)
  | r :: rest =>
    let continue_with limiter :=
      match rd_err r with
      | Some EOF => ([], Some (mkEvent "output_closed" "" false))
      | Some ReadFailed => ([], Some (mkEvent "ssh_output_failed" "could not read SSH output" true))
      | None => write_reads limiter rest
      end in
    if (0 <? slen (rd_data r))%Z then
      let '(limiter, allowed) := Allow limiter (slen (rd_data r)) (rd_at r) in
      if negb allowed then ([], Some (mkEvent "output_rate_limit" "web SSH output rate limit exceeded" false))
      else if negb (rd_sent r) then ([], Some client_closed)
      else let '(messages, event) := continue_with limiter in
           (mkOutput WebSSHMessageOutput (rd_data r) :: messages, event)
    else continue_with limiter
  end.

Definition writeOutput (start : time) (reads : list output_read) : list WebSSHOutputMessage * option sessionEvent :=
  write_reads (newByteRateLimiter (outputBytesPerSecond cfg) (outputBytesPerSecond cfg * 2) start) reads.

(** ** The end of the session *)

(** What [pty.Wait] returned: nil, an [ssh.ExitError], or another error. *)
Inductive wait_result := Exited | ExitedWith (status : Z) | Disconnected.

(** A case of the [select] that is ready; [IdleTick] with the time since the
    last activity. *)
Inductive ready :=
| InputReady (e : sessionEvent) | OutputReady (e : sessionEvent) | WaitReady (r : wait_result)
| ContextDone | IdleTick (since : duration).

(** What is written to the client. *)
Inductive server_message :=
| MReady (m : WebSSHReadyMessage) | MExit (m : WebSSHExitMessage) | MError (m : WebSSHErrorMessage).

Definition error_message (code message : string) (retryable : bool) : server_message :=
  MError (mkWebSSHError WebSSHMessageError code message retryable).

(** The last message and the close status, when the case ends the session;
    [shutdown] is whether the manager's context is cancelled. *)
Definition select_case (shutdown : bool) (r : ready) : option (list server_message * option (Z * string)) :=
  match r with
  | InputReady e =>
    Some (if code e =? "client_closed" then [] else [error_message (code e) (message e) (retryable e)], None)
  | OutputReady e =>
    Some (if code e =? "output_closed" then [] else [error_message (code e) (message e) (retryable e)], None)
  | WaitReady w =>
    let '(exitCode, reason) :=
      match w with
      | Exited => (0, "remote shell exited")
      | ExitedWith status => (status, "remote shell exited")
      | Disconnected => (-1, "remote shell disconnected")
      end in
    Some ([MExit (mkExit WebSSHMessageExit exitCode reason)], Some (1000, "remote shell exited"))
  | ContextDone =>
    Some ([if shutdown then error_message "connector_shutdown" "Connector is shutting down" false
           else error_message "absolute_timeout" "web SSH absolute timeout reached" false], None)
  | IdleTick since =>
    if (idleTimeout cfg <=? since)%Z
    then Some ([error_message "idle_timeout" "web SSH session was idle too long" false], Some (1000, "idle timeout"))
    else None
  end.
End client.

(** ** Writing all of a message *)

Section writing.
Context {P : Type} `{ShellLaws P}.

(** More fuel than bytes changes nothing. *)
Lemma write_all_fuel f1 f2 (p : P) v :
  (String.length v < f1)%nat → (String.length v < f2)%nat → write_all f1 p v = write_all f2 p v.
Proof.
  revert f2 p v. induction f1 as [|f1 IH]; intros [|f2] p v H1 H2; [lia..|]. cbn.
  destruct (Z.eqb_spec (slen v) 0) as [|Hne]; [done|]. destruct (WriteInput v p) as [p' [n failed]]. destruct failed; [done|].
  destruct (Z.leb_spec n 0); [done|]. destruct (Z.ltb_spec (slen v) n); [done|]. cbn.
  apply IH; rewrite drop_str_length; unfold slen in *; lia.
Qed.

(** Without an error the shell has received the whole value, and in every
    case a first part of it. *)
Lemma write_all_received fuel (p : P) v p' e :
  (String.length v < fuel)%nat → write_all fuel p v = (p', e) →
  window p' = window p ∧ ∃ k, received p' = received p +:+ take_str k v ∧ (e = None → take_str k v = v).
Proof.
  revert p v. induction fuel as [|fuel IH]; intros p v Hf; [lia|]. cbn.
  destruct (Z.eqb_spec (slen v) 0) as [E0|E0].
  { intros [= <- <-]. split; [done|]. exists 0%nat. cbn. rewrite append_nil. split; [done|].
    destruct v; [done|]. unfold slen in E0. cbn in E0. lia. }
  destruct (WriteInput v p) as [p1 [n failed]] eqn:Ew. apply WriteInput_received in Ew as [Er Ewin].
  destruct failed; [intros [= <- <-]; split; [done|]; by exists (Z.to_nat n)|].
  destruct (Z.leb_spec n 0); [intros [= <- <-]; split; [done|]; by exists (Z.to_nat n)|].
  destruct (Z.ltb_spec (slen v) n); [intros [= <- <-]; split; [done|]; by exists (Z.to_nat n)|]. cbn.
  intros Hrest. apply IH in Hrest as (Hw & k & Hk & Hall); [|rewrite drop_str_length; unfold slen in *; lia].
  split; [by rewrite Hw|]. exists (Z.to_nat n + k)%nat. rewrite Hk, Er, append_assoc, take_str_add.
  split; [done|]. intros ->. rewrite (Hall eq_refl). apply take_drop_str.
Qed.
End writing.

(** ** What the client typed *)

Section typed.
Context `{Decoders} {P : Type} `{ShellLaws P} (cfg : settings).

(** The input and the window sizes of a message. *)
Definition frame_input (f : frame) : string :=
  if bool_decide (header_type (fr_body f) = Some WebSSHMessageInput)
  then default "" (wi_Data <$> decode_input (fr_body f)) else "".
Definition frame_sizes (f : frame) : list TerminalSize :=
  if bool_decide (header_type (fr_body f) = Some WebSSHMessageResize)
  then option_list (wz_Size <$> decode_resize (fr_body f)) else [].

Definition typed (frames : list frame) : string := foldr (λ f s, frame_input f +:+ s) "" frames.
Definition resized (frames : list frame) : list TerminalSize := frames ≫= frame_sizes.

Definition acceptable (f : frame) : Prop :=
  fr_text f = true ∧
  ((∃ m, header_type (fr_body f) = Some WebSSHMessageInput ∧ decode_input (fr_body f) = Some m ∧
      slen (wi_Data m) ≤ maxInputMessageBytes cfg) ∨
   (∃ m, header_type (fr_body f) = Some WebSSHMessageResize ∧ decode_resize (fr_body f) = Some m ∧
      validTerminalSize (wz_Size m) = true)).

(** One message is delivered whole, or it ends the session; of an input that
    fails, a first part may have been delivered. *)
Lemma handle_frame_delivers (p : P) limiter f p' limiter' e :
  handle_frame cfg p limiter f = (p', limiter', e) →
  match e with
  | None => acceptable f ∧ received p' = received p +:+ frame_input f ∧ window p' = window p ++ frame_sizes f
  | Some ev => code ev ≠ "client_closed" ∧ window p' = window p ∧
      (received p' = received p ∨ code ev = "ssh_input_failed" ∧ acceptable f ∧
        ∃ k, received p' = received p +:+ take_str k (frame_input f))
  end.
Proof.
  unfold handle_frame. destruct (fr_text f) eqn:Et; [|intros [= <- <- <-]; cbn; auto]. cbn [negb].
  destruct (Allow _ _ _) as [l1 allowed]. destruct allowed; [|intros [= <- <- <-]; cbn; auto]. cbn [negb].
  destruct (header_type (fr_body f)) as [ty|] eqn:Eh; [|intros [= <- <- <-]; cbn; auto].
  destruct (String.eqb_spec ty WebSSHMessageInput) as [->|Hi].
  - destruct (decode_input (fr_body f)) as [m|] eqn:Ed; [|intros [= <- <- <-]; cbn; auto].
    assert (frame_input f = wi_Data m) as Ei by (unfold frame_input; by rewrite Eh, Ed).
    assert (frame_sizes f = []) as Es by (unfold frame_sizes; by rewrite Eh).
    destruct (Z.ltb_spec (maxInputMessageBytes cfg) (slen (wi_Data m))); [intros [= <- <- <-]; cbn; auto|].
    assert (acceptable f) as Ha by (split; [done|left; eauto]).
    destruct (writeAll p (wi_Data m)) as [p1 e1] eqn:Ew. apply write_all_received in Ew as (Hw & k & Hk & Hall); [|lia].
    destruct e1; intros [= <- <- <-].
    + split_and!; [done..|]. right. split_and!; [done..|]. exists k. by rewrite Ei.
    + rewrite Ei, Es, app_nil_r. rewrite (Hall eq_refl) in Hk. by split_and!.
  - destruct (String.eqb_spec ty WebSSHMessageResize) as [->|Hr]; [|intros [= <- <- <-]; cbn; auto].
    destruct (decode_resize (fr_body f)) as [m|] eqn:Ed; [|intros [= <- <- <-]; cbn; auto].
    assert (frame_input f = "") as Ei by (unfold frame_input; by rewrite Eh).
    assert (frame_sizes f = [wz_Size m]) as Es by (unfold frame_sizes; by rewrite Eh, Ed).
    destruct (validTerminalSize (wz_Size m)) eqn:Ev; [|intros [= <- <- <-]; cbn; auto]. cbn [negb].
    destruct (Resize (wz_Size m) p) as [p1 failed] eqn:Er. apply Resize_received in Er as [Hrec Hwin].
    destruct failed; intros [= <- <- <-]; [cbn; auto|]. rewrite Ei, Es, append_nil. split_and!; [split; [done|right; eauto]|done..].
Qed.

Lemma read_frames_delivers (p : P) limiter frames p' ev :
  read_frames cfg p limiter frames = (p', ev) →
  ∃ n rest, received p' = received p +:+ typed (take n frames) +:+ rest ∧
    window p' = window p ++ resized (take n frames) ∧ Forall acceptable (take n frames) ∧
    ((frames = take n frames ∧ ev = client_closed ∧ rest = "") ∨
     ∃ f, frames !! n = Some f ∧ code ev ≠ "client_closed" ∧
       (rest = "" ∨ code ev = "ssh_input_failed" ∧ acceptable f ∧ ∃ k, rest = take_str k (frame_input f))).
Proof.
  revert p limiter. induction frames as [|f frames IH]; intros p limiter.
  { intros [= <- <-]. exists 0%nat, "". cbn. rewrite !append_nil, app_nil_r. split_and!; [done..|constructor|by left]. }
  cbn [read_frames]. destruct (handle_frame cfg p limiter f) as [[p1 l1] [e|]] eqn:Ef; apply handle_frame_delivers in Ef.
  - intros [= <- <-]. destruct Ef as (Hc & Hw & Hr). destruct Hr as [Hr|(Hs & Ha & k & Hr)].
    + exists 0%nat, "". cbn. rewrite !append_nil, app_nil_r. split_and!; [done..|constructor|right; eauto].
    + exists 0%nat, (take_str k (frame_input f)). cbn. rewrite app_nil_r. split_and!; [done..|constructor|].
      right. exists f. split_and!; [done..|]. right. eauto.
  - destruct Ef as (Ha & Hr & Hw). intros (n & rest & Hr' & Hw' & Hacc & Hend)%IH.
    exists (S n), rest. cbn. rewrite Hr', Hw', Hr, Hw, !append_assoc, <-app_assoc.
    split_and!; [done..|by constructor|]. destruct Hend as [(E & -> & ->)|Hend]; [left|by right].
    split_and!; [by f_equal|done..].
Qed.
End typed.

(** ** What the shell printed *)

(** The output up to the first error. *)
Fixpoint printed (reads : list output_read) : string :=
  match reads with
  | [] => ""
  | r :: rest => rd_data r +:+ match rd_err r with Some _ => "" | None => printed rest end
  end.

Definition shown (messages : list WebSSHOutputMessage) : string := foldr (λ m s, wo_Data m +:+ s) "" messages.

(** The client is shown a first part of the output, and all of it unless the
    rate limit or the client's connection ends the session. *)
Lemma write_reads_shows limiter reads messages ev max :
  write_reads limiter reads = (messages, ev) → Forall (λ r, slen (rd_data r) ≤ max) reads →
  Forall (λ m, wo_Type m = WebSSHMessageOutput ∧ 0 < slen (wo_Data m) ≤ max) messages ∧
  ∃ rest, printed reads = shown messages +:+ rest ∧
    (rest = "" ∨ ∃ e, ev = Some e ∧ (code e = "output_rate_limit" ∨ e = client_closed)).
Proof.
  revert limiter messages ev. induction reads as [|r reads IH]; intros limiter messages ev Hw Hmax; cbn in *.
  { simplify_eq. split; [constructor|]. exists "". auto. }
  apply Forall_cons in Hmax as [Hr Hmax].
  set (k := λ limiter, match rd_err r with
    | Some EOF => ([], Some (mkEvent "output_closed" "" false))
    | Some ReadFailed => ([], Some (mkEvent "ssh_output_failed" "could not read SSH output" true))
    | None => write_reads limiter reads end) in *.
  assert (∀ limiter messages ev, k limiter = (messages, ev) →
    Forall (λ m, wo_Type m = WebSSHMessageOutput ∧ 0 < slen (wo_Data m) ≤ max) messages ∧
    ∃ rest, match rd_err r with Some _ => "" | None => printed reads end = shown messages +:+ rest ∧
      (rest = "" ∨ ∃ e, ev = Some e ∧ (code e = "output_rate_limit" ∨ e = client_closed))) as Hk.
  { intros lim ms e. unfold k. destruct (rd_err r) as [[]|]; [intros [= <- <-]..|intros Hms; by eapply IH];
      (split; [constructor|exists ""; auto]). }
  destruct (Z.ltb_spec 0 (slen (rd_data r))) as [Hd|Hd].
  2:{ assert (rd_data r = "") as -> by (destruct (rd_data r); [done|unfold slen in Hd; cbn in Hd; lia]). rewrite append_Empty. exact (Hk limiter messages ev Hw). }
  destruct (Allow _ _ _) as [l1 allowed]. destruct allowed; cbn in Hw.
  2:{ simplify_eq. split; [constructor|]. exists (rd_data r +:+ match rd_err r with Some _ => "" | None => printed reads end). split; [done|right; eauto]. }
  destruct (rd_sent r); cbn in Hw.
  2:{ simplify_eq. split; [constructor|]. exists (rd_data r +:+ match rd_err r with Some _ => "" | None => printed reads end). split; [done|right; eauto]. }
  change ((let '(ms, e) := k l1 in (mkOutput WebSSHMessageOutput (rd_data r) :: ms, e)) = (messages, ev)) in Hw.
  destruct (k l1) as [ms e] eqn:Ek. apply Hk in Ek as (Hms & rest & Hp & He). simplify_eq.
  split; [constructor; [done|done]|]. exists rest. cbn. by rewrite Hp, append_assoc.
Qed.

(** * Properties *)

(** whatever frames the client sends, the remote shell receives exactly the
    input of a first part of them, in order and without gaps, and exactly their window
    sizes, each within the limits.  The session ends when the client closes the connection,
    with everything delivered, or at a frame that is at fault; only of an input that the
    SSH library failed to write may a first part have arrived. *)
Theorem terminal_input `{Decoders} {P} `{ShellLaws P} cfg (p : P) start frames p' ev :
  readClient cfg p start frames = (p', ev) →
  ∃ n rest, received p' = received p +:+ typed (take n frames) +:+ rest ∧
    window p' = window p ++ resized (take n frames) ∧ Forall (acceptable cfg) (take n frames) ∧
    ((frames = take n frames ∧ ev = client_closed ∧ rest = "") ∨
     ∃ f, frames !! n = Some f ∧ code ev ≠ "client_closed" ∧
       (rest = "" ∨ code ev = "ssh_input_failed" ∧ acceptable cfg f ∧ ∃ k, rest = take_str k (frame_input f))).
Proof. apply read_frames_delivers. Qed.

(** whatever the remote shell prints, the client is shown a first part of
    it, in order and without gaps, in messages within the size limit; all of it, unless the
    rate limit was exceeded or the client's connection failed. *)
Theorem terminal_output cfg start reads messages ev :
  writeOutput cfg start reads = (messages, ev) →
  Forall (λ r, slen (rd_data r) ≤ maxOutputMessageBytes cfg) reads →
  Forall (λ m, wo_Type m = WebSSHMessageOutput ∧ 0 < slen (wo_Data m) ≤ maxOutputMessageBytes cfg) messages ∧
  ∃ rest, printed reads = shown messages +:+ rest ∧
    (rest = "" ∨ ∃ e, ev = Some e ∧ (code e = "output_rate_limit" ∨ e = client_closed)).
Proof. apply write_reads_shows. Qed.

(** ** Sample data *)

Module Samples.
(** A shell that takes two bytes at a time. *)
Record slow_shell := mkSlow { got : string; sizes : list TerminalSize }.
#[global] Instance slow : Shell slow_shell := {|
  WriteInput v p := (mkSlow (got p +:+ take_str 2 v) (sizes p), (Z.of_nat (String.length (take_str 2 v)), false));
  Resize size p := (mkSlow (got p) (sizes p ++ [size]), false);
|}.
#[global] Instance slow_laws : ShellLaws slow_shell.
Proof.
  refine {| received := got; window := sizes |}.
  - intros v p n failed p' [= <- <- <-]. cbn. rewrite Nat2Z.id. split; [|done]. f_equal.
    destruct v as [|a [|b v]]; [done..|]. reflexivity.
  - intros size p failed p' [= <- <-]. done.
Defined.

(** Messages written as a letter and the text. *)
#[global] Instance letters : Decoders := {|
  header_type s := match s with String "i" _ => Some "input" | String "r" _ => Some "resize" | _ => None end;
  decode_input s := match s with String "i" v => Some (mkInput "input" v) | _ => None end;
  decode_resize s := match s with String "r" _ => Some (mkResize "resize" (mkTerminalSize 80 24 0 0)) | _ => None end;
|}.

Definition limits : settings :=
  mkSettings true {["https://console.test"]} (30 * second) (5 * second) (10 * minute) hour 2 8 16 16 65536 262144 false
    (10 * second) 1 2.
Definition frames : list frame := [mkFrame true "iuname" 0; mkFrame true "r" 5; mkFrame true "i -a" 9; mkFrame false "" 11].
Definition reads : list output_read := [mkRead "Linux" None 1 true; mkRead " vps" (Some EOF) 2 true].
End Samples.

Lemma terminal_input_witness :
  ∃ n rest, "uname -a" = typed (take n Samples.frames) +:+ rest ∧
    [mkTerminalSize 80 24 0 0] = resized (take n Samples.frames).
Proof.
  destruct (terminal_input Samples.limits (Samples.mkSlow "" []) 0 Samples.frames
    (Samples.mkSlow "uname -a" [mkTerminalSize 80 24 0 0])
    (mkEvent "invalid_message" "web SSH messages must be JSON text" false)) as (n & rest & Hrec & Hwin & _).
  - vm_compute. reflexivity.
  - exists n, rest. split; [exact Hrec|exact Hwin].
Defined.

Lemma terminal_output_witness :
  ∃ rest, "Linux vps" = shown [mkOutput "output" "Linux"; mkOutput "output" " vps"] +:+ rest.
Proof.
  destruct (terminal_output Samples.limits 0 Samples.reads [mkOutput "output" "Linux"; mkOutput "output" " vps"]
    (Some (mkEvent "output_closed" "" false))) as [_ (rest & Hp & _)].
  - vm_compute. reflexivity.
  - repeat constructor; vm_compute; discriminate.
  - exists rest. exact Hp.
Defined.
