(* ===== verification/Anomaly.v ===== *)
(** * The process anomaly scanner

    Models [services/control-plane/internal/anomaly/scanner.go]: parsing the
    process inventory a managed host returned, and the four rules that turn
    processes into findings.  [strconv.ParseFloat] is a parameter; comparisons
    are those of IEEE 754 doubles. *)

From S2P Require Import Prelude GoStrings Encoding Json Text Protocol Model Snapshot.

Definition maxProcesses : Z := 4096.

Record Process := mkProcess {
  p_PID : Z;
  p_ParentPID : Z;
  p_User : string;
  p_CPUPercent : float64;
  p_ElapsedSeconds : Z;
  p_Name : string;
}.

(** Doubles of the source: the nearest double of an integer or a quotient. *)
Definition double (n : Z) : float64 := binary_normalize 53 1024 n 0 false.
Definition ratio (n d : Z) : float64 := SFdiv 53 1024 (double n) (double d).

(** [cpu < 0 || cpu > 10000 || math.IsNaN(cpu) || math.IsInf(cpu, 0)]. *)
Definition bad_cpu (cpu : float64) : bool :=
  SFltb cpu zero || SFltb (double 10000) cpu || match cpu with S754_nan | S754_infinity _ => true | _ => false end.

Definition safeToken (value : string) (limit : Z) : string :=
  let value := ToValidUTF8 value in
  let value := map_runes (λ r, if is_control r then 32 else r) value in
  let value := join " " (Fields value) in
  cut_runes (String.length value) limit value.

Section inventory.
Context (ParseFloat : string → option float64).

(** One line of the inventory; [None] skips it. *)
Definition parse_process (line : string) : option Process :=
  match Fields line with
  | pid :: ppid :: user :: cpu :: elapsed :: name =>
    match name with
    | [] => None
    | _ =>
      match parse_int pid, parse_int ppid, ParseFloat cpu, parse_uint 64 elapsed with
      | Some pid, Some ppid, Some cpu, Some elapsed =>
        if (pid <? 1)%Z || (ppid <? 0)%Z || bad_cpu cpu then None
        else Some (mkProcess pid ppid (safeToken user 64) cpu elapsed (safeToken (join " " name) 128))
      | _, _, _, _ => None
      end
    end
  | _ => None
  end.

(** The loop over the scanned lines. *)
Fixpoint parse_lines (lines : list string) (processes : list Process) : result string (list Process) :=
  match lines with
  | [] => Ok processes
  | line :: lines =>
    if (maxProcesses <=? Z.of_nat (length processes))%Z then Err "process inventory exceeds entry limit"
    else parse_lines lines (processes ++ option_list (parse_process line))
  end.

Definition ParseProcessInventory (output : string) : result string (list Process) :=
  if (262144 <? slen output)%Z then Err "process inventory exceeds size limit"
  else
    let '(lines, err) := scan_lines 4096 output in
    match parse_lines lines [] with
    | Err e => Err e
    | Ok processes => if err : bool then Err "process inventory is invalid or truncated" else Ok processes
    end.
End inventory.

Definition knownMiner (name : string) : bool :=
  bool_decide (name ∈ ["xmrig"; "minerd"; "kinsing"; "watchbog"; "cryptonight"]).

Definition finding (p : Process) (ruleID title severity : string) (confidence : float64) (evidence : FindingEvidence)
    (falsePositive : string) : ProcessFinding :=
  mkProcessFinding (ruleID +:+ ":" +:+ itoa (p_PID p)) ruleID title severity confidence evidence falsePositive.

(** [strings.ToLower(strings.TrimSpace(name))]. *)
Definition lower_name (name : string) : string := encode_all (to_lower (trim_space name)).

(** The body of the loop of [Scan]. *)
Definition scan_process (findings : list ProcessFinding) (p : Process) : list ProcessFinding :=
  let name := lower_name (p_Name p) in
  let evidence := mkFindingEvidence (p_PID p) (p_ParentPID p) (p_User p) (p_Name p) (p_CPUPercent p) (p_ElapsedSeconds p) in
  let findings :=
    if knownMiner name then
      findings ++ [finding p "known_miner_name" "进程名命中已知挖矿程序特征" "critical" (ratio 97 100) evidence
        "管理员可能为压测、研究或合规计算主动运行同名程序；处置前应核对软件来源、父进程和变更记录。"]
    else findings in
  let findings :=
    if SFleb (double 90) (p_CPUPercent p) && (120 <=? p_ElapsedSeconds p)%Z then
      findings ++ [finding p "sustained_high_cpu" "进程持续占用高 CPU" "high" (ratio 82 100) evidence
        "编译、压缩、数据库维护和业务峰值可能产生相同行为；建议结合历史基线与业务窗口复核。"]
    else findings in
  let findings :=
    if has_prefix "." name && (name ≠? ".") && (name ≠? "..") then
      findings ++ [finding p "hidden_process_name" "进程名称采用隐藏文件样式" "medium" (ratio 68 100) evidence
        "某些合法守护程序或运维脚本也会使用点号开头的名称；需检查软件包归属和启动方式。"]
    else findings in
  if has_prefix "kworker" name && (p_User p ≠? "root") then
    findings ++ [finding p "kernel_worker_impersonation" "非 root 进程疑似伪装为内核工作线程" "high" (ratio 9 10) evidence
      "容器用户映射或测试夹具可能造成非典型属主；应从宿主机命名空间复核。"]
  else findings.

Definition Scan (processes : list Process) (observedAt : time) : AnomalyScanResult :=
  mkAnomalyScanResult observedAt "rules_v1" false (Z.of_nat (length processes)) (fold_left scan_process processes []) None.

(** ** Lemmas *)

(** A token is well-formed text without control characters, within its limit. *)
Lemma safeToken_clean v limit : 0 ≤ limit → clean (safeToken v limit) ∧ slen (safeToken v limit) ≤ limit.
Proof.
  intros Hlim. unfold safeToken. pose proof (valid_runes_scalar 0 false v) as Hv.
  unfold ToValidUTF8, map_runes. change (valid_runes_from 0 false v) with (valid_runes v) in Hv. rewrite runes_encode_all by done.
  pose proof (replace_control_scalar (λ _, false) _ Hv) as [H1 H2].
  erewrite map_ext in H1 by (intros r; rewrite andb_true_r; reflexivity).
  erewrite map_ext in H2 by (intros r; rewrite andb_true_r; reflexivity).
  destruct (fields_join_encode (λ r, is_control r = false) _ eq_refl H1) as (k & -> & Hk & Hc).
  { eapply Forall_impl; [exact H2|]. intros r [?|?]; done. }
  destruct (cut_runes_prefix limit k (String.length (encode_all k)) Hk Hlim) as (n & _ & -> & Hn & _); [by apply length_encode_all|].
  split; [|done]. apply clean_encode; by apply Forall_take.
Qed.

(** What the inventory keeps of a process. *)
Record process_ok (p : Process) : Prop := {
  po_PID : 1 ≤ p_PID p < 2 ^ 63;
  po_ParentPID : 0 ≤ p_ParentPID p < 2 ^ 63;
  po_Elapsed : 0 ≤ p_ElapsedSeconds p < 2 ^ 64;
  po_CPU : bad_cpu (p_CPUPercent p) = false;
  po_User : clean (p_User p) ∧ slen (p_User p) ≤ 64;
  po_Name : clean (p_Name p) ∧ slen (p_Name p) ≤ 128;
}.

Lemma parse_int_range s n : parse_int s = Some n → n < 2 ^ 63.
Proof.
  assert (∀ t m, (x ← parse_uint 64 t; if (x <? 2 ^ 63)%Z then Some x else None) = Some m → m < 2 ^ 63) as Hpos.
  { intros t m. destruct (parse_uint 64 t) as [x|]; cbn; [|done]. destruct (Z.ltb_spec x (2 ^ 63)); [|done]. by intros [= <-]. }
  assert (∀ t m, (x ← parse_uint 64 t; if (x <=? 2 ^ 63)%Z then Some (- x) else None) = Some m → m < 2 ^ 63) as Hneg.
  { intros t m. destruct (parse_uint 64 t) as [x|] eqn:E; cbn; [|done]. apply parse_uint_range in E.
    destruct (x <=? _)%Z; [|done]. intros [= <-]. change (2 ^ 63) with 9223372036854775808. lia. }
  unfold parse_int. intros Hn. repeat case_match; eauto.
Qed.

Lemma parse_process_ok pf line p : parse_process pf line = Some p → process_ok p.
Proof.
  unfold parse_process. destruct (Fields line) as [|pid [|ppid [|user [|cpu [|elapsed [|name names]]]]]]; try done.
  destruct (parse_int pid) as [a|] eqn:Ea; [|done]. destruct (parse_int ppid) as [b|] eqn:Eb; [|done].
  destruct (pf cpu) as [c|]; [|done]. destruct (parse_uint 64 elapsed) as [d|] eqn:Ed; [|done].
  destruct ((a <? 1)%Z || (b <? 0)%Z || bad_cpu c) eqn:Eg; [done|]. intros [= <-].
  apply orb_false_iff in Eg as [[E1%Z.ltb_ge E2%Z.ltb_ge]%orb_false_iff E3].
  apply parse_int_range in Ea, Eb. apply parse_uint_range in Ed. split; cbn; try done; by apply safeToken_clean.
Qed.

Lemma parse_lines_ok pf lines ps qs : Forall process_ok ps → Z.of_nat (length ps) ≤ maxProcesses →
  parse_lines pf lines ps = Ok qs → Forall process_ok qs ∧ Z.of_nat (length qs) ≤ maxProcesses.
Proof.
  revert ps. induction lines as [|line lines IH]; intros ps Hps Hl; cbn [parse_lines]; [by intros [= <-]|].
  destruct (Z.leb_spec maxProcesses (Z.of_nat (length ps))); [done|]. apply IH.
  - apply Forall_app. split; [done|]. destruct (parse_process pf line) as [p|] eqn:E; [|constructor]. constructor; [by eapply parse_process_ok|constructor].
  - rewrite length_app. assert (length (option_list (parse_process pf line)) ≤ 1)%nat by (destruct (parse_process pf line); cbn; lia). lia.
Qed.

(** ** The rules *)

(** The rules of the scanner, in the order they are applied. *)
Definition rules : list (string * (Process → bool)) :=
  [("known_miner_name", λ p, knownMiner (lower_name (p_Name p)));
   ("sustained_high_cpu", λ p, SFleb (double 90) (p_CPUPercent p) && (120 <=? p_ElapsedSeconds p)%Z);
   ("hidden_process_name", λ p, has_prefix "." (lower_name (p_Name p)) && (lower_name (p_Name p) ≠? ".") && (lower_name (p_Name p) ≠? ".."));
   ("kernel_worker_impersonation", λ p, has_prefix "kworker" (lower_name (p_Name p)) && (p_User p ≠? "root"))].

(** The rules that fire, process by process. *)
Definition fired (ps : list Process) : list (string * Process) :=
  flat_map (λ p, map (λ r, (r.1, p)) (List.filter (λ r, r.2 p) rules)) ps.

(** What a finding is about. *)
Definition reports (f : ProcessFinding) (x : string * Process) : Prop :=
  pf_RuleID f = x.1 ∧ pf_ID f = x.1 +:+ ":" +:+ itoa (p_PID x.2) ∧
  pf_Evidence f = mkFindingEvidence (p_PID x.2) (p_ParentPID x.2) (p_User x.2) (p_Name x.2) (p_CPUPercent x.2) (p_ElapsedSeconds x.2).

Lemma scan_process_app l p : ∃ k, scan_process l p = l ++ k ∧ Forall2 reports k (fired [p]).
Proof.
  unfold scan_process, fired, rules. cbn [flat_map map List.filter snd fst]. rewrite app_nil_r.
  generalize (ratio 97 100), (ratio 82 100), (ratio 68 100), (ratio 9 10). intros c1 c2 c3 c4.
  repeat case_match; rewrite <-?app_assoc; eexists; (split; [first [reflexivity | symmetry; apply app_nil_r]|]);
    cbn [app map]; repeat constructor.
Qed.

Lemma scan_fold l ps : ∃ k, fold_left scan_process ps l = l ++ k ∧ Forall2 reports k (fired ps).
Proof.
  revert l. induction ps as [|p ps IH]; intros l; [exists []; by rewrite app_nil_r|]. cbn [fold_left].
  destruct (scan_process_app l p) as (k1 & -> & H1). destruct (IH (l ++ k1)) as (k2 & -> & H2).
  exists (k1 ++ k2). rewrite <-app_assoc. split; [done|]. unfold fired in *. cbn [flat_map] in *. rewrite app_nil_r in H1. by apply Forall2_app.
Qed.

Lemma NoDup_map_filter {A B} (g : A → B) (f : A → bool) l : NoDup (map g l) → NoDup (map g (List.filter f l)).
Proof.
  induction l as [|x l IH]; [done|]. cbn [map List.filter]. intros [Hx Hl]%NoDup_cons. destruct (f x); [|by apply IH].
  cbn [map]. apply NoDup_cons. split; [|by apply IH]. intros Hin. apply Hx.
  apply list_elem_of_In, in_map_iff in Hin as (y & <- & [Hy _]%filter_In). by apply list_elem_of_In, in_map.
Qed.

Lemma rules_nodup n : NoDup (map (λ r : string * (Process → bool), (r.1, n : Z)) rules).
Proof. apply NoDup_ListNoDup. cbn. repeat (constructor; [cbn; intros ?; naive_solver|]). constructor. Qed.

(** Distinct processes have distinct findings. *)
Lemma fired_nodup ps : NoDup (map p_PID ps) → NoDup (map (λ x, (x.1, p_PID x.2)) (fired ps)).
Proof.
  unfold fired. induction ps as [|p ps IH]; [constructor|]. cbn [map flat_map]. intros [Hp Hps]%NoDup_cons. rewrite map_app.
  apply NoDup_app. split_and!; [| |by apply IH].
  - rewrite map_map. cbn [fst snd]. apply (NoDup_map_filter (λ r, (r.1, p_PID p))), rules_nodup.
  - intros x Hx Hin. rewrite map_map in Hx. apply list_elem_of_In, in_map_iff in Hx as (r & <- & _). cbn in Hin.
    apply list_elem_of_In, in_map_iff in Hin as ([r' q] & [= _ Hq] & Hin). apply in_flat_map in Hin as (q' & Hq' & Hin).
    apply in_map_iff in Hin as (r2 & [= _ <-] & _). apply Hp. rewrite <-Hq. apply list_elem_of_In, in_map, Hq'.
Qed.

(** The identifier of a finding determines its rule and its process. *)
Lemma reports_ids k xs : Forall2 reports k xs → map pf_ID k = map (λ x, x.1 +:+ ":" +:+ itoa (p_PID x.2)) xs.
Proof. induction 1 as [|f x k xs (_ & Hid & _) _ IH]; [done|]. cbn [map]. by rewrite Hid, IH. Qed.

Lemma fired_rule ps x : x ∈ fired ps → x.1 ∈ map fst rules.
Proof.
  unfold fired. rewrite list_elem_of_In, in_flat_map. intros (p & _ & Hin). apply in_map_iff in Hin as (r & <- & Hr).
  apply filter_In in Hr as [Hr _]. apply list_elem_of_In. cbn [fst]. by apply (in_map fst rules r).
Qed.

Lemma rule_no_colon r : r ∈ map fst rules → contains_char ":" r = false.
Proof. cbn. intros Hr. repeat (apply elem_of_cons in Hr as [->|Hr]; [done|]). by apply elem_of_nil in Hr. Qed.

Lemma NoDup_fmap_ids ps : NoDup (map (λ x, (x.1, p_PID x.2)) (fired ps)) →
  NoDup (map (λ x, x.1 +:+ ":" +:+ itoa (p_PID x.2)) (fired ps)).
Proof.
  pose proof (fired_rule ps) as Hr. revert Hr. induction (fired ps) as [|x l IH]; intros Hr; [constructor|]. cbn [map].
  intros [Hx Hl]%NoDup_cons. apply NoDup_cons. split; [|apply IH; [intros y Hy; apply Hr; by right|done]].
  intros (y & E & Hy)%list_elem_of_In%in_map_iff. apply Hx. apply append_sep_inj in E as [E1 E2%itoa_inj].
  - apply list_elem_of_In, in_map_iff. exists y. by rewrite E1, E2.
  - apply rule_no_colon, Hr. right. by apply list_elem_of_In.
  - apply rule_no_colon, Hr. by left.
Qed.

(** * Properties *)

(** whatever a host answers, an accepted inventory has at most 4096 processes,
    each with identifiers and times in range, a finite CPU share between 0 and
    10000, and a user and a name that are well-formed UTF-8 without control
    characters, of at most 64 and 128 bytes. *)
Theorem inventory_safe ParseFloat output ps :
  ParseProcessInventory ParseFloat output = Ok ps → Forall process_ok ps ∧ Z.of_nat (length ps) ≤ maxProcesses.
Proof.
  unfold ParseProcessInventory. destruct (262144 <? _)%Z; [done|]. destruct (scan_lines 4096 output) as [lines err].
  destruct (parse_lines ParseFloat lines []) as [qs|] eqn:E; [|done]. destruct err; [done|]. intros [= <-].
  eapply parse_lines_ok in E; [done|constructor|done].
Qed.

Definition demo_inventory : string := "7 1 mallory 99.5 600 xmrig" +:+ String newline "x 1 root 0.1 5 init".
Definition demo_parse (s : string) : option float64 := if s =? "99.5" then Some (ratio 199 2) else Some zero.
Definition demo_process : Process := mkProcess 7 1 "mallory" (ratio 199 2) 600 "xmrig".
Lemma inventory_safe_witness : process_ok demo_process.
Proof.
  refine (proj1 (proj1 (Forall_cons _ _ _) (proj1 (inventory_safe demo_parse demo_inventory [demo_process] _)))).
  vm_compute. reflexivity.
Defined.

(** the findings of a scan are, in order, exactly the rules that fire, process by
    process, each with the evidence of its process, and when the process
    identifiers are distinct no two findings share an identifier. *)
Theorem scan_reports_rules ps observedAt :
  Forall2 reports (as_Findings (Scan ps observedAt)) (fired ps) ∧
  (NoDup (map p_PID ps) → NoDup (map pf_ID (as_Findings (Scan ps observedAt)))).
Proof.
  destruct (scan_fold [] ps) as (k & Hk & Hf). cbn [app] in Hk. unfold Scan. cbn [as_Findings]. rewrite Hk. split; [done|].
  intros Hnd. apply fired_nodup in Hnd. rewrite (reports_ids k (fired ps) Hf). by apply NoDup_fmap_ids.
Qed.

Lemma scan_reports_rules_witness :
  NoDup (map pf_ID (as_Findings (Scan [demo_process; mkProcess 8 1 "bob" zero 1 ".hidden"] 5))).
Proof. apply (scan_reports_rules [demo_process; mkProcess 8 1 "bob" zero 1 ".hidden"] 5). repeat constructor; set_solver. Defined.
