(* ===== verification/Analysis.v ===== *)
(** * AI analysis of anomaly findings

    Models [services/ai]: the validation of findings and of the gateway's
    answer ([validation.go]), the local rule ordering ([fallback.go]) and
    [Analyze] ([analyzer.go]).  The regular expressions are written out as
    matchers on runes.  The gateway, the token file, JSON encoding and decoding
    and the Unicode category C are parameters. *)

From S2P Require Import Prelude GoStrings Encoding Json Text Protocol Model Snapshot Anomaly.

Definition SchemaVersion := "vpsmanager.ai-analysis.v1".
Definition MaxFindings : Z := 128.

Definition ModeGateway := "gateway".
Definition ModeRulesFallback := "rules_fallback".

Definition FallbackNone := "".
Definition FallbackGatewayDisabled := "gateway_disabled".
Definition FallbackCredentialUnavailable := "credential_unavailable".
Definition FallbackTimeout := "timeout".
Definition FallbackRedirectBlocked := "redirect_blocked".
Definition FallbackTransportError := "transport_error".
Definition FallbackHTTPError := "http_error".
Definition FallbackResponseTooLarge := "response_too_large".
Definition FallbackInvalidResponse := "invalid_response".

(** ** The patterns *)

(** [^[A-Za-z0-9][A-Za-z0-9._:-]{0,127}$]. *)
Definition identifierPattern (s : string) : bool :=
  match s with
  | EmptyString => false
  | String a rest =>
    char_in is_alnum_rune a && (slen rest <=? 127)%Z &&
    all_chars (λ b, is_alnum_rune b || (b =? 46)%Z || (b =? 95)%Z || (b =? 58)%Z || (b =? 45)%Z) rest
  end.

(** Case-insensitive matching folds the long s and the Kelvin sign too. *)
Definition folds (c r : Z) : bool :=
  (r =? c)%Z || (is_lower_rune c && (r =? c - 32)%Z) || (is_upper_rune c && (r =? c + 32)%Z) ||
  (((c =? 115)%Z || (c =? 83)%Z) && (r =? 383)%Z) || (((c =? 107)%Z || (c =? 75)%Z) && (r =? 8490)%Z).

Fixpoint literal_ci (word : list Z) (l : list Z) : option (list Z) :=
  match word, l with
  | [], _ => Some l
  | c :: word, r :: l => if folds c r then literal_ci word l else None
  | _, [] => None
  end.
Definition word_ci (w : string) (l : list Z) : option (list Z) := literal_ci (runes w) l.

(** [\s], [\b] and the classes [[A-Z0-9 ]] and [[0-9A-Z]]. *)
Definition re_space (r : Z) : bool := (r =? 9)%Z || (r =? 10)%Z || (r =? 12)%Z || (r =? 13)%Z || (r =? 32)%Z.
Definition re_word (r : Z) : bool := is_alnum_rune r || (r =? 95)%Z.
Definition boundary (prev : option Z) (l : list Z) : bool :=
  xorb (from_option re_word false prev) (from_option re_word false (head l)).
Definition key_class (r : Z) : bool := is_alnum_rune r || (r =? 383)%Z || (r =? 8490)%Z.
Definition begin_class (r : Z) : bool := key_class r || (r =? 32)%Z.

(** A class repeated any number of times, then [k]. *)
Fixpoint star_then (cls : Z → bool) (k : list Z → bool) (l : list Z) : bool :=
  k l || match l with [] => false | r :: l => cls r && star_then cls k l end.
(** A class repeated [n] times, then [k] with the rune before. *)
Fixpoint times_then (n : nat) (cls : Z → bool) (prev : option Z) (k : option Z → list Z → bool) (l : list Z) : bool :=
  match n with
  | O => k prev l
  | S n => match l with [] => false | r :: l => cls r && times_then n cls (Some r) k l end
  end.
Fixpoint drop_space (l : list Z) : list Z :=
  match l with [] => [] | r :: l' => if re_space r then drop_space l' else l end.

(** [-----BEGIN [A-Z0-9 ]*PRIVATE KEY-----]. *)
Definition secret_pem (l : list Z) : bool :=
  match word_ci "-----BEGIN " l with
  | None => false
  | Some l => star_then begin_class (λ l, match word_ci "PRIVATE KEY-----" l with Some _ => true | None => false end) l
  end.
(** [\bAKIA[0-9A-Z]{16}\b]. *)
Definition secret_akia (prev : option Z) (l : list Z) : bool :=
  boundary prev l &&
  match word_ci "AKIA" l with None => false | Some l => times_then 16 key_class None boundary l end.
(** [(?:password|passwd|api[_-]?key|secret|token|authorization)\s*[:=]\s*\S+]. *)
Definition secret_words : list string :=
  ["password"; "passwd"; "apikey"; "api_key"; "api-key"; "secret"; "token"; "authorization"].
Definition secret_assignment (l : list Z) : bool :=
  existsb (λ w, match word_ci w l with
                | None => false
                | Some l => match drop_space l with
                            | r :: l => ((r =? 58)%Z || (r =? 61)%Z) && negb (bool_decide (drop_space l = []))
                            | [] => false
                            end
                end) secret_words.

Fixpoint secret_from (prev : option Z) (l : list Z) : bool :=
  secret_pem l || secret_akia prev l || secret_assignment l || match l with [] => false | r :: l => secret_from (Some r) l end.
Definition secretPattern (s : string) : bool := secret_from None (runes s).

(** [(?:^|\s)(?:sudo|...)\s+]. *)
Definition command_words : list string :=
  ["sudo"; "bash"; "sh"; "zsh"; "powershell"; "cmd.exe"; "rm"; "kill"; "pkill"; "systemctl"; "curl"; "wget"; "chmod"; "chown"].
Definition command_here (l : list Z) : bool :=
  existsb (λ w, match word_ci w l with Some (r :: _) => re_space r | _ => false end) command_words.
Fixpoint command_from (start : bool) (l : list Z) : bool :=
  (start && command_here l) || match l with [] => false | r :: l => command_from (re_space r) l end.
Definition commandPattern (s : string) : bool := command_from true (runes s).

Section validation.
(** [unicode.Is(unicode.C, r)]. *)
Context (is_C : Z → bool).

Definition validateText (value : string) (minimum maximum : Z) (rejectSecrets : bool) : result string unit :=
  let length := Z.of_nat (length (runes value)) in
  require utf8_valid value else "invalid utf-8" ;;
  require negb ((length <? minimum)%Z || (maximum <? length)%Z || (maximum * 4 <? slen value)%Z)
    else "text length outside bounds" ;;
  require all_runes (λ r, negb (is_C r)) value else "control or format character is forbidden" ;;
  require negb (rejectSecrets && secretPattern value) else "probable secret is forbidden" ;;
  Ok tt.

Definition validateOptionalText (value : string) (limit : Z) : result string unit :=
  if value =? "" then Ok tt else validateText value 1 limit true.

Definition validateOutputText (value : string) (minimum maximum : Z) : result string unit :=
  _ ← validateText value minimum maximum true;
  require negb (contains_any "`|;<>" value || contains "&&" value || contains "||" value || contains "$(" value || commandPattern value)
    else "execution syntax is forbidden" ;;
  Ok tt.

Definition validSeverity (value : string) : bool := bool_decide (value ∈ ["critical"; "high"; "medium"; "low"]).
Definition validPriority (value : string) : bool := bool_decide (value ∈ ["urgent"; "high"; "normal"; "low"]).

(** [math.IsNaN(x) || math.IsInf(x, 0) || x < 0 || x > max]. *)
Definition outside (max x : float64) : bool :=
  match x with S754_nan | S754_infinity _ => true | _ => false end || SFltb x zero || SFltb max x.

Definition valid_finding (seen : gset string) (f : ProcessFinding) : bool :=
  let e := pf_Evidence f in
  identifierPattern (pf_ID f) && identifierPattern (pf_RuleID f) &&
  is_ok (validateText (pf_Title f) 1 256 true) && is_ok (validateText (pf_FalsePositiveNote f) 1 1024 true) &&
  negb (bool_decide (pf_ID f ∈ seen)) &&
  validSeverity (pf_Severity f) && negb (outside (double 1) (pf_Confidence f)) &&
  negb ((fe_PID e <? 0)%Z || (fe_ParentPID e <? 0)%Z || outside (double 10000) (fe_CPUPercent e)) &&
  is_ok (validateOptionalText (fe_User e) 64) && is_ok (validateOptionalText (fe_ProcessName e) 128).

Fixpoint valid_findings (seen : gset string) (l : list ProcessFinding) : bool :=
  match l with
  | [] => true
  | f :: l => valid_finding seen f && valid_findings ({[pf_ID f]} ∪ seen) l
  end.

Definition validateFindings (findings : list ProcessFinding) : result string unit :=
  require negb (MaxFindings <? Z.of_nat (length findings))%Z else "invalid redacted findings" ;;
  require valid_findings ∅ findings else "invalid redacted findings" ;;
  Ok tt.

(** The loop over the ranked findings. *)
Fixpoint check_ranked (known : gset string) (n : Z) (ranks : gset Z) (rankedIDs : gset string) (l : list RankedFinding)
    : result string unit :=
  match l with
  | [] => Ok tt
  | item :: l =>
    require negb (negb (bool_decide (rf_FindingID item ∈ known)) || (Rank item <? 1)%Z || (n <? Rank item)%Z ||
                  negb (is_ok (validateOutputText (Rationale item) 1 600))) else "invalid ranked finding" ;;
    require negb (bool_decide (Rank item ∈ ranks)) else "duplicate rank" ;;
    require negb (bool_decide (rf_FindingID item ∈ rankedIDs)) else "duplicate ranked finding" ;;
    check_ranked known n ({[Rank item]} ∪ ranks) ({[rf_FindingID item]} ∪ rankedIDs) l
  end.

(** The loops over the verification steps and the recommendations. *)
Definition check_guidance {A} (known : gset string) (id : A → string) (valid : A → bool) (e : string) (l : list A)
    : result string (gset string) :=
  require forallb (λ x, bool_decide (id x ∈ known) && valid x) l else e ;;
  Ok (list_to_set (map id l)).

Definition validateAnalysis (value : Analysis) (findings : list ProcessFinding) : result string unit :=
  let n := Z.of_nat (length findings) in
  require negb ((an_SchemaVersion value ≠? SchemaVersion) || ExecutionAllowed value) else "invalid analysis contract" ;;
  require is_ok (validateOutputText (Summary value) 1 2000) else "invalid analysis summary" ;;
  require negb (negb (Z.of_nat (length (RankedFindings value)) =? n)%Z ||
                (Z.max 1 (n * 3) <? Z.of_nat (length (HumanVerificationSteps value)))%Z ||
                (Z.max 1 (n * 2) <? Z.of_nat (length (Recommendations value)))%Z) else "invalid analysis collection size" ;;
  let known : gset string := list_to_set (map pf_ID findings) in
  _ ← check_ranked known n ∅ ∅ (RankedFindings value);
  require negb ((0 <? n)%Z && (bool_decide (HumanVerificationSteps value = []) || bool_decide (Recommendations value = [])))
    else "missing human guidance" ;;
  verified ← check_guidance known hv_FindingID (λ x, is_ok (validateOutputText (hv_Description x) 1 600))
               "invalid verification step" (HumanVerificationSteps value);
  recommended ← check_guidance known rc_FindingID
                  (λ x, validPriority (Priority x) && is_ok (validateOutputText (Advice x) 1 600))
                  "invalid recommendation" (Recommendations value);
  require negb (negb (Z.of_nat (size verified) =? n)%Z || negb (Z.of_nat (size recommended) =? n)%Z)
    else "human guidance does not cover every finding" ;;
  Ok tt.
End validation.

(** ** The local rule ordering *)

Definition severityWeight (value : string) : Z :=
  if value =? "critical" then 4 else if value =? "high" then 3 else if value =? "medium" then 2
  else if value =? "low" then 1 else 0.

Definition priorityForSeverity (value : string) : string :=
  if value =? "critical" then "urgent" else if value =? "high" then "high" else if value =? "medium" then "normal" else "low".

(** The comparison of the sort: negative when [left] comes first. *)
Definition compare_findings (left right : ProcessFinding) : Z :=
  let difference := severityWeight (pf_Severity right) - severityWeight (pf_Severity left) in
  if negb (difference =? 0)%Z then difference
  else if SFltb (pf_Confidence right) (pf_Confidence left) then -1
  else if SFltb (pf_Confidence left) (pf_Confidence right) then 1
  else if String.ltb (pf_RuleID left) (pf_RuleID right) then -1
  else if String.ltb (pf_RuleID right) (pf_RuleID left) then 1
  else 0.

(** [slices.SortStableFunc]: an element goes before the first one that is not
    strictly smaller, so equal elements keep their order. *)
Fixpoint insert_stable (f : ProcessFinding) (l : list ProcessFinding) : list ProcessFinding :=
  match l with
  | [] => [f]
  | g :: l' => if (compare_findings g f <? 0)%Z then g :: insert_stable f l' else f :: l
  end.
Definition sort_stable (l : list ProcessFinding) : list ProcessFinding := foldr insert_stable [] l.

(** [%.2f]: the exact value rounded to hundredths, ties to even. *)
Definition round_half_even (num den : Z) : Z :=
  let q := num / den in
  match (2 * (num `mod` den) ?= den) with
  | Lt => q
  | Gt => q + 1
  | Eq => if Z.even q then q else q + 1
  end.
Definition hundredths (m e : Z) : Z :=
  if (0 <=? e)%Z then m * 2 ^ e * 100 else round_half_even (m * 100) (2 ^ (- e)).
Definition two_places (q : Z) : string :=
  itoa (q / 100) +:+ "." +:+ itoa (q / 10 `mod` 10) +:+ itoa (q `mod` 10).
Definition format2 (x : float64) : string :=
  match x with
  | S754_nan => "NaN"
  | S754_infinity s => if s then "-Inf" else "+Inf"
  | S754_zero s => (if s then "-" else "") +:+ two_places 0
  | S754_finite s m e => (if s then "-" else "") +:+ two_places (hundredths (Zpos m) e)
  end.

Definition rationale (severity confidence : string) : string := "严重度 " +:+ severity +:+ "，置信度 " +:+ confidence +:+ "。".
Definition summary (n : Z) : string := "按严重度和置信度整理了 " +:+ itoa n +:+ " 个异常项。".

Definition deterministicAnalysis (findings : list ProcessFinding) : Analysis :=
  let ordered := sort_stable findings in
  match ordered with
  | [] => mkAnalysis SchemaVersion "规则扫描未发现异常项。" [] [] [] false
  | _ =>
    mkAnalysis SchemaVersion (summary (Z.of_nat (length ordered)))
      (imap (λ index f, mkRankedFinding (pf_ID f) (Z.of_nat index + 1) (rationale (pf_Severity f) (format2 (pf_Confidence f)))) ordered)
      (map (λ f, mkVerificationStep (pf_ID f) "核对进程所属服务、启动时间和近期变更。") ordered)
      (map (λ f, mkRecommendation (pf_ID f) (priorityForSeverity (pf_Severity f)) "查看关联日志，确认进程是否符合预期。") ordered)
      false
  end.

(** ** Analyze *)

Record Analyzer := mkAnalyzer {
  has_endpoint : bool;
  maxRequestBytes : Z;
  maxResponseBytes : Z;
}.

(** What came of the HTTP exchange: the request could not be built or sent, a
    redirect, a timeout, or a response with its status, its media type and its
    body ([None] when reading it failed). *)
Inductive exchange :=
| BadRequest
| Redirected
| TimedOut
| Failed
| Answered (status : Z) (mediaType : option string) (body : option string).

(** [readLimited] reads one byte more than the limit. *)
Definition readLimited (body : option string) (limit : Z) : result bool string :=
  match body with
  | None => Err false
  | Some body => if (limit <? slen body)%Z then Err true else Ok body
  end.

Section analyze.
Context (is_C : Z → bool) (decodeAnalysis : string → option Analysis) (buildGatewayRequest : list ProcessFinding → option string).

Definition Analyze (analyzer : Analyzer) (token : option string) (gateway : string → string → exchange)
    (findings : list ProcessFinding) : result string Outcome :=
  let fallback reason := Ok (mkOutcome (deterministicAnalysis findings) ModeRulesFallback reason) in
  if negb (is_ok (validateFindings is_C findings)) then Err "invalid redacted findings"
  else if bool_decide (findings = []) then fallback FallbackNone
  else if negb (has_endpoint analyzer) then fallback FallbackGatewayDisabled
  else match token with
  | None => fallback FallbackCredentialUnavailable
  | Some token =>
    match buildGatewayRequest findings with
    | None => fallback FallbackTransportError
    | Some payload =>
      if (maxRequestBytes analyzer <? slen payload)%Z then fallback FallbackTransportError
      else match gateway ("Bearer " +:+ token) payload with
      | BadRequest | Failed => fallback FallbackTransportError
      | Redirected => fallback FallbackRedirectBlocked
      | TimedOut => fallback FallbackTimeout
      | Answered status mediaType body =>
        if (status <? 200)%Z || (300 <=? status)%Z then fallback FallbackHTTPError
        else if negb (bool_decide (mediaType = Some "application/json")) then fallback FallbackInvalidResponse
        else match readLimited body (maxResponseBytes analyzer) with
        | Err tooLarge => fallback (if tooLarge : bool then FallbackResponseTooLarge else FallbackTransportError)
        | Ok body =>
          match decodeAnalysis body with
          | None => fallback FallbackInvalidResponse
          | Some analysis =>
            if negb (is_ok (validateAnalysis is_C analysis findings)) then fallback FallbackInvalidResponse
            else Ok (mkOutcome analysis ModeGateway FallbackNone)
          end
        end
      end
    end
  end.
End analyze.

(** ** The contract of an analysis *)

(** Text for people: not empty, and without the syntax of a shell. *)
Definition plain (s : string) : Prop :=
  s ≠ "" ∧ contains_any "`|;<>" s = false ∧ contains "&&" s = false ∧ contains "$(" s = false ∧ commandPattern s = false ∧
  secretPattern s = false.

Record contract (findings : list ProcessFinding) (a : Analysis) : Prop := mkContract {
  ct_schema : an_SchemaVersion a = SchemaVersion;
  ct_execution : ExecutionAllowed a = false;
  ct_ids : map rf_FindingID (RankedFindings a) ≡ₚ map pf_ID findings;
  ct_ranks : map Rank (RankedFindings a) ≡ₚ map Z.of_nat (seq 1 (length findings));
  ct_steps f : f ∈ findings → pf_ID f ∈ map hv_FindingID (HumanVerificationSteps a);
  ct_recommendations f : f ∈ findings → pf_ID f ∈ map rc_FindingID (Recommendations a);
  ct_text : plain (Summary a) ∧ Forall (λ x, plain (Rationale x)) (RankedFindings a) ∧
    Forall (λ x, plain (hv_Description x)) (HumanVerificationSteps a) ∧ Forall (λ x, plain (Advice x)) (Recommendations a);
}.


Lemma is_ok_true {E A} (r : result E A) : is_ok r = true ↔ ∃ a, r = Ok a.
Proof. destruct r; split; try done; [by eexists|by intros [? ?]]. Qed.

(** Take apart a sequence of checks that succeeded. *)
Ltac checks H :=
  repeat match type of H with
  | (guard_ok ?b ?e ≫= _) = Ok _ => let E := fresh "Hc" in destruct b eqn:E; [cbn [guard_ok mbind result_bind] in H|done]
  | (?x ≫= _) = Ok _ => let E := fresh "Hx" in destruct x eqn:E; [cbn [mbind result_bind] in H|done]
  end.
Ltac bools :=
  repeat match goal with
  | H : negb _ = true |- _ => apply negb_true_iff in H
  | H : negb _ = false |- _ => apply negb_false_iff in H
  | H : _ || _ = false |- _ => apply orb_false_iff in H as [? ?]
  | H : _ && _ = true |- _ => apply andb_true_iff in H as [? ?]
  | H : bool_decide _ = true |- _ => apply bool_decide_eq_true in H
  | H : bool_decide _ = false |- _ => apply bool_decide_eq_false in H
  | H : (_ =? _)%Z = true |- _ => apply Z.eqb_eq in H
  | H : (_ <? _)%Z = false |- _ => apply Z.ltb_ge in H
  | H : (_ =? _) = true |- _ => apply String.eqb_eq in H
  end.

Section lemmas.
Context (is_C : Z → bool).

Lemma validateOutputText_plain s maximum : is_ok (validateOutputText is_C s 1 maximum) = true → plain s.
Proof.
  intros [u H]%is_ok_true. unfold validateOutputText, validateText in H. cbn zeta in H.
  destruct (guard_ok (utf8_valid s) _ ≫= _) eqn:E; [|done]. checks E. cbn [mbind result_bind] in H. checks H. cbn [andb] in *. bools.
  unfold plain. split_and!; try done. intros ->. cbn in *. lia.
Qed.

Lemma valid_findings_nodup seen l : valid_findings is_C seen l = true →
  NoDup (map pf_ID l) ∧ (∀ f, f ∈ l → pf_ID f ∉ seen) ∧ Forall (λ f, ∃ s, valid_finding is_C s f = true) l.
Proof.
  revert seen. induction l as [|f l IH]; intros seen; cbn; [intros _; split_and!; [constructor|set_solver|constructor]|].
  intros [Hf Hl]%andb_true_iff. destruct (IH _ Hl) as (H1 & H2 & H3). split_and!.
  - apply NoDup_cons. split; [|done]. intros (g & Hg & Hin)%list_elem_of_In%in_map_iff. apply (H2 g); [by apply list_elem_of_In|]. set_solver.
  - intros g [->|Hg]%elem_of_cons; [|by specialize (H2 g Hg); set_solver]. unfold valid_finding in Hf. bools. done.
  - constructor; [by eexists|done].
Qed.

Lemma valid_finding_rated seen f : valid_finding is_C seen f = true →
  validSeverity (pf_Severity f) = true ∧ outside (double 1) (pf_Confidence f) = false.
Proof.
  unfold valid_finding. cbn zeta.
  intros [[[[[_ Hsev]%andb_true_iff Hconf]%andb_true_iff _]%andb_true_iff _]%andb_true_iff _]%andb_true_iff.
  split; [exact Hsev|]. by apply negb_true_iff.
Qed.

Lemma validateFindings_Ok l u : validateFindings is_C l = Ok u →
  NoDup (map pf_ID l) ∧ Z.of_nat (length l) ≤ MaxFindings ∧ Forall (λ f, ∃ s, valid_finding is_C s f = true) l.
Proof.
  unfold validateFindings. intros H. checks H. bools. apply valid_findings_nodup in Hc0 as (? & _ & ?). done.
Qed.

Lemma check_ranked_Ok known n ranks ids l u : check_ranked is_C known n ranks ids l = Ok u →
  NoDup (map Rank l) ∧ NoDup (map rf_FindingID l) ∧
  Forall (λ x, 1 ≤ Rank x ≤ n ∧ (Rank x ∉ ranks) ∧ rf_FindingID x ∈ known ∧ (rf_FindingID x ∉ ids) ∧ plain (Rationale x)) l.
Proof.
  revert ranks ids. induction l as [|x l IH]; intros ranks ids; cbn [check_ranked map]; [intros _; repeat split; constructor|].
  intros H. checks H. apply IH in H as (H1 & H2 & H3). bools. rewrite Forall_forall in H3. split_and!.
  - apply NoDup_cons. split; [|done]. intros (y & Hy & Hin)%list_elem_of_In%in_map_iff. apply list_elem_of_In, H3 in Hin as (_ & Hr & _). set_solver.
  - apply NoDup_cons. split; [|done]. intros (y & Hy & Hin)%list_elem_of_In%in_map_iff. apply list_elem_of_In, H3 in Hin as (_ & _ & _ & Hr & _). set_solver.
  - constructor; [split_and!; try done; [..|by eapply validateOutputText_plain]; lia|].
    apply Forall_forall. intros y Hy. apply H3 in Hy as (? & ? & ? & ? & ?). split_and!; [lia..|set_solver|done|set_solver|done].
Qed.

Lemma nodup_perm {A} (l k : list A) : NoDup l → (∀ x, x ∈ l → x ∈ k) → length l = length k → l ≡ₚ k.
Proof. intros Hn Hin Hl. apply submseteq_length_Permutation; [by apply NoDup_submseteq|lia]. Qed.

(** Guidance that covers as many findings as there are covers all of them. *)
Lemma check_guidance_Ok {A} (known : gset string) (id : A → string) valid e l covered (ids : list string) :
  check_guidance known id valid e l = Ok covered → known = list_to_set ids → NoDup ids → size covered = length ids →
  (∀ x, x ∈ ids → x ∈ map id l) ∧ Forall (λ x, valid x = true) l.
Proof.
  unfold check_guidance. intros H -> Hnd Hsize. checks H. simplify_eq. rewrite forallb_forall in Hc. split.
  - assert ((list_to_set (map id l) : gset string) ⊆ list_to_set ids) as Hsub.
    { intros x (y & <- & Hy)%elem_of_list_to_set%list_elem_of_In%in_map_iff. specialize (Hc y Hy). by bools. }
    apply set_subseteq_size_eq in Hsub as Heq; [|by rewrite Hsize, size_list_to_set].
    intros x Hx. assert (x ∈ (list_to_set (map id l) : gset string)) as Hin; [|by apply elem_of_list_to_set in Hin].
    rewrite Heq. by apply elem_of_list_to_set.
  - apply Forall_forall. intros x Hx. specialize (Hc x). rewrite <-list_elem_of_In in Hc. specialize (Hc Hx). by bools.
Qed.

Lemma validateAnalysis_contract a l u : NoDup (map pf_ID l) → validateAnalysis is_C a l = Ok u → contract l a.
Proof.
  intros Hnd H. unfold validateAnalysis in H. cbn zeta in H. checks H. bools.
  match goal with E : check_ranked _ _ _ _ _ _ = Ok _ |- _ => apply check_ranked_Ok in E as (Hr & Hid & Hall) end.
  rewrite Forall_forall in Hall.
  assert (length (RankedFindings a) = length l) as Hlen by lia.
  match goal with E : check_guidance _ hv_FindingID _ _ _ = Ok _ |- _ => eapply check_guidance_Ok in E as [Hs1 Hs2]; [|done..|rewrite length_map; lia] end.
  match goal with E : check_guidance _ rc_FindingID _ _ _ = Ok _ |- _ => eapply check_guidance_Ok in E as [Hr1 Hr2]; [|done..|rewrite length_map; lia] end.
  split; try done.
  - apply nodup_perm; [done| |by rewrite !length_map]. intros x (y & <- & Hy)%list_elem_of_In%in_map_iff.
    apply list_elem_of_In, Hall in Hy as (_ & _ & Hy & _). by apply elem_of_list_to_set in Hy.
  - apply nodup_perm; [done| |by rewrite !length_map, length_seq]. intros x (y & <- & Hy)%list_elem_of_In%in_map_iff.
    apply list_elem_of_In, Hall in Hy as ([? ?] & _). apply list_elem_of_In, in_map_iff. exists (Z.to_nat (Rank y)). rewrite in_seq. lia.
  - intros f Hf. apply Hs1. apply list_elem_of_In, in_map, list_elem_of_In, Hf.
  - intros f Hf. apply Hr1. apply list_elem_of_In, in_map, list_elem_of_In, Hf.
  - split_and!; [by eapply validateOutputText_plain|..].
    + apply Forall_forall. intros x Hx. by apply Hall.
    + eapply Forall_impl; [exact Hs2|]. intros x Hx. cbv beta in Hx. by eapply validateOutputText_plain.
    + eapply Forall_impl; [exact Hr2|]. intros x Hx. cbv beta in Hx. bools. by eapply validateOutputText_plain.
Qed.
End lemmas.

(** ** The local ordering is a valid analysis *)

Lemma insert_stable_perm f l : insert_stable f l ≡ₚ f :: l.
Proof.
  induction l as [|g l IH]; [done|]. cbn. destruct (_ <? 0)%Z; [|done]. rewrite IH. apply Permutation_swap.
Qed.
Lemma sort_stable_perm l : sort_stable l ≡ₚ l.
Proof. unfold sort_stable. induction l as [|f l IH]; [done|]. cbn [foldr]. by rewrite insert_stable_perm, IH. Qed.

(** The constant texts of the ordering, and the runes it writes. *)
Definition constant_texts : list string :=
  [rationale "critical highmediumlow" "-0.123456789"; summary 0; "规则扫描未发现异常项。"; "核对进程所属服务、启动时间和近期变更。";
   "查看关联日志，确认进程是否符合预期。"].
Definition fallback_alphabet : list Z := flat_map runes constant_texts.

Definition fallback_text (maximum : Z) (s : string) : bool :=
  let length := Z.of_nat (length (runes s)) in
  utf8_valid s && (1 <=? length)%Z && (length <=? maximum)%Z && (slen s <=? maximum * 4)%Z && negb (secretPattern s) &&
  negb (contains_any "`|;<>" s || contains "&&" s || contains "||" s || contains "$(" s || commandPattern s) &&
  forallb (λ r, bool_decide (r ∈ fallback_alphabet)) (runes s).

Lemma fallback_text_valid (is_C : Z → bool) maximum s :
  Forall (λ r, is_C r = false) fallback_alphabet → fallback_text maximum s = true →
  is_ok (validateOutputText is_C s 1 maximum) = true.
Proof.
  intros HC Hs. unfold fallback_text in Hs. bools. rewrite forallb_forall in *. rewrite Forall_forall in HC.
  repeat match goal with H : (_ <=? _)%Z = true |- _ => apply Z.leb_le in H end.
  unfold validateOutputText, validateText. cbn zeta.
  assert (all_runes (λ r, negb (is_C r)) s = true) as ->.
  { apply forallb_forall. intros r Hr. apply negb_true_iff, HC. match goal with H : ∀ x, In x (runes s) → _ |- _ => specialize (H r Hr) end. by bools. }
  rewrite !(proj2 (Z.ltb_ge _ _)) by lia. by repeat match goal with H : ?x = _ |- context [?x] => rewrite H end.
Qed.

Lemma constant_texts_valid : forallb (fallback_text 600) (drop 2 constant_texts) = true.
Proof. vm_compute. reflexivity. Qed.
Lemma summaries_valid : forallb (λ n, fallback_text 2000 (summary (Z.of_nat n))) (seq 1 128) = true.
Proof. vm_compute. reflexivity. Qed.
Lemma rationales_valid :
  forallb (λ sev, forallb (λ n, fallback_text 600 (rationale sev (two_places (Z.of_nat n)))) (seq 0 101) &&
                  fallback_text 600 (rationale sev ("-" +:+ two_places 0)))
    ["critical"; "high"; "medium"; "low"] = true.
Proof. vm_compute. reflexivity. Qed.

(** A confidence between 0 and 1 prints as 0.00 to 1.00. *)
Lemma digits2_pos_bound m : Zpos m < 2 ^ Zpos (digits2_pos m).
Proof.
  induction m as [m IH|m IH|]; [..|done]; cbn [digits2_pos]; rewrite Pos2Z.inj_succ, Z.pow_succ_r by apply Pos2Z.is_nonneg;
    revert IH; generalize (2 ^ Zpos (digits2_pos m)); intros x IH; [rewrite Pos2Z.inj_xI|rewrite Pos2Z.inj_xO]; lia.
Qed.

Lemma round_half_even_le num den : 0 < den → 0 ≤ num ≤ 100 * den → 0 ≤ round_half_even num den ≤ 100.
Proof.
  intros Hd Hn. unfold round_half_even. pose proof (Z.div_mod num den ltac:(lia)) as E. pose proof (Z.mod_pos_bound num den Hd).
  assert (0 ≤ num / den ≤ 100) as Hq by (split; [apply Z.div_pos; lia|apply Z.div_le_upper_bound; lia]).
  assert (num / den = 100 → num `mod` den = 0) as H100 by nia.
  destruct (Z.compare_spec (2 * (num `mod` den)) den); [destruct (Z.even _)| |]; nia.
Qed.

Lemma hundredths_le m e : valid_binary 53 1024 (S754_finite false m e) = true →
  SFltb (double 1) (S754_finite false m e) = false → 0 ≤ hundredths (Zpos m) e ≤ 100.
Proof.
  intros Hv Hlt. change (double 1) with (S754_finite false 4503599627370496 (-52)) in Hlt.
  cbn in Hv. unfold bounded, canonical_mantissa, fexp, emin in Hv. apply andb_true_iff in Hv as [Hv _].
  apply Z.eqb_eq in Hv. pose proof (digits2_pos_bound m) as Hm.
  assert (Zpos m < 2 ^ 53) as Hm53.
  { eapply Z.lt_le_trans; [exact Hm|]. apply Z.pow_le_mono_r; lia. }
  unfold SFltb, SFcompare in Hlt.
  assert (e < -52 ∨ (e = -52 ∧ Zpos m ≤ 2 ^ 52)) as He.
  { destruct (Z.compare_spec (-52) e) as [<-|?|?]; [right|done|by left]. split; [done|].
    change (Pos.compare_cont Eq 4503599627370496 m) with (Pos.compare 4503599627370496 m) in Hlt.
    destruct (Pos.compare_spec 4503599627370496 m) as [<-|?|Hle]; [done|done|]. change (2 ^ 52) with (Zpos 4503599627370496).
    apply Pos2Z.pos_le_pos. by apply Pos.lt_le_incl. }
  clear Hlt Hv Hm.
  unfold hundredths. rewrite (proj2 (Z.leb_gt _ _)) by lia. apply round_half_even_le; [apply Z.pow_pos_nonneg; lia|].
  split; [lia|]. destruct He as [He|[-> He]]; [|change (- -52) with 52; lia].
  assert (2 ^ 53 ≤ 2 ^ (- e)) by (apply Z.pow_le_mono_r; lia). lia.
Qed.

Lemma rationale_valid severity x : validSeverity severity = true → outside (double 1) x = false → valid_binary 53 1024 x = true →
  fallback_text 600 (rationale severity (format2 x)) = true.
Proof.
  intros Hsev%bool_decide_eq_true Hx Hv. pose proof rationales_valid as Hr. rewrite forallb_forall in Hr.
  specialize (Hr severity). rewrite <-list_elem_of_In in Hr. specialize (Hr Hsev). apply andb_true_iff in Hr as [Hr Hz].
  rewrite forallb_forall in Hr.
  assert (∀ q, 0 ≤ q ≤ 100 → fallback_text 600 (rationale severity (two_places q)) = true) as Hq.
  { intros q Hq. specialize (Hr (Z.to_nat q)). rewrite Z2Nat.id in Hr by lia. apply Hr. rewrite in_seq. lia. }
  unfold outside in Hx. destruct x as [[]|s| |[] m e]; try done; cbn [format2].
  - rewrite append_Empty. by apply Hq.
  - rewrite append_Empty. apply orb_false_iff in Hx as [_ Hx]. by apply Hq, hundredths_le.
Qed.

Section fallback.
Context (is_C : Z → bool) (HC : Forall (λ r, is_C r = false) fallback_alphabet).

Definition ranked (start : nat) (l : list ProcessFinding) : list RankedFinding :=
  imap (λ index f, mkRankedFinding (pf_ID f) (Z.of_nat (start + index) + 1) (rationale (pf_Severity f) (format2 (pf_Confidence f)))) l.

(** A finding the ordering can describe. *)
Definition describable (f : ProcessFinding) : Prop := fallback_text 600 (rationale (pf_Severity f) (format2 (pf_Confidence f))) = true.

Lemma check_ranked_imap known n start ranks ids l :
  NoDup (map pf_ID l) → Forall describable l → (∀ f, f ∈ l → pf_ID f ∈ known ∧ pf_ID f ∉ ids) →
  (∀ r, r ∈ ranks → r ≤ Z.of_nat start) → Z.of_nat (start + length l) ≤ n →
  check_ranked is_C known n ranks ids (ranked start l) = Ok tt.
Proof using HC.
  unfold ranked. revert start ranks ids. induction l as [|f l IH]; intros start ranks ids Hnd Hd Hin Hr Hn; [done|].
  cbn [map] in Hnd. apply NoDup_cons in Hnd as [Hf Hnd]. apply Forall_cons in Hd as [Hdf Hd]. cbn [imap check_ranked rf_FindingID Rank Rationale].
  destruct (Hin f ltac:(left)) as [Hk Hi]. cbn [length] in Hn.
  rewrite (bool_decide_true (pf_ID f ∈ known)) by exact Hk. rewrite !(proj2 (Z.ltb_ge _ _)) by lia. rewrite fallback_text_valid by done.
  cbn [negb orb guard_ok mbind result_bind]. rewrite (bool_decide_false (_ ∈ ranks)) by (intros H%Hr; lia).
  cbn [negb guard_ok mbind result_bind]. rewrite (bool_decide_false (_ ∈ ids)) by done. cbn [negb guard_ok mbind result_bind].
  rewrite (imap_ext _ (λ index g, mkRankedFinding (pf_ID g) (Z.of_nat (S start + index) + 1)
    (rationale (pf_Severity g) (format2 (pf_Confidence g)))))
    by (intros i g _; cbn; do 2 f_equal; lia).
  apply IH; try done.
  - intros g Hg. destruct (Hin g ltac:(by right)) as [? ?]. split; [done|]. rewrite not_elem_of_union, elem_of_singleton. split; [|done].
    intros E. apply Hf. rewrite <-E. apply list_elem_of_In, in_map, list_elem_of_In, Hg.
  - intros r [->%elem_of_singleton|H%Hr]%elem_of_union; lia.
  - lia.
Qed.

Lemma check_guidance_map {A} (known : gset string) (id : A → string) (mk : ProcessFinding → A) valid e l :
  (∀ f, id (mk f) = pf_ID f) → (∀ f, f ∈ l → pf_ID f ∈ known ∧ valid (mk f) = true) →
  check_guidance known id valid e (map mk l) = Ok (list_to_set (map pf_ID l)).
Proof.
  intros Hid Hl. unfold check_guidance. replace (forallb _ _) with true.
  - cbn [guard_ok mbind result_bind]. do 2 f_equal. rewrite map_map. by apply map_ext.
  - symmetry. apply forallb_forall. intros x (f & <- & Hf)%in_map_iff. apply list_elem_of_In, Hl in Hf as [H1 H2].
    rewrite Hid, bool_decide_true, H2 by done. done.
Qed.

Lemma priorityForSeverity_valid s : validPriority (priorityForSeverity s) = true.
Proof. unfold priorityForSeverity. by repeat case_match. Qed.

Lemma deterministic_valid l : NoDup (map pf_ID l) → Z.of_nat (length l) ≤ MaxFindings → Forall describable l →
  validateAnalysis is_C (deterministicAnalysis l) l = Ok tt.
Proof using HC.
  intros Hnd Hlen Hd. pose proof (sort_stable_perm l) as Hp. unfold deterministicAnalysis.
  destruct (sort_stable l) as [|f0 l0] eqn:Es; [apply Permutation_nil in Hp as ->|].
  { unfold validateAnalysis. cbn zeta. rewrite fallback_text_valid; [|done|]. 2: { vm_compute. reflexivity. } vm_compute. reflexivity. }
  assert (sort_stable l ≠ []) as Hne by (by rewrite Es). rewrite <-Es in *. clear Es f0 l0. set (ordered := sort_stable l) in *.
  pose proof (Permutation_length Hp) as Hol. assert (length ordered ≠ 0)%nat as Hpos by (by destruct ordered).
  assert (∀ f, f ∈ ordered → pf_ID f ∈ (list_to_set (map pf_ID l) : gset string)) as Hknown.
  { intros f Hf. rewrite elem_of_list_to_set. rewrite Hp in Hf. apply list_elem_of_In, in_map, list_elem_of_In, Hf. }
  assert (NoDup (map pf_ID ordered)) as Hndo by (by rewrite Hp).
  pose proof constant_texts_valid as Hct. cbn [drop constant_texts forallb] in Hct. bools.
  assert (fallback_text 2000 (summary (Z.of_nat (length ordered))) = true) as Hsum.
  { pose proof summaries_valid as Hs. rewrite forallb_forall in Hs. apply Hs. rewrite in_seq. unfold MaxFindings in Hlen. lia. }
  unfold validateAnalysis. cbn zeta.
  cbn [an_SchemaVersion ExecutionAllowed Summary RankedFindings HumanVerificationSteps Recommendations].
  rewrite (fallback_text_valid is_C 2000) by assumption. rewrite String.eqb_refl, length_imap, !length_map, <-Hol, Z.eqb_refl.
  rewrite (proj2 (Z.ltb_ge (Z.max 1 (_ * 3)) _)), (proj2 (Z.ltb_ge (Z.max 1 (_ * 2)) _)) by lia. cbn [negb orb guard_ok mbind result_bind].
  change (imap _ ordered) with (ranked 0 ordered).
  assert (check_ranked is_C (list_to_set (map pf_ID l)) (Z.of_nat (length ordered)) ∅ ∅ (ranked 0 ordered) = Ok tt) as ->.
  { apply check_ranked_imap; [done|by rewrite Hp|intros f Hf; split; [by apply Hknown|apply not_elem_of_empty]| |done].
    intros r Hr. destruct (not_elem_of_empty r Hr). }
  cbn [mbind result_bind]. rewrite !bool_decide_false by (destruct ordered; [congruence|discriminate]). rewrite andb_false_r. cbn [negb guard_ok mbind result_bind].
  rewrite (check_guidance_map _ hv_FindingID); [|reflexivity|].
  2: { intros f Hf. split; [exact (Hknown f Hf)|]. cbn [hv_Description]. apply fallback_text_valid; assumption. }
  cbn [mbind result_bind]. rewrite (check_guidance_map _ rc_FindingID); [|reflexivity|].
  2: { intros f Hf. split; [exact (Hknown f Hf)|]. cbn [Priority Advice]. rewrite priorityForSeverity_valid. apply fallback_text_valid; assumption. }
  cbn [mbind result_bind]. rewrite size_list_to_set, length_map, Z.eqb_refl by done. done.
Qed.
End fallback.

(** * Properties *)

(** C35: whatever the gateway answers, an analysis that is returned meets the contract: it
    does not allow execution, ranks every finding exactly once with the ranks 1
    to n, gives verification steps and recommendations for every finding, and
    its texts contain neither shell syntax nor probable secrets.  The findings
    that were accepted always lead to such an analysis: the local ordering
    takes over on every failure of the gateway. *)
Theorem analysis_contract is_C decode build analyzer token gateway findings :
  Forall (λ r, is_C r = false) fallback_alphabet →
  Forall (λ f, valid_binary 53 1024 (pf_Confidence f) = true) findings →
  is_ok (validateFindings is_C findings) = true →
  ∃ o, Analyze is_C decode build analyzer token gateway findings = Ok o ∧ contract findings (oc_Analysis o) ∧
    (Mode o = ModeRulesFallback → oc_Analysis o = deterministicAnalysis findings).
Proof.
  intros HC Hb Hok. destruct (proj1 (is_ok_true _) Hok) as [u Hf]. apply validateFindings_Ok in Hf as (Hnd & Hlen & Hall).
  assert (∀ reason, ∃ o, Ok (mkOutcome (deterministicAnalysis findings) ModeRulesFallback reason) = Ok o (E := string) ∧
    contract findings (oc_Analysis o) ∧ (Mode o = ModeRulesFallback → oc_Analysis o = deterministicAnalysis findings)) as Hfb.
  { intros reason. eexists. split; [reflexivity|]. split; [|done]. eapply validateAnalysis_contract; [done|].
    apply (deterministic_valid is_C HC); [done..|]. rewrite Forall_forall in *. intros f Hin. destruct (Hall f Hin) as [s Hs].
    apply valid_finding_rated in Hs as [Hsev Hconf]. exact (rationale_valid _ _ Hsev Hconf (Hb f Hin)). }
  unfold Analyze. cbn zeta. rewrite Hok. cbn [negb]. repeat (case_match; try apply Hfb). eexists. split; [reflexivity|].
  match goal with H : negb _ = false |- _ => apply negb_false_iff, is_ok_true in H as [v Hv] end.
  split; [by eapply validateAnalysis_contract|done].
Qed.

(** A finding of the scanner, and a category C without the runes of the ordering. *)
Definition demo_findings : list ProcessFinding := as_Findings (Scan [demo_process] 5).
Definition demo_C (r : Z) : bool := is_control r.
Lemma analysis_contract_witness :
  ∃ o, Analyze demo_C (λ _, None) (λ _, Some "{}") (mkAnalyzer true 65536 65536) (Some "token")
         (λ _ _, Answered 200 (Some "application/json") (Some "{}")) demo_findings = Ok o ∧ contract demo_findings (oc_Analysis o) ∧
       (Mode o = ModeRulesFallback → oc_Analysis o = deterministicAnalysis demo_findings).
Proof.
  apply (analysis_contract demo_C (λ _, None) (λ _, Some "{}")); [..|vm_compute; reflexivity].
  - apply Forall_forall. intros r Hr. assert (forallb (λ r, negb (demo_C r)) fallback_alphabet = true) as H by (vm_compute; reflexivity).
    rewrite forallb_forall in H. specialize (H r). rewrite <-list_elem_of_In in H. by apply negb_true_iff, H.
  - vm_compute. repeat constructor.
Defined.

(** a host whose inventory names one process 129 times as a miner, or lists a process
    identifier twice, or gives a process the name [token=x], makes the
    analysis of the scan fail, although the scan itself has the findings; the
    job then ends as failed and keeps none of them. *)
Theorem scan_suppressed decode build analyzer token gateway :
  let miner pid := mkProcess pid 1 "mallory" zero 600 "xmrig" in
  let analyzed ps := Analyze demo_C decode build analyzer token gateway (as_Findings (Scan ps 5)) in
  length (as_Findings (Scan (map (λ n, miner (Z.of_nat n)) (seq 1 129)) 5)) = 129%nat ∧
  is_ok (analyzed (map (λ n, miner (Z.of_nat n)) (seq 1 129))) = false ∧
  length (as_Findings (Scan [miner 7; miner 7] 5)) = 2%nat ∧ is_ok (analyzed [miner 7; miner 7]) = false ∧
  length (as_Findings (Scan [miner 7; mkProcess 8 1 "mallory" (double 95) 600 "token=x"] 5)) = 2%nat ∧
  is_ok (analyzed [miner 7; mkProcess 8 1 "mallory" (double 95) 600 "token=x"]) = false.
Proof. vm_compute. repeat split. Qed.
