(* ===== verification/Prog.v ===== *)
(** * Programs of atomic steps

    A handler of the control plane runs concurrently with every other
    handler; what it does in one step is one call of a component under that
    component's lock.  A [prog] is such a sequence of steps, each of which may
    depend on the state it finds.  [run] executes a program alone, [run_env]
    with others acting before each of its steps; [pool_step] interleaves any
    number of programs.  Three judgements reason about programs.  [triple] is a
    rely-guarantee judgement: every step satisfies the guarantee in every
    state of the invariant that has grown from the states the program has
    seen.  [hoare] is about outcomes: from a state of the precondition, and
    whatever others do within the rely, the program ends in the
    postcondition.  [owns] is about resources: a program owns a list of them,
    and each of its steps turns what it owns into something else without
    touching what others own. *)

From S2P Require Import Prelude.

Inductive prog (S A : Type) : Type :=
| Ret (a : A)
| Act (f : S → S * prog S A).
Arguments Ret {S A} _.
Arguments Act {S A} _.

Section prog.
Context {S : Type}.

(** One atomic call. *)
Definition act {A} (f : S → S * A) : prog S A := Act (λ s, let '(s', a) := f s in (s', Ret a)).

(** Reading the state without changing it. *)
Definition ask {A} (f : S → A) : prog S A := act (λ s, (s, f s)).

Fixpoint prog_bind {A B} (k : A → prog S B) (p : prog S A) : prog S B :=
  match p with
  | Ret a => k a
  | Act f => Act (λ s, let '(s', p') := f s in (s', prog_bind k p'))
  end.
End prog.

#[global] Instance prog_ret {S} : MRet (prog S) := λ A a, Ret a.
#[global] Instance prog_mbind {S} : MBind (prog S) := λ A B k p, prog_bind k p.

(** A program run alone. *)
Fixpoint run {S A} (p : prog S A) (s : S) : S * A :=
  match p with
  | Ret a => (s, a)
  | Act f => let '(s', p') := f s in run p' s'
  end.

(** A program run with others: [env] is what happens before each step. *)
Fixpoint run_env {S A} (p : prog S A) (env : nat → S → S) (n : nat) (s : S) : S * A * nat :=
  match p with
  | Ret a => (s, a, n)
  | Act f => let '(s', p') := f (env n s) in run_env p' env (Datatypes.S n) s'
  end.

(** A pool of programs, any of which takes the next step; [startable] are the
    programs that may be started in a state, and [ambient] what the
    surroundings do. *)
Inductive pool_step {S A} (startable : S → prog S A → Prop) (ambient : S → S → Prop)
    : S * list (prog S A) → S * list (prog S A) → Prop :=
| pool_start s ps p : startable s p → pool_step startable ambient (s, ps) (s, p :: ps)
| pool_act s ps1 ps2 f s' p' :
    f s = (s', p') → pool_step startable ambient (s, ps1 ++ Act f :: ps2) (s', ps1 ++ p' :: ps2)
| pool_ambient s s' ps : ambient s s' → pool_step startable ambient (s, ps) (s', ps).

(** Induction over the programs that a program can become. *)
Section induction.
Context {S A : Type} (P : prog S A → Prop) (HRet : ∀ a, P (Ret a)) (HAct : ∀ f, (∀ s, P (f s).2) → P (Act f)).
Fixpoint prog_nested_ind (p : prog S A) : P p :=
  match p with
  | Ret a => HRet a
  | Act f => HAct f (λ s, match f s as x return P x.2 with (s', p') => prog_nested_ind p' end)
  end.
End induction.

(** Runs of a sequence. *)
Lemma run_bind {S A B} (p : prog S A) (k : A → prog S B) s :
  run (p ≫= k) s = run (k (run p s).2) (run p s).1.
Proof.
  revert s. induction p as [a|f IH] using prog_nested_ind; intros s; [done|]. cbn.
  specialize (IH s). destruct (f s) as [s' p']. apply IH.
Qed.

Lemma run_assoc {S A B C} (p : prog S A) (f : A → prog S B) (k : B → prog S C) s :
  run ((p ≫= f) ≫= k) s = run (p ≫= λ a, f a ≫= k) s.
Proof. by rewrite !run_bind. Qed.

Lemma run_env_bind {S A B} (p : prog S A) (k : A → prog S B) env n s :
  run_env (p ≫= k) env n s = let '(s', a, n') := run_env p env n s in run_env (k a) env n' s'.
Proof.
  revert n s. induction p as [a|f IH] using prog_nested_ind; intros n s; [done|]. cbn.
  specialize (IH (env n s)). destruct (f (env n s)) as [s' p']. apply IH.
Qed.

Lemma run_env_alone {S A} (p : prog S A) n s : (run_env p (λ _ s, s) n s).1 = run p s.
Proof.
  revert n s. induction p as [a|f IH] using prog_nested_ind; intros n s; [done|]. cbn.
  specialize (IH s). destruct (f s) as [s' p']. apply IH.
Qed.

(** A program of a pool can run to its end alone. *)
Lemma pool_run {S A} (startable : S → prog S A → Prop) ambient p s ps :
  rtc (pool_step startable ambient) (s, p :: ps) ((run p s).1, Ret (run p s).2 :: ps).
Proof.
  revert s. induction p as [a|f IH] using prog_nested_ind; intros s; [apply rtc_refl|]. cbn.
  specialize (IH s). destruct (f s) as [s' p'] eqn:E. eapply rtc_l; [|apply IH].
  by apply (pool_act startable ambient s [] ps f s' p').
Qed.

(** ** Every step *)

Section triples.
Context {S : Type} (I : S → Prop) (G grows : S → S → Prop) `{!PreOrder grows}.

(** [k] is the last state the program has seen. *)
Inductive triple {A} (Q : S → A → Prop) : S → prog S A → Prop :=
| triple_Ret k a : Q k a → triple Q k (Ret a)
| triple_Act k f :
    (∀ s, I s → grows k s → I (f s).1) →
    (∀ s, I s → grows k s → G s (f s).1) →
    (∀ s, I s → grows k s → triple Q (f s).1 (f s).2) → triple Q k (Act f).

Lemma triple_act {A} (Q : S → A → Prop) k (f : S → S * A) :
  (∀ s, I s → grows k s → I (f s).1 ∧ G s (f s).1 ∧ Q (f s).1 (f s).2) → triple Q k (act f).
Proof.
  intros Hf. constructor; intros s Hs Hk; destruct (f s) as [s' a] eqn:E; destruct (Hf s Hs Hk) as (? & ? & ?); rewrite E in *; cbn in *; [done..|].
  by constructor.
Qed.

Lemma triple_weaken {A} (Q : S → A → Prop) k k' (p : prog S A) :
  (∀ a, Q k a → Q k' a) → grows k k' → triple Q k p → triple Q k' p.
Proof using Type*.
  intros HQ Hg Hp. destruct Hp as [k a Ha|k f Hi Hf Hn]; constructor; auto; intros s Hs Hk; [apply Hi|apply Hf|apply Hn]; auto; by etrans.
Qed.

Lemma triple_mono {A} (Q R : S → A → Prop) k (p : prog S A) : (∀ k a, Q k a → R k a) → triple Q k p → triple R k p.
Proof. intros HQR Hp. induction Hp as [k a Ha|k f Hi Hf _ IH]; constructor; auto. Qed.

Context (G_grows : ∀ s s', I s → G s s' → grows s s').

Lemma triple_bind {A B} (Q : S → A → Prop) (R : S → B → Prop) k (p : prog S A) (c : A → prog S B) :
  triple Q k p → (∀ k' a, grows k k' → Q k' a → triple R k' (c a)) → triple R k (p ≫= c).
Proof using Type*.
  intros Hp. induction Hp as [k a Ha|k f Hi Hf _ IH]; intros Hc; [by apply Hc|]. cbn.
  constructor; intros s Hs Hk; specialize (Hi s Hs Hk); specialize (Hf s Hs Hk); specialize (IH s Hs Hk);
    destruct (f s) as [s' p'] eqn:E; cbn in *; [done..|].
  apply IH. intros k' a Hk' Ha. apply Hc; [|done]. trans s; [done|]. trans s'; [by apply G_grows|done].
Qed.

(** In a pool. *)
Lemma pool_triples {A} (Q : S → A → Prop) (startable : S → prog S A → Prop) ambient x y :
  (∀ s p, I s → startable s p → triple Q s p) →
  (∀ s s', I s → ambient s s' → I s' ∧ G s s') →
  I x.1 → Forall (λ p, ∃ k, grows k x.1 ∧ triple Q k p) x.2 → rtc (pool_step startable ambient) x y →
  I y.1 ∧ Forall (λ p, ∃ k, grows k y.1 ∧ triple Q k p) y.2 ∧ rtc (λ s s', I s ∧ G s s') x.1 y.1.
Proof using Type*.
  intros Hstart Hamb Hi Hps Hr. induction Hr as [x|x y z Hs Hr IH]; [split_and!; [done..|apply rtc_refl]|].
  assert (∀ s s' ps, I s → G s s' → Forall (λ p, ∃ k, grows k s ∧ triple Q k p) ps →
    Forall (λ p, ∃ k, grows k s' ∧ triple Q k p) ps) as Hgrow.
  { intros s s' ps Hs' Hg Hf. eapply Forall_impl; [exact Hf|]. intros p (k & Hk & Hp). exists k. split; [|done].
    etrans; [exact Hk|]. by apply G_grows. }
  assert (I y.1 ∧ Forall (λ p, ∃ k, grows k y.1 ∧ triple Q k p) y.2 ∧ rtc (λ s s', I s ∧ G s s') x.1 y.1) as (Hy & Hpy & Hxy).
  { destruct Hs as [s ps p Hp|s ps1 ps2 f s' p' Hf|s s' ps Ha]; cbn in *.
    - split_and!; [done| |apply rtc_refl]. constructor; [|done]. exists s. split; [reflexivity|by apply Hstart].
    - apply Forall_app in Hps as [H1 [H2 H3]%Forall_cons]. destruct H2 as (k & Hk & Hp). inversion Hp as [|? ? Hinv Hstep Hnext]; subst.
      specialize (Hinv s Hi Hk). specialize (Hstep s Hi Hk). specialize (Hnext s Hi Hk). rewrite Hf in *. cbn in *.
      split_and!; [done| |by apply rtc_once].
      apply Forall_app. split; [by apply (Hgrow s)|]. constructor; [|by apply (Hgrow s)]. exists s'. by split.
    - destruct (Hamb _ _ Hi Ha). split_and!; [done|by apply (Hgrow s)|]. by apply rtc_once. }
  destruct (IH Hy Hpy) as (? & ? & ?). split_and!; [done..|]. by etrans.
Qed.
End triples.

(** ** Outcomes *)

Section hoare.
Context {S : Type} (R : S → S → Prop).

Definition hoare {A} (P : S → Prop) (p : prog S A) (Q : S → A → Prop) : Prop :=
  ∀ env n s, (∀ n s, R s (env n s)) → P s → Q (run_env p env n s).1.1 (run_env p env n s).1.2.

Lemma hoare_ret {A} (P : S → Prop) (a : A) (Q : S → A → Prop) : (∀ s, P s → Q s a) → hoare P (Ret a) Q.
Proof. intros H env n s _ HP. by apply H. Qed.

Lemma hoare_act {A} (P : S → Prop) (f : S → S * A) (Q : S → A → Prop) :
  (∀ s s', P s → R s s' → Q (f s').1 (f s').2) → hoare P (act f) Q.
Proof.
  intros H env n s Henv HP. specialize (H s (env n s) HP (Henv n s)). cbn. by destruct (f (env n s)).
Qed.

Lemma hoare_bind {A B} (P : S → Prop) (M : S → A → Prop) (p : prog S A) (k : A → prog S B) (Q : S → B → Prop) :
  hoare P p M → (∀ a, hoare (λ s, M s a) (k a) Q) → hoare P (p ≫= k) Q.
Proof.
  intros Hp Hk env n s Henv HP. specialize (Hp env n s Henv HP). rewrite run_env_bind.
  destruct (run_env p env n s) as [[s' a] n']. by apply Hk.
Qed.

Lemma hoare_conseq {A} (P P' : S → Prop) (p : prog S A) (Q Q' : S → A → Prop) :
  hoare P' p Q' → (∀ s, P s → P' s) → (∀ s a, Q' s a → Q s a) → hoare P p Q.
Proof. intros H HP HQ env n s Henv Hs. by apply HQ, H, HP. Qed.

(** What is known of a result, apart from the state. *)
Lemma hoare_pure {A} (P : S → Prop) (φ : Prop) (p : prog S A) (Q : S → A → Prop) : (φ → hoare P p Q) → hoare (λ s, P s ∧ φ) p Q.
Proof. intros H env n s Henv [HP Hφ]. by apply H. Qed.

Lemma hoare_ex {A X} (P : X → S → Prop) (p : prog S A) (Q : S → A → Prop) : (∀ x, hoare (P x) p Q) → hoare (λ s, ∃ x, P x s) p Q.
Proof. intros H env n s Henv [x HP]. by apply (H x). Qed.
End hoare.

(** ** Resources *)

(** [I r s]: in state [s] exactly the resources [r] are handed out. *)
Section owns.
Context {S R : Type} (I : list R → S → Prop) (I_perm : ∀ r r' s, r ≡ₚ r' → I r s → I r' s).

(** The program owns [r]; it leaves what [Q] says. *)
Fixpoint owns {A} (Q : A → list R → Prop) (r : list R) (p : prog S A) : Prop :=
  match p with
  | Ret a => Q a r
  | Act f => ∀ s frame, I (r ++ frame) s →
      match f s with (s', p') => ∃ r', I (r' ++ frame) s' ∧ owns Q r' p' end
  end.

Lemma owns_act {A} (Q : A → list R → Prop) r (f : S → S * A) :
  (∀ s frame, I (r ++ frame) s → ∃ r', I (r' ++ frame) (f s).1 ∧ Q (f s).2 r') → owns Q r (act f).
Proof. intros Hf s frame Hi. specialize (Hf s frame Hi). by destruct (f s). Qed.

Lemma owns_ask {A} (Q : A → list R → Prop) r (f : S → A) :
  (∀ s frame, I (r ++ frame) s → Q (f s) r) → owns Q r (ask f).
Proof. intros Hf. apply owns_act. intros s frame Hi. exists r. split; [done|]. by eapply Hf. Qed.

Lemma owns_bind {A B} (Q : A → list R → Prop) (Q' : B → list R → Prop) r (p : prog S A) (k : A → prog S B) :
  owns Q r p → (∀ a r', Q a r' → owns Q' r' (k a)) → owns Q' r (p ≫= k).
Proof.
  intros Hp Hk. revert r Hp. induction p as [a|f IH] using prog_nested_ind; intros r Hp; [by apply Hk|].
  intros s frame Hi. specialize (Hp s frame Hi). specialize (IH s). destruct (f s) as [s' p'].
  destruct Hp as (r' & Hr' & Hp). exists r'. split; [done|]. by apply IH.
Qed.

Lemma owns_mono {A} (Q Q' : A → list R → Prop) r (p : prog S A) :
  (∀ a r', Q a r' → Q' a r') → owns Q r p → owns Q' r p.
Proof.
  intros HQ. revert r. induction p as [a|f IH] using prog_nested_ind; intros r; [apply HQ|].
  intros Hp s frame Hi. specialize (Hp s frame Hi). specialize (IH s). destruct (f s) as [s' p'].
  destruct Hp as (r' & Hr' & Hp). eauto.
Qed.

(** The frame rule. *)
Lemma owns_frame {A} (Q : A → list R → Prop) r extra (p : prog S A) :
  owns Q r p → owns (λ a r', ∃ r1, r' = r1 ++ extra ∧ Q a r1) (r ++ extra) p.
Proof.
  revert r. induction p as [a|f IH] using prog_nested_ind; intros r; [cbn; eauto|].
  intros Hp s frame Hi. rewrite <-app_assoc in Hi. specialize (Hp s _ Hi). specialize (IH s).
  destruct (f s) as [s' p']. destruct Hp as (r' & Hr' & Hp). exists (r' ++ extra). rewrite <-app_assoc. eauto.
Qed.

(** A pool of programs shares out all the resources. *)
Lemma pool_owns {A} (Q : A → list R → Prop) (startable : S → prog S A → Prop) ambient x y :
  (∀ s p, startable s p → owns Q [] p) → (∀ s s' r, ambient s s' → I r s → I r s') →
  rtc (pool_step startable ambient) x y → (∃ rs, I (concat rs) x.1 ∧ Forall2 (owns Q) rs x.2) →
  ∃ rs, I (concat rs) y.1 ∧ Forall2 (owns Q) rs y.2.
Proof using I_perm.
  intros Hstart Hamb. induction 1 as [x|x y z Hs _ IH]; [done|]. intros (rs & Hi & Hrs). apply IH. clear IH.
  destruct Hs as [s ps p Hp|s ps1 ps2 f s' p' Hf|s s' ps Ha]; cbn in *.
  - exists ([] :: rs). split; [done|]. constructor; [by eapply Hstart|done].
  - apply Forall2_app_inv_r in Hrs as (rs1 & rs2 & H1 & H2 & ->). inversion H2 as [|r ? rs2' ? Hr H2']; subst.
    assert (I (r ++ (concat rs1 ++ concat rs2')) s) as Hi'.
    { eapply I_perm; [|exact Hi]. rewrite concat_app. cbn. rewrite !app_assoc. apply Permutation_app_tail, Permutation_app_comm. }
    specialize (Hr s _ Hi'). rewrite Hf in Hr. destruct Hr as (r' & Hi2 & Hr'). exists (rs1 ++ r' :: rs2'). split.
    + eapply I_perm; [|exact Hi2]. rewrite concat_app. cbn. rewrite !app_assoc. apply Permutation_app_tail, Permutation_app_comm.
    + apply Forall2_app; [done|]. by constructor.
  - exists rs. eauto.
Qed.
End owns.

(** ** Counting resources *)

Section count.
Context {R : Type}.

Definition count (p : R → bool) (r : list R) : Z := Z.of_nat (length (List.filter p r)).

Lemma count_cons p x r : (count p (x :: r) = (if p x then 1 else 0) + count p r)%Z.
Proof. unfold count. cbn. destruct (p x); cbn [length]; lia. Qed.

#[export] Instance count_perm p : Proper ((≡ₚ) ==> (=)) (count p).
Proof. intros r r' E. unfold count. by rewrite E. Qed.
End count.
