(* ===== verification/ConnectorService.v ===== *)
(** * The Connector's HTTP service

    Models [services/connector/service/server.go] and the handlers of
    [webssh.go]: authentication of a request, the fixed actions, the issue of
    terminal tickets and the life of a WebSocket connection.  A handler is a
    program of atomic steps (file Prog), one per critical section, channel
    operation or overwritten credential, so that any number of them interleave.
    What the network, the SSH library and the clock answer are arguments of a
    handler; the output messages of a session are those of [writeOutput] and
    not part of its result.  What the handlers do to the outside is recorded in the history
    [log] of the state. *)

From S2P Require Import Prelude GoStrings Encoding Url Credentials ConnectorAuth Protocol Runbook Ledger RunbookHandler.
From S2P Require Import SshConnector ConnectorWebSSH RateLimit TerminalSession Prog.

Definition defaultBodyLimit : Z := 65536.
Definition defaultOutputLimit : Z := 1048576.
Definition defaultConcurrency : Z := 8.

(** ** State *)

(** The fields of [Server] that never change. *)
Record Server := mkServer {
  serviceVersion : string;
  sv_allowPrivateTargets : bool;
  sv_bodyLimit : Z;
  sv_outputLimit : Z;
  sv_connectTimeout : duration;
  commandTimeout : duration;
  cap_requests : Z;
  webSSH : settings;
}.

Record Options := mkOptions {
  so_KeyID : string;
  so_HMACKey : string;
  so_ServiceVersion : string;
  so_AllowPrivateTargets : bool;
  so_MaxConcurrent : Z;
  so_MaxRequestBodyBytes : Z;
  so_MaxOutputBytes : Z;
  so_ConnectTimeout : duration;
  so_CommandTimeout : duration;
  so_AuthenticationSkew : duration;
  so_MaxTrackedNonces : Z;
  so_WebSSH : WebSSHOptions;
}.

(** What the SSH library is asked to do. *)
Section config.
Context (PublicKey Signer : Type).
Record PTYConfig := mkPTYConfig {
  pc_Address : string;
  pc_Port : Z;
  pc_User : string;
  pc_Auth : Signer;
  pc_PinnedHostKey : PublicKey;
  pc_InitialSize : TerminalSize;
  pc_ConnectTimeout : duration;
  pc_AllowPrivateTargets : bool;
}.
Record RunConfig := mkRunConfig {
  rc_Address : string;
  rc_Port : Z;
  rc_User : string;
  rc_Auth : Signer;
  rc_PinnedHostKey : PublicKey;
  rc_ConnectTimeout : duration;
  rc_CommandTimeout : duration;
  rc_MaxOutputBytes : Z;
  rc_AllowPrivateTargets : bool;
}.

(** History: an authenticated body, an issued ticket with its request, a
    terminal opened by a hello, a command run, a probe, and a credential that was
    decoded into a cell before its request turned out to be invalid JSON. *)
Inductive event :=
| EAuthenticated (body : string)
| EIssued (ticket : string) (payload : WebSSHTicketRequest)
| EOpened (hello : WebSSHHelloMessage) (cfg : PTYConfig)
| ERan (cfg : RunConfig) (command : Command)
| EProbed (address : string) (port : Z) (allowPrivate : bool)
| EAbandoned (l : nat) (c : Credential).
End config.
Arguments mkPTYConfig {PublicKey Signer}.
Arguments mkRunConfig {PublicKey Signer}.
Arguments EAuthenticated {PublicKey Signer}.
Arguments EIssued {PublicKey Signer}.
Arguments EOpened {PublicKey Signer}.
Arguments ERan {PublicKey Signer}.
Arguments EProbed {PublicKey Signer}.
Arguments EAbandoned {PublicKey Signer}.
Arguments pc_Address {PublicKey Signer}.
Arguments pc_Port {PublicKey Signer}.
Arguments pc_User {PublicKey Signer}.
Arguments pc_Auth {PublicKey Signer}.
Arguments pc_PinnedHostKey {PublicKey Signer}.
Arguments pc_InitialSize {PublicKey Signer}.

Record Connector {PublicKey Signer : Type} := mkConnector {
  verifier : Verifier;
  requests : Z;          (* the occupancy of the concurrency channel *)
  manager : webSSHManager;
  memory : Memory;
  log : list (event PublicKey Signer);
}.
Arguments Connector : clear implicits.
Arguments mkConnector {PublicKey Signer}.

Inductive Response :=
| RError (status : Z) (code : string) (retryable : bool)
| RHealth (r : HealthResponse)
| RVersion (r : VersionResponse)
| RSnapshot (r : RuntimeSnapshotResponse)
| RProbe (r : HostKeyProbeResponse)
| RTicket (r : WebSSHTicketResponse)
| RSocket (messages : list server_message) (close : option (Z * string)).

(** What [errors.Is] finds in the error of an action. *)
Record action_error := mkActionError {
  is_Canceled : bool;
  is_DeadlineExceeded : bool;
  is_TargetDenied : bool;
  is_HostKeyRequired : bool;
  is_HostKeyMismatch : bool;
  is_OutputLimit : bool;
}.

Definition writeExecutionError (e : action_error) : Response :=
  if is_Canceled e then RError 408 "request_canceled" true
  else if is_DeadlineExceeded e then RError 504 "execution_timeout" true
  else if is_TargetDenied e then RError 400 "target_denied" false
  else if is_HostKeyRequired e then RError 400 "host_key_required" false
  else if is_HostKeyMismatch e then RError 409 "host_key_mismatch" false
  else if is_OutputLimit e then RError 422 "output_limit" false
  else RError 502 "ssh_action_failed" true.

Definition validateRuntimeRequest (payload : RuntimeSnapshotRequest) : bool :=
  let t := sq_Target payload in
  let c := sq_Credential payload in
  negb ((sq_ProtocolVersion payload ≠? ProtocolVersion) || (trim_space (Address t) =? "") ||
        (253 <? slen (Address t))%Z || (Port t <? 1)%Z || (65535 <? Port t)%Z ||
        (trim_space (User t) =? "") || (64 <? slen (User t))%Z ||
        (slen (sq_PinnedHostKey payload) =? 0)%Z || (16384 <? slen (sq_PinnedHostKey payload))%Z ||
        (slen (PrivateKeyPEM c) =? 0)%Z || (49152 <? slen (PrivateKeyPEM c))%Z || (4096 <? slen (Passphrase c))%Z).

Definition actions (srv : Server) : list string :=
  [ActionRuntimeSnapshot; ActionHostKeyProbe] ++ if enabled (webSSH srv) then [ActionWebSSH] else [].

Record HostKeyObservation := mkObservation {
  ob_Algorithm : string;
  ob_FingerprintSHA256 : string;
  ob_PublicKey : string;
  ob_ResolvedAddress : string;
}.

(** A signal of the [select] of a session; the events of the two goroutines
    are those of TerminalSession. *)
Inductive signal := SInput | SOutput | SWait (r : wait_result) | SContext | STick (since : duration).

(** What the network and the SSH library do during one WebSocket connection:
    whether the upgrade and the reset of its deadlines succeed, the negotiated
    subprotocol, the first message, the clock at its ticket, whether the
    terminal opens and the ready message is written, and the session. *)
Record connection {P : Type} := mkConnection {
  co_accepted : bool;
  co_deadlines : bool;
  co_Subprotocol : string;
  co_first : option (bool * string);
  co_now : time;
  co_opens : bool;
  co_ready : bool;
  co_shell : P;
  co_start : time;
  co_frames : list frame;
  co_reads : list output_read;
  co_signals : list signal;
}.
Arguments connection : clear implicits.
Arguments mkConnection {P}.

(** The clock readings, random bytes and answers of one HTTP request. *)
Record surroundings := mkSurroundings {
  su_auth : time;
  su_now : time;
  su_ticketRandom : option string;
  su_sessionRandom : option string;
  su_run : result action_error SshConnector.Result;
  su_probe : result action_error HostKeyObservation;
}.

(** ** Handlers *)

Section service.
Context (sha256 : string → string) (hmac : string → string → string).
Context (ParseURL : string → option URL) (ToLower : string → string) (ParseAddr : string → option Addr).
(** golang.org/x/crypto/ssh *)
Context {PublicKey Signer : Type} (ParseAuthorizedKey : string → option (PublicKey * string))
  (ParsePrivateKey : string → option Signer) (ParsePrivateKeyWithPassphrase : string → string → option Signer).
(** [decodeStrictJSON] into the request structs.  On an error the struct holds
    what was decoded before, its credential included. *)
Context (decodeSnapshot : string → result Credential RuntimeSnapshotRequest) (decodeProbe : string → option HostKeyProbeRequest)
  (decodeTicket : string → result Credential WebSSHTicketRequest) (decodeHello : string → option WebSSHHelloMessage).
Context `{Decoders} {P : Type} `{Shell P}.
Context (srv : Server).
Abbreviation Connector := (Connector PublicKey Signer).
Implicit Types s : Connector.

Definition New (o : Options) : result string (Server * Connector) :=
  v ← NewVerifier (so_KeyID o) (so_HMACKey o) (so_AuthenticationSkew o) (so_MaxTrackedNonces o);
  let concurrent := or_default (so_MaxConcurrent o) defaultConcurrency in
  require (concurrent <=? 256)%Z else "connector concurrency limit must not exceed 256" ;;
  let body := or_default (so_MaxRequestBodyBytes o) defaultBodyLimit in
  require (body <=? 1048576)%Z else "connector request body limit must not exceed 1 MiB" ;;
  let output := or_default (so_MaxOutputBytes o) defaultOutputLimit in
  require (output <=? 4194304)%Z else "connector output limit must not exceed 4 MiB" ;;
  let connect := or_default (so_ConnectTimeout o) (10 * second) in
  require (connect <=? 30 * second)%Z else "connector connect timeout must not exceed 30 seconds" ;;
  let command := or_default (so_CommandTimeout o) (30 * second) in
  require (command <=? 5 * minute)%Z else "connector command timeout must not exceed five minutes" ;;
  let version := if trim_space (so_ServiceVersion o) =? "" then "dev" else so_ServiceVersion o in
  '(w, m) ← newWebSSHManager ParseURL ToLower (so_WebSSH o);
  Ok (mkServer version (so_AllowPrivateTargets o) body output connect command concurrent w,
      mkConnector v 0 m empty_memory []).

(** One step on a part of the state. *)
Definition note (e : event PublicKey Signer) (s : Connector) : Connector :=
  mkConnector (verifier s) (requests s) (manager s) (memory s) (log s ++ [e]).
Definition set_requests (n : Z) (s : Connector) : Connector :=
  mkConnector (verifier s) n (manager s) (memory s) (log s).
Definition set_tables_memory (m : webSSHManager) (mem : Memory) (s : Connector) : Connector :=
  mkConnector (verifier s) (requests s) m mem (log s).
Definition on_manager {A} (f : webSSHManager → webSSHManager * A) : prog Connector A :=
  act (λ s, let '(m, a) := f (manager s) in (set_tables_memory m (memory s) s, a)).
Definition release (f : webSSHManager → webSSHManager) : prog Connector unit := on_manager (λ m, (f m, tt)).
Definition allocate (c : Credential) : prog Connector nat :=
  act (λ s, let '(mem, l) := alloc c (memory s) in (set_tables_memory (manager s) mem s, l)).
Definition wipe (l : nat) : prog Connector unit :=
  act (λ s, (set_tables_memory (manager s) (wipeCredential l (memory s)) s, tt)).
(** The return on a decoding error comes before the deferred overwriting. *)
Definition abandon (c : Credential) : prog Connector unit :=
  act (λ s, let '(mem, l) := alloc c (memory s) in (note (EAbandoned l c) (set_tables_memory (manager s) mem s), tt)).
Definition record (e : event PublicKey Signer) : prog Connector unit := act (λ s, (note e s, tt)).

Definition authenticateJSON (request : HttpRequest) (now : time) : prog Connector (Response + string) :=
  if negb (bool_decide (hr_mediaType request = Some "application/json")) then
    Ret (inl (RError 415 "invalid_content_type" false))
  else if (sv_bodyLimit srv <? hr_ContentLength request)%Z then Ret (inl (RError 413 "request_too_large" false))
  else match hr_body request with
  | None => Ret (inl (RError 413 "request_too_large" false))
  | Some body =>
    if (sv_bodyLimit srv <? slen body)%Z then Ret (inl (RError 413 "request_too_large" false))
    else act (λ s,
      let '(v, r) := Verify sha256 hmac (verifier s) (hr_request request) body now in
      let s := mkConnector v (requests s) (manager s) (memory s) (log s) in
      match r with
      | Ok _ => (note (EAuthenticated body) s, inr body)
      | Err _ => (s, inl (RError 401 "unauthorized" false))
      end)
  end.

Definition acquire : prog Connector bool :=
  act (λ s, if (requests s <? cap_requests srv)%Z then (set_requests (requests s + 1) s, true) else (s, false)).
Definition release_request : prog Connector unit := act (λ s, (set_requests (requests s - 1) s, tt)).

Definition parse_key (c : Credential) : option Signer := parse_signer ParsePrivateKey ParsePrivateKeyWithPassphrase c.

(** From the validation of the request on; the credential is in cell [p]. *)
Definition run_snapshot (payload : RuntimeSnapshotRequest) (p : nat) (requestID : string) (x : surroundings)
    : prog Connector Response :=
  if negb (validateRuntimeRequest payload) then Ret (RError 400 "invalid_request" false)
  else match ParsePinnedHostKey ParseAuthorizedKey (sq_PinnedHostKey payload) with
  | Err _ => Ret (RError 400 "invalid_host_key" false)
  | Ok pinnedKey =>
    credential ← ask (λ s, read (memory s) p);
    match parse_key credential with
    | None => Ret (RError 400 "invalid_credential" false)
    | Some signer =>
      let t := sq_Target payload in
      _ ← record (ERan (mkRunConfig (Address t) (Port t) (User t) signer pinnedKey (sv_connectTimeout srv)
                          (commandTimeout srv) (sv_outputLimit srv) (sv_allowPrivateTargets srv)) RuntimeSnapshotCommand);
      Ret match su_run x with
          | Err e => writeExecutionError e
          | Ok r => RSnapshot (mkSnapshotResponse ProtocolVersion requestID ActionRuntimeSnapshot
              (mkExecutionResult (r_Stdout r) (r_Stderr r) (r_ExitCode r) (DurationMillis (r_Duration r))))
          end
    end
  end.

Definition handleRuntimeSnapshot (request : HttpRequest) (requestID : string) (x : surroundings)
    : prog Connector Response :=
  authenticated ← authenticateJSON request (su_auth x);
  match authenticated with
  | inl e => Ret e
  | inr body =>
    acquired ← acquire;
    if negb acquired then Ret (RError 429 "concurrency_limit" true)
    else
      response ← (match decodeSnapshot body with
                  | Err c => _ ← abandon c; Ret (RError 400 "invalid_json" false)
                  | Ok payload =>
                    p ← allocate (sq_Credential payload);
                    response ← run_snapshot payload p requestID x;
                    _ ← wipe p;
                    Ret response
                  end);
      _ ← release_request;
      Ret response
  end.

Definition handleHostKeyProbe (request : HttpRequest) (requestID : string) (x : surroundings)
    : prog Connector Response :=
  authenticated ← authenticateJSON request (su_auth x);
  match authenticated with
  | inl e => Ret e
  | inr body =>
    acquired ← acquire;
    if negb acquired then Ret (RError 429 "concurrency_limit" true)
    else
      response ← (match decodeProbe body with
                  | None => Ret (RError 400 "invalid_json" false)
                  | Some payload =>
                    let t := hq_Target payload in
                    if (hq_ProtocolVersion payload ≠? ProtocolVersion) || (trim_space (pt_Address t) =? "") ||
                       (253 <? slen (pt_Address t))%Z || (pt_Port t <? 1)%Z || (65535 <? pt_Port t)%Z
                    then Ret (RError 400 "invalid_request" false)
                    else
                      _ ← record (EProbed (pt_Address t) (pt_Port t) (sv_allowPrivateTargets srv));
                      Ret match su_probe x with
                          | Err e => writeExecutionError e
                          | Ok r => RProbe (mkProbeResponse ProtocolVersion requestID ActionHostKeyProbe (ob_Algorithm r)
                                      (ob_FingerprintSHA256 r) (ob_PublicKey r) (ob_ResolvedAddress r))
                          end
                  end);
      _ ← release_request;
      Ret response
  end.

(** ** Terminal tickets *)

Definition cfg : settings := webSSH srv.

(** [createTicket] on the state; the history keeps the ticket it returned. *)
Definition create_ticket (payload : WebSSHTicketRequest) (p : nat) (requestID : string) (x : surroundings)
    : prog Connector (result string WebSSHTicketResponse) :=
  act (λ s,
    let '(m, mem, r) := createTicket sha256 cfg (manager s) (memory s) payload p requestID (su_now x)
                          (su_ticketRandom x) (su_sessionRandom x) in
    let s := set_tables_memory m mem s in
    match r with Ok response => (note (EIssued (ts_Ticket response) payload) s, r) | Err _ => (s, r) end).

Definition issue_ticket (payload : WebSSHTicketRequest) (p : nat) (requestID : string) (x : surroundings)
    : prog Connector Response :=
  if negb (validateWebSSHTicketRequest ParseAddr ParseAuthorizedKey ParsePrivateKey ParsePrivateKeyWithPassphrase payload
             (allowPrivateTargets cfg)) then Ret (RError 400 "invalid_webssh_ticket" false)
  else
    created ← create_ticket payload p requestID x;
    Ret match created with
        | Err _ => RError 429 "ticket_capacity" true
        | Ok response => RTicket response
        end.

Definition handleWebSSHTicket (request : HttpRequest) (requestID : string) (x : surroundings)
    : prog Connector Response :=
  if negb (enabled cfg) then Ret (RError 503 "webssh_disabled" false)
  else
    authenticated ← authenticateJSON request (su_auth x);
    match authenticated with
    | inl e => Ret e
    | inr body =>
      match decodeTicket body with
      | Err c => _ ← abandon c; Ret (RError 400 "invalid_json" false)
      | Ok payload =>
        p ← allocate (tr_Credential payload);
        response ← issue_ticket payload p requestID x;
        _ ← wipe p;
        Ret response
      end
    end.

(** ** WebSocket connections *)

(** The cases of the [select] that become ready, with the events of
    [readClient] and [writeOutput]. *)
Definition ready_cases (c : connection P) : list ready :=
  co_signals c ≫= λ g,
    match g with
    | SInput => [InputReady (readClient cfg (co_shell c) (co_start c) (co_frames c)).2]
    | SOutput => match (writeOutput cfg (co_start c) (co_reads c)).2 with Some e => [OutputReady e] | None => [] end
    | SWait r => [WaitReady r]
    | SContext => [ContextDone]
    | STick since => [IdleTick since]
    end.

(** The context of the session always ends, at the latest by its timeout. *)
Fixpoint session_loop (cases : list ready) : prog Connector (list server_message * option (Z * string)) :=
  shutdown ← ask (λ s, cancelled (manager s));
  match cases with
  | [] => Ret (default ([], None) (select_case cfg shutdown ContextDone))
  | r :: rest =>
    match select_case cfg shutdown r with
    | Some final => Ret final
    | None => session_loop rest
    end
  end.

Definition socket_error (code message : string) (retryable : bool) (close : option (Z * string)) : Response :=
  RSocket [error_message code message retryable] close.

(** From the host key on, with a session slot. *)
Definition open_session (c : connection P) (hello : WebSSHHelloMessage) (ticket : webSSHTicket) : prog Connector Response :=
  match ParsePinnedHostKey ParseAuthorizedKey (pinnedHostKey ticket) with
  | Err _ => Ret (socket_error "invalid_host_key" "pinned host key is invalid" false None)
  | Ok pinned =>
    key ← ask (λ s, read (memory s) (credential ticket));
    match parse_key key with
    | None => Ret (socket_error "invalid_credential" "SSH private key could not be parsed" false None)
    | Some signer =>
      let t := target ticket in
      _ ← record (EOpened hello (mkPTYConfig (Address t) (Port t) (User t) signer pinned (initialSize ticket)
                    (connectTimeout cfg) (allowPrivateTargets cfg)));
      _ ← wipe (credential ticket);
      if negb (co_opens c) then
        Ret (socket_error "ssh_connect_failed" "web SSH connection failed" true (Some (1011, "SSH connection failed")))
      else if negb (co_ready c) then Ret (RSocket [] None)
      else
        final ← session_loop (ready_cases c);
        Ret (RSocket (MReady (mkReady WebSSHMessageReady (sessionID ticket) (initialSize ticket)) :: final.1) final.2)
    end
  end.

Definition with_ticket (c : connection P) (hello : WebSSHHelloMessage) (ticket : webSSHTicket) : prog Connector Response :=
  acquired ← on_manager (acquire_session cfg);
  if negb acquired then
    Ret (socket_error "session_capacity" "web SSH session capacity reached" true (Some (1013, "session capacity")))
  else
    response ← open_session c hello ticket;
    _ ← release release_session;
    Ret response.

Definition consume_ticket (hello : WebSSHHelloMessage) (now : time) : prog Connector (webSSHTicket + string) :=
  act (λ s,
    let '(m, mem, r) := consumeTicket sha256 cfg (manager s) (memory s) hello now in (set_tables_memory m mem s, r)).

Definition serveConnection (c : connection P) : prog Connector Response :=
  match co_first c with
  | None => Ret (RSocket [] None)
  | Some (text, body) =>
    if negb text then
      Ret (socket_error "invalid_hello" "first WebSocket message must be a JSON hello" false (Some (1008, "invalid hello")))
    else match decodeHello body with
    | None =>
      Ret (socket_error "invalid_hello" "first WebSocket message must be a valid hello" false (Some (1008, "invalid hello")))
    | Some hello =>
      if wh_Type hello ≠? WebSSHMessageHello then
        Ret (socket_error "invalid_hello" "first WebSocket message must be a valid hello" false (Some (1008, "invalid hello")))
      else
        consumed ← consume_ticket hello (co_now c);
        match consumed with
        | inr consumeCode =>
          Ret (socket_error consumeCode "web SSH ticket is invalid or unavailable" false (Some (1008, "invalid ticket")))
        | inl ticket =>
          response ← with_ticket c hello ticket;
          _ ← wipe (credential ticket);
          Ret response
        end
    end
  end.

(** With a connection slot. *)
Definition upgrade (c : connection P) : prog Connector Response :=
  if negb (co_accepted c) then Ret (RSocket [] None)
  else if negb (co_deadlines c) then
    Ret (socket_error "transport_deadline_error" "could not initialize WebSocket transport" true
           (Some (1011, "transport initialization failed")))
  else if co_Subprotocol c ≠? WebSSHSubprotocol then
    Ret (socket_error "subprotocol_required" "required WebSocket subprotocol was not negotiated" false
           (Some (1008, "subprotocol required")))
  else
    begun ← on_manager beginSession;
    if negb begun then
      Ret (socket_error "connector_shutdown" "Connector is shutting down" true (Some (1001, "Connector shutdown")))
    else
      response ← serveConnection c;
      _ ← release wait_Done;
      Ret response.

Definition handleWebSSHConnect (request : HttpRequest) (c : connection P) : prog Connector Response :=
  if negb (enabled cfg) then Ret (RError 503 "webssh_disabled" false)
  else if negb (originAllowed ParseURL ToLower (origins cfg) (default [] (Header (hr_request request) !! "Origin"))) then
    Ret (RError 403 "origin_denied" false)
  else
    acquired ← on_manager (acquire_connection cfg);
    if negb acquired then Ret (RError 429 "websocket_capacity" true)
    else
      response ← upgrade c;
      _ ← release release_connection;
      Ret response.

(** ** Routing *)

Definition ServeHTTP (request : HttpRequest) (requestID : string) (x : surroundings) (c : connection P)
    : prog Connector Response :=
  let post k := if Method (hr_request request) ≠? "POST" then Ret (RError 405 "method_not_allowed" false) else k in
  let get k := if Method (hr_request request) ≠? "GET" then Ret (RError 405 "method_not_allowed" false) else k in
  let path := hr_Path request in
  if hr_RawQuery request ≠? "" then Ret (RError 400 "query_not_allowed" false)
  else if path =? HealthPath then get (Ret (RHealth (mkHealth "ok" ProtocolVersion)))
  else if path =? VersionPath then get (Ret (RVersion (mkVersion (serviceVersion srv) ProtocolVersion (actions srv))))
  else if path =? RuntimeSnapshotPath then post (handleRuntimeSnapshot request requestID x)
  else if path =? HostKeyProbePath then post (handleHostKeyProbe request requestID x)
  else if path =? WebSSHTicketPath then post (handleWebSSHTicket request requestID x)
  else if path =? WebSSHConnectPath then get (handleWebSSHConnect request c)
  else Ret (RError 404 "not_found" false).

(** [Close]: the tables, then the context; waiting for the handlers is the
    condition [wait (manager s) = 0]. *)
Definition Close : prog Connector unit :=
  if negb (enabled cfg) then Ret tt
  else
    already ← act (λ s, let '(m, mem) := close_tables (manager s) (memory s) in
                        (set_tables_memory m mem s, closed (manager s)));
    if already : bool then Ret tt else release cancel.

(** ** The running service *)

(** What may be started: requests, and the shutdown. *)
Definition startable (_ : Connector) (p : prog Connector unit) : Prop :=
  p = Close ∨ ∃ request requestID x c, p = (ServeHTTP request requestID x c ≫= λ _, Ret tt).

(** The goroutine of [pruneLoop]. *)
Inductive pruner : Connector → Connector → Prop :=
| pruner_tick s now m mem :
    prune_tick (manager s) (memory s) now = (m, mem) → pruner s (set_tables_memory m mem s)
| pruner_exit s : pruner s (set_tables_memory (prune_exit (manager s)) (memory s) s).

Definition service_step := pool_step startable pruner.
End service.
