(* ===== verification/ConnectorSystem.v ===== *)
(** * The Connector under any interleaving

    The handlers of ConnectorService run in a pool with the pruning goroutine.
    Each of them owns resources: slots of the channels, a count of the wait
    group, the cells of the credentials it works with, the right to open one
    terminal.  The invariant [inv] says that in every reachable state the slots
    in use are those owned, that a credential that was not wiped is owned or
    waits in the ticket table, and what the history of the service may
    contain. *)

From S2P Require Import Prelude GoStrings Encoding Url Credentials ConnectorAuth Protocol Runbook Ledger RunbookHandler.
From S2P Require Import SshConnector ConnectorWebSSH RateLimit TerminalSession Prog ConnectorService.

Section system.
Context (sha256 : string → string) (ParseAddr : string → option Addr).
Context {PublicKey Signer : Type} (ParseAuthorizedKey : string → option (PublicKey * string))
  (ParsePrivateKey : string → option Signer) (ParsePrivateKeyWithPassphrase : string → string → option Signer).
Context (decodeSnapshot : string → result Credential RuntimeSnapshotRequest) (decodeProbe : string → option HostKeyProbeRequest)
  (decodeTicket : string → result Credential WebSSHTicketRequest).
Context (srv : Server).
Abbreviation Connector := (ConnectorService.Connector PublicKey Signer).
Abbreviation event := (ConnectorService.event PublicKey Signer).
Implicit Types s : Connector.

(** ** Resources *)

Inductive resource :=
| RequestSlot | ConnectionSlot | SessionSlot | Waiting
| Secret (l : nat) (c : Credential)
| Right (hash : string) (t : webSSHTicket) (payload : WebSSHTicketRequest)
| Authentic (body : string).

(** How many of a kind. *)
Definition is_request x := match x with RequestSlot => true | _ => false end.
Definition is_connection x := match x with ConnectionSlot => true | _ => false end.
Definition is_session x := match x with SessionSlot => true | _ => false end.
Definition is_waiting x := match x with Waiting => true | _ => false end.
Definition is_right (h : string) x := match x with Right h' _ _ => h' =? h | _ => false end.
Definition locations (r : list resource) : list nat := r ≫= λ x, match x with Secret l _ => [l] | _ => [] end.

(** ** The history *)

Definition digest_is (value h : string) : bool := bool_decide (ticket_digest sha256 value = Some h).
Definition issues (h : string) (l : list event) : Z :=
  Z.of_nat (length (List.filter (λ e, match e with EIssued v _ => digest_is v h | _ => false end) l)).
Definition openings (h : string) (l : list event) : Z :=
  Z.of_nat (length (List.filter (λ e, match e with EOpened hello _ => digest_is (wh_Ticket hello) h | _ => false end) l)).

(** A ticket of the table and the request it was issued for. *)
Definition issued_as (l : list event) (h : string) (t : webSSHTicket) (payload : WebSSHTicketRequest) : Prop :=
  ∃ v, EIssued v payload ∈ l ∧ ticket_digest sha256 v = Some h ∧ binding t = tr_Binding payload ∧
    target t = tr_Target payload ∧ pinnedHostKey t = tr_PinnedHostKey payload ∧ initialSize t = tr_InitialSize payload.

Definition valid_request (payload : WebSSHTicketRequest) : Prop :=
  validateWebSSHTicketRequest ParseAddr ParseAuthorizedKey ParsePrivateKey ParsePrivateKeyWithPassphrase payload
    (allowPrivateTargets (cfg srv)) = true.

(** What each event of the history rests on. *)
Definition justified (l : list event) (e : event) : Prop :=
  match e with
  | EAuthenticated _ => True
  | EIssued v payload =>
    valid_request payload ∧ ∃ body, EAuthenticated body ∈ l ∧ decodeTicket body = Ok payload
  | EOpened hello cf =>
    ∃ v payload signer pinned, EIssued v payload ∈ l ∧ ticket_digest sha256 v = ticket_digest sha256 (wh_Ticket hello) ∧
      is_Some (ticket_digest sha256 v) ∧ wh_Binding hello = tr_Binding payload ∧
      parse_key ParsePrivateKey ParsePrivateKeyWithPassphrase (tr_Credential payload) = Some signer ∧
      ParsePinnedHostKey ParseAuthorizedKey (tr_PinnedHostKey payload) = Ok pinned ∧
      cf = mkPTYConfig (Address (tr_Target payload)) (Port (tr_Target payload)) (User (tr_Target payload)) signer pinned
             (tr_InitialSize payload) (connectTimeout (cfg srv)) (allowPrivateTargets (cfg srv))
  | ERan rc command =>
    ∃ body payload signer pinned, EAuthenticated body ∈ l ∧ decodeSnapshot body = Ok payload ∧
      parse_key ParsePrivateKey ParsePrivateKeyWithPassphrase (sq_Credential payload) = Some signer ∧
      ParsePinnedHostKey ParseAuthorizedKey (sq_PinnedHostKey payload) = Ok pinned ∧
      command = RuntimeSnapshotCommand ∧
      rc = mkRunConfig (Address (sq_Target payload)) (Port (sq_Target payload)) (User (sq_Target payload)) signer pinned
             (sv_connectTimeout srv) (commandTimeout srv) (sv_outputLimit srv) (sv_allowPrivateTargets srv)
  | EProbed address port allow =>
    ∃ body payload, EAuthenticated body ∈ l ∧ decodeProbe body = Some payload ∧
      hq_Target payload = mkProbeTarget address port ∧ allow = sv_allowPrivateTargets srv
  | EAbandoned _ c => ∃ body, EAuthenticated body ∈ l ∧ (decodeTicket body = Err c ∨ decodeSnapshot body = Err c)
  end.

(** ** The invariant *)

Record slots_ok (r : list resource) s : Prop := {
  ok_requests : requests s = count is_request r;
  ok_connections : connections (manager s) = count is_connection r;
  ok_sessions : concurrency (manager s) = count is_session r;
  ok_wait : wait (manager s) = count is_waiting r + if pruning (manager s) then 1 else 0;
  ok_request_cap : requests s ≤ Z.max 0 (cap_requests srv);
  ok_connection_cap : connections (manager s) ≤ Z.max 0 (cap_connections (cfg srv));
  ok_session_cap : concurrency (manager s) ≤ Z.max 0 (cap_concurrency (cfg srv));
}.

Record memory_ok (r : list resource) s : Prop := {
  ok_distinct : NoDup (locations r);
  ok_fresh : ∀ l, is_Some (cells (memory s) !! l) → (l < next (memory s))%nat;
  ok_secret : ∀ l c, Secret l c ∈ r → cells (memory s) !! l = Some c;
  ok_disjoint : ∀ h t, tickets (manager s) !! h = Some t → credential t ∉ locations r;
  ok_shared : ∀ h t h' t', tickets (manager s) !! h = Some t → tickets (manager s) !! h' = Some t' →
    credential t = credential t' → h = h';
  ok_live : ∀ l c, cells (memory s) !! l = Some c → c ≠ wiped →
    l ∈ locations r ∨ (∃ h t, tickets (manager s) !! h = Some t ∧ credential t = l) ∨ EAbandoned l c ∈ log s;
}.

Record history_ok (r : list resource) s : Prop := {
  ok_tickets : ∀ h t, tickets (manager s) !! h = Some t →
    ∃ payload, issued_as (log s) h t payload ∧ cells (memory s) !! credential t = Some (tr_Credential payload);
  ok_rights : ∀ h t payload, Right h t payload ∈ r → issued_as (log s) h t payload;
  ok_authentic : ∀ body, Authentic body ∈ r → EAuthenticated body ∈ log s;
  ok_justified : Forall (justified (log s)) (log s);
  ok_once : ∀ h, openings h (log s) + count (is_right h) r +
    (if bool_decide (is_Some (tickets (manager s) !! h)) then 1 else 0) ≤ issues h (log s);
}.

Record tables_ok s : Prop := {
  ok_size : len (tickets (manager s)) ≤ Z.max 0 (maxTickets (cfg srv));
  ok_total : len (tickets (manager s)) + len (consumed (manager s)) ≤
    Z.max 0 (maxTickets (cfg srv)) + Z.max 0 (maxConsumed (cfg srv));
  ok_closed : closed (manager s) = true → tickets (manager s) = ∅;
}.

Record inv (r : list resource) s : Prop := {
  inv_slots : slots_ok r s;
  inv_memory : memory_ok r s;
  inv_history : history_ok r s;
  inv_tables : tables_ok s;
}.

(** *** Resources do not depend on their order *)


#[local] Instance locations_perm : Proper ((≡ₚ) ==> (≡ₚ)) locations.
Proof. intros r r' E. unfold locations. by rewrite E. Qed.

Lemma inv_perm r r' s : r ≡ₚ r' → inv r s → inv r' s.
Proof.
  intros E [[] [] [] Ht]. constructor; [constructor|constructor|constructor|done]; try (rewrite <-?E; done).
  - intros l c. rewrite <-E. auto.
  - intros h t Hl. rewrite <-E. eauto.
  - intros l c Hc Hw. rewrite <-E. eauto.
  - intros h t payload. rewrite <-E. auto.
  - intros body. rewrite <-E. auto.
  - intros h. rewrite <-E. auto.
Qed.

(** *** The history grows *)

Lemma issued_as_mono l l' h t payload : l ⊆ l' → issued_as l h t payload → issued_as l' h t payload.
Proof. intros Hl (v & Hv & ?). exists v. split; [by apply Hl|done]. Qed.

Lemma justified_mono l l' e : l ⊆ l' → justified l e → justified l' e.
Proof.
  intros Hl. destruct e; cbn; [done|..].
  - intros [Hv (body & Hb & Hd)]. eauto 10.
  - intros (v & payload & signer & pinned & Hv & ?). exists v, payload, signer, pinned. split; [by apply Hl|done].
  - intros (body & payload & signer & pinned & Hb & ?). exists body, payload, signer, pinned. split; [by apply Hl|done].
  - intros (body & payload & Hb & ?). exists body, payload. split; [by apply Hl|done].
  - intros (body & Hb & ?). exists body. split; [by apply Hl|done].
Qed.

Lemma issues_app h l l' : issues h (l ++ l') = issues h l + issues h l'.
Proof. unfold issues. by rewrite List.filter_app, length_app, Nat2Z.inj_add. Qed.
Lemma openings_app h l l' : openings h (l ++ l') = openings h l + openings h l'.
Proof. unfold openings. by rewrite List.filter_app, length_app, Nat2Z.inj_add. Qed.

(** An event that changes nothing but the history. *)
Lemma note_inv r r' s e :
  inv r s → slots_ok r' s → memory_ok r' s → justified (log s ++ [e]) e →
  (∀ h t payload, Right h t payload ∈ r' → Right h t payload ∈ r) →
  (∀ body, Authentic body ∈ r' → Authentic body ∈ r ∨ e = EAuthenticated body) →
  (∀ h, openings h [e] + count (is_right h) r' ≤ issues h [e] + count (is_right h) r) →
  inv r' (note e s).
Proof.
  intros [_ _ Hh Ht] Hs Hm Hj Hr Ha Hc. assert (log s ⊆ log s ++ [e]) as Hl by set_solver.
  constructor; [by destruct Hs| | |by destruct Ht].
  { destruct Hm as [? ? ? ? ? Hli]. constructor; try done. intros l c Hcell Hw. destruct (Hli l c Hcell Hw) as [?|[?|?]]; [by left|by right; left|].
    right; right. by apply Hl. }
  destruct Hh as [Htk Hri Hau Hju Hon]. constructor; cbn.
  - intros h t Hlk. destruct (Htk h t Hlk) as (payload & ? & ?). eauto using issued_as_mono.
  - intros h t payload Hin. eauto using issued_as_mono.
  - intros body [Hin| ->]%Ha; [apply Hl; eauto|set_solver].
  - apply Forall_app. split; [|by constructor]. eapply Forall_impl; [exact Hju|]. eauto using justified_mono.
  - intros h. rewrite issues_app, openings_app. specialize (Hon h). specialize (Hc h). lia.
Qed.

(** *** Knowledge and rights may be dropped *)

Lemma inv_drop x r s :
  (match x with Right _ _ _ | Authentic _ => True | _ => False end) → inv (x :: r) s → inv r s.
Proof.
  intros Hx [Hs Hm Hh Ht].
  assert (locations (x :: r) = locations r) as El by (by destruct x).
  constructor; [| | |done].
  - destruct Hs as [H1 H2 H3 H4 ? ? ?]. constructor; try done; [rewrite H1|rewrite H2|rewrite H3|rewrite H4];
      rewrite count_cons; by destruct x.
  - destruct Hm. rewrite El in *. constructor; try done; set_solver.
  - destruct Hh as [? ? ? ? Hon]. constructor; [done|set_solver|set_solver|done|].
    intros h. specialize (Hon h). rewrite count_cons in Hon. destruct (is_right h x); lia.
Qed.

(** *** Cells *)

(** The slots and the tables do not see the memory. *)
Lemma memory_step r r' s mem :
  inv r s → (∀ p, p ∈ [is_request; is_connection; is_session; is_waiting] → count p r' = count p r) →
  (∀ h, count (is_right h) r' = count (is_right h) r) →
  (∀ h t payload, Right h t payload ∈ r' → Right h t payload ∈ r) → (∀ body, Authentic body ∈ r' → Authentic body ∈ r) →
  (∀ h t, tickets (manager s) !! h = Some t → cells mem !! credential t = cells (memory s) !! credential t) →
  memory_ok r' (set_tables_memory (manager s) mem s) → inv r' (set_tables_memory (manager s) mem s).
Proof.
  intros [Hs _ Hh Ht] Hc Hcr Hr Ha Hcells Hm. constructor; [|done| |by destruct Ht].
  - destruct Hs. constructor; cbn; try done; rewrite Hc by set_solver; done.
  - destruct Hh as [Htk Hri Hau Hju Hon]. constructor; [|by eauto..|by intros h; rewrite Hcr; apply Hon].
    intros h t Hl. destruct (Htk h t Hl) as (payload & ? & ?). exists payload. split; [done|]. cbn. by rewrite (Hcells h t Hl).
Qed.

Lemma count_secret p l c r :
  p ∈ [is_request; is_connection; is_session; is_waiting] → count p (Secret l c :: r) = count p r.
Proof. intros Hp. rewrite count_cons. replace (p (Secret l c)) with false; [done|]. set_unfold. naive_solver. Qed.

Lemma alloc_inv r s c :
  inv r s → inv (Secret (next (memory s)) c :: r) (set_tables_memory (manager s) (alloc c (memory s)).1 s).
Proof.
  intros Hi. pose proof (inv_memory _ _ Hi) as [Hd Hf Hse Hdis Hsh Hli].
  assert (cells (memory s) !! next (memory s) = None) as Hnone.
  { apply eq_None_not_Some. intros HS%Hf. lia. }
  assert (next (memory s) ∉ locations r) as Hnew.
  { intros Hin. unfold locations in Hin. apply list_elem_of_bind in Hin as (x & Hx & Hin). destruct x; try by apply elem_of_nil in Hx.
    apply list_elem_of_singleton in Hx as <-. apply Hse in Hin. congruence. }
  assert (∀ h t, tickets (manager s) !! h = Some t → credential t ≠ next (memory s)) as Htn.
  { intros h t Hl E. destruct (ok_tickets _ _ (inv_history _ _ Hi) h t Hl) as (payload & _ & Hc). rewrite E in Hc. congruence. }
  eapply memory_step; [exact Hi| | | | | |].
  - intros p Hp. by rewrite count_secret.
  - intros h. by rewrite count_cons.
  - set_solver.
  - set_solver.
  - intros h t Hl. cbn. rewrite lookup_insert_ne; [done|]. intros E. by eapply Htn.
  - constructor; cbn.
    + constructor; [exact Hnew|done].
    + intros l. rewrite lookup_insert. case_decide; [intros _; lia|]. intros HS%Hf. lia.
    + intros l c'. rewrite elem_of_cons. intros [[= -> ->]|Hin]; [by rewrite lookup_insert_eq|].
      rewrite lookup_insert_ne; [by apply Hse|]. intros <-. apply Hnew. unfold locations. apply list_elem_of_bind.
      exists (Secret (next (memory s)) c'). split; [by apply list_elem_of_singleton|done].
    + intros h t Hl. change (credential t ∉ next (memory s) :: locations r). apply not_elem_of_cons. split; [by eapply Htn|by eapply Hdis].
    + exact Hsh.
    + intros l c'. rewrite lookup_insert. case_decide as E; [subst; left; apply elem_of_cons; by left|].
      intros Hc Hw. destruct (Hli l c' Hc Hw) as [Hin|?]; [left; apply elem_of_cons; by right|by right].
Qed.

Lemma secret_other r s l c l' c' : inv (Secret l c :: r) s → Secret l' c' ∈ r → l' ≠ l.
Proof.
  intros Hi Hin ->. pose proof (ok_distinct _ _ (inv_memory _ _ Hi)) as Hd. change (NoDup (l :: locations r)) in Hd.
  apply NoDup_cons in Hd as [Hnew _]. apply Hnew, list_elem_of_bind. exists (Secret l c').
  split; [by apply list_elem_of_singleton|done].
Qed.

Lemma secret_not_ticket r s l c h t :
  inv (Secret l c :: r) s → tickets (manager s) !! h = Some t → credential t ≠ l ∧ credential t ∉ locations r.
Proof.
  intros Hi Hl. pose proof (ok_disjoint _ _ (inv_memory _ _ Hi) h t Hl) as Hdis.
  change (credential t ∉ l :: locations r) in Hdis. by apply not_elem_of_cons in Hdis.
Qed.

(** An owned cell may be overwritten, *)
Lemma wipe_inv r s l c :
  inv (Secret l c :: r) s → inv (Secret l wiped :: r) (set_tables_memory (manager s) (wipeCredential l (memory s)) s).
Proof.
  intros Hi. pose proof (inv_memory _ _ Hi) as [Hd Hf Hse Hdis Hsh Hli].
  eapply memory_step; [exact Hi| | | | | |].
  - intros p Hp. rewrite !count_secret; done.
  - intros h. by rewrite !count_cons.
  - intros h t payload. rewrite !elem_of_cons. naive_solver.
  - intros body. rewrite !elem_of_cons. naive_solver.
  - intros h t Hl. cbn. rewrite lookup_insert_ne; [done|]. intros E. by destruct (secret_not_ticket _ _ _ _ _ _ Hi Hl).
  - constructor; cbn [memory manager cells next set_tables_memory wipeCredential].
    + exact Hd.
    + intros l'. rewrite lookup_insert. case_decide; [subst; intros _; apply Hf|apply Hf].
      rewrite (Hse l' c); [done|]. apply elem_of_cons. by left.
    + intros l' c'. rewrite elem_of_cons. intros [[= -> ->]|Hin]; [by rewrite lookup_insert_eq|].
      rewrite lookup_insert_ne; [apply Hse; apply elem_of_cons; by right|]. intros <-. by eapply secret_other.
    + exact Hdis.
    + exact Hsh.
    + intros l' c'. rewrite lookup_insert. case_decide; [intros [= <-]; done|]. apply Hli.
Qed.

(** and forgotten when it is. *)
Lemma forget_inv r s l : inv (Secret l wiped :: r) s → inv r s.
Proof.
  intros Hi. pose proof (inv_memory _ _ Hi) as [Hd Hf Hse Hdis Hsh Hli].
  assert (s = set_tables_memory (manager s) (memory s) s) as -> by (by destruct s).
  eapply memory_step; [exact Hi| | | | |done|].
  - intros p Hp. by rewrite !count_secret.
  - intros h. by rewrite !count_cons.
  - intros h t payload. rewrite !elem_of_cons. naive_solver.
  - intros body. rewrite !elem_of_cons. naive_solver.
  - constructor; cbn [memory manager set_tables_memory].
    + change (NoDup (l :: locations r)) in Hd. by apply NoDup_cons in Hd as [_ ?].
    + exact Hf.
    + intros l' c' Hin. apply Hse, elem_of_cons. by right.
    + intros h t Hl. by destruct (secret_not_ticket _ _ _ _ _ _ Hi Hl).
    + exact Hsh.
    + intros l' c' Hc Hw. destruct (Hli l' c' Hc Hw) as [Hin|?]; [|by right]. change (l' ∈ l :: locations r) in Hin.
      apply elem_of_cons in Hin as [->|Hin]; [|by left]. rewrite (Hse l wiped) in Hc by (apply elem_of_cons; by left). congruence.
Qed.

(** *** The ticket table *)

(** The counters of the manager that the slots see. *)
Definition same_counters (m m' : webSSHManager) : Prop :=
  concurrency m' = concurrency m ∧ connections m' = connections m ∧ wait m' = wait m ∧ pruning m' = pruning m.

Lemma slots_counters r s m' mem' :
  same_counters (manager s) m' → slots_ok r s → slots_ok r (set_tables_memory m' mem' s).
Proof. intros (E1 & E2 & E3 & E4) []. constructor; cbn; rewrite ?E1, ?E2, ?E3, ?E4; done. Qed.

(** Tickets leave the table, and their credentials are wiped. *)
Lemma discard_inv r s m' keep :
  inv r s → same_counters (manager s) m' → tickets m' = prune keep (tickets (manager s)) →
  len (consumed m') ≤ len (consumed (manager s)) → (closed m' = true → closed (manager s) = true ∨ tickets m' = ∅) →
  inv r (set_tables_memory m' (wipe_dropped keep (map_to_list (tickets (manager s))) (memory s)) s).
Proof.
  intros [Hs [Hd Hf Hse Hdis Hsh Hli] [Htk Hri Hau Hju Hon] [Hsz Htot Hcl]] Hsame Et Hcons Hclosed.
  set (mem' := wipe_dropped keep (map_to_list (tickets (manager s))) (memory s)).
  assert (∀ l, l ∈ locations r → cells mem' !! l = cells (memory s) !! l) as Hown.
  { intros l Hin. destruct (wipe_dropped_lookup keep (map_to_list (tickets (manager s))) (memory s) l) as [[([h t] & Hkt & _ & <-) _]|[_ ?]]; [|done].
    apply elem_of_map_to_list in Hkt. by destruct (Hdis h t Hkt). }
  assert (∀ h t, tickets m' !! h = Some t → tickets (manager s) !! h = Some t ∧ cells mem' !! credential t = cells (memory s) !! credential t) as Hkept.
  { intros h t Hl. rewrite Et in Hl. apply prune_lookup_Some in Hl as [Hl Hk]. split; [done|].
    destruct (wipe_dropped_lookup keep (map_to_list (tickets (manager s))) (memory s) (credential t)) as [[([h' t'] & Hkt & Hk' & Ec) _]|[_ ?]]; [|done].
    apply elem_of_map_to_list in Hkt. assert (h' = h) as -> by eauto. cbn in *. congruence. }
  assert (len (tickets m') ≤ len (tickets (manager s))) as Hlen by (rewrite Et; apply len_prune_le).
  constructor.
  - by apply slots_counters.
  - constructor; cbn [memory manager set_tables_memory]; fold mem'.
    + exact Hd.
    + intros l. unfold mem'. rewrite wipe_dropped_next. intros HS. apply Hf.
      destruct (wipe_dropped_lookup keep (map_to_list (tickets (manager s))) (memory s) l) as [[([h t] & Hkt & _ & <-) _]|[_ E]]; [|by rewrite <-E].
      apply elem_of_map_to_list in Hkt. destruct (Htk h t Hkt) as (payload & _ & Hc). cbn. by rewrite Hc.
    + intros l c Hin. rewrite Hown; [by apply Hse|]. apply list_elem_of_bind. exists (Secret l c). split; [by apply list_elem_of_singleton|done].
    + intros h t [Hl _]%Hkept. eauto.
    + intros h t h' t' [Hl _]%Hkept [Hl' _]%Hkept. eauto.
    + intros l c Hc Hw. unfold mem' in Hc.
      destruct (wipe_dropped_lookup keep (map_to_list (tickets (manager s))) (memory s) l) as [[_ E]|[Hk E]]; [congruence|].
      rewrite E in Hc. destruct (Hli l c Hc Hw) as [?|[(h & t & Hl & <-)|?]]; [by left| |by right; right]. right; left. exists h, t. split; [|done].
      rewrite Et. apply prune_lookup_Some. split; [done|]. apply (Hk (h, t)); [by apply elem_of_map_to_list|done].
  - constructor; cbn [memory manager log set_tables_memory]; fold mem'; [| done..|].
    + intros h t [Hl E]%Hkept. destruct (Htk h t Hl) as (payload & ? & ?). exists payload. by rewrite E.
    + intros h. etrans; [|apply (Hon h)]. apply Z.add_le_mono_l. destruct (tickets m' !! h) as [t|] eqn:E.
      * apply Hkept in E as [E _]. by rewrite E.
      * rewrite bool_decide_false by (by intros []). by case_bool_decide.
  - constructor; cbn [manager set_tables_memory]; [lia|lia|]. intros Hc%Hclosed. destruct Hc as [Hc|?]; [|done].
    apply map_eq. intros h. rewrite lookup_empty. destruct (tickets m' !! h) eqn:E; [|done]. apply Hkept in E as [E _].
    rewrite (Hcl Hc) in E. by rewrite lookup_empty in E.
Qed.

Lemma prune_inv r s now :
  inv r s → inv r (set_tables_memory (pruneLocked (manager s) (memory s) now).1 (pruneLocked (manager s) (memory s) now).2 s).
Proof.
  intros Hi. apply (discard_inv r s _ (λ t, (now <? expiresAt t)%Z)); [done|done|done| |by left]. apply len_prune_le.
Qed.

Lemma close_inv r s :
  inv r s → inv r (set_tables_memory (close_tables (manager s) (memory s)).1 (close_tables (manager s) (memory s)).2 s).
Proof.
  intros Hi. unfold close_tables. destruct (closed (manager s)) eqn:Ec; [by destruct s|].
  apply (discard_inv r s _ (λ _, false)); [done|done| |done|by right]. cbn. symmetry. apply map_eq. intros h.
  rewrite lookup_empty. apply prune_lookup_None. destruct (tickets (manager s) !! h); eauto.
Qed.

(** A new entry takes the cell of its credential with it. *)
Lemma deposit_inv r s h t v payload body :
  inv (Secret (credential t) (tr_Credential payload) :: r) s → Authentic body ∈ r → decodeTicket body = Ok payload →
  valid_request payload → ticket_digest sha256 v = Some h → binding t = tr_Binding payload → target t = tr_Target payload →
  pinnedHostKey t = tr_PinnedHostKey payload → initialSize t = tr_InitialSize payload →
  tickets (manager s) !! h = None → closed (manager s) = false → len (tickets (manager s)) < maxTickets (cfg srv) →
  len (consumed (manager s)) < maxConsumed (cfg srv) →
  inv r (note (EIssued v payload)
           (set_tables_memory (set_tables (manager s) (<[h := t]> (tickets (manager s))) (consumed (manager s))) (memory s) s)).
Proof.
  intros Hi Hauth Hdec Hval Hv E1 E2 E3 E4 Hn Hopen Hsize Hcons.
  pose proof Hi as [Hs [Hd Hf Hse Hdis Hsh Hli] [Htk Hri Hau Hju Hon] [Hsz Htot Hcl]].
  assert (log s ⊆ log s ++ [EIssued v payload]) as Hl by set_solver.
  assert (issued_as (log s ++ [EIssued v payload]) h t payload) as Hiss by (exists v; split_and!; [set_solver|done..]).
  change (NoDup (credential t :: locations r)) in Hd. apply NoDup_cons in Hd as [Hnew Hd].
  assert (cells (memory s) !! credential t = Some (tr_Credential payload)) as Hcell by (apply Hse, elem_of_cons; by left).
  constructor.
  - destruct Hs as [H1 H2 H3 H4 ? ? ?]. constructor; cbn; try done; rewrite ?H1, ?H2, ?H3, ?H4, count_secret by set_solver; done.
  - constructor; cbn [memory manager set_tables_memory note set_tables tickets].
    + exact Hd.
    + exact Hf.
    + intros l c Hin. apply Hse, elem_of_cons. by right.
    + intros h' t'. rewrite lookup_insert_Some. intros [[<- <-]|[_ Hl']]; [exact Hnew|]. by destruct (secret_not_ticket _ _ _ _ _ _ Hi Hl').
    + intros h1 t1 h2 t2. rewrite !lookup_insert_Some. intros [[<- <-]|[_ Hl1]] [[<- <-]|[_ Hl2]] Ec; [done|..|by eauto].
      * by destruct (secret_not_ticket _ _ _ _ _ _ Hi Hl2).
      * by destruct (secret_not_ticket _ _ _ _ _ _ Hi Hl1).
    + intros l c Hc Hw. destruct (Hli l c Hc Hw) as [Hin|[(h' & t' & Hl' & <-)|Hab]].
      * change (l ∈ credential t :: locations r) in Hin. apply elem_of_cons in Hin as [->|?]; [right; left|by left].
        exists h, t. by rewrite lookup_insert_eq.
      * right; left. exists h', t'. rewrite lookup_insert_ne; [done|]. intros <-. congruence.
      * right; right. by apply Hl.
  - constructor; cbn [memory manager log set_tables_memory note set_tables tickets].
    + intros h' t'. rewrite lookup_insert_Some. intros [[<- <-]|[_ Hl']]; [eauto|].
      destruct (Htk h' t' Hl') as (payload' & ? & ?). eauto using issued_as_mono.
    + intros h' t' payload' Hin. eapply issued_as_mono; [exact Hl|]. apply Hri, elem_of_cons. by right.
    + intros body' Hin. apply Hl, Hau, elem_of_cons. by right.
    + apply Forall_app. split; [eapply Forall_impl; [exact Hju|]; eauto using justified_mono|]. constructor; [|done].
      split; [done|]. exists body. split; [|done]. apply Hl, Hau, elem_of_cons. by right.
    + intros h'. specialize (Hon h'). rewrite count_cons in Hon. cbn [is_right] in Hon. rewrite issues_app, openings_app.
      assert (issues h' [EIssued v payload] = if decide (h = h') then 1 else 0) as ->.
      { unfold issues, digest_is. cbn. rewrite Hv. repeat case_decide; case_bool_decide; naive_solver. }
      change (openings h' [EIssued v payload]) with 0. rewrite lookup_insert. case_decide as Eh.
      * subst h'. rewrite Hn in Hon. rewrite bool_decide_false in Hon by (by intros []). rewrite bool_decide_true by done. lia.
      * lia.
  - constructor; cbn [manager set_tables_memory note set_tables tickets consumed closed]; [..|congruence].
    + rewrite len_insert_new by done. lia.
    + rewrite len_insert_new by done. lia.
Qed.

(** A consumed entry hands its cell and the right to open a terminal over. *)
Lemma withdraw_inv r s h t e :
  inv r s → tickets (manager s) !! h = Some t →
  ∃ payload, binding t = tr_Binding payload ∧
    inv (Right h t payload :: Secret (credential t) (tr_Credential payload) :: r)
      (set_tables_memory (set_tables (manager s) (delete h (tickets (manager s))) (<[h := e]> (consumed (manager s)))) (memory s) s).
Proof.
  intros Hi Ht. pose proof Hi as [Hs [Hd Hf Hse Hdis Hsh Hli] [Htk Hri Hau Hju Hon] [Hsz Htot Hcl]].
  destruct (Htk h t Ht) as (payload & Hiss & Hcell). exists payload. split; [by destruct Hiss as (? & _ & _ & ? & _)|].
  constructor.
  - destruct Hs as [H1 H2 H3 H4 ? ? ?]. constructor; cbn; try done; rewrite ?H1, ?H2, ?H3, ?H4, !count_cons; done.
  - constructor; cbn [memory manager set_tables_memory set_tables tickets].
    + change (NoDup (credential t :: locations r)). constructor; [by eapply Hdis|done].
    + exact Hf.
    + intros l c. rewrite !elem_of_cons. intros [?|[[= -> ->]|?]]; [done|done|by apply Hse].
    + intros h' t' [Hne Hl]%lookup_delete_Some. change (credential t' ∉ credential t :: locations r).
      apply not_elem_of_cons. split; [intros E; apply Hne; symmetry; by eapply Hsh|by eapply Hdis].
    + intros h1 t1 h2 t2 [_ Hl1]%lookup_delete_Some [_ Hl2]%lookup_delete_Some. eauto.
    + intros l c Hc Hw. change (l ∈ credential t :: locations r ∨ (∃ h' t', delete h (tickets (manager s)) !! h' = Some t' ∧ credential t' = l) ∨ EAbandoned l c ∈ log s).
      rewrite elem_of_cons. destruct (Hli l c Hc Hw) as [?|[(h' & t' & Hl' & <-)|?]]; [by auto| |by auto].
      destruct (decide (h = h')) as [<-|Hne]; [left; left; congruence|]. right; left. exists h', t'. by rewrite lookup_delete_ne.
  - constructor; cbn [memory manager log set_tables_memory set_tables tickets].
    + intros h' t' [_ Hl]%lookup_delete_Some. eauto.
    + intros h' t' payload'. rewrite !elem_of_cons. intros [[= -> -> ->]|[?|?]]; [done|done|by apply Hri].
    + intros body. rewrite !elem_of_cons. intros [?|[?|?]]; [done|done|by apply Hau].
    + exact Hju.
    + intros h'. specialize (Hon h'). rewrite !count_cons. cbn [is_right]. destruct (String.eqb_spec h h') as [<-|Hne].
      * rewrite lookup_delete_eq. rewrite bool_decide_false by (by intros []). rewrite bool_decide_true in Hon by (by rewrite Ht). lia.
      * rewrite lookup_delete_ne by done. lia.
  - pose proof (len_insert_le (consumed (manager s)) h e). constructor; cbn [manager set_tables_memory set_tables tickets consumed closed].
    + rewrite (len_delete_old _ _ _ Ht). lia.
    + rewrite (len_delete_old _ _ _ Ht). lia.
    + intros Hc. rewrite (Hcl Hc) in Ht. by rewrite lookup_empty in Ht.
Qed.

(** The right is used up when the terminal is opened. *)
Lemma open_inv r s h t payload hello signer pinned :
  inv (Right h t payload :: r) s → ticket_digest sha256 (wh_Ticket hello) = Some h → wh_Binding hello = tr_Binding payload →
  parse_key ParsePrivateKey ParsePrivateKeyWithPassphrase (tr_Credential payload) = Some signer →
  ParsePinnedHostKey ParseAuthorizedKey (pinnedHostKey t) = Ok pinned →
  inv r (note (EOpened hello (mkPTYConfig (Address (target t)) (Port (target t)) (User (target t)) signer pinned
    (initialSize t) (connectTimeout (cfg srv)) (allowPrivateTargets (cfg srv)))) s).
Proof.
  intros Hi Hh Hb Hk Hp. assert (inv r s) as Hr by (by eapply (inv_drop (Right h t payload))).
  assert (issued_as (log s) h t payload) as (v & Hv & Hvh & _ & Et & Ek & Es) by (apply (ok_rights _ _ (inv_history _ _ Hi)), elem_of_cons; by left).
  rewrite Et, Es. rewrite Ek in Hp.
  eapply note_inv; [exact Hi|apply Hr|apply Hr| | | |].
  - exists v, payload, signer, pinned. split_and!; [set_solver|congruence|by rewrite Hvh|done..].
  - intros. apply elem_of_cons. by right.
  - intros. left. apply elem_of_cons. by right.
  - intros h'. rewrite count_cons. cbn [is_right].
    assert (openings h' [EOpened hello (mkPTYConfig (Address (tr_Target payload)) (Port (tr_Target payload)) (User (tr_Target payload)) signer pinned
      (tr_InitialSize payload) (connectTimeout (cfg srv)) (allowPrivateTargets (cfg srv)))] = if h =? h' then 1 else 0) as ->.
    { unfold openings, digest_is. cbn. rewrite Hh. destruct (String.eqb_spec h h'); case_bool_decide; naive_solver. }
    unfold issues. cbn. lia.
Qed.

(** *** Slots *)

Definition is_slot x : bool := match x with RequestSlot | ConnectionSlot | SessionSlot | Waiting => true | _ => false end.

Lemma slot_locations x r : is_slot x = true → locations (x :: r) = locations r.
Proof. by destruct x. Qed.

(** Only the slots see the counters, and the other parts do not see slots. *)
Lemma slot_step r r' x s s' :
  is_slot x = true → (r = x :: r' ∨ r' = x :: r ∨ r = r') →
  memory s' = memory s → log s' = log s → tickets (manager s') = tickets (manager s) →
  consumed (manager s') = consumed (manager s) → closed (manager s') = closed (manager s) →
  inv r s → slots_ok r' s' → inv r' s'.
Proof.
  intros Hx Hr Em El Et Ec Ecl [_ Hm Hh Ht] Hs.
  assert (locations r' = locations r) as Eloc by (destruct Hr as [-> |[-> | ->]]; by rewrite ?slot_locations).
  assert (∀ y, is_slot y = false → y ∈ r' → y ∈ r) as Hin.
  { intros y Hy Hiny. destruct Hr as [-> |[-> | ->]]; [apply elem_of_cons; by right| |done].
    apply elem_of_cons in Hiny as [->|?]; [congruence|done]. }
  assert (∀ h, count (is_right h) r' = count (is_right h) r) as Hcnt.
  { intros h. destruct Hr as [-> |[-> | ->]]; rewrite ?count_cons; by destruct x. }
  constructor; [done|..].
  - destruct Hm. constructor; rewrite ?Em, ?El, ?Et, ?Eloc; try done. intros l c Hl. by eauto.
  - destruct Hh as [? ? ? ? Hon]. constructor; rewrite ?Em, ?El, ?Et; try done; [by eauto|by eauto|].
    intros h. rewrite Hcnt. apply Hon.
  - destruct Ht. constructor; rewrite ?Et, ?Ec, ?Ecl; done.
Qed.

Ltac slots x Hi :=
  match type of Hi with inv ?r ?s =>
    eapply (slot_step r _ x s); [reflexivity|by auto|reflexivity..|exact Hi|];
    destruct (inv_slots _ _ Hi) as [Hreq Hcon Hses Hwai Hrc Hcc Hsc]; constructor; cbn;
    rewrite ?count_cons in *; cbn [is_request is_connection is_session is_waiting] in *; try lia
  end.

Lemma acquire_request_inv r s : inv r s → requests s < cap_requests srv → inv (RequestSlot :: r) (set_requests (requests s + 1) s).
Proof. intros Hi Hlt. slots RequestSlot Hi. Qed.

Lemma release_request_inv r s : inv (RequestSlot :: r) s → inv r (set_requests (requests s - 1) s).
Proof. intros Hi. slots RequestSlot Hi. Qed.

Lemma acquire_connection_inv r s : inv r s →
  inv (if (acquire_connection (cfg srv) (manager s)).2 then ConnectionSlot :: r else r)
    (set_tables_memory (acquire_connection (cfg srv) (manager s)).1 (memory s) s).
Proof.
  intros Hi. unfold acquire_connection. destruct (Z.ltb_spec (connections (manager s)) (cap_connections (cfg srv))); cbn; [|by destruct s].
  slots ConnectionSlot Hi.
Qed.

Lemma release_connection_inv r s :
  inv (ConnectionSlot :: r) s → inv r (set_tables_memory (release_connection (manager s)) (memory s) s).
Proof. intros Hi. slots ConnectionSlot Hi. Qed.

Lemma acquire_session_inv r s : inv r s →
  inv (if (acquire_session (cfg srv) (manager s)).2 then SessionSlot :: r else r)
    (set_tables_memory (acquire_session (cfg srv) (manager s)).1 (memory s) s).
Proof.
  intros Hi. unfold acquire_session. destruct (Z.ltb_spec (concurrency (manager s)) (cap_concurrency (cfg srv))); cbn; [|by destruct s].
  slots SessionSlot Hi.
Qed.

Lemma release_session_inv r s :
  inv (SessionSlot :: r) s → inv r (set_tables_memory (release_session (manager s)) (memory s) s).
Proof. intros Hi. slots SessionSlot Hi. Qed.

Lemma beginSession_inv r s : inv r s →
  inv (if (beginSession (manager s)).2 then Waiting :: r else r) (set_tables_memory (beginSession (manager s)).1 (memory s) s).
Proof. intros Hi. unfold beginSession. destruct (closed (manager s)) eqn:E; cbn; [by destruct s|]. slots Waiting Hi. Qed.

Lemma wait_Done_inv r s : inv (Waiting :: r) s → inv r (set_tables_memory (wait_Done (manager s)) (memory s) s).
Proof. intros Hi. slots Waiting Hi. Qed.

Lemma cancel_inv r s : inv r s → inv r (set_tables_memory (cancel (manager s)) (memory s) s).
Proof. intros Hi. slots Waiting Hi. Qed.

Lemma prune_exit_inv r s : inv r s → inv r (set_tables_memory (prune_exit (manager s)) (memory s) s).
Proof.
  intros Hi. unfold prune_exit. destruct (pruning (manager s)) eqn:E1; [|by destruct s]. destruct (cancelled (manager s)) eqn:E2; [|by destruct s].
  slots Waiting Hi. rewrite E1 in Hwai. lia.
Qed.

(** *** Tickets *)

Lemma createTicket_inv r s payload p body requestID now r1 r2 :
  inv r s → Secret p (tr_Credential payload) ∈ r → Authentic body ∈ r → decodeTicket body = Ok payload → valid_request payload →
  match createTicket sha256 (cfg srv) (manager s) (memory s) payload p requestID now r1 r2 with
  | (m, mem, Ok resp) => inv r (note (EIssued (ts_Ticket resp) payload) (set_tables_memory m mem s))
  | (m, mem, Err _) => inv r (set_tables_memory m mem s)
  end.
Proof.
  intros Hi Hp Hb Hdec Hval. unfold createTicket.
  destruct (read_full 32 r1 "read random") as [ticketBytes|] eqn:E1; [|by destruct s].
  destruct (read_full 16 r2 "read random") as [sessionBytes|]; [|by destruct s].
  assert (slen ticketBytes = 32) as Hlen.
  { unfold read_full in E1. repeat case_match; simplify_eq. by apply Z.eqb_eq. }
  assert (read (memory s) p = tr_Credential payload) as Hread.
  { unfold read. by rewrite (ok_secret _ _ (inv_memory _ _ Hi) p (tr_Credential payload) Hp). }
  unfold cloneCredential. rewrite Hread. destruct (alloc (tr_Credential payload) (memory s)) as [mem l] eqn:Ea.
  pose proof (alloc_inv r s (tr_Credential payload) Hi) as Hi1. rewrite Ea in Hi1. cbn [fst] in Hi1.
  assert (l = next (memory s)) as -> by (unfold alloc in Ea; congruence).
  apply (prune_inv _ _ now) in Hi1. cbn [manager memory set_tables_memory] in Hi1.
  destruct (pruneLocked (manager s) mem now) as [m1 mem1]. cbn [fst snd] in Hi1.
  pose proof (wipe_inv _ _ _ _ Hi1) as Hw. apply forget_inv in Hw. cbn [manager memory set_tables_memory] in Hw.
  destruct (closed m1 || _ || _) eqn:Ec; [exact Hw|]. destruct (tickets m1 !! sha256 ticketBytes) eqn:El; [exact Hw|].
  apply orb_false_iff in Ec as [[Ec Es]%orb_false_iff Eo]. apply Z.leb_gt in Es, Eo.
  eapply (deposit_inv r (set_tables_memory m1 mem1 s) (sha256 ticketBytes) (new_ticket (cfg srv) payload (next (memory s)) now sessionBytes)); try done.
  cbn. unfold ticket_digest. by rewrite b64_roundtrip, Hlen.
Qed.

Lemma consumeTicket_inv r s hello now :
  inv r s →
  match consumeTicket sha256 (cfg srv) (manager s) (memory s) hello now with
  | (m, mem, inl t) => ∃ h payload, ticket_digest sha256 (wh_Ticket hello) = Some h ∧ wh_Binding hello = tr_Binding payload ∧
      inv (Right h t payload :: Secret (credential t) (tr_Credential payload) :: r) (set_tables_memory m mem s)
  | (m, mem, inr _) => inv r (set_tables_memory m mem s)
  end.
Proof.
  intros Hi. unfold consumeTicket. destruct (ticket_digest sha256 (wh_Ticket hello)) as [h|]; [|by destruct s].
  apply (prune_inv _ _ now) in Hi. destruct (pruneLocked (manager s) (memory s) now) as [m1 mem1]. cbn [fst snd] in Hi.
  destruct (tickets m1 !! h) as [t|] eqn:El; [|done].
  destruct (withdraw_inv _ _ h t (now + ticketTTL (cfg srv)) Hi El) as (payload & Hb & Hi').
  assert (inv r (set_tables_memory (set_tables m1 (delete h (tickets m1)) (<[h:=now + ticketTTL (cfg srv)]> (consumed m1)))
    (wipeCredential (credential t) mem1) s)) as Hw.
  { apply (inv_drop (Right h t payload)) in Hi'; [|done]. apply wipe_inv, forget_inv in Hi'. exact Hi'. }
  destruct (negb (now <? expiresAt t)%Z); [exact Hw|]. destruct (_ || _ || _) eqn:Eb; [exact Hw|].
  reflect_bools. exists h, payload. split_and!; [done| |exact Hi'].
  match goal with G : sameBinding _ _ = true |- _ => apply same_binding_eq in G as <- end. done.
Qed.

(** ** Every handler keeps the invariant *)

Abbreviation owning := (owns inv).

Definition knowledge x : bool := match x with Right _ _ _ | Authentic _ => true | _ => false end.

Lemma inv_forget k r s : forallb knowledge k = true → inv (k ++ r) s → inv r s.
Proof.
  induction k as [|x k IH]; [done|]. cbn. intros [Hx Hk]%andb_true_iff Hi. apply IH; [done|].
  eapply (inv_drop x); [by destruct x|exact Hi].
Qed.

(** One step; what is left to show is that it keeps the invariant. *)
Ltac step := apply owns_act; let s := fresh "s" in let frame := fresh "frame" in let Hi := fresh "Hi" in
  intros s frame Hi; cbn [fst snd].

Lemma on_manager_owns {A} (f : webSSHManager → webSSHManager * A) r (Q : A → list resource → Prop) :
  (∀ s frame, inv (r ++ frame) s → ∃ r', inv (r' ++ frame) (set_tables_memory (f (manager s)).1 (memory s) s) ∧ Q (f (manager s)).2 r') →
  owning Q r (on_manager f).
Proof. intros Hf. apply owns_act. intros s frame Hi. specialize (Hf s frame Hi). by destruct (f (manager s)). Qed.

Lemma allocate_owns r c : owning (λ p r', r' = Secret p c :: r) r (allocate c).
Proof.
  apply owns_act. intros s frame Hi. unfold alloc. cbn. exists (Secret (next (memory s)) c :: r). split; [|done].
  apply (alloc_inv _ _ c) in Hi. exact Hi.
Qed.

(** The wipe of an owned cell at the end of a function. *)
Lemma wipe_owns k r l c : forallb knowledge k = true → owning (λ _ r', r' = r) (k ++ Secret l c :: r) (wipe l).
Proof.
  intros Hk. apply owns_act. intros s frame Hi. exists r. split; [|done]. cbn.
  rewrite <-app_assoc in Hi. apply inv_forget in Hi; [|done]. by apply wipe_inv, forget_inv in Hi.
Qed.

Lemma session_loop_owns r cases : owning (λ _ r', r' = r) r (session_loop srv cases).
Proof.
  induction cases as [|x cases IH]; (eapply (owns_bind _ (λ _ r', r' = r)); [by apply owns_ask|]); intros shutdown ? ->; [done|].
  by destruct (select_case _ _ _).
Qed.

Lemma issue_ticket_owns r payload p body requestID x :
  decodeTicket body = Ok payload →
  owning (λ _ r', r' = Secret p (tr_Credential payload) :: Authentic body :: r) (Secret p (tr_Credential payload) :: Authentic body :: r)
    (issue_ticket sha256 ParseAddr ParseAuthorizedKey ParsePrivateKey ParsePrivateKeyWithPassphrase srv payload p requestID x).
Proof.
  intros Hdec. unfold issue_ticket. destruct (validateWebSSHTicketRequest _ _ _ _ _ _) eqn:Ev; [|done]. cbn [negb].
  eapply (owns_bind _ (λ _ r', r' = Secret p (tr_Credential payload) :: Authentic body :: r)); [|by intros ? ? ->].
  apply owns_act. intros s frame Hi.
  eapply (createTicket_inv _ _ payload p body requestID (su_now x) (su_ticketRandom x) (su_sessionRandom x)) in Hi;
    [|cbn; rewrite !elem_of_cons; by auto..|done|done].
  unfold cfg in *. destruct (createTicket _ _ _ _ _ _ _ _ _ _) as [[m mem] [resp|e]]; (eexists; split; [|done]; exact Hi).
Qed.

(** A credential of a request that could not be decoded stays behind. *)
Lemma abandon_inv r s c body : inv r s → Authentic body ∈ r → decodeTicket body = Err c ∨ decodeSnapshot body = Err c →
  inv r (note (EAbandoned (next (memory s)) c) (set_tables_memory (manager s) (alloc c (memory s)).1 s)).
Proof.
  intros Hi Hb Hd. pose proof (ok_authentic _ _ (inv_history _ _ Hi) _ Hb) as Ha. apply (alloc_inv _ _ c) in Hi.
  set (s1 := set_tables_memory _ _ s) in *. set (l := next (memory s)) in *. pose proof Hi as [Hs Hm _ _].
  pose proof (ok_distinct _ _ Hm) as Hn. change (NoDup (l :: locations r)) in Hn. apply NoDup_cons in Hn as [_ Hn].
  constructor.
  - destruct Hs. constructor; try done.
  - destruct Hm as [_ Hf Hse _ Hsh Hli]. constructor; cbn [note memory manager log]; try done.
    + intros l' c' Hin. apply Hse, elem_of_cons. by right.
    + intros h t Hl. by destruct (secret_not_ticket _ _ _ _ _ _ Hi Hl).
    + intros l' c' Hc Hw. destruct (Hli l' c' Hc Hw) as [Hin|[Hin|Hin]]; [|by right; left|right; right; set_solver].
      change (l' ∈ l :: locations r) in Hin. apply elem_of_cons in Hin as [->|Hin]; [|by left]. right; right.
      rewrite (Hse l c) in Hc by (apply elem_of_cons; by left). injection Hc as <-. set_solver.
  - destruct Hi as [_ _ [Htk Hri Hau Hju Hon] _]. constructor; cbn [note log manager memory].
    + intros h t Hl. destruct (Htk h t Hl) as (payload & Hp & ?). exists payload. split; [|done]. eapply issued_as_mono; [|exact Hp]. set_solver.
    + intros h t payload Hin. eapply issued_as_mono; [|apply Hri, elem_of_cons; by right]. set_solver.
    + intros b Hin. apply elem_of_app. left. apply Hau, elem_of_cons. by right.
    + apply Forall_app. split; [eapply Forall_impl; [exact Hju|]; intros e He; eapply justified_mono; [|exact He]; set_solver|].
      constructor; [|done]. exists body. split; [|done]. apply elem_of_app. by left.
    + intros h. specialize (Hon h). rewrite issues_app, openings_app. rewrite count_cons in Hon. unfold openings, issues in *. cbn in *. lia.
  - destruct Hi as [_ _ _ []]. by constructor.
Qed.
Lemma abandon_owns r c body : Authentic body ∈ r → decodeTicket body = Err c ∨ decodeSnapshot body = Err c →
  owning (λ _ r', r' = r) r (abandon c).
Proof.
  intros Hb Hd. apply owns_act. intros s frame Hi. exists r. split; [|done]. unfold alloc. cbn.
  apply (abandon_inv _ _ c body) in Hi; [exact Hi|apply elem_of_app; by left|done].
Qed.

(** A history event that rests on an authenticated body. *)
Lemma record_owns r e : (∀ l body, Authentic body ∈ r → EAuthenticated body ∈ l → justified l e) →
  (∃ body, Authentic body ∈ r) → (∀ h, openings h [e] = 0 ∧ issues h [e] = 0) → owning (λ _ r', r' = r) r (record e).
Proof.
  intros Hj [body Hb] Hq. apply owns_act. intros s frame Hi. exists r. split; [|done]. cbn.
  eapply note_inv; [exact Hi|apply Hi|apply Hi| |done|by auto|].
  - apply (Hj _ body); [done|]. apply elem_of_app. left. apply (ok_authentic _ _ (inv_history _ _ Hi)), elem_of_app. by left.
  - intros h. specialize (Hq h). lia.
Qed.

(** Between the slot and its release. *)
Lemma with_slot_owns (p : prog Connector Response) body :
  owning (λ _ r', r' = [RequestSlot; Authentic body]) [RequestSlot; Authentic body] p →
  owning (λ _ r', forallb knowledge r' = true) [Authentic body]
    (acquired ← acquire srv;
     if negb acquired then Ret (RError 429 "concurrency_limit" true)
     else response ← p; _ ← release_request; Ret response).
Proof.
  intros Hp. eapply (owns_bind _ (λ (b : bool) r', r' = if b then [RequestSlot; Authentic body] else [Authentic body])).
  { apply owns_act. intros s frame Hi. destruct (Z.ltb_spec (requests s) (cap_requests srv)); cbn.
    - exists [RequestSlot; Authentic body]. split; [|done]. by apply (acquire_request_inv (Authentic body :: frame)).
    - exists [Authentic body]. split; [|done]. exact Hi. }
  intros [|] ? ->; [|done]. cbn [negb]. eapply owns_bind; [exact Hp|]. intros resp ? ->.
  eapply (owns_bind _ (λ _ r', r' = [Authentic body])); [|by intros ? ? ->].
  apply owns_act. intros s frame Hi. exists [Authentic body]. split; [|done]. by apply (release_request_inv (Authentic body :: frame)).
Qed.

Lemma run_snapshot_owns payload p body requestID x :
  decodeSnapshot body = Ok payload →
  let r := [Secret p (sq_Credential payload); RequestSlot; Authentic body] in
  owning (λ _ r', r' = r) r
    (run_snapshot ParseAuthorizedKey ParsePrivateKey ParsePrivateKeyWithPassphrase srv payload p requestID x).
Proof.
  intros Hdec r. unfold run_snapshot. case_match; [done|]. destruct (ParsePinnedHostKey _ _) as [pinned|] eqn:Ep; [|done].
  eapply (owns_bind _ (λ key r', key = sq_Credential payload ∧ r' = r)).
  { apply owns_ask. intros s frame Hi. split; [|done]. unfold read.
    rewrite (ok_secret _ _ (inv_memory _ _ Hi) p (sq_Credential payload)); [done|]. cbn. rewrite !elem_of_cons. auto. }
  intros key ? [-> ->]. destruct (parse_key _ _ _) as [signer|] eqn:Es; [|done].
  eapply (owns_bind _ (λ _ r', r' = r)); [|by intros ? ? ->]. apply record_owns; [|exists body; set_solver|done].
  intros l body' Hb Hl. assert (body' = body) as -> by set_solver. exists body, payload, signer, pinned. by split_and!.
Qed.

Context (hmac : string → string → string).

Lemma authenticateJSON_owns r request now :
  owning (λ x r', match x with inl _ => r' = r | inr body => r' = Authentic body :: r end) r
    (authenticateJSON sha256 hmac srv request now).
Proof.
  unfold authenticateJSON. case_match; [done|]. case_match; [done|]. destruct (hr_body request) as [body|]; [|done]. case_match; [done|].
  apply owns_act. intros s frame Hi. destruct (Verify _ _ _ _ _ _) as [v' [u|e]]; cbn.
  2:{ exists r. split; [|done]. destruct Hi as [[] [] [] []]. by constructor; constructor. }
  exists (Authentic body :: r). split; [|done].
  eapply (note_inv (r ++ frame) _ (mkConnector v' (requests s) (manager s) (memory s) (log s)));
    [by destruct Hi as [[] [] [] []]; constructor; constructor| | |done|set_solver|set_solver|].
  - destruct Hi as [[] _ _ _]. constructor; cbn [app requests manager]; try done; rewrite count_cons; done.
  - destruct Hi as [_ [] _ _]. constructor; try done. set_solver.
  - intros h. cbn [app]. rewrite count_cons. cbn [is_right]. unfold openings, issues. cbn. lia.
Qed.

Lemma handleWebSSHTicket_owns request requestID x :
  owning (λ _ r', forallb knowledge r' = true) [] (handleWebSSHTicket sha256 hmac ParseAddr ParseAuthorizedKey ParsePrivateKey
    ParsePrivateKeyWithPassphrase decodeTicket srv request requestID x).
Proof.
  unfold handleWebSSHTicket. case_match; [done|]. eapply owns_bind; [apply authenticateJSON_owns|].
  intros [e|body] ? ->; [done|]. destruct (decodeTicket body) as [payload|c] eqn:Ed.
  2:{ eapply owns_bind; [eapply (abandon_owns _ _ body); [apply elem_of_cons; by left|by left]|]. by intros ? ? ->. }
  eapply owns_bind; [apply allocate_owns|]. intros p ? ->. eapply owns_bind; [by apply issue_ticket_owns|]. intros resp ? ->.
  eapply owns_bind; [by apply (wipe_owns [])|]. by intros ? ? ->.
Qed.

Lemma handleRuntimeSnapshot_owns request requestID x :
  owning (λ _ r', forallb knowledge r' = true) [] (handleRuntimeSnapshot sha256 hmac ParseAuthorizedKey ParsePrivateKey
    ParsePrivateKeyWithPassphrase decodeSnapshot srv request requestID x).
Proof.
  unfold handleRuntimeSnapshot. eapply owns_bind; [apply authenticateJSON_owns|]. intros [e|body] ? ->; [done|].
  apply with_slot_owns. destruct (decodeSnapshot body) as [payload|c] eqn:Ed.
  2:{ eapply owns_bind; [eapply (abandon_owns _ _ body); [set_solver|by right]|]. by intros ? ? ->. }
  eapply owns_bind; [apply allocate_owns|]. intros p ? ->. eapply owns_bind; [by apply run_snapshot_owns|]. intros resp ? ->.
  eapply owns_bind; [by apply (wipe_owns [])|]. by intros ? ? ->.
Qed.

Lemma handleHostKeyProbe_owns request requestID x :
  owning (λ _ r', forallb knowledge r' = true) [] (handleHostKeyProbe sha256 hmac decodeProbe srv request requestID x).
Proof.
  unfold handleHostKeyProbe. eapply owns_bind; [apply authenticateJSON_owns|]. intros [e|body] ? ->; [done|].
  apply with_slot_owns. destruct (decodeProbe body) as [payload|] eqn:Ed; [|done]. case_match; [done|].
  eapply (owns_bind _ (λ _ r', r' = [RequestSlot; Authentic body])); [|by intros ? ? ->]. apply record_owns; [|exists body; set_solver|done].
  intros l body' Hb Hl. assert (body' = body) as -> by set_solver. exists body, payload. split_and!; try done. by destruct (hq_Target payload).
Qed.

Context (decodeHello : string → option WebSSHHelloMessage) `{Decoders} {P : Type} `{Shell P}.

Lemma open_session_owns r (c : connection P) hello h t payload :
  ticket_digest sha256 (wh_Ticket hello) = Some h → wh_Binding hello = tr_Binding payload →
  owning (λ _ r', ∃ k cr, forallb knowledge k = true ∧ r' = k ++ Secret (credential t) cr :: r)
    (Right h t payload :: Secret (credential t) (tr_Credential payload) :: r)
    (open_session ParseAuthorizedKey ParsePrivateKey ParsePrivateKeyWithPassphrase srv c hello t).
Proof.
  intros Hh Hb. unfold open_session.
  destruct (ParsePinnedHostKey _ _) as [pinned|] eqn:Ep; [|exists [Right h t payload]; eauto].
  eapply (owns_bind _ (λ key r', key = tr_Credential payload ∧ r' = Right h t payload :: Secret (credential t) (tr_Credential payload) :: r)).
  { apply owns_ask. intros s frame Hi. split; [|done]. unfold read.
    rewrite (ok_secret _ _ (inv_memory _ _ Hi) (credential t) (tr_Credential payload)); [done|]. cbn. rewrite !elem_of_cons. auto. }
  intros key r' [-> ->]. destruct (parse_key _ _ _) as [signer|] eqn:Es; [|exists [Right h t payload]; eauto].
  eapply (owns_bind _ (λ _ r', r' = Secret (credential t) (tr_Credential payload) :: r)).
  { apply owns_act. intros s frame Hi. eexists. split; [|done]. by eapply open_inv in Hi. }
  intros _ ? ->. eapply (owns_bind _ (λ _ r', r' = Secret (credential t) wiped :: r)).
  { apply owns_act. intros s frame Hi. eexists. split; [|done]. by apply wipe_inv in Hi. }
  intros _ ? ->. destruct (co_opens c); [|exists []; eauto]. destruct (co_ready c); [|exists []; eauto]. cbn [negb].
  eapply owns_bind; [apply session_loop_owns|]. intros final ? ->. exists []. eauto.
Qed.

Lemma with_ticket_owns r (c : connection P) hello h t payload :
  ticket_digest sha256 (wh_Ticket hello) = Some h → wh_Binding hello = tr_Binding payload →
  owning (λ _ r', ∃ k cr, forallb knowledge k = true ∧ r' = k ++ Secret (credential t) cr :: r)
    (Right h t payload :: Secret (credential t) (tr_Credential payload) :: r)
    (with_ticket ParseAuthorizedKey ParsePrivateKey ParsePrivateKeyWithPassphrase srv c hello t).
Proof.
  intros Hh Hb. unfold with_ticket. set (r0 := [Right h t payload; Secret (credential t) (tr_Credential payload)]).
  eapply (owns_bind _ (λ (b : bool) r', r' = if b then r0 ++ SessionSlot :: r else r0 ++ r)).
  { apply on_manager_owns. intros s frame Hi. apply acquire_session_inv in Hi. eexists. split; [|done].
    destruct (acquire_session _ _) as [? []]; [|exact Hi]. eapply inv_perm; [|exact Hi]. apply (Permutation_middle r0 (r ++ frame)). }
  intros [|] ? ->; cbn [negb]; [|exists [Right h t payload]; eauto].
  eapply owns_bind; [by apply (open_session_owns (SessionSlot :: r))|]. intros response ? (k & cr & Hk & ->).
  eapply (owns_bind _ (λ _ r', r' = Secret (credential t) cr :: r)); [|by intros ? ? ->; exists []; eauto].
  apply on_manager_owns. intros s frame Hi. eexists. split; [|done]. apply release_session_inv.
  rewrite <-app_assoc in Hi. apply inv_forget in Hi; [|done]. eapply inv_perm; [|exact Hi]. apply Permutation_swap.
Qed.

Lemma serveConnection_owns r (c : connection P) :
  owning (λ _ r', r' = r) r
    (serveConnection sha256 ParseAuthorizedKey ParsePrivateKey ParsePrivateKeyWithPassphrase decodeHello srv c).
Proof.
  unfold serveConnection. destruct (co_first c) as [[[] body]|]; cbn [negb]; try done.
  destruct (decodeHello body) as [hello|]; [|done]. case_match; [done|].
  eapply (owns_bind _ (λ x r', match x with
    | inl t => ∃ h payload, ticket_digest sha256 (wh_Ticket hello) = Some h ∧ wh_Binding hello = tr_Binding payload ∧
        r' = Right h t payload :: Secret (credential t) (tr_Credential payload) :: r
    | inr _ => r' = r end)).
  { apply owns_act. intros s frame Hi. apply (consumeTicket_inv _ _ hello (co_now c)) in Hi.
    change (ConnectorService.cfg srv) with (cfg srv).
    destruct (consumeTicket _ _ _ _ _ _) as [[m mem] [t|code]]; [|by exists r].
    destruct Hi as (h & payload & Hh & Hb & Hi). exists (Right h t payload :: Secret (credential t) (tr_Credential payload) :: r). split; [exact Hi|by exists h, payload]. }
  intros [t|code] r'; [|by intros ->]. intros (h & payload & Hh & Hb & ->).
  eapply owns_bind; [by apply with_ticket_owns|]. intros response ? (k & cr & Hk & ->).
  eapply owns_bind; [by apply wipe_owns|]. by intros ? ? ->.
Qed.

Lemma upgrade_owns r (c : connection P) :
  owning (λ _ r', r' = r) r
    (upgrade sha256 ParseAuthorizedKey ParsePrivateKey ParsePrivateKeyWithPassphrase decodeHello srv c).
Proof.
  unfold upgrade. repeat (case_match; [done|]).
  eapply (owns_bind _ (λ (b : bool) r', r' = if b then Waiting :: r else r)).
  { apply on_manager_owns. intros s frame Hi. apply beginSession_inv in Hi. eexists. split; [|done]. revert Hi. by destruct (beginSession _) as [? []]. }
  intros [|] ? ->; [|done]. cbn [negb]. eapply owns_bind; [apply serveConnection_owns|]. intros response ? ->.
  eapply (owns_bind _ (λ _ r', r' = r)); [|by intros ? ? ->]. apply on_manager_owns. intros s frame Hi. eexists. split; [|done].
  by apply wait_Done_inv.
Qed.

Context (ParseURL : string → option URL) (ToLower : string → string).

Lemma handleWebSSHConnect_owns request (c : connection P) :
  owning (λ _ r', r' = []) [] (handleWebSSHConnect sha256 ParseURL ToLower ParseAuthorizedKey ParsePrivateKey
    ParsePrivateKeyWithPassphrase decodeHello srv request c).
Proof.
  unfold handleWebSSHConnect. repeat (case_match; [done|]).
  eapply (owns_bind _ (λ (b : bool) r', r' = if b then [ConnectionSlot] else [])).
  { apply on_manager_owns. intros s frame Hi. apply acquire_connection_inv in Hi. eexists. split; [|done].
    revert Hi. by destruct (acquire_connection _ _) as [? []]. }
  intros [|] ? ->; [|done]. cbn [negb]. eapply owns_bind; [apply upgrade_owns|]. intros response ? ->.
  eapply (owns_bind _ (λ _ r', r' = [])); [|by intros ? ? ->]. apply on_manager_owns. intros s frame Hi. exists []. split; [|done].
  by apply release_connection_inv.
Qed.

Lemma ServeHTTP_owns request requestID x (c : connection P) :
  owning (λ _ r', forallb knowledge r' = true) [] (ServeHTTP sha256 hmac ParseURL ToLower ParseAddr ParseAuthorizedKey
    ParsePrivateKey ParsePrivateKeyWithPassphrase decodeSnapshot decodeProbe decodeTicket decodeHello srv request requestID x c).
Proof.
  unfold ServeHTTP. repeat (case_match; try done).
  - apply handleRuntimeSnapshot_owns.
  - apply handleHostKeyProbe_owns.
  - apply handleWebSSHTicket_owns.
  - eapply owns_mono; [|apply handleWebSSHConnect_owns]. by intros ? ? ->.
Qed.

Lemma Close_owns : owning (λ _ r', forallb knowledge r' = true) [] (Close srv).
Proof.
  unfold Close. case_match; [done|]. eapply (owns_bind _ (λ _ r', r' = [])).
  - apply owns_act. intros s frame Hi. apply close_inv in Hi. exists []. split; [|done].
    by destruct (close_tables (manager s) (memory s)).
  - intros [|] ? ->; [done|]. apply on_manager_owns. intros s frame Hi. exists []. split; [|done]. by apply cancel_inv.
Qed.

Lemma pruner_inv r s s' : pruner s s' → inv r s → inv r s'.
Proof.
  destruct 1 as [s now m mem E|s]; [|apply prune_exit_inv]. intros Hi. unfold prune_tick in E.
  destruct (pruning (manager s)); [|simplify_eq; by destruct s]. apply (prune_inv _ _ now) in Hi. by rewrite E in Hi.
Qed.

(** The steps of the running service. *)
Definition serving := service_step sha256 hmac ParseURL ToLower ParseAddr ParseAuthorizedKey
  ParsePrivateKey ParsePrivateKeyWithPassphrase decodeSnapshot decodeProbe decodeTicket decodeHello srv.

Lemma serving_inv s0 s ps :
  inv [] s0 → rtc serving (s0, []) (s, ps) →
  ∃ r, inv r s ∧ (Forall (λ p, ∃ u, p = Ret u) ps → forallb knowledge r = true).
Proof.
  intros Hi Hr. eapply (pool_owns inv inv_perm (λ _ r, forallb knowledge r = true)) in Hr as (rs & Hi' & Hrs).
  - exists (concat rs). split; [exact Hi'|]. intros Hps. cbn in Hrs. clear Hi'.
    induction Hrs as [|r p rs ps Hp _ IH]; [done|]. apply Forall_cons in Hps as [[u ->] Hps]. cbn. rewrite forallb_app, IH by done.
    cbn in Hp. by rewrite Hp.
  - intros s1 p [->|(request & requestID & x & c & ->)]; [apply Close_owns|].
    eapply owns_bind; [apply ServeHTTP_owns|]. by intros.
  - intros s1 s2 r Hpr. by apply pruner_inv.
  - exists []. by split.
Qed.
End system.

(** ** The initial state *)

Section start.
Context (ParseURL : string → option URL) (ToLower : string → string) {PublicKey Signer : Type}.

Lemma New_shape o srv (s0 : Connector PublicKey Signer) :
  New ParseURL ToLower o = Ok (srv, s0) →
  0 ≤ cap_requests srv ∧ 0 ≤ cap_connections (webSSH srv) ∧ 0 ≤ cap_concurrency (webSSH srv) ∧ 0 ≤ maxTickets (webSSH srv) ∧
  maxConsumed (webSSH srv) = maxTickets (webSSH srv) * 4 ∧
  ∃ v running, s0 = mkConnector v 0 (fresh_manager running) empty_memory [].
Proof.
  assert (∀ v d, 0 ≤ d → 0 ≤ or_default v d) as Hd by (intros v d; unfold or_default; case_match; lia).
  unfold New. intros Hn. ok_inv Hn. match goal with G : newWebSSHManager _ _ _ = Ok ?w |- _ => rename G into Hw; destruct w as [w m] end.
  simplify_eq. cbn. unfold newWebSSHManager in Hw. case_bool_decide.
  - simplify_eq. cbn. split_and!; try done; [by apply Hd|by eauto].
  - ok_inv Hw. cbn. split_and!; try done; try (by apply Hd); [|by eauto]. apply Z.mul_nonneg_nonneg; [by apply Hd|done].
Qed.
End start.

Section initial.
Context (sha256 : string → string) (ParseURL : string → option URL) (ToLower : string → string) (ParseAddr : string → option Addr)
  {PublicKey Signer : Type} (ParseAuthorizedKey : string → option (PublicKey * string))
  (ParsePrivateKey : string → option Signer) (ParsePrivateKeyWithPassphrase : string → string → option Signer)
  (decodeSnapshot : string → result Credential RuntimeSnapshotRequest) (decodeProbe : string → option HostKeyProbeRequest)
  (decodeTicket : string → result Credential WebSSHTicketRequest).

Lemma New_inv o srv (s0 : Connector PublicKey Signer) :
  New ParseURL ToLower o = Ok (srv, s0) →
  inv sha256 ParseAddr ParseAuthorizedKey ParsePrivateKey ParsePrivateKeyWithPassphrase decodeSnapshot decodeProbe decodeTicket srv [] s0.
Proof.
  intros (Hr & Hc & Hs & Ht & Hm & v & running & ->)%New_shape. constructor; constructor; cbn; try done; try lia.
  - constructor.
  - intros l [c Hl]. by rewrite lookup_empty in Hl.
  - intros l c Hin. by apply elem_of_nil in Hin.
  - intros h t p Hin. by apply elem_of_nil in Hin.
  - intros b Hin. by apply elem_of_nil in Hin.
  - unfold len. rewrite map_size_empty. lia.
  - unfold len. rewrite !map_size_empty. lia.
Qed.
End initial.

(** * Properties *)

Section properties.
Context (sha256 : string → string) (hmac : string → string → string).
Context (ParseURL : string → option URL) (ToLower : string → string) (ParseAddr : string → option Addr).
Context {PublicKey Signer : Type} (ParseAuthorizedKey : string → option (PublicKey * string))
  (ParsePrivateKey : string → option Signer) (ParsePrivateKeyWithPassphrase : string → string → option Signer).
Context (decodeSnapshot : string → result Credential RuntimeSnapshotRequest) (decodeProbe : string → option HostKeyProbeRequest)
  (decodeTicket : string → result Credential WebSSHTicketRequest) (decodeHello : string → option WebSSHHelloMessage).
Context `{Decoders} {P : Type} `{Shell P}.

(** C5: whatever requests and connections the Connector serves, in any
    interleaving, with pruning and shutdown: everything it does on a host rests on an
    authenticated request.  A terminal is opened only with the target, host key, credential
    and window size of a valid ticket request that was authenticated, for a hello that
    repeats its binding, and no more often than tickets with that digest were issued; only
    the snapshot command of the catalog is run, and only addresses that were asked for are
    probed. *)
Theorem connector_authorized o srv (s0 s : Connector PublicKey Signer) ps :
  New ParseURL ToLower o = Ok (srv, s0) →
  rtc (serving sha256 ParseAddr ParseAuthorizedKey ParsePrivateKey ParsePrivateKeyWithPassphrase decodeSnapshot decodeProbe
         decodeTicket srv hmac decodeHello ParseURL ToLower) (s0, []) (s, ps) →
  Forall (justified sha256 ParseAddr ParseAuthorizedKey ParsePrivateKey ParsePrivateKeyWithPassphrase decodeSnapshot decodeProbe
            decodeTicket srv (log s)) (log s) ∧
  ∀ h, openings sha256 h (log s) ≤ issues sha256 h (log s).
Proof.
  intros Hn Hr. eapply serving_inv in Hr as (r & [_ _ [_ _ _ Hj Hon] _] & _); [|by eapply New_inv].
  split; [exact Hj|]. intros h. specialize (Hon h). unfold count in Hon. case_bool_decide; lia.
Qed.

(** C6: under any interleaving of requests, connections, pruning and
    shutdown the configured numbers of requests, connections and terminal sessions and the
    sizes of the ticket tables are never exceeded.  When all handlers have returned, no slot
    is in use, and every decoded credential that is still in memory belongs to an outstanding ticket
    (none after a shutdown), or to an authenticated request whose body the decoder refused:
    its handler returns before the credential it had decoded is overwritten.  Such a
    cell is exactly what the decoder left. *)
Theorem connector_resources o srv (s0 s : Connector PublicKey Signer) ps :
  New ParseURL ToLower o = Ok (srv, s0) →
  rtc (serving sha256 ParseAddr ParseAuthorizedKey ParsePrivateKey ParsePrivateKeyWithPassphrase decodeSnapshot decodeProbe
         decodeTicket srv hmac decodeHello ParseURL ToLower) (s0, []) (s, ps) →
  let m := manager s in
  requests s ≤ cap_requests srv ∧ connections m ≤ cap_connections (webSSH srv) ∧
  concurrency m ≤ cap_concurrency (webSSH srv) ∧ len (tickets m) ≤ maxTickets (webSSH srv) ∧
  len (consumed m) ≤ 5 * maxTickets (webSSH srv) ∧
  (Forall (λ p, ∃ u, p = Ret u) ps →
     requests s = 0 ∧ connections m = 0 ∧ concurrency m = 0 ∧ wait m = (if pruning m then 1 else 0) ∧
     ∀ l c, cells (memory s) !! l = Some c → c ≠ wiped →
       (closed m = false ∧ ∃ h t, tickets m !! h = Some t ∧ credential t = l) ∨
       ∃ body, EAuthenticated body ∈ log s ∧ (decodeTicket body = Err c ∨ decodeSnapshot body = Err c)).
Proof.
  intros Hn Hr m. pose proof (New_shape _ _ _ _ _ Hn) as (Cr & Cc & Cs & Ct & Cm & _).
  eapply serving_inv in Hr as (r & Hi & Hdone); [|by eapply New_inv].
  pose proof Hi as [[_ _ _ _ Kr Kc Ks] _ _ [Kt Ktot Kcl]]. unfold cfg in *. fold m in Kc, Ks, Kt, Ktot, Kcl.
  pose proof (len_nonneg (tickets m)). split_and!; try lia. intros Hret. apply Hdone in Hret.
  rewrite <-(app_nil_r r) in Hi. apply inv_forget in Hi as [[] [_ _ _ _ _ Hlive] [_ _ _ Hju _] _]; [|done].
  split_and!; try done. intros l c Hc Hw. destruct (Hlive l c Hc Hw) as [Hin|[(h & t & Hl & E)|Hab]]; [by apply elem_of_nil in Hin| |].
  2:{ right. eapply Forall_forall in Hju; [|exact Hab]. exact Hju. }
  left. split; [|by eauto]. fold m in Hl. destruct (closed m) eqn:Ecl; [|done]. rewrite (Kcl eq_refl) in Hl. by rewrite lookup_empty in Hl.
Qed.
End properties.

(** ** A small Connector *)

Module Concrete.
Definition digest (s : string) : string := take_str 32 s.
Definition url (s : string) : option URL := Some (mkURL "https" (trim_prefix "https://" s) (trim_prefix "https://" s) "" s false "" "" "").
Definition options : Options :=
  mkOptions "k1" demo_key "1.0" false 2 0 0 0 0 0 8
    (mkWebSSHOptions ["https://console.test"] 0 0 0 0 1 2 0 0 0 0 false 0).
Definition created : Server * Connector string string :=
  match New url id options with
  | Ok x => x
  | Err _ => (mkServer "" false 0 0 0 0 0 disabled, mkConnector demo_verifier 0 (fresh_manager false) empty_memory [])
  end.
Definition srv : Server := created.1.
Definition payload : WebSSHTicketRequest :=
  mkTicketRequest "v1" (mkWebSSHBinding "alice" "host_1" "cred_1" ActionWebSSH) (mkTarget "203.0.113.9" 22 "root")
    "ssh-ed25519 AAAA" (mkCredential "private key" "") (mkTerminalSize 80 24 0 0).
Definition ticket_bytes : string := "0123456789abcdef0123456789abcdef".
Definition session_bytes : string := "0123456789abcdef".
Definition hello : WebSSHHelloMessage :=
  mkWebSSHHello "hello" (b64_encode ticket_bytes) (b64_encode session_bytes) (tr_Binding payload).
Definition signed : Request :=
  match Sign digest demo_hmac (mkSigner "k1" demo_key) (mkRequest "POST" (Some WebSSHTicketPath) ∅) "{}" demo_now (Some demo_nonce) with
  | Ok r => r | Err _ => demo_unsigned end.
Definition ticket_request : HttpRequest := mkHttpRequest signed WebSSHTicketPath "" (Some "application/json") 2 (Some "{}").
Definition connect_request : HttpRequest :=
  mkHttpRequest (mkRequest "GET" (Some WebSSHConnectPath) {["Origin" := ["https://console.test"]]}) WebSSHConnectPath "" None 0 None.
Definition answers : surroundings :=
  mkSurroundings demo_now demo_now (Some ticket_bytes) (Some session_bytes) (Err (mkActionError false false false false false false))
    (Err (mkActionError false false false false false false)).
Definition terminal : connection Samples.slow_shell :=
  mkConnection true true WebSSHSubprotocol (Some (true, "hello")) (demo_now + second) true true (Samples.mkSlow "" []) 0
    Samples.frames Samples.reads [STick second; SOutput].

Definition serve (request : HttpRequest) : prog (Connector string string) unit :=
  ServeHTTP digest demo_hmac url id (λ _, None) (λ s, Some (s, "")) Some (λ pem _, Some pem) (λ _, Err wiped) (λ _, None)
    (λ _, Ok payload) (λ _, Some hello) srv request "req_1" answers terminal ≫= λ _, Ret tt.
Definition serving := serving digest (λ _, None) (λ s, Some (s, "")) Some (λ pem _, Some pem) (λ _, Err wiped) (λ _, None)
    (λ _, Ok payload) srv demo_hmac (λ _, Some hello) url id (P := Samples.slow_shell).

Definition issued : Connector string string := (run (serve ticket_request) created.2).1.
Definition served : Connector string string := (run (serve connect_request) issued).1.

(** A body that is refused after its credential was decoded, for example one
    with trailing data, leaves the credential in memory. *)
Definition refused : Connector string string * Response :=
  run (ServeHTTP digest demo_hmac url id (λ _, None) (λ s, Some (s, "")) Some (λ pem _, Some pem) (λ _, Err wiped) (λ _, None)
    (λ _, Err (tr_Credential payload)) (λ _, Some hello) srv ticket_request "req_1" answers terminal) created.2.
Example refused_left : refused.2 = RError 400 "invalid_json" false ∧ cells (memory refused.1) !! 0%nat = Some (tr_Credential payload).
Proof. vm_compute. done. Qed.

Lemma created_ok : New url id options = Ok (srv, created.2).
Proof. vm_compute. reflexivity. Qed.

Lemma served_reachable : rtc serving (created.2, []) (served, [Ret tt; Ret tt]).
Proof.
  assert (∀ request s ps, rtc serving (s, ps) ((run (serve request) s).1, Ret (run (serve request) s).2 :: ps)) as Hrun.
  { intros request s ps. eapply rtc_l; [|apply pool_run]. apply pool_start. right. by exists request, "req_1", answers, terminal. }
  etrans; [apply (Hrun ticket_request)|]. apply (Hrun connect_request).
Qed.
End Concrete.

Lemma connector_authorized_witness :
  openings Concrete.digest Concrete.ticket_bytes (log Concrete.served) = 1 ∧
  1 ≤ issues Concrete.digest Concrete.ticket_bytes (log Concrete.served).
Proof.
  assert (openings Concrete.digest Concrete.ticket_bytes (log Concrete.served) = 1) as E by (vm_compute; reflexivity).
  split; [exact E|]. rewrite <-E at 1.
  refine (proj2 (connector_authorized _ _ _ _ _ _ _ _ _ _ _ _ Concrete.options Concrete.srv Concrete.created.2 Concrete.served
    [Ret tt; Ret tt] Concrete.created_ok Concrete.served_reachable) Concrete.ticket_bytes).
Defined.

Lemma connector_resources_witness :
  cells (memory Concrete.issued) !! 1%nat = Some (tr_Credential Concrete.payload) ∧
  connections (manager Concrete.served) = 0 ∧ cells (memory Concrete.served) !! 1%nat = Some wiped.
Proof.
  split; [vm_compute; reflexivity|].
  destruct (connector_resources _ _ _ _ _ _ _ _ _ _ _ _ Concrete.options Concrete.srv Concrete.created.2 Concrete.served
    [Ret tt; Ret tt] Concrete.created_ok Concrete.served_reachable) as (_ & _ & _ & _ & _ & Hall).
  destruct Hall as (_ & Hc & _).
  - repeat constructor; exists tt; reflexivity.
  - split; [exact Hc|]. vm_compute. reflexivity.
Defined.
