(* ===== verification/ConnectorClient.v ===== *)
(** * The client of the Connector

    Models [services/connector-protocol/client.go] and [runbook_client.go]: the
    endpoint checks, the signed requests and the reading of answers.  JSON
    encoding is the class [JSON], the HTTP exchange a parameter.  The properties
    put client and Connector together: what the client posts, the Connector
    authenticates and serves. *)

From S2P Require Import Prelude GoStrings Encoding Url Credentials ConnectorAuth Protocol Runbook Ledger RunbookHandler.
From S2P Require Import SshConnector ConnectorWebSSH RateLimit TerminalSession Prog ConnectorService ConnectorSystem.

Definition defaultClientTimeout : duration := 100 * second.
Definition defaultMaxResponseBytes : Z := 3145728.

(** [json.Marshal] and [decodeOneJSON] of a message type. *)
Class JSON (A : Type) := { Marshal : A → string; Unmarshal : string → option A }.

Record ClientConfig := mkClientConfig {
  cc_BaseURL : string;
  cc_UnixSocket : string;
  cc_KeyID : string;
  cc_Key : string;
  cc_Timeout : duration;
  cc_MaxResponseBytes : Z;
}.

Record Client := mkClient {
  cl_baseURL : string;
  cl_timeout : duration;
  cl_signer : ConnectorAuth.Signer;
  maxResponseBytes : Z;
}.

(** A failure on the way, or an error that the Connector answered. *)
Inductive client_error := ClientError (message : string) | RemoteError (status : Z) (detail : ErrorDetail).

(** An answer; [None] is a body that could not be read. *)
Record HttpAnswer := mkHttpAnswer { an_StatusCode : Z; an_Body : option string }.

Section client.
Context (Parse : string → option URL) (ParseAddr : string → option Addr).

Definition validateLoopbackBaseURL (value : string) : result string unit :=
  parsed ← of_option (Parse value) "connector base URL must be a loopback HTTP URL";
  require negb ((Scheme parsed ≠? "http") || (Host parsed =? "")) else "connector base URL must be a loopback HTTP URL" ;;
  require negb (HasUser parsed || (Path parsed ≠? "") || (RawQuery parsed ≠? "") || (Fragment parsed ≠? ""))
    else "connector base URL must not contain credentials, path, query, or fragment" ;;
  address ← of_option (ParseAddr (Hostname parsed)) "connector base URL host must be a loopback IP literal";
  require IsLoopback address else "connector base URL host must be a loopback IP literal" ;;
  require negb (url_Port parsed =? "") else "connector base URL must include a port" ;;
  Ok tt.

Definition NewClient (cfg : ClientConfig) : result string Client :=
  let timeout := or_default (cc_Timeout cfg) defaultClientTimeout in
  let max := or_default (cc_MaxResponseBytes cfg) defaultMaxResponseBytes in
  require negb (16777216 <? max)%Z else "connector response limit must not exceed 16 MiB" ;;
  signer ← NewSigner (cc_KeyID cfg) (cc_Key cfg);
  let baseURL := trim_slashes (cc_BaseURL cfg) in
  baseURL ← (if cc_UnixSocket cfg ≠? "" then
               require cc_BaseURL cfg =? "" else "base URL and Unix socket are mutually exclusive" ;;
               require has_prefix "/" (cc_UnixSocket cfg) else "Unix socket path must be absolute" ;;
               Ok "http://connector.local"
             else _ ← validateLoopbackBaseURL baseURL; Ok baseURL);
  Ok (mkClient baseURL timeout signer max).

Context (sha256 : string → string) (hmac : string → string → string).

(** The request as it arrives: [URL.RequestURI] of a base without a path is
    the path of the endpoint. *)
Definition request_for (method path : string) (headers : gmap string (list string)) (body : option string) : HttpRequest :=
  mkHttpRequest (mkRequest method (Some path) headers) path "" ((λ _, "application/json") <$> body) (default 0 (slen <$> body)) body.

Definition json_headers : gmap string (list string) :=
  header_set "Accept" "application/json" (header_set "Content-Type" "application/json" ∅).

(** The signed request that [post] sends. *)
Definition signed_request (c : Client) (path body : string) (now : time) (nonceRandom : option string)
    : result client_error HttpRequest :=
  require bool_decide (is_Some (Parse (cl_baseURL c +:+ path))) else ClientError "create connector request" ;;
  signed ← (match Sign sha256 hmac (cl_signer c) (mkRequest "POST" (Some path) json_headers) body now nonceRandom with
            | Ok r => Ok r | Err e => Err (ClientError e) end);
  Ok (mkHttpRequest signed path "" (Some "application/json") (slen body) (Some body)).

Context (Do : HttpRequest → option HttpAnswer) `{JSON ErrorDetail}.

Definition do {A} `{JSON A} (c : Client) (request : HttpRequest) : result client_error A :=
  response ← of_option (Do request) (ClientError "call connector");
  body ← of_option (read_limited (maxResponseBytes c) <$> an_Body response) (ClientError "read connector response");
  require negb (maxResponseBytes c <? slen body)%Z else ClientError "connector response exceeded configured limit" ;;
  if (an_StatusCode response <? 200)%Z || (300 <=? an_StatusCode response)%Z then
    match Unmarshal body with
    | None => Err (RemoteError (an_StatusCode response) (mkErrorDetail "invalid_error_response" "" "" false))
    | Some detail => Err (RemoteError (an_StatusCode response) detail)
    end
  else of_option (Unmarshal body) (ClientError "decode connector response").

Definition client_post {A B} `{JSON A, JSON B} (c : Client) (path : string) (payload : A) (now : time) (nonceRandom : option string)
    : result client_error B :=
  request ← signed_request c path (Marshal payload) now nonceRandom;
  do c request.

Definition client_get {B} `{JSON B} (c : Client) (path : string) : result client_error B :=
  require bool_decide (is_Some (Parse (cl_baseURL c +:+ path))) else ClientError "create connector request" ;;
  do c (request_for "GET" path (header_set "Accept" "application/json" ∅) None).

(** ** The calls; each sets the protocol version *)

Context `{JSON RuntimeSnapshotRequest, JSON RuntimeSnapshotResponse, JSON HostKeyProbeRequest, JSON HostKeyProbeResponse,
  JSON WebSSHTicketRequest, JSON WebSSHTicketResponse, JSON HealthResponse, JSON VersionResponse}.

Definition client_RuntimeSnapshot (c : Client) (r : RuntimeSnapshotRequest) (now : time) (nonceRandom : option string)
    : result client_error RuntimeSnapshotResponse :=
  client_post c RuntimeSnapshotPath
    (mkSnapshotRequest ProtocolVersion (sq_Target r) (sq_PinnedHostKey r) (sq_Credential r)) now nonceRandom.

Definition client_ProbeHostKey (c : Client) (r : HostKeyProbeRequest) (now : time) (nonceRandom : option string)
    : result client_error HostKeyProbeResponse :=
  client_post c HostKeyProbePath (mkProbeRequest ProtocolVersion (hq_Target r)) now nonceRandom.

Definition versioned (r : WebSSHTicketRequest) : WebSSHTicketRequest :=
  mkTicketRequest ProtocolVersion (tr_Binding r) (tr_Target r) (tr_PinnedHostKey r) (tr_Credential r) (tr_InitialSize r).
Definition client_WebSSHTicket (c : Client) (r : WebSSHTicketRequest) (now : time) (nonceRandom : option string)
    : result client_error WebSSHTicketResponse :=
  client_post c WebSSHTicketPath (versioned r) now nonceRandom.

Definition client_Health (c : Client) : result client_error HealthResponse := client_get c HealthPath.
Definition client_Version (c : Client) : result client_error VersionResponse := client_get c VersionPath.

Context `{JSON RunbookPreviewRequest, JSON RunbookPreviewResponse, JSON RunbookExecuteRequest, JSON RunbookExecuteResponse}.

Definition client_PreviewRunbook (c : Client) (r : RunbookPreviewRequest) (now : time) (nonceRandom : option string)
    : result client_error RunbookPreviewResponse :=
  client_post c RunbookPreviewPath (mkPreviewRequest ProtocolVersion (pr_Binding r)) now nonceRandom.
Definition client_ExecuteRunbook (c : Client) (r : RunbookExecuteRequest) (now : time) (nonceRandom : option string)
    : result client_error RunbookExecuteResponse :=
  client_post c RunbookExecutePath
    (mkExecuteRequest ProtocolVersion (er_Binding r) (er_Approval r) (er_Emergency r) (er_Reason r) (er_PinnedHostKey r) (er_Credential r))
    now nonceRandom.
End client.

(** ** Lemmas *)

Lemma NewClient_Ok Parse ParseAddr cfg c :
  NewClient Parse ParseAddr cfg = Ok c →
  validateKey (cc_KeyID cfg) (cc_Key cfg) = Ok tt ∧ cl_signer c = ConnectorAuth.mkSigner (cc_KeyID cfg) (cc_Key cfg) ∧
  0 < maxResponseBytes c ≤ 16777216 ∧
  ((cl_baseURL c = "http://connector.local" ∧ has_prefix "/" (cc_UnixSocket cfg) = true) ∨
   ∃ parsed address, Parse (cl_baseURL c) = Some parsed ∧ Scheme parsed = "http" ∧ HasUser parsed = false ∧
     ParseAddr (Hostname parsed) = Some address ∧ IsLoopback address = true).
Proof.
  unfold NewClient. intros Hn. apply bind_Ok_inv in Hn as (? & Hmax & Hn). apply bind_Ok_inv in Hn as (signer & Hs & Hn).
  apply bind_Ok_inv in Hn as (base & Hb & Hn). simplify_eq. cbn. unfold NewSigner in Hs. apply bind_Ok_inv in Hs as ([] & Hk & Hs). simplify_eq.
  apply guard_ok_Ok in Hmax. reflect_bools. split_and!; [done|done| |done|].
  { unfold or_default, defaultMaxResponseBytes. destruct (Z.leb_spec (cc_MaxResponseBytes cfg) 0); lia. }
  destruct (cc_UnixSocket cfg ≠? "").
  - apply bind_Ok_inv in Hb as (? & _ & Hb). apply bind_Ok_inv in Hb as (? & Hp & Hb). apply guard_ok_Ok in Hp. simplify_eq. by left.
  - apply bind_Ok_inv in Hb as (? & Hv & Hb). simplify_eq. right. unfold validateLoopbackBaseURL in Hv.
    apply bind_Ok_inv in Hv as (parsed & Hp & Hv). apply bind_Ok_inv in Hv as (? & Hs & Hv). apply bind_Ok_inv in Hv as (? & Hu & Hv).
    apply bind_Ok_inv in Hv as (address & Ha & Hv). apply bind_Ok_inv in Hv as (? & Hl & _).
    apply of_option_Ok in Hp, Ha. apply guard_ok_Ok in Hs, Hu, Hl. reflect_bools. by exists parsed, address.
Qed.

(** The path, the body and the media type of a posted request. *)
Lemma signed_request_Ok Parse sha256 hmac c path body now random request :
  signed_request Parse sha256 hmac c path body now random = Ok request →
  ∃ signed, Sign sha256 hmac (cl_signer c) (mkRequest "POST" (Some path) json_headers) body now random = Ok signed ∧
    request = mkHttpRequest signed path "" (Some "application/json") (slen body) (Some body) ∧ Method signed = "POST".
Proof.
  unfold signed_request. intros Hs. apply bind_Ok_inv in Hs as (? & _ & Hs). apply bind_Ok_inv in Hs as (signed & Hsign & Hs).
  simplify_eq. exists signed. destruct (Sign _ _ _ _ _ _ _) as [r|] eqn:E; simplify_eq. split_and!; [done..|].
  unfold Sign in E. destruct random; [|done]. by simplify_eq/=.
Qed.

(** ** Client and Connector *)

Section together.
Context (Parse : string → option URL) (ToLower : string → string) (ParseAddr : string → option Addr).
Context (sha256 : string → string) (hmac : string → string → string).
Context {PublicKey Signer : Type} (ParseAuthorizedKey : string → option (PublicKey * string))
  (ParsePrivateKey : string → option Signer) (ParsePrivateKeyWithPassphrase : string → string → option Signer).
Context `{JSON ErrorDetail, JSON RuntimeSnapshotRequest, JSON RuntimeSnapshotResponse, JSON HostKeyProbeRequest,
  JSON HostKeyProbeResponse, JSON WebSSHTicketRequest, JSON WebSSHTicketResponse, JSON HealthResponse, JSON VersionResponse}.
(** What the decoder leaves of a request that it refuses. *)
Context (leftover : string → Credential).
Context (decodeHello : string → option WebSSHHelloMessage) `{Decoders} {P : Type} `{Shell P} (srv : Server).
Abbreviation strictly := (λ body, of_option (Unmarshal body) (leftover body)).
Abbreviation Connector := (Connector PublicKey Signer).
Abbreviation serve := (ServeHTTP sha256 hmac Parse ToLower ParseAddr ParseAuthorizedKey ParsePrivateKey
  ParsePrivateKeyWithPassphrase strictly Unmarshal strictly decodeHello srv).

(** [writeJSON] and [writeError]: the bytes of a response; a WebSocket
    has none. *)
Definition render (requestID : string) (message : string → string) (r : Response) : option HttpAnswer :=
  match r with
  | RError status code retryable => Some (mkHttpAnswer status (Some (Marshal (mkErrorDetail code (message code) requestID retryable))))
  | RHealth r => Some (mkHttpAnswer 200 (Some (Marshal r)))
  | RVersion r => Some (mkHttpAnswer 200 (Some (Marshal r)))
  | RSnapshot r => Some (mkHttpAnswer 200 (Some (Marshal r)))
  | RProbe r => Some (mkHttpAnswer 200 (Some (Marshal r)))
  | RTicket r => Some (mkHttpAnswer 201 (Some (Marshal r)))
  | RSocket _ _ => None
  end.

(** The verifier of the Connector accepts the signature of the client now. *)
Record accepts (v : Verifier) (config : ClientConfig) (nonce : string) (sent arrived : time) : Prop := {
  acc_keyID : keyID v = cc_KeyID config;
  acc_key : key v = cc_Key config;
  acc_nonce : slen nonce = 24;
  acc_epoch : post_epoch sent;
  acc_skew : arrived - maxSkew v ≤ sent / second * second ≤ arrived + maxSkew v;
  acc_fresh : nonces v !! cacheKey v (b64_encode nonce) = None;
  acc_room : len (nonces v) < maxNonces v;
}.

(** A posted body within the limit is authenticated. *)
Lemma posted_authenticated config c path body sent nonce request arrived (s : Connector) :
  (∀ k m, slen (hmac k m) = 32) → NewClient Parse ParseAddr config = Ok c → accepts (verifier s) config nonce sent arrived →
  signed_request Parse sha256 hmac c path body sent (Some nonce) = Ok request → slen body ≤ sv_bodyLimit srv →
  ∃ v', run (authenticateJSON sha256 hmac srv request arrived) s =
    (note (EAuthenticated body) (mkConnector v' (requests s) (manager s) (memory s) (log s)), inr body).
Proof.
  intros Hmac Hc [Hid Hk Hn He Hsk Hf Hr] Hs Hlen. apply NewClient_Ok in Hc as (Hvk & Hsig & _).
  apply signed_request_Ok in Hs as (signed & Hsign & -> & _). unfold authenticateJSON. cbn [hr_mediaType hr_ContentLength hr_body].
  rewrite bool_decide_true by done. cbn [negb]. rewrite (proj2 (Z.ltb_ge _ _)) by done. cbn [run act hr_request].
  assert ((Verify sha256 hmac (verifier s) signed body arrived).2 = Ok tt) as Hv.
  { rewrite Hsig in Hsign. refine (sign_verified _ _ (ConnectorAuth.mkSigner (cc_KeyID config) (cc_Key config)) _ _ _ _ nonce signed _ Hmac _ Hid Hk Hn He Hsk Hf Hr Hsign). cbn. by rewrite Hvk. }
  destruct (Verify _ _ _ _ _ _) as [v' res]. cbn in Hv. subst res. by exists v'.
Qed.

Lemma do_succeeds {A} `{JSON A} Do (c : Client) request status body a :
  Do request = Some (mkHttpAnswer status (Some body)) → slen body ≤ maxResponseBytes c → 200 ≤ status < 300 →
  Unmarshal body = Some a → do Do c request = Ok a.
Proof.
  intros Hd Hl Hs Hu. unfold do. rewrite Hd. cbn [of_option mbind result_bind an_Body fmap option_fmap option_map].
  rewrite read_limited_short by done. rewrite (proj2 (Z.ltb_ge (maxResponseBytes c) _)) by done. cbn [negb guard_ok mbind result_bind an_StatusCode].
  rewrite (proj2 (Z.ltb_ge status _)), (proj2 (Z.leb_gt _ status)) by lia. cbn [orb]. by rewrite Hu.
Qed.

Lemma do_remote {A} `{JSON A} Do (c : Client) request status body detail :
  Do request = Some (mkHttpAnswer status (Some body)) → slen body ≤ maxResponseBytes c → 300 ≤ status →
  Unmarshal body = Some detail → do (A := A) Do c request = Err (RemoteError status detail).
Proof.
  intros Hd Hl Hs Hu. unfold do. rewrite Hd. cbn [of_option mbind result_bind an_Body fmap option_fmap option_map].
  rewrite read_limited_short by done. rewrite (proj2 (Z.ltb_ge (maxResponseBytes c) _)) by done. cbn [negb guard_ok mbind result_bind an_StatusCode].
  rewrite (proj2 (Z.leb_le _ status)) by lia. rewrite orb_true_r. by rewrite Hu.
Qed.

Lemma issue_run payload l requestID x (s : Connector) :
  validateWebSSHTicketRequest ParseAddr ParseAuthorizedKey ParsePrivateKey ParsePrivateKeyWithPassphrase payload
    (allowPrivateTargets (webSSH srv)) = true →
  let final := run (issue_ticket sha256 ParseAddr ParseAuthorizedKey ParsePrivateKey ParsePrivateKeyWithPassphrase srv payload l requestID x) s in
  final.2 = RError 429 "ticket_capacity" true ∨
  ∃ ticket, final.2 = RTicket ticket ∧ log final.1 = log s ++ [EIssued (ts_Ticket ticket) payload].
Proof.
  intros Hval. unfold issue_ticket, cfg. rewrite Hval. cbn [negb]. cbv zeta. rewrite run_bind. unfold create_ticket. cbn [run act].
  destruct (createTicket _ _ _ _ _ _ _ _ _ _) as [[m mem] [ticket|e]]; cbn; [right|left; done]. by exists ticket.
Qed.

(** A valid ticket request of the client, alone at the Connector. *)
Lemma ticket_served config c payload sent nonce request requestID x (terminal : connection P) (s s' : Connector) response :
  (∀ k m, slen (hmac k m) = 32) → NewClient Parse ParseAddr config = Ok c → accepts (verifier s) config nonce sent (su_auth x) →
  signed_request Parse sha256 hmac c WebSSHTicketPath (Marshal payload) sent (Some nonce) = Ok request →
  slen (Marshal payload) ≤ sv_bodyLimit srv → enabled (webSSH srv) = true → Unmarshal (Marshal payload) = Some payload →
  validateWebSSHTicketRequest ParseAddr ParseAuthorizedKey ParsePrivateKey ParsePrivateKeyWithPassphrase payload
    (allowPrivateTargets (webSSH srv)) = true →
  run (serve request requestID x terminal) s = (s', response) →
  (response = RError 429 "ticket_capacity" true) ∨
  ∃ ticket, response = RTicket ticket ∧ log s' = log s ++ [EAuthenticated (Marshal payload); EIssued (ts_Ticket ticket) payload].
Proof.
  intros Hmac Hc Hacc Hs Hlen Hen Hu Hval. pose proof Hs as (signed & _ & Er & Em)%signed_request_Ok.
  destruct (posted_authenticated _ _ _ _ _ _ _ _ s Hmac Hc Hacc Hs Hlen) as [v' Hauth].
  assert (hr_Path request = WebSSHTicketPath ∧ hr_RawQuery request = "" ∧ Method (hr_request request) = "POST") as (Ep & Eq & Epost)
    by (rewrite Er; done). clear Er.
  unfold ServeHTTP. cbv zeta. rewrite Ep, Eq, Epost.
  change (WebSSHTicketPath =? HealthPath) with false. change (WebSSHTicketPath =? VersionPath) with false.
  change (WebSSHTicketPath =? RuntimeSnapshotPath) with false. change (WebSSHTicketPath =? HostKeyProbePath) with false.
  rewrite !String.eqb_refl. cbn [negb].
  unfold handleWebSSHTicket, cfg. rewrite Hen. cbn [negb]. rewrite run_bind, Hauth. cbn [fst snd]. rewrite Hu. cbn [of_option].
  rewrite run_bind. destruct (run (allocate _) _) as [s1 l] eqn:Ea. cbn [fst snd].
  assert (log s1 = log s ++ [EAuthenticated (Marshal payload)]) as El by (cbn in Ea; by simplify_eq).
  rewrite run_bind. pose proof (issue_run payload l requestID x s1 Hval) as Hi. cbv zeta in Hi.
  destruct (run (issue_ticket _ _ _ _ _ _ _ _ _ _) s1) as [s2 r2]. cbn in Hi |- *. intros [= <- <-].
  destruct Hi as [->|(ticket & -> & El2)]; [by left|right]. exists ticket. split; [done|]. cbn. rewrite El2, El, <-app_assoc. done.
Qed.


(** * Properties *)

(** C11: when client and Connector share the key and their clocks are within
    the skew, a valid terminal request of the client, sent over loopback or a Unix
    socket only, is authenticated by the Connector and recorded as issued with exactly the
    fields of the request, and the client returns the ticket that the Connector stored; the only other
    outcome is the Connector's capacity error. *)
Theorem client_ticket config c r sent nonce request requestID message x (terminal : connection P) (s s' : Connector) response :
  let payload := versioned r in
  let exchange q := render requestID message (run (serve q requestID x terminal) s).2 in
  let capacity := mkErrorDetail "ticket_capacity" (message "ticket_capacity") requestID true in
  (∀ k m, slen (hmac k m) = 32) → NewClient Parse ParseAddr config = Ok c → accepts (verifier s) config nonce sent (su_auth x) →
  signed_request Parse sha256 hmac c WebSSHTicketPath (Marshal payload) sent (Some nonce) = Ok request →
  slen (Marshal payload) ≤ sv_bodyLimit srv → enabled (webSSH srv) = true → Unmarshal (Marshal payload) = Some payload →
  validateWebSSHTicketRequest ParseAddr ParseAuthorizedKey ParsePrivateKey ParsePrivateKeyWithPassphrase payload
    (allowPrivateTargets (webSSH srv)) = true →
  run (serve request requestID x terminal) s = (s', response) →
  (∀ a, response = RTicket a → Unmarshal (Marshal a) = Some a ∧ slen (Marshal a) ≤ maxResponseBytes c) →
  Unmarshal (Marshal capacity) = Some capacity → slen (Marshal capacity) ≤ maxResponseBytes c →
  (cl_baseURL c = "http://connector.local" ∨
   ∃ parsed address, Parse (cl_baseURL c) = Some parsed ∧ ParseAddr (Hostname parsed) = Some address ∧ IsLoopback address = true) ∧
  let answer := client_WebSSHTicket Parse sha256 hmac exchange c r sent (Some nonce) in
  (answer = Err (RemoteError 429 capacity) ∨
   ∃ ticket, answer = Ok ticket ∧ response = RTicket ticket ∧
     log s' = log s ++ [EAuthenticated (Marshal payload); EIssued (ts_Ticket ticket) payload]).
Proof.
  intros payload exchange capacity Hmac Hc Hacc Hs Hlen Hen Hu Hval Er Hrt Hre Hrl. split.
  { apply NewClient_Ok in Hc as (_ & _ & _ & [[-> _]|(parsed & address & ? & _ & _ & ? & ?)]); [by left|right; eauto]. }
  cbv zeta. unfold client_WebSSHTicket, client_post. fold payload. rewrite Hs. cbn [mbind result_bind].
  assert (exchange request = render requestID message response) as Ex by (unfold exchange; by rewrite Er).
  destruct (ticket_served _ _ _ _ _ _ _ _ _ _ _ _ Hmac Hc Hacc Hs Hlen Hen Hu Hval Er) as [->|(ticket & -> & Hl)].
  - left. eapply do_remote; [exact Ex|done..].
  - right. destruct (Hrt ticket eq_refl). exists ticket. split_and!; [|done|done]. eapply do_succeeds; [exact Ex|done|lia|done].
Qed.
End together.

(** ** A sample exchange *)

Module Exchange.
Definition hmac (k m : string) : string := demo_hmac (demo_key +:+ k) m.
Definition loopback (s : string) : option URL :=
  Some (mkURL "http" "127.0.0.1:9000" "127.0.0.1" "9000" s false "" "" "").
Definition addr (s : string) : option Addr := if s =? "127.0.0.1" then Some (AddrV4 2130706433) else None.
Definition config : ClientConfig := mkClientConfig "http://127.0.0.1:9000/" "" "k1" demo_key 0 0.
Definition client : Client :=
  match NewClient loopback addr config with
  | Ok c => c
  | Err _ => mkClient "" 0 (ConnectorAuth.mkSigner "" "") 0
  end.
Definition ticket : WebSSHTicketResponse :=
  mkTicketResponse "v1" "req_1" (b64_encode Concrete.ticket_bytes) (b64_encode Concrete.session_bytes) (demo_now + 30 * second).
Definition detail : ErrorDetail := mkErrorDetail "ticket_capacity" "busy" "req_1" true.

(** Messages that stand for one value each. *)
Definition constant {A} (text : string) (a : A) : JSON A := {| Marshal _ := text; Unmarshal _ := Some a |}.
#[local] Instance detail_json : JSON ErrorDetail := constant "e" detail.
#[local] Instance request_json : JSON WebSSHTicketRequest := constant "{}" Concrete.payload.
#[local] Instance response_json : JSON WebSSHTicketResponse := constant "t" ticket.
#[local] Instance snapshot_json : JSON RuntimeSnapshotRequest := {| Marshal _ := ""; Unmarshal _ := None |}.
#[local] Instance snapshot_response_json : JSON RuntimeSnapshotResponse := {| Marshal _ := ""; Unmarshal _ := None |}.
#[local] Instance probe_json : JSON HostKeyProbeRequest := {| Marshal _ := ""; Unmarshal _ := None |}.
#[local] Instance probe_response_json : JSON HostKeyProbeResponse := {| Marshal _ := ""; Unmarshal _ := None |}.
#[local] Instance health_json : JSON HealthResponse := {| Marshal _ := ""; Unmarshal _ := None |}.
#[local] Instance version_json : JSON VersionResponse := {| Marshal _ := ""; Unmarshal _ := None |}.

Definition request : HttpRequest :=
  match signed_request loopback Concrete.digest hmac client WebSSHTicketPath "{}" demo_now (Some demo_nonce) with
  | Ok q => q
  | Err _ => Concrete.ticket_request
  end.
Definition serve (q : HttpRequest) : prog (Connector string string) Response :=
  ServeHTTP Concrete.digest hmac loopback id addr (λ s, Some (s, "")) Some (λ pem _, Some pem) (λ b, of_option (Unmarshal b) wiped) Unmarshal
    (λ b, of_option (Unmarshal b) wiped)
    (λ _, Some Concrete.hello) Concrete.srv q "req_1" Concrete.answers Concrete.terminal.
Definition served : Connector string string * Response := run (serve request) Concrete.created.2.
Definition answer : result client_error WebSSHTicketResponse :=
  client_WebSSHTicket loopback Concrete.digest hmac
    (λ q, render "req_1" (λ _, "busy") (run (serve q) Concrete.created.2).2) client Concrete.payload demo_now (Some demo_nonce).
End Exchange.

Lemma client_ticket_witness :
  Exchange.answer = Err (RemoteError 429 Exchange.detail) ∨ ∃ ticket, Exchange.answer = Ok ticket ∧ Exchange.served.2 = RTicket ticket.
Proof.
  destruct (@client_ticket Exchange.loopback id Exchange.addr Concrete.digest Exchange.hmac string string (λ s, Some (s, "")) Some
    (λ pem _, Some pem) Exchange.detail_json Exchange.snapshot_json Exchange.snapshot_response_json Exchange.probe_json
    Exchange.probe_response_json Exchange.request_json Exchange.response_json Exchange.health_json Exchange.version_json
    (λ _, wiped) (λ _, Some Concrete.hello) _ _ _ Concrete.srv Exchange.config Exchange.client Concrete.payload demo_now demo_nonce Exchange.request
    "req_1" (λ _, "busy") Concrete.answers Concrete.terminal Concrete.created.2 Exchange.served.1 Exchange.served.2) as [_ Ha].
  - intros k m. apply demo_hmac_length.
  - vm_compute. reflexivity.
  - split; vm_compute; try reflexivity; split; (discriminate || reflexivity).
  - vm_compute. reflexivity.
  - vm_compute. discriminate.
  - vm_compute. reflexivity.
  - reflexivity.
  - vm_compute. reflexivity.
  - vm_compute. reflexivity.
  - intros a E. assert (RTicket Exchange.ticket = RTicket a) as [= <-] by (rewrite <-E; vm_compute; reflexivity).
    split; [reflexivity|vm_compute; discriminate].
  - reflexivity.
  - vm_compute. discriminate.
  - destruct Ha as [Ha|(t & Ha & Hr & _)]; [left; exact Ha|right; exists t; split; [exact Ha|exact Hr]].
Defined.
