(* ===== verification/SshSession.v ===== *)
(** * SSH connections

    Models the connection logic of [services/connector/sshconnector/client.go]
    ([ProbeHostKey], [Run] with its session), of [runbook.go] next to it and of
    [services/connector/webssh/pty.go].  Resolver, TCP, the SSH library and the
    remote host are a [network]: what they answer; [lawful] states what the code
    relies on of the library.  Every function returns the trace of what it did
    to the outside, its resources included. *)

From S2P Require Import Prelude GoStrings Encoding Credentials Protocol Runbook SshConnector ConnectorWebSSH TerminalSession ConnectorService.

(** [net.JoinHostPort] with [strconv.Itoa]. *)
Definition JoinHostPort (host : string) (port : Z) : string :=
  (if contains_char ":" host then "[" +:+ host +:+ "]" else host) +:+ ":" +:+ itoa port.

(** What the handles are: the TCP connection, the SSH client and session on
    it, the two ends of the output pipe. *)
Inductive handle := HConn | HClient | HSession | HReader | HWriter.
#[global] Instance handle_eq_dec : EqDecision handle.
Proof. solve_decision. Defined.
#[global] Instance handle_countable : Countable handle.
Proof.
  refine (inj_countable' (λ h, match h with HConn => 0 | HClient => 1 | HSession => 2 | HReader => 3 | HWriter => 4 end%nat)
    (λ n, match n with 0 => HConn | 1 => HClient | 2 => HSession | 3 => HReader | _ => HWriter end%nat) _).
  by intros [].
Defined.

(** Closing a client closes the connection below it. *)
Definition close_handle (opened : gset handle) (h : handle) : gset handle :=
  match h with HClient => opened ∖ {[ HClient; HConn ]} | _ => opened ∖ {[ h ]} end.

Inductive ctx_error := CtxCanceled | CtxDeadline.

(** The error of [session.Wait]: an exit status, or something else, which may
    be the error of a write to the buffers. *)
Inductive wait_error := ExitError (status : Z) | WaitFailed (cause : option ssh_error).

(** The branch of the [select] that is taken. *)
Inductive session_end := EndWait (e : option wait_error) | EndExceeded | EndContext (c : ctx_error).

Inductive run_failure :=
| FailedSSH (e : ssh_error) (cause : option ctx_error)   (* a context error that it wraps *)
| FailedExit (status : Z)
| FailedWait (cause : option ssh_error)
| FailedContext (c : ctx_error).

Section ssh.
Context {PublicKey : Type} (Marshal : PublicKey → string) (ParseAddr : string → option Addr) (AddrString : Addr → string).
(** [ssh.PublicKey.Type], [ssh.FingerprintSHA256] and [ssh.MarshalAuthorizedKey]. *)
Context (KeyType FingerprintSHA256 MarshalAuthorizedKey : PublicKey → string).

Inductive ssh_event :=
| EDial (ip : Addr) (port : Z)
| EPresented (key : PublicKey)
| EAuthenticate (user : string)
| EStart (script : string)
| EPty (rows columns : Z)
| EShell
| EOpen (h : handle)
| EClose (h : handle).

(** What [ssh.NewClientConn] does: the key it passes to the callback, whether
    it goes on to authenticate, and its error. *)
Record handshake := mkHandshake {
  hs_key : option PublicKey;
  hs_authenticates : bool;
  hs_error : option ssh_error;
}.

Record network := mkNetwork {
  nw_lookup : option (list Addr);
  nw_dial : bool;
  nw_cause : option ctx_error;
  nw_handshake : (PublicKey → result ssh_error unit) → string → string → handshake;
  nw_session : bool;
  nw_stdin : bool;
  nw_start : bool;
  nw_pty : bool;
  nw_shell : bool;
  nw_writes : list (bool * string);      (* by the remote host, until the select; true is stderr *)
  nw_later : list (bool * string);       (* after it, until the buffers are read *)
  nw_end : session_end;
  nw_duration : duration;
}.

Definition handshake_events (h : handshake) (user : string) : list ssh_event :=
  option_list (EPresented <$> hs_key h) ++ if hs_authenticates h then [EAuthenticate user] else [].

(** ** Probing a host key *)

Definition ProbeHostKey (address : string) (port : Z) (allowPrivate : bool) (net : network)
    : list ssh_event * result ssh_error HostKeyObservation :=
  if (trim_space address =? "") || (port <? 1)%Z || (65535 <? port)%Z then
    ([], Err (ErrSSH "valid SSH target address and port are required"))
  else match resolveTarget ParseAddr address allowPrivate (nw_lookup net) with
  | Err e => ([], Err e)
  | Ok targetIP =>
    if negb (nw_dial net) then ([EDial targetIP port], Err (ErrSSH "SSH probe TCP connection failed"))
    else
      let h := nw_handshake net (λ _, Err (ErrSSH "host key probe complete")) (JoinHostPort address port) "host-key-probe" in
      ([EDial targetIP port; EOpen HConn] ++ handshake_events h "host-key-probe" ++ [EClose HConn],
       match hs_error h, hs_key h with
       | None, _ => Err (ErrSSH "SSH host-key probe did not stop after key exchange")
       | Some e, None => Err (ErrSSH "SSH host-key probe failed before key observation")
       | Some _, Some observed =>
         Ok (mkObservation (KeyType observed) (FingerprintSHA256 observed) (trim_space (MarshalAuthorizedKey observed))
               (AddrString targetIP))
       end)
  end.

(** ** Running a command *)

Definition write_all_to (s : buffers) (l : list (bool * string)) : buffers := foldl (λ s w, (Write s w.1 w.2).1) s l.

(** A failed lookup, dial or handshake may wrap the error of the context. *)
Definition network_failure (net : network) (e : ssh_error) : run_failure :=
  FailedSSH e (match e with ErrSSH _ => nw_cause net | _ => None end).

Definition runSession (command : string) (maxBytes : Z) (net : network)
    : list ssh_event * (SshConnector.Result * option run_failure) :=
  let zero := SshConnector.mkResult "" "" 0 0 in
  if negb (nw_session net) then ([], (zero, Some (FailedSSH (ErrSSH "create ssh session") None)))
  else if negb (nw_start net) then
    ([EOpen HSession; EStart command; EClose HSession], (zero, Some (FailedSSH (ErrSSH "start ssh command") None)))
  else
    let b := write_all_to (newBuffers maxBytes) (nw_writes net) in
    let late := write_all_to b (nw_later net) in
    let stopped := SshConnector.mkResult (out late) (err late) (-1) (nw_duration net) in
    let finished code := SshConnector.mkResult (out b) (err b) code (nw_duration net) in
    match nw_end net with
    | EndExceeded => ([EOpen HSession; EStart command; EClose HClient; EClose HSession], (stopped, Some (FailedSSH ErrOutputLimit None)))
    | EndContext c => ([EOpen HSession; EStart command; EClose HClient; EClose HSession], (stopped, Some (FailedContext c)))
    | EndWait e =>
      ([EOpen HSession; EStart command; EClose HSession],
       match e with
       | None => (finished 0, None)
       | Some (ExitError status) => (finished status, Some (FailedExit status))
       | Some (WaitFailed cause) => (finished (-1), Some (FailedWait cause))
       end)
    end.

Definition Run (cfg : Config) (command : Command) (net : network) : list ssh_event * (SshConnector.Result * option run_failure) :=
  let zero := SshConnector.mkResult "" "" 0 0 in
  match validateConfig (PublicKey := PublicKey) cfg with
  | Err e => ([], (zero, Some (FailedSSH e None)))
  | Ok _ =>
    if (c_id command =? "") || (trim_space (c_script command) =? "") then
      ([], (zero, Some (FailedSSH (ErrSSH "catalog command is required") None)))
    else
      let maxBytes := or_default (sc_MaxOutputBytes cfg) 1048576 in
      match resolveTarget ParseAddr (sc_Address cfg) (sc_AllowPrivateTargets cfg) (nw_lookup net) with
      | Err e => ([], (zero, Some (network_failure net e)))
      | Ok targetIP =>
        if negb (nw_dial net) then ([EDial targetIP (sc_Port cfg)], (zero, Some (network_failure net (ErrSSH "ssh tcp connection failed"))))
        else
          let h := nw_handshake net (PinnedHostKeyCallback Marshal (sc_PinnedHostKey cfg))
                     (JoinHostPort (sc_Address cfg) (sc_Port cfg)) (sc_User cfg) in
          let opening := [EDial targetIP (sc_Port cfg); EOpen HConn] ++ handshake_events h (sc_User cfg) in
          match hs_error h with
          | Some e => (opening ++ [EClose HConn], (zero, Some (network_failure net e)))
          | None =>
            let '(events, r) := runSession (c_script command) maxBytes net in
            (opening ++ [EOpen HClient] ++ events ++ [EClose HClient; EClose HConn], r)
          end
      end
  end.

(** The runbook adapter; [runbook.ErrOutputLimit] is the limit of that
    package. *)
Definition translateRunbookError (e : run_failure) : run_error :=
  match e with
  | FailedSSH SshConnector.ErrOutputLimit _ | FailedWait (Some SshConnector.ErrOutputLimit) => Runbook.ErrOutputLimit
  | FailedSSH _ (Some CtxCanceled) => Canceled
  | FailedSSH _ (Some CtxDeadline) => DeadlineExceeded
  | FailedContext CtxCanceled => Canceled
  | FailedContext CtxDeadline => DeadlineExceeded
  | FailedExit status => RunOther ("remote command exited with status " +:+ itoa status)
  | FailedSSH (ErrSSH message) None => RunOther message
  | FailedSSH ErrHostKeyRequired None => RunOther "a pinned host key is required"
  | FailedSSH ErrHostKeyMismatch None => RunOther "ssh host key does not match the pinned key"
  | FailedSSH ErrTargetDenied None => RunOther "ssh target is denied by network policy"
  | FailedWait _ => RunOther "wait for ssh command"
  end.

Definition with_timeout (cfg : Config) (timeout : duration) : Config :=
  mkConfig (sc_Address cfg) (sc_Port cfg) (sc_User cfg) (sc_HasAuth cfg) (sc_PinnedHostKey (PublicKey := PublicKey) cfg)
    (sc_ConnectTimeout cfg) timeout (sc_MaxOutputBytes cfg) (sc_AllowPrivateTargets cfg).

Definition RunRunbookStep (sha256 : string → string) (cfg : Config) (step : Step) (net : network)
    : list ssh_event * (CommandResult * option run_error) :=
  if negb (IsReviewedCatalogStep sha256 step) || (step_command step =? "") then
    ([], (mkCommandResult "" "" 0 0, Some RunInvalidPlan))
  else
    let cfg := if (0 <? step_timeout step)%Z && ((sc_CommandTimeout cfg <=? 0)%Z || (step_timeout step <? sc_CommandTimeout cfg)%Z)
               then with_timeout cfg (step_timeout step) else cfg in
    let '(events, (r, e)) := Run cfg (mkCommand ("runbook:" +:+ step_id step) (step_command step)) net in
    (events, (mkCommandResult (r_Stdout r) (r_Stderr r) (r_ExitCode r) (r_Duration r), translateRunbookError <$> e)).

(** ** Terminals *)

Record PtyConfig := mkPtyConfig {
  py_Address : string;
  py_Port : Z;
  py_User : string;
  py_HasAuth : bool;
  py_PinnedHostKey : option PublicKey;
  py_InitialSize : TerminalSize;
  py_ConnectTimeout : duration;
  py_AllowPrivateTargets : bool;
}.

Definition validateSize (size : TerminalSize) : result ssh_error unit :=
  if (Columns size <? 20)%Z || (500 <? Columns size)%Z || (Rows size <? 5)%Z || (300 <? Rows size)%Z ||
     (10000 <? WidthPixels size)%Z || (10000 <? HeightPixels size)%Z
  then Err (ErrSSH "web SSH terminal size is outside the allowed range") else Ok tt.

Definition validatePtyConfig (cfg : PtyConfig) : result ssh_error unit :=
  if (trim_space (py_Address cfg) =? "") || (253 <? slen (py_Address cfg))%Z then Err (ErrSSH "web SSH address is required")
  else if (py_Port cfg <? 1)%Z || (65535 <? py_Port cfg)%Z then Err (ErrSSH "web SSH port must be between 1 and 65535")
  else if (trim_space (py_User cfg) =? "") || (64 <? slen (py_User cfg))%Z then Err (ErrSSH "web SSH user is required")
  else if negb (py_HasAuth cfg) then Err (ErrSSH "web SSH authentication method is required")
  else match py_PinnedHostKey cfg with None => Err ErrHostKeyRequired | Some _ => validateSize (py_InitialSize cfg) end.

(** The resolver of this package: it checks the text of an address. *)
Definition resolvePtyTarget (address : string) (allowPrivate : bool) (lookup : option (list Addr)) : result ssh_error Addr :=
  let candidates :=
    match ParseAddr address with
    | Some parsed => Ok [Unmap parsed]
    | None => match lookup with None => Err (ErrSSH "resolve web SSH target") | Some resolved => Ok (map Unmap resolved) end
    end in
  match candidates with
  | Err e => Err e
  | Ok [] => Err (ErrSSH "web SSH target resolved to no addresses")
  | Ok (x :: l) =>
    if forallb (λ c, is_ok (ValidateTargetLiteral ParseAddr (AddrString c) allowPrivate)) (x :: l)
    then Ok (least x l) else Err ErrTargetDenied
  end.

(** The trace and the error; without one the session owns its handles. *)
Definition OpenPTY (cfg : PtyConfig) (net : network) : list ssh_event * option ssh_error :=
  match validatePtyConfig cfg with
  | Err e => ([], Some e)
  | Ok _ =>
    match resolvePtyTarget (py_Address cfg) (py_AllowPrivateTargets cfg) (nw_lookup net) with
    | Err e => ([], Some e)
    | Ok targetIP =>
      if negb (nw_dial net) then ([EDial targetIP (py_Port cfg)], Some (ErrSSH "web SSH TCP connection failed"))
      else
        let h := nw_handshake net (PinnedHostKeyCallback Marshal (py_PinnedHostKey cfg))
                   (JoinHostPort (py_Address cfg) (py_Port cfg)) (py_User cfg) in
        let opening := [EDial targetIP (py_Port cfg); EOpen HConn] ++ handshake_events h (py_User cfg) in
        match hs_error h with
        | Some e => (opening ++ [EClose HConn], Some e)
        | None =>
          let opening := opening ++ [EOpen HClient] in
          if negb (nw_session net) then (opening ++ [EClose HClient; EClose HConn], Some (ErrSSH "create web SSH session"))
          else
            let opening := opening ++ [EOpen HSession] in
            if negb (nw_stdin net) then
              (opening ++ [EClose HSession; EClose HClient; EClose HConn], Some (ErrSSH "open web SSH input"))
            else
              let opening := opening ++ [EOpen HReader; EOpen HWriter; EPty (Rows (py_InitialSize cfg)) (Columns (py_InitialSize cfg))] in
              let closing := [EClose HReader; EClose HWriter; EClose HSession; EClose HClient] in
              if negb (nw_pty net) then (opening ++ closing, Some (ErrSSH "request web SSH PTY"))
              else if negb (nw_shell net) then (opening ++ [EShell] ++ closing, Some (ErrSSH "start web SSH shell"))
              else (opening ++ [EShell], None)
        end
    end
  end.

(** A session over what the library provides, [shell]: the handles that are
    open, whether [Close] was called, and the answer of [Wait] once it is known. *)
Record ptySession {S : Type} := mkPtySession {
  shell : S;
  handles : gset handle;
  close_called : bool;
  waitErr : option (option wait_error);
}.
Arguments ptySession : clear implicits.
Arguments mkPtySession {S}.

Inductive close_error := CloseEOF | CloseFailed (e : string).

Definition pty_Wait {S} (answer : option wait_error) (s : ptySession S) : ptySession S * option wait_error :=
  match waitErr s with
  | Some known => (s, known)
  | None => (mkPtySession (shell s) (close_handle (handles s) HWriter) (close_called s) (Some answer), answer)
  end.

Definition pty_Close {S} (sessionClose clientClose : option close_error) (s : ptySession S) : ptySession S * option close_error :=
  if close_called s then (s, None)
  else
    let closeErr := match sessionClose with Some CloseEOF | None => None | Some e => Some e end in
    (mkPtySession (shell s) (foldl close_handle (handles s) [HWriter; HReader; HSession; HClient]) true (waitErr s),
     match closeErr, clientClose with Some e, _ => Some e | None, e => e end).

(** [WriteInput] and [Resize] of a session, given those of the library. *)
Definition pty_WriteInput {S} (write : string → S → S * (Z * bool)) (v : string) (s : ptySession S) : ptySession S * (Z * bool) :=
  let '(sh, r) := write v (shell s) in (mkPtySession sh (handles s) (close_called s) (waitErr s), r).
Definition pty_Resize {S} (windowChange : TerminalSize → S → S * bool) (size : TerminalSize) (s : ptySession S) : ptySession S * bool :=
  match validateSize size with
  | Err _ => (s, true)
  | Ok _ => let '(sh, failed) := windowChange size (shell s) in (mkPtySession sh (handles s) (close_called s) (waitErr s), failed)
  end.

(** The calls on a session, by any of its users. *)
Inductive pty_call {S : Type} :=
| CallWrite (write : string → S → S * (Z * bool)) (v : string)
| CallResize (windowChange : TerminalSize → S → S * bool) (size : TerminalSize)
| CallWait (answer : option wait_error)
| CallClose (sessionClose clientClose : option close_error).
Arguments pty_call : clear implicits.

Definition pty_after {S} (s : ptySession S) (call : pty_call S) : ptySession S :=
  match call with
  | CallWrite write v => (pty_WriteInput write v s).1
  | CallResize windowChange size => (pty_Resize windowChange size s).1
  | CallWait answer => (pty_Wait answer s).1
  | CallClose sessionClose clientClose => (pty_Close sessionClose clientClose s).1
  end.
(** The session that [OpenPTY] returns: it owns what is open. *)
Definition opened_session {S} (sh : S) (opened : gset handle) : ptySession S := mkPtySession sh opened false None.
End ssh.
Arguments ssh_event : clear implicits.
Arguments network : clear implicits.
Arguments handshake : clear implicits.
Arguments PtyConfig : clear implicits.
Arguments ptySession : clear implicits.

(** A terminal is what a web SSH session needs of a shell, if the library's
    input pipe and window changes are. *)
#[global] Instance pty_shell {S} `{Shell S} : Shell (ptySession S) := {|
  WriteInput := pty_WriteInput WriteInput;
  Resize := pty_Resize Resize;
|}.
#[global] Instance pty_laws {S} `{ShellLaws S} : ShellLaws (ptySession S).
Proof.
  refine {| received := λ s, received (shell s); window := λ s, window (shell s) |}.
  - intros v [s h c w] n failed p'. cbn. unfold pty_WriteInput. cbn. destruct (WriteInput v s) as [s' r] eqn:E. intros [= <- ->].
    by apply WriteInput_received in E.
  - intros size [s h c w] failed p'. cbn. unfold pty_Resize. destruct (validateSize size); [|by intros [= <- <-]]. cbn.
    destruct (Resize size s) as [s' r] eqn:E. intros [= <- <-]. by apply Resize_received in E.
Defined.

(** ** The protocol of a connection *)

(** The stages: nothing, dialled to an allowed address, host key accepted or
    not, authenticated. *)
Inductive stage := Idle | Dialled | Distrusted | Trusted | LoggedIn.

Section protocol.
Context {PublicKey : Type} (Marshal : PublicKey → string).
(** The policy, the pinned key, the user, and what may be done once logged in. *)
Context (allowPrivate : bool) (pinned : option PublicKey) (user : string) (permitted : ssh_event PublicKey → bool).
Abbreviation event := (ssh_event PublicKey).

Definition advance (s : option stage) (e : event) : option stage :=
  s ← s;
  match e, s with
  | EOpen _, _ | EClose _, _ => Some s
  | EDial ip _, Idle => if targetAllowed ip allowPrivate then Some Dialled else None
  | EPresented k, Dialled => Some (if is_ok (PinnedHostKeyCallback Marshal pinned k) then Trusted else Distrusted)
  | EAuthenticate u, Trusted => if u =? user then Some LoggedIn else None
  | EStart _, LoggedIn | EPty _ _, LoggedIn | EShell, LoggedIn => if permitted e then Some LoggedIn else None
  | _, _ => None
  end.

Definition stage_after (l : list event) : option stage := foldl advance (Some Idle) l.

(** Every event of the trace is allowed where it happens. *)
Definition follows (l : list event) : Prop := is_Some (stage_after l).

Lemma stage_app l l' : stage_after (l ++ l') = foldl advance (stage_after l) l'.
Proof. apply foldl_app. Qed.

(** The handles that a trace leaves open. *)
Definition still_open (l : list event) : gset handle :=
  foldl (λ o e, match e with
    | EOpen h => {[ h ]} ∪ o
    | EClose h => close_handle o h
    | _ => o end) ∅ l.

(** What the code relies on of [ssh.NewClientConn]: it authenticates only
    after the callback has accepted the key that was presented, and it
    succeeds only if it has authenticated. *)
Record lawful_handshake (callback : PublicKey → result ssh_error unit) (h : handshake PublicKey) : Prop := {
  lh_accepted : hs_authenticates h = true → ∃ k, hs_key h = Some k ∧ callback k = Ok tt;
  lh_complete : hs_error h = None → hs_authenticates h = true;
}.
Definition lawful (net : network PublicKey) : Prop :=
  ∀ callback identity u, lawful_handshake callback (nw_handshake net callback identity u).

Lemma is_ok_Ok {E} (r : result E unit) : is_ok r = true → r = Ok tt.
Proof. by destruct r as [[]|]. Qed.

(** Dialling and the handshake follow the protocol, and end logged in when
    the handshake succeeds. *)
Lemma opening_follows ip port h :
  targetAllowed ip allowPrivate = true → lawful_handshake (PinnedHostKeyCallback Marshal pinned) h →
  ∃ s, stage_after ([EDial ip port; EOpen HConn] ++ handshake_events h user) = Some s ∧ (hs_error h = None → s = LoggedIn).
Proof.
  intros Ha [Hacc Hok]. rewrite stage_app. unfold handshake_events. cbn [stage_after foldl advance mbind option_bind]. rewrite Ha. cbn [mbind option_bind].
  destruct (hs_authenticates h) eqn:Eauth.
  - destruct (Hacc eq_refl) as (k & -> & Hk). exists LoggedIn. cbn. rewrite Hk. cbn. by rewrite String.eqb_refl.
  - destruct (hs_key h) as [k|]; cbn; (eexists; split; [done|]; intros E; by apply Hok in E).
Qed.

Lemma handshake_open h l : still_open (l ++ handshake_events h user) = still_open l.
Proof. unfold handshake_events. unfold still_open. rewrite !foldl_app. destruct (hs_key h), (hs_authenticates h); done. Qed.
End protocol.

(** The candidates that a resolver accepts are allowed. *)
Lemma resolveTarget_allowed ParseAddr address allow lookup ip :
  resolveTarget ParseAddr address allow lookup = Ok ip → targetAllowed ip allow = true.
Proof.
  unfold resolveTarget. intros E. case_match; [|done]. case_match; [done|]. case_match; [|done]. simplify_eq.
  match goal with G : forallb _ _ = true |- _ => rewrite forallb_forall in G; apply G end.
  apply list_elem_of_In, least_in.
Qed.

(** ** The two resolvers agree *)

(** An address of 4 or 16 bytes. *)
Definition proper (a : Addr) : bool :=
  match a with
  | AddrInvalid => false
  | AddrV4 v => (0 <=? v)%Z && (v <? 2 ^ 32)%Z
  | AddrV6 v _ => (0 <=? v)%Z && (v <? 2 ^ 128)%Z
  end.
Definition proper_answers (lookup : option (list Addr)) : Prop :=
  match lookup with Some l => Forall (λ a, proper a = true) l | None => True end.

Lemma Unmap_proper a : proper a = true → proper (Unmap a) = true.
Proof.
  destruct a as [|a|a zone]; [done..|]. cbn [Unmap]. case_match; [|done]. intros _. unfold proper.
  change 4294967295%Z with (Z.ones 32). rewrite Z.land_ones by lia. pose proof (Z.mod_pos_bound a (2 ^ 32)). lia.
Qed.

Section resolvers.
Context (ParseAddr : string → option Addr) (AddrString : Addr → string).

(** [netip]: the text of an address is parsed back, and parsing gives
    addresses within their width. *)
Class AddrText : Prop := {
  ParseAddr_String a : proper a = true → ParseAddr (AddrString a) = Some a;
  ParseAddr_proper s a : ParseAddr s = Some a → proper a = true;
}.

Lemma literal_checks `{!AddrText} allow l :
  Forall (λ a, proper a = true) l →
  forallb (λ c, is_ok (ValidateTargetLiteral ParseAddr (AddrString c) allow)) l = forallb (λ c, targetAllowed c allow) l.
Proof.
  induction 1 as [|a l Ha _ IH]; [done|]. cbn [forallb]. rewrite IH. f_equal. unfold ValidateTargetLiteral.
  rewrite ParseAddr_String by done. by destruct (targetAllowed a allow).
Qed.

Lemma resolvers_agree `{!AddrText} address allow lookup ip :
  proper_answers lookup →
  resolvePtyTarget ParseAddr AddrString address allow lookup = Ok ip ↔ resolveTarget ParseAddr address allow lookup = Ok ip.
Proof.
  intros Hlook. unfold resolvePtyTarget, resolveTarget. destruct (ParseAddr address) as [a|] eqn:Ep.
  - rewrite (literal_checks allow [Unmap a]); [done|]. constructor; [|done]. by eapply Unmap_proper, ParseAddr_proper.
  - destruct lookup as [l|]; [|done]. destruct (map Unmap l) as [|x rest] eqn:El; [done|]. rewrite literal_checks; [done|].
    rewrite <-El. apply Forall_map. eapply Forall_impl; [exact Hlook|]. apply Unmap_proper.
Qed.
End resolvers.

(** ** The output of a command *)

Definition stream (toErr : bool) (l : list (bool * string)) : string :=
  foldr (λ w s, if Bool.eqb w.1 toErr then w.2 +:+ s else s) "" l.

Lemma write_exceeded l s : exceeded (budget s) = true → exceeded (budget (write_all_to s l)) = true.
Proof.
  revert s. induction l as [|[e p] l IH]; intros s Hs; [done|]. apply IH. unfold Write, reserve. cbn.
  by destruct e; repeat case_match; simplify_eq.
Qed.

Lemma take_str_all s : take_str (Z.to_nat (slen s)) s = s.
Proof. unfold slen. rewrite Nat2Z.id. induction s as [|a s IH]; [done|]. cbn. by rewrite IH. Qed.

(** A write that fits is appended whole. *)
Lemma write_fits s e p :
  0 ≤ remaining (budget s) → exceeded (budget (Write s e p).1) = false → exceeded (budget s) = false →
  let s' := (Write s e p).1 in
  0 ≤ remaining (budget s') ∧ remaining (budget s') = remaining (budget s) - slen p ∧
  out s' = (if e then out s else out s +:+ p) ∧ err s' = (if e then err s +:+ p else err s).
Proof.
  intros Hr. unfold Write, reserve. destruct (Z.ltb_spec (remaining (budget s)) (slen p)) as [Hlt|Hge].
  - rewrite (proj2 (Z.ltb_lt _ _)) by done. cbn. done.
  - rewrite (proj2 (Z.ltb_ge (slen p) _)) by lia. cbn. intros _ _. assert (0 ≤ slen p) by (unfold slen; lia).
    assert (∀ buf, commit buf p (slen p) = buf +:+ p) as Hc.
    { intros buf. unfold commit. destruct (Z.ltb_spec 0 (slen p)); [by rewrite take_str_all|]. destruct p; [by rewrite append_nil|].
      unfold slen in *. cbn in *. lia. }
    destruct e; cbn; rewrite Hc; split_and!; lia || done.
Qed.

Lemma writes_complete l s :
  0 ≤ remaining (budget s) → exceeded (budget (write_all_to s l)) = false →
  out (write_all_to s l) = out s +:+ stream false l ∧ err (write_all_to s l) = err s +:+ stream true l ∧
  slen (stream false l) + slen (stream true l) ≤ remaining (budget s).
Proof.
  revert s. induction l as [|[e p] l IH]; intros s Hr Hex.
  { cbn. rewrite !append_nil. done. }
  change (write_all_to s ((e, p) :: l)) with (write_all_to (Write s e p).1 l) in *.
  assert (exceeded (budget s) = false) as Hs.
  { destruct (exceeded (budget s)) eqn:E; [|done]. apply (write_exceeded ((e, p) :: l)) in E. exact (eq_trans (eq_sym E) Hex). }
  assert (exceeded (budget (Write s e p).1) = false) as Hw.
  { destruct (exceeded (budget (Write s e p).1)) eqn:E; [|done]. by rewrite (write_exceeded l _ E) in Hex. }
  destruct (write_fits s e p Hr Hw Hs) as (Hr' & Er & Eo & Ee). destruct (IH _ Hr' Hex) as (-> & -> & Hl). rewrite Eo, Ee.
  rewrite Er in Hl. destruct e; cbn [stream foldr Bool.eqb fst snd]; fold (stream false l); fold (stream true l);
    rewrite ?append_assoc, ?slen_append; split_and!; done || lia.
Qed.

(** ** Every connection follows the protocol *)

Section follows.
Context {PublicKey : Type} (Marshal : PublicKey → string) (ParseAddr : string → option Addr) (AddrString : Addr → string).
Context (KeyType FingerprintSHA256 MarshalAuthorizedKey : PublicKey → string).
Implicit Types net : network PublicKey.
Implicit Types l : list (ssh_event PublicKey).

Definition only_script (script : string) (e : ssh_event PublicKey) : bool :=
  match e with EStart s => s =? script | _ => false end.
Definition only_shell (size : TerminalSize) (e : ssh_event PublicKey) : bool :=
  match e with EPty rows columns => (rows =? Rows size)%Z && (columns =? Columns size)%Z | EShell => true | _ => false end.
Definition nothing (e : ssh_event PublicKey) : bool := false.

(** What comes after an opening with a known stage. *)
Lemma follows_after allow pinned user permitted l l' s :
  stage_after Marshal allow pinned user permitted l = Some s →
  is_Some (foldl (advance Marshal allow pinned user permitted) (Some s) l') →
  follows Marshal allow pinned user permitted (l ++ l').
Proof. intros E Hl. unfold follows. by rewrite stage_app, E. Qed.

Lemma still_open_app l l' : still_open (l ++ l') = foldl (λ o e, match e with
    | EOpen h => {[ h ]} ∪ o
    | EClose HClient => o ∖ {[ HClient; HConn ]}
    | EClose h => o ∖ {[ h ]}
    | _ => o end) (still_open l) l'.
Proof. apply foldl_app. Qed.

Ltac handles := cbn [fst snd]; rewrite still_open_app, handshake_open; cbn; set_solver.

Lemma Run_follows cfg command net :
  lawful net →
  let t := (Run Marshal ParseAddr cfg command net).1 in
  follows Marshal (sc_AllowPrivateTargets cfg) (sc_PinnedHostKey cfg) (sc_User cfg) (only_script (c_script command)) t ∧
  still_open t = ∅.
Proof.
  intros Hl. cbv zeta. unfold Run. destruct (validateConfig cfg); [|by split; [eexists|]]. case_match; [by split; [eexists|]|].
  destruct (resolveTarget _ _ _ _) as [ip|] eqn:Er; [|by split; [eexists|]]. apply resolveTarget_allowed in Er.
  destruct (nw_dial net); cbn [negb]; [|split; [|done]; unfold follows; cbn; rewrite Er; by eexists].
  set (h := nw_handshake _ _ _ _).
  destruct (opening_follows Marshal (sc_AllowPrivateTargets cfg) (sc_PinnedHostKey cfg) (sc_User cfg) (only_script (c_script command))
    ip (sc_Port cfg) h Er (Hl _ _ _)) as (s & Hs & Hlog).
  destruct (hs_error h) as [e|]; [split; [by eapply follows_after; [exact Hs|]; eexists|handles]|].
  rewrite (Hlog eq_refl) in Hs. clear Hlog s.
  assert (∀ tail r, (runSession (c_script command) (or_default (sc_MaxOutputBytes cfg) 1048576) net) = (tail, r) →
    is_Some (foldl (advance Marshal (sc_AllowPrivateTargets cfg) (sc_PinnedHostKey cfg) (sc_User cfg) (only_script (c_script command)))
      (Some LoggedIn) ([EOpen HClient] ++ tail ++ [EClose HClient; EClose HConn])) ∧
    (foldl (λ o e, match e with EOpen h => {[ h ]} ∪ o | EClose HClient => o ∖ {[ HClient; HConn ]} | EClose h => o ∖ {[ h ]} | _ => o end)
      {[ HConn ]} ([EOpen HClient] ++ tail ++ [EClose HClient; EClose HConn]) : gset handle) = ∅) as Htail.
  { intros tail r. unfold runSession. repeat case_match; intros [= <- <-]; cbn; rewrite ?String.eqb_refl; cbn;
      (split; [by eexists|set_solver]). }
  destruct (runSession _ _ _) as [tail r]. destruct (Htail _ _ eq_refl) as [Ht Ho]. split; [by eapply follows_after|].
  cbn [fst]. rewrite still_open_app, handshake_open. change (still_open [EDial ip (sc_Port cfg); EOpen HConn]) with ({[ HConn ]} ∪ ∅ : gset handle).
  rewrite union_empty_r_L. exact Ho.
Qed.

Lemma ProbeHostKey_follows address port allow net :
  lawful net →
  let t := (ProbeHostKey ParseAddr AddrString KeyType FingerprintSHA256 MarshalAuthorizedKey address port allow net).1 in
  follows Marshal allow None "" nothing t ∧ still_open t = ∅.
Proof.
  intros Hl. cbv zeta. unfold ProbeHostKey. case_match; [by split; [eexists|]|].
  destruct (resolveTarget _ _ _ _) as [ip|] eqn:Er; [|by split; [eexists|]]. apply resolveTarget_allowed in Er.
  destruct (nw_dial net); cbn [negb]; [|split; [|done]; unfold follows; cbn; rewrite Er; by eexists].
  set (h := nw_handshake _ _ _ _). cbn [fst]. destruct (Hl (λ _, Err (ErrSSH "host key probe complete")) (JoinHostPort address port) "host-key-probe") as [Hacc _].
  fold h in Hacc. assert (hs_authenticates h = false) as Ha by (destruct (hs_authenticates h); [by destruct (Hacc eq_refl) as (? & _ & ?)|done]).
  rewrite app_assoc. split; [|handles]. unfold handshake_events. rewrite Ha, app_nil_r. unfold follows, stage_after.
  destruct (hs_key h); cbn; rewrite Er; by eexists.
Qed.

Lemma resolvePtyTarget_allowed `{!AddrText ParseAddr AddrString} address allow lookup ip :
  proper_answers lookup →
  resolvePtyTarget ParseAddr AddrString address allow lookup = Ok ip → targetAllowed ip allow = true.
Proof. intros Hv E. apply resolvers_agree in E; [|done..]. by eapply resolveTarget_allowed. Qed.

Lemma OpenPTY_follows `{!AddrText ParseAddr AddrString} cfg net :
  lawful net → proper_answers (nw_lookup net) →
  let r := OpenPTY Marshal ParseAddr AddrString cfg net in
  follows Marshal (py_AllowPrivateTargets cfg) (py_PinnedHostKey cfg) (py_User cfg) (only_shell (py_InitialSize cfg)) r.1 ∧
  still_open r.1 = (if bool_decide (is_Some r.2) then ∅ else {[ HConn; HClient; HSession; HReader; HWriter ]}).
Proof.
  intros Hl Hv. cbv zeta. unfold OpenPTY. destruct (validatePtyConfig cfg); [|by split; [eexists|]].
  destruct (resolvePtyTarget _ _ _ _ _) as [ip|] eqn:Er; [|by split; [eexists|]]. apply resolvePtyTarget_allowed in Er; [|done].
  destruct (nw_dial net); cbn [negb]; [|split; [|done]; unfold follows; cbn; rewrite Er; by eexists].
  set (h := nw_handshake _ _ _ _).
  destruct (opening_follows Marshal (py_AllowPrivateTargets cfg) (py_PinnedHostKey cfg) (py_User cfg) (only_shell (py_InitialSize cfg))
    ip (py_Port cfg) h Er (Hl _ _ _)) as (s & Hs & Hlog).
  destruct (hs_error h) as [e|]; [split; [by eapply follows_after; [exact Hs|]; eexists|handles]|].
  rewrite (Hlog eq_refl) in Hs. clear Hlog s.
  assert (still_open ([EDial ip (py_Port cfg); EOpen HConn] ++ handshake_events h (py_User cfg)) = {[ HConn ]}) as Ho
    by (rewrite handshake_open; cbn; set_solver).
  revert Hs Ho. generalize ([EDial ip (py_Port cfg); EOpen HConn] ++ handshake_events h (py_User cfg)). intros o Hs Ho.
  destruct (nw_session net), (nw_stdin net), (nw_pty net), (nw_shell net); cbn [negb fst snd]; rewrite <-!app_assoc;
    (split; [eapply follows_after; [exact Hs|]; cbn; rewrite ?Z.eqb_refl; cbn; by eexists|]);
    rewrite still_open_app, Ho; cbn; set_solver.
Qed.

(** Only a sealed step is run, and only with its own command. *)
Definition only_reviewed (sha256 : string → string) (step : Step) : ssh_event PublicKey → bool :=
  if IsReviewedCatalogStep sha256 step then only_script (step_command step) else nothing.

Lemma RunRunbookStep_follows sha256 cfg step net :
  lawful net →
  let t := (RunRunbookStep Marshal ParseAddr sha256 cfg step net).1 in
  follows Marshal (sc_AllowPrivateTargets cfg) (sc_PinnedHostKey cfg) (sc_User cfg) (only_reviewed sha256 step) t ∧ still_open t = ∅.
Proof.
  intros Hl. cbv zeta. unfold RunRunbookStep, only_reviewed. destruct (IsReviewedCatalogStep sha256 step); [|by split; [eexists|]].
  cbn [negb orb]. destruct (_ =? ""); [by split; [eexists|]|]. 
  set (cfg' := if _ : bool then with_timeout cfg _ else cfg).
  pose proof (Run_follows cfg' (mkCommand ("runbook:" +:+ step_id step) (step_command step)) net Hl) as HR.
  destruct (Run _ _ _ _ _) as [t [r e]]. cbn in HR |- *. by subst cfg'; destruct (_ && _).
Qed.

(** The outcome of a session that ran to its end. *)
Lemma runSession_done command maxBytes net r :
  (runSession command maxBytes net).2 = (r, None) →
  nw_end net = EndWait None ∧ r = SshConnector.mkResult (out (write_all_to (newBuffers maxBytes) (nw_writes net)))
    (err (write_all_to (newBuffers maxBytes) (nw_writes net))) 0 (nw_duration net).
Proof. unfold runSession. repeat case_match; intros; simplify_eq/=; done. Qed.

Lemma Run_done cfg command net r :
  (Run Marshal ParseAddr cfg command net).2 = (r, None) →
  (runSession (c_script command) (or_default (sc_MaxOutputBytes cfg) 1048576) net).2 = (r, None).
Proof. unfold Run. repeat case_match; intros; simplify_eq/=; done. Qed.
End follows.

(** *** Closing a terminal *)

Lemma pty_after_handles {S} (s : ptySession S) call :
  (close_called s = true → handles s = ∅) → let s' := pty_after s call in (close_called s' = true → handles s' = ∅) ∧
  (close_called s = true → close_called s' = true) ∧
  ∀ sessionClose clientClose, call = CallClose sessionClose clientClose → close_called s' = true.
Proof.
  destruct s as [sh opened called known], call as [w v|w size|answer|e1 e2]; cbn; unfold pty_WriteInput, pty_Resize, pty_Wait, pty_Close; cbn.
  - intros H. destruct (w v sh). cbn. split_and!; [assumption|done|done].
  - intros H. destruct (validateSize size); [destruct (w size sh)|]; cbn; (split_and!; [assumption|done|done]).
  - intros H. cbn. destruct known; cbn; split_and!; try done. intros E. rewrite (H E). set_solver.
  - intros H. cbn. destruct called; cbn; split_and!; try done. intros _. apply set_eq. intros []; set_solver.
Qed.

(** Once closed, a terminal keeps nothing open, whatever else is called before
    and after. *)
Lemma pty_closed {S} (s : ptySession S) before sessionClose clientClose after :
  (close_called s = true → handles s = ∅) → handles (foldl pty_after s (before ++ CallClose sessionClose clientClose :: after)) = ∅.
Proof.
  intros H. rewrite foldl_app. cbn [foldl].
  assert (∀ l (s : ptySession S), (close_called s = true → handles s = ∅) → let s' := foldl pty_after s l in
    (close_called s' = true → handles s' = ∅) ∧ (close_called s = true → close_called s' = true)) as Hl.
  { clear. induction l as [|c l IH]; intros s H; [done|]. cbn. destruct (pty_after_handles s c H) as (H1 & H2 & _).
    destruct (IH _ H1) as [H3 H4]. auto. }
  destruct (Hl before s H) as [H1 _]. destruct (pty_after_handles _ (CallClose sessionClose clientClose) H1) as (H2 & _ & H3).
  destruct (Hl after _ H2) as [H4 H5]. eauto.
Qed.

(** What [ssh.Session.Wait] documents: it returns nil only if both streams were
    copied without an error. *)
Fixpoint all_written (s : buffers) (l : list (bool * string)) : bool :=
  match l with
  | [] => true
  | (e, p) :: l => match (Write s e p).2.2 with None => all_written (Write s e p).1 l | Some _ => false end
  end.

Lemma all_written_fits l s : all_written s l = true → exceeded (budget (write_all_to s l)) = exceeded (budget s).
Proof.
  revert s. induction l as [|[e p] l IH]; intros s; [done|]. cbn [all_written].
  change (write_all_to s ((e, p) :: l)) with (write_all_to (Write s e p).1 l). destruct (Write s e p).2.2 eqn:E; [done|].
  intros Hl. rewrite IH by done. revert E. unfold Write, reserve. by destruct e; repeat case_match.
Qed.

(** ** The properties *)

(** C7: Every SSH connection of the Connector (a command, a runbook step, a
    terminal, a probe of a host key) goes through the same stages, whatever the
    network answers: one TCP connection, to an address that the destination policy
    allows; then the host key; authentication only as the configured user and only
    after the key that was presented matched the pinned one; commands only after
    that.  A command starts nothing but its own script; a runbook step nothing but
    its own command, and only if its catalog seal is right; a terminal asks for the
    configured size and a shell; a probe never authenticates.  When the call
    returns, everything that was opened is closed again, except the five handles of
    a successfully opened terminal; and these are closed once [Close] of the
    terminal was called, whatever else was called on it before and after. *)
Theorem ssh_protocol {PublicKey} (Marshal : PublicKey → string) ParseAddr AddrString KeyType FingerprintSHA256 MarshalAuthorizedKey
    sha256 cfg command step terminal address port allow (net : network PublicKey) :
  lawful net → AddrText ParseAddr AddrString → proper_answers (nw_lookup net) →
  (let t := (Run Marshal ParseAddr cfg command net).1 in
   follows Marshal (sc_AllowPrivateTargets cfg) (sc_PinnedHostKey cfg) (sc_User cfg) (only_script (c_script command)) t ∧ still_open t = ∅) ∧
  (let t := (RunRunbookStep Marshal ParseAddr sha256 cfg step net).1 in
   follows Marshal (sc_AllowPrivateTargets cfg) (sc_PinnedHostKey cfg) (sc_User cfg) (only_reviewed sha256 step) t ∧ still_open t = ∅) ∧
  (let r := OpenPTY Marshal ParseAddr AddrString terminal net in
   follows Marshal (py_AllowPrivateTargets terminal) (py_PinnedHostKey terminal) (py_User terminal)
     (only_shell (py_InitialSize terminal)) r.1 ∧
   still_open r.1 = (if bool_decide (is_Some r.2) then ∅ else {[ HConn; HClient; HSession; HReader; HWriter ]}) ∧
   ∀ (S : Type) (sh : S) before sessionClose clientClose after,
     handles (foldl pty_after (opened_session sh (still_open r.1)) (before ++ CallClose sessionClose clientClose :: after)) = ∅) ∧
  (let t := (ProbeHostKey ParseAddr AddrString KeyType FingerprintSHA256 MarshalAuthorizedKey address port allow net).1 in
   follows Marshal allow None "" nothing t ∧ still_open t = ∅).
Proof.
  intros Hl Ha Hv. split; [by apply Run_follows|]. split; [by apply RunRunbookStep_follows|]. split; [|by apply ProbeHostKey_follows].
  destruct (OpenPTY_follows Marshal ParseAddr AddrString terminal net Hl Hv) as [Hf Ho]. split_and!; [exact Hf|exact Ho|].
  intros S sh before e1 e2 after. by apply pty_closed.
Qed.

(** C31: When a command succeeds, its result is complete: the
    exit code is 0, standard output and standard error are exactly what the
    remote host wrote to them, nothing is cut off, and together they are no
    longer than the configured limit (1 MiB by default). *)
Theorem ssh_complete_output {PublicKey} (Marshal : PublicKey → string) ParseAddr cfg command (net : network PublicKey) r :
  let limit := or_default (sc_MaxOutputBytes cfg) 1048576 in
  (nw_end net = EndWait None → all_written (newBuffers limit) (nw_writes net) = true) →
  (Run Marshal ParseAddr cfg command net).2 = (r, None) →
  r_ExitCode r = 0 ∧ r_Stdout r = stream false (nw_writes net) ∧ r_Stderr r = stream true (nw_writes net) ∧
  slen (r_Stdout r) + slen (r_Stderr r) ≤ limit.
Proof.
  intros limit Hw HR. apply Run_done, runSession_done in HR as [He ->]. fold limit. specialize (Hw He). apply all_written_fits in Hw.
  destruct (writes_complete (nw_writes net) (newBuffers limit)) as (-> & -> & Hlen); [|done|done].
  cbn. unfold limit, or_default. case_match; lia.
Qed.

(** ** Witnesses *)

Module Remote.
#[local] Instance Addr_eq_dec : EqDecision Addr.
Proof. solve_decision. Defined.
#[local] Instance Addr_countable : Countable Addr.
Proof.
  refine (inj_countable' (λ a, match a with AddrInvalid => None | AddrV4 v => Some (v, None) | AddrV6 v z => Some (v, Some z) end)
    (λ p, match p with None => AddrInvalid | Some (v, None) => AddrV4 v | Some (v, Some z) => AddrV6 v z end) _).
  by intros [].
Defined.

(** A text form: the number of the address. *)
Definition AddrString (a : Addr) : string := itoa (Z.pos (encode a)).
Definition ParseAddr (s : string) : option Addr :=
  n ← parse_digits 0 s; a ← decode (Z.to_pos n); if proper a then Some a else None.

Lemma text : AddrText ParseAddr AddrString.
Proof.
  split.
  - intros a Ha. unfold ParseAddr, AddrString. rewrite parse_digits_itoa by lia. cbn [mbind option_bind Z.to_pos].
    rewrite decode_encode. cbn. by rewrite Ha.
  - intros s a. unfold ParseAddr. intros (n & _ & (b & _ & E)%bind_Some)%bind_Some. by destruct (proper b) eqn:?; simplify_eq.
Qed.

(** A host at 8.8.8.8 with the key k. *)
Definition at_host : string := AddrString (AddrV4 (v4 8 8 8 8)).
Definition handshake_with (callback : string → result ssh_error unit) : handshake string :=
  match callback "k" with
  | Ok _ => mkHandshake (Some "k") true None
  | Err e => mkHandshake (Some "k") false (Some e)
  end.
Definition host : network string :=
  mkNetwork None true None (λ callback _ _, handshake_with callback) true true true true true
    [(false, "out"); (true, "oops"); (false, "put")] [] (EndWait None) 5.
Definition settings : Config (PublicKey := string) := mkConfig at_host 22 "root" true (Some "k") 0 0 0 false.
Definition terminal : PtyConfig string := mkPtyConfig at_host 22 "root" true (Some "k") (mkTerminalSize 80 24 0 0) 0 false.
Definition command : Command := mkCommand CommandDiskUsage "df".

Lemma host_lawful : lawful host.
Proof.
  intros callback identity u. cbn. unfold handshake_with. destruct (callback "k") as [[]|] eqn:E; split; cbn; try done. intros _. by exists "k".
Qed.
End Remote.

Lemma ssh_protocol_witness :
  (OpenPTY id Remote.ParseAddr Remote.AddrString Remote.terminal Remote.host).2 = None ∧
  still_open (OpenPTY id Remote.ParseAddr Remote.AddrString Remote.terminal Remote.host).1 = {[ HConn; HClient; HSession; HReader; HWriter ]}.
Proof.
  split; [vm_compute; reflexivity|].
  pose proof (ssh_protocol id Remote.ParseAddr Remote.AddrString id id id id Remote.settings Remote.command (mkStep "" PhaseApply "" "" 0 "") Remote.terminal
    Remote.at_host 22 false Remote.host Remote.host_lawful Remote.text I) as (_ & _ & (_ & H & _) & _).
  assert ((OpenPTY id Remote.ParseAddr Remote.AddrString Remote.terminal Remote.host).2 = None) as E by (vm_compute; reflexivity).
  rewrite E in H. exact H.
Defined.

Lemma ssh_complete_output_witness :
  (Run id Remote.ParseAddr Remote.settings Remote.command Remote.host).2 = (SshConnector.mkResult "output" "oops" 0 5, None) ∧
  slen "output" + slen "oops" ≤ 1048576.
Proof.
  assert ((Run id Remote.ParseAddr Remote.settings Remote.command Remote.host).2 = (SshConnector.mkResult "output" "oops" 0 5, None)) as E
    by (vm_compute; reflexivity).
  split; [exact E|].
  apply (ssh_complete_output id Remote.ParseAddr Remote.settings Remote.command Remote.host _ (λ _, eq_refl true) E).
Defined.
