(* ===== verification/Gateway.v ===== *)
(** * The WebSSH gateway

    Models [services/websshgateway/websocket.go] with the construction of the
    broker in [broker.go] and the endpoint checks of [validation.go]: the
    WebSocket handler, the session with its two proxies, and the upstream
    transport, on top of the ticket tables of Broker.  Handlers are programs
    of atomic steps (file Prog).  What browser, Connector, authorizer and clock
    do is an argument of a handler; what the gateway stores, sends and audits
    is recorded in the history [history] of the state. *)

From S2P Require Import Prelude GoStrings Encoding Url Credentials Protocol SshConnector ConnectorWebSSH RateLimit TerminalSession Prog Broker.

Definition ConnectPath := "/api/v1/webssh/connect".

(** ** Endpoints *)

Record Endpoints := mkEndpoints {
  PublicWebSocketURL : string;
  Development : bool;
  AllowedOrigins : list string;
  ConnectorBaseURL : string;
  ConnectorUnixSocket : string;
  ConnectorOrigin : string;
}.

Section endpoints.
Context (Parse : string → option URL) (ToLower : string → string) (ParseAddr : string → option Addr).

Definition isLoopbackHost (host : string) : bool :=
  match ParseAddr host with Some address => IsLoopback address | None => false end.

Definition normalizeHTTPOrigin (value : string) (development : bool) : result string string :=
  require negb ((value =? "") || negb (trimmed value) || contains_any "*?," value)
    else "WebSSH origins must be exact origins without wildcards" ;;
  parsed ← of_option (Parse value) "WebSSH origin must not contain credentials, path, query, or fragment";
  require negb ((Host parsed =? "") || HasUser parsed || (Path parsed ≠? "") || (RawQuery parsed ≠? "") ||
                (Fragment parsed ≠? ""))
    else "WebSSH origin must not contain credentials, path, query, or fragment" ;;
  if Scheme parsed =? "https" then Ok ("https://" +:+ ToLower (Host parsed))
  else
    require negb ((Scheme parsed ≠? "http") || negb development || negb (isLoopbackHost (Hostname parsed)))
      else "non-HTTPS WebSSH origins are allowed only on loopback in development" ;;
    Ok ("http://" +:+ ToLower (Host parsed)).

Fixpoint collect_http_origins (values : list string) (development : bool) (acc : gset string) : result string (gset string) :=
  match values with
  | [] => Ok acc
  | value :: rest =>
    normalized ← normalizeHTTPOrigin value development; collect_http_origins rest development ({[ normalized ]} ∪ acc)
  end.

Definition normalizeOrigins (values : list string) (development : bool) : result string (gset string) :=
  origins ← collect_http_origins values development ∅;
  require negb (bool_decide (origins = ∅)) else "at least one exact WebSSH origin is required" ;;
  Ok origins.

Definition validatePublicWebSocketURL (value : string) (development : bool) : result string string :=
  let invalid := "public WebSocket URL must use the fixed WebSSH path without credentials, query, or fragment" in
  parsed ← of_option (Parse value) invalid;
  require negb ((Host parsed =? "") || HasUser parsed || (RawQuery parsed ≠? "") || (Fragment parsed ≠? "") ||
                (Path parsed ≠? ConnectPath))
    else invalid ;;
  if Scheme parsed =? "wss" then Ok (url_String parsed)
  else
    require negb ((Scheme parsed ≠? "ws") || negb development || negb (isLoopbackHost (Hostname parsed)))
      else "public WebSocket URL must use wss; ws is allowed only on loopback in development" ;;
    Ok (url_String parsed).

(** The address of the Connector's WebSocket; an absolute path is one that
    starts with a slash. *)
Definition newUpstreamTransport (c : Endpoints) : result string string :=
  match normalizeHTTPOrigin (ConnectorOrigin c) (Development c) with
  | Err _ => Err "invalid Connector WebSSH origin"
  | Ok _ =>
    let baseURL := trim_slashes (ConnectorBaseURL c) in
    baseURL ← (if ConnectorUnixSocket c ≠? "" then
                 require (ConnectorBaseURL c =? "") && has_prefix "/" (ConnectorUnixSocket c)
                   else "Connector Unix socket must be absolute and mutually exclusive with base URL" ;;
                 Ok "http://connector.local"
               else
                 let invalid := "Connector base URL must be a loopback HTTP URL with an explicit port" in
                 parsed ← of_option (Parse baseURL) invalid;
                 require negb ((Scheme parsed ≠? "http") || (Host parsed =? "") || HasUser parsed || (Path parsed ≠? "") ||
                               (RawQuery parsed ≠? "") || (Fragment parsed ≠? "") || (url_Port parsed =? ""))
                   else invalid ;;
                 require isLoopbackHost (Hostname parsed) else "Connector base URL must use a loopback IP literal" ;;
                 Ok baseURL);
    Ok ("ws" +:+ trim_prefix "http" baseURL +:+ WebSSHConnectPath)
  end.

(** [values] of the request header. *)
Definition originAllowed (origins : gset string) (development : bool) (values : list string) : bool :=
  match values with
  | [value] =>
    match normalizeHTTPOrigin value development with Err _ => false | Ok normalized => bool_decide (normalized ∈ origins) end
  | _ => false
  end.
End endpoints.

Definition hasSubprotocol (values : list string) (required : string) : bool :=
  existsb (λ value, existsb (λ candidate, trim_space candidate =? required) (split_char "," value)) values.

(** ** The proxies *)

(** Decoding of the messages of the Connector. *)
Class ServerDecoders := {
  decode_ready : string → option WebSSHReadyMessage;
  decode_output : string → option WebSSHOutputMessage;
  decode_exit : string → option WebSSHExitMessage;
  decode_error : string → option WebSSHErrorMessage;
}.

Record proxyResult := mkResult {
  disconnectType : string;
  pr_code : string;
  pr_message : string;
  pr_retryable : bool;
  sendError : bool;
}.

(** A frame that is read, when it is charged, and whether what it becomes can
    be written to the other side. *)
Record proxied := mkProxied { px_frame : frame; px_written : bool }.

Definition client_gone : proxyResult := mkResult "client_closed" "" "" false false.
Definition connector_gone : proxyResult :=
  mkResult "connector_closed" "connector_closed" "WebSSH Connector disconnected" true true.
Definition invalid_client (message : string) : proxyResult :=
  mkResult "invalid_client_message" "invalid_message" message false true.
Definition protocol_error : proxyResult :=
  mkResult "connector_protocol_error" "connector_protocol_error" "WebSSH Connector sent an invalid message" false true.

(** The limiter is the Connector's, copied. *)
Definition newRateLimiter : Z → Z → time → byteRateLimiter := newByteRateLimiter.
Definition allow : byteRateLimiter → Z → time → byteRateLimiter * bool := Allow.

(** What is written to the browser. *)
Inductive browser_message := BRaw (body : string) | BReady (m : WebSSHReadyMessage).

Section proxies.
Context `{Decoders, ServerDecoders} (config : Config).

Definition client_frame_valid (body ty : string) : bool :=
  if ty =? WebSSHMessageInput then
    match decode_input body with Some m => (slen (wi_Data m) <=? MaxInputMessageBytes config)%Z | None => false end
  else if ty =? WebSSHMessageResize then
    match decode_resize body with Some m => validTerminalSize (wz_Size m) | None => false end
  else false.

(** The frames written to the Connector, and why the loop ended. *)
Fixpoint forward_client (limiter : byteRateLimiter) (frames : list proxied) : list string * proxyResult :=
  match frames with
  | [] => ([], client_gone)
  | x :: rest =>
    let f := px_frame x in
    if negb (fr_text f) then ([], invalid_client "WebSSH messages must be JSON text")
    else
      let '(limiter, allowed) := allow limiter (slen (fr_body f)) (fr_at f) in
      if negb allowed then
        ([], mkResult "input_rate_limit" "input_rate_limit" "WebSSH input rate limit exceeded" false true)
      else match header_type (fr_body f) with
      | None => ([], invalid_client "WebSSH message is invalid")
      | Some ty =>
        if negb (client_frame_valid (fr_body f) ty) then ([], invalid_client "WebSSH message is invalid or too large")
        else if negb (px_written x) then ([], connector_gone)
        else let '(bodies, result) := forward_client limiter rest in (fr_body f :: bodies, result)
      end
  end.

Definition proxyBrowserToConnector (start : time) (frames : list proxied) : list string * proxyResult :=
  forward_client (newRateLimiter (InputBytesPerSecond config) (InputBytesPerSecond config * 2) start) frames.

(** One message of the Connector: what it becomes, whether it is the ready
    message, and whether it is the last. *)
Definition server_message_for (ticket : browserTicket) (ready : bool) (body ty : string)
    : option (browser_message * bool * bool) :=
  if ty =? WebSSHMessageReady then
    match decode_ready body with
    | Some m =>
      if negb ready && (wr_SessionID m =? upstreamSession ticket) && validTerminalSize (wr_Size m)
      then Some (BReady (mkReady (wr_Type m) (connectionID ticket) (wr_Size m)), true, false) else None
    | None => None
    end
  else if ty =? WebSSHMessageOutput then
    match decode_output body with
    | Some m => if ready && (slen (wo_Data m) <=? MaxOutputMessageBytes config)%Z then Some (BRaw body, false, false) else None
    | None => None
    end
  else if ty =? WebSSHMessageExit then
    match decode_exit body with Some _ => if ready then Some (BRaw body, false, true) else None | None => None end
  else if ty =? WebSSHMessageError then
    match decode_error body with
    | Some m =>
      if (slen (wx_Code m) <=? 128)%Z && (slen (wx_Message m) <=? 512)%Z then Some (BRaw body, false, true) else None
    | None => None
    end
  else None.

Fixpoint forward_server (ticket : browserTicket) (ready : bool) (limiter : byteRateLimiter) (frames : list proxied)
    : list browser_message * proxyResult :=
  match frames with
  | [] => ([], connector_gone)
  | x :: rest =>
    let f := px_frame x in
    let '(limiter, allowed) := if fr_text f then allow limiter (slen (fr_body f)) (fr_at f) else (limiter, false) in
    if negb allowed then ([], protocol_error)
    else match header_type (fr_body f) with
    | None => ([], protocol_error)
    | Some ty =>
      match server_message_for ticket ready (fr_body f) ty with
      | None => ([], protocol_error)
      | Some (message, becomes_ready, terminal) =>
        if negb (px_written x) then ([], client_gone)
        else if (terminal : bool) then ([message], mkResult "remote_exit" "" "" false false)
        else let '(messages, result) := forward_server ticket (ready || becomes_ready) limiter rest in
             (message :: messages, result)
      end
    end
  end.

Definition proxyConnectorToBrowser (ticket : browserTicket) (start : time) (frames : list proxied)
    : list browser_message * proxyResult :=
  forward_server ticket false (newRateLimiter (OutputBytesPerSecond config) (OutputBytesPerSecond config * 2) start) frames.
End proxies.

(** ** The gateway *)

Record AuditEvent := mkAuditEvent {
  ae_At : time;
  ae_Event : string;
  ae_Authorization : Authorization;   (* principal, session, roles, host, credential, action, reason *)
  ae_ConnectionID : string;
  ae_DisconnectType : string;
}.

(** History: a stored browser ticket, a granted authorization, the hello sent
    to the Connector for a hello of the browser, an audit event. *)
Inductive event :=
| GTicket (hash : string) (entry : browserTicket)
| GAuthorized (a : Authorization)
| GHello (hello : HelloMessage) (upstream : WebSSHHelloMessage)
| GAudit (e : AuditEvent).

(** [connSlots] is the occupancy of the channel, [wait] the counter of the wait
    group, [active] the registered sessions by identity. *)
Record Gateway := mkGateway {
  broker : Broker;
  connSlots : Z;
  active : gset nat;
  fresh_session : nat;
  wait : Z;
  pruning : bool;
  cancelled : bool;
  history : list event;
}.

Record GatewayConfig := mkGatewayConfig {
  limits : Config;
  origins : gset string;
  development : bool;
  upstreamURL : string;
}.

(** [New]; a nil authorizer or Connector client is the caller's error. *)
Definition New (Parse : string → option URL) (ToLower : string → string) (ParseAddr : string → option Addr)
    (e : Endpoints) (c : Config) : result string (GatewayConfig * Gateway) :=
  limits ← applyConfigDefaults c;
  origins ← normalizeOrigins Parse ToLower ParseAddr (AllowedOrigins e) (Development e);
  publicURL ← validatePublicWebSocketURL Parse ParseAddr (PublicWebSocketURL e) (Development e);
  upstreamURL ← newUpstreamTransport Parse ToLower ParseAddr e;
  Ok (mkGatewayConfig limits origins (Development e) upstreamURL,
      mkGateway (mkBroker limits publicURL false 0 ∅ ∅) 0 ∅ 0 1 true false []).

Inductive Response :=
| HTTPError (status : Z) (code : string)
| NotFound
| Socket (errors : list WebSSHErrorMessage) (close : option (Z * string)).

(** What arrives at the handler of a WebSocket request. *)
Record BrowserRequest := mkBrowserRequest {
  br_Path : string;
  br_Method : string;
  br_RawQuery : string;
  br_Fragment : string;
  br_Origin : list string;
  br_Protocols : list string;
}.

(** A case of the [select] of a session that is ready: one of the proxies has
    ended, the authorization was checked again, the idle timer fired with the
    time since the last activity, or the context is done. *)
Inductive signal := PBrowser | PConnector | PAuthorize (granted : bool) | PIdle (since : duration) | PDone.

(** What browser, Connector, authorizer and clock do during one connection. *)
Record visit := mkVisit {
  vi_accepted : bool;
  vi_Subprotocol : string;
  vi_first : option (bool * string);
  vi_now : time;
  vi_authorized : bool;
  vi_dialed : option string;      (* the subprotocol the Connector negotiated *)
  vi_helloSent : bool;
  vi_start : time;
  vi_browser : list proxied;
  vi_connector : list proxied;
  vi_signals : list signal;
  vi_audit : time;
}.

Section gateway.
Context (sha256 : string → string) (Parse : string → option URL) (ToLower : string → string)
  (ParseAddr : string → option Addr) (decodeHello : string → option HelloMessage) `{Decoders, ServerDecoders}
  (cfg : GatewayConfig).

(** One step on a part of the state. *)
Definition set_broker (b : Broker) (g : Gateway) : Gateway :=
  mkGateway b (connSlots g) (active g) (fresh_session g) (wait g) (pruning g) (cancelled g) (history g).
Definition set_slots (n : Z) (g : Gateway) : Gateway :=
  mkGateway (broker g) n (active g) (fresh_session g) (wait g) (pruning g) (cancelled g) (history g).
Definition set_wait (n : Z) (g : Gateway) : Gateway :=
  mkGateway (broker g) (connSlots g) (active g) (fresh_session g) n (pruning g) (cancelled g) (history g).
Definition set_active (a : gset nat) (next : nat) (g : Gateway) : Gateway :=
  mkGateway (broker g) (connSlots g) a next (wait g) (pruning g) (cancelled g) (history g).
Definition note (e : event) (g : Gateway) : Gateway :=
  mkGateway (broker g) (connSlots g) (active g) (fresh_session g) (wait g) (pruning g) (cancelled g) (history g ++ [e]).
Definition on_broker {A} (f : Broker → Broker * A) : prog Gateway A :=
  act (λ g, let '(b, a) := f (broker g) in (set_broker b g, a)).

Definition audit (now : time) (a : Authorization) (name disconnect connectionID : string) : prog Gateway unit :=
  act (λ g, (note (GAudit (mkAuditEvent now name a connectionID disconnect)) g, tt)).

(** The answer of the authorizer; a grant is recorded. *)
Definition authorize (a : Authorization) (granted : bool) : prog Gateway bool :=
  act (λ g, (if granted then note (GAuthorized a) g else g, granted)).

Definition beginHandler : prog Gateway bool :=
  act (λ g, if closed (broker g) then (g, false) else (set_wait (wait g + 1) g, true)).
Definition wait_Done : prog Gateway unit := act (λ g, (set_wait (wait g - 1) g, tt)).
Definition acquire_slot : prog Gateway bool :=
  act (λ g, if (connSlots g <? MaxConcurrent (limits cfg))%Z then (set_slots (connSlots g + 1) g, true) else (g, false)).
Definition release_slot : prog Gateway unit := act (λ g, (set_slots (connSlots g - 1) g, tt)).

(** A new session object, registered unless the broker is closed. *)
Definition registerSession : prog Gateway (option nat) :=
  act (λ g, if closed (broker g) then (g, None)
            else (set_active ({[ fresh_session g ]} ∪ active g) (S (fresh_session g)) g, Some (fresh_session g))).
Definition unregisterSession (id : nat) : prog Gateway unit :=
  act (λ g, (set_active (active g ∖ {[ id ]}) (fresh_session g) g, tt)).

Definition safeError (code message : string) (retryable : bool) : WebSSHErrorMessage :=
  mkWebSSHError WebSSHMessageError code message retryable.

(** The loop of a session; its context always ends, at the latest by the
    absolute timeout.  The result is the kind of disconnection and the error
    message for the browser. *)
Fixpoint session_loop (a : Authorization) (ticket : browserTicket) (v : visit) (signals : list signal)
    : prog Gateway (string * list WebSSHErrorMessage) :=
  let finished := shutdown ← ask cancelled; Ret (if shutdown : bool then "gateway_shutdown" else "absolute_timeout", []) in
  let ended r := Ret (disconnectType r, if sendError r then [safeError (pr_code r) (pr_message r) (pr_retryable r)] else []) in
  match signals with
  | [] => finished
  | PBrowser :: _ => ended (proxyBrowserToConnector (limits cfg) (vi_start v) (vi_browser v)).2
  | PConnector :: _ => ended (proxyConnectorToBrowser (limits cfg) ticket (vi_start v) (vi_connector v)).2
  | PAuthorize granted :: rest =>
    granted ← authorize a granted;
    if granted : bool then session_loop a ticket v rest
    else Ret ("authorization_revoked", [safeError "authorization_revoked" "WebSSH authorization was revoked" false])
  | PIdle since :: rest =>
    if (IdleTimeout (limits cfg) <=? since)%Z
    then Ret ("idle_timeout", [safeError "idle_timeout" "WebSSH session was idle too long" false])
    else session_loop a ticket v rest
  | PDone :: _ => finished
  end.

Definition connector_hello (ticket : browserTicket) : WebSSHHelloMessage :=
  mkWebSSHHello WebSSHMessageHello (upstreamTicket ticket) (upstreamSession ticket) (connectorBinding ticket).

(** From the dialled Connector on. *)
Definition proxy_session (v : visit) (hello : HelloMessage) (ticket : browserTicket) (a : Authorization)
    : prog Gateway (list WebSSHErrorMessage) :=
  let disconnected kind := audit (vi_audit v) a "disconnected" kind (connectionID ticket) in
  match vi_dialed v with
  | None =>
    _ ← disconnected "connector_unavailable";
    Ret [safeError "connector_unavailable" "WebSSH Connector is unavailable" true]
  | Some subprotocol =>
    if subprotocol ≠? WebSSHSubprotocol then
      _ ← disconnected "connector_protocol_error";
      Ret [safeError "connector_protocol_error" "WebSSH Connector protocol negotiation failed" false]
    else
      _ ← act (λ g, (note (GHello hello (connector_hello ticket)) g, tt));
      if negb (vi_helloSent v) then
        _ ← disconnected "connector_handshake_failed";
        Ret [safeError "connector_unavailable" "WebSSH Connector handshake failed" true]
      else
        _ ← audit (vi_audit v) a "connected" "" (connectionID ticket);
        final ← session_loop a ticket v (vi_signals v);
        _ ← disconnected final.1;
        Ret final.2
  end.

Definition serveSession (v : visit) : prog Gateway (list WebSSHErrorMessage) :=
  match vi_first v with
  | None => Ret []
  | Some (text, body) =>
    if negb text then Ret [safeError "invalid_hello" "first WebSocket message must be a JSON hello" false]
    else match decodeHello body with
    | None => Ret [safeError "invalid_hello" "first WebSocket message must be a valid hello" false]
    | Some hello =>
      if hl_Type hello ≠? MessageHello then
        Ret [safeError "invalid_hello" "first WebSocket message must be a valid hello" false]
      else
        consumed ← on_broker (λ b, consumeTicket sha256 b hello (vi_now v));
        match consumed with
        | inr consumeCode => Ret [safeError consumeCode "WebSSH ticket is invalid or unavailable" false]
        | inl ticket =>
          let a := mkAuthorization (binding ticket) (reason ticket) in
          granted ← authorize a (vi_authorized v);
          if negb granted then
            _ ← audit (vi_audit v) a "disconnected" "authorization_denied" (connectionID ticket);
            Ret [safeError "authorization_denied" "WebSSH authorization is no longer valid" false]
          else proxy_session v hello ticket a
        end
    end
  end.

(** With a connection slot. *)
Definition upgrade (v : visit) : prog Gateway Response :=
  if negb (vi_accepted v) then Ret (Socket [] None)
  else if vi_Subprotocol v ≠? WebSSHSubprotocol then Ret (Socket [] (Some (1008, "subprotocol required")))
  else
    registered ← registerSession;
    match registered with
    | None => Ret (Socket [] (Some (1001, "gateway shutdown")))
    | Some id =>
      errors ← serveSession v;
      _ ← unregisterSession id;
      Ret (Socket errors None)
    end.

Definition ServeHTTP (r : BrowserRequest) (v : visit) : prog Gateway Response :=
  if br_Path r ≠? ConnectPath then Ret NotFound
  else if br_Method r ≠? "GET" then Ret (HTTPError 405 "method_not_allowed")
  else if (br_RawQuery r ≠? "") || (br_Fragment r ≠? "") then Ret (HTTPError 400 "query_not_allowed")
  else if negb (originAllowed Parse ToLower ParseAddr (origins cfg) (development cfg) (br_Origin r)) then
    Ret (HTTPError 403 "origin_denied")
  else if negb (hasSubprotocol (br_Protocols r) WebSSHSubprotocol) then Ret (HTTPError 400 "subprotocol_required")
  else
    begun ← beginHandler;
    if negb begun then Ret (HTTPError 503 "gateway_shutdown")
    else
      acquired ← acquire_slot;
      response ← (if negb acquired then Ret (HTTPError 429 "session_capacity")
                  else
                    response ← upgrade v;
                    _ ← release_slot;
                    Ret response);
      _ ← wait_Done;
      Ret response.

(** ** Issue *)

(** The ticket request and its steps; [answer] is what the Connector returns. *)
Definition issue_reserved (request : IssueRequest) (bd : Binding) (clock : issue_clock)
    (answer : option WebSSHTicketResponse) (browserRandom connectionRandom : option string) (at_audit : time)
    : prog Gateway (result issue_error IssueResponse) :=
  let a := mkAuthorization bd (iq_Reason request) in
  b ← ask broker;
  match answer with
  | None => _ ← audit at_audit a "issue_failed" "connector_ticket_failed" ""; Ret (Err ErrConnector)
  | Some _ =>
    match issue_ticket sha256 (λ _, answer) b request bd clock browserRandom connectionRandom with
    | Err e => Ret (Err e)
    | Ok (hash, entry, response) =>
      stored ← act (λ g, let '(b, stored) := storeTicket (broker g) hash entry (at_store clock) in
                         (if stored : bool then note (GTicket hash entry) (set_broker b g) else set_broker b g, stored));
      if negb stored then Ret (Err ErrCapacity)
      else _ ← audit at_audit a "issued" "" (connectionID entry); Ret (Ok response)
    end
  end.

Definition issue (request : IssueRequest) (clock : issue_clock) (granted : bool) (answer : option WebSSHTicketResponse)
    (browserRandom connectionRandom : option string) (at_audit : time) : prog Gateway (result issue_error IssueResponse) :=
  match validateIssueRequest request, normalizeBinding (iq_Binding request) with
  | Ok _, Ok bd =>
    let a := mkAuthorization bd (iq_Reason request) in
    granted ← authorize a granted;
    if negb granted then _ ← audit at_audit a "issue_denied" "authorization_denied" ""; Ret (Err ErrUnauthorized)
    else
      reserved ← on_broker (λ b, reserveTicket b (at_reserve clock));
      if negb reserved then Ret (Err ErrCapacity)
      else
        issued ← issue_reserved request bd clock answer browserRandom connectionRandom at_audit;
        _ ← on_broker (λ b, (releaseTicketReservation b, tt));
        Ret issued
  | _, _ => Ret (Err ErrInvalidRequest)
  end.

(** [Close]: the tables, then the context; the sessions end with it. *)
Definition Close : prog Gateway unit :=
  already ← act (λ g, (set_broker (Close (broker g)) g, closed (broker g)));
  if already : bool then Ret tt
  else act (λ g, (mkGateway (broker g) (connSlots g) (active g) (fresh_session g) (wait g) (pruning g) true (history g), tt)).

(** ** The running gateway *)

Definition startable (_ : Gateway) (p : prog Gateway unit) : Prop :=
  p = Close ∨ (∃ r v, p = (ServeHTTP r v ≫= λ _, Ret tt)) ∨
  ∃ request clock granted answer r1 r2 t, p = (issue request clock granted answer r1 r2 t ≫= λ _, Ret tt).

(** The goroutine of [pruneLoop]. *)
Inductive pruner : Gateway → Gateway → Prop :=
| pruner_tick g now : pruning g = true → pruner g (set_broker (pruneLocked (broker g) now) g)
| pruner_exit g : pruning g = true → cancelled g = true →
    pruner g (mkGateway (broker g) (connSlots g) (active g) (fresh_session g) (wait g - 1) false (cancelled g) (history g)).
End gateway.
