(* ===== verification/GatewaySystem.v ===== *)
(** * The WebSSH gateway under any interleaving

    The handlers of Gateway, the issue calls and the pruning goroutine run in
    a pool.  A handler owns its connection slot, its count of the wait group,
    its registration, the right to use a consumed ticket once and the duty to
    audit the end of a session it has audited as connected. *)

From S2P Require Import Prelude GoStrings Encoding Url Credentials Protocol SshConnector ConnectorWebSSH RateLimit TerminalSession Prog Broker Gateway.

Section system.
Context (sha256 : string → string) (cfg : GatewayConfig).
Implicit Types g : Gateway.

Inductive resource :=
| Slot | Waiting | Active (id : nat)
| Right (hash : string) (entry : browserTicket)
| Granted (a : Authorization)
| Open (connectionID : string).

Definition is_slot x := match x with Slot => true | _ => false end.
Definition is_waiting x := match x with Waiting => true | _ => false end.
Definition is_right (h : string) x := match x with Right h' _ => h' =? h | _ => false end.
Definition is_open (c : string) x := match x with Open c' => c' =? c | _ => false end.
Definition sessions (r : list resource) : list nat := r ≫= λ x, match x with Active id => [id] | _ => [] end.

(** ** The history *)

Definition stores (h : string) (l : list event) : Z :=
  Z.of_nat (length (List.filter (λ e, match e with GTicket h' _ => h' =? h | _ => false end) l)).
Definition hellos (h : string) (l : list event) : Z :=
  Z.of_nat (length (List.filter (λ e, match e with
    | GHello hello _ => bool_decide (ticket_hash sha256 (hl_Ticket hello) = Some h) | _ => false end) l)).
Definition audited (name c : string) (l : list event) : Z :=
  Z.of_nat (length (List.filter (λ e, match e with
    | GAudit a => (ae_Event a =? name) && (ae_ConnectionID a =? c) | _ => false end) l)).

Definition authorization (entry : browserTicket) : Authorization := mkAuthorization (binding entry) (reason entry).

(** What each event rests on. *)
Definition justified (l : list event) (e : event) : Prop :=
  match e with
  | GTicket _ entry => GAuthorized (authorization entry) ∈ l
  | GHello hello upstream =>
    ∃ h entry, ticket_hash sha256 (hl_Ticket hello) = Some h ∧ GTicket h entry ∈ l ∧ upstream = connector_hello entry ∧
      normalizeBinding (hl_Binding hello) = Ok (binding entry) ∧ hl_ConnectionID hello = connectionID entry
  | _ => True
  end.

(** ** The invariant *)

Record counters_ok (r : list resource) g : Prop := {
  ok_slots : connSlots g = count is_slot r;
  ok_slot_cap : connSlots g ≤ Z.max 0 (MaxConcurrent (limits cfg));
  ok_wait : wait g = count is_waiting r + if pruning g then 1 else 0;
  ok_distinct : NoDup (sessions r);
  ok_active : active g = list_to_set (sessions r);
  ok_fresh : ∀ id, id ∈ sessions r → (id < fresh_session g)%nat;
}.

Record history_ok (r : list resource) g : Prop := {
  ok_tickets : ∀ h e, tickets (broker g) !! h = Some e → GTicket h e ∈ history g;
  ok_rights : ∀ h e, Right h e ∈ r → GTicket h e ∈ history g;
  ok_granted : ∀ a, Granted a ∈ r → GAuthorized a ∈ history g;
  ok_justified : Forall (justified (history g)) (history g);
  ok_once : ∀ h, hellos h (history g) + count (is_right h) r +
    (if bool_decide (is_Some (tickets (broker g) !! h)) then 1 else 0) ≤ stores h (history g);
  ok_audits : ∀ c, audited "connected" c (history g) ≤ audited "disconnected" c (history g) + count (is_open c) r;
}.

Record tables_ok g : Prop := {
  ok_config : config (broker g) = limits cfg;
  ok_size : len (tickets (broker g)) ≤ Z.max 0 (MaxOutstandingTickets (limits cfg));
  ok_total : len (tickets (broker g)) + len (consumed (broker g)) ≤ 5 * Z.max 0 (MaxOutstandingTickets (limits cfg));
}.

Record inv (r : list resource) g : Prop := {
  inv_counters : counters_ok r g;
  inv_history : history_ok r g;
  inv_tables : tables_ok g;
}.

(** *** Structural lemmas *)

#[local] Instance sessions_perm : Proper ((≡ₚ) ==> (≡ₚ)) sessions.
Proof. intros r r' E. unfold sessions. by rewrite E. Qed.

Lemma gateway_inv_perm r r' g : r ≡ₚ r' → inv r g → inv r' g.
Proof.
  intros E [[] [] Ht]. constructor; [constructor|constructor|done]; try (rewrite <-?E; done).
  - intros id. rewrite <-E. auto.
  - intros h e. rewrite <-E. auto.
  - intros a. rewrite <-E. auto.
  - intros h. rewrite <-E. auto.
  - intros c. rewrite <-E. auto.
Qed.

Lemma gateway_justified_mono l l' e : l ⊆ l' → justified l e → justified l' e.
Proof.
  intros Hl. destruct e; cbn; try done; [apply Hl|]. intros (h & entry & ? & Hin & ?). exists h, entry. split; [done|].
  split; [by apply Hl|done].
Qed.

Lemma stores_app h l l' : stores h (l ++ l') = stores h l + stores h l'.
Proof. unfold stores. by rewrite List.filter_app, length_app, Nat2Z.inj_add. Qed.
Lemma hellos_app h l l' : hellos h (l ++ l') = hellos h l + hellos h l'.
Proof. unfold hellos. by rewrite List.filter_app, length_app, Nat2Z.inj_add. Qed.
Lemma audited_app n c l l' : audited n c (l ++ l') = audited n c l + audited n c l'.
Proof. unfold audited. by rewrite List.filter_app, length_app, Nat2Z.inj_add. Qed.

(** An event, with the resources it creates and uses. *)
Lemma gateway_note_inv r r' g e :
  inv r g → counters_ok r' g → justified (history g ++ [e]) e →
  (∀ h entry, Right h entry ∈ r' → Right h entry ∈ r) →
  (∀ a, Granted a ∈ r' → Granted a ∈ r ∨ e = GAuthorized a) →
  (∀ h, hellos h [e] + count (is_right h) r' ≤ stores h [e] + count (is_right h) r) →
  (∀ c, audited "connected" c [e] + count (is_open c) r ≤ audited "disconnected" c [e] + count (is_open c) r') →
  inv r' (note e g).
Proof.
  intros [_ [Htk Hri Hgr Hju Hon Hau] Ht] Hc Hj Hr Ha Hcount Hopen.
  assert (history g ⊆ history g ++ [e]) as Hl by set_solver.
  constructor; [by destruct Hc| |by destruct Ht]. constructor; cbn [history broker note].
  - intros h entry Hlk. apply Hl. by apply Htk.
  - intros h entry Hin. apply Hl. eauto.
  - intros a [Hin| ->]%Ha; [apply Hl; eauto|set_solver].
  - apply Forall_app. split; [eapply Forall_impl; [exact Hju|]; eauto using gateway_justified_mono|by constructor].
  - intros h. rewrite stores_app, hellos_app. specialize (Hon h). specialize (Hcount h). lia.
  - intros c. rewrite !audited_app. specialize (Hau c). specialize (Hopen c). lia.
Qed.

(** Rights and grants may be dropped. *)
Definition knowledge x : bool := match x with Right _ _ | Granted _ => true | _ => false end.

Lemma gateway_inv_drop x r g : knowledge x = true → inv (x :: r) g → inv r g.
Proof.
  intros Hx [[Hsl Hcap Hw Hd Hac Hf] [Htk Hri Hgr Hju Hon Hau] Ht].
  assert (sessions (x :: r) = sessions r) as Es by (by destruct x). rewrite Es in *.
  constructor; [| |done].
  - constructor; try done; [rewrite Hsl|rewrite Hw]; rewrite count_cons; by destruct x.
  - constructor; try done; [set_solver|set_solver|..].
    + intros h. specialize (Hon h). rewrite count_cons in Hon. destruct (is_right h x); lia.
    + intros c. specialize (Hau c). rewrite count_cons in Hau. by destruct x.
Qed.

Lemma gateway_inv_forget k r g : forallb knowledge k = true → inv (k ++ r) g → inv r g.
Proof.
  induction k as [|x k IH]; [done|]. cbn. intros [Hx Hk]%andb_true_iff Hi. apply IH; [done|]. by eapply gateway_inv_drop.
Qed.

(** *** Counters *)

Definition is_counter x : bool := match x with Slot | Waiting | Active _ => true | _ => false end.

Lemma counter_step r r' x g g' :
  is_counter x = true → (r = x :: r' ∨ r' = x :: r ∨ r = r') → broker g' = broker g → history g' = history g →
  inv r g → counters_ok r' g' → inv r' g'.
Proof.
  intros Hx Hr Eb Eh [_ [Htk Hri Hgr Hju Hon Hau] Ht] Hc.
  assert (∀ y, is_counter y = false → y ∈ r' → y ∈ r) as Hin.
  { intros y Hy Hiny. destruct Hr as [-> |[-> | ->]]; [apply elem_of_cons; by right| |done].
    apply elem_of_cons in Hiny as [->|?]; [congruence|done]. }
  assert (∀ p, (∀ y, is_counter y = true → p y = false) → count p r' = count p r) as Hcnt.
  { intros p Hp. destruct Hr as [-> |[-> | ->]]; rewrite ?count_cons, ?Hp; done. }
  constructor; [done| |destruct Ht; constructor; by rewrite ?Eb].
  constructor; rewrite ?Eb, ?Eh; try done; [by eauto|by eauto|..].
  - intros h. rewrite Hcnt; [apply Hon|]. by intros [].
  - intros c. rewrite Hcnt; [apply Hau|]. by intros [].
Qed.

Ltac counters x Hi :=
  match type of Hi with inv ?r ?g =>
    eapply (counter_step r _ x g); [reflexivity|by auto|reflexivity|reflexivity|exact Hi|];
    destruct (inv_counters _ _ Hi) as [Hsl Hcap Hwa Hdi Hac Hfr]; constructor; cbn [connSlots wait pruning active fresh_session set_slots set_wait set_active];
    rewrite ?count_cons in *; cbn [is_slot is_waiting] in *; try done; try lia
  end.

Lemma acquire_slot_inv r g : inv r g → connSlots g < MaxConcurrent (limits cfg) → inv (Slot :: r) (set_slots (connSlots g + 1) g).
Proof. intros Hi Hlt. counters Slot Hi. Qed.
Lemma release_slot_inv r g : inv (Slot :: r) g → inv r (set_slots (connSlots g - 1) g).
Proof. intros Hi. counters Slot Hi. Qed.
Lemma begin_inv r g : inv r g → inv (Waiting :: r) (set_wait (wait g + 1) g).
Proof. intros Hi. counters Waiting Hi. Qed.
Lemma done_inv r g : inv (Waiting :: r) g → inv r (set_wait (wait g - 1) g).
Proof. intros Hi. counters Waiting Hi. Qed.

Lemma register_inv r g :
  inv r g → inv (Active (fresh_session g) :: r) (set_active ({[ fresh_session g ]} ∪ active g) (S (fresh_session g)) g).
Proof.
  intros Hi. counters (Active (fresh_session g)) Hi.
  - change (NoDup (fresh_session g :: sessions r)). constructor; [|done]. intros Hin%Hfr. lia.
  - change (sessions (Active (fresh_session g) :: r)) with (fresh_session g :: sessions r). cbn. by rewrite Hac.
  - intros id. change (sessions (Active (fresh_session g) :: r)) with (fresh_session g :: sessions r).
    intros [->|Hin%Hfr]%elem_of_cons; lia.
Qed.

Lemma unregister_inv r g id : inv (Active id :: r) g → inv r (set_active (active g ∖ {[ id ]}) (fresh_session g) g).
Proof.
  intros Hi. counters (Active id) Hi; change (sessions (Active id :: r)) with (id :: sessions r) in *.
  - by apply NoDup_cons in Hdi as [_ ?].
  - rewrite Hac. cbn. apply NoDup_cons in Hdi as [Hni _]. apply set_eq. intros x. set_solver.
  - intros id' Hin. apply Hfr, elem_of_cons. by right.
Qed.

(** *** The tables *)

(** Tickets are only removed. *)
Lemma broker_inv r g b' :
  inv r g → config b' = config (broker g) → tickets b' ⊆ tickets (broker g) →
  len (tickets b') ≤ len (tickets (broker g)) → len (consumed b') ≤ len (consumed (broker g)) → inv r (set_broker b' g).
Proof.
  intros [Hc [Htk Hri Hgr Hju Hon Hau] [Hcf Hsz Htot]] Ecfg Hsub Hlt Hlc. constructor; [by destruct Hc| |].
  - constructor; cbn [history broker set_broker]; try done.
    + intros h e Hl. apply Htk. by eapply lookup_weaken.
    + intros h. etrans; [|apply (Hon h)]. apply Z.add_le_mono_l. destruct (tickets b' !! h) as [e|] eqn:E.
      * by rewrite (lookup_weaken _ _ _ _ E Hsub).
      * rewrite bool_decide_false by (by intros []). by case_bool_decide.
  - constructor; cbn [broker set_broker]; [congruence|lia|lia].
Qed.

Lemma prune_tables_inv r g now : inv r g → inv r (set_broker (pruneLocked (broker g) now) g).
Proof.
  intros Hi. apply broker_inv; [done|done| |apply len_prune_le|apply len_prune_le]. apply map_subseteq_spec. intros h e [? _]%prune_lookup_Some. done.
Qed.

Lemma store_inv r g h e now :
  inv r g → Granted (authorization e) ∈ r →
  match storeTicket (broker g) h e now with
  | (b, true) => inv r (note (GTicket h e) (set_broker b g))
  | (b, false) => inv r (set_broker b g)
  end.
Proof.
  intros Hi Hgr. apply (prune_tables_inv _ _ now) in Hi. unfold storeTicket.
  set (b := pruneLocked (broker g) now) in *. destruct (closed b || _ || _) eqn:Ec; [exact Hi|].
  apply orb_false_iff in Ec as [[_ Es]%orb_false_iff Eo]. apply Z.leb_gt in Es, Eo. destruct (tickets b !! h) eqn:El; [exact Hi|].
  destruct Hi as [Hc [Htk Hri Hg Hju Hon Hau] [Hcf Hsz Htot]]. cbn [broker history set_broker] in *. rewrite Hcf in *.
  assert (history g ⊆ history g ++ [GTicket h e]) as Hl by set_solver.
  constructor; [by destruct Hc| |].
  - constructor; cbn [history broker set_broker note set_maps tickets].
    + intros h' e'. rewrite lookup_insert_Some. intros [[<- <-]|[_ Hl']]; [set_solver|by apply Hl, Htk].
    + intros h' e' Hin. by apply Hl, Hri.
    + intros a Hin. by apply Hl, Hg.
    + apply Forall_app. split; [eapply Forall_impl; [exact Hju|]; eauto using gateway_justified_mono|]. constructor; [|done].
      apply Hl, Hg, Hgr.
    + intros h'. rewrite stores_app, hellos_app. specialize (Hon h'). change (hellos h' [GTicket h e]) with 0.
      assert (stores h' [GTicket h e] = if h =? h' then 1 else 0) as -> by (unfold stores; cbn; by destruct (h =? h')).
      destruct (String.eqb_spec h h') as [<-|Hne].
      * rewrite El in Hon. rewrite bool_decide_false in Hon by (by intros []). rewrite lookup_insert_eq, bool_decide_true by done. lia.
      * rewrite lookup_insert_ne by done. lia.
    + intros c. rewrite !audited_app. specialize (Hau c). unfold audited in *. cbn. lia.
  - constructor; cbn [broker set_broker note set_maps config tickets consumed]; [done|..]; rewrite len_insert_new by done; lia.
Qed.

Lemma consume_inv r g hello now :
  inv r g →
  match consumeTicket sha256 (broker g) hello now with
  | (b, inl e) => ∃ h, ticket_hash sha256 (hl_Ticket hello) = Some h ∧ normalizeBinding (hl_Binding hello) = Ok (binding e) ∧
      hl_ConnectionID hello = connectionID e ∧ inv (Right h e :: r) (set_broker b g)
  | (b, inr _) => inv r (set_broker b g)
  end.
Proof.
  intros Hi. destruct (consumeTicket sha256 (broker g) hello now) as [b' res] eqn:E.
  apply consumeTicket_cases in E as (Ecfg & _ & _ & E).
  destruct (ticket_hash sha256 (hl_Ticket hello)) as [h|] eqn:Eh; [|destruct E as [-> [e ->]]; by destruct g].
  apply (prune_tables_inv _ _ now) in Hi. destruct E as [(_ & -> & ->)|(entry & Hl & Et & Eco & Hok & Hent)]; [exact Hi|].
  assert (inv (Right h entry :: r) (set_broker b' g)) as Hi'.
  { destruct Hi as [[] [Htk Hri Hg Hju Hon Hau] [Hcf Hsz Htot]]. cbn [broker history set_broker] in *.
    constructor; [constructor; try done; by rewrite count_cons| |].
    - constructor; cbn [history broker set_broker]; rewrite ?Et; try done.
      + intros h' e' [_ ?]%lookup_delete_Some. by apply Htk.
      + intros h' e'. rewrite elem_of_cons. intros [[= -> ->]|?]; [by apply Htk|by apply Hri].
      + intros a. rewrite elem_of_cons. intros [?|?]; [done|by apply Hg].
      + intros h'. specialize (Hon h'). rewrite count_cons. cbn [is_right]. destruct (String.eqb_spec h h') as [<-|Hne].
        * rewrite lookup_delete_eq. rewrite bool_decide_false by (by intros []). rewrite bool_decide_true in Hon by (by rewrite Hl). lia.
        * rewrite lookup_delete_ne by done. lia.
    - pose proof (len_insert_le (consumed (pruneLocked (broker g) now)) h (now + TicketTTL (config (broker g)))).
      constructor; cbn [broker set_broker]; rewrite ?Et, ?Eco, ?(len_delete_old _ _ _ Hl); [by rewrite Ecfg|lia|lia]. }
  destruct res as [e|code]; [|by eapply gateway_inv_drop in Hi'].
  pose proof (Hent e eq_refl) as ->. destruct (proj1 Hok eq_refl) as (_ & Hcid & _ & Hn). exists h. by split_and!.
Qed.

(** ** Every handler keeps the invariant *)

Abbreviation owning := (owns inv).

Lemma audited_one n c now a name d c' :
  audited n c [GAudit (mkAuditEvent now name a c' d)] = if (name =? n) && (c' =? c) then 1 else 0.
Proof. unfold audited. cbn. by destruct (_ && _). Qed.

(** An audit that neither starts nor ends a session. *)
Lemma audit_owns r now a name d c : name ≠ "connected" → owning (λ _ r', r' = r) r (audit now a name d c).
Proof.
  intros Hn. apply owns_act. intros g frame Hi. exists r. split; [|done]. cbn [fst].
  eapply gateway_note_inv; [exact Hi|apply Hi|done|done|by auto|done|]. intros c'. rewrite !audited_one.
  destruct (String.eqb_spec name "connected"); [done|]. cbn. case_match; lia.
Qed.

Lemma audit_connected_owns r now a d c : owning (λ _ r', r' = Open c :: r) r (audit now a "connected" d c).
Proof.
  apply owns_act. intros g frame Hi. exists (Open c :: r). split; [|done]. cbn [fst].
  eapply gateway_note_inv; [exact Hi| |done|set_solver|set_solver|..].
  - destruct (inv_counters _ _ Hi). cbn [app]. constructor; try done; by rewrite count_cons.
  - intros h. cbn [app]. rewrite count_cons. done.
  - intros c'. cbn [app]. rewrite count_cons, !audited_one. cbn [is_open]. change ("connected" =? "disconnected") with false.
    change ("connected" =? "connected") with true. cbn. case_match; lia.
Qed.

Lemma audit_disconnected_owns k r now a d c :
  forallb knowledge k = true → owning (λ _ r', r' = r) (k ++ Open c :: r) (audit now a "disconnected" d c).
Proof.
  intros Hk. apply owns_act. intros g frame Hi. exists r. split; [|done]. cbn [fst].
  rewrite <-app_assoc in Hi. apply gateway_inv_forget in Hi; [|done]. cbn [app] in Hi.
  eapply gateway_note_inv; [exact Hi| |done|set_solver|set_solver|..].
  - destruct (inv_counters _ _ Hi) as [Hsl Hcap Hwa]. constructor; try done; rewrite count_cons in *; done.
  - intros h. rewrite count_cons. done.
  - intros c'. rewrite count_cons, !audited_one. cbn [is_open]. change ("disconnected" =? "connected") with false.
    change ("disconnected" =? "disconnected") with true. cbn. case_match; lia.
Qed.

Lemma authorize_owns r a granted : owning (λ (b : bool) r', r' = if b then Granted a :: r else r) r (authorize a granted).
Proof.
  apply owns_act. intros g frame Hi. destruct granted; [|by exists r]. exists (Granted a :: r). split; [|done]. cbn [fst app].
  eapply gateway_note_inv; [exact Hi| |done|set_solver| |..].
  - destruct (inv_counters _ _ Hi). constructor; try done; by rewrite count_cons.
  - intros a'. rewrite elem_of_cons. intros [[= ->]|?]; [by right|by left].
  - intros h. by rewrite count_cons.
  - intros c. by rewrite count_cons.
Qed.

Lemma on_broker_owns {A} (f : Broker → Broker * A) r (Q : A → list resource → Prop) :
  (∀ g frame, inv (r ++ frame) g → ∃ r', inv (r' ++ frame) (set_broker (f (broker g)).1 g) ∧ Q (f (broker g)).2 r') →
  owning Q r (on_broker f).
Proof. intros Hf. apply owns_act. intros g frame Hi. specialize (Hf g frame Hi). by destruct (f (broker g)). Qed.

(** With rights and grants that may be left over. *)
Definition leftover {A} (r : list resource) (_ : A) (r' : list resource) : Prop := ∃ k, forallb knowledge k = true ∧ r' = k ++ r.

Lemma leftover_refl {A} r (a : A) : leftover r a r.
Proof. by exists []. Qed.
#[local] Hint Resolve leftover_refl : core.

Lemma hello_owns k r hello h ticket :
  forallb knowledge k = true → ticket_hash sha256 (hl_Ticket hello) = Some h → normalizeBinding (hl_Binding hello) = Ok (binding ticket) →
  hl_ConnectionID hello = connectionID ticket →
  owning (λ _ r', r' = r) (k ++ Right h ticket :: r) (act (λ g, (note (GHello hello (connector_hello ticket)) g, tt))).
Proof.
  intros Hk Hh Hn Hc. apply owns_act. intros g frame Hi. exists r. split; [|done]. cbn [fst].
  rewrite <-app_assoc in Hi. apply gateway_inv_forget in Hi; [|done]. cbn [app] in Hi.
  assert (inv (r ++ frame) g) as Hr by (by eapply (gateway_inv_drop (Right h ticket))).
  eapply gateway_note_inv; [exact Hi|apply Hr| |set_solver|set_solver|..].
  - exists h, ticket. split_and!; [done| |done..]. apply elem_of_app. left.
    apply (ok_rights _ _ (inv_history _ _ Hi)). cbn. apply elem_of_cons. by left.
  - intros h'. cbn [app]. rewrite count_cons. cbn [is_right].
    assert (hellos h' [GHello hello (connector_hello ticket)] = if h =? h' then 1 else 0) as ->.
    { unfold hellos. cbn. rewrite Hh. destruct (String.eqb_spec h h'); case_bool_decide; naive_solver. }
    change (stores h' [GHello hello (connector_hello ticket)]) with 0. lia.
  - intros c. cbn [app]. rewrite count_cons. done.
Qed.

Lemma issue_ticket_authorization connector b request bd clock r1 r2 hash entry resp :
  issue_ticket sha256 connector b request bd clock r1 r2 = Ok (hash, entry, resp) →
  authorization entry = mkAuthorization bd (iq_Reason request).
Proof.
  unfold issue_ticket. intros Hi. apply bind_Ok_inv in Hi as (cr & _ & Hi). apply bind_Ok_inv in Hi as ([uT uS] & _ & Hi).
  apply bind_Ok_inv in Hi as (raw & _ & Hi). apply bind_Ok_inv in Hi as (craw & _ & Hi).
  apply bind_Ok_inv in Hi as (? & _ & Hi). by simplify_eq.
Qed.

Lemma issue_reserved_owns r request bd clock answer r1 r2 t :
  let a := mkAuthorization bd (iq_Reason request) in
  owning (λ _ r', r' = Granted a :: r) (Granted a :: r) (issue_reserved sha256 request bd clock answer r1 r2 t).
Proof.
  intros a. unfold issue_reserved. eapply (owns_bind _ (λ _ r', r' = Granted a :: r)); [by apply owns_ask|]. intros b ? ->.
  destruct answer as [resp|]; [|eapply owns_bind; [by apply audit_owns|]; by intros ? ? ->].
  destruct (issue_ticket _ _ _ _ _ _ _ _) as [[[hash entry] response]|e] eqn:Ei; [|done].
  apply issue_ticket_authorization in Ei as Ea.
  eapply (owns_bind _ (λ _ r', r' = Granted a :: r)).
  { apply owns_act. intros g frame Hi. exists (Granted a :: r). split; [|done].
    eapply (store_inv _ _ hash entry (at_store clock)) in Hi; [|rewrite Ea; cbn; apply elem_of_cons; by left].
    by destruct (storeTicket _ _ _ _) as [b' []]. }
  intros [|] ? ->; [|done]. cbn [negb]. eapply owns_bind; [by apply audit_owns|]. by intros ? ? ->.
Qed.

Lemma issue_owns request clock granted answer r1 r2 t :
  owning (leftover []) [] (issue sha256 request clock granted answer r1 r2 t).
Proof.
  unfold issue. destruct (validateIssueRequest request) as [u|e]; [|by apply leftover_refl].
  destruct (normalizeBinding _) as [bd|]; [|by apply leftover_refl].
  cbn zeta. set (a := mkAuthorization bd (iq_Reason request)).
  eapply owns_bind; [apply authorize_owns|]. intros [|] ? ->; cbn [negb].
  2:{ eapply owns_bind; [by apply audit_owns|]. intros ? ? ->. apply leftover_refl. }
  assert (∀ x : result issue_error IssueResponse, leftover [] x [Granted a]) as Hleft by (intros x; by exists [Granted a]).
  eapply (owns_bind _ (λ _ r', r' = [Granted a])).
  { apply on_broker_owns. intros g frame Hi. exists [Granted a]. split; [|done].
    apply (prune_tables_inv _ _ (at_reserve clock)) in Hi. unfold reserveTicket.
    destruct (closed _ || _); [exact Hi|]. cbn [fst]. eapply (broker_inv _ _ (set_issuing _ _)) in Hi; [exact Hi|done..]. }
  intros [|] ? ->; [|apply Hleft]. cbn [negb]. eapply owns_bind; [apply issue_reserved_owns|]. intros issued ? ->.
  eapply (owns_bind _ (λ _ r', r' = [Granted a])); [|intros ? ? ->; apply Hleft].
  apply on_broker_owns. intros g frame Hi. exists [Granted a]. split; [|done]. cbn [fst]. unfold releaseTicketReservation.
  case_match; [|by destruct g]. by apply broker_inv.
Qed.

Lemma gateway_Close_owns : owning (leftover []) [] Close.
Proof.
  unfold Close. eapply (owns_bind _ (λ _ r', r' = [])).
  - apply owns_act. intros g frame Hi. exists []. split; [|done]. cbn [fst]. unfold Broker.Close.
    destruct (closed (broker g)); [by destruct g|]. apply broker_inv; cbn; try done; [apply map_empty_subseteq|].
    pose proof (len_nonneg (tickets (broker g))). unfold len at 1. rewrite map_size_empty. done.
  - intros [|] ? ->; [apply leftover_refl|]. apply owns_act. intros g frame Hi. exists []. split; [|apply leftover_refl]. cbn [fst app].
    eapply (counter_step _ _ Waiting g); [done|by auto|done|done|exact Hi|]. by destruct (inv_counters _ _ Hi).
Qed.

Lemma gateway_pruner_inv r g g' : pruner g g' → inv r g → inv r g'.
Proof.
  destruct 1 as [g now Hp|g Hp Hc]; [apply prune_tables_inv|]. intros Hi.
  eapply (counter_step _ _ Waiting g); [done|by auto|done|done|exact Hi|].
  destruct (inv_counters _ _ Hi). constructor; try done. cbn. rewrite Hp in *. lia.
Qed.

Context (decodeHello : string → option HelloMessage) `{Decoders, ServerDecoders}.

Lemma gateway_session_loop_owns a ticket v signals k r :
  forallb knowledge k = true → owning (leftover r) (k ++ r) (session_loop cfg a ticket v signals).
Proof.
  revert k. induction signals as [|x signals IH]; intros k Hk.
  { eapply (owns_bind _ (λ _ r', r' = k ++ r)); [by apply owns_ask|]. intros ? ? ->. by exists k. }
  destruct x as [| |granted|since|]; cbn [session_loop].
  - by exists k.
  - by exists k.
  - eapply owns_bind; [apply authorize_owns|]. intros [|] ? ->; [|by exists k]. by apply (IH (Granted a :: k)).
  - case_match; [by exists k|]. by apply IH.
  - eapply (owns_bind _ (λ _ r', r' = k ++ r)); [by apply owns_ask|]. intros ? ? ->. by exists k.
Qed.

Lemma proxy_session_owns k r v hello h ticket a :
  forallb knowledge k = true → ticket_hash sha256 (hl_Ticket hello) = Some h →
  normalizeBinding (hl_Binding hello) = Ok (binding ticket) → hl_ConnectionID hello = connectionID ticket →
  owning (leftover r) (k ++ Right h ticket :: r) (proxy_session cfg v hello ticket a).
Proof.
  intros Hk Hh Hn Hc. unfold proxy_session.
  assert (∀ (x : list WebSSHErrorMessage), leftover r x (k ++ Right h ticket :: r)) as Hleft.
  { intros x. exists (k ++ [Right h ticket]). rewrite forallb_app, Hk, <-app_assoc. done. }
  destruct (vi_dialed v) as [subprotocol|]; [|eapply owns_bind; [by apply audit_owns|]; intros ? ? ->; apply Hleft].
  case_match; [eapply owns_bind; [by apply audit_owns|]; intros ? ? ->; apply Hleft|].
  eapply owns_bind; [by apply hello_owns|]. intros ? ? ->. destruct (vi_helloSent v); cbn [negb].
  2:{ eapply owns_bind; [by apply audit_owns|]. intros ? ? ->. apply leftover_refl. }
  eapply owns_bind; [apply audit_connected_owns|]. intros ? ? ->.
  eapply owns_bind; [by apply (gateway_session_loop_owns _ _ _ _ [])|]. intros final ? (k' & Hk' & ->).
  eapply owns_bind; [by apply audit_disconnected_owns|]. intros ? ? ->. apply leftover_refl.
Qed.

Lemma serveSession_owns r v : owning (leftover r) r (serveSession sha256 decodeHello cfg v).
Proof.
  unfold serveSession. destruct (vi_first v) as [[[] body]|]; cbn [negb]; try by apply leftover_refl.
  destruct (decodeHello body) as [hello|]; [|by apply leftover_refl]. case_match; [by apply leftover_refl|].
  eapply (owns_bind _ (λ x r', match x with
    | inl e => ∃ h, ticket_hash sha256 (hl_Ticket hello) = Some h ∧ normalizeBinding (hl_Binding hello) = Ok (binding e) ∧
        hl_ConnectionID hello = connectionID e ∧ r' = Right h e :: r
    | inr _ => r' = r end)).
  { apply on_broker_owns. intros g frame Hi. apply (consume_inv _ _ hello (vi_now v)) in Hi.
    destruct (consumeTicket _ _ _ _) as [b' [e|code]]; [|by exists r]. destruct Hi as (h & Hh & Hn & Hc & Hi).
    exists (Right h e :: r). split; [exact Hi|]. by exists h. }
  intros [e|code] r'; [|by intros ->; apply leftover_refl]. intros (h & Hh & Hn & Hc & ->).
  eapply owns_bind; [apply authorize_owns|]. intros [|] ? ->; cbn [negb].
  - by apply (proxy_session_owns [Granted _]).
  - eapply owns_bind; [by apply audit_owns|]. intros ? ? ->. by exists [Right h e].
Qed.

Lemma gateway_upgrade_owns r v : owning (λ _ r', r' = r) r (upgrade sha256 decodeHello cfg v).
Proof.
  unfold upgrade. case_match; [done|]. case_match; [done|].
  eapply (owns_bind _ (λ x r', r' = match x with Some id => Active id :: r | None => r end)).
  { apply owns_act. intros g frame Hi. destruct (closed (broker g)); [by exists r|]. exists (Active (fresh_session g) :: r).
    split; [|done]. by apply register_inv in Hi. }
  intros [id|] ? ->; [|done]. eapply owns_bind; [apply serveSession_owns|]. intros errors ? (k & Hk & ->).
  eapply (owns_bind _ (λ _ r', r' = r)); [|by intros ? ? ->]. apply owns_act. intros g frame Hi. exists r. split; [|done].
  rewrite <-app_assoc in Hi. apply gateway_inv_forget in Hi; [|done]. by apply unregister_inv in Hi.
Qed.

Context (Parse : string → option URL) (ToLower : string → string) (ParseAddr : string → option Addr).

Lemma gateway_ServeHTTP_owns request v : owning (λ _ r', r' = []) [] (ServeHTTP sha256 Parse ToLower ParseAddr decodeHello cfg request v).
Proof.
  unfold ServeHTTP. repeat (case_match; [done|]).
  eapply (owns_bind _ (λ (b : bool) r', r' = if b then [Waiting] else [])).
  { apply owns_act. intros g frame Hi. destruct (closed (broker g)); [by exists []|]. exists [Waiting]. split; [|done]. by apply begin_inv in Hi. }
  intros [|] ? ->; [|done]. cbn [negb].
  eapply (owns_bind _ (λ (b : bool) r', r' = if b then [Slot; Waiting] else [Waiting])).
  { apply owns_act. intros g frame Hi. destruct (Z.ltb_spec (connSlots g) (MaxConcurrent (limits cfg))); [|by exists [Waiting]].
    exists [Slot; Waiting]. split; [|done]. by apply acquire_slot_inv in Hi. }
  intros acquired ? ->. eapply (owns_bind _ (λ _ r', r' = [Waiting])).
  - destruct acquired; cbn [negb]; [|done]. eapply owns_bind; [apply gateway_upgrade_owns|]. intros response ? ->.
    eapply (owns_bind _ (λ _ r', r' = [Waiting])); [|by intros ? ? ->]. apply owns_act. intros g frame Hi. exists [Waiting]. split; [|done].
    by apply release_slot_inv in Hi.
  - intros response ? ->. eapply (owns_bind _ (λ _ r', r' = [])); [|by intros ? ? ->]. apply owns_act. intros g frame Hi. exists [].
    split; [|done]. by apply done_inv in Hi.
Qed.

(** The steps of the running gateway. *)
Definition serving := pool_step (startable sha256 Parse ToLower ParseAddr decodeHello cfg) pruner.

Lemma gateway_serving_inv g0 g ps :
  inv [] g0 → rtc serving (g0, []) (g, ps) →
  ∃ r, inv r g ∧ (Forall (λ p, ∃ u, p = Ret u) ps → forallb knowledge r = true).
Proof.
  intros Hi Hr. eapply (pool_owns inv gateway_inv_perm (leftover [])) in Hr as (rs & Hi' & Hrs).
  - exists (concat rs). split; [exact Hi'|]. intros Hps. cbn in Hrs. clear Hi'.
    induction Hrs as [|r p rs ps Hp _ IH]; [done|]. apply Forall_cons in Hps as [[u ->] Hps]. cbn. rewrite forallb_app, IH by done.
    destruct Hp as (k & Hk & ->). by rewrite app_nil_r, Hk.
  - intros g1 p [->|[(r & v & ->)|(request & clock & granted & answer & r1 & r2 & t & ->)]]; [apply gateway_Close_owns|..].
    + eapply owns_bind; [apply gateway_ServeHTTP_owns|]. intros ? ? ->. apply leftover_refl.
    + eapply owns_bind; [apply issue_owns|]. intros ? ? (k & ? & ->). by exists k.
  - intros g1 g2 r. apply gateway_pruner_inv.
  - exists []. by split.
Qed.
End system.

Lemma gateway_New_inv sha256 Parse ToLower ParseAddr e c cfg g :
  New Parse ToLower ParseAddr e c = Ok (cfg, g) → inv sha256 cfg [] g ∧ 0 ≤ MaxConcurrent (limits cfg) ∧ 0 ≤ MaxOutstandingTickets (limits cfg).
Proof.
  unfold New. intros Hn. apply bind_Ok_inv in Hn as (lim & Hlim & Hn). apply bind_Ok_inv in Hn as (os & _ & Hn).
  apply bind_Ok_inv in Hn as (pub & _ & Hn). apply bind_Ok_inv in Hn as (up & _ & Hn). simplify_eq.
  assert (0 ≤ MaxConcurrent lim ∧ 0 ≤ MaxOutstandingTickets lim) as [H1 H2].
  { unfold applyConfigDefaults in Hlim. ok_inv Hlim. unfold set_default. split; case_match; reflect_bools; unfold defaultMaxConcurrent, defaultMaxTickets; lia. }
  split_and!; [|done..]. constructor; constructor; cbn; try done; try lia.
  - constructor.
  - intros id Hin. by apply elem_of_nil in Hin.
  - intros h entry Hin. by apply elem_of_nil in Hin.
  - intros a Hin. by apply elem_of_nil in Hin.
  - unfold len. rewrite map_size_empty. lia.
  - unfold len. rewrite !map_size_empty. lia.
Qed.

(** * Properties *)

(** C8: in every interleaving of handlers, issue calls, pruning and
    shutdown, a hello reaches the Connector only for a stored browser ticket that was
    issued after the authorizer granted its binding, with that binding and connection,
    and a ticket yields no more hellos than it was stored; at most [MaxConcurrent] sessions
    and [MaxOutstandingTickets] tickets exist; and when every handler has returned, no slot,
    session or count of the wait group is left and every session audited as connected has been
    audited as disconnected. *)
Theorem gateway_sessions sha256 Parse ToLower ParseAddr decodeHello `{Decoders, ServerDecoders} e c cfg g0 g ps :
  New Parse ToLower ParseAddr e c = Ok (cfg, g0) →
  rtc (serving sha256 cfg decodeHello Parse ToLower ParseAddr) (g0, []) (g, ps) →
  Forall (justified sha256 (history g)) (history g) ∧
  (∀ h, hellos sha256 h (history g) ≤ stores h (history g)) ∧
  connSlots g ≤ MaxConcurrent (limits cfg) ∧ len (tickets (broker g)) ≤ MaxOutstandingTickets (limits cfg) ∧
  (Forall (λ p, ∃ u, p = Ret u) ps →
     connSlots g = 0 ∧ active g = ∅ ∧ wait g = (if pruning g then 1 else 0) ∧
     ∀ id, audited "connected" id (history g) ≤ audited "disconnected" id (history g)).
Proof.
  intros (Hi & Hc & Ht)%(gateway_New_inv sha256) Hr. eapply gateway_serving_inv in Hr as (r & Hg & Hdone); [|exact Hi].
  pose proof Hg as [[_ Kc _ _ _ _] [_ _ _ Kj Ko _] [_ Kt _]].
  split_and!; [done| |lia|lia|].
  { intros h. specialize (Ko h). unfold count in Ko. case_bool_decide; lia. }
  intros Hret. apply Hdone in Hret. rewrite <-(app_nil_r r) in Hg. apply gateway_inv_forget in Hg as [[] [_ _ _ _ _ Ka] _]; [|done].
  split_and!; try done. intros id. specialize (Ka id). unfold count in Ka. cbn in Ka. lia.
Qed.

(** ** A session from issue to disconnection *)

Module Visit.
Definition url (s : string) : option URL :=
  if has_prefix "wss://" s then Some (mkURL "wss" "console.test" "console.test" "" s false ConnectPath "" "")
  else if has_prefix "http://" s then Some (mkURL "http" "127.0.0.1:9000" "127.0.0.1" "9000" s false "" "" "")
  else Some (mkURL "https" "console.test" "console.test" "" s false "" "" "").
Definition addr (s : string) : option Addr :=
  if s =? "127.0.0.1" then Some (AddrV4 2130706433) else None.
Definition endpoints : Endpoints :=
  mkEndpoints "wss://console.test/api/v1/webssh/connect" false ["https://console.test"] "http://127.0.0.1:9000/" ""
    "https://console.test".
Definition created : GatewayConfig * Gateway :=
  match New url id addr endpoints demo_config with
  | Ok x => x
  | Err _ => (mkGatewayConfig demo_config ∅ false "", mkGateway demo_broker 0 ∅ 0 0 false false [])
  end.
Definition upstream : WebSSHTicketResponse :=
  mkTicketResponse "v1" "req" (b64_encode demo_raw) (b64_encode "0123456789abcdef") (130 * second).
Definition hello : HelloMessage := demo_hello ["operator"; "admin"].
#[global] Instance answers : ServerDecoders := {|
  decode_ready _ := None; decode_output _ := None; decode_exit _ := None; decode_error _ := None |}.
Definition request : BrowserRequest :=
  mkBrowserRequest ConnectPath "GET" "" "" ["https://console.test"] [WebSSHSubprotocol].
Definition terminal : visit :=
  mkVisit true WebSSHSubprotocol (Some (true, "hello")) (105 * second) true (Some WebSSHSubprotocol) true (105 * second)
    [] [] [PAuthorize true; PBrowser] (106 * second).
Definition issuing : prog Gateway unit :=
  issue id demo_request demo_clock true (Some upstream) (Some demo_raw) (Some "0123456789abcdef") (102 * second) ≫= λ _, Ret tt.
Definition connecting : prog Gateway unit :=
  ServeHTTP id url id addr (λ _, Some hello) created.1 request terminal ≫= λ _, Ret tt.
Definition ended : Gateway := (run connecting (run issuing created.2).1).1.

Lemma gateway_created : New url id addr endpoints demo_config = Ok (created.1, created.2).
Proof. vm_compute. reflexivity. Qed.

Lemma ended_reachable :
  rtc (serving id created.1 (λ _, Some hello) url id addr) (created.2, []) (ended, [Ret tt; Ret tt]).
Proof.
  assert (∀ p g ps, startable id url id addr (λ _, Some hello) created.1 g p →
    rtc (serving id created.1 (λ _, Some hello) url id addr) (g, ps) ((run p g).1, Ret (run p g).2 :: ps)) as Hrun.
  { intros p g ps Hp. eapply rtc_l; [|apply pool_run]. by apply pool_start. }
  etrans; [apply (Hrun issuing); right; right; by repeat eexists|]. apply (Hrun connecting). right; left. by repeat eexists.
Qed.
End Visit.

Lemma gateway_sessions_witness :
  hellos id demo_raw (history Visit.ended) = 1 ∧ 1 ≤ stores demo_raw (history Visit.ended) ∧
  audited "connected" (b64_encode "0123456789abcdef") (history Visit.ended) = 1 ∧
  1 ≤ audited "disconnected" (b64_encode "0123456789abcdef") (history Visit.ended).
Proof.
  destruct (gateway_sessions id Visit.url id Visit.addr (λ _, Some Visit.hello) Visit.endpoints demo_config Visit.created.1
    Visit.created.2 Visit.ended [Ret tt; Ret tt] Visit.gateway_created Visit.ended_reachable) as (_ & Hh & _ & _ & Hall).
  specialize (Hh demo_raw). destruct Hall as (_ & _ & _ & Ha); [repeat constructor; exists tt; reflexivity|].
  specialize (Ha (b64_encode "0123456789abcdef")).
  assert (hellos id demo_raw (history Visit.ended) = 1) as E by (vm_compute; reflexivity).
  assert (audited "connected" (b64_encode "0123456789abcdef") (history Visit.ended) = 1) as F by (vm_compute; reflexivity).
  rewrite E in Hh |- *. rewrite F in Ha |- *. split_and!; done.
Defined.
