(* ===== verification/WebSSHPath.v ===== *)
(** * WebSSH from the browser to the shell

    The gateway and the Connector together: the ticket that the Connector
    issues, the gateway stores and sends back, the input that passes the
    gateway's proxy and the Connector's reader, and the messages that pass the
    other way. *)

From S2P Require Import Prelude GoStrings Encoding Url Credentials Protocol SshConnector ConnectorWebSSH RateLimit TerminalSession Prog ConnectorClient Broker Gateway GatewaySystem.

(** ** Frames through the gateway *)

Section frames.
Context `{Decoders, ServerDecoders} (config : Config).

(** What the gateway passes on is a first part of the browser's frames, each
    a message that the gateway understands. *)
Lemma forward_client_prefix limiter frames bodies result :
  forward_client config limiter frames = (bodies, result) →
  ∃ n, bodies = map fr_body (take n (map px_frame frames)) ∧
    (result = client_gone → take n (map px_frame frames) = map px_frame frames) ∧
    Forall (λ f, fr_text f = true ∧ ∃ ty, header_type (fr_body f) = Some ty ∧ client_frame_valid config (fr_body f) ty = true)
      (take n (map px_frame frames)).
Proof.
  revert limiter bodies result. induction frames as [|x frames IH]; intros limiter bodies result.
  { intros [= <- <-]. exists 0%nat. by split_and!. }
  cbn [forward_client]. destruct (fr_text (px_frame x)) eqn:Et; [|intros [= <- <-]; exists 0%nat; by split_and!]. cbn [negb].
  destruct (allow _ _ _) as [l1 allowed]. destruct allowed; [|intros [= <- <-]; exists 0%nat; by split_and!]. cbn [negb].
  destruct (header_type (fr_body (px_frame x))) as [ty|] eqn:Eh; [|intros [= <- <-]; exists 0%nat; by split_and!].
  destruct (client_frame_valid config (fr_body (px_frame x)) ty) eqn:Ev; [|intros [= <- <-]; exists 0%nat; by split_and!]. cbn [negb].
  destruct (px_written x); [|intros [= <- <-]; exists 0%nat; by split_and!]. cbn [negb].
  destruct (forward_client config l1 frames) as [bs res] eqn:Ef. intros [= <- <-]. apply IH in Ef as (n & -> & Hall & Hv).
  exists (S n). cbn. split_and!; [done|by intros E; rewrite (Hall E)|]. constructor; [|done]. split; [done|]. by exists ty.
Qed.

(** Such a message is acceptable to a Connector with no smaller limit. *)
Lemma valid_acceptable (cfg : settings) f ty :
  MaxInputMessageBytes config ≤ maxInputMessageBytes cfg → fr_text f = true → header_type (fr_body f) = Some ty →
  client_frame_valid config (fr_body f) ty = true → acceptable cfg f.
Proof.
  intros Hmax Ht Hh Hv. split; [done|]. unfold client_frame_valid in Hv.
  destruct (String.eqb_spec ty WebSSHMessageInput) as [->|_].
  { destruct (decode_input (fr_body f)) as [m|] eqn:Ed; [|done]. apply Z.leb_le in Hv. left. exists m. split_and!; [done..|lia]. }
  destruct (String.eqb_spec ty WebSSHMessageResize) as [->|_]; [|done].
  destruct (decode_resize (fr_body f)) as [m|] eqn:Ed; [|done]. right. by exists m.
Qed.

(** An acceptable message ends a session of the Connector only by its rate
    limit or a failure of SSH. *)
Lemma acceptable_event {P} `{Shell P} (cfg : settings) (p : P) limiter f p' limiter' e :
  acceptable cfg f → handle_frame cfg p limiter f = (p', limiter', Some e) →
  code e = "input_rate_limit" ∨ code e = "ssh_input_failed" ∨ code e = "resize_failed".
Proof.
  intros [Ht Hf] E. unfold handle_frame in E. rewrite Ht in E. cbn [negb] in E.
  destruct (Allow _ _ _) as [l1 allowed]. destruct allowed; cbn [negb] in E; [|simplify_eq; cbn; auto].
  destruct Hf as [(m & Hh & Hd & Hl)|(m & Hh & Hd & Hv)]; rewrite Hh in E; cbn [String.eqb] in E.
  - change (WebSSHMessageInput =? WebSSHMessageInput) with true in E. cbn match in E. rewrite Hd in E.
    rewrite (proj2 (Z.ltb_ge _ _)) in E by lia. destruct (writeAll p (wi_Data m)) as [p1 [w|]]; simplify_eq. cbn. auto.
  - change (WebSSHMessageResize =? WebSSHMessageInput) with false in E. change (WebSSHMessageResize =? WebSSHMessageResize) with true in E.
    cbn match in E. rewrite Hd, Hv in E. cbn [negb] in E. destruct (Resize (wz_Size m) p) as [p1 []]; simplify_eq. cbn. auto.
Qed.

Lemma read_frames_event {P} `{Shell P} (cfg : settings) (p : P) limiter frames p' ev :
  Forall (acceptable cfg) frames → read_frames cfg p limiter frames = (p', ev) →
  ev = client_closed ∨ code ev = "input_rate_limit" ∨ code ev = "ssh_input_failed" ∨ code ev = "resize_failed".
Proof.
  revert p limiter. induction frames as [|f frames IH]; intros p limiter Hacc; [intros [= <- <-]; by left|].
  apply Forall_cons in Hacc as [Hf Hacc]. cbn [read_frames].
  destruct (handle_frame cfg p limiter f) as [[p1 l1] [e|]] eqn:Ef; [|by apply IH]. intros [= <- <-]. right. by eapply acceptable_event.
Qed.

(** [typed] and [resized] read only the bodies. *)
Lemma typed_bodies l l' : map fr_body l = map fr_body l' → typed l = typed l' ∧ resized l = resized l'.
Proof.
  revert l'. induction l as [|f l IH]; intros [|f' l'] E; try done. cbn in E. injection E as Ef E. apply IH in E as [Et Er].
  change (typed (f :: l)) with (frame_input f +:+ typed l). change (typed (f' :: l')) with (frame_input f' +:+ typed l').
  unfold resized in Er |- *. rewrite !bind_cons. unfold frame_input. rewrite Ef, Et. split; [done|]. f_equal; [|exact Er].
  unfold frame_sizes. by rewrite Ef.
Qed.

(** What the Connector's session shows the browser. *)
Definition output_raw (m : browser_message) : Prop :=
  ∃ body o, m = BRaw body ∧ decode_output body = Some o ∧ slen (wo_Data o) ≤ MaxOutputMessageBytes config.
Definition final_raw (m : browser_message) : Prop :=
  ∃ body, m = BRaw body ∧ (is_Some (decode_exit body) ∨ is_Some (decode_error body)).

Lemma server_message_cases ticket ready body ty message becomes terminal :
  server_message_for config ticket ready body ty = Some (message, becomes, terminal) →
  (ready = false ∧ becomes = true ∧ terminal = false ∧ ∃ m, message = BReady m ∧ wr_SessionID m = connectionID ticket) ∨
  (ready = true ∧ becomes = false ∧ terminal = false ∧ output_raw message) ∨
  (becomes = false ∧ terminal = true ∧ final_raw message).
Proof.
  unfold server_message_for, output_raw, final_raw. intros E. repeat case_match; simplify_eq; reflect_bools.
  - left. eauto 10.
  - right; left. split_and!; try done. eauto 10.
  - right; right. split_and!; try done. eauto 10.
  - right; right. split_and!; try done. eauto 10.
Qed.

Lemma forward_server_protocol ticket ready limiter frames messages result :
  forward_server config ticket ready limiter frames = (messages, result) →
  ∃ start outputs final, messages = start ++ outputs ++ final ∧
    Forall output_raw outputs ∧ (final = [] ∨ ∃ m, final = [m] ∧ final_raw m ∧ disconnectType result = "remote_exit") ∧
    if ready then start = []
    else (start = [] ∧ outputs = []) ∨ ∃ m, start = [BReady m] ∧ wr_SessionID m = connectionID ticket.
Proof.
  revert ready limiter messages. induction frames as [|x frames IH]; intros ready limiter messages.
  { intros [= <- <-]. exists [], [], []. split_and!; [done|done|by left|]. destruct ready; auto. }
  assert (∃ start outputs final : list browser_message, [] = start ++ outputs ++ final ∧
    Forall output_raw outputs ∧ (final = [] ∨ ∃ m, final = [m] ∧ final_raw m ∧ disconnectType result = "remote_exit") ∧
    if ready then start = [] else (start = [] ∧ outputs = []) ∨ ∃ m, start = [BReady m] ∧ wr_SessionID m = connectionID ticket) as Hnil.
  { exists [], [], []. split_and!; [done|done|by left|]. destruct ready; auto. }
  cbn [forward_server]. destruct (if fr_text (px_frame x) then _ else _) as [l1 allowed]. destruct allowed; [|by intros [= <- <-]]. cbn [negb].
  destruct (header_type _) as [ty|]; [|by intros [= <- <-]].
  destruct (server_message_for _ _ _ _ _) as [[[message becomes] terminal]|] eqn:Em; [|by intros [= <- <-]].
  destruct (px_written x); [|by intros [= <- <-]]. cbn [negb].
  apply server_message_cases in Em as [(-> & -> & -> & m & -> & Hid)|[(-> & -> & -> & Hout)|(-> & -> & Hfin)]].
  - destruct (forward_server _ _ _ _ _) as [ms res] eqn:Ef. intros [= <- <-]. apply IH in Ef as (start & outputs & final & -> & Ho & Hf & ->).
    exists [BReady m], outputs, final. split_and!; [done..|]. right. by exists m.
  - destruct (forward_server _ _ _ _ _) as [ms res] eqn:Ef. intros [= <- <-]. apply IH in Ef as (start & outputs & final & -> & Ho & Hf & ->).
    exists [], (message :: outputs), final. split_and!; [done|by constructor|done|done].
  - intros [= <- <-]. exists [], [], [message]. split_and!; [done|done|right; by exists message|]. destruct ready; auto.
Qed.
End frames.

(** ** Input through the gateway *)

Section relayed.
Context `{Decoders}.

(** A first part of the messages of the Connector is a first part of the
    browser's. *)
Lemma relayed_take (frames sent : list frame) m k :
  map fr_body frames = map fr_body (take m sent) →
  typed (take k frames) = typed (take (k `min` m) sent) ∧ resized (take k frames) = resized (take (k `min` m) sent).
Proof.
  intros E. rewrite <-take_take. apply typed_bodies. rewrite <-(firstn_map fr_body k frames), <-(firstn_map fr_body k (take m sent)). by rewrite E.
Qed.

Lemma relayed_lookup (frames sent : list frame) m k f :
  map fr_body frames = map fr_body (take m sent) → frames !! k = Some f →
  (k `min` m)%nat = k ∧ ∃ f', sent !! k = Some f' ∧ frame_input f' = frame_input f.
Proof.
  intros E Hk. assert (map fr_body (take m sent) !! k = Some (fr_body f)) as Hs by (by rewrite <-E, list_lookup_fmap, Hk).
  rewrite list_lookup_fmap in Hs. apply fmap_Some in Hs as (f' & Hf & Eb). apply lookup_take_Some in Hf as [Hf Hlt].
  split; [lia|]. exists f'. split; [done|]. unfold frame_input. by rewrite Eb.
Qed.

Lemma relayed_all (frames sent : list frame) m k :
  map fr_body frames = map fr_body (take m sent) → frames = take k frames → take m sent = sent → take (k `min` m) sent = sent.
Proof.
  intros E Hk Hm. rewrite <-take_take, Hm. apply take_ge. apply (f_equal length) in E, Hk. rewrite !length_map, Hm in E.
  rewrite length_take in Hk. lia.
Qed.

End relayed.

(** ** Tickets through the gateway *)

Lemma ticket_digest_encode sha256 raw : slen raw = 32 → ticket_digest sha256 (b64_encode raw) = Some (sha256 raw).
Proof. intros Hl. unfold ticket_digest. by rewrite b64_roundtrip, Hl. Qed.

Lemma read_full_Some n raw e : slen raw = n → read_full n (Some raw) e = Ok raw.
Proof. intros <-. unfold read_full. by rewrite Z.eqb_refl. Qed.

(** The entry that the Connector stores, with the answer it gives.  No older
    entry uses the cell of the copied credential. *)
Lemma createTicket_stores sha256 cfg m mem payload l id now r1 r2 m1 mem1 resp :
  createTicket sha256 cfg m mem payload l id now r1 r2 = (m1, mem1, Ok resp) →
  (∀ h t, ConnectorWebSSH.tickets m !! h = Some t → (credential t < next mem)%nat) →
  ∃ raw session, slen raw = 32 ∧ slen session = 16 ∧
    ConnectorWebSSH.tickets m1 !! sha256 raw = Some (new_ticket cfg payload (next mem) now session) ∧
    read mem1 (next mem) = read mem l ∧
    resp = mkTicketResponse ProtocolVersion id (b64_encode raw) (b64_encode session) (now + ticketTTL cfg).
Proof.
  unfold createTicket, read_full. intros E Hold. destruct r1 as [raw|]; [|done]. destruct (Z.eqb_spec (slen raw) 32); [|done].
  destruct r2 as [session|]; [|done]. destruct (Z.eqb_spec (slen session) 16); [|done].
  cbn [cloneCredential alloc ConnectorWebSSH.pruneLocked] in E. case_match; [done|]. case_match; [done|]. simplify_eq.
  exists raw, session. split_and!; [done..|cbn; by rewrite lookup_insert_eq| |done]. unfold read at 1.
  destruct (wipe_dropped_lookup (λ t, now <? ConnectorWebSSH.expiresAt t) (map_to_list (ConnectorWebSSH.tickets m))
    (alloc (read mem l) mem).1 (next mem)) as [[([h t] & Hin & _ & Et) _]|[_ E]].
  - apply elem_of_map_to_list, Hold in Hin. cbn in Et. lia.
  - cbn in E. by rewrite E, lookup_insert_eq.
Qed.

Lemma validate_fresh_response id raw session now ttl t :
  slen raw = 32 → slen session = 16 → ttl ≤ minute → now ≤ t < now + ttl →
  validateConnectorResponse (mkTicketResponse ProtocolVersion id (b64_encode raw) (b64_encode session) (now + ttl)) t =
  Ok (b64_encode raw, b64_encode session).
Proof.
  intros Hr Hs Httl Ht. unfold validateConnectorResponse.
  cbn [ts_ProtocolVersion ts_ExpiresAt ts_Ticket ts_SessionID]. rewrite String.eqb_refl, (proj2 (Z.ltb_lt _ _)), (proj2 (Z.leb_le _ _)) by lia.
  rewrite !b64_roundtrip. cbn [andb of_option mbind result_bind]. by rewrite Hr, Hs.
Qed.

(** A hello with the digest, session and binding of an entry is accepted. *)
Lemma consumeTicket_accepts sha256 cfg m mem hello now h entry :
  ticket_digest sha256 (wh_Ticket hello) = Some h → ConnectorWebSSH.tickets m !! h = Some entry →
  now < ConnectorWebSSH.expiresAt entry → wh_SessionID hello = sessionID entry →
  wh_Binding hello = ConnectorWebSSH.binding entry → wh_Type hello = WebSSHMessageHello →
  ∃ m' mem', ConnectorWebSSH.consumeTicket sha256 cfg m mem hello now = (m', mem', inl entry) ∧
    ConnectorWebSSH.tickets m' !! h = None.
Proof.
  intros Hd Hl Hnow Hs Hb Hty. unfold ConnectorWebSSH.consumeTicket. rewrite Hd. cbn [ConnectorWebSSH.pruneLocked].
  assert (prune (λ t, now <? ConnectorWebSSH.expiresAt t) (ConnectorWebSSH.tickets m) !! h = Some entry) as Hp.
  { apply prune_lookup_Some. split; [done|]. by apply Z.ltb_lt. }
  cbn [ConnectorWebSSH.set_tables ConnectorWebSSH.tickets]. rewrite Hp, (proj2 (Z.ltb_lt _ _)) by done. cbn [negb].
  rewrite Hs, Hb, Hty, same_string_refl, same_binding_refl. cbn. eexists _, _. split; [done|]. cbn. apply lookup_delete_eq.
Qed.

(** * Properties *)

(** C9: the request that the gateway sends to the Connector carries the binding
    of the browser's session and the target, host key, credential and terminal size
    asked for: whatever [connector] answers to other requests, [issue_ticket] uses
    its answer to this one.  When the Connector, serving that request, has issued a
    ticket, the gateway accepts the answer while the ticket is fresh; and the hello
    it sends for its own ticket, any time before that ticket expires, is accepted by
    the Connector as long as it keeps the entry, which is removed and has that
    binding, target, host key, terminal size and credential. *)
Theorem webssh_ticket_path sha256 (connector : WebSSHTicketRequest → option WebSSHTicketResponse)
    cfg m mem request bd l id now r1 r2 m1 mem1 resp b clock browserRaw connectionRaw :
  let bound := mkWebSSHBinding (PrincipalID bd) (bd_HostID bd) (bd_CredentialID bd) ActionWebSSH in
  let sent := mkTicketRequest "" bound (iq_Target request) (iq_PinnedHostKey request) (iq_Credential request) (iq_InitialSize request) in
  connector sent = Some resp →
  createTicket sha256 cfg m mem (versioned sent) l id now r1 r2 = (m1, mem1, Ok resp) → read mem l = tr_Credential sent →
  (∀ h t, ConnectorWebSSH.tickets m !! h = Some t → (credential t < next mem)%nat) →
  ticketTTL cfg ≤ minute → 0 < TicketTTL (config b) → slen browserRaw = 32 → slen connectionRaw = 16 →
  now ≤ at_response clock < now + ticketTTL cfg → at_ticket clock < now + ticketTTL cfg →
  ∃ hash entry response h ticket,
    issue_ticket sha256 connector b request bd clock (Some browserRaw) (Some connectionRaw) = Ok (hash, entry, response) ∧
    at_ticket clock < expiresAt entry ∧ read mem1 (credential ticket) = iq_Credential request ∧
    target ticket = iq_Target request ∧ pinnedHostKey ticket = iq_PinnedHostKey request ∧
    initialSize ticket = iq_InitialSize request ∧ ConnectorWebSSH.binding ticket = bound ∧
    ∀ m2 mem2 t, ConnectorWebSSH.tickets m2 !! h = ConnectorWebSSH.tickets m1 !! h → t < expiresAt entry →
      ∃ m3 mem3, ConnectorWebSSH.consumeTicket sha256 cfg m2 mem2 (connector_hello entry) t = (m3, mem3, inl ticket) ∧
        ConnectorWebSSH.tickets m3 !! h = None.
Proof.
  intros bound sent Hsent Hc Hmem Hold Httl Hpos Hb Hs Hresp Htick. apply createTicket_stores in Hc as (raw & session & Hr & Hse & Hl & Hcred & ->); [|done].
  unfold issue_ticket. fold bound. fold sent. rewrite Hsent. cbn [of_option mbind result_bind].
  rewrite (validate_fresh_response id raw session now (ticketTTL cfg)) by done.
  rewrite !read_full_Some by done. cbn. set (exp := if _ <? _ then _ else _).
  assert (at_ticket clock < exp ≤ now + ticketTTL cfg) as [Hlt Hexp] by (unfold exp; case_match; reflect_bools; lia).
  rewrite (proj2 (Z.ltb_lt _ _)) by done. cbn.
  eexists _, _, _, (sha256 raw), (new_ticket cfg (versioned sent) (next mem) now session).
  split_and!; [reflexivity|exact Hlt|cbn [new_ticket credential]; by rewrite Hcred, Hmem|reflexivity..|]. intros m2 mem2 t Hsame Ht. eapply consumeTicket_accepts; cbn; [by apply ticket_digest_encode|by rewrite Hsame|cbn in *; lia|done..].
Qed.

(** C10: what the remote shell receives through gateway and Connector is
    exactly the input of a first part of the browser's frames, in order, without gaps
    and unchanged, and exactly their window sizes; when the limits of the gateway are not above
    the Connector's, the Connector never finds a forwarded message invalid; and when the browser
    closed the connection and the Connector read to the end, everything was delivered. *)
Theorem webssh_input_path `{Decoders, ServerDecoders} {P} `{ShellLaws P} config cfg begin browser bodies result (p : P) start frames p' ev :
  proxyBrowserToConnector config begin browser = (bodies, result) →
  map fr_body frames = bodies → Forall (λ f, fr_text f = true) frames →
  MaxInputMessageBytes config ≤ maxInputMessageBytes cfg → readClient cfg p start frames = (p', ev) →
  let sent := map px_frame browser in
  (ev = client_closed ∨ code ev = "input_rate_limit" ∨ code ev = "ssh_input_failed" ∨ code ev = "resize_failed") ∧
  ∃ n rest, received p' = received p +:+ typed (take n sent) +:+ rest ∧ window p' = window p ++ resized (take n sent) ∧
    (rest = "" ∨ code ev = "ssh_input_failed" ∧ ∃ f k, sent !! n = Some f ∧ rest = take_str k (frame_input f)) ∧
    (result = client_gone → ev = client_closed → take n sent = sent).
Proof.
  intros (m & -> & Hall & Hvalid)%forward_client_prefix E Htext Hmax Hread sent. fold sent in E, Hall, Hvalid.
  assert (Forall (acceptable cfg) frames) as Hacc.
  { apply Forall_lookup. intros k f Hk. pose proof (proj1 (Forall_lookup _ _) Htext k f Hk) as Ht.
    assert (map fr_body (take m sent) !! k = Some (fr_body f)) as Hs by (by rewrite <-E, list_lookup_fmap, Hk).
    rewrite list_lookup_fmap in Hs. apply fmap_Some in Hs as (f' & Hf & Eb).
    apply (proj1 (Forall_lookup _ _) Hvalid) in Hf as (_ & ty & Hh & Hv). rewrite <-Eb in Hh, Hv. by eapply valid_acceptable. }
  unfold readClient in Hread. split; [by eapply read_frames_event|]. apply read_frames_delivers in Hread as (k & rest & Hr & Hw & _ & Hend).
  destruct (relayed_take frames sent m k E) as [Et Es]. rewrite Et in Hr. rewrite Es in Hw. exists (k `min` m)%nat, rest.
  split_and!; [done|done|..].
  - destruct Hend as [(_ & _ & ->)|(f & Hf & _ & [->|(Hc & _ & j & ->)])]; [by left..|right]. split; [done|].
    destruct (relayed_lookup _ _ _ _ _ E Hf) as (-> & f' & Hf' & <-). eauto.
  - intros Hres ->. destruct Hend as [(Hk & _ & _)|(f & _ & Hne & _)]; [|done]. eapply relayed_all; eauto.
Qed.

(** C37: what the browser is shown is one ready message with the gateway's own
    connection identifier, then outputs within the limit, then at most one exit or error
    message, after which the session ends; nothing but that error comes before the ready
    message. *)
Theorem gateway_output `{Decoders, ServerDecoders} config ticket begin frames messages result :
  proxyConnectorToBrowser config ticket begin frames = (messages, result) →
  ∃ start outputs final, messages = start ++ outputs ++ final ∧
    ((start = [] ∧ outputs = []) ∨ ∃ m, start = [BReady m] ∧ wr_SessionID m = connectionID ticket) ∧
    Forall (output_raw config) outputs ∧
    (final = [] ∨ ∃ m, final = [m] ∧ final_raw m ∧ disconnectType result = "remote_exit").
Proof.
  intros (start & outputs & final & -> & Ho & Hf & Hs)%forward_server_protocol. exists start, outputs, final. by split_and!.
Qed.

(** ** Sample sessions *)

Module Path.
Definition payload : WebSSHTicketRequest :=
  mkTicketRequest ProtocolVersion (mkWebSSHBinding "alice" "host_1" "cred_1" ActionWebSSH) (iq_Target demo_request)
    (iq_PinnedHostKey demo_request) (iq_Credential demo_request) (iq_InitialSize demo_request).
Definition memory : Memory := (alloc (iq_Credential demo_request) empty_memory).1.
Definition bound : Binding := demo_binding ["admin"; "operator"].
Definition issued : webSSHManager * Memory * result string WebSSHTicketResponse :=
  createTicket id Samples.limits (fresh_manager true) memory payload 0 "req" (100 * second) (Some demo_raw) (Some "0123456789abcdef").
Definition answer : WebSSHTicketResponse :=
  mkTicketResponse ProtocolVersion "req" (b64_encode demo_raw) (b64_encode "0123456789abcdef") (130 * second).

Definition config : Config := mkConfig (20 * second) 0 0 0 0 0 0 0 4 8 16 16 65536 65536.
Definition browser : list proxied := (λ f, mkProxied f true) <$> take 3 Samples.frames.

(** Messages of the Connector written as a letter and the text. *)
#[global] Instance words : ServerDecoders := {|
  decode_ready s := match s with String "k" v => Some (mkReady "ready" v (mkTerminalSize 80 24 0 0)) | _ => None end;
  decode_output s := match s with String "o" v => Some (mkOutput "output" v) | _ => None end;
  decode_exit s := None;
  decode_error s := None;
|}.
Definition types : Decoders := {|
  header_type s := match s with String "k" _ => Some "ready" | String "o" _ => Some "output" | _ => None end;
  decode_input _ := None; decode_resize _ := None;
|}.
Definition ticket : browserTicket := mkBrowserTicket "conn" bound "reason" "t" "upstream" (tr_Binding payload) (120 * second).
Definition server : list proxied := [mkProxied (mkFrame true "kupstream" 0) true; mkProxied (mkFrame true "oLinux" 1) true].
End Path.

Lemma webssh_ticket_path_witness :
  ∃ hash entry response h ticket,
    issue_ticket id (λ _, Some Path.answer) demo_broker demo_request Path.bound demo_clock (Some demo_raw) (Some "0123456789abcdef") =
      Ok (hash, entry, response) ∧
    target ticket = iq_Target demo_request ∧
    ∃ m3 mem3, ConnectorWebSSH.consumeTicket id Samples.limits Path.issued.1.1 Path.issued.1.2 (connector_hello entry)
      (at_ticket demo_clock) = (m3, mem3, inl ticket) ∧ ConnectorWebSSH.tickets m3 !! h = None.
Proof.
  destruct (webssh_ticket_path id (λ _, Some Path.answer) Samples.limits (fresh_manager true) Path.memory demo_request Path.bound 0 "req" (100 * second)
    (Some demo_raw) (Some "0123456789abcdef") Path.issued.1.1 Path.issued.1.2 Path.answer demo_broker demo_clock demo_raw "0123456789abcdef")
    as (hash & entry & response & h & ticket & Hi & Ht & _ & Htg & _ & _ & _ & Hc).
  - reflexivity.
  - vm_compute. reflexivity.
  - vm_compute. reflexivity.
  - intros h t Hl. cbn in Hl. by rewrite lookup_empty in Hl.
  - vm_compute. discriminate.
  - vm_compute. reflexivity.
  - reflexivity.
  - reflexivity.
  - vm_compute. split; [discriminate|reflexivity].
  - vm_compute. reflexivity.
  - exists hash, entry, response, h, ticket. split; [exact Hi|]. split; [exact Htg|]. by apply Hc.
Defined.

Lemma webssh_input_path_witness :
  ∃ n rest, "uname -a" = typed (take n (map px_frame Path.browser)) +:+ rest ∧
    [mkTerminalSize 80 24 0 0] = resized (take n (map px_frame Path.browser)).
Proof.
  destruct (webssh_input_path Path.config Samples.limits 0 Path.browser ["iuname"; "r"; "i -a"] client_gone (Samples.mkSlow "" []) 0
    (take 3 Samples.frames) (Samples.mkSlow "uname -a" [mkTerminalSize 80 24 0 0]) client_closed) as (_ & n & rest & Hr & Hw & _).
  - vm_compute. reflexivity.
  - reflexivity.
  - repeat constructor.
  - vm_compute. discriminate.
  - vm_compute. reflexivity.
  - exists n, rest. split; [exact Hr|exact Hw].
Defined.

Lemma gateway_output_witness :
  ∃ start outputs final, [BReady (mkReady "ready" "conn" (mkTerminalSize 80 24 0 0)); BRaw "oLinux"] = start ++ outputs ++ final.
Proof.
  destruct (@gateway_output Path.types Path.words Path.config Path.ticket 0 Path.server
    [BReady (mkReady "ready" "conn" (mkTerminalSize 80 24 0 0)); BRaw "oLinux"] connector_gone) as (start & outputs & final & Hm & _).
  - vm_compute. reflexivity.
  - exists start, outputs, final. exact Hm.
Defined.
