(* ===== verification/Api.v ===== *)
(** * The control-plane HTTP API: sessions, hosts, host keys, credentials

    Models [services/control-plane/internal/api/server.go] over the
    components it composes: sessions (Auth), the repository (Store), envelope
    encryption (Credentials), audit redaction (AuditTrail) and the destination
    policy (SshConnector).  A handler is a program of atomic steps (Prog) on the
    state of the server; each step is one call of a component.  Routing,
    header writing and JSON encoding are net/http's: a handler is the function of
    a request that returns the status and the body.  Decoding JSON into a
    request struct and the ssh library are parameters. *)

From S2P Require Import Prelude GoStrings Encoding Json Broker Auth AuditTrail Credentials Protocol Model Store SshConnector Prog.

Definition defaultJobTimeout : duration := 100 * second.
Definition maxJSONBody : Z := 524288.

(** The configuration the handlers consult. *)
Record Config := mkConfig {
  DevMode : bool;
  DevBootstrapToken : string;
  SessionTTL : duration;
  JobTimeout : duration;
  ProbeTimeout : duration;
  AllowPrivateTargets : bool;
  HasIdentityVerifier : bool;
  cfg_InstallationID : string;
  SecretExecutionEnabled : bool;
  HasRunbookConnector : bool;
  HasWebSSH : bool;
  MutationsEnabled : bool;
  CloudflareExecutionEnabled : bool;
}.

(** What the control plane sends to the outside for a host: a history of the
    calls of the prober, the collector, the Connector and the WebSSH broker. *)
Inductive outbound :=
| SentProbe (hostID address : string) (port : Z)
| SentCommand (host : Host) (command : Command)
| SentPreview (request : RunbookPreviewRequest)
| SentExecute (request : RunbookExecuteRequest)
| SentTerminal (host : Host) (credentialID reason : string).

Definition outbound_host (o : outbound) : string :=
  match o with
  | SentProbe id _ _ => id
  | SentCommand h _ => h_ID h
  | SentPreview r => rb_HostID (pr_Binding r)
  | SentExecute r => ap_HostID (er_Approval r)
  | SentTerminal h _ _ => h_ID h
  end.

(** The server: its components, the cancel functions of running jobs ([true]
    when called), the probe slots in use, the audit flag, the clock, the
    source of random bytes and, for the proofs, what was sent. *)
Record Server := mkServer {
  config : Config;
  repository : Memory;
  s_sessions : Sessions;
  jobCancels : gmap string bool;
  probeSlots : Z;
  auditFailed : bool;
  clock : time;
  entropy : nat → option string;
  drawn : nat;
  sent : list outbound;
}.

Definition set_repository (s : Server) (m : Memory) : Server :=
  mkServer (config s) m (s_sessions s) (jobCancels s) (probeSlots s) (auditFailed s) (clock s) (entropy s) (drawn s) (sent s).
Definition set_sessions (s : Server) (x : Sessions) : Server :=
  mkServer (config s) (repository s) x (jobCancels s) (probeSlots s) (auditFailed s) (clock s) (entropy s) (drawn s) (sent s).
Definition set_jobCancels (s : Server) (x : gmap string bool) : Server :=
  mkServer (config s) (repository s) (s_sessions s) x (probeSlots s) (auditFailed s) (clock s) (entropy s) (drawn s) (sent s).
Definition set_probeSlots (s : Server) (x : Z) : Server :=
  mkServer (config s) (repository s) (s_sessions s) (jobCancels s) x (auditFailed s) (clock s) (entropy s) (drawn s) (sent s).
Definition set_auditFailed (s : Server) (x : bool) : Server :=
  mkServer (config s) (repository s) (s_sessions s) (jobCancels s) (probeSlots s) x (clock s) (entropy s) (drawn s) (sent s).
Definition draw (s : Server) : Server :=
  mkServer (config s) (repository s) (s_sessions s) (jobCancels s) (probeSlots s) (auditFailed s) (clock s) (entropy s) (S (drawn s)) (sent s).
Definition set_sent (s : Server) (x : list outbound) : Server :=
  mkServer (config s) (repository s) (s_sessions s) (jobCancels s) (probeSlots s) (auditFailed s) (clock s) (entropy s) (drawn s) x.

(** [NewServer]: the checks of the configuration and its defaults. *)
Definition NewServer (c : Config) (hasDependencies hasConnector hasWebSSHConfig : bool) : result string Config :=
  require hasDependencies else "all server dependencies are required" ;;
  require negb (DevMode c && (slen (DevBootstrapToken c) <? 32)%Z)
    else "development bootstrap token must contain at least 32 bytes" ;;
  require negb ((cfg_InstallationID c =? "") && negb (DevMode c)) else "production installation id is required" ;;
  require negb (negb (DevMode c) && SecretExecutionEnabled c)
    else "control-plane secret execution is forbidden in production" ;;
  let ttl := if (SessionTTL c <=? 0)%Z then hour else SessionTTL c in
  require (ttl <=? 8 * hour)%Z else "session ttl may not exceed eight hours" ;;
  let webSSH := hasWebSSHConfig && DevMode c in
  require negb (webSSH && negb hasConnector) else "WebSSH requires the external Connector client" ;;
  Ok (mkConfig (DevMode c) (DevBootstrapToken c) ttl
        (if (JobTimeout c <=? 0)%Z then defaultJobTimeout else JobTimeout c)
        (if (ProbeTimeout c <=? 0)%Z then 12 * second else ProbeTimeout c)
        (AllowPrivateTargets c) (HasIdentityVerifier c)
        (if cfg_InstallationID c =? "" then "development" else cfg_InstallationID c)
        (DevMode c) (HasRunbookConnector c) webSSH (MutationsEnabled c) (CloudflareExecutionEnabled c)).

(** ** Requests and responses *)

Record Request := mkRequest {
  rq_Authorization : string;
  rq_DevBootstrap : string;
  rq_ContentLength : Z;
  rq_PathValue : string → string;
  rq_limit : string;
  rq_body : string;
  rq_RequestID : string;
}.

Record hostKeyProbeResponse := mkProbeResponse {
  kp_Algorithm : string;
  kp_FingerprintSHA256 : string;
  kp_PublicKey : string;
  kp_ResolvedAddress : string;
  kp_ObservedAt : time;
  kp_Trusted : bool;
}.

(** A goroutine that a handler starts for a job. *)
Inductive job_kind := KindSnapshot | KindCommand | KindAnomaly.

Inductive Body :=
| BNone
| BError (code message : string)
| BStatus (status storage : string)
| BToken (token : string) (session : Session)
| BHost (h : Host)
| BHosts (l : list Host)
| BProbe (p : hostKeyProbeResponse)
| BCredential (m : CredentialMetadata)
| BJob (j : Job)
| BJobs (l : list Job)
| BAudits (l : list AuditEvent)
| BWorker (w : CloudflareWorker)
| BWorkers (l : list CloudflareWorker)
| BWorkerToken (m : CloudflareTokenMetadata)
| BVersion (v : CloudflareWorkerVersion)
| BVersions (l : list CloudflareWorkerVersion)
| BDeployment (d : CloudflareDeployment)
| BDeployments (l : list CloudflareDeployment)
| BTerminal (issued : IssueResponse) (protocol : string) (binding : Binding).

Record Response := mkResponse {
  rs_status : Z;
  rs_body : Body;
  rs_started : option (job_kind * string * Principal);
}.

Definition writeJSON (status : Z) (body : Body) : Response := mkResponse status body None.
Definition writeError (status : Z) (code message : string) : Response := writeJSON status (BError code message).
Definition noContent : Response := writeJSON 204 BNone.

Definition writeStoreError (err : store_error) : Response :=
  match err with
  | ErrNotFound => writeError 404 "not_found" "resource not found"
  | ErrConflict => writeError 409 "version_conflict" "resource was changed; reload and retry"
  | ErrOther _ => writeError 500 "internal_error" "request could not be completed"
  end.

(** ** Decoding a request body *)

(** One call of [json.Decoder.Decode] with unknown fields disallowed: the value
    and the unread rest, a syntax or field error, or input that ends too early. *)
Inductive decoded (T : Type) :=
| Decoded (v : T) (rest : string)
| Malformed
| Incomplete.
Arguments Decoded {T} _ _.
Arguments Malformed {T}.
Arguments Incomplete {T}.

Class StrictDecode (T : Type) := strict_decode : string → decoded T.

Definition decodeJSON {T} `{StrictDecode T} (body : string) : result string T :=
  let visible := take_str (Z.to_nat maxJSONBody) body in
  let cut := (maxJSONBody <? slen body)%Z in
  match strict_decode visible with
  | Malformed => Err "request body must be valid JSON with known fields"
  | Incomplete => Err (if cut then "request body exceeds the size limit" else "request body must be valid JSON with known fields")
  | Decoded v rest =>
    if cut || (skip_ws rest ≠? "") then Err "request body must contain exactly one JSON value" else Ok v
  end.

(** ** Steps *)

Definition step {A} (f : Memory → Memory * A) : prog Server A :=
  act (λ s, let '(m, a) := f (repository s) in (set_repository s m, a)).
Definition look {A} (f : Memory → A) : prog Server A := ask (λ s, f (repository s)).
Definition get_now : prog Server time := ask clock.
Definition transmit (o : outbound) : prog Server unit := act (λ s, (set_sent s (sent s ++ [o]), tt)).

Definition NewID (prefix : string) : prog Server (result string string) :=
  act (λ s, (draw s, Model.NewID prefix (entropy s (drawn s)))).

Definition auditWithRequestID (requestID : string) (principal : Principal) (action targetType targetID outcome : string)
    (details : option (list (string * value))) : prog Server unit :=
  id ← NewID "audit";
  match id with
  | Err _ => Ret tt
  | Ok id =>
    now ← get_now;
    err ← step (λ m, AppendAudit m (mkAuditEvent id now (Subject principal) (Role principal) action targetType targetID
                                      outcome requestID (SanitizeDetails details)));
    act (λ s, (set_auditFailed s (negb (is_ok err)), tt))
  end.

Definition audit (r : Request) : Principal → string → string → string → string → option (list (string * value)) → prog Server unit :=
  auditWithRequestID (rq_RequestID r).

Definition checkHostScope (principal : Principal) (hostID : string) : bool := CanAccessHost principal hostID.
Definition out_of_scope : Response := writeError 404 "not_found" "resource not found".

Definition ready (dependencies : list bool) : prog Server Response :=
  failed ← ask auditFailed;
  Ret (if failed || negb (forallb id dependencies) then writeJSON 503 (BStatus "unavailable" StorageMode)
       else writeJSON 200 (BStatus "ready" StorageMode)).

(** ** Validation of hosts *)

(** [strings.ToLower], encoded again. *)
Definition ToLower (s : string) : string := foldr (λ r acc, utf8_encode r +:+ acc) "" (to_lower s).

Definition normalizeAddress (value : string) : string :=
  let value := trim_space value in
  let value :=
    if has_prefix "[" value && has_suffix "]" value then
      let inner := trim_prefix "[" value in
      if has_suffix "]" inner then take_str (String.length inner - 1) inner else inner
    else value in
  ToLower value.

(** [(?i)[a-z0-9]], which by simple case folding also matches the long s and
    the Kelvin sign. *)
Definition dns_alnum (r : Z) : bool := is_alnum_rune r || (r =? 383)%Z || (r =? 8490)%Z.
Definition dns_label (label : list Z) : bool :=
  match label with
  | [] => false
  | first :: rest =>
    (Z.of_nat (length label) <=? 63)%Z && dns_alnum first &&
    match reverse rest with
    | [] => true
    | last :: middle => dns_alnum last && forallb (λ r, dns_alnum r || (r =? 45)%Z) middle
    end
  end.

(** The labels between dots. *)
Fixpoint split_dots (l : list Z) : list (list Z) :=
  match l with
  | [] => [[]]
  | r :: l =>
    if (r =? 46)%Z then [] :: split_dots l
    else match split_dots l with label :: labels => (r :: label) :: labels | [] => [[r]] end
  end.
Definition dnsPattern (s : string) : bool := forallb dns_label (split_dots (runes s)).

Definition usernamePattern (s : string) : bool :=
  match s with
  | EmptyString => false
  | String a rest =>
    char_in (λ b, is_lower_rune b || is_upper_rune b || (b =? 95)%Z) a && (slen rest <=? 63)%Z &&
    all_chars (λ b, is_alnum_rune b || (b =? 95)%Z || (b =? 46)%Z || (b =? 45)%Z) rest
  end.
Definition labelKeyPattern (s : string) : bool :=
  match s with
  | EmptyString => false
  | String a rest =>
    char_in is_alnum_rune a && (slen rest <=? 62)%Z &&
    all_chars (λ b, is_alnum_rune b || (b =? 95)%Z || (b =? 46)%Z || (b =? 45)%Z) rest
  end.

Definition unsafe_label_bytes : string := String "013"%char (String "010"%char (String "000"%char "")).
Definition unsafe_address_bytes : string :=
  " /\@" +:+ String "013"%char (String "010"%char (String "009"%char (String "000"%char ""))).

Section validation.
Context (ParseIP : string → bool) (ParseAddr : string → option Addr).

Definition validAddress (value : string) : bool :=
  let value := normalizeAddress value in
  if (slen value =? 0)%Z || (253 <? slen value)%Z || contains_any unsafe_address_bytes value then false
  else if ParseIP value then true else dnsPattern value.

Definition validateHost (name address : string) (port : Z) (username : string) (labels : option (gmap string string))
    (allowPrivateTargets : bool) : result string unit :=
  let name := trim_space name in
  let address := trim_space address in
  let username := trim_space username in
  require negb ((slen name <? 1)%Z || (100 <? slen name)%Z) else "name must contain 1 to 100 characters" ;;
  require validAddress address else "address must be an IPv4, IPv6, or DNS hostname without a scheme or port" ;;
  require is_ok (ValidateTargetLiteral ParseAddr (normalizeAddress address) allowPrivateTargets)
    else "address is blocked by the SSH destination policy" ;;
  require negb ((port <? 1)%Z || (65535 <? port)%Z) else "port must be between 1 and 65535" ;;
  require usernamePattern username else "username is not a valid SSH username" ;;
  let labels := default ∅ labels in
  require (len labels <=? 20)%Z else "at most 20 labels are allowed" ;;
  require forallb (λ kv, labelKeyPattern kv.1 && (slen kv.2 <=? 128)%Z && negb (contains_any unsafe_label_bytes kv.2))
            (map_to_list labels) else "labels contain an invalid key or value" ;;
  Ok tt.
End validation.

(** ** Request bodies *)

Record devSessionRequest := mkDevSession { ds_Subject : string; ds_Role : string; ds_AllHosts : bool; ds_HostIDs : list string }.
Record identitySessionRequest := mkIdentitySession { is_Assertion : string }.
Record createHostRequest := mkCreateHost {
  ch_Name : string; ch_Address : string; ch_Port : Z; ch_Username : string; ch_Labels : option (gmap string string) }.
Record updateHostRequest := mkUpdateHost {
  uh_Version : Z; uh_Name : option string; uh_Address : option string; uh_Port : option Z; uh_Username : option string;
  uh_Labels : option (option (gmap string string)) }.
Record pinHostKeyRequest := mkPin {
  pk_Version : Z; pk_PublicKey : string; pk_ExpectedFingerprintSHA256 : string; pk_Replace : bool;
  pk_ExpectedCurrentFingerprint : string }.
Record credentialRequest := mkCredentialRequest { cr_PrivateKey : string; cr_Passphrase : string }.

Record HostKeyObservation := mkObservation {
  ho_Algorithm : string; ho_FingerprintSHA256 : string; ho_PublicKey : string; ho_ResolvedAddress : string }.
(** What [errors.Is] finds in the error of a probe. *)
Inductive probe_error := ProbeDeadline | ProbeTargetDenied | ProbeOther.

Section handlers.
Context (sha256 : string → string).
Context (ParseIP : string → bool) (ParseAddr : string → option Addr).
Context {PublicKey : Type} (ParseAuthorizedKey : string → option (PublicKey * string)) (key_Type : PublicKey → string)
  (FingerprintSHA256 MarshalAuthorizedKey : PublicKey → string) (rsa_bits : PublicKey → option (option Z))
  (ParsePrivateKey : string → string → option PublicKey).
Context (marshal_credential : credentialRequest → option string).
Context {W U : Type} `{GCM, KeyWrapper W} (service : Credentials.Service W U).
Context `{StrictDecode devSessionRequest, StrictDecode identitySessionRequest, StrictDecode createHostRequest,
          StrictDecode updateHostRequest, StrictDecode pinHostKeyRequest, StrictDecode credentialRequest}.

(** ** Authentication and authorization *)

Definition require_permission (permission : Permission) (next : Principal → Request → prog Server Response) (r : Request)
    : prog Server Response :=
  principal ← act (λ s, let '(ss, p) := Authenticate sha256 (s_sessions s) (rq_Authorization r) (clock s) in (set_sessions s ss, p));
  match principal with
  | None => Ret (writeError 401 "unauthorized" "a valid bearer session is required")
  | Some principal =>
    if negb (Allowed (Role principal) permission) then
      _ ← audit r principal "authorization.denied" "permission" (permission_string permission) "denied" None;
      Ret (writeError 403 "forbidden" "the current role cannot perform this action")
    else next principal r
  end.

(** [sessions.Issue] with the token and session id bytes it draws. *)
Definition issue (principal : Principal) : prog Server (result string (string * Session)) :=
  act (λ s, let '(ss, x) := Auth.Issue sha256 (s_sessions s) principal (SessionTTL (config s)) (clock s)
                              (entropy s (drawn s)) (entropy s (S (drawn s))) in
            (set_sessions (draw (draw s)) ss, x)).

Definition createDevSession (r : Request) : prog Server Response :=
  c ← ask config;
  if negb (DevMode c) then Ret out_of_scope
  else if negb (SecureTokenEqual (rq_DevBootstrap r) (DevBootstrapToken c)) then
    Ret (writeError 401 "unauthorized" "development bootstrap authentication failed")
  else match decodeJSON (T := devSessionRequest) (rq_body r) with
  | Err e => Ret (writeError 400 "invalid_request" e)
  | Ok input =>
    let subject := trim_space (ds_Subject input) in
    if (slen subject <? 1)%Z || (128 <? slen subject)%Z || negb (ValidRole (ds_Role input)) ||
       (ds_AllHosts input && (0 <? Z.of_nat (length (ds_HostIDs input)))%Z) then
      Ret (writeError 400 "validation_error" "subject and valid role are required")
    else if negb (forallb (λ id, has_prefix "host_" id && (slen id <=? 128)%Z) (ds_HostIDs input)) then
      Ret (writeError 400 "validation_error" "hostIds contains an invalid host id")
    else
      issued ← issue (mkPrincipal subject (ds_Role input) (ds_AllHosts input) (ds_HostIDs input) "");
      match issued with
      | Err _ => Ret (writeError 500 "internal_error" "could not issue development session")
      | Ok (token, session) =>
        _ ← audit r (sess_principal session) "session.created" "session" "" "success" None;
        Ret (writeJSON 201 (BToken token session))
      end
  end.

(** [verify] is what the identity verifier answers to this assertion. *)
Definition createIdentitySession (verify : string → option Principal) (r : Request) : prog Server Response :=
  c ← ask config;
  if negb (HasIdentityVerifier c) then Ret out_of_scope
  else if (16384 <? rq_ContentLength r)%Z then
    Ret (writeError 413 "request_too_large" "identity assertion request is too large")
  else match decodeJSON (T := identitySessionRequest) (rq_body r) with
  | Err e => Ret (writeError 400 "invalid_request" e)
  | Ok input =>
    match verify (is_Assertion input) with
    | None => Ret (writeError 401 "identity_assertion_rejected" "identity assertion was rejected")
    | Some principal =>
      issued ← issue principal;
      match issued with
      | Err _ => Ret (writeError 500 "internal_error" "could not issue session")
      | Ok (token, session) =>
        _ ← audit r (sess_principal session) "session.identity_exchanged" "session" "" "success" None;
        Ret (writeJSON 201 (BToken token session))
      end
    end
  end.

Definition revokeCurrentSession (principal : Principal) (r : Request) : prog Server Response :=
  _ ← audit r principal "session.revoked" "session" "" "success" None;
  revoked ← act (λ s, let '(ss, b) := Revoke sha256 (s_sessions s) (rq_Authorization r) in (set_sessions s ss, b));
  Ret (if (revoked : bool) then noContent else writeError 401 "unauthorized" "session is no longer active").

(** ** Hosts *)

Definition createHost (principal : Principal) (r : Request) : prog Server Response :=
  if negb (AllHosts principal) then
    Ret (writeError 403 "host_scope_required" "creating hosts requires an all-hosts session scope")
  else match decodeJSON (T := createHostRequest) (rq_body r) with
  | Err e => Ret (writeError 400 "invalid_request" e)
  | Ok input =>
    c ← ask config;
    let port := if (ch_Port input =? 0)%Z then 22 else ch_Port input in
    match validateHost ParseIP ParseAddr (ch_Name input) (ch_Address input) port (ch_Username input) (ch_Labels input)
            (AllowPrivateTargets c) with
    | Err e => Ret (writeError 400 "validation_error" e)
    | Ok _ =>
      id ← NewID "host";
      match id with
      | Err _ => Ret (writeError 500 "internal_error" "could not create host")
      | Ok id =>
        now ← get_now;
        let host := mkHost id (trim_space (ch_Name input)) (normalizeAddress (ch_Address input)) port
                      (trim_space (ch_Username input)) (ch_Labels input) None 1 now now in
        created ← step (λ m, CreateHost m host);
        match created with
        | Err _ => Ret (writeError 409 "conflict" "host could not be created")
        | Ok _ =>
          _ ← audit r principal "host.created" "host" (h_ID host) "success" (Some [("name", VString (h_Name host))]);
          Ret (writeJSON 201 (BHost host))
        end
      end
    end
  end.

Definition listHosts (principal : Principal) (r : Request) : prog Server Response :=
  hosts ← look ListHosts;
  Ret (writeJSON 200 (BHosts (List.filter (λ h, CanAccessHost principal (h_ID h)) hosts))).

Definition getHost (principal : Principal) (r : Request) : prog Server Response :=
  if negb (checkHostScope principal (rq_PathValue r "hostID")) then Ret out_of_scope
  else
    host ← look (λ m, GetHost m (rq_PathValue r "hostID"));
    match host with
    | Err e => Ret (writeStoreError e)
    | Ok host => Ret (writeJSON 200 (BHost host))
    end.

(** The assignments of [updateHost] to its copy of the host. *)
Definition apply_update (host : Host) (input : updateHostRequest) : Host :=
  mkHost (h_ID host)
    (match uh_Name input with Some v => trim_space v | None => h_Name host end)
    (match uh_Address input with Some v => normalizeAddress v | None => h_Address host end)
    (match uh_Port input with Some v => v | None => h_Port host end)
    (match uh_Username input with Some v => trim_space v | None => h_Username host end)
    (match uh_Labels input with Some v => v | None => h_Labels host end)
    (h_HostKey host) (h_Version host) (h_CreatedAt host) (h_UpdatedAt host).

Definition trust_reset (old new : Host) : bool := (h_Address old ≠? h_Address new) || negb (h_Port old =? h_Port new)%Z.

Definition with_key (host : Host) (key : option HostKeyPin) (version : Z) (now : time) : Host :=
  mkHost (h_ID host) (h_Name host) (h_Address host) (h_Port host) (h_Username host) (h_Labels host) key version
    (h_CreatedAt host) now.

Definition updateHost (principal : Principal) (r : Request) : prog Server Response :=
  if negb (checkHostScope principal (rq_PathValue r "hostID")) then Ret out_of_scope
  else
    found ← look (λ m, GetHost m (rq_PathValue r "hostID"));
    match found with
    | Err e => Ret (writeStoreError e)
    | Ok old =>
      match decodeJSON (T := updateHostRequest) (rq_body r) with
      | Err e => Ret (writeError 400 "invalid_request" e)
      | Ok input =>
        if (uh_Version input =? 0)%Z then Ret (writeError 400 "validation_error" "version is required")
        else
          c ← ask config;
          let host := apply_update old input in
          match validateHost ParseIP ParseAddr (h_Name host) (h_Address host) (h_Port host) (h_Username host) (h_Labels host)
                  (AllowPrivateTargets c) with
          | Err e => Ret (writeError 400 "validation_error" e)
          | Ok _ =>
            now ← get_now;
            let reset := trust_reset old host in
            let host := with_key host (if reset then None else h_HostKey host) (u64 (uh_Version input + 1)) now in
            updated ← step (λ m, UpdateHost m host (uh_Version input));
            match updated with
            | Err e => Ret (writeStoreError e)
            | Ok _ =>
              _ ← audit r principal "host.updated" "host" (h_ID host) "success"
                    (Some [("hostKeyReset", VOther (if reset then "true" else "false"))]);
              Ret (writeJSON 200 (BHost host))
            end
          end
      end
    end.

Definition deleteHost (principal : Principal) (r : Request) : prog Server Response :=
  let id := rq_PathValue r "hostID" in
  if negb (checkHostScope principal id) then Ret out_of_scope
  else
    deleted ← step (λ m, DeleteHost m id);
    match deleted with
    | Err e => Ret (writeStoreError e)
    | Ok _ =>
      _ ← audit r principal "host.deleted" "host" id "success" None;
      Ret noContent
    end.

(** ** Host keys *)

Definition KeyAlgoRSA := "ssh-rsa".
Definition allowed_algorithms : list string :=
  ["ssh-ed25519"; "ecdsa-sha2-nistp256"; "ecdsa-sha2-nistp384"; "ecdsa-sha2-nistp521";
   "sk-ecdsa-sha2-nistp256@openssh.com"; "sk-ssh-ed25519@openssh.com"].

(** [rsa_bits] is the size of an RSA key: [None] when the key does not expose
    its crypto key, [Some None] when that is not an RSA key. *)
Definition validateHostKeyAlgorithm (key : PublicKey) : result string unit :=
  if bool_decide (key_Type key ∈ allowed_algorithms) then Ok tt
  else if key_Type key =? KeyAlgoRSA then
    match rsa_bits key with
    | None => Err "RSA host key could not be inspected"
    | Some bits =>
      match bits with
      | Some n => if (n <? 3072)%Z then Err "RSA host keys must contain at least 3072 bits" else Ok tt
      | None => Err "RSA host keys must contain at least 3072 bits"
      end
    end
  else Err "host key algorithm is not allowed".

Definition constantStringEqual (left right : string) : bool := (slen left =? slen right)%Z && constant_eq left right.

(** [probe] is what the host-key prober observes. *)
Definition probeHostKey (probe : string → Z → bool → result probe_error HostKeyObservation) (principal : Principal)
    (r : Request) : prog Server Response :=
  let hostID := rq_PathValue r "hostID" in
  if negb (checkHostScope principal hostID) then Ret out_of_scope
  else
    found ← look (λ m, GetHost m hostID);
    match found with
    | Err e => Ret (writeStoreError e)
    | Ok host =>
      slot ← act (λ s, if (probeSlots s <? 4)%Z then (set_probeSlots s (probeSlots s + 1), true) else (s, false));
      if negb slot then Ret (writeError 429 "probe_capacity" "too many host-key probes are running")
      else
        c ← ask config;
        _ ← transmit (SentProbe hostID (h_Address host) (h_Port host));
        resp ←
          match probe (h_Address host) (h_Port host) (AllowPrivateTargets c) with
          | Err e =>
            let '(code, message) :=
              match e with
              | ProbeDeadline => ("probe_timeout", "SSH host-key probe timed out")
              | ProbeTargetDenied => ("target_denied", "SSH target is blocked by network policy")
              | ProbeOther => ("probe_failed", "SSH host-key probe failed")
              end in
            _ ← audit r principal "host_key.probed" "host" hostID "failed" (Some [("errorCode", VString code)]);
            Ret (writeError 502 code message)
          | Ok observation =>
            let invalid :=
              _ ← audit r principal "host_key.probed" "host" hostID "failed" (Some [("errorCode", VString "invalid_observation")]);
              Ret (writeError 502 "invalid_observation" "SSH server returned an unsupported host key") in
            match ParsePinnedHostKey ParseAuthorizedKey (ho_PublicKey observation) with
            | Err _ => invalid
            | Ok key =>
              if negb (is_ok (validateHostKeyAlgorithm key)) || (FingerprintSHA256 key ≠? ho_FingerprintSHA256 observation)
              then invalid
              else
                now ← get_now;
                _ ← audit r principal "host_key.probed" "host" hostID "success"
                      (Some [("fingerprint", VString (ho_FingerprintSHA256 observation)); ("algorithm", VString (key_Type key));
                             ("resolvedAddress", VString (ho_ResolvedAddress observation))]);
                Ret (writeJSON 200 (BProbe (mkProbeResponse (key_Type key) (ho_FingerprintSHA256 observation)
                       (ho_PublicKey observation) (ho_ResolvedAddress observation) now false)))
            end
          end;
        _ ← act (λ s, (set_probeSlots s (probeSlots s - 1), tt));
        Ret resp
    end.

Definition pinHostKey (principal : Principal) (r : Request) : prog Server Response :=
  if negb (checkHostScope principal (rq_PathValue r "hostID")) then Ret out_of_scope
  else
    found ← look (λ m, GetHost m (rq_PathValue r "hostID"));
    match found with
    | Err e => Ret (writeStoreError e)
    | Ok host =>
      match decodeJSON (T := pinHostKeyRequest) (rq_body r) with
      | Err e => Ret (writeError 400 "invalid_request" e)
      | Ok input =>
        if (pk_Version input =? 0)%Z || (trim_space (pk_ExpectedFingerprintSHA256 input) =? "") then
          Ret (writeError 400 "validation_error" "version and independently verified expected fingerprint are required")
        else match ParsePinnedHostKey ParseAuthorizedKey (pk_PublicKey input) with
        | Err _ => Ret (writeError 400 "validation_error" "publicKey must contain exactly one valid OpenSSH public key")
        | Ok key =>
          match validateHostKeyAlgorithm key with
          | Err e => Ret (writeError 400 "validation_error" e)
          | Ok _ =>
            let fingerprint := FingerprintSHA256 key in
            if negb (constantStringEqual fingerprint (trim_space (pk_ExpectedFingerprintSHA256 input))) then
              Ret (writeError 400 "fingerprint_mismatch" "supplied host key does not match the independently verified fingerprint")
            else
              let current := match h_HostKey host with
                             | Some pin => if hk_FingerprintSHA256 pin ≠? fingerprint then Some pin else None
                             | None => None
                             end in
              let denied :=
                match current with
                | None => None
                | Some pin =>
                  if negb (pk_Replace input) || negb (Allowed (Role principal) HostKeyReplace) then
                    Some "host key changes require an administrator and explicit replacement confirmation"
                  else if negb (constantStringEqual (hk_FingerprintSHA256 pin) (pk_ExpectedCurrentFingerprint input)) then
                    Some "current host key fingerprint confirmation did not match"
                  else None
                end in
              match denied with
              | Some message => Ret (writeError 409 "host_key_change" message)
              | None =>
                now ← get_now;
                let pin := mkHostKeyPin (key_Type key) fingerprint (trim_space (MarshalAuthorizedKey key)) now (Subject principal) in
                let host := with_key host (Some pin) (u64 (pk_Version input + 1)) now in
                updated ← step (λ m, UpdateHost m host (pk_Version input));
                match updated with
                | Err e => Ret (writeStoreError e)
                | Ok _ =>
                  _ ← audit r principal (match current with Some _ => "host_key.replaced" | None => "host_key.pinned" end)
                        "host" (h_ID host) "success"
                        (Some [("fingerprint", VString fingerprint); ("algorithm", VString (key_Type key))]);
                  Ret (writeJSON 200 (BHost host))
                end
              end
          end
        end
      end
    end.

(** ** Credentials *)

Definition credentialAAD (c : Config) (hostID credentialID : string) : string :=
  match ContextAAD (cfg_InstallationID c) hostID credentialID "ssh_private_key" with Ok aad => aad | Err _ => "" end.

(** [credentials.Seal], which draws a data key, a nonce and the wrapper's bytes. *)
Definition seal (plaintext aad : string) : prog Server (result string Envelope) :=
  act (λ s, let n := drawn s in
            (draw (draw (draw s)), Seal service plaintext aad (entropy s n) (entropy s (S n)) (entropy s (S (S n))))).

Definition putCredential (principal : Principal) (r : Request) : prog Server Response :=
  let hostID := rq_PathValue r "hostID" in
  if negb (checkHostScope principal hostID) then Ret out_of_scope
  else
    found ← look (λ m, GetHost m hostID);
    match found with
    | Err e => Ret (writeStoreError e)
    | Ok _ =>
      match decodeJSON (T := credentialRequest) (rq_body r) with
      | Err _ => Ret (writeError 400 "invalid_request" "credential payload is invalid")
      | Ok input =>
        if (slen (cr_PrivateKey input) =? 0)%Z || (262144 <? slen (cr_PrivateKey input))%Z || (4096 <? slen (cr_Passphrase input))%Z then
          Ret (writeError 400 "validation_error" "private key is required and must be within the size limit")
        else match ParsePrivateKey (cr_PrivateKey input) (cr_Passphrase input) with
        | None => Ret (writeError 400 "invalid_credential" "SSH private key or passphrase is invalid")
        | Some signer =>
          id ← NewID "cred";
          match id with
          | Err _ => Ret (writeError 500 "internal_error" "could not store credential")
          | Ok id =>
            match marshal_credential input with
            | None => Ret (writeError 500 "internal_error" "could not store credential")
            | Some plaintext =>
              c ← ask config;
              sealed ← seal plaintext (credentialAAD c hostID id);
              match sealed with
              | Err _ => Ret (writeError 503 "kms_unavailable" "credential encryption is unavailable")
              | Ok envelope =>
                now ← get_now;
                let metadata := mkCredentialMetadata id hostID "ssh_private_key" (FingerprintSHA256 signer) (env_KeyID envelope)
                                  now (Subject principal) in
                stored ← step (λ m, PutCredential m (mkStoredCredential metadata envelope));
                match stored with
                | Err e => Ret (writeStoreError e)
                | Ok _ =>
                  _ ← audit r principal "credential.stored" "host" hostID "success"
                        (Some [("credentialId", VString id); ("publicKeyFingerprint", VString (cm_PublicKeyFingerprint metadata))]);
                  Ret (writeJSON 201 (BCredential metadata))
                end
              end
            end
          end
        end
      end
    end.

Definition getCredential (principal : Principal) (r : Request) : prog Server Response :=
  if negb (checkHostScope principal (rq_PathValue r "hostID")) then Ret out_of_scope
  else
    found ← look (λ m, GetCredential m (rq_PathValue r "hostID"));
    match found with
    | Err e => Ret (writeStoreError e)
    | Ok c => Ret (writeJSON 200 (BCredential (sc_Metadata c)))
    end.

Definition deleteCredential (principal : Principal) (r : Request) : prog Server Response :=
  let hostID := rq_PathValue r "hostID" in
  if negb (checkHostScope principal hostID) then Ret out_of_scope
  else
    deleted ← step (λ m, DeleteCredential m hostID);
    match deleted with
    | Err e => Ret (writeStoreError e)
    | Ok _ =>
      _ ← audit r principal "credential.deleted" "host" hostID "success" None;
      Ret noContent
    end.

(** ** Reading jobs and audit events *)

Definition listJobs (principal : Principal) (r : Request) : prog Server Response :=
  jobs ← look ListJobs;
  Ret (writeJSON 200 (BJobs (List.filter (λ j, CanAccessHost principal (j_HostID j)) jobs))).

Definition getJob (principal : Principal) (r : Request) : prog Server Response :=
  found ← look (λ m, GetJob m (rq_PathValue r "jobID"));
  match found with
  | Err e => Ret (writeStoreError e)
  | Ok job => Ret (if negb (checkHostScope principal (j_HostID job)) then out_of_scope else writeJSON 200 (BJob job))
  end.

Definition cancelJob (principal : Principal) (r : Request) : prog Server Response :=
  found ← look (λ m, GetJob m (rq_PathValue r "jobID"));
  match found with
  | Err e => Ret (writeStoreError e)
  | Ok job =>
    if negb (checkHostScope principal (j_HostID job)) then Ret out_of_scope
    else if negb (bool_decide (j_State job = JobQueued)) && negb (bool_decide (j_State job = JobRunning)) then
      Ret (writeError 409 "job_terminal" "job is already in a terminal state")
    else
      registered ← ask (λ s, jobCancels s !! j_ID job);
      match registered with
      | None => Ret (writeError 409 "job_not_cancellable" "job can no longer be cancelled")
      | Some _ =>
        (* the cancel function marks the context, also when the job has just unregistered *)
        _ ← act (λ s, (set_jobCancels s (alter (λ _, true) (j_ID job) (jobCancels s)), tt));
        _ ← audit r principal "job.cancel_requested" "job" (j_ID job) "success" (Some [("hostId", VString (j_HostID job))]);
        Ret (writeJSON 202 (BJob job))
      end
  end.

(** The host an event is about. *)
Definition event_host (e : AuditEvent) : string :=
  if ae_TargetType e =? "host" then ae_TargetID e
  else match (list_to_map (default [] (ae_Details e)) : gmap string value) !! "hostId" with
       | Some (VString id) => id
       | _ => ""
       end.

Definition event_visible (principal : Principal) (e : AuditEvent) : bool :=
  let hostID := event_host e in
  ((hostID =? "") && (AllHosts principal || (ae_Actor e =? Subject principal))) ||
  ((hostID ≠? "") && CanAccessHost principal hostID).

Definition listAuditEvents (principal : Principal) (r : Request) : prog Server Response :=
  let limit := if rq_limit r =? "" then Some 100
               else match parse_int (rq_limit r) with
                    | Some n => if (n <? 1)%Z || (500 <? n)%Z then None else Some n
                    | None => None
                    end in
  match limit with
  | None => Ret (writeError 400 "validation_error" "limit must be between 1 and 500")
  | Some limit =>
    events ← look (λ m, ListAudits m 500);
    Ret (writeJSON 200 (BAudits (take (Z.to_nat limit) (List.filter (event_visible principal) events))))
  end.
End handlers.

