(* ===== verification/ApiJobs.v ===== *)
(** * The control-plane HTTP API: SSH jobs, runbooks and terminals

    Models the handlers and goroutines of
    [services/control-plane/internal/api] that execute something on a managed
    host: the job endpoints of [operations.go] and [server.go], [runbooks.go]
    and [webssh.go], with the collector of [internal/snapshot] that they call.
    The SSH client, the Connector, the WebSSH broker and the AI analyzer are
    parameters that answer a request; what is sent to them is recorded in
    [sent].  A goroutine is a program that runs beside the handlers. *)

From S2P Require Import Prelude GoStrings Encoding Json Text Runbook Broker Auth AuditTrail Credentials Protocol.
From S2P Require Import Snapshot Anomaly Model Store SshConnector Prog Api.

(** ** Errors *)

(** The errors the handlers look for with [errors.Is]. *)
Inductive sentinel :=
| SAuthorizationExpired | SCanceled | SDeadlineExceeded | SHostKeyMismatch | SHostKeyRequired | SOutputLimit | STargetDenied
| SInvalidRequest | SUnauthorized | SCapacity | SConnector | SClosed | SNotFound.

Record go_error := mkError { err_is : sentinel → bool; err_text : string }.
Definition new_error (text : string) : go_error := mkError (λ _, false) text.
Definition errAuthorizationExpired : go_error :=
  mkError (λ x, match x with SAuthorizationExpired => true | _ => false end) "job authorization expired".

Definition safeOperationError (err : go_error) (operation : string) : JobState * string * string :=
  if err_is err SAuthorizationExpired then (JobCancelled, "authorization_expired", "job authorization expired or was revoked")
  else if err_is err SCanceled then (JobCancelled, "cancelled", "job was cancelled")
  else if err_is err SDeadlineExceeded then (JobTimedOut, "timeout", operation +:+ " timed out")
  else if err_is err SHostKeyMismatch || err_is err SHostKeyRequired then
    (JobFailed, "host_key_verification_failed", "SSH host key verification failed")
  else if err_is err SOutputLimit then (JobFailed, "output_limit", operation +:+ " exceeded its output limit")
  else if err_is err STargetDenied then (JobFailed, "target_denied", "SSH target is blocked by network policy")
  else (JobFailed, "operation_failed", operation +:+ " failed").

Definition safeJobError (err : go_error) : JobState * string * string :=
  if err_is err SCanceled then (JobCancelled, "cancelled", "job was cancelled")
  else if err_is err SDeadlineExceeded then (JobTimedOut, "timeout", "snapshot collection timed out")
  else if err_is err SHostKeyMismatch || err_is err SHostKeyRequired then
    (JobFailed, "host_key_verification_failed", "SSH host key verification failed")
  else if err_is err SOutputLimit then (JobFailed, "output_limit", "snapshot collector exceeded its output limit")
  else if err_is err STargetDenied then (JobFailed, "target_denied", "SSH target is blocked by network policy")
  else (JobFailed, "snapshot_failed", "snapshot collection failed").

(** ** Jobs *)

Definition new_job (id jobType hostID : string) (principal : Principal) (now : time) (command : option CommandDescriptor) : Job :=
  mkJob id jobType hostID JobQueued (Subject principal) (SessionID principal) now None None None command None None None None None 1.

(** Assignments to the result fields of a job. *)
Definition set_snapshot (j : Job) (x : option RuntimeSnapshot) : Job :=
  mkJob (j_ID j) (j_Type j) (j_HostID j) (j_State j) (j_RequestedBy j) (j_RequestedSessionID j) (j_CreatedAt j) (j_StartedAt j)
    (j_FinishedAt j) x (j_Command j) (j_CommandResult j) (j_AnomalyScan j) (j_RunbookPreview j) (j_RunbookExecution j) (j_Error j) (j_Version j).
Definition set_operation (j : Job) (x : option CommandResult) (y : option AnomalyScanResult) : Job :=
  mkJob (j_ID j) (j_Type j) (j_HostID j) (j_State j) (j_RequestedBy j) (j_RequestedSessionID j) (j_CreatedAt j) (j_StartedAt j)
    (j_FinishedAt j) (j_Snapshot j) (j_Command j) x y (j_RunbookPreview j) (j_RunbookExecution j) (j_Error j) (j_Version j).
Definition set_preview (j : Job) (x : option RunbookPreviewResult) : Job :=
  mkJob (j_ID j) (j_Type j) (j_HostID j) (j_State j) (j_RequestedBy j) (j_RequestedSessionID j) (j_CreatedAt j) (j_StartedAt j)
    (j_FinishedAt j) (j_Snapshot j) (j_Command j) (j_CommandResult j) (j_AnomalyScan j) x (j_RunbookExecution j) (j_Error j) (j_Version j).
Definition set_execution (j : Job) (x : option RunbookExecutionResult) : Job :=
  mkJob (j_ID j) (j_Type j) (j_HostID j) (j_State j) (j_RequestedBy j) (j_RequestedSessionID j) (j_CreatedAt j) (j_StartedAt j)
    (j_FinishedAt j) (j_Snapshot j) (j_Command j) (j_CommandResult j) (j_AnomalyScan j) (j_RunbookPreview j) x (j_Error j) (j_Version j).
Definition set_error (j : Job) (x : option JobError) : Job :=
  mkJob (j_ID j) (j_Type j) (j_HostID j) (j_State j) (j_RequestedBy j) (j_RequestedSessionID j) (j_CreatedAt j) (j_StartedAt j)
    (j_FinishedAt j) (j_Snapshot j) (j_Command j) (j_CommandResult j) (j_AnomalyScan j) (j_RunbookPreview j) (j_RunbookExecution j) x (j_Version j).
(** [if code != "" { updated.Error = ... }]. *)
Definition note_error (j : Job) (code message : string) : Job :=
  if code ≠? "" then set_error j (Some (mkJobError code message)) else j.

(** A transition followed by assignments, as the argument of [MutateJob]. *)
Definition transition (to : JobState) (edit : Job → Job) (now : time) (job : Job) : result store_error Job :=
  match TransitionJob job to now with
  | Err e => Err (ErrOther e)
  | Ok updated => Ok (edit updated)
  end.

(** [MutateJob] with a callback that reads the clock. *)
Definition mutateJob (jobID : string) (f : time → Job → result store_error Job) : prog Server (result store_error Job) :=
  act (λ s, let '(m, r) := MutateJob (repository s) jobID (f (clock s)) in (set_repository s m, r)).

(** [AuthorizeSession] at the present time; [visit] is the order of the range
    over the session map. *)
Definition authorize (visit : Sessions → list storedSession) (sessionID : string) (permission : Permission) (hostID : string)
    : prog Server (Principal * bool) :=
  ask (λ s, AuthorizeSession (visit (s_sessions s)) sessionID permission hostID (clock s)).

Definition unregisterJob (jobID : string) : prog Server unit := act (λ s, (set_jobCancels s (delete jobID (jobCancels s)), tt)).

(** [<-ctx.Done()] of the job's context: its cancel function was called, or
    the job timeout has passed since the goroutine started. *)
Definition ctx_done (jobID : string) (start : time) : prog Server bool :=
  ask (λ s, default false (jobCancels s !! jobID) || (start + JobTimeout (config s) <=? clock s)%Z).

Definition finishQueuedCancellation (jobID : string) (principal : Principal) (code message : string) : prog Server unit :=
  now ← get_now;
  r ← mutateJob jobID (λ _, transition JobCancelled (λ j, set_error j (Some (mkJobError code message))) now);
  match r with
  | Err _ => Ret tt
  | Ok _ => auditWithRequestID "" principal "job.finished" "job" jobID "cancelled" (Some [("errorCode", VString code)])
  end.

Definition finishJob (jobID : string) (principal : Principal) (result : option RuntimeSnapshot) (state : JobState)
    (code message : string) : prog Server unit :=
  now ← get_now;
  r ← mutateJob jobID (λ _, transition state (λ j, note_error (set_snapshot j result) code message) now);
  match r with
  | Err _ => Ret tt
  | Ok job => auditWithRequestID "" principal "job.finished" "job" jobID (JobState_string state)
                (Some [("hostId", VString (j_HostID job)); ("errorCode", VString code)])
  end.

Definition finishOperationJob (jobID : string) (principal : Principal) (command : option CommandResult)
    (scan : option AnomalyScanResult) (state : JobState) (code message : string) : prog Server unit :=
  r ← mutateJob jobID (transition state (λ j, note_error (set_operation j command scan) code message));
  match r with
  | Err _ => Ret tt
  | Ok job => auditWithRequestID "" principal "job.finished" "job" jobID (JobState_string state)
                (Some [("hostId", VString (j_HostID job)); ("errorCode", VString code); ("type", VString (j_Type job))])
  end.

Definition safeRemoteOutput (value : string) : string :=
  map_runes (λ r, if (r =? 10)%Z || (r =? 9)%Z || negb (is_control r) then r else 32) (ToValidUTF8 value).

(** ** The command catalog *)

Record readOnlyCommandRequest := mkCommandRequest { rc_CommandID : string; rc_Parameters : option (gmap string string) }.

Definition parseReadOnlyCommand (input : readOnlyCommandRequest) : result string (Command * CommandDescriptor) :=
  let parameters := default ∅ (rc_Parameters input) in
  require negb (1 <? len parameters)%Z else "command accepts at most one known parameter" ;;
  require forallb (λ kv, kv.1 =? "service") (map_to_list parameters) else "command contains an unknown parameter" ;;
  let request := mkReadOnly (rc_CommandID input) (default "" (parameters !! "service")) in
  match ReadOnlyCommand request with
  | Err e => Err e
  | Ok command =>
    Ok (command, mkCommandDescriptor (c_id command) (if bool_decide (parameters = ∅) then None else Some parameters))
  end.

Definition commandID (command : option CommandDescriptor) : string := match command with None => "" | Some c => cd_ID c end.

Definition started (kind : job_kind) (principal : Principal) (job : Job) : Response :=
  mkResponse 202 (BJob job) (Some (kind, j_ID job, principal)).

Section jobs.
Context (visit : Sessions → list storedSession).
Context (ParseFloat : string → option float64).
Context {PublicKey Signer : Type} (ParseAuthorizedKey : string → option (PublicKey * string))
  (ParsePrivateKey : string → option Signer) (ParsePrivateKeyWithPassphrase : string → string → option Signer).
Context {W U : Type} `{GCM, KeyUnwrapper U} (service : Credentials.Service W U).
Context `{StrictDecode readOnlyCommandRequest, StrictDecode unit, StrictDecode credentialRequest}.
(** What the SSH client answers, the private-target option of the collector,
    and what the AI analyzer answers. *)
Context (runner : @SshConnector.Config PublicKey → Signer → Command → result go_error Result) (allowPrivateTargets : bool)
  (analyze : list ProcessFinding → result string Outcome).

(** *** Credentials *)

(** [credentials.Open] hands the plaintext to its consumer. *)
Definition open_credential (credential : StoredCredential) (aad : string) : result go_error string :=
  match Open service (sc_Envelope credential) aad (Some Err) with
  | (Err plaintext, Some _) => Ok plaintext
  | (Err e, None) => Err (new_error e)
  | (Ok _, _) => Err (new_error "")
  end.

(** A strict decoder that accepts one value and nothing after it. *)
Definition decode_stored (plaintext : string) : option credentialRequest :=
  match strict_decode plaintext with
  | Decoded v rest => if skip_ws rest =? "" then Some v else None
  | _ => None
  end.

Definition ParseCredentialSigner (plaintext : string) : result go_error Signer :=
  match decode_stored plaintext with
  | None => Err (new_error "stored credential payload is invalid")
  | Some payload =>
    match (if cr_Passphrase payload =? "" then ParsePrivateKey (cr_PrivateKey payload)
           else ParsePrivateKeyWithPassphrase (cr_PrivateKey payload) (cr_Passphrase payload)) with
    | None => Err (new_error "stored ssh credential cannot be used")
    | Some signer => Ok signer
    end
  end.

(** *** The collector *)

Definition ssh_config (host : Host) (pinned : PublicKey) (timeout : duration) (maxOutput : Z) : SshConnector.Config :=
  SshConnector.mkConfig (h_Address host) (h_Port host) (h_Username host) true (Some pinned) (10 * second) timeout maxOutput
    allowPrivateTargets.

Definition pinned_key (host : Host) : result go_error PublicKey :=
  match h_HostKey host with
  | None => Err (new_error "host key is not pinned")
  | Some pin =>
    match ParsePinnedHostKey ParseAuthorizedKey (hk_PublicKey pin) with
    | Err _ => Err (new_error "stored host key is invalid")
    | Ok key => Ok key
    end
  end.

Definition Collect (host : Host) (signer : Signer) : prog Server (result go_error RuntimeSnapshot) :=
  match pinned_key host with
  | Err e => Ret (Err e)
  | Ok pinned =>
    _ ← transmit (SentCommand host RuntimeSnapshotCommand);
    match runner (ssh_config host pinned (20 * second) 65536) signer RuntimeSnapshotCommand with
    | Err e => Ret (Err e)
    | Ok result => now ← get_now; Ret (Ok (parseLinuxSnapshot ParseFloat (r_Stdout result) now))
    end
  end.

Definition ExecuteCatalogCommand (host : Host) (signer : Signer) (command : Command) (timeout : duration) (maxOutputBytes : Z)
    : prog Server (result go_error Result) :=
  match pinned_key host with
  | Err e => Ret (Err e)
  | Ok pinned =>
    if (timeout <=? 0)%Z || (30 * second <? timeout)%Z then Ret (Err (new_error "catalog command timeout is outside policy"))
    else if (maxOutputBytes <=? 0)%Z || (262144 <? maxOutputBytes)%Z then
      Ret (Err (new_error "catalog command output limit is outside policy"))
    else
      _ ← transmit (SentCommand host command);
      Ret (runner (ssh_config host pinned timeout maxOutputBytes) signer command)
  end.

(** *** Job endpoints *)

Definition requireSSHJobTarget (principal : Principal) (r : Request) : prog Server (result Response Host) :=
  let hostID := rq_PathValue r "hostID" in
  if negb (checkHostScope principal hostID) then Ret (Err out_of_scope)
  else
    c ← ask config;
    if negb (SecretExecutionEnabled c) then
      Ret (Err (writeError 503 "execution_boundary_unavailable" "SSH execution requires the independent secret handoff service"))
    else
      found ← look (λ m, GetHost m hostID);
      match found with
      | Err e => Ret (Err (writeStoreError e))
      | Ok host =>
        match h_HostKey host with
        | None => Ret (Err (writeError 409 "host_key_required" "host key must be confirmed before SSH jobs can run"))
        | Some _ =>
          credential ← look (λ m, GetCredential m hostID);
          match credential with
          | Err _ => Ret (Err (writeError 409 "credential_required" "an SSH credential is required before SSH jobs can run"))
          | Ok _ => Ret (Ok host)
          end
        end
      end.

Definition enqueueSSHJob (r : Request) (principal : Principal) (hostID jobType : string) (command : option CommandDescriptor)
    (details : list (string * value)) : prog Server (result Response Job) :=
  id ← NewID "job";
  match id with
  | Err _ => Ret (Err (writeError 500 "internal_error" "could not create job"))
  | Ok id =>
    now ← get_now;
    let job := new_job id jobType hostID principal now command in
    created ← step (λ m, CreateJob m job);
    match created with
    | Err _ => Ret (Err (writeError 409 "conflict" "could not create job"))
    | Ok _ =>
      _ ← audit r principal "job.created" "job" (j_ID job) "success"
            (Some ([("hostId", VString hostID); ("type", VString (j_Type job))] ++ details));
      _ ← act (λ s, (set_jobCancels s (<[j_ID job := false]> (jobCancels s)), tt));
      Ret (Ok job)
    end
  end.

Definition createReadOnlyCommand (principal : Principal) (r : Request) : prog Server Response :=
  target ← requireSSHJobTarget principal r;
  match target with
  | Err resp => Ret resp
  | Ok host =>
    match decodeJSON (T := readOnlyCommandRequest) (rq_body r) with
    | Err e => Ret (writeError 400 "invalid_request" e)
    | Ok input =>
      match parseReadOnlyCommand input with
      | Err e => Ret (writeError 400 "validation_error" e)
      | Ok (_, descriptor) =>
        queued ← enqueueSSHJob r principal (h_ID host) "read_only_command" (Some descriptor)
                   [("commandId", VString (commandID (Some descriptor)))];
        match queued with
        | Err resp => Ret resp
        | Ok job => Ret (started KindCommand principal job)
        end
      end
    end
  end.

Definition createAnomalyScan (principal : Principal) (r : Request) : prog Server Response :=
  target ← requireSSHJobTarget principal r;
  match target with
  | Err resp => Ret resp
  | Ok host =>
    match decodeJSON (T := unit) (rq_body r) with
    | Err e => Ret (writeError 400 "invalid_request" e)
    | Ok _ =>
      queued ← enqueueSSHJob r principal (h_ID host) "process_anomaly_scan" None [("commandId", VString (commandID None))];
      match queued with
      | Err resp => Ret resp
      | Ok job => Ret (started KindAnomaly principal job)
      end
    end
  end.

(** The body of the source repeats [requireSSHJobTarget] and [enqueueSSHJob]. *)
Definition createRuntimeSnapshot (principal : Principal) (r : Request) : prog Server Response :=
  target ← requireSSHJobTarget principal r;
  match target with
  | Err resp => Ret resp
  | Ok host =>
    queued ← enqueueSSHJob r principal (rq_PathValue r "hostID") "runtime_snapshot" None [];
    match queued with
    | Err resp => Ret resp
    | Ok job => Ret (started KindSnapshot principal job)
    end
  end.

(** *** Goroutines of jobs *)

(** The checks before a job runs, which [startAuthorizedJob] and
    [runSnapshotJob] share: whether the job may go on. *)
Definition checkQueuedJob (start : time) (jobID : string) (principal : Principal) (permission : Permission) : prog Server bool :=
  found ← look (λ m, GetJob m jobID);
  match found with
  | Err _ => Ret false
  | Ok queued =>
    authorized ← authorize visit (j_RequestedSessionID queued) permission (j_HostID queued);
    if negb authorized.2 then
      _ ← finishQueuedCancellation jobID principal "authorization_expired" "job authorization expired or was revoked";
      Ret false
    else
      done ← ctx_done jobID start;
      if (done : bool) then
        _ ← finishQueuedCancellation jobID principal "cancelled" "job was cancelled";
        Ret false
      else Ret true
  end.

Definition startAuthorizedJob (start : time) (jobID : string) (principal : Principal) (permission : Permission)
    : prog Server (option Job) :=
  proceed ← checkQueuedJob start jobID principal permission;
  if negb proceed then Ret None
  else
    r ← mutateJob jobID (transition JobRunning (λ j, j));
    Ret (match r with Err _ => None | Ok job => Some job end).

Definition executeCatalog (job : Job) (permission : Permission) (command : Command) (maxOutput : Z)
    : prog Server (result go_error Result) :=
  found ← look (λ m, GetHost m (j_HostID job));
  match found with
  | Err _ => Ret (Err (new_error "target host is unavailable"))
  | Ok host =>
    credential ← look (λ m, GetCredential m (j_HostID job));
    match credential with
    | Err _ => Ret (Err (new_error "SSH credential is unavailable"))
    | Ok credential =>
      authorized ← authorize visit (j_RequestedSessionID job) permission (j_HostID job);
      if negb authorized.2 then Ret (Err errAuthorizationExpired)
      else
        c ← ask config;
        match open_credential credential (credentialAAD c (j_HostID job) (cm_ID (sc_Metadata credential))) with
        | Err e => Ret (Err e)
        | Ok plaintext =>
          match ParseCredentialSigner plaintext with
          | Err e => Ret (Err e)
          | Ok signer => ExecuteCatalogCommand host signer command (20 * second) maxOutput
          end
        end
    end
  end.

Definition command_result (command : Command) (result : Result) : CommandResult :=
  mkCommandResult (c_id command) (safeRemoteOutput (r_Stdout result)) (safeRemoteOutput (r_Stderr result)) (r_ExitCode result)
    (Z.quot (r_Duration result) 1000000) false.

Definition runReadOnlyCommandJob (jobID : string) (principal : Principal) : prog Server unit :=
  start ← get_now;
  job ← startAuthorizedJob start jobID principal CommandsRun;
  _ ← match job with
      | None => Ret tt
      | Some job =>
        match j_Command job with
        | None => finishOperationJob jobID principal None None JobFailed "catalog_invalid" "stored command is not in the catalog"
        | Some stored =>
          match parseReadOnlyCommand (mkCommandRequest (cd_ID stored) (cd_Parameters stored)) with
          | Err _ => finishOperationJob jobID principal None None JobFailed "catalog_invalid" "stored command is not in the catalog"
          | Ok (command, _) =>
            result ← executeCatalog job CommandsRun command 65536;
            match result with
            | Err e =>
              let '(state, code, message) := safeOperationError e "command" in
              finishOperationJob jobID principal None None state code message
            | Ok result => finishOperationJob jobID principal (Some (command_result command result)) None JobSucceeded "" ""
            end
          end
        end
      end;
  unregisterJob jobID.

Definition runAnomalyScanJob (jobID : string) (principal : Principal) : prog Server unit :=
  start ← get_now;
  job ← startAuthorizedJob start jobID principal AnomalyScansRun;
  _ ← match job with
      | None => Ret tt
      | Some job =>
        result ← executeCatalog job AnomalyScansRun ProcessInventoryCommand 262144;
        match result with
        | Err e =>
          let '(state, code, message) := safeOperationError e "anomaly scan" in
          finishOperationJob jobID principal None None state code message
        | Ok result =>
          match ParseProcessInventory ParseFloat (r_Stdout result) with
          | Err _ =>
            finishOperationJob jobID principal None None JobFailed "inventory_invalid" "process inventory could not be safely parsed"
          | Ok processes =>
            now ← get_now;
            let scan := Scan processes now in
            match analyze (as_Findings scan) with
            | Err _ =>
              _ ← auditWithRequestID "" principal "anomaly_scan.ai_analyzed" "job" jobID "failed"
                    (Some [("mode", VString "unavailable"); ("reason", VString "analysis_error")]);
              finishOperationJob jobID principal None None JobFailed "ai_analysis_failed" "anomaly findings could not be analyzed"
            | Ok analysis =>
              let scan := mkAnomalyScanResult (as_ObservedAt scan) (as_Engine scan) (as_AIExecutionAllowed scan)
                            (as_ProcessesEvaluated scan) (as_Findings scan) (Some analysis) in
              _ ← auditWithRequestID "" principal "anomaly_scan.ai_analyzed" "job" jobID "success"
                    (Some [("mode", VString (Mode analysis)); ("reason", VString (FallbackReason analysis))]);
              finishOperationJob jobID principal None (Some scan) JobSucceeded "" ""
            end
          end
        end
      end;
  unregisterJob jobID.

Definition runSnapshotJob (jobID : string) (principal : Principal) : prog Server unit :=
  start ← get_now;
  proceed ← checkQueuedJob start jobID principal SnapshotsRun;
  job ←
    (if negb proceed then Ret None
     else
       now ← get_now;
       r ← mutateJob jobID (λ _, transition JobRunning (λ j, j) now);
       Ret (match r with Err _ => None | Ok job => Some job end));
  _ ← match job with
      | None => Ret tt
      | Some job =>
        found ← look (λ m, GetHost m (j_HostID job));
        match found with
        | Err _ => finishJob jobID principal None JobFailed "host_unavailable" "target host is unavailable"
        | Ok host =>
          credential ← look (λ m, GetCredential m (j_HostID job));
          match credential with
          | Err _ => finishJob jobID principal None JobFailed "credential_unavailable" "SSH credential is unavailable"
          | Ok credential =>
            authorized ← authorize visit (j_RequestedSessionID job) SnapshotsRun (j_HostID job);
            if negb authorized.2 then
              finishJob jobID principal None JobCancelled "authorization_expired" "job authorization expired or was revoked"
            else
              let principal := authorized.1 in
              c ← ask config;
              collected ←
                match open_credential credential (credentialAAD c (j_HostID job) (cm_ID (sc_Metadata credential))) with
                | Err e => Ret (Err e)
                | Ok plaintext =>
                  match ParseCredentialSigner plaintext with
                  | Err e => Ret (Err e)
                  | Ok signer => Collect host signer
                  end
                end;
              match collected with
              | Err e =>
                let '(state, code, message) := safeJobError e in
                finishJob jobID principal None state code message
              | Ok snapshot => finishJob jobID principal (Some snapshot) JobSucceeded "" ""
              end
          end
        end
      end;
  unregisterJob jobID.
End jobs.

(** ** Runbooks *)

Record runbookPreviewRequest := mkRunbookPreview { rq_ActionID : string; rq_Version : Z; rq_Parameters : RunbookParameters }.
Record runbookExecuteRequest := mkRunbookExecute { rx_ScopeDigest : string; rx_Reason : string; rx_IncidentID : string }.

Definition validRunbookReason (value : string) : bool :=
  negb ((slen value <? 8)%Z || (500 <? slen value)%Z) && all_runes (λ r, negb (is_control r)) value.

Definition validRunbookIdentifier (value : string) (max : Z) : bool :=
  negb ((slen value <? 1)%Z || (max <? slen value)%Z) &&
  forallb (λ ir, is_alnum_rune ir.2 || ((0 <? ir.1)%Z && ((ir.2 =? 46)%Z || (ir.2 =? 95)%Z || (ir.2 =? 58)%Z || (ir.2 =? 45)%Z)))
    (runes_idx value).

Definition runbookPreviewModel (v : RunbookPreviewResponse) : RunbookPreviewResult :=
  mkRunbookPreviewResult (pv_ProtocolVersion v) (pv_RequestID v) (pv_Action v) (pv_CatalogVersion v) (pv_Binding v)
    (pv_ScopeDigest v) (pv_Title v) (pv_Mutating v) (pv_Emergency v) (pv_ExecutionEnabled v) (pv_RetryPolicy v) (pv_Steps v).

Definition runbookExecutionModel (v : RunbookExecuteResponse) : RunbookExecutionResult :=
  mkRunbookExecutionResult (ex_ProtocolVersion v) (ex_RequestID v) (ex_Action v) (ex_CatalogVersion v) (ex_Binding v)
    (ex_ScopeDigest v) (ex_Status v) (ex_Stopped v) (ex_Retryable v) (ex_IdempotentReplay v)
    (map (λ s, mkRunbookStepExecution (sr_ID s) (sr_Phase s) (sr_State s) (safeRemoteOutput (sr_Stdout s))
                 (safeRemoteOutput (sr_Stderr s)) (sr_ExitCode s) (sr_DurationMillis s) (sr_ErrorCode s)) (ex_Steps v)).

(** [storedPreview.ExecutionEnabled = ... && (!Mutating || MutationsEnabled)]. *)
Definition gate_preview (c : Config) (p : RunbookPreviewResult) : RunbookPreviewResult :=
  mkRunbookPreviewResult (rp_ProtocolVersion p) (rp_RequestID p) (rp_Action p) (rp_CatalogVersion p) (rp_Binding p)
    (rp_ScopeDigest p) (rp_Title p) (rp_Mutating p) (rp_Emergency p)
    (rp_ExecutionEnabled p && (negb (rp_Mutating p) || MutationsEnabled c)) (rp_RetryPolicy p) (rp_Steps p).

Definition failRunbookJob (jobID : string) (principal : Principal) (code message : string) : prog Server unit :=
  r ← mutateJob jobID (λ now current,
        if negb (bool_decide (j_State current = JobRunning)) then Err ErrConflict
        else transition JobFailed (λ j, set_error j (Some (mkJobError code message))) now current);
  match r with
  | Err _ => Ret tt
  | Ok job => auditWithRequestID "" principal "runbook.failed" "job" jobID "failed"
                (Some [("hostId", VString (j_HostID job)); ("errorCode", VString code)])
  end.

Definition bool_text (b : bool) : value := VOther (if b then "true" else "false").

Section runbooks.
Context (sha256 : string → string) (visit : Sessions → list storedSession).
Context {W U : Type} `{GCM, KeyUnwrapper U} (service : Credentials.Service W U).
Context `{StrictDecode runbookPreviewRequest, StrictDecode runbookExecuteRequest, StrictDecode credentialRequest}.
(** The Connector; [None] is an error. *)
Context (PreviewRunbook : RunbookPreviewRequest → option RunbookPreviewResponse)
  (ExecuteRunbook : RunbookExecuteRequest → option RunbookExecuteResponse).

Definition previewRunbook (principal : Principal) (r : Request) : prog Server Response :=
  let hostID := rq_PathValue r "hostID" in
  c ← ask config;
  if negb (HasRunbookConnector c) then
    Ret (writeError 503 "connector_unavailable" "Runbook preview requires the external Connector")
  else if negb (checkHostScope principal hostID) then Ret out_of_scope
  else
    found ← look (λ m, GetHost m hostID);
    match found with
    | Err e => Ret (writeStoreError e)
    | Ok host =>
      match h_HostKey host with
      | None => Ret (writeError 409 "host_key_required" "host key must be confirmed before previewing a runbook")
      | Some pin =>
        credential ← look (λ m, GetCredential m hostID);
        match credential with
        | Err _ => Ret (writeError 409 "credential_required" "an SSH credential is required before previewing a runbook")
        | Ok credential =>
          match decodeJSON (T := runbookPreviewRequest) (rq_body r) with
          | Err e => Ret (writeError 400 "invalid_request" e)
          | Ok input =>
            let p := rq_Parameters input in
            if (rq_ActionID input =? "") || (rq_Version input <? 1)%Z then
              Ret (writeError 400 "validation_error" "actionId and version are required")
            else if negb (is_ok (Runbook.Build sha256 (rq_ActionID input) (rq_Version input)
                            (Runbook.mkParameters (Protocol.Service p) (Protocol.Timezone p) (Protocol.PID p) (Protocol.ProcessStartTicks p)))) then
              Ret (writeError 400 "validation_error" "runbook action or parameters are invalid")
            else
              id ← NewID "job";
              match id with
              | Err _ => Ret (writeError 500 "internal_error" "could not create runbook job")
              | Ok jobID =>
                now ← get_now;
                let job := new_job jobID "runbook" hostID principal now None in
                created ← step (λ m, CreateJob m job);
                match created with
                | Err e => Ret (writeStoreError e)
                | Ok _ =>
                  _ ← audit r principal "runbook.preview_created" "job" (j_ID job) "success"
                        (Some [("hostId", VString hostID); ("actionId", VString (rq_ActionID input)); ("version", VOther (itoa (rq_Version input)))]);
                  running ← mutateJob (j_ID job) (transition JobRunning (λ j, j));
                  match running with
                  | Err e => Ret (writeStoreError e)
                  | Ok job =>
                    let binding := mkRunbookBinding (mkActionRef (rq_ActionID input) (rq_Version input)) hostID (j_ID job)
                                     (mkTarget (h_Address host) (h_Port host) (h_Username host)) (hk_FingerprintSHA256 pin)
                                     (cm_PublicKeyFingerprint (sc_Metadata credential)) p in
                    let request := mkPreviewRequest "" binding in
                    _ ← transmit (SentPreview request);
                    let accepted :=
                      match PreviewRunbook request with
                      | None => None
                      | Some preview =>
                        if (pv_ScopeDigest preview =? "") || (rb_JobID (pv_Binding preview) ≠? j_ID job) ||
                           (rb_HostID (pv_Binding preview) ≠? hostID) then None else Some preview
                      end in
                    match accepted with
                    | None =>
                      _ ← failRunbookJob (j_ID job) principal "preview_failed" "Runbook preview failed";
                      Ret (writeError 502 "preview_failed" "Connector could not preview the runbook")
                    | Some preview =>
                      let storedPreview := gate_preview c (runbookPreviewModel preview) in
                      awaiting ← mutateJob (j_ID job) (transition JobAwaitingApproval (λ j, set_preview j (Some storedPreview)));
                      match awaiting with
                      | Err e => Ret (writeStoreError e)
                      | Ok job =>
                        _ ← audit r principal "runbook.previewed" "job" (j_ID job) "success"
                              (Some [("hostId", VString hostID); ("actionId", VString (rq_ActionID input)); ("mutating", bool_text (pv_Mutating preview))]);
                        Ret (writeJSON 201 (BJob job))
                      end
                    end
                  end
                end
              end
          end
        end
      end
    end.

(** [decodeConnectorCredential]. *)
Definition decodeConnectorCredential (plaintext : string) : result go_error Protocol.Credential :=
  match decode_stored plaintext with
  | None => Err (new_error "stored credential payload is invalid")
  | Some payload =>
    if cr_PrivateKey payload =? "" then Err (new_error "stored credential payload is invalid")
    else Ok (mkCredential (cr_PrivateKey payload) (cr_Passphrase payload))
  end.

Definition execute_request (preview : RunbookPreviewResult) (job : Job) (input : runbookExecuteRequest) (pinnedHostKey : string)
    (now : time) (credential : Protocol.Credential) : RunbookExecuteRequest :=
  mkExecuteRequest "" (rp_Binding preview)
    (mkApproval "approved" (rb_Action (rp_Binding preview)) (j_HostID job) (j_ID job) (rp_ScopeDigest preview) now (now + 5 * minute))
    (if rp_Emergency preview then mkEmergency (rx_IncidentID input) (now + 5 * minute) else mkEmergency "" 0)
    (rx_Reason input) pinnedHostKey credential.

Definition step_audit (s : RunbookStepExecution) : value :=
  VMap [("id", VString (se_ID s)); ("state", VString (se_State s)); ("exitCode", VOther (itoa (se_ExitCode s)));
        ("errorCode", VString (se_ErrorCode s))].

(** The checks of [executeRunbook] on the job it read, up to the approval. *)
Definition execution_refusal (c : Config) (principal authorized : Principal) (ok : bool) (input : runbookExecuteRequest)
    (preview : RunbookPreviewResult) : option Response :=
  if negb ok || (SessionID authorized ≠? SessionID principal) || (Subject authorized ≠? Subject principal) then
    Some (writeError 403 "authorization_expired" "runbook authorization expired or was revoked")
  else if negb (constantStringEqual (rx_ScopeDigest input) (rp_ScopeDigest preview)) then
    Some (writeError 409 "scope_changed" "runbook scope digest does not match the preview")
  else if rp_Emergency preview && (rx_IncidentID input =? "") then
    Some (writeError 400 "incident_required" "emergency runbooks require an incidentId")
  else if rp_Mutating preview && negb (MutationsEnabled c) then
    Some (writeError 503 "mutations_disabled" "mutating runbooks require VPSMGR_ENABLE_MUTATIONS=true")
  else if negb (rp_ExecutionEnabled preview) then
    Some (writeError 503 "runbook_execution_disabled" "Connector execution is disabled for this runbook")
  else None.

(** Decrypting the credential and calling the Connector. *)
Definition connector_execution (c : Config) (preview : RunbookPreviewResult) (job : Job) (input : runbookExecuteRequest)
    (pinnedHostKey : string) (credential : StoredCredential) : prog Server (option RunbookExecuteResponse) :=
  now ← get_now;
  match open_credential service credential (credentialAAD c (j_HostID job) (cm_ID (sc_Metadata credential))) with
  | Err _ => Ret None
  | Ok plaintext =>
    match decodeConnectorCredential plaintext with
    | Err _ => Ret None
    | Ok connectorCredential =>
      let request := execute_request preview job input pinnedHostKey now connectorCredential in
      _ ← transmit (SentExecute request);
      Ret (ExecuteRunbook request)
    end
  end.

(** What [executeRunbook] does with the answer of the Connector. *)
Definition finish_execution (r : Request) (principal : Principal) (preview : RunbookPreviewResult) (input : runbookExecuteRequest)
    (job : Job) (execution : option RunbookExecuteResponse) : prog Server Response :=
  match (match execution with
         | None => None
         | Some e => if negb (constantStringEqual (ex_ScopeDigest e) (rp_ScopeDigest preview)) ||
                        (rb_JobID (ex_Binding e) ≠? j_ID job) then None else Some e
         end) with
  | None =>
    _ ← failRunbookJob (j_ID job) principal "execution_failed" "Runbook execution failed";
    Ret (writeError 502 "execution_failed" "Connector could not execute the runbook")
  | Some execution =>
    let storedExecution := runbookExecutionModel execution in
    let state := if ex_Status execution ≠? "succeeded" then JobFailed else JobSucceeded in
    finished ← mutateJob (j_ID job) (transition state (λ j,
      let j := set_execution j (Some storedExecution) in
      if bool_decide (state = JobFailed)
      then set_error j (Some (mkJobError "runbook_failed" "one or more reviewed runbook steps failed")) else j));
    match finished with
    | Err e => Ret (writeStoreError e)
    | Ok job =>
      _ ← audit r principal "runbook.executed" "job" (j_ID job) (ex_Status execution)
            (Some [("hostId", VString (j_HostID job)); ("actionId", VString (ar_ID (rb_Action (rp_Binding preview))));
                   ("incidentId", VString (rx_IncidentID input)); ("steps", VSeq (map step_audit (re_Steps storedExecution)))]);
      Ret (writeJSON 200 (BJob job))
    end
  end.

Definition executeRunbook (principal : Principal) (r : Request) : prog Server Response :=
  c ← ask config;
  if negb (HasRunbookConnector c) || negb (DevMode c) || negb (SecretExecutionEnabled c) then
    Ret (writeError 503 "execution_boundary_unavailable"
           "Runbook execution requires a development execution identity with credential decryption")
  else match decodeJSON (T := runbookExecuteRequest) (rq_body r) with
  | Err e => Ret (writeError 400 "invalid_request" e)
  | Ok input =>
    let input := mkRunbookExecute (rx_ScopeDigest input) (trim_space (rx_Reason input)) (trim_space (rx_IncidentID input)) in
    if (rx_ScopeDigest input =? "") || negb (validRunbookReason (rx_Reason input)) ||
       ((rx_IncidentID input ≠? "") && negb (validRunbookIdentifier (rx_IncidentID input) 128)) then
      Ret (writeError 400 "validation_error" "scopeDigest, reason, or incidentId is invalid")
    else
      found ← look (λ m, GetJob m (rq_PathValue r "jobID"));
      match found with
      | Err e => Ret (writeStoreError e)
      | Ok job =>
        if negb (checkHostScope principal (j_HostID job)) then Ret out_of_scope
        else
          let conflict := writeError 409 "runbook_not_awaiting_approval" "runbook job is not awaiting execution approval" in
          if (j_Type job ≠? "runbook") || negb (bool_decide (j_State job = JobAwaitingApproval)) then Ret conflict
          else match j_RunbookPreview job with
          | None => Ret conflict
          | Some preview =>
            authorized ← authorize visit (j_RequestedSessionID job) RunbooksExecute (j_HostID job);
            match execution_refusal c principal authorized.1 authorized.2 input preview with
            | Some refusal => Ret refusal
            | None =>
              host ← look (λ m, GetHost m (j_HostID job));
              match (match host with Err _ => None | Ok host => h_HostKey host end) with
              | None => Ret (writeError 409 "host_key_required" "host key must remain confirmed")
              | Some pin =>
                credential ← look (λ m, GetCredential m (j_HostID job));
                match (match credential with
                       | Err _ => None
                       | Ok credential => if cm_ID (sc_Metadata credential) =? "" then None else Some credential
                       end) with
                | None => Ret (writeError 409 "credential_required" "SSH credential is no longer available")
                | Some credential =>
                  running ← mutateJob (j_ID job) (transition JobRunning (λ j, j));
                  match running with
                  | Err e => Ret (writeStoreError e)
                  | Ok job =>
                    execution ← connector_execution c preview job input (hk_PublicKey pin) credential;
                    finish_execution r principal preview input job execution
                  end
                end
              end
            end
          end
      end
  end.
End runbooks.

(** ** Terminals *)

Record terminalSessionRequest := mkTerminalRequest { ts_Reason : string; ts_Columns : Z; ts_Rows : Z }.
Definition WebSSHSubprotocol := "vpsmgr.webssh.v1".

Definition webSSHError (err : go_error) : Z * string * string :=
  if err_is err SInvalidRequest then (400, "validation_error", "terminal session request is invalid")
  else if err_is err SUnauthorized then (403, "authorization_expired", "terminal session authorization is no longer valid")
  else if err_is err SCapacity then (429, "terminal_capacity", "terminal session capacity is currently full")
  else if err_is err SConnector then (502, "connector_unavailable", "Connector could not issue a terminal ticket")
  else if err_is err SClosed || err_is err SNotFound then
    (503, "execution_boundary_unavailable", "terminal execution boundary is unavailable")
  else if err_is err SCanceled || err_is err SDeadlineExceeded then (504, "terminal_timeout", "terminal ticket issuance timed out")
  else if contains "credential" (err_text err) then (503, "credential_unavailable", "SSH credential could not be opened")
  else (503, "execution_boundary_unavailable", "terminal execution boundary is unavailable").

Section terminals.
Context (visit : Sessions → list storedSession).
Context {W U : Type} `{GCM, KeyUnwrapper U} (service : Credentials.Service W U).
Context `{StrictDecode terminalSessionRequest, StrictDecode credentialRequest}.
(** [webSSH.Issue]. *)
Context (Issue : IssueRequest → result go_error IssueResponse).

Definition createTerminalSession (principal : Principal) (r : Request) : prog Server Response :=
  c ← ask config;
  if negb (HasWebSSH c) || negb (DevMode c) || negb (SecretExecutionEnabled c) then
    Ret (writeError 503 "execution_boundary_unavailable"
           "WebSSH requires a development execution identity with credential decryption")
  else
    target ← requireSSHJobTarget principal r;
    match target with
    | Err resp => Ret resp
    | Ok host =>
      match decodeJSON (T := terminalSessionRequest) (rq_body r) with
      | Err e => Ret (writeError 400 "invalid_request" e)
      | Ok input =>
        let columns := if (ts_Columns input =? 0)%Z then 80 else ts_Columns input in
        let rows := if (ts_Rows input =? 0)%Z then 24 else ts_Rows input in
        found ← look (λ m, GetCredential m (h_ID host));
        match found with
        | Err e => Ret (writeStoreError e)
        | Ok credential =>
          let binding := mkBinding (Subject principal) (SessionID principal) [Role principal] (h_ID host)
                           (cm_ID (sc_Metadata credential)) ActionWebSSH in
          issued ←
            match open_credential service credential (credentialAAD c (h_ID host) (cm_ID (sc_Metadata credential))) with
            | Err e => Ret (Err e)
            | Ok plaintext =>
              match decodeConnectorCredential plaintext with
              | Err e => Ret (Err e)
              | Ok connectorCredential =>
                _ ← transmit (SentTerminal host (cm_ID (sc_Metadata credential)) (ts_Reason input));
                Ret (Issue (mkIssueRequest binding (mkTarget (h_Address host) (h_Port host) (h_Username host))
                              (match h_HostKey host with Some pin => hk_PublicKey pin | None => "" end)
                              connectorCredential (mkTerminalSize columns rows 0 0) (ts_Reason input)))
              end
            end;
          match issued with
          | Err e =>
            let '(status, code, message) := webSSHError e in
            _ ← audit r principal "webssh.issue" "host" (h_ID host) "failed" (Some [("errorCode", VString code)]);
            Ret (writeError status code message)
          | Ok issued => Ret (writeJSON 201 (BTerminal issued WebSSHSubprotocol binding))
          end
        end
      end
    end.

(** The callback the broker asks before it issues or keeps a terminal. *)
Definition authorizeWebSSH (a : Authorization) : prog Server bool :=
  let binding := au_Binding a in
  if bool_decide (bd_Action binding ≠ ActionWebSSH) || negb (Z.of_nat (length (Roles binding)) =? 1)%Z then Ret false
  else
    authorized ← authorize visit (bd_SessionID binding) TerminalSessionsOpen (bd_HostID binding);
    if negb authorized.2 || (Subject authorized.1 ≠? PrincipalID binding) || (Role authorized.1 ≠? nth 0 (Roles binding) "") then Ret false
    else
      host ← look (λ m, GetHost m (bd_HostID binding));
      match (match host with Err _ => None | Ok host => h_HostKey host end) with
      | None => Ret false
      | Some _ =>
        credential ← look (λ m, GetCredential m (bd_HostID binding));
        Ret (match credential with
             | Err _ => false
             | Ok credential => cm_ID (sc_Metadata credential) =? bd_CredentialID binding
             end)
      end.

(** The broker's audit callback: [event] with its fields. *)
Record websshEvent := mkWebsshEvent {
  we_Event : string; we_PrincipalID : string; we_SessionID : string; we_Roles : list string; we_HostID : string;
  we_CredentialID : string; we_ConnectionID : string; we_DisconnectType : string; we_Reason : string }.
Definition auditWebSSH (event : websshEvent) : prog Server unit :=
  let role := match we_Roles event with [role] => role | _ => "" end in
  auditWithRequestID "" (mkPrincipal (we_PrincipalID event) role false [] (we_SessionID event)) ("webssh." +:+ we_Event event)
    "host" (we_HostID event) "recorded"
    (Some [("credentialId", VString (we_CredentialID event)); ("connectionId", VString (we_ConnectionID event));
           ("disconnectType", VString (we_DisconnectType event)); ("reason", VString (we_Reason event))]).
End terminals.
