(* ===== verification/ApiWorkers.v ===== *)
(** * The control-plane HTTP API: Cloudflare workers

    Models the handlers of [services/control-plane/internal/api/cloudflare.go]
    and [executeWorkerDeployment] of [cloudflare_execution.go] as programs of
    atomic steps, with the deployment execution that CloudflareExecution models
    step by step, and relates what the API accepts to what the Cloudflare client
    accepts. *)

From S2P Require Import Prelude GoStrings Encoding Json CloudflareProvider CloudflareExecution Broker Auth AuditTrail.
From S2P Require Import Credentials Protocol Model Store SshConnector Prog Api.

Definition maxWorkerModuleBytes : Z := 262144.

Definition cloudflareAccountPattern (s : string) : bool := (slen s =? 32)%Z && all_chars is_hex s.
Definition lower_or_digit (b : Z) : bool := is_lower_rune b || is_digit_rune b.
(** [^[a-z0-9](?:[a-z0-9-]{0,61}[a-z0-9])?$]. *)
Definition workerScriptPattern (s : string) : bool :=
  match String.list_ascii_of_string s with
  | [] => false
  | first :: rest =>
    char_in lower_or_digit first &&
    match reverse rest with
    | [] => true
    | last :: middle => char_in lower_or_digit last && (Z.of_nat (length middle) <=? 61)%Z &&
                        forallb (char_in (λ b, lower_or_digit b || (b =? 45)%Z)) middle
    end
  end.
Definition cloudflareTokenPattern (s : string) : bool :=
  (20 <=? slen s)%Z && (slen s <=? 512)%Z && all_chars (λ b, is_alnum_rune b || (b =? 95)%Z || (b =? 45)%Z) s.
Definition cloudflareGlobalKey (s : string) : bool := (32 <=? slen s)%Z && (slen s <=? 37)%Z && all_chars is_hex s.
Definition validProviderToken (token : string) : bool := cloudflareTokenPattern token && negb (cloudflareGlobalKey token).

Definition containsUnsafeText (value : string) : bool := negb (all_runes (λ r, negb (is_control r)) value).

(** The module in lower case contains one of the markers. *)
Definition containsLikelyEmbeddedSecret (module : string) : bool :=
  existsb (λ marker, contains_runes (runes marker) (to_lower module))
    ["-----begin private key-----"; "authorization: bearer "; "secret_access_key"; "api_token="].

(** [base64.StdEncoding.Strict().DecodeString]: padded, with [+] and [/]. *)
Definition std_char (a : ascii) : option ascii :=
  if Ascii.eqb a "+" then Some "-"%char else if Ascii.eqb a "/" then Some "_"%char
  else if Ascii.eqb a "-" || Ascii.eqb a "_" || Ascii.eqb a "=" then None else Some a.
Fixpoint std_chars (s : string) : option string :=
  match s with
  | EmptyString => Some EmptyString
  | String a s => b ← std_char a; t ← std_chars s; Some (String b t)
  end.
Definition strip_pad (s : string) : string := if has_suffix "=" s then take_str (String.length s - 1) s else s.
Definition std_decode (s : string) : option string :=
  let s := drop_newlines s in
  if negb (slen s `mod` 4 =? 0)%Z then None
  else t ← std_chars (strip_pad (strip_pad s)); b64_quanta true t.

Record createWorkerRequest := mkCreateWorker { cw_Name : string; cw_AccountID : string; cw_ScriptName : string }.
Record workerTokenRequest := mkWorkerToken { wt_Token : string }.
Record createWorkerVersionRequest := mkCreateVersion { vq_ModuleBase64 : string; vq_ContentType : string; vq_Entrypoint : string }.
Record createWorkerDeploymentRequest := mkCreateDeployment { dq_VersionID : string; dq_Kind : string }.

(** The checks of [createWorker] and [createWorkerVersion]. *)
Definition worker_refusal (name account script : string) : option string :=
  if (slen name <? 1)%Z || (100 <? slen name)%Z || containsUnsafeText name then Some "name must contain 1 to 100 printable characters"
  else if negb (cloudflareAccountPattern account) then Some "accountId must be a 32-character hexadecimal Cloudflare account id"
  else if negb (workerScriptPattern script) then Some "scriptName must use lowercase letters, digits, and internal hyphens"
  else None.

Definition module_of (encoded : string) : option string :=
  match std_decode encoded with
  | None => None
  | Some module =>
    if (slen module =? 0)%Z || (maxWorkerModuleBytes <? slen module)%Z || negb (utf8_valid module) || contains_char nul module
    then None else Some module
  end.

Definition workerTokenAAD (c : Api.Config) (workerID tokenID : string) : string :=
  match ContextAAD (cfg_InstallationID c) workerID tokenID "cloudflare_api_token" with Ok aad => aad | Err _ => "" end.

Definition global_scope_required : Response :=
  writeError 403 "global_scope_required" "Cloudflare worker resources require a global session scope".

Section workers.
Context (sha256 : string → string).
Context {W U : Type} `{GCM, KeyWrapper W, KeyUnwrapper U} (service : Credentials.Service W U).
Context `{StrictDecode createWorkerRequest, StrictDecode workerTokenRequest, StrictDecode createWorkerVersionRequest,
          StrictDecode createWorkerDeploymentRequest, StrictDecode unit}.

Definition createWorker (principal : Principal) (r : Request) : prog Server Response :=
  if negb (AllHosts principal) then Ret global_scope_required
  else match decodeJSON (T := createWorkerRequest) (rq_body r) with
  | Err e => Ret (writeError 400 "invalid_request" e)
  | Ok input =>
    let name := trim_space (cw_Name input) in
    let account := trim_space (cw_AccountID input) in
    let script := trim_space (cw_ScriptName input) in
    match worker_refusal name account script with
    | Some message => Ret (writeError 400 "validation_error" message)
    | None =>
      id ← Api.NewID "worker";
      match id with
      | Err _ => Ret (writeError 500 "internal_error" "could not create worker")
      | Ok id =>
        now ← get_now;
        let worker := mkCloudflareWorker id name (ToLower account) script "" 1 now now in
        created ← step (λ m, CreateWorker m worker);
        match created with
        | Err e => Ret (writeStoreError e)
        | Ok _ =>
          _ ← audit r principal "cloudflare_worker.created" "cloudflare_worker" (w_ID worker) "success"
                (Some [("scriptName", VString (w_ScriptName worker))]);
          Ret (writeJSON 201 (BWorker worker))
        end
      end
    end
  end.

Definition listWorkers (principal : Principal) (r : Request) : prog Server Response :=
  if negb (AllHosts principal) then Ret global_scope_required
  else workers ← look ListWorkers; Ret (writeJSON 200 (BWorkers workers)).

Definition getWorker (principal : Principal) (r : Request) : prog Server Response :=
  if negb (AllHosts principal) then Ret global_scope_required
  else
    found ← look (λ m, GetWorker m (rq_PathValue r "workerID"));
    Ret (match found with Err e => writeStoreError e | Ok worker => writeJSON 200 (BWorker worker) end).

Definition putWorkerToken (principal : Principal) (r : Request) : prog Server Response :=
  let workerID := rq_PathValue r "workerID" in
  if negb (AllHosts principal) then Ret global_scope_required
  else
    found ← look (λ m, GetWorker m workerID);
    match found with
    | Err e => Ret (writeStoreError e)
    | Ok _ =>
      match decodeJSON (T := workerTokenRequest) (rq_body r) with
      | Err _ => Ret (writeError 400 "invalid_request" "token payload is invalid")
      | Ok input =>
        if negb (validProviderToken (wt_Token input)) then
          Ret (writeError 400 "validation_error" "token must contain 20 to 512 printable non-whitespace ASCII characters")
        else
          id ← Api.NewID "cftok";
          match id with
          | Err _ => Ret (writeError 500 "internal_error" "could not store token")
          | Ok id =>
            c ← ask config;
            sealed ← seal service (wt_Token input) (workerTokenAAD c workerID id);
            match sealed with
            | Err _ => Ret (writeError 503 "kms_unavailable" "token encryption is unavailable")
            | Ok envelope =>
              now ← get_now;
              let metadata := mkCloudflareTokenMetadata id workerID "cloudflare_api_token" (env_KeyID envelope) now (Subject principal) in
              stored ← step (λ m, PutWorkerToken m (mkStoredCloudflareToken metadata envelope));
              match stored with
              | Err e => Ret (writeStoreError e)
              | Ok _ =>
                _ ← audit r principal "cloudflare_token.stored" "cloudflare_worker" workerID "success" (Some [("tokenId", VString id)]);
                Ret (writeJSON 201 (BWorkerToken metadata))
              end
            end
          end
      end
    end.

Definition getWorkerToken (principal : Principal) (r : Request) : prog Server Response :=
  if negb (AllHosts principal) then Ret global_scope_required
  else
    found ← look (λ m, GetWorkerToken m (rq_PathValue r "workerID"));
    Ret (match found with Err e => writeStoreError e | Ok token => writeJSON 200 (BWorkerToken (st_Metadata token)) end).

Definition deleteWorkerToken (principal : Principal) (r : Request) : prog Server Response :=
  let workerID := rq_PathValue r "workerID" in
  if negb (AllHosts principal) then Ret global_scope_required
  else
    deleted ← step (λ m, DeleteWorkerToken m workerID);
    match deleted with
    | Err e => Ret (writeStoreError e)
    | Ok _ =>
      _ ← audit r principal "cloudflare_token.deleted" "cloudflare_worker" workerID "success" None;
      Ret noContent
    end.

Definition createWorkerVersion (principal : Principal) (r : Request) : prog Server Response :=
  let workerID := rq_PathValue r "workerID" in
  if negb (AllHosts principal) then Ret global_scope_required
  else
    found ← look (λ m, GetWorker m workerID);
    match found with
    | Err e => Ret (writeStoreError e)
    | Ok _ =>
      match decodeJSON (T := createWorkerVersionRequest) (rq_body r) with
      | Err e => Ret (writeError 400 "invalid_request" e)
      | Ok input =>
        if (vq_ContentType input ≠? "application/javascript") || (vq_Entrypoint input ≠? "index.js") then
          Ret (writeError 400 "validation_error" "only an application/javascript module with entrypoint index.js is accepted")
        else match module_of (vq_ModuleBase64 input) with
        | None => Ret (writeError 400 "validation_error" "moduleBase64 must encode 1 to 262144 bytes of UTF-8 JavaScript")
        | Some module =>
          if containsLikelyEmbeddedSecret module then
            Ret (writeError 400 "embedded_secret_detected" "module appears to contain an embedded secret; use provider secret bindings instead")
          else
            id ← Api.NewID "wver";
            match id with
            | Err _ => Ret (writeError 500 "internal_error" "could not create worker version")
            | Ok id =>
              now ← get_now;
              let metadata := mkCloudflareWorkerVersion id workerID ("sha256:" +:+ hex_encode (sha256 module)) (slen module)
                                (vq_ContentType input) (vq_Entrypoint input) "staged" "" 0 None now (Subject principal) in
              created ← step (λ m, CreateWorkerVersion m (mkStoredCloudflareWorkerVersion metadata module));
              match created with
              | Err e => Ret (writeStoreError e)
              | Ok _ =>
                _ ← audit r principal "cloudflare_worker_version.uploaded" "cloudflare_worker" workerID "success"
                      (Some [("versionId", VString id); ("sha256", VString (wv_SHA256 metadata)); ("sizeBytes", VOther (itoa (wv_SizeBytes metadata)))]);
                Ret (writeJSON 201 (BVersion metadata))
              end
            end
        end
      end
    end.

Definition listWorkerVersions (principal : Principal) (r : Request) : prog Server Response :=
  let workerID := rq_PathValue r "workerID" in
  if negb (AllHosts principal) then Ret global_scope_required
  else
    found ← look (λ m, GetWorker m workerID);
    match found with
    | Err e => Ret (writeStoreError e)
    | Ok _ =>
      versions ← look (λ m, ListWorkerVersions m workerID);
      Ret (writeJSON 200 (BVersions versions))
    end.

Definition createWorkerDeployment (principal : Principal) (r : Request) : prog Server Response :=
  let workerID := rq_PathValue r "workerID" in
  if negb (AllHosts principal) then Ret global_scope_required
  else match decodeJSON (T := createWorkerDeploymentRequest) (rq_body r) with
  | Err e => Ret (writeError 400 "invalid_request" e)
  | Ok input =>
    if negb (has_prefix "wver_" (dq_VersionID input)) || (128 <? slen (dq_VersionID input))%Z ||
       ((dq_Kind input ≠? "deploy") && (dq_Kind input ≠? "rollback")) then
      Ret (writeError 400 "validation_error" "versionId and kind deploy or rollback are required")
    else
      found ← look (λ m, GetWorker m workerID);
      match found with
      | Err e => Ret (writeStoreError e)
      | Ok worker =>
        version ← look (λ m, GetWorkerVersion m workerID (dq_VersionID input));
        match version with
        | Err e => Ret (writeStoreError e)
        | Ok _ =>
          token ← look (λ m, GetWorkerToken m workerID);
          match token with
          | Err _ => Ret (writeError 409 "token_required" "an encrypted Cloudflare token is required before planning a deployment")
          | Ok _ =>
            id ← Api.NewID "cfdep";
            match id with
            | Err _ => Ret (writeError 500 "internal_error" "could not create deployment plan")
            | Ok id =>
              now ← get_now;
              let deployment := mkCloudflareDeployment id workerID (dq_VersionID input) (w_DesiredVersionID worker) (dq_Kind input)
                                  "ready_for_provider" false "" "" "" "" None None now (Subject principal) in
              let updated := mkCloudflareWorker (w_ID worker) (w_Name worker) (w_AccountID worker) (w_ScriptName worker)
                               (dq_VersionID input) (u64 (w_Version worker + 1)) (w_CreatedAt worker) now in
              planned ← step (λ m, PlanWorkerDeployment m deployment updated);
              match planned with
              | Err ErrConflict => Ret (writeError 409 "version_conflict" "deployment plan conflicts with current desired state")
              | Err e => Ret (writeStoreError e)
              | Ok _ =>
                _ ← audit r principal "cloudflare_deployment.planned" "cloudflare_worker" workerID "success"
                      (Some [("deploymentId", VString id); ("versionId", VString (dq_VersionID input)); ("kind", VString (dq_Kind input));
                             ("providerExecutionAllowed", VOther "false")]);
                Ret (writeJSON 201 (BDeployment deployment))
              end
            end
          end
        end
      end
  end.

Definition listWorkerDeployments (principal : Principal) (r : Request) : prog Server Response :=
  let workerID := rq_PathValue r "workerID" in
  if negb (AllHosts principal) then Ret global_scope_required
  else
    found ← look (λ m, GetWorker m workerID);
    match found with
    | Err e => Ret (writeStoreError e)
    | Ok _ =>
      deployments ← look (λ m, ListWorkerDeployments m workerID);
      Ret (writeJSON 200 (BDeployments deployments))
    end.
End workers.

(** ** Execution of a deployment *)

(** The provider factory of the control plane: its client is configured with
    the account and the defaults. *)
Definition newProviderClient (accountID token : string) : option Client :=
  if negb (validProviderToken token) then None
  else match CloudflareProvider.New (CloudflareProvider.mkConfig accountID TokenOwnerUser 0 0 0 0 0 0) true with
       | Ok client => Some client
       | Err _ => None
       end.

Definition alone : nat → list op := λ _, [].

Section execution.
(** The provider factory, if one is configured. *)
Context {P : Type} `{Provider P} (ctx : context) (newProvider : option (string → string → option P)).
Context {W U : Type} `{GCM, KeyUnwrapper U} (service : Credentials.Service W U).
Context `{StrictDecode unit}.

Definition record_failure (running : CloudflareDeployment) (providerVersionID code : string) (status : Z)
    : prog Server (result execution_error CloudflareDeployment) :=
  now ← get_now;
  step (λ m, failCloudflareDeploymentCode alone m running providerVersionID code status now).

Definition record_provider_failure (running : CloudflareDeployment) (err : provider_error)
    : prog Server (result execution_error CloudflareDeployment) :=
  let '(code, status) := classifyCloudflareProviderError err in
  record_failure running (d_ProviderVersionID running) code status.

(** The upload, and the provider's version id it ends with. *)
Definition upload_program (p : P) (worker : CloudflareWorker) (version : StoredCloudflareWorkerVersion) (running : CloudflareDeployment)
    : prog Server (P * (result execution_error CloudflareDeployment + string)) :=
  if negb (d_Kind running =? "deploy") then Ret (p, inr (d_ProviderVersionID running))
  else
    let '(p, uploaded) := p_UploadVersion p ctx (mkModule (w_ScriptName worker) (wv_Entrypoint (sv_Metadata version))
      (sv_Module version) ("vpsmanager deployment " +:+ d_ID running) (d_ID running) (d_ID running +:+ ":upload")) in
    match uploaded with
    | Err e => failed ← record_provider_failure running e; Ret (p, inl failed)
    | Ok u =>
      if (v_ID u =? "") || (v_ScriptName u ≠? w_ScriptName worker) ||
         negb (v_SizeBytes u =? wv_SizeBytes (sv_Metadata version))%Z ||
         ("sha256:" +:+ v_SHA256 u ≠? wv_SHA256 (sv_Metadata version)) then
        failed ← record_provider_failure running (ProviderError (error ErrorProvider "upload_version"));
        Ret (p, inl failed)
      else
        now ← get_now;
        updated ← step (λ m, UpdateWorkerVersionProvider m (w_ID worker) (wv_ID (sv_Metadata version)) (v_ID u) (v_Number u)
                               (default now (v_CreatedAt u)));
        match updated with
        | Err _ => failed ← record_failure running (v_ID u) "persistence_failure" 500; Ret (p, inl failed)
        | Ok _ => Ret (p, inr (v_ID u))
        end
    end.

Definition deployment_program (p : P) (worker : CloudflareWorker) (version : StoredCloudflareWorkerVersion)
    (deployment : CloudflareDeployment) : prog Server (result execution_error CloudflareDeployment) :=
  startedAt ← get_now;
  claimed ← step (λ m, claim_deployment alone m version deployment startedAt);
  match claimed with
  | Err e => Ret (Err e)
  | Ok running =>
    let '(p, access) := p_ValidateAccess p ctx in
    match access with
    | Err e => record_provider_failure running e
    | Ok _ =>
      upload ← upload_program p worker version running;
      match upload.2 with
      | inl failed => Ret failed
      | inr providerVersionID =>
        let '(_, released) := release_step ctx upload.1 worker running providerVersionID in
        match released with
        | Err e => record_provider_failure (with_version running providerVersionID) e
        | Ok d =>
          if (pd_ID d =? "") || (pd_ScriptName d ≠? w_ScriptName worker) || (pd_State d ≠? DeploymentStateActive) then
            record_provider_failure (with_version running providerVersionID) (ProviderError (error ErrorProvider "deployment_result"))
          else
            now ← get_now;
            let succeeded := finished running "succeeded" providerVersionID (pd_ID d) (pd_State d) "" now in
            updated ← step (λ m, UpdateWorkerDeployment m succeeded "running");
            Ret (match updated with
                 | Err _ => Err (ExecutionFailure "persistence_failure" 500)
                 | Ok _ => Ok succeeded
                 end)
        end
      end
    end
  end.

(** What [credentials.Open] ends with around the execution. *)
Inductive open_outcome :=
| Unavailable                                                  (* ErrUnwrapUnavailable *)
| TokenInvalid                                                 (* errInvalidCloudflareToken *)
| OpenFailed
| Executed (r : result execution_error CloudflareDeployment).

Definition execute_with_token (c : Api.Config) (workerID : string) (token : StoredCloudflareToken) (worker : CloudflareWorker)
    (version : StoredCloudflareWorkerVersion) (deployment : CloudflareDeployment) : prog Server open_outcome :=
  match unwrapper service with
  | None => Ret Unavailable
  | Some _ =>
    match Open service (st_Envelope token) (workerTokenAAD c workerID (tm_ID (st_Metadata token))) (Some Err) with
    | (Err plaintext, Some _) =>
      match new ← newProvider; new (w_AccountID worker) plaintext with
      | None => Ret TokenInvalid
      | Some p => r ← deployment_program p worker version deployment; Ret (Executed r)
      end
    | _ => Ret OpenFailed
    end
  end.

Definition executeWorkerDeployment (principal : Principal) (r : Request) : prog Server Response :=
  let workerID := rq_PathValue r "workerID" in
  let deploymentID := rq_PathValue r "deploymentID" in
  if negb (AllHosts principal) then Ret global_scope_required
  else
    c ← ask config;
    if negb (CloudflareExecutionEnabled c) || negb (SecretExecutionEnabled c) || negb (bool_decide (is_Some newProvider)) then
      Ret (writeError 503 "execution_boundary_unavailable" "Cloudflare provider execution is unavailable")
    else match decodeJSON (T := unit) (rq_body r) with
    | Err e => Ret (writeError 400 "invalid_request" e)
    | Ok _ =>
      found ← look (λ m, GetWorkerDeployment m workerID deploymentID);
      match found with
      | Err e => Ret (writeStoreError e)
      | Ok deployment =>
        if (d_State deployment ≠? "ready_for_provider") || d_ProviderExecutionAllowed deployment then
          Ret (writeError 409 "deployment_not_ready" "deployment is not ready for provider execution")
        else
          found ← look (λ m, GetWorker m workerID);
          match found with
          | Err e => Ret (writeStoreError e)
          | Ok worker =>
            if w_DesiredVersionID worker ≠? d_VersionID deployment then
              Ret (writeError 409 "deployment_superseded" "deployment plan has been superseded by a newer desired version")
            else
              found ← look (λ m, GetWorkerVersion m workerID (d_VersionID deployment));
              match found with
              | Err e => Ret (writeStoreError e)
              | Ok version =>
                if (d_Kind deployment =? "rollback") && (wv_ProviderVersionID (sv_Metadata version) =? "") then
                  Ret (writeError 409 "provider_version_required" "rollback target has not been uploaded to Cloudflare")
                else
                  found ← look (λ m, GetWorkerToken m workerID);
                  match found with
                  | Err ErrNotFound => Ret (writeError 409 "token_required" "an encrypted Cloudflare token is required")
                  | Err e => Ret (writeStoreError e)
                  | Ok token =>
                    outcome ← execute_with_token c workerID token worker version deployment;
                    match outcome with
                    | Unavailable =>
                      _ ← audit r principal "cloudflare_deployment.execution_denied" "cloudflare_worker" workerID "denied"
                            (Some [("deploymentId", VString deploymentID); ("reason", VString "sealing_only")]);
                      Ret (writeError 503 "execution_boundary_unavailable" "Cloudflare provider execution is unavailable")
                    | TokenInvalid =>
                      _ ← audit r principal "cloudflare_deployment.execution_failed" "cloudflare_worker" workerID "failure"
                            (Some [("deploymentId", VString deploymentID); ("errorCode", VString "provider_token_invalid")]);
                      Ret (writeError 409 "provider_token_invalid" "stored Cloudflare token is invalid; replace it before retrying")
                    | Executed (Err (ExecutionFailure code status)) =>
                      _ ← audit r principal "cloudflare_deployment.execution_failed" "cloudflare_worker" workerID "failure"
                            (Some [("deploymentId", VString deploymentID); ("kind", VString (d_Kind deployment)); ("errorCode", VString code)]);
                      Ret (writeError status code "Cloudflare deployment execution failed")
                    | Executed (Err (ClaimFailed ErrConflict)) =>
                      Ret (writeError 409 "deployment_not_ready" "deployment is not ready for provider execution")
                    | Executed (Err (ClaimFailed _)) | OpenFailed =>
                      Ret (writeError 500 "persistence_failure" "deployment execution state could not be saved")
                    | Executed (Ok completed) =>
                      _ ← audit r principal "cloudflare_deployment.executed" "cloudflare_worker" workerID "success"
                            (Some [("deploymentId", VString (d_ID deployment)); ("kind", VString (d_Kind deployment));
                                   ("providerVersionId", VString (d_ProviderVersionID completed));
                                   ("providerDeploymentId", VString (d_ProviderDeploymentID completed));
                                   ("providerState", VString (d_ProviderState completed))]);
                      Ret (writeJSON 200 (BDeployment completed))
                    end
                  end
              end
          end
      end
    end.
End execution.

(** Alone, the program is [runCloudflareDeployment]. *)
Section alone.
Context {P : Type} `{Provider P} (ctx : context).

Lemma run_step {A} (f : Memory → Memory * A) s : run (step f) s = (set_repository s (f (repository s)).1, (f (repository s)).2).
Proof. unfold step, act. cbn. by destruct (f (repository s)). Qed.

Lemma run_get_now s : run get_now s = (s, clock s).
Proof. done. Qed.

Lemma run_failure s running v code status :
  run (record_failure running v code status) s =
    let '(m, r) := failCloudflareDeploymentCode alone (repository s) running v code status (clock s) in (set_repository s m, r).
Proof. unfold record_failure. rewrite run_bind, run_get_now, run_step. cbn. by destruct (failCloudflareDeploymentCode _ _ _ _ _ _ _). Qed.

Lemma run_provider_failure s running err :
  run (record_provider_failure running err) s =
    let '(m, r) := failCloudflareDeployment alone (repository s) running err (clock s) in (set_repository s m, r).
Proof.
  unfold record_provider_failure, failCloudflareDeployment. destruct (classifyCloudflareProviderError err) as [code status].
  apply run_failure.
Qed.

Lemma run_upload s p worker version running :
  run (upload_program ctx p worker version running) s =
    let '(m, p', x) := upload_step alone ctx (repository s) p worker version running (λ _, clock s) in
    match x with Ok v => (set_repository s m, (p', inr v)) | Err (m', r) => (set_repository s m', (p', inl r)) end.
Proof.
  unfold upload_program, upload_step. destruct (negb _); [by destruct s|]. destruct (p_UploadVersion _ _ _) as [p1 [u|e]].
  2: { rewrite run_bind, run_provider_failure. by destruct (failCloudflareDeployment _ _ _ _ _). }
  destruct (_ || _). { rewrite run_bind, run_provider_failure. by destruct (failCloudflareDeployment _ _ _ _ _). }
  rewrite run_bind, run_get_now. cbn [fst snd]. rewrite run_bind, run_step. cbn [fst snd].
  change (meanwhile alone 1 (repository s)) with (repository s).
  destruct (UpdateWorkerVersionProvider _ _ _ _ _ _) as [m [u'|e]]; cbn [fst snd]; [done|].
  rewrite run_bind, run_failure. cbn [repository clock set_repository]. by destruct (failCloudflareDeploymentCode _ _ _ _ _ _ _).
Qed.

Lemma run_deployment s p worker version deployment :
  run (deployment_program ctx p worker version deployment) s =
    let '(m, _, r) := runCloudflareDeployment alone ctx (repository s) p worker version deployment (λ _, clock s) in
    (set_repository s m, r).
Proof.
  unfold deployment_program, runCloudflareDeployment. rewrite run_bind, run_get_now. cbn [fst snd]. rewrite run_bind, run_step.
  destruct (claim_deployment _ _ _ _ _) as [m [running|e]]; cbn [fst snd]; [|done].
  destruct (p_ValidateAccess p ctx) as [p1 [a|e]].
  2: { rewrite run_provider_failure. cbn [repository clock set_repository]. by destruct (failCloudflareDeployment _ _ _ _ _). }
  rewrite run_bind, run_upload. cbn [repository clock set_repository].
  destruct (upload_step _ _ _ _ _ _ _ _) as [[m1 p2] [v|[m2 r]]]; cbn [fst snd]; [|done].
  destruct (release_step _ _ _ _ _) as [p3 [d|e]].
  2: { rewrite run_provider_failure. cbn [repository clock set_repository]. by destruct (failCloudflareDeployment _ _ _ _ _). }
  destruct (_ || _). { rewrite run_provider_failure. cbn [repository clock set_repository]. by destruct (failCloudflareDeployment _ _ _ _ _). }
  rewrite run_bind, run_get_now. cbn [fst snd]. rewrite run_bind, run_step. cbn [fst snd repository clock set_repository].
  change (meanwhile alone 2 m1) with m1. by destruct (UpdateWorkerDeployment _ _ _) as [m3 [|]].
Qed.
End alone.

(** ** What the API accepts, the client accepts *)

Definition is_ascii (b : Z) : bool := (b <? 128)%Z.

Lemma all_chars_String p a s : all_chars p (String a s) = char_in p a && all_chars p s.
Proof. done. Qed.

Lemma all_chars_impl (p q : Z → bool) s : (∀ b, 0 ≤ b < 256 → p b = true → q b = true) → all_chars p s = true → all_chars q s = true.
Proof.
  intros Hpq. induction s as [|a s IH]; [done|]. rewrite !all_chars_String. intros [Ha Hs]%andb_true_iff.
  rewrite IH, andb_true_r by done. apply Hpq; [apply byte_val_range|done].
Qed.

Lemma all_chars_append p s t : all_chars p (s +:+ t) = all_chars p s && all_chars p t.
Proof. induction s as [|a s IH]; [done|]. by rewrite append_String, !all_chars_String, IH, andb_assoc. Qed.

(** A test of all byte values. *)
Lemma byte_check (f : Z → bool) a : forallb (λ n, f (Z.of_nat n)) (seq 0 256) = true → f (byte_val a) = true.
Proof.
  intros Hf. rewrite forallb_forall in Hf. pose proof (byte_val_range a) as Ha. rewrite <-(Z2Nat.id (byte_val a)) by lia.
  apply Hf. rewrite in_seq. lia.
Qed.

Lemma ascii_valid s : all_chars is_ascii s = true → utf8_valid s = true.
Proof.
  unfold utf8_valid. induction s as [|a s IH]; [done|]. rewrite all_chars_String. intros [Ha Hs]%andb_true_iff.
  apply Z.ltb_lt in Ha. cbn [utf8_valid_from]. rewrite decode_rune_ascii by done. cbn [pred]. rewrite IH, andb_true_r by done.
  apply negb_true_iff, andb_false_iff. left. apply Z.eqb_neq. unfold rune_error. lia.
Qed.

Lemma ascii_runes s : all_chars is_ascii s = true → runes s = map byte_val (String.list_ascii_of_string s).
Proof.
  unfold runes, runes_idx. generalize 0. induction s as [|a s IH]; intros i; [done|]. rewrite all_chars_String.
  intros [Ha Hs]%andb_true_iff. apply Z.ltb_lt in Ha. cbn [runes_from]. rewrite decode_rune_ascii by done. cbn. by rewrite IH.
Qed.

(** Lower case of a hexadecimal text. *)
Lemma hex_ToLower s : all_chars is_hex s = true → all_chars is_hex (ToLower s) = true ∧ slen (ToLower s) = slen s.
Proof.
  intros Hs. unfold ToLower, to_lower. rewrite ascii_runes.
  2: { eapply all_chars_impl; [|exact Hs]. intros b Hb. unfold is_hex, is_digit_rune, is_ascii. intros. apply Z.ltb_lt.
       repeat match goal with H : _ || _ = true |- _ => apply orb_true_iff in H as [H|H] end; apply in_range_true in H; lia. }
  unfold slen. induction s as [|a s IH]; [done|]. rewrite all_chars_String in Hs. apply andb_true_iff in Hs as [Ha Hs].
  destruct (IH Hs) as [IH1 IH2]. cbn [String.list_ascii_of_string map foldr].
  pose proof (byte_check (λ z, negb (is_hex z) || match utf8_encode (lower_rune z) with String b "" => char_in is_hex b | _ => false end)
    a eq_refl) as Hb. cbv beta in Hb. unfold char_in in Ha. rewrite Ha in Hb. cbn [negb orb] in Hb.
  destruct (utf8_encode (lower_rune (byte_val a))) as [|b [|? ?]]; [done| |done].
  rewrite append_String, append_Empty, all_chars_String, Hb, IH1. split; [done|]. cbn [String.length]. lia.
Qed.

Lemma all_bytes (p q : Z → bool) s : forallb (λ n, negb (p (Z.of_nat n)) || q (Z.of_nat n)) (seq 0 256) = true →
  all_chars p s = true → all_chars q s = true.
Proof.
  intros Hf. unfold all_chars. rewrite !forallb_forall. intros Hp a Ha. specialize (Hp a Ha). unfold char_in in *.
  pose proof (byte_check (λ z, negb (p z) || q z) a Hf) as H. cbv beta in H. by rewrite Hp in H.
Qed.

Lemma slen_list s : slen s = Z.of_nat (length (String.list_ascii_of_string s)).
Proof. unfold slen. induction s as [|a s IH]; [done|]. cbn [String.length String.list_ascii_of_string length]. lia. Qed.

Lemma script_accepted s : workerScriptPattern s = true → scriptNamePattern s = true.
Proof.
  unfold workerScriptPattern, scriptNamePattern, head_tail. destruct s as [|a t]; [done|]. cbn [String.list_ascii_of_string].
  intros [Ha Ht]%andb_true_iff. assert (char_in (λ b, is_lower_rune b || is_digit_rune b) a = true) as -> by exact Ha. cbn [andb].
  rewrite slen_list. unfold all_chars.
  destruct (reverse (String.list_ascii_of_string t)) as [|last middle] eqn:Er.
  { apply (f_equal reverse) in Er. rewrite reverse_involutive in Er. by rewrite Er. }
  apply (f_equal reverse) in Er. rewrite reverse_involutive, reverse_cons in Er. rewrite Er.
  apply andb_true_iff in Ht as [[Hl Hn%Z.leb_le]%andb_true_iff Hm]. rewrite length_app, length_reverse. cbn [length].
  rewrite !(proj2 (Z.leb_le _ _)) by lia. cbn [andb]. rewrite forallb_app. cbn [forallb]. rewrite andb_true_r. apply andb_true_iff. split.
  - apply forallb_forall. intros x Hx. rewrite forallb_forall in Hm. rewrite <-list_elem_of_In, elem_of_reverse, list_elem_of_In in Hx.
    specialize (Hm x Hx). revert Hm. unfold char_in. generalize x. intros y Hy.
    pose proof (byte_check (λ z, negb (lower_or_digit z || (z =? 45)%Z) || (is_lower_rune z || is_digit_rune z || one_of "_-" z)) y eq_refl) as H.
    cbn beta in H. by rewrite Hy in H.
  - pose proof (byte_check (λ z, negb (lower_or_digit z) || (is_lower_rune z || is_digit_rune z || one_of "_-" z)) last eq_refl) as H.
    unfold char_in in *. cbn beta in H. by rewrite Hl in H.
Qed.

Lemma all_chars_ext (p q : Z → bool) s : forallb (λ n, Bool.eqb (p (Z.of_nat n)) (q (Z.of_nat n))) (seq 0 256) = true →
  all_chars p s = all_chars q s.
Proof.
  intros Hf. induction s as [|a s IH]; [done|]. rewrite !all_chars_String, IH. f_equal.
  apply eqb_prop. exact (byte_check (λ z, Bool.eqb (p z) (q z)) a Hf).
Qed.

Lemma token_accepted token : validProviderToken token = validateToken token.
Proof.
  unfold validProviderToken, validateToken, cloudflareTokenPattern, tokenPattern. do 2 f_equal. by apply all_chars_ext.
Qed.

(** The identifiers of deployments. *)
Definition id_char (b : Z) : bool := is_alnum_rune b || one_of "_-" b.

Lemma b64_char_id d : 0 ≤ d < 64 → char_in id_char (b64_char d) = true.
Proof.
  intros Hd. assert (forallb (λ n, char_in id_char (b64_char (Z.of_nat n))) (seq 0 64) = true) as H by (vm_compute; reflexivity).
  rewrite forallb_forall in H. specialize (H (Z.to_nat d)). rewrite Z2Nat.id in H by lia. apply H. rewrite in_seq. lia.
Qed.

Lemma b64_encode_id s : all_chars id_char (b64_encode s) = true.
Proof.
  induction s as [|a|a b|a b c r IH] using string_ind3; [done|..]; byte_ranges;
    cbn [b64_encode]; rewrite !all_chars_String, !b64_char_id by (Z.to_euclidean_division_equations; lia); done.
Qed.

Lemma NewID_shape prefix random id : Model.NewID prefix random = Ok id →
  ∃ raw, id = prefix +:+ "_" +:+ b64_encode raw ∧ slen (b64_encode raw) = 22.
Proof.
  unfold Model.NewID, read_full. destruct (negb _); [|done]. cbn [guard_ok mbind result_bind]. destruct random as [raw|]; [|done].
  destruct (Z.eqb_spec (slen raw) 16) as [Hl|]; [|done]. cbn [mbind result_bind]. intros [= <-]. exists raw. split; [done|].
  pose proof (b64_encode_length raw) as H. rewrite Hl in H. change (16 mod 3 =? 0)%Z with false in H. change (16 mod 3 =? 1)%Z with true in H.
  cbv iota in H. lia.
Qed.

(** * Properties *)

(** a worker, a module and a token that the API has accepted pass every check of
    the Cloudflare client: the client can be created for the stored
    account, the token is the one it would accept, and the upload the
    execution of a planned deployment makes is valid, as are its idempotency keys. *)
Theorem accepted_deployable name account script encoded module token random id :
  worker_refusal name account script = None → module_of encoded = Some module → validProviderToken token = true →
  Model.NewID "cfdep" random = Ok id →
  ∃ c, newProviderClient (ToLower account) token = Some c ∧ validateToken token = true ∧
    validateModule c (mkModule script "index.js" module ("vpsmanager deployment " +:+ id) id (id +:+ ":upload")) = true ∧
    idempotencyPattern (id +:+ ":deploy") = true ∧ idempotencyPattern (id +:+ ":rollback") = true.
Proof.
  intros Hw Hm Ht Hid. unfold worker_refusal in Hw. destruct (_ || _) in Hw; [done|].
  destruct (cloudflareAccountPattern account) eqn:Ea; [|done]. destruct (workerScriptPattern script) eqn:Es; [|done].
  apply andb_true_iff in Ea as [El Eh]. apply Z.eqb_eq in El. apply hex_ToLower in Eh as [Hh Hl].
  apply NewID_shape in Hid as (raw & -> & Hraw). pose proof (b64_encode_id raw) as Hb.
  set (id := "cfdep" +:+ "_" +:+ b64_encode raw).
  assert (slen id = 28 ∧ all_chars id_char id = true) as [Hlen Hchars].
  { unfold id. rewrite !all_chars_append, Hb. unfold slen in *. rewrite !length_append. split; [cbn; lia|done]. }
  assert (∀ suffix, all_chars (λ b, id_char b || one_of ":" b) suffix = true → slen suffix ≤ 20 → idempotencyPattern (id +:+ suffix) = true) as Hidem.
  { intros suffix Hs Hsl. unfold id, idempotencyPattern. rewrite !append_assoc.
    change ("cfdep" +:+ ("_" +:+ (b64_encode raw +:+ suffix))) with (String "c" ("fdep_" +:+ (b64_encode raw +:+ suffix))).
    unfold head_tail. rewrite !all_chars_append. unfold slen in *. rewrite !length_append.
    rewrite (all_bytes id_char _ (b64_encode raw)), (all_bytes (λ b, id_char b || one_of ":" b) _ suffix) by (done || (vm_compute; reflexivity)).
    rewrite !(proj2 (Z.leb_le _ _)) by (cbn [String.length]; lia). vm_compute. reflexivity. }
  unfold newProviderClient. rewrite Ht. cbn [negb]. unfold CloudflareProvider.New. cbn [cf_AccountID].
  unfold accountIDPattern. rewrite Hl, El, Hh. eexists. split; [reflexivity|]. rewrite <-token_accepted. split; [done|].
  split_and!; [|by apply Hidem..]. unfold validateModule. cbn [ScriptName MainModule Source Message Tag IdempotencyKey maxModuleBytes].
  rewrite script_accepted, (Hidem ":upload") by done. unfold module_of in Hm. destruct (std_decode encoded) as [m|]; [|done].
  destruct (_ || _) eqn:Eg in Hm; [done|]. injection Hm as ->.
  apply orb_false_iff in Eg as [[[E1 E2%Z.ltb_ge]%orb_false_iff E3%negb_false_iff]%orb_false_iff E4].
  rewrite E1, E3, E4. unfold validMessage, maxWorkerModuleBytes in *.
  assert (all_chars is_ascii id = true) as Hascii by (by eapply all_bytes; [|exact Hchars]; vm_compute).
  assert (contains_char nul id = false) as Hnul by (by eapply all_chars_free; [|exact Hchars]).
  rewrite !ascii_valid, Hnul, contains_char_append, Hnul by (rewrite ?all_chars_append, ?Hascii; done).
  rewrite !(proj2 (Z.leb_le _ _)); [vm_compute; reflexivity|..]; unfold slen in *; rewrite ?length_append; cbn [String.length]; try lia.
  unfold defaultMaxModuleBytes, default_if_zero. cbn. lia.
Qed.

Definition demo_account : string := "0123456789ABCDEF0123456789abcdef".
Definition demo_api_token : string := "AbCdEfGhIjKlMnOpQrSt_-0123".
Lemma accepted_deployable_witness :
  module_of "ZXhwb3J0IGRlZmF1bHQge30=" = Some "export default {}" ∧
  ∃ c, newProviderClient (ToLower demo_account) demo_api_token = Some c ∧ validateToken demo_api_token = true ∧
    validateModule c (mkModule "edge-1" "index.js" "export default {}"
      ("vpsmanager deployment " +:+ "cfdep_MDEyMzQ1Njc4OWFiY2RlZg") "cfdep_MDEyMzQ1Njc4OWFiY2RlZg"
      ("cfdep_MDEyMzQ1Njc4OWFiY2RlZg" +:+ ":upload")) = true ∧
    idempotencyPattern ("cfdep_MDEyMzQ1Njc4OWFiY2RlZg" +:+ ":deploy") = true ∧
    idempotencyPattern ("cfdep_MDEyMzQ1Njc4OWFiY2RlZg" +:+ ":rollback") = true.
Proof.
  split; [vm_compute; reflexivity|].
  apply (accepted_deployable "edge" demo_account "edge-1" "ZXhwb3J0IGRlZmF1bHQge30=" "export default {}" demo_api_token
    (Some "0123456789abcdef")); vm_compute; reflexivity.
Defined.
