(* ===== verification/ApiScope.v ===== *)
(** * What the requests of a set of principals can change

    Every handler of the API, and every goroutine it starts, runs
    concurrently with the others.  This file shows that each of their steps
    stays within the scope of the principals that made the requests: hosts,
    credentials and jobs of other hosts are untouched, nothing is sent to
    another host, and the repository stays consistent. *)

From S2P Require Import Prelude GoStrings Encoding Json Text Runbook Broker CloudflareProvider CloudflareExecution.
From S2P Require Import Auth AuditTrail Credentials Protocol Snapshot Anomaly Model Store SshConnector Prog Api.
From S2P Require Import ApiJobs ApiWorkers.

(** ** The guarantee *)

(** Jobs stay, with their host. *)
Definition keeps_jobs (m m' : Memory) : Prop :=
  ∀ id j, jobs m !! id = Some j → ∃ j', jobs m' !! id = Some j' ∧ j_HostID j' = j_HostID j.
#[global] Instance keeps_jobs_preorder : PreOrder keeps_jobs.
Proof.
  split; [by intros m id j; eauto|]. intros a b c H1 H2 id j Hj. destruct (H1 _ _ Hj) as (j1 & Hj1 & E1).
  destruct (H2 _ _ Hj1) as (j2 & Hj2 & E2). exists j2. split; congruence.
Qed.

(** Between two states of the repository, everything outside the reach is the
    same: hosts, credentials and jobs of other hosts, and, without a global
    scope, the workers with their tokens, versions and deployments; jobs are
    only added for hosts within reach, and audit events are only added. *)
Record confined (reach : string → Prop) (global : Prop) (m m' : Memory) : Prop := mkConfined {
  cf_hosts h : ¬ reach h → hosts m' !! h = hosts m !! h;
  cf_credentials h : ¬ reach h → credentials m' !! h = credentials m !! h;
  cf_jobs id j : jobs m !! id = Some j → ¬ reach (j_HostID j) → jobs m' !! id = Some j;
  cf_kept : keeps_jobs m m';
  cf_new id j : jobs m' !! id = Some j → is_Some (jobs m !! id) ∨ reach (j_HostID j);
  cf_workers : ¬ global → workers m' = workers m ∧ workerTokens m' = workerTokens m ∧
    workerVersions m' = workerVersions m ∧ workerDeployments m' = workerDeployments m;
  cf_audits : audits m `prefix_of` audits m';
}.

#[global] Instance confined_preorder reach global : PreOrder (confined reach global).
Proof.
  split.
  { intros m. split; try done. intros id j Hj. left. by eexists. }
  intros a b c [H1 H2 H3 H6 H7 H4 H5] [K1 K2 K3 K6 K7 K4 K5]. split.
  - intros h Hh. by rewrite K1, H1.
  - intros h Hh. by rewrite K2, H2.
  - eauto.
  - by etrans.
  - intros id j Hj. destruct (K7 id j Hj) as [[jb Hb]|?]; [|by right]. destruct (H7 id jb Hb) as [?|Hr]; [by left|right].
    destruct (K6 id jb Hb) as (j' & Hj' & E). simplify_eq. by rewrite E.
  - intros Hp. destruct (H4 Hp) as (? & ? & ? & ?), (K4 Hp) as (? & ? & ? & ?). split_and!; congruence.
  - by etrans.
Qed.

(** An operation that stays within the reach. *)
Definition op_confined (reach : string → Prop) (global : Prop) (m : Memory) (o : op) : Prop :=
  match o with
  | OpCreateHost h | OpUpdateHost h _ => reach (h_ID h)
  | OpDeleteHost id | OpDeleteCredential id => reach id
  | OpPutCredential c => reach (cm_HostID (sc_Metadata c))
  | OpCreateJob j => reach (j_HostID j)
  | OpAppendAudit _ => True
  | OpMutateJob id f => (∀ j, jobs m !! id = Some j → reach (j_HostID j)) ∧ (∀ j j', f j = Ok j' → j_HostID j' = j_HostID j)
  | _ => global
  end.

Lemma run_op_confined reach global m o : op_confined reach global m o → confined reach global m (run_op m o).
Proof.
  destruct o; cbn [op_confined run_op]; intros Ho;
    unfold CreateHost, UpdateHost, DeleteHost, PutCredential, DeleteCredential, CreateJob, MutateJob, AppendAudit,
      CreateWorker, PutWorkerToken, DeleteWorkerToken, CreateWorkerVersion, UpdateWorkerVersionProvider,
      PlanWorkerDeployment, UpdateWorkerDeployment.
  all: repeat case_match; try reflexivity; cbn [fst]; split; cbn; try done; try congruence;
    try (intros k Hk; first [apply lookup_insert_ne | apply lookup_delete_ne]; intros <-; done);
    try (intros k j' Hk; by eauto); try (intros k j' Hk; left; by eexists).
  - intros k j' Hk _. rewrite lookup_insert_ne; congruence.
  - intros k j' Hk. exists j'. cbn. rewrite lookup_insert_ne by congruence. done.
  - intros k j'. rewrite lookup_insert. case_decide; [intros [= <-]; right; by rewrite cloneJob_id|]. left. by eexists.
  - intros k j' Hk Hj. rewrite lookup_insert_ne; [done|]. intros <-. simplify_eq. destruct (Hj (proj1 Ho _ eq_refl)).
  - intros k j' Hk. cbn. destruct (decide (id = k)) as [<-|]; [|rewrite lookup_insert_ne by done; eauto].
    rewrite lookup_insert_eq. eexists. split; [done|]. simplify_eq. rewrite !cloneJob_id in *.
    match goal with H : f _ = Ok _ |- _ => by apply (proj2 Ho) in H end.
  - intros k j'. rewrite lookup_insert. case_decide; [|by eauto]. subst. intros _. left. by eexists.
  - by eexists.
Qed.

Section scope.
Context (PS : Principal → Prop).

Definition reach (h : string) : Prop := ∃ p, PS p ∧ CanAccessHost p h = true.
Definition global : Prop := ∃ p, PS p ∧ AllHosts p = true.

(** The repository is consistent, and sessions belong to these principals. *)
Record sound_state (s : Server) : Prop := mkSound {
  sound_store : store_ok (repository s);
  sound_sessions k st : sessions (s_sessions s) !! k = Some st → PS (sess_principal (ss_session st));
}.

Lemma sound_of s s' : sound_state s → store_ok (repository s') → s_sessions s' = s_sessions s → sound_state s'.
Proof. intros [_ Hs] Hok E. split; [done|]. by rewrite E. Qed.

Definition grows (s s' : Server) : Prop := config s' = config s ∧ keeps_jobs (repository s) (repository s').
#[global] Instance grows_preorder : PreOrder grows.
Proof.
  split; [by split|]. intros a b c [H1 H2] [K1 K2]. split; [congruence|by etrans].
Qed.

(** What a response shows is within the scope: hosts with their credentials,
    jobs, terminals and audit events, and, with a global scope, workers. *)
Definition shows (b : Body) : Prop :=
  match b with
  | BHost h => reach (h_ID h)
  | BHosts l => Forall (λ h, reach (h_ID h)) l
  | BCredential m => reach (cm_HostID m)
  | BJob j => reach (j_HostID j)
  | BJobs l => Forall (λ j, reach (j_HostID j)) l
  | BAudits l => Forall (λ e, event_host e = "" ∨ reach (event_host e)) l
  | BTerminal _ _ binding => reach (bd_HostID binding)
  | BWorker _ | BWorkers _ | BWorkerToken _ | BVersion _ | BVersions _ | BDeployment _ | BDeployments _ => global
  | BToken _ session => PS (sess_principal session)
  | BNone | BError _ _ | BStatus _ _ | BProbe _ => True
  end.

Definition stays (s s' : Server) : Prop :=
  grows s s' ∧ confined reach global (repository s) (repository s') ∧
  ∃ l, sent s' = sent s ++ l ∧ Forall (λ o, reach (outbound_host o)) l.

Lemma stays_refl s : stays s s.
Proof. split_and!; [reflexivity..|]. exists []. by rewrite app_nil_r. Qed.

#[global] Instance stays_preorder : PreOrder stays.
Proof.
  split; [intros s; apply stays_refl|]. intros a b c (H1 & H2 & l & Hl & Hf) (K1 & K2 & k & Hk & Kf).
  split_and!; [by etrans..|]. exists (l ++ k). rewrite Hk, Hl, app_assoc. split; [done|]. by apply Forall_app.
Qed.

Lemma stays_grows s s' : sound_state s → stays s s' → grows s s'.
Proof. by intros _ []. Qed.

(** Steps outside the repository, and steps of the repository. *)
Lemma stays_other s s' :
  repository s' = repository s → s_sessions s' = s_sessions s → config s' = config s → sent s' = sent s →
  sound_state s → sound_state s' ∧ stays s s'.
Proof.
  intros E1 E2 E3 E4 Hs. split; [apply (sound_of s); [done|rewrite E1; apply Hs|done]|].
  unfold stays, grows. rewrite E1, E3, E4. split_and!; try done; try reflexivity. exists []. by rewrite app_nil_r.
Qed.

Lemma stays_repository s m :
  sound_state s → store_ok m → confined reach global (repository s) m →
  sound_state (set_repository s m) ∧ stays s (set_repository s m).
Proof.
  intros Hs Hm Hc. split; [by apply (sound_of s)|]. split_and!; [split; [done|apply Hc]|done|]. exists []. by rewrite app_nil_r.
Qed.

Lemma run_op_stays s o :
  sound_state s → op_allowed o → op_confined reach global (repository s) o →
  sound_state (set_repository s (run_op (repository s) o)) ∧ stays s (set_repository s (run_op (repository s) o)).
Proof. intros Hs Ho Hc. apply stays_repository; [done|apply run_op_ok; [done|apply Hs]|by apply run_op_confined]. Qed.

(** Every step stays; [k] is a state that was seen. *)
Definition safe_to {A} (Q : Server → A → Prop) : Server → prog Server A → Prop := triple sound_state stays grows Q.
Abbreviation safe := (safe_to (λ _ _, True)).
Abbreviation answers := (safe_to (λ _ resp, shows (rs_body resp))).

Lemma safe_ret {A} k (a : A) : safe k (Ret a).
Proof. by constructor. Qed.

Lemma safe_bind {A B} (Q : Server → A → Prop) k (q : prog Server A) (c : A → prog Server B) (R : Server → B → Prop) :
  safe_to Q k q → (∀ k' a, grows k k' → Q k' a → safe_to R k' (c a)) → safe_to R k (q ≫= c).
Proof. apply triple_bind; [apply grows_preorder|apply stays_grows]. Qed.

Lemma safe_seq {A B} k (q : prog Server A) (c : A → prog Server B) (R : Server → B → Prop) :
  safe k q → (∀ k' a, grows k k' → safe_to R k' (c a)) → safe_to R k (q ≫= c).
Proof. intros Hq Hc. eapply safe_bind; [exact Hq|]. intros k' a Hk _. by apply Hc. Qed.

(** A step on the sessions. *)
Lemma safe_session {A B} (Q : A → Prop) k (f : Server → Server * A) (c : A → prog Server B) R :
  (∀ s, repository (f s).1 = repository s ∧ config (f s).1 = config s ∧ sent (f s).1 = sent s) →
  (∀ s, sound_state s → sound_state (f s).1 ∧ Q (f s).2) →
  (∀ k' a, grows k k' → Q a → safe_to R k' (c a)) → safe_to R k (act f ≫= c).
Proof.
  intros Hf Hi Hc. apply (safe_bind (λ _, Q)); [|done]. apply triple_act. intros s Hs _. destruct (Hf s) as (E1 & E2 & E3), (Hi s Hs).
  unfold stays, grows. rewrite E1, E2, E3. split_and!; try done; try reflexivity. exists []. by rewrite app_nil_r.
Qed.

(** A step that leaves the repository and the sessions alone. *)
Lemma safe_other {A B} k (f : Server → Server * A) (c : A → prog Server B) R :
  (∀ s, (repository (f s).1 = repository s ∧ s_sessions (f s).1 = s_sessions s) ∧ config (f s).1 = config s ∧ sent (f s).1 = sent s) →
  (∀ k' a, grows k k' → safe_to R k' (c a)) → safe_to R k (act f ≫= c).
Proof.
  intros Hf Hc. apply (safe_session (λ _, True)); [intros s; by destruct (Hf s) as ([]&?&?)| |by eauto].
  intros s Hs. destruct (Hf s) as ((E1 & E2) & _). split; [|done]. apply (sound_of s); [done| |done]. rewrite E1. apply Hs.
Qed.

Lemma safe_ask {A B} k (f : Server → A) (c : A → prog Server B) R :
  (∀ k' a, grows k k' → safe_to R k' (c a)) → safe_to R k (ask f ≫= c).
Proof. intros Hc. by apply safe_other. Qed.

Lemma safe_look {A B} (Q : Server → A → Prop) k (f : Memory → A) (c : A → prog Server B) R :
  (∀ s, sound_state s → Q s (f (repository s))) → (∀ k' a, grows k k' → Q k' a → safe_to R k' (c a)) → safe_to R k (look f ≫= c).
Proof. intros HQ Hc. apply (safe_bind Q); [|done]. apply triple_act. intros s Hs _. split_and!; [done|apply stays_refl|by apply HQ]. Qed.

Lemma safe_transmit {B} k o (c : unit → prog Server B) R :
  reach (outbound_host o) → (∀ k' a, grows k k' → safe_to R k' (c a)) → safe_to R k (transmit o ≫= c).
Proof.
  intros Ho Hc. apply safe_seq; [|done]. apply triple_act. intros s Hs _. cbn. split_and!; [apply (sound_of s); [done|apply Hs|done]| |done].
  split_and!; [split; reflexivity|reflexivity|]. exists [o]. split; [done|]. by constructor.
Qed.

Lemma safe_step {A B} k (f : Memory → Memory * A) (c : A → prog Server B) o R :
  (∀ m, (f m).1 = run_op m o) → op_allowed o → (∀ s, sound_state s → grows k s → op_confined reach global (repository s) o) →
  (∀ k' a, grows k k' → safe_to R k' (c a)) → safe_to R k (step f ≫= c).
Proof.
  intros Hf Ho Hop Hc. apply safe_seq; [|done]. apply triple_act. intros s Hs Hk. specialize (Hf (repository s)).
  destruct (f (repository s)) as [m a]. cbn in *. subst m. by destruct (run_op_stays s o Hs Ho (Hop s Hs Hk)).
Qed.

Lemma safe_NewID {B} k prefix (c : result string string → prog Server B) R :
  (∀ k' a, grows k k' → safe_to R k' (c a)) → safe_to R k (NewID prefix ≫= c).
Proof. intros Hc. by apply safe_other. Qed.

Lemma safe_auditWithRequestID k rid q a tt' ti o d : safe k (auditWithRequestID rid q a tt' ti o d).
Proof.
  unfold auditWithRequestID. apply safe_NewID. intros k1 [id|e] _; [|apply safe_ret]. apply safe_ask. intros k2 now _.
  eapply (safe_step _ _ _ (OpAppendAudit _)); [done..|]. intros k3 err _. apply triple_act. intros s Hs _. cbn.
  by destruct (stays_other s (set_auditFailed s (negb (is_ok err)))).
Qed.

(** *** Facts about jobs that stay true *)

Definition job_at (s : Server) (id h : string) : Prop := ∃ j, jobs (repository s) !! id = Some j ∧ j_HostID j = h.

Lemma job_at_mono k k' id h : grows k k' → job_at k id h → job_at k' id h.
Proof. intros [_ Hk] (j & Hj & <-). apply Hk in Hj as (j' & ? & ?). by exists j'. Qed.

Lemma GetHost_id m id h : store_ok m → GetHost m id = Ok h → h_ID h = id.
Proof.
  intros Hok. unfold GetHost. destruct (hosts m !! id) as [h'|] eqn:E; [|done]. intros [= <-]. rewrite cloneHost_id. by eapply so_hosts.
Qed.

Lemma GetJob_lookup m id j : GetJob m id = Ok j ↔ jobs m !! id = Some j.
Proof. unfold GetJob. destruct (jobs m !! id) as [j'|]; rewrite ?cloneJob_id; split; congruence. Qed.

Lemma safe_host {B} k id (c : result store_error Host → prog Server B) R :
  (∀ k' r, grows k k' → (∀ h, r = Ok h → h_ID h = id) → safe_to R k' (c r)) → safe_to R k (look (λ m, GetHost m id) ≫= c).
Proof. intros Hc. apply (safe_look (λ _ r, ∀ h, r = Ok h → h_ID h = id)); [|done]. intros s Hs h. apply GetHost_id, Hs. Qed.

Lemma safe_credential {B} k id (c : result store_error StoredCredential → prog Server B) R :
  (∀ k' r, grows k k' → (∀ x, r = Ok x → cm_HostID (sc_Metadata x) = id) → safe_to R k' (c r)) →
  safe_to R k (look (λ m, GetCredential m id) ≫= c).
Proof.
  intros Hc. apply (safe_look (λ _ r, ∀ x, r = Ok x → cm_HostID (sc_Metadata x) = id)); [|done]. intros s Hs x.
  unfold GetCredential. destruct (credentials _ !! id) as [y|] eqn:E; [|done]. intros [= <-].
  by apply (so_credentials _ (sound_store _ Hs)) in E as [? _].
Qed.

Lemma safe_job {B} k id (c : result store_error Job → prog Server B) R :
  (∀ k' r, grows k k' → (∀ j, r = Ok j → j_ID j = id ∧ job_at k' id (j_HostID j)) → safe_to R k' (c r)) →
  safe_to R k (look (λ m, GetJob m id) ≫= c).
Proof.
  intros Hc. apply (safe_look (λ s r, ∀ j, r = Ok j → j_ID j = id ∧ job_at s id (j_HostID j))); [|done].
  intros s Hs j Hj%GetJob_lookup. split; [eapply so_jobs; [apply Hs|done]|]. by exists j.
Qed.

(** A mutation that keeps the identity and the host of the job. *)
Definition keeps (f : Job → result store_error Job) : Prop := ∀ j j', f j = Ok j' → j_ID j' = j_ID j ∧ j_HostID j' = j_HostID j.

Lemma safe_mutateJob {B} k id h f (c : result store_error Job → prog Server B) R :
  job_at k id h → reach h → (∀ now, keeps (f now)) →
  (∀ k' r, grows k k' → (∀ j, r = Ok j → j_ID j = id ∧ j_HostID j = h) → safe_to R k' (c r)) →
  safe_to R k (mutateJob id f ≫= c).
Proof.
  intros Hjob Hr Hf Hc. apply (safe_bind (λ _ r, ∀ j, r = Ok j → j_ID j = id ∧ j_HostID j = h)); [|done].
  apply triple_act. intros s Hs Hk. pose proof (job_at_mono _ _ _ _ Hk Hjob) as (j0 & Hj0 & Hh).
  destruct (run_op_stays s (OpMutateJob id (f (clock s))) Hs) as [Hok Hst].
  { intros j j' Hj Hfj. apply Hf in Hfj as [-> _]. done. }
  { split; [intros j Hj; congruence|]. intros j j' Hj. by apply Hf in Hj as [_ ?]. }
  cbn [run_op] in Hok, Hst. assert (j_ID j0 = id) as Hid0 by (eapply so_jobs; [apply Hs|done]).
  destruct (MutateJob (repository s) id (f (clock s))) as [m r] eqn:E. cbn in *. split_and!; [done..|].
  unfold MutateJob in E. rewrite Hj0 in E. intros j ->. destruct (f (clock s) (cloneJob j0)) as [j1|e] eqn:Ef; simplify_eq.
  apply Hf in Ef as Hid. rewrite !cloneJob_id in *. destruct Hid. split; congruence.
Qed.

Lemma transition_keeps to edit now : (∀ j, j_ID (edit j) = j_ID j ∧ j_HostID (edit j) = j_HostID j) → keeps (transition to edit now).
Proof.
  intros He j j'. unfold transition, TransitionJob. destruct (CanTransition _ _); [|done]. cbn. intros [= <-]. by destruct (He (set_progress j to (u64 (j_Version j + 1))
    (if bool_decide (to = JobRunning) then Some now else j_StartedAt j) (if finishing to then Some now else j_FinishedAt j))).
Qed.

Lemma safe_createJob {B} k job (c : result store_error unit → prog Server B) R :
  reach (j_HostID job) →
  (∀ k' r, grows k k' → (∀ u, r = Ok u → job_at k' (j_ID job) (j_HostID job)) → safe_to R k' (c r)) →
  safe_to R k (step (λ m, CreateJob m job) ≫= c).
Proof.
  intros Hr Hc. apply (safe_bind (λ s r, ∀ u, r = Ok u → job_at s (j_ID job) (j_HostID job))); [|done].
  apply triple_act. intros s Hs Hk.
  destruct (run_op_stays s (OpCreateJob job) Hs I Hr) as [Hok Hst]. cbn [run_op] in Hok, Hst.
  destruct (CreateJob (repository s) job) as [m r] eqn:E. cbn in *. split_and!; [done..|].
  intros u ->. unfold CreateJob in E. case_match; simplify_eq. unfold job_at. cbn. rewrite lookup_insert_eq. eexists. split; [done|].
  by rewrite cloneJob_id.
Qed.
End scope.

Abbreviation safe PS := (safe_to PS (λ _ _, True)).
Abbreviation answers PS := (safe_to PS (λ _ resp, shows PS (rs_body resp))).

(** Transport what is known about jobs over a step. *)
Ltac carry Hk :=
  repeat match type of Hk with grows ?k ?k' =>
    match goal with H : job_at k _ _ |- _ => apply (job_at_mono _ _ _ _ Hk) in H end end;
  clear Hk.
Ltac seen := let k := fresh "k" in let a := fresh "a" in let Hk := fresh "Hk" in intros k a Hk; carry Hk.

(** The case analysis a program makes next. *)
Ltac branch := match goal with |- safe_to _ _ _ (match ?x with _ => _ end) => destruct x end.

(** The end of a program; a response that shows nothing needs no argument. *)
Ltac answer :=
  first [apply safe_ret
        | constructor; cbn [shows rs_body writeJSON writeError];
          first [exact I | match goal with H : global _ |- global _ => exact H | H : reach _ _ |- reach _ _ => exact H end | case_match; exact I]
        | match goal with |- safe_to _ _ _ (Ret (writeStoreError ?e)) => constructor; by destruct e end].

(** Walk through a handler: reads, writes, audits, branches. *)
Ltac safe_prog :=
  repeat first
    [ answer
    | apply safe_host; seen; intros ?
    | apply safe_auditWithRequestID
    | apply safe_seq; [apply safe_auditWithRequestID|seen]
    | apply safe_NewID; seen
    | apply safe_ask; seen
    | eapply (safe_look _ (λ _ _, True)); [done|]; seen; intros _
    | apply safe_other; [by repeat case_match|seen]
    | match goal with |- safe_to _ _ _ (match ?x with _ => _ end) => destruct x eqn:? end
    | progress cbv zeta ].

(** ** Every handler *)

Section handlers.
Context (PS : Principal → Prop) (p : Principal) (Hp : PS p).

Lemma in_reach h : CanAccessHost p h = true → reach PS h.
Proof using Hp. intros H. by exists p. Qed.

Lemma filter_within {T} (f : T → bool) (Q : T → Prop) l : (∀ x, f x = true → Q x) → Forall Q (List.filter f l).
Proof. intros Hf. apply Forall_forall. intros x Hx%list_elem_of_In%filter_In. destruct Hx. by apply Hf. Qed.

Lemma global_reach h : AllHosts p = true → reach PS h.
Proof using Hp. intros H. apply in_reach. unfold CanAccessHost. by rewrite H. Qed.

(** Requests for a host that is out of scope end at once. *)
Ltac scoped id :=
  let E := fresh "Es" in destruct (checkHostScope p id) eqn:E; cbn [negb]; [apply in_reach in E|answer].

Section hosts.
Context (ParseIP : string → bool) (ParseAddr : string → option Addr).
Context {PublicKey : Type} (ParseAuthorizedKey : string → option (PublicKey * string)) (key_Type : PublicKey → string)
  (FingerprintSHA256 MarshalAuthorizedKey : PublicKey → string) (rsa_bits : PublicKey → option (option Z))
  (ParsePrivateKey : string → string → option PublicKey).
Context (marshal_credential : credentialRequest → option string).
Context {W U : Type} `{GCM, KeyWrapper W} (service : Credentials.Service W U).
Context `{StrictDecode createHostRequest, StrictDecode updateHostRequest, StrictDecode pinHostKeyRequest, StrictDecode credentialRequest}.

Lemma createHost_safe k r : answers PS k (createHost ParseIP ParseAddr p r).
Proof using Hp.
  unfold createHost. destruct (AllHosts p) eqn:Ea; cbn [negb]; [|answer]. safe_prog.
  eapply (safe_step _ _ _ _ (OpCreateHost _)); [done..|intros s _ _; by apply global_reach|]. seen; safe_prog. constructor. by apply global_reach.
Qed.

Lemma updateHost_safe k r : answers PS k (updateHost ParseIP ParseAddr p r).
Proof using Hp.
  unfold updateHost. scoped (rq_PathValue r "hostID"). apply safe_host. seen. intros Hid. destruct a as [host|]; [|answer].
  rewrite <-(Hid host eq_refl) in Es. safe_prog. eapply (safe_step _ _ _ _ (OpUpdateHost _ _)); [done..|]. seen. safe_prog.
Qed.

Lemma deleteHost_safe k r : answers PS k (deleteHost p r).
Proof using Hp.
  unfold deleteHost. scoped (rq_PathValue r "hostID"). eapply (safe_step _ _ _ _ (OpDeleteHost _)); [done..|seen; safe_prog].
Qed.

Lemma probeHostKey_safe k probe r : answers PS k (probeHostKey ParseAuthorizedKey key_Type FingerprintSHA256 rsa_bits probe p r).
Proof using Hp.
  unfold probeHostKey. scoped (rq_PathValue r "hostID"). apply safe_host. seen. intros Hid. destruct a; [|answer].
  apply safe_other; [intros s; by case_match|]. seen. destruct a0; cbn [negb]; [|answer].
  apply safe_ask. seen. apply safe_transmit; [done|]. seen.
  apply (safe_bind _ (λ _ resp, shows PS (rs_body resp))); [safe_prog|]. seen. intros Hr. apply safe_other; [done|]. seen. by constructor.
Qed.

Lemma pinHostKey_safe k r : answers PS k (pinHostKey ParseAuthorizedKey key_Type FingerprintSHA256 MarshalAuthorizedKey rsa_bits p r).
Proof using Hp.
  unfold pinHostKey. scoped (rq_PathValue r "hostID"). apply safe_host. seen. intros Hid. destruct a as [host|]; [|answer].
  destruct (decodeJSON _) as [input|e]; [|answer]. destruct (_ || _); [answer|].
  destruct (ParsePinnedHostKey _ _); [|answer]. destruct (validateHostKeyAlgorithm _ _ _); [|answer].
  destruct (negb _); [answer|]. destruct (match _ with None => None | Some pin => _ end); [answer|].
  rewrite <-(Hid host eq_refl) in Es. apply safe_ask. seen. eapply (safe_step _ _ _ _ (OpUpdateHost _ _)); [done..|]. seen. safe_prog.
Qed.

Lemma putCredential_safe k r : answers PS k (putCredential FingerprintSHA256 ParsePrivateKey marshal_credential service p r).
Proof using Hp.
  unfold putCredential. scoped (rq_PathValue r "hostID"). safe_prog.
  eapply (safe_step _ _ _ _ (OpPutCredential _)); [done..|]. seen. safe_prog.
Qed.

Lemma deleteCredential_safe k r : answers PS k (deleteCredential p r).
Proof using Hp.
  unfold deleteCredential. scoped (rq_PathValue r "hostID"). eapply (safe_step _ _ _ _ (OpDeleteCredential _)); [done..|seen; safe_prog].
Qed.

Lemma cancelJob_safe k r : answers PS k (cancelJob p r).
Proof using Hp. unfold cancelJob. safe_prog. constructor. apply in_reach. by apply negb_false_iff. Qed.

Lemma revokeCurrentSession_safe k sha256 r : answers PS k (revokeCurrentSession sha256 p r).
Proof.
  unfold revokeCurrentSession. safe_prog. apply (safe_session _ (λ _, True)); [|clear k0 a|seen; intros _; answer].
  - intros s. by destruct (Revoke _ _ _).
  - intros s [Hs Hk]. split; [|done]. destruct (Revoke _ _ _) as [ss b] eqn:E. split; [done|]. cbn.
    apply Sessions_Revoke_cases in E as [[_ ->]|(_ & stored & Hst & ->)]; [apply Hk|]. cbn. intros h st. rewrite lookup_insert.
    case_decide; [|apply Hk]. intros [= <-]. by apply (Hk _ _ Hst).
Qed.

Lemma readers_safe k r :
  answers PS k (listHosts p r) ∧ answers PS k (getHost p r) ∧ answers PS k (getCredential p r) ∧ answers PS k (listJobs p r) ∧
  answers PS k (getJob p r) ∧ answers PS k (listAuditEvents p r).
Proof using Hp.
  split_and!.
  - unfold listHosts. safe_prog. constructor. cbn. apply filter_within. auto using in_reach.
  - unfold getHost. scoped (rq_PathValue r "hostID"). apply safe_host. seen. intros Hid. destruct a as [host|]; [|answer]. constructor. cbn.
    by rewrite (Hid host eq_refl).
  - unfold getCredential. scoped (rq_PathValue r "hostID"). apply safe_credential. seen. intros Hid. destruct a as [c|]; [|answer].
    constructor. cbn. by rewrite (Hid c eq_refl).
  - unfold listJobs. safe_prog. constructor. cbn. apply filter_within. auto using in_reach.
  - unfold getJob. safe_prog. destruct (checkHostScope p _) eqn:Es; [|answer]. constructor. by apply in_reach.
  - unfold listAuditEvents. safe_prog. constructor. cbn. apply Forall_take, filter_within. intros e He.
    unfold event_visible in He. destruct (event_host e =? "") eqn:E; [left; by apply String.eqb_eq|right]. by apply in_reach.
Qed.
End hosts.

Ltac keeps_tac := intros ?; apply transition_keeps; intros ?; unfold note_error; repeat case_match; done.
(** A mutation of the job at hand. *)
Ltac safe_mutate :=
  eapply (safe_mutateJob _ _ _ _ _ _ _); [eassumption|eassumption|keeps_tac|]; seen; intros ?.

Lemma finishQueuedCancellation_safe k jobID h q code message : job_at k jobID h → reach PS h →
  safe PS k (finishQueuedCancellation jobID q code message).
Proof.
  intros Hj Hr. unfold finishQueuedCancellation. apply safe_ask. seen.
  safe_mutate. safe_prog.
Qed.

Lemma finishJob_safe k jobID h q x state code message : job_at k jobID h → reach PS h →
  safe PS k (finishJob jobID q x state code message).
Proof. intros Hj Hr. unfold finishJob. apply safe_ask. seen. safe_mutate. safe_prog. Qed.

Lemma finishOperationJob_safe k jobID h q x y state code message : job_at k jobID h → reach PS h →
  safe PS k (finishOperationJob jobID q x y state code message).
Proof. intros Hj Hr. unfold finishOperationJob. safe_mutate. safe_prog. Qed.

Lemma failRunbookJob_safe k jobID h q code message : job_at k jobID h → reach PS h → safe PS k (failRunbookJob jobID q code message).
Proof.
  intros Hj Hr. unfold failRunbookJob. eapply safe_mutateJob; [eassumption|eassumption| |].
  - intros now j j'. destruct (negb _); [done|]. by apply transition_keeps.
  - seen. intros _. safe_prog.
Qed.

(** What a step of an endpoint hands on: a response that shows nothing out of
    scope, or a value. *)
Definition hands {A} (Q : A → Prop) (x : result Response A) : Prop :=
  match x with Ok a => Q a | Err resp => shows PS (rs_body resp) end.

Lemma requireSSHJobTarget_safe k r :
  safe_to PS (λ _, hands (λ host, h_ID host = rq_PathValue r "hostID" ∧ reach PS (rq_PathValue r "hostID"))) k (requireSSHJobTarget p r).
Proof using Hp.
  unfold requireSSHJobTarget. cbv zeta. destruct (checkHostScope p _) eqn:Es; cbn [negb]; [apply in_reach in Es|by constructor].
  apply safe_ask. seen. destruct (negb _); [by constructor|]. apply safe_host. seen. intros Hid.
  destruct a0 as [host|e]; [|constructor; by destruct e].
  destruct (h_HostKey host); [|by constructor]. apply safe_ask. seen. destruct a0; [|by constructor].
  constructor. split; [by apply Hid|done].
Qed.

Lemma enqueueSSHJob_safe k r q hostID jobType command details : reach PS hostID →
  safe_to PS (λ _, hands (λ job, reach PS (j_HostID job))) k (enqueueSSHJob r q hostID jobType command details).
Proof.
  intros Hr. unfold enqueueSSHJob. safe_prog. apply safe_createJob; [done|]. seen. intros _. safe_prog. by constructor.
Qed.

Section jobs.
Context (visit : Sessions → list storedSession).
Context (ParseFloat : string → option float64).
Context {PublicKey Signer : Type} (ParseAuthorizedKey : string → option (PublicKey * string))
  (ParsePrivateKey : string → option Signer) (ParsePrivateKeyWithPassphrase : string → string → option Signer).
Context {W U : Type} `{GCM, KeyUnwrapper U} (service : Credentials.Service W U).
Context `{StrictDecode readOnlyCommandRequest, StrictDecode unit, StrictDecode credentialRequest}.
Context (runner : @SshConnector.Config PublicKey → Signer → Command → result go_error Result) (allowPrivateTargets : bool)
  (analyze : list ProcessFinding → result string Outcome).

Lemma job_endpoints_safe k r :
  answers PS k (createReadOnlyCommand p r) ∧ answers PS k (createAnomalyScan p r) ∧ answers PS k (createRuntimeSnapshot p r).
Proof using Hp.
  split_and!; [unfold createReadOnlyCommand|unfold createAnomalyScan|unfold createRuntimeSnapshot];
    (eapply safe_bind; [apply requireSSHJobTarget_safe|]; seen; intros Hh; destruct a as [host|]; [|by constructor];
     destruct Hh as [Hid Hr]; rewrite ?Hid); safe_prog;
    (eapply safe_bind; [by apply enqueueSSHJob_safe|]; seen; intros Hj; case_match; by constructor).
Qed.

Lemma checkQueuedJob_safe k start jobID q perm h : job_at k jobID h → reach PS h →
  safe PS k (checkQueuedJob visit start jobID q perm).
Proof.
  intros Hj Hr. unfold checkQueuedJob. apply safe_ask. seen. destruct a; [|answer]. apply safe_ask. seen. destruct (negb _).
  { apply safe_seq; [by eapply finishQueuedCancellation_safe|seen; answer]. }
  apply safe_ask. seen. destruct a1; [|answer].
  apply safe_seq; [by eapply finishQueuedCancellation_safe|seen; answer].
Qed.

(** The job a goroutine goes on with. *)
Lemma startAuthorizedJob_safe k start jobID q perm h : job_at k jobID h → reach PS h →
  safe_to PS (λ s x, ∀ j, x = Some j → j_ID j = jobID ∧ j_HostID j = h) k (startAuthorizedJob visit start jobID q perm).
Proof.
  intros Hj Hr. unfold startAuthorizedJob. apply safe_seq; [by eapply checkQueuedJob_safe|]. seen. destruct a; cbn [negb]; [|by constructor].
  eapply (safe_mutateJob PS); [eassumption|eassumption|keeps_tac|]. seen. intros Ha. constructor. destruct a; [|done]. intros j [= <-]. by apply Ha.
Qed.

Lemma executeCatalog_safe k job perm command maxOutput : reach PS (j_HostID job) →
  safe PS k (executeCatalog visit ParseAuthorizedKey ParsePrivateKey ParsePrivateKeyWithPassphrase service runner allowPrivateTargets
               job perm command maxOutput).
Proof.
  intros Hr. unfold executeCatalog. apply safe_host. seen. intros Hid. destruct a as [host|]; [|answer].
  safe_prog. unfold ExecuteCatalogCommand. safe_prog. apply safe_transmit; [by rewrite <-(Hid host eq_refl) in Hr|]. seen. answer.
Qed.

Lemma unregisterJob_safe k jobID : safe PS k (unregisterJob jobID).
Proof.
  apply triple_act. intros s Hs _. cbn. by destruct (stays_other PS s (set_jobCancels s (delete jobID (jobCancels s)))).
Qed.

(** The end of a job that is known, whatever its outcome. *)
Ltac safe_finish := first [by eapply finishOperationJob_safe | by eapply finishJob_safe].

Lemma runReadOnlyCommandJob_safe k jobID q h : job_at k jobID h → reach PS h →
  safe PS k (runReadOnlyCommandJob visit ParseAuthorizedKey ParsePrivateKey ParsePrivateKeyWithPassphrase service runner
               allowPrivateTargets jobID q).
Proof.
  intros Hj Hr. unfold runReadOnlyCommandJob. apply safe_ask. seen. eapply safe_bind; [by eapply startAuthorizedJob_safe|].
  seen. intros Ha. apply safe_seq; [|seen; apply unregisterJob_safe]. destruct a0 as [job|]; [|answer].
  destruct (Ha job eq_refl) as [Hid Hh]. destruct (j_Command job) as [stored|]; [|safe_finish].
  destruct (parseReadOnlyCommand _) as [[command d]|]; [|safe_finish].
  apply safe_seq; [apply executeCatalog_safe; by rewrite Hh|]. seen. destruct a0 as [result|e]; [safe_finish|].
  destruct (safeOperationError e "command") as [[state code] message]. safe_finish.
Qed.

Lemma runAnomalyScanJob_safe k jobID q h : job_at k jobID h → reach PS h →
  safe PS k (runAnomalyScanJob visit ParseFloat ParseAuthorizedKey ParsePrivateKey ParsePrivateKeyWithPassphrase service runner
               allowPrivateTargets analyze jobID q).
Proof.
  intros Hj Hr. unfold runAnomalyScanJob. apply safe_ask. seen. eapply safe_bind; [by eapply startAuthorizedJob_safe|].
  seen. intros Ha. apply safe_seq; [|seen; apply unregisterJob_safe]. destruct a0 as [job|]; [|answer].
  destruct (Ha job eq_refl) as [Hid Hh]. apply safe_seq; [apply executeCatalog_safe; by rewrite Hh|]. seen. destruct a0 as [result|e].
  - destruct (ParseProcessInventory _ _) as [ps|]; [|safe_finish]. apply safe_ask. seen. cbv zeta. destruct (analyze _);
      (apply safe_seq; [apply safe_auditWithRequestID|seen; safe_finish]).
  - destruct (safeOperationError e "anomaly scan") as [[state code] message]. safe_finish.
Qed.

Lemma Collect_safe k host signer : reach PS (h_ID host) →
  safe PS k (Collect ParseFloat ParseAuthorizedKey runner allowPrivateTargets host signer).
Proof. intros Hr. unfold Collect. safe_prog. apply safe_transmit; [done|]. seen. safe_prog. Qed.

Lemma runSnapshotJob_safe k jobID q h : job_at k jobID h → reach PS h →
  safe PS k (runSnapshotJob visit ParseFloat ParseAuthorizedKey ParsePrivateKey ParsePrivateKeyWithPassphrase service runner
               allowPrivateTargets jobID q).
Proof.
  intros Hj Hr. unfold runSnapshotJob. apply safe_ask. seen. apply safe_seq; [by eapply checkQueuedJob_safe|]. seen.
  apply (safe_bind _ (λ _ x, ∀ j, x = Some j → j_ID j = jobID ∧ j_HostID j = h)).
  { destruct (negb _); [by constructor|]. apply safe_ask. seen. eapply (safe_mutateJob PS); [eassumption|eassumption|keeps_tac|].
    seen. intros Ha. constructor. destruct a2; [|done]. intros j [= <-]. by apply Ha. }
  seen. intros Ha. apply safe_seq; [|seen; apply unregisterJob_safe]. destruct a1 as [job|]; [|answer].
  destruct (Ha job eq_refl) as [Hid Hh]. apply safe_host. seen. intros Hhost. destruct a1 as [host|]; [|safe_finish].
  apply safe_ask. seen. destruct a1 as [credential|]; [|safe_finish]. apply safe_ask. seen. destruct (negb _); [safe_finish|]. cbv zeta.
  apply safe_ask. seen. apply safe_seq.
  - safe_prog. apply Collect_safe. rewrite (Hhost host eq_refl). by rewrite Hh.
  - seen. destruct a3 as [snapshot|e]; [safe_finish|]. destruct (safeJobError e) as [[state code] message]. safe_finish.
Qed.
End jobs.

Section runbooks.
Context (sha256 : string → string) (visit : Sessions → list storedSession).
Context {W U : Type} `{GCM, KeyUnwrapper U} (service : Credentials.Service W U).
Context `{StrictDecode runbookPreviewRequest, StrictDecode runbookExecuteRequest, StrictDecode credentialRequest, StrictDecode terminalSessionRequest}.
Context (PreviewRunbook : RunbookPreviewRequest → option RunbookPreviewResponse)
  (ExecuteRunbook : RunbookExecuteRequest → option RunbookExecuteResponse) (Issue : IssueRequest → result go_error IssueResponse).

Lemma refusal_shows c q q' ok input preview resp : execution_refusal c q q' ok input preview = Some resp → shows PS (rs_body resp).
Proof. unfold execution_refusal. by repeat case_match; intros [= <-]. Qed.

(** A response with the job that was just written. *)
Ltac safe_final_job Hfin :=
  match type of Hfin with ∀ j, ?a = Ok j → _ =>
    let job := fresh "job" in destruct a as [job|]; [|answer];
    let Hf := fresh "Hf" in destruct (Hfin job eq_refl) as [_ Hf]; safe_prog; constructor; cbn; rewrite Hf end.

Lemma previewRunbook_safe k r : answers PS k (previewRunbook sha256 PreviewRunbook p r).
Proof using Hp.
  unfold previewRunbook. cbv zeta. apply safe_ask. seen. destruct (negb _); [answer|]. scoped (rq_PathValue r "hostID").
  apply safe_host. seen. intros Hid. destruct a0 as [host|]; [|answer]. destruct (h_HostKey host) as [pin|]; [|answer].
  apply safe_ask. seen. destruct a0 as [credential|]; [|answer]. destruct (decodeJSON _) as [input|]; [|answer].
  destruct (_ || _); [answer|]. destruct (negb _); [answer|]. apply safe_NewID. seen. destruct a0 as [jobID|]; [|answer].
  apply safe_ask. seen. apply safe_createJob; [done|]. seen. intros Hjob. destruct a1 as [[]|]; [|answer]. specialize (Hjob tt eq_refl).
  apply safe_seq; [apply safe_auditWithRequestID|]. seen.
  eapply (safe_mutateJob PS); [eassumption|done|keeps_tac|]. seen. intros Hrun. destruct a2 as [job|]; [|answer].
  destruct (Hrun job eq_refl) as [Hid' Hhost]. rewrite Hid'.
  apply safe_transmit; [done|]. seen. destruct (match PreviewRunbook _ with None => None | Some _ => _ end) as [preview|].
  - eapply (safe_mutateJob PS); [eassumption|done|keeps_tac|]. seen. intros Hfin. by safe_final_job Hfin.
  - apply safe_seq; [by eapply failRunbookJob_safe|]. seen. answer.
Qed.

Lemma executeRunbook_safe k r : answers PS k (executeRunbook visit service ExecuteRunbook p r).
Proof using Hp.
  unfold executeRunbook. apply safe_ask. seen. destruct (_ || _); [answer|]. destruct (decodeJSON _) as [input0|]; [|answer].
  cbv zeta. set (input := mkRunbookExecute _ _ _). destruct (_ || _); [answer|]. apply safe_job. seen. intros Hjob.
  destruct a0 as [job|]; [|answer]. destruct (Hjob job eq_refl) as [Hid Hat]. scoped (j_HostID job).
  destruct (_ || _); [answer|]. destruct (j_RunbookPreview job) as [preview|]; [|answer]. apply safe_ask. seen.
  destruct (execution_refusal _ _ _ _ _ _) eqn:Eref; [constructor; by eapply refusal_shows|]. apply safe_ask. seen.
  destruct (match a1 with Err _ => None | Ok host => _ end) as [pin|]; [|answer]. apply safe_ask. seen.
  destruct (match a2 with Err _ => None | Ok _ => _ end) as [credential|]; [|answer].
  rewrite Hid. eapply (safe_mutateJob PS); [eassumption|done|keeps_tac|]. seen. intros Hrun. destruct a3 as [job'|]; [|answer].
  destruct (Hrun job' eq_refl) as [Hid' Hhost]. apply safe_seq.
  { unfold connector_execution. safe_prog. apply safe_transmit; [cbn; by rewrite Hhost|]. seen. answer. }
  seen. unfold finish_execution. destruct (match a3 with None => None | Some _ => _ end) as [execution|]; cbv zeta; rewrite Hid'.
  - eapply (safe_mutateJob PS); [eassumption|done| |].
    + intros now. apply transition_keeps. intros j. by case_match.
    + seen. intros Hfin. by safe_final_job Hfin.
  - apply safe_seq; [by eapply failRunbookJob_safe|]. seen. answer.
Qed.

Lemma createTerminalSession_safe k r : answers PS k (createTerminalSession service Issue p r).
Proof using Hp.
  unfold createTerminalSession. apply safe_ask. seen. destruct (_ || _); [answer|].
  eapply safe_bind; [apply requireSSHJobTarget_safe|]. seen. intros Hh. destruct a0 as [host|]; [|by constructor].
  destruct Hh as [Hid Hr]. destruct (decodeJSON _); [|answer]. cbv zeta. apply safe_ask. seen.
  destruct a1 as [credential|]; [|answer]. apply safe_seq.
  - safe_prog. apply safe_transmit; [cbn; by rewrite Hid|]. seen. answer.
  - seen. destruct a1; [constructor; cbn; by rewrite Hid|]. destruct (webSSHError _) as [[status code] message]. safe_prog.
Qed.
End runbooks.

Section workers.
Context (sha256 : string → string).
Context {W U : Type} `{GCM, KeyWrapper W, KeyUnwrapper U} (service : Credentials.Service W U).
Context `{StrictDecode createWorkerRequest, StrictDecode workerTokenRequest, StrictDecode createWorkerVersionRequest,
          StrictDecode createWorkerDeploymentRequest, StrictDecode unit}.

Lemma is_global : AllHosts p = true → global PS.
Proof using Hp. intros H'. by exists p. Qed.

Ltac global_scope := destruct (AllHosts p) eqn:Eg; cbn [negb]; [apply is_global in Eg|answer].


Lemma createWorker_safe k r : answers PS k (createWorker p r).
Proof using Hp.
  unfold createWorker. global_scope. safe_prog.
  eapply (safe_step _ _ _ _ (OpCreateWorker _)); [done..|]. seen. safe_prog.
Qed.

Lemma putWorkerToken_safe k r : answers PS k (putWorkerToken service p r).
Proof using Hp.
  unfold putWorkerToken. global_scope. safe_prog.
  eapply (safe_step _ _ _ _ (OpPutWorkerToken _)); [done..|]. seen. safe_prog.
Qed.

Lemma deleteWorkerToken_safe k r : answers PS k (deleteWorkerToken p r).
Proof using Hp.
  unfold deleteWorkerToken. global_scope.
  eapply (safe_step _ _ _ _ (OpDeleteWorkerToken _)); [done..|]. seen. safe_prog.
Qed.

Lemma createWorkerVersion_safe k r : answers PS k (createWorkerVersion sha256 p r).
Proof using Hp.
  unfold createWorkerVersion. global_scope. safe_prog.
  eapply (safe_step _ _ _ _ (OpCreateWorkerVersion _)); [done..|]. seen. safe_prog.
Qed.

Lemma createWorkerDeployment_safe k r : answers PS k (createWorkerDeployment p r).
Proof using Hp.
  unfold createWorkerDeployment. global_scope. safe_prog.
  eapply (safe_step _ _ _ _ (OpPlanWorkerDeployment _ _)); [done..|]. seen. safe_prog.
Qed.

Lemma worker_readers_safe k r :
  answers PS k (listWorkers p r) ∧ answers PS k (getWorker p r) ∧ answers PS k (getWorkerToken p r) ∧ answers PS k (listWorkerVersions p r) ∧
  answers PS k (listWorkerDeployments p r).
Proof using Hp.
  split_and!; [unfold listWorkers|unfold getWorker|unfold getWorkerToken|unfold listWorkerVersions|unfold listWorkerDeployments];
    cbv zeta; global_scope; safe_prog; constructor; by destruct a as [|[]].
Qed.

Section execution.
Context {P : Type} `{Provider P} (ctx : context) (newProvider : option (string → string → option P)).

Lemma safe_final {A} k (f : Memory → Memory * A) o :
  (∀ m, (f m).1 = run_op m o) → op_allowed o → (∀ m, op_confined (reach PS) (global PS) m o) → safe PS k (step f).
Proof.
  intros Hf Ho Hop. apply triple_act. intros s Hs Hk. specialize (Hf (repository s)). destruct (f (repository s)) as [m a]. cbn in *. subst m.
  by destruct (run_op_stays PS s o Hs Ho (Hop _)).
Qed.

Lemma record_failure_safe k running v code status : global PS → safe PS k (record_failure running v code status).
Proof.
  intros Hg. unfold record_failure. apply safe_ask. seen. eapply (safe_final _ _ (OpUpdateWorkerDeployment
    (finished running "failed" v (d_ProviderDeploymentID running) (d_ProviderState running) code a) "running")); [|done..].
  intros m. unfold failCloudflareDeploymentCode. change (meanwhile alone 2 m) with m. cbn [run_op]. by destruct (UpdateWorkerDeployment _ _ _) as [m' [|]].
Qed.

Lemma record_provider_failure_safe k running err : global PS → safe PS k (record_provider_failure running err).
Proof.
  intros Hg. unfold record_provider_failure. destruct (classifyCloudflareProviderError err) as [code status]. by apply record_failure_safe.
Qed.

Lemma deployment_program_safe k p' worker version deployment : global PS → safe PS k (deployment_program ctx p' worker version deployment).
Proof.
  intros Hg. unfold deployment_program. apply safe_ask. seen.
  eapply (safe_step _ _ _ _ (OpUpdateWorkerDeployment (CloudflareExecution.started deployment (if d_Kind deployment =? "rollback"
    then wv_ProviderVersionID (sv_Metadata version) else d_ProviderVersionID deployment) a) "ready_for_provider")); [|done..|].
  { intros m. unfold claim_deployment. change (meanwhile alone 0 m) with m. cbn [run_op]. by destruct (UpdateWorkerDeployment _ _ _) as [m' [|]]. }
  seen. destruct a0 as [running|]; [|answer]. destruct (p_ValidateAccess _ _) as [p1 [|e]]; [|by apply record_provider_failure_safe].
  apply safe_seq.
  - unfold upload_program. destruct (negb _); [answer|]. destruct (p_UploadVersion _ _ _) as [p2 [u|e]].
    2: { apply safe_seq; [by apply record_provider_failure_safe|seen; answer]. }
    destruct (_ || _). { apply safe_seq; [by apply record_provider_failure_safe|seen; answer]. }
    apply safe_ask. seen. eapply (safe_step _ _ _ _ (OpUpdateWorkerVersionProvider _ _ _ _ _)); [done..|]. seen.
    branch; [answer|]. apply safe_seq; [by apply record_failure_safe|seen; answer].
  - seen. branch; [answer|]. destruct (release_step _ _ _ _ _) as [p3 [d|e]]; [|by apply record_provider_failure_safe].
    destruct (_ || _); [by apply record_provider_failure_safe|]. apply safe_ask. seen.
    eapply (safe_step _ _ _ _ (OpUpdateWorkerDeployment _ _)); [done..|]. seen. answer.
Qed.

Lemma executeWorkerDeployment_safe k r : answers PS k (executeWorkerDeployment ctx newProvider service p r).
Proof using Hp.
  unfold executeWorkerDeployment. cbv zeta. global_scope. apply safe_ask. seen. destruct (_ || _); [answer|].
  destruct (decodeJSON _); [|answer]. apply safe_ask. seen. destruct a1 as [deployment|]; [|answer].
  destruct (_ || _); [answer|]. apply safe_ask. seen. destruct a1 as [worker|]; [|answer].
  destruct (negb _); [answer|]. apply safe_ask. seen. destruct a1 as [version|]; [|answer].
  destruct (_ && _); [answer|]. apply safe_ask. seen. destruct a1 as [token|[]]; [|answer..].
  apply safe_seq.
  - unfold execute_with_token. destruct (unwrapper service); [|answer]. repeat (case_match; try answer).
    apply safe_seq; [by apply deployment_program_safe|]. seen. answer.
  - seen. safe_prog.
Qed.
End execution.
End workers.
End handlers.

Create HintDb scope.
#[export] Hint Resolve createHost_safe updateHost_safe deleteHost_safe probeHostKey_safe pinHostKey_safe putCredential_safe
  deleteCredential_safe cancelJob_safe revokeCurrentSession_safe previewRunbook_safe executeRunbook_safe createTerminalSession_safe
  createWorker_safe putWorkerToken_safe deleteWorkerToken_safe createWorkerVersion_safe createWorkerDeployment_safe
  executeWorkerDeployment_safe : scope.
