(* ===== verification/ApiDemo.v ===== *)
(** * A small control plane to evaluate the API on

    Concrete instances of what the API takes as parameters: an identity
    digest, a cipher that appends a tag, a key manager, decoders that answer
    with a given value, two hosts and a session.  The theorems about the API
    are evaluated on it. *)

From S2P Require Import Prelude GoStrings Encoding Json Broker Auth AuditTrail Credentials Protocol Model Store SshConnector Prog Api ApiJobs.

Module Demo.
#[export] Instance gcm : GCM := Credentials.demo_gcm.
#[export] Instance gcm_laws : GCMLaws := Credentials.demo_gcm_laws.
#[export] Instance wrapper : KeyWrapper unit := {| kw_KeyID := λ _, "key-1"; WrapKey := λ _ _ k _, Ok (k, "nonce") |}.
#[export] Instance unwrapper : KeyUnwrapper unit := {| ku_KeyID := λ _, "key-1"; UnwrapKey := λ _ k _ _, Ok k |}.
#[export] Instance kms : KMS unit.
Proof. by split; [|intros [] ? ? ? ? ? [= <- <-]]. Qed.
Definition service : Credentials.Service unit unit := mkService tt (Some tt).

(** A decoder that finds this value, and one that accepts nothing. *)
Definition yields {T} (v : T) : StrictDecode T := λ _, Decoded v "".
#[export] Instance rejects {T} : StrictDecode T | 100 := λ _, Malformed.

Definition sha256 (s : string) : string := s.
Definition visit (s : Sessions) : list storedSession := (map_to_list (sessions s)).*2.

(** Keys are their own text, of the type they start with. *)
Definition ParseAuthorizedKey (s : string) : option (string * string) := Some (trim_space s, "").
Definition key_Type (_ : string) : string := "ssh-ed25519".
Definition key_text (k : string) : string := k.
Definition rsa_bits (_ : string) : option (option Z) := None.
Definition parse_key (s passphrase : string) : option string := Some s.
Definition no_ip (_ : string) : bool := false.
Definition no_addr (_ : string) : option Addr := None.

Definition pin (key by_ : string) : HostKeyPin := mkHostKeyPin "ssh-ed25519" key key 0 by_.
Definition host (id : string) (key : option HostKeyPin) : Host := mkHost id "web" "web.example" 22 "root" None key 1 0 0.

Definition config (dev : bool) : Api.Config :=
  mkConfig dev "" hour defaultJobTimeout (12 * second) false true "prod" dev true true true true.

Definition session (role : string) (hosts : list string) : storedSession :=
  mkStored (mkSession (mkPrincipal "alice" role false hosts "session_1") hour) "tok" false.

(** Random bytes: identifiers draw 16, keys 32, nonces 12. *)
Definition bytes (n : nat) : option string := Some "0123456789abcdef".
Definition key_bytes (n : nat) : option string :=
  Some (match n with 0%nat => "0123456789abcdef" | 1%nat => "0123456789abcdef0123456789abcdef" | _ => "123456789012" end).

Definition server (dev : bool) (m : Memory) (role : string) (hosts : list string) : Server :=
  mkServer (config dev) m (mkSessions {["tok" := session role hosts]}) ∅ 0 false 0 bytes 0 [].

Definition request (path : string → string) : Request := mkRequest "Bearer tok" "" 0 path "" "" "req".
Definition path (key value : string) (k : string) : string := if k =? key then value else "".

Definition two_hosts : Memory :=
  (CreateHost (CreateHost NewMemory (host "host_a" None)).1 (host "host_b" None)).1.

(** A host with a pinned key, a credential and a queued job. *)
Definition credential : StoredCredential :=
  mkStoredCredential (mkCredentialMetadata "cred_1" "host_a" "ssh_private_key" "key" "key-1" 0 "alice")
    (mkEnvelope "payload0123456789abcdef" "123456789012" "0123456789abcdef0123456789abcdef" "nonce" "key-1").
Definition queued_job : Job :=
  new_job "job_1" "runtime_snapshot" "host_a" (mkPrincipal "alice" RoleOperator false ["host_a"] "session_1") 0 None.
Definition with_job : Memory :=
  (CreateJob (PutCredential (CreateHost NewMemory (host "host_a" (Some (pin "key" "alice")))).1 credential).1 queued_job).1.
(** Time passes beside the goroutine. *)
Definition later (n : nat) (s : Server) : Server :=
  mkServer (Api.config s) (repository s) (s_sessions s) (jobCancels s) (probeSlots s) (auditFailed s) (clock s + 1) (entropy s) (drawn s) (sent s).
End Demo.
