(* ===== verification/ApiRoutes.v ===== *)
(** * The control-plane HTTP API: routes and confinement

    Models [routes] of [services/control-plane/internal/api/server.go], the
    table of the endpoints behind [require], and composes the whole API: any
    number of requests, job goroutines and broker callbacks run concurrently
    while time passes.  The theorems state what such a system can do in terms
    of the sessions it holds: what it changes, sends and shows stays within
    their scope, and an endpoint does nothing for a session whose role does
    not grant its permission. *)

From S2P Require Import Prelude GoStrings Encoding Json Text Runbook Broker CloudflareProvider CloudflareExecution.
From S2P Require Import Auth AuditTrail Credentials Protocol Snapshot Anomaly Model Store SshConnector Prog Api.
From S2P Require Import ApiJobs ApiWorkers ApiScope ApiDemo.

Section routes.
Context (sha256 : string → string) (visit : Sessions → list storedSession) (verify : string → option Principal).
Context (ParseIP : string → bool) (ParseAddr : string → option Addr) (ParseFloat : string → option float64).
Context {PublicKey Signer : Type} (ParseAuthorizedKey : string → option (PublicKey * string)) (key_Type : PublicKey → string)
  (FingerprintSHA256 MarshalAuthorizedKey : PublicKey → string) (rsa_bits : PublicKey → option (option Z))
  (ParseCredentialKey : string → string → option PublicKey)
  (ParsePrivateKey : string → option Signer) (ParsePrivateKeyWithPassphrase : string → string → option Signer).
Context (marshal_credential : credentialRequest → option string).
Context {W U : Type} `{GCM, KeyWrapper W, KeyUnwrapper U} (service : Credentials.Service W U).
Context `{StrictDecode devSessionRequest, StrictDecode identitySessionRequest, StrictDecode createHostRequest,
          StrictDecode updateHostRequest, StrictDecode pinHostKeyRequest, StrictDecode credentialRequest,
          StrictDecode readOnlyCommandRequest, StrictDecode unit, StrictDecode runbookPreviewRequest,
          StrictDecode runbookExecuteRequest, StrictDecode terminalSessionRequest, StrictDecode createWorkerRequest,
          StrictDecode workerTokenRequest, StrictDecode createWorkerVersionRequest, StrictDecode createWorkerDeploymentRequest}.
Context (probe : string → Z → bool → result probe_error HostKeyObservation)
  (runner : @SshConnector.Config PublicKey → Signer → Command → result go_error Result) (allowPrivateTargets : bool)
  (analyze : list ProcessFinding → result string Outcome)
  (PreviewRunbook : RunbookPreviewRequest → option RunbookPreviewResponse)
  (ExecuteRunbook : RunbookExecuteRequest → option RunbookExecuteResponse) (Issue : IssueRequest → result go_error IssueResponse).
Context {P : Type} `{Provider P} (ctx : context) (newProvider : option (string → string → option P)).

(** The endpoints behind [require], in the order of the table. *)
Definition routes : list (string * Permission * (Principal → Request → prog Server Response)) :=
  [("DELETE /api/v1/sessions/current", SessionRevokeSelf, revokeCurrentSession sha256);
   ("GET /api/v1/hosts", HostsRead, listHosts);
   ("POST /api/v1/hosts", HostsWrite, createHost ParseIP ParseAddr);
   ("GET /api/v1/hosts/{hostID}", HostsRead, getHost);
   ("PATCH /api/v1/hosts/{hostID}", HostsWrite, updateHost ParseIP ParseAddr);
   ("DELETE /api/v1/hosts/{hostID}", HostsDelete, deleteHost);
   ("PUT /api/v1/hosts/{hostID}/host-key", HostKeyPinPerm,
     pinHostKey ParseAuthorizedKey key_Type FingerprintSHA256 MarshalAuthorizedKey rsa_bits);
   ("POST /api/v1/hosts/{hostID}/host-key/probe", HostKeyPinPerm,
     probeHostKey ParseAuthorizedKey key_Type FingerprintSHA256 rsa_bits probe);
   ("GET /api/v1/hosts/{hostID}/credential", CredentialsManage, getCredential);
   ("POST /api/v1/hosts/{hostID}/credential", CredentialsManage,
     putCredential FingerprintSHA256 ParseCredentialKey marshal_credential service);
   ("DELETE /api/v1/hosts/{hostID}/credential", CredentialsManage, deleteCredential);
   ("POST /api/v1/hosts/{hostID}/runtime-snapshots", SnapshotsRun, createRuntimeSnapshot);
   ("POST /api/v1/hosts/{hostID}/commands", CommandsRun, createReadOnlyCommand);
   ("POST /api/v1/hosts/{hostID}/anomaly-scans", AnomalyScansRun, createAnomalyScan);
   ("POST /api/v1/hosts/{hostID}/terminal-sessions", TerminalSessionsOpen, createTerminalSession service Issue);
   ("POST /api/v1/hosts/{hostID}/runbooks/preview", RunbooksPreview, previewRunbook sha256 PreviewRunbook);
   ("GET /api/v1/jobs", JobsRead, listJobs);
   ("GET /api/v1/jobs/{jobID}", JobsRead, getJob);
   ("POST /api/v1/jobs/{jobID}/cancel", JobsCancel, cancelJob);
   ("POST /api/v1/jobs/{jobID}/runbook-execute", RunbooksExecute, executeRunbook visit service ExecuteRunbook);
   ("GET /api/v1/audit-events", AuditRead, listAuditEvents);
   ("GET /api/v1/cloudflare/workers", WorkersRead, listWorkers);
   ("POST /api/v1/cloudflare/workers", WorkersWrite, createWorker);
   ("GET /api/v1/cloudflare/workers/{workerID}", WorkersRead, getWorker);
   ("GET /api/v1/cloudflare/workers/{workerID}/token", WorkerTokensManage, getWorkerToken);
   ("POST /api/v1/cloudflare/workers/{workerID}/token", WorkerTokensManage, putWorkerToken service);
   ("DELETE /api/v1/cloudflare/workers/{workerID}/token", WorkerTokensManage, deleteWorkerToken);
   ("GET /api/v1/cloudflare/workers/{workerID}/versions", WorkersRead, listWorkerVersions);
   ("POST /api/v1/cloudflare/workers/{workerID}/versions", WorkersWrite, createWorkerVersion sha256);
   ("GET /api/v1/cloudflare/workers/{workerID}/deployments", WorkersRead, listWorkerDeployments);
   ("POST /api/v1/cloudflare/workers/{workerID}/deployments", WorkerDeploymentsPlan, createWorkerDeployment);
   ("POST /api/v1/cloudflare/workers/{workerID}/deployments/{deploymentID}/execute", WorkerDeploymentsRun,
     executeWorkerDeployment ctx newProvider service)].

(** The goroutine of a job. *)
Definition goroutine (kind : job_kind) (jobID : string) (principal : Principal) : prog Server unit :=
  match kind with
  | KindSnapshot => runSnapshotJob visit ParseFloat ParseAuthorizedKey ParsePrivateKey ParsePrivateKeyWithPassphrase service runner
                      allowPrivateTargets jobID principal
  | KindCommand => runReadOnlyCommandJob visit ParseAuthorizedKey ParsePrivateKey ParsePrivateKeyWithPassphrase service runner
                     allowPrivateTargets jobID principal
  | KindAnomaly => runAnomalyScanJob visit ParseFloat ParseAuthorizedKey ParsePrivateKey ParsePrivateKeyWithPassphrase service runner
                     allowPrivateTargets analyze jobID principal
  end.

(** ** The running system *)

(** A principal whose hosts are in [R], with a global scope only if [G]. *)
Definition within (R : string → Prop) (G : Prop) (p : Principal) : Prop :=
  (∀ h, CanAccessHost p h = true → R h) ∧ (AllHosts p = true → G).

(** The scope of a session that is issued to a principal. *)
Definition session_scope (p : Principal) : Principal :=
  mkPrincipal (Subject p) (Role p) (AllHosts p) (deduplicate (HostIDs p)) (SessionID p).

(** What may start: a request to any route, with any headers and body; a
    session request that verifies an identity or lacks the bootstrap token;
    the goroutine of a stored job for a host of [R]; the broker's callbacks. *)
Inductive startable (R : string → Prop) (s : Server) : prog Server Response → Prop :=
| start_route pattern permission handler r :
    (pattern, permission, handler) ∈ routes → startable R s (require_permission sha256 permission handler r)
| start_identity r : startable R s (createIdentitySession sha256 verify r)
| start_dev r :
    SecureTokenEqual (rq_DevBootstrap r) (DevBootstrapToken (config s)) = false → startable R s (createDevSession sha256 r)
| start_ready dependencies : startable R s (ready dependencies)
| start_job kind jobID principal job :
    jobs (repository s) !! jobID = Some job → R (j_HostID job) →
    startable R s (goroutine kind jobID principal ≫= λ _, Ret noContent)
| start_authorize a : startable R s (authorizeWebSSH visit a ≫= λ _, Ret noContent)
| start_audit event : startable R s (auditWebSSH event ≫= λ _, Ret noContent).

(** Time passes. *)
Definition set_clock (s : Server) (t : time) : Server :=
  mkServer (config s) (repository s) (s_sessions s) (jobCancels s) (probeSlots s) (auditFailed s) t (entropy s) (drawn s) (sent s).
Definition ticks (s s' : Server) : Prop := ∃ t, clock s ≤ t ∧ s' = set_clock s t.

Definition system (R : string → Prop) : Server * list (prog Server Response) → Server * list (prog Server Response) → Prop :=
  pool_step (startable R) ticks.

Section confinement.
Context (R : string → Prop) (G : Prop).
Context (Hverify : ∀ a p, verify a = Some p → within R G (session_scope p)).
Abbreviation PS := (within R G).

Lemma within_reach h : reach PS h ↔ R h.
Proof.
  split; [intros (p & [Hp _] & Hh); by apply Hp|]. intros Hh. exists (mkPrincipal "" "" false [h] "").
  split; [split; [|done]|]; [intros h'|]; rewrite CanAccessHost_iff; cbn.
  - intros [?|Hin%list_elem_of_singleton]; [done|]. by subst h'.
  - right. by apply list_elem_of_singleton.
Qed.

Lemma within_global : global PS → G.
Proof. intros (p & [_ Hp] & Hg). by apply Hp. Qed.

Lemma confined_mono (R1 R2 : string → Prop) (G1 G2 : Prop) m m' :
  (∀ h, R1 h → R2 h) → (G1 → G2) → confined R1 G1 m m' → confined R2 G2 m m'.
Proof.
  intros HR HG [Ch Cc Cj Ck Cn Cw Ca]. split; [auto..| |done| |auto|done].
  - intros id j Hj Hn. apply Cj; auto.
  - intros id j Hj. destruct (Cn id j Hj); auto.
Qed.

Lemma within_issued p sid :
  PS (session_scope p) → PS (mkPrincipal (Subject p) (Role p) (AllHosts p) (deduplicate (HostIDs p)) sid).
Proof. done. Qed.

(** Sessions are issued to the principal that was verified. *)
Lemma safe_issue {B} k p (c : result string (string * Session) → prog Server B) Q :
  PS (session_scope p) →
  (∀ k' x, grows k k' → (∀ t s, x = Ok (t, s) → PS (sess_principal s)) → safe_to PS Q k' (c x)) →
  safe_to PS Q k (issue sha256 p ≫= c).
Proof.
  intros Hp Hc. apply (safe_session _ (λ x, ∀ t s, x = Ok (t, s) → PS (sess_principal s))); [|clear Hc|done].
  - intros s. by destruct (Auth.Issue _ _ _ _ _ _ _) as [ss x].
  - intros s [Hok Hs]. destruct (Auth.Issue _ _ _ _ _ _ _) as [ss x] eqn:E. cbn. unfold Auth.Issue in E.
    repeat case_match; simplify_eq; (split; [split; [done|]|]); cbn; try done.
    + intros h st. rewrite lookup_insert. case_decide; [intros [= <-]; by apply within_issued|apply Hs].
    + intros t sess [= <- <-]. by apply within_issued.
Qed.

(** The endpoints of the table. *)
Lemma routes_safe pattern permission handler k p r :
  (pattern, permission, handler) ∈ routes → PS p → answers PS k (handler p r).
Proof.
  intros Hin Hp. unfold routes in Hin.
  pose proof (readers_safe PS p Hp k r) as (S1 & S2 & S3 & S4 & S5 & S6).
  pose proof (worker_readers_safe PS p Hp k r) as (T1 & T2 & T3 & T4 & T5).
  pose proof (job_endpoints_safe PS p Hp k r) as (J1 & J2 & J3).
  repeat (apply elem_of_cons in Hin as [[= -> -> ->]|Hin]; [first [assumption | eauto with scope]|]).
  by apply not_elem_of_nil in Hin.
Qed.

Lemma require_permission_safe pattern permission handler k r :
  (pattern, permission, handler) ∈ routes → answers PS k (require_permission sha256 permission handler r).
Proof.
  intros Hin. unfold require_permission.
  apply (safe_session _ (λ x, ∀ p, x = Some p → PS p)).
  - intros s. by destruct (Authenticate _ _ _ _).
  - intros s [Hok Hs]. destruct (Authenticate _ _ _ _) as [ss x] eqn:E. apply Sessions_Authenticate_cases in E as [Hss Hx]. cbn. split.
    + split; [done|]. cbn. intros h st. destruct Hss as [->|(stored & _ & _ & _ & ->)]; [apply Hs|]. cbn.
      rewrite lookup_delete_Some. intros [_ ?]. by apply (Hs h).
    + intros p ->. destruct (Hx p eq_refl) as (_ & stored & Hst & _ & _ & ->). by apply (Hs _ _ Hst).
  - seen. intros Hp. destruct a as [p|]; [|answer]. specialize (Hp p eq_refl).
    destruct (negb _); [safe_prog|by eapply routes_safe].
Qed.

Lemma goroutine_safe k kind jobID q h : job_at k jobID h → reach PS h → safe PS k (goroutine kind jobID q).
Proof.
  intros Hj Hr. destruct kind;
    [by eapply runSnapshotJob_safe|by eapply runReadOnlyCommandJob_safe|by eapply runAnomalyScanJob_safe].
Qed.

Lemma createIdentitySession_safe k r : answers PS k (createIdentitySession sha256 verify r).
Proof using Hverify.
  unfold createIdentitySession. safe_prog. eapply safe_issue; [by eapply Hverify|]. seen. intros Hx.
  destruct a1 as [[t sess]|]; [|answer]. safe_prog. constructor. by eapply Hx.
Qed.

Lemma createDevSession_safe k r :
  SecureTokenEqual (rq_DevBootstrap r) (DevBootstrapToken (config k)) = false → answers PS k (createDevSession sha256 r).
Proof.
  intros Hbad. unfold createDevSession.
  apply (safe_bind _ (λ s c, c = config s)); [apply triple_act; intros s Hs _; split_and!; [done|apply stays_refl|done]|].
  intros k' c [Hc _] ->. rewrite Hc, Hbad. cbn [negb]. safe_prog.
Qed.

Lemma callbacks_safe k :
  (∀ a, answers PS k (authorizeWebSSH visit a ≫= λ _, Ret noContent)) ∧
  (∀ e, answers PS k (auditWebSSH e ≫= λ _, Ret noContent)) ∧ (∀ d, answers PS k (ready d)).
Proof.
  split_and!; intros x.
  - apply safe_seq; [unfold authorizeWebSSH; safe_prog|seen; answer].
  - apply safe_seq; [unfold auditWebSSH; cbv zeta; apply safe_auditWithRequestID|seen; answer].
  - unfold ready. safe_prog.
Qed.

Lemma startable_safe s q : sound_state PS s → startable R s q → answers PS s q.
Proof using Hverify.
  intros Hs [pattern permission handler r Hin|r|r Hbad|d|kind id p job Hj Hr|a|e].
  - by eapply require_permission_safe.
  - apply createIdentitySession_safe.
  - by apply createDevSession_safe.
  - by apply callbacks_safe.
  - apply safe_seq; [|seen; answer]. apply (goroutine_safe _ _ _ _ (j_HostID job)); [by exists job|by apply within_reach].
  - by apply callbacks_safe.
  - by apply callbacks_safe.
Qed.

Lemma ticks_stay s s' : sound_state PS s → ticks s s' → sound_state PS s' ∧ stays PS s s'.
Proof. intros Hs (t & _ & ->). by apply stays_other. Qed.

Lemma system_stays s s' qs :
  sound_state PS s → rtc (system R) (s, []) (s', qs) →
  sound_state PS s' ∧ stays PS s s' ∧ ∀ resp, Ret resp ∈ qs → shows PS (rs_body resp).
Proof using Hverify.
  intros Hs Hr.
  destruct (pool_triples (sound_state PS) (stays PS) grows (stays_grows PS) (λ _ resp, shows PS (rs_body resp))
              (startable R) ticks (s, []) (s', qs)) as (Hs' & Hqs & Hst); [apply startable_safe|apply ticks_stay|done|constructor|done|].
  split_and!; [done| |].
  - cbn in Hst. clear -Hst. induction Hst as [|x y z [_ Hxy] _ IH]; [apply stays_refl|]. by etrans.
  - intros resp Hresp. rewrite Forall_forall in Hqs. destruct (Hqs _ Hresp) as (k & _ & Hk). by inversion Hk.
Qed.
End confinement.
End routes.

(** C1: Whatever requests, job goroutines and callbacks run
    concurrently, and however their steps interleave while time passes, when
    every session is within the hosts [R], and verified identities are too,
    then hosts, credentials and jobs of other hosts stay as they are, workers
    change only with a global scope, audit events are only added, nothing is
    sent to a host outside [R], no response shows anything outside, and the
    repository stays consistent. *)
Theorem api_confinement sha256 visit verify ParseIP ParseAddr ParseFloat {PublicKey Signer : Type} ParseAuthorizedKey key_Type
    FingerprintSHA256 MarshalAuthorizedKey rsa_bits ParseCredentialKey ParsePrivateKey ParsePrivateKeyWithPassphrase
    marshal_credential {W U : Type} `{GCM, KeyWrapper W, KeyUnwrapper U} (service : Credentials.Service W U)
    `{StrictDecode devSessionRequest, StrictDecode identitySessionRequest, StrictDecode createHostRequest,
      StrictDecode updateHostRequest, StrictDecode pinHostKeyRequest, StrictDecode credentialRequest,
      StrictDecode readOnlyCommandRequest, StrictDecode unit, StrictDecode runbookPreviewRequest,
      StrictDecode runbookExecuteRequest, StrictDecode terminalSessionRequest, StrictDecode createWorkerRequest,
      StrictDecode workerTokenRequest, StrictDecode createWorkerVersionRequest, StrictDecode createWorkerDeploymentRequest}
    probe runner allowPrivateTargets analyze PreviewRunbook ExecuteRunbook Issue {P : Type} `{Provider P} ctx newProvider
    (R : string → Prop) (G : Prop) s s' qs :
  store_ok (repository s) →
  (∀ k st, sessions (s_sessions s) !! k = Some st → within R G (sess_principal (ss_session st))) →
  (∀ a p, verify a = Some p → within R G (session_scope p)) →
  rtc (system (PublicKey := PublicKey) (Signer := Signer) sha256 visit verify ParseIP ParseAddr ParseFloat ParseAuthorizedKey key_Type
         FingerprintSHA256 MarshalAuthorizedKey rsa_bits ParseCredentialKey ParsePrivateKey ParsePrivateKeyWithPassphrase
         marshal_credential service probe runner allowPrivateTargets analyze PreviewRunbook ExecuteRunbook Issue ctx newProvider R)
    (s, []) (s', qs) →
  store_ok (repository s') ∧ confined R G (repository s) (repository s') ∧
  (∃ l, sent s' = sent s ++ l ∧ Forall (λ o, R (outbound_host o)) l) ∧
  (∀ resp, Ret resp ∈ qs → shows (within R G) (rs_body resp)).
Proof.
  intros Hok Hs Hv Hr. apply system_stays with (G := G) in Hr as ([Hok' _] & (_ & Hc & l & Hl & Hf) & Hshow); [|done..].
  split_and!; [done| | |done].
  - eapply confined_mono; [|apply within_global|exact Hc]. intros h. apply within_reach.
  - exists l. split; [done|]. eapply Forall_impl; [exact Hf|]. intros o. apply within_reach.
Qed.

Import Demo.

(** An administrator of one host deletes it; the other stays. *)
Definition confinement_request : prog Server Response :=
  require_permission sha256 HostsDelete deleteHost (request (path "hostID" "host_a")).
Definition confinement_start : Server := server true two_hosts RoleAdmin ["host_a"].
Definition confinement_end : Server := (run confinement_request confinement_start).1.

Lemma api_confinement_witness :
  hosts (repository confinement_end) !! "host_a" = None ∧
  confined (λ h, h = "host_a") False (repository confinement_start) (repository confinement_end).
Proof.
  split; [vm_compute; reflexivity|].
  eapply (api_confinement sha256 visit (λ _, None) no_ip no_addr (λ _, None) (PublicKey := string) (Signer := string) ParseAuthorizedKey
    key_Type key_text key_text rsa_bits parse_key Some (λ k _, Some k) (λ _, None) service (λ _ _ _, Err ProbeOther)
    (λ _ _ _, Err (new_error "")) false (λ _, Err "") (λ _, None) (λ _, None) (λ _, Err (new_error "")) (P := list string) None
    (Some (λ _ _, None)) (λ h, h = "host_a") False confinement_start confinement_end
    [Ret (run confinement_request confinement_start).2]).
  - by repeat apply (run_op_ok _ (OpCreateHost _)); [| |apply NewMemory_ok].
  - intros k st. unfold confinement_start, server. cbn [s_sessions sessions]. rewrite lookup_singleton_Some. intros [_ <-]. split; [|done]. intros h. rewrite CanAccessHost_iff.
    intros [[=]|Hh]. by apply list_elem_of_singleton in Hh.
  - done.
  - eapply rtc_l; [|apply (pool_run _ _ confinement_request)]. apply pool_start. eapply start_route.
    apply list_elem_of_In. do 5 right. left. reflexivity.
Defined.
