(* ===== verification/ApiOutcomes.v ===== *)
(** * What becomes of a request and of a job

    Outcomes of the handlers and goroutines of the API, whatever runs beside
    them: a job that is started always ends, with a result or with an error
    code, and is unregistered; a job whose session was revoked is cancelled
    before anything is sent.  The rely of each theorem is what the rest of
    the API never does. *)

From S2P Require Import Prelude GoStrings Encoding Json Text Runbook Broker CloudflareProvider CloudflareExecution.
From S2P Require Import Auth AuditTrail Credentials Protocol Snapshot Anomaly Model Store SshConnector Prog Api.
From S2P Require Import ApiJobs ApiWorkers ApiRoutes ApiDemo.

(** ** Jobs end *)

Section outcome.
Context (jobID : string).

(** Others leave the job alone. *)
Definition job_kept (s s' : Server) : Prop := jobs (repository s') !! jobID = jobs (repository s) !! jobID.

Definition job_is (Q : Job → Prop) (s : Server) : Prop := ∃ j, jobs (repository s) !! jobID = Some j ∧ Q j.
Definition in_state (state : JobState) (j : Job) : Prop := j_State j = state.

(** The job has ended: with a result, or with an error that says why not. *)
Definition ended (has_result : Job → Prop) (j : Job) : Prop :=
  finishing (j_State j) = true ∧ is_Some (j_FinishedAt j) ∧
  (j_State j = JobSucceeded ∧ has_result j ∨ j_State j ≠ JobSucceeded ∧ is_Some (j_Error j)).

Abbreviation outcome := (hoare job_kept).

(** A step that does not write jobs. *)
Lemma outcome_other {A} Q (f : Server → Server * A) :
  (∀ s, jobs (repository (f s).1) = jobs (repository s)) → outcome (job_is Q) (act f) (λ s _, job_is Q s).
Proof. intros Hf. apply hoare_act. intros s s' (j & Hj & HQ) Hk. exists j. by rewrite Hf, Hk. Qed.

Lemma outcome_then {A B} Q (f : Server → Server * A) (k : A → prog Server B) R :
  (∀ s, jobs (repository (f s).1) = jobs (repository s)) → (∀ a, outcome (job_is Q) (k a) R) →
  outcome (job_is Q) (act f ≫= k) R.
Proof. intros Hf Hk. by eapply hoare_bind; [apply outcome_other|]. Qed.

Lemma outcome_ask {A B} Q (f : Server → A) (k : A → prog Server B) R :
  (∀ a, outcome (job_is Q) (k a) R) → outcome (job_is Q) (ask f ≫= k) R.
Proof. intros Hk. by apply outcome_then. Qed.

Lemma outcome_transmit {B} Q o (k : unit → prog Server B) R :
  (∀ a, outcome (job_is Q) (k a) R) → outcome (job_is Q) (transmit o ≫= k) R.
Proof. intros Hk. by apply outcome_then. Qed.

Lemma outcome_audit Q rid p a t i o d : outcome (job_is Q) (auditWithRequestID rid p a t i o d) (λ s _, job_is Q s).
Proof.
  unfold auditWithRequestID. apply outcome_then; [done|]. intros [id|]; [|by apply hoare_ret]. apply outcome_ask. intros now.
  apply outcome_then; [done|]. intros err. by apply outcome_other.
Qed.

(** A transition of the job that is allowed. *)
Lemma outcome_transition {B} from to (edit : Job → Job) (f : time → Job → result store_error Job) Q (k : result store_error Job → prog Server B) R :
  (∀ now, ∃ now', f now = transition to edit now') → CanTransition from to = true →
  (∀ j', j_State j' = to → (finishing to = true → is_Some (j_FinishedAt j')) → Q (edit j')) →
  (∀ j, Q j → outcome (job_is Q) (k (Ok j)) R) →
  outcome (job_is (in_state from)) (mutateJob jobID f ≫= k) R.
Proof.
  intros Hf Hcan HQ Hk. apply (hoare_bind _ _ (λ s r, job_is Q s ∧ ∃ j, r = Ok j ∧ Q j)).
  - apply hoare_act. intros s s' (j & Hj & Hstate) Hkept. unfold job_kept in Hkept. rewrite Hj in Hkept. unfold MutateJob. rewrite Hkept.
    unfold in_state in Hstate. subst from.
    destruct (Hf (clock s')) as [now ->]. unfold transition, TransitionJob. rewrite !cloneJob_id, !Hcan. cbn. rewrite !cloneJob_id.
    set (j' := set_progress _ _ _ _ _). assert (Q (edit j')) as HQ'; [|split; [exists (edit j'); split; [apply lookup_insert_eq|done]|by eexists]].
    apply HQ; [done|]. intros Hfin. unfold j'. cbn. rewrite Hfin. by eexists.
  - intros r env n s Henv [HQs (j & -> & Hj)]. by apply (Hk j).
Qed.

(** *** The ends of a job *)

Lemma note_error_fields j code message :
  j_State (note_error j code message) = j_State j ∧ j_FinishedAt (note_error j code message) = j_FinishedAt j ∧
  (code ≠ "" → is_Some (j_Error (note_error j code message))).
Proof. unfold note_error. destruct (String.eqb_spec code ""); cbn; split_and!; [done..|by eexists]. Qed.

(** A job that fails for a reason. *)
Definition fails (state : JobState) (code : string) : Prop :=
  code ≠ "" ∧ (state = JobFailed ∨ state = JobTimedOut ∨ state = JobCancelled).

Lemma fails_ended has_result state code j : fails state code →
  j_State j = state → (finishing state = true → is_Some (j_FinishedAt j)) → is_Some (j_Error j) → ended has_result j.
Proof. intros [_ Hs] Hj Hf He. destruct Hs as [->|[->| ->]]; (split_and!; [by rewrite Hj|by apply Hf|right; by rewrite Hj]). Qed.

Lemma fails_can state code : fails state code → CanTransition JobRunning state = true.
Proof. intros [_ [->|[->| ->]]]; done. Qed.

Lemma finishQueuedCancellation_ends has_result p code message :
  outcome (job_is (in_state JobQueued)) (finishQueuedCancellation jobID p code message) (λ s _, job_is (ended has_result) s).
Proof.
  unfold finishQueuedCancellation. apply outcome_ask. intros now. eapply (outcome_transition _ _ _ _ (ended _)); [by eexists|done| |].
  - intros j Hj Hf. apply (fails_ended _ JobCancelled "x"); [by split; auto|by destruct j|by destruct j|by eexists].
  - intros j Hj. apply outcome_audit.
Qed.

Lemma finishOperationJob_fails has_result p state code message : fails state code →
  outcome (job_is (in_state JobRunning)) (finishOperationJob jobID p None None state code message) (λ s _, job_is (ended has_result) s).
Proof.
  intros Hfail. unfold finishOperationJob. eapply (outcome_transition _ _ _ _ (ended _)); [by eexists|by eapply fails_can| |].
  - intros j Hj Hf. destruct (note_error_fields (set_operation j None None) code message) as (E1 & E2 & E3).
    eapply fails_ended; [exact Hfail|by rewrite E1|by rewrite E2|]. apply E3, Hfail.
  - intros j Hj. apply outcome_audit.
Qed.

Lemma finishOperationJob_succeeds (has_result : Job → Prop) p command scan : (∀ j, has_result (set_operation j command scan)) →
  outcome (job_is (in_state JobRunning)) (finishOperationJob jobID p command scan JobSucceeded "" "") (λ s _, job_is (ended has_result) s).
Proof.
  intros Hres. unfold finishOperationJob. eapply (outcome_transition _ _ _ _ (ended _)); [by eexists|done| |].
  - intros j Hj Hf. split_and!; [by cbn; rewrite Hj|by apply Hf|left]. split; [done|apply Hres].
  - intros j Hj. apply outcome_audit.
Qed.

Lemma finishJob_fails has_result p state code message : fails state code →
  outcome (job_is (in_state JobRunning)) (finishJob jobID p None state code message) (λ s _, job_is (ended has_result) s).
Proof.
  intros Hfail. unfold finishJob. apply outcome_ask. intros now. eapply (outcome_transition _ _ _ _ (ended _)); [by eexists|by eapply fails_can| |].
  - intros j Hj Hf. destruct (note_error_fields (set_snapshot j None) code message) as (E1 & E2 & E3).
    eapply fails_ended; [exact Hfail|by rewrite E1|by rewrite E2|]. apply E3, Hfail.
  - intros j Hj. apply outcome_audit.
Qed.

Lemma finishJob_succeeds p snapshot :
  outcome (job_is (in_state JobRunning)) (finishJob jobID p (Some snapshot) JobSucceeded "" "")
    (λ s _, job_is (ended (λ j, is_Some (j_Snapshot j))) s).
Proof.
  unfold finishJob. apply outcome_ask. intros now. eapply (outcome_transition _ _ _ _ (ended (λ j, is_Some (j_Snapshot j)))); [by eexists|done| |].
  - intros j Hj Hf. split_and!; [by cbn; rewrite Hj|by apply Hf|left]. split; [done|by eexists].
  - intros j Hj. apply outcome_audit.
Qed.

Lemma safeOperationError_fails e operation :
  let '(state, code, message) := safeOperationError e operation in fails state code.
Proof. unfold safeOperationError. repeat case_match; simplify_eq; (split; [done|by auto]). Qed.

Lemma safeJobError_fails e : let '(state, code, message) := safeJobError e in fails state code.
Proof. unfold safeJobError. repeat case_match; simplify_eq; (split; [done|by auto]). Qed.

(** *** The goroutines *)

Section goroutines.
Context (visit : Sessions → list storedSession).
Context (ParseFloat : string → option float64).
Context {PublicKey Signer : Type} (ParseAuthorizedKey : string → option (PublicKey * string))
  (ParsePrivateKey : string → option Signer) (ParsePrivateKeyWithPassphrase : string → string → option Signer).
Context {W U : Type} `{GCM, KeyUnwrapper U} (service : Credentials.Service W U) `{StrictDecode credentialRequest}.
Context (runner : @SshConnector.Config PublicKey → Signer → Command → result go_error Result) (allowPrivateTargets : bool)
  (analyze : list ProcessFinding → result string Outcome).

Lemma checkQueuedJob_outcome has_result start p perm :
  outcome (job_is (in_state JobQueued)) (checkQueuedJob visit start jobID p perm)
    (λ s proceed, if (proceed : bool) then job_is (in_state JobQueued) s else job_is (ended has_result) s).
Proof.
  unfold checkQueuedJob. apply (hoare_bind _ _ (λ s r, job_is (in_state JobQueued) s ∧ is_ok r = true)).
  { apply hoare_act. intros s s' (j & Hj & Hs) Hk. unfold job_kept in Hk. rewrite Hj in Hk. cbn. unfold GetJob. rewrite Hk.
    split; [by exists j|done]. }
  intros [queued|e]; [|by intros env n s _ [_ ?]]. apply (hoare_conseq _ _ (job_is (in_state JobQueued))) with (Q' :=
    λ s proceed, if (proceed : bool) then job_is (in_state JobQueued) s else job_is (ended has_result) s); [|by intros s []|done].
  apply outcome_ask. intros [q ok]. cbn [snd]. destruct ok; cbn [negb].
  - apply outcome_ask. intros [|]; [|by apply hoare_ret].
    eapply hoare_bind; [apply finishQueuedCancellation_ends|]. intros []. by apply hoare_ret.
  - eapply hoare_bind; [apply finishQueuedCancellation_ends|]. intros []. by apply hoare_ret.
Qed.

(** Whether the job goes on, once it is running. *)
Definition goes_on {A} (has_result : Job → Prop) (s : Server) (x : option A) : Prop :=
  match x with Some _ => job_is (in_state JobRunning) s | None => job_is (ended has_result) s end.

Lemma run_transition has_result (f : time → Job → result store_error Job) :
  (∀ now, ∃ now', f now = transition JobRunning (λ j, j) now') →
  outcome (job_is (in_state JobQueued))
    (r ← mutateJob jobID f; Ret (match r with Err _ => None | Ok job => Some job end)) (goes_on has_result).
Proof.
  intros Hf. eapply (outcome_transition _ _ _ _ (in_state JobRunning)); [done|done|done|]. intros j Hj. by apply hoare_ret.
Qed.

Lemma startAuthorizedJob_outcome has_result start p perm :
  outcome (job_is (in_state JobQueued)) (startAuthorizedJob visit start jobID p perm) (goes_on has_result).
Proof.
  unfold startAuthorizedJob. eapply hoare_bind; [apply (checkQueuedJob_outcome has_result)|]. intros [|]; cbn [negb]; [|by apply hoare_ret].
  apply run_transition. by eexists.
Qed.

(** Talking to the host changes no job. *)
Ltac outcome_prog := repeat first [apply outcome_ask; intros ? | apply outcome_transmit; intros [] | by apply hoare_ret | case_match].

Lemma executeCatalog_outcome Q job perm command maxOutput :
  outcome (job_is Q) (executeCatalog visit ParseAuthorizedKey ParsePrivateKey ParsePrivateKeyWithPassphrase service runner
                        allowPrivateTargets job perm command maxOutput) (λ s _, job_is Q s).
Proof. unfold executeCatalog, ExecuteCatalogCommand. outcome_prog. Qed.

Lemma Collect_outcome Q host signer :
  outcome (job_is Q) (Collect ParseFloat ParseAuthorizedKey runner allowPrivateTargets host signer) (λ s _, job_is Q s).
Proof. unfold Collect. outcome_prog. Qed.

Definition released (has_result : Job → Prop) (s : Server) : Prop := job_is (ended has_result) s ∧ jobCancels s !! jobID = None.

Lemma unregisterJob_outcome has_result :
  outcome (job_is (ended has_result)) (unregisterJob jobID) (λ s _, released has_result s).
Proof. apply hoare_act. intros s s' (j & Hj & HQ) Hk. split; [exists j; by rewrite <-Hj|]. apply lookup_delete_eq. Qed.

(** A body that ends the running job, then unregisters it. *)
Lemma body_outcome {A} has_result (x : option A) (body : A → prog Server unit) :
  (∀ a, outcome (job_is (in_state JobRunning)) (body a) (λ s _, job_is (ended has_result) s)) →
  outcome (λ s, goes_on has_result s x) (_ ← match x with Some a => body a | None => Ret tt end; unregisterJob jobID)
    (λ s _, released has_result s).
Proof.
  intros Hb. apply (hoare_bind _ _ (λ s _, job_is (ended has_result) s)); [|intros []; apply unregisterJob_outcome].
  destruct x as [a|]; [apply Hb|by apply hoare_ret].
Qed.

Definition has_result (kind : job_kind) (j : Job) : Prop :=
  match kind with
  | KindSnapshot => is_Some (j_Snapshot j)
  | KindCommand => is_Some (j_CommandResult j)
  | KindAnomaly => is_Some (j_AnomalyScan j)
  end.

Lemma runReadOnlyCommandJob_outcome p :
  outcome (job_is (in_state JobQueued))
    (runReadOnlyCommandJob visit ParseAuthorizedKey ParsePrivateKey ParsePrivateKeyWithPassphrase service runner allowPrivateTargets jobID p)
    (λ s _, released (has_result KindCommand) s).
Proof.
  unfold runReadOnlyCommandJob. apply outcome_ask. intros start. eapply hoare_bind; [apply startAuthorizedJob_outcome|]. intros x.
  apply body_outcome. intros job. destruct (j_Command job); [|by apply finishOperationJob_fails; split; auto].
  destruct (parseReadOnlyCommand _) as [[command d]|]; [|by apply finishOperationJob_fails; split; auto].
  eapply hoare_bind; [apply executeCatalog_outcome|]. intros [result|e].
  - apply finishOperationJob_succeeds. intros j. by eexists.
  - pose proof (safeOperationError_fails e "command") as He. destruct (safeOperationError e "command") as [[state code] message].
    by apply finishOperationJob_fails.
Qed.

Lemma runAnomalyScanJob_outcome p :
  outcome (job_is (in_state JobQueued))
    (runAnomalyScanJob visit ParseFloat ParseAuthorizedKey ParsePrivateKey ParsePrivateKeyWithPassphrase service runner
       allowPrivateTargets analyze jobID p)
    (λ s _, released (has_result KindAnomaly) s).
Proof.
  unfold runAnomalyScanJob. apply outcome_ask. intros start. eapply hoare_bind; [apply startAuthorizedJob_outcome|]. intros x.
  apply body_outcome. intros job. eapply hoare_bind; [apply executeCatalog_outcome|]. intros [result|e].
  - destruct (ParseProcessInventory _ _) as [ps|]; [|by apply finishOperationJob_fails; split; auto]. apply outcome_ask. intros now. cbv zeta.
    destruct (analyze _); (eapply hoare_bind; [apply outcome_audit|]; intros []).
    + apply finishOperationJob_succeeds. intros j. by eexists.
    + by apply finishOperationJob_fails; split; auto.
  - pose proof (safeOperationError_fails e "anomaly scan") as He. destruct (safeOperationError e "anomaly scan") as [[state code] message].
    by apply finishOperationJob_fails.
Qed.

Lemma runSnapshotJob_outcome p :
  outcome (job_is (in_state JobQueued))
    (runSnapshotJob visit ParseFloat ParseAuthorizedKey ParsePrivateKey ParsePrivateKeyWithPassphrase service runner
       allowPrivateTargets jobID p)
    (λ s _, released (has_result KindSnapshot) s).
Proof.
  unfold runSnapshotJob. apply outcome_ask. intros start.
  eapply hoare_bind; [apply (checkQueuedJob_outcome (has_result KindSnapshot))|]. intros proceed.
  apply (hoare_bind _ _ (goes_on (has_result KindSnapshot))).
  { destruct proceed; cbn [negb]; [|by apply hoare_ret]. apply outcome_ask. intros now. apply run_transition. by eexists. }
  intros x. apply body_outcome. intros job. apply outcome_ask. intros [host|]; [|by apply finishJob_fails; split; auto].
  apply outcome_ask. intros [credential|]; [|by apply finishJob_fails; split; auto]. apply outcome_ask. intros [q ok]. cbn [fst snd].
  destruct ok; cbn [negb]; [|by apply finishJob_fails; split; auto]. cbv zeta. apply outcome_ask. intros c.
  apply (hoare_bind _ _ (λ s _, job_is (in_state JobRunning) s)).
  - destruct (open_credential _ _ _); [|by apply hoare_ret]. destruct (ParseCredentialSigner _ _ _); [apply Collect_outcome|by apply hoare_ret].
  - intros [snapshot|e]; [apply finishJob_succeeds|]. pose proof (safeJobError_fails e) as He.
    destruct (safeJobError e) as [[state code] message]. by apply finishJob_fails.
Qed.
End goroutines.
End outcome.

(** ** Revoked sessions *)

Section revoked.
Context (visit : Sessions → list storedSession) (jobID : string) (perm : Permission) (job : Job) (l : list outbound).

Definition unauthorized (s : Server) : Prop :=
  (AuthorizeSession (visit (s_sessions s)) (j_RequestedSessionID job) perm (j_HostID job) (clock s)).2 = false.

(** Others leave the job alone and send nothing for it, and never restore the session. *)
Definition stays_revoked (s s' : Server) : Prop :=
  jobs (repository s') !! jobID = jobs (repository s) !! jobID ∧ sent s' = sent s ∧ unauthorized s'.

Definition held (j : Job) (s : Server) : Prop := jobs (repository s) !! jobID = Some j ∧ sent s = l.

Lemma held_other {A} j (f : Server → Server * A) :
  (∀ s, jobs (repository (f s).1) = jobs (repository s) ∧ sent (f s).1 = sent s) →
  hoare stays_revoked (held j) (act f) (λ s _, held j s).
Proof. intros Hf. apply hoare_act. intros s s' (Hj & Hl) (Hk & Hs & _). destruct (Hf s') as [E1 E2]. split; congruence. Qed.

Lemma held_then {A B} j (f : Server → Server * A) (k : A → prog Server B) Q :
  (∀ s, jobs (repository (f s).1) = jobs (repository s) ∧ sent (f s).1 = sent s) →
  (∀ a, hoare stays_revoked (held j) (k a) Q) → hoare stays_revoked (held j) (act f ≫= k) Q.
Proof. intros Hf Hk. by eapply hoare_bind; [apply held_other|]. Qed.

Lemma held_audit j rid p a t i o d :
  hoare stays_revoked (held j) (auditWithRequestID rid p a t i o d) (λ s _, held j s).
Proof.
  unfold auditWithRequestID. apply held_then; [done|]. intros [id|]; [|by apply hoare_ret]. apply held_then; [done|]. intros now.
  apply held_then; [done|]. intros err. by apply held_other.
Qed.

Definition expired : JobError := mkJobError "authorization_expired" "job authorization expired or was revoked".
Definition cancelled_at (now : time) : Job := set_error (set_progress job JobCancelled (u64 (j_Version job + 1)) (j_StartedAt job) (Some now)) (Some expired).

Lemma revoked_check start p :
  j_State job = JobQueued →
  hoare stays_revoked (held job) (checkQueuedJob visit start jobID p perm)
    (λ s proceed, (∃ now, held (cancelled_at now) s) ∧ proceed = false).
Proof.
  intros Hq. unfold checkQueuedJob. apply (hoare_bind _ _ (λ s r, held job s ∧ r = Ok job)).
  { apply hoare_act. intros s s' (Hj & Hl) (Hk & Hs & _). cbn. unfold GetJob. rewrite Hk, Hj, cloneJob_id. split_and!; [split; congruence|done]. }
  intros r. apply hoare_pure. intros ->. apply (hoare_bind _ _ (λ s a, held job s ∧ a.2 = false)).
  { apply hoare_act. intros s s' (Hj & Hl) (Hk & Hs & Hu). cbn. split; [split; congruence|done]. }
  intros [q ok]. apply hoare_pure. cbn [snd]. intros ->. cbn [negb]. unfold finishQueuedCancellation.
  apply (hoare_bind _ _ (λ s _, ∃ now, held (cancelled_at now) s)); [|intros []; by apply hoare_ret].
  apply held_then; [done|]. intros now. apply (hoare_bind _ _ (λ s r, held (cancelled_at now) s ∧ is_ok r = true)).
  { apply hoare_act. intros s s' (Hj & Hl) (Hk & Hs & _). unfold MutateJob. rewrite Hk, Hj, cloneJob_id. unfold transition, TransitionJob.
    rewrite Hq. change (CanTransition JobQueued JobCancelled) with true. cbn. rewrite !cloneJob_id. split; [|done]. split; [|cbn; congruence]. apply lookup_insert_eq. }
  intros [j|e]; apply hoare_pure; [|done]. intros _. eapply hoare_conseq; [apply held_audit|done|]. by eexists.
Qed.

(** The goroutine does nothing more. *)
Lemma revoked_rest :
  hoare stays_revoked (λ s, ∃ now, held (cancelled_at now) s) (unregisterJob jobID) (λ s _, ∃ now, held (cancelled_at now) s).
Proof. apply hoare_ex. intros now. eapply hoare_conseq; [by apply held_other|done|]. by eexists. Qed.

Lemma revoked_start start p :
  j_State job = JobQueued →
  hoare stays_revoked (held job) (startAuthorizedJob visit start jobID p perm) (λ s x, (∃ now, held (cancelled_at now) s) ∧ x = None).
Proof.
  intros Hq. unfold startAuthorizedJob. eapply hoare_bind; [by apply revoked_check|]. intros proceed.
  apply hoare_pure. intros ->. by apply hoare_ret.
Qed.
End revoked.

Definition kind_permission (kind : job_kind) : Permission :=
  match kind with KindSnapshot => SnapshotsRun | KindCommand => CommandsRun | KindAnomaly => AnomalyScansRun end.

(** * Properties *)

Section theorems.
Context (visit : Sessions → list storedSession).
Context (ParseFloat : string → option float64).
Context {PublicKey Signer : Type} (ParseAuthorizedKey : string → option (PublicKey * string))
  (ParsePrivateKey : string → option Signer) (ParsePrivateKeyWithPassphrase : string → string → option Signer).
Context {W U : Type} `{GCM, KeyUnwrapper U} (service : Credentials.Service W U) `{StrictDecode credentialRequest}.
Context (runner : @SshConnector.Config PublicKey → Signer → Command → result go_error Result) (allowPrivateTargets : bool)
  (analyze : list ProcessFinding → result string Outcome).

Abbreviation job_goroutine := (goroutine visit ParseFloat ParseAuthorizedKey ParsePrivateKey ParsePrivateKeyWithPassphrase service
  runner allowPrivateTargets analyze).

(** C19: The goroutine of a queued job always ends the job, whatever
    the host, the credential, the key and the analyzer do and whatever happens
    beside it, as long as others leave the job itself alone: the job is
    succeeded with its result, or failed, timed out or cancelled with an error
    code, its finish time is set, and its cancel function is unregistered. *)
Theorem job_settles kind jobID principal env n s job :
  (∀ n s, jobs (repository (env n s)) !! jobID = jobs (repository s) !! jobID) →
  jobs (repository s) !! jobID = Some job → j_State job = JobQueued →
  ∃ j, jobs (repository (run_env (job_goroutine kind jobID principal) env n s).1.1) !! jobID = Some j ∧
    ended (has_result kind) j ∧
    jobCancels (run_env (job_goroutine kind jobID principal) env n s).1.1 !! jobID = None.
Proof.
  intros Henv Hj Hq.
  assert (hoare (job_kept jobID) (job_is jobID (in_state JobQueued)) (job_goroutine kind jobID principal)
    (λ s _, released jobID (has_result kind) s)) as Hh.
  { destruct kind; [apply runSnapshotJob_outcome|apply runReadOnlyCommandJob_outcome|apply runAnomalyScanJob_outcome]. }
  destruct (Hh env n s Henv) as [(j & Hl & He) Hc]; [by exists job|]. by exists j.
Qed.

(** C20: A queued job whose session is no longer authorized for its
    permission and host is cancelled for that reason, and nothing is sent to
    the host. *)
Theorem revoked_job kind jobID principal env n s job :
  (∀ n s, stays_revoked visit jobID (kind_permission kind) job s (env n s)) →
  jobs (repository s) !! jobID = Some job → j_State job = JobQueued →
  ∃ now, jobs (repository (run_env (job_goroutine kind jobID principal) env n s).1.1) !! jobID = Some (cancelled_at job now) ∧
    sent (run_env (job_goroutine kind jobID principal) env n s).1.1 = sent s.
Proof.
  intros Henv Hj Hq. set (l := sent s).
  assert (hoare (stays_revoked visit jobID (kind_permission kind) job) (held jobID l job) (job_goroutine kind jobID principal)
    (λ s _, ∃ now, held jobID l (cancelled_at job now) s)) as Hh; [|by apply (Hh env n s Henv)].
  destruct kind; cbn [goroutine kind_permission]; (apply held_then; [done|]; intros start).
  - eapply hoare_bind; [by apply revoked_check|]. intros proceed. apply hoare_pure. intros ->. apply revoked_rest.
  - eapply hoare_bind; [by apply revoked_start|]. intros x. apply hoare_pure. intros ->. apply revoked_rest.
  - eapply hoare_bind; [by apply revoked_start|]. intros x. apply hoare_pure. intros ->. apply revoked_rest.
Qed.
End theorems.

Import Demo.
#[local] Instance demo_decode : StrictDecode credentialRequest := yields (mkCredentialRequest "private" "").
Definition demo_snapshot : prog Server unit :=
  goroutine visit (λ _, None) ParseAuthorizedKey Some (λ k _, Some k) service (λ _ _ _, Ok (mkResult "" "" 0 0)) false (λ _, Err "")
    KindSnapshot "job_1" (mkPrincipal "alice" RoleOperator false ["host_a"] "session_1").
Definition demo_state : Server := server true with_job RoleOperator ["host_a"].

(** The snapshot of a host that answers succeeds. *)
Lemma job_settles_witness :
  match jobs (repository (run_env demo_snapshot later 0 demo_state).1.1) !! "job_1" with
  | Some j => j_State j = JobSucceeded
  | None => False
  end ∧
  ∃ j, jobs (repository (run_env demo_snapshot later 0 demo_state).1.1) !! "job_1" = Some j ∧ ended (has_result KindSnapshot) j ∧
    jobCancels (run_env demo_snapshot later 0 demo_state).1.1 !! "job_1" = None.
Proof.
  split; [vm_compute; reflexivity|].
  by apply (job_settles visit (λ _, None) ParseAuthorizedKey Some (λ k _, Some k) service (λ _ _ _, Ok (mkResult "" "" 0 0)) false (λ _, Err "")
    KindSnapshot "job_1" (mkPrincipal "alice" RoleOperator false ["host_a"] "session_1") later 0 demo_state queued_job).
Defined.

(** The same job for a session that was revoked. *)
Definition demo_revoked : Server := set_sessions demo_state NewSessions.
Definition forget (n : nat) (s : Server) : Server := later n (set_sessions s NewSessions).
Lemma revoked_job_witness :
  ∃ now, jobs (repository (run_env demo_snapshot forget 0 demo_revoked).1.1) !! "job_1" = Some (cancelled_at queued_job now) ∧
    sent (run_env demo_snapshot forget 0 demo_revoked).1.1 = [].
Proof.
  by apply (revoked_job visit (λ _, None) ParseAuthorizedKey Some (λ k _, Some k) service (λ _ _ _, Ok (mkResult "" "" 0 0)) false (λ _, Err "")
    KindSnapshot "job_1" (mkPrincipal "alice" RoleOperator false ["host_a"] "session_1") forget 0 demo_revoked queued_job).
Defined.
