(* ===== verification/ApiHosts.v ===== *)
(** * Host keys, credentials and commands of the API

    The functional behaviour of the handlers that decide whom the control
    plane trusts: which host key a request may pin, what a stored credential
    opens to, and which commands a job may run; and where a concurrent
    request changes the answer. *)

From S2P Require Import Prelude GoStrings Encoding Json Text Runbook Broker Auth AuditTrail Credentials Protocol.
From S2P Require Import Model Store SshConnector Prog Api ApiJobs ApiDemo.

(** ** Running a handler alone *)

Lemma run_ask {A B} (f : Server → A) (k : A → prog Server B) s : run (ask f ≫= k) s = run (k (f s)) s.
Proof. done. Qed.
Lemma run_look {A B} (f : Memory → A) (k : A → prog Server B) s : run (look f ≫= k) s = run (k (f (repository s))) s.
Proof. done. Qed.
Lemma run_now {B} (k : time → prog Server B) s : run (get_now ≫= k) s = run (k (clock s)) s.
Proof. done. Qed.
Lemma run_act {A B} (f : Server → Server * A) (k : A → prog Server B) s : run (act f ≫= k) s = run (k (f s).2) (f s).1.
Proof. rewrite run_bind. cbn. by destruct (f s). Qed.

(** An audit record changes only the audit log. *)
Definition same_data (s s' : Server) : Prop :=
  config s' = config s ∧ hosts (repository s') = hosts (repository s) ∧ credentials (repository s') = credentials (repository s) ∧
  jobs (repository s') = jobs (repository s) ∧ sent s' = sent s.

Lemma run_audit {B} rid p a t i o d (k : unit → prog Server B) s :
  ∃ s', same_data s s' ∧ run (auditWithRequestID rid p a t i o d ≫= k) s = run (k tt) s'.
Proof.
  rewrite run_bind. eexists. split; [|by destruct (run (auditWithRequestID rid p a t i o d) s).2].
  unfold auditWithRequestID, NewID. rewrite run_act. cbn [fst snd]. by destruct (Model.NewID "audit" _).
Qed.

Ltac audited s' Hs' :=
  unfold audit;
  match goal with |- context [run (auditWithRequestID ?rid ?p ?a ?t ?i ?o ?d ≫= ?k) ?s] =>
    let E := fresh "E" in destruct (run_audit rid p a t i o d k s) as (s' & Hs' & E); rewrite E; clear E end.

Section hosts.
Context {PublicKey : Type} (ParseAuthorizedKey : string → option (PublicKey * string)) (key_Type : PublicKey → string)
  (FingerprintSHA256 MarshalAuthorizedKey : PublicKey → string) (rsa_bits : PublicKey → option (option Z)).
Context `{StrictDecode pinHostKeyRequest}.

(** When a key may take the place of the pinned one. *)
Definition may_pin (p : Principal) (input : pinHostKeyRequest) (old : Host) (fingerprint : string) : Prop :=
  ∀ pin, h_HostKey old = Some pin → hk_FingerprintSHA256 pin ≠ fingerprint →
    pk_Replace input = true ∧ Allowed (Role p) HostKeyReplace = true ∧ hk_FingerprintSHA256 pin = pk_ExpectedCurrentFingerprint input.

Lemma constantStringEqual_eq a b : constantStringEqual a b = true → a = b.
Proof. unfold constantStringEqual. intros [_ E]%andb_true_iff. by apply String.eqb_eq. Qed.

(** A request to pin a host key, when no other request
    interferes, changes the host only when it answers 200; then the stored key
    is of an allowed algorithm, has the fingerprint the operator verified
    independently, the rest of the host is unchanged and its version was the
    one the request named; and a different pinned key was replaced only by a
    principal whose role may replace keys, with an explicit confirmation that
    names the old fingerprint. *)
Theorem pin_host_key p r s :
  store_ok (repository s) →
  let x := run (pinHostKey ParseAuthorizedKey key_Type FingerprintSHA256 MarshalAuthorizedKey rsa_bits p r) s in
  if (rs_status x.2 =? 200)%Z then
    ∃ old input key,
      CanAccessHost p (h_ID old) = true ∧ hosts (repository s) !! rq_PathValue r "hostID" = Some old ∧ decodeJSON (rq_body r) = Ok input ∧
      h_Version old = pk_Version input ∧ validateHostKeyAlgorithm key_Type rsa_bits key = Ok tt ∧
      FingerprintSHA256 key = trim_space (pk_ExpectedFingerprintSHA256 input) ∧ may_pin p input old (FingerprintSHA256 key) ∧
      hosts (repository x.1) = <[h_ID old := with_key old
        (Some (mkHostKeyPin (key_Type key) (FingerprintSHA256 key) (trim_space (MarshalAuthorizedKey key)) (clock s) (Subject p)))
        (u64 (pk_Version input + 1)) (clock s)]> (hosts (repository s))
  else hosts (repository x.1) = hosts (repository s).
Proof.
  intros Hok x. subst x. unfold pinHostKey. destruct (checkHostScope p _) eqn:Es; cbn [negb]; [|done]. rewrite run_look. unfold GetHost.
  destruct (hosts _ !! _) as [old|] eqn:Eh; [|done]. rewrite cloneHost_id.
  destruct (decodeJSON _) as [input|e] eqn:Ed; [|done]. destruct (_ || _); [done|].
  destruct (ParsePinnedHostKey _ _) as [key|]; [|done]. destruct (validateHostKeyAlgorithm _ _ key) as [[]|] eqn:Ev; [|done]. cbv zeta.
  destruct (constantStringEqual (FingerprintSHA256 key) _) eqn:Ef; cbn [negb]; [apply constantStringEqual_eq in Ef|done].
  set (current := match h_HostKey old with Some _ => _ | None => _ end).
  set (denied := match current with Some _ => _ | None => _ end).
  assert (denied = None → may_pin p input old (FingerprintSHA256 key)) as Hmay.
  { unfold denied, current. intros Hd pin Hpin Hne. rewrite Hpin in Hd. destruct (String.eqb_spec (hk_FingerprintSHA256 pin) (FingerprintSHA256 key)); [done|].
    cbn [negb] in Hd. destruct (pk_Replace input), (Allowed (Role p) HostKeyReplace); cbn [negb orb] in Hd; try done.
    destruct (constantStringEqual _ _) eqn:Ec; [|done]. by apply constantStringEqual_eq in Ec. }
  destruct denied as [message|]; [done|]. rewrite run_now. unfold step. rewrite run_act. cbn [fst snd].
  unfold UpdateHost. cbn [h_ID with_key]. assert (h_ID old = rq_PathValue r "hostID") as Hid by (by eapply so_hosts).
  rewrite Hid, Eh. destruct (Z.eqb_spec (h_Version old) (pk_Version input)) as [Ever|]; cbn [negb fst snd]; [|done].
  audited s' Hs'. destruct Hs' as (_ & Hs' & _).
  cbn [run rs_status writeJSON fst snd]. change (200 =? 200)%Z with true. cbv iota.
  exists old, input, key. rewrite Hs', Hid. cbn. rewrite cloneHost_id. split_and!; try done. by apply Hmay.
Qed.
End hosts.

(** ** Updates *)

Section update.
Context (ParseIP : string → bool) (ParseAddr : string → option Addr) `{StrictDecode updateHostRequest}.

(** Whether an update moves the host to another endpoint. *)
Definition moved (old new : Host) : Prop := h_Address new ≠ h_Address old ∨ h_Port new ≠ h_Port old.
#[global] Instance moved_dec old new : base.Decision (moved old new).
Proof. unfold moved. apply _. Defined.

(** An update of a host, when no other request interferes,
    stores only fields that pass the validation, forgets the pinned key exactly
    when the address or the port changes, keeps the identity and creation of
    the host, increments the version it names, and answers 200; any other
    answer leaves the hosts as they were. *)
Theorem update_host p r s :
  store_ok (repository s) →
  let x := run (updateHost ParseIP ParseAddr p r) s in
  if (rs_status x.2 =? 200)%Z then
    ∃ old new input,
      CanAccessHost p (h_ID old) = true ∧ hosts (repository s) !! rq_PathValue r "hostID" = Some old ∧ decodeJSON (rq_body r) = Ok input ∧
      hosts (repository x.1) = <[h_ID old := new]> (hosts (repository s)) ∧
      validateHost ParseIP ParseAddr (h_Name new) (h_Address new) (h_Port new) (h_Username new) (h_Labels new)
        (AllowPrivateTargets (config s)) = Ok tt ∧
      h_HostKey new = (if decide (moved old new) then None else h_HostKey old) ∧
      h_ID new = h_ID old ∧ h_CreatedAt new = h_CreatedAt old ∧ h_Version old = uh_Version input ∧ h_Version new = u64 (h_Version old + 1)
  else hosts (repository x.1) = hosts (repository s).
Proof.
  intros Hok x. subst x. unfold updateHost. destruct (checkHostScope p _) eqn:Es; cbn [negb]; [|done]. rewrite run_look. unfold GetHost.
  destruct (hosts _ !! _) as [old|] eqn:Eh; [|done]. rewrite cloneHost_id.
  destruct (decodeJSON _) as [input|e] eqn:Ed; [|done]. destruct (uh_Version input =? 0)%Z; [done|]. rewrite run_ask. cbv zeta.
  set (host := apply_update old input). destruct (validateHost _ _ _ _ _ _ _ _) as [[]|] eqn:Ev; [|done].
  rewrite run_now. unfold step. rewrite run_act. cbn [fst snd]. unfold UpdateHost. cbn [h_ID with_key].
  assert (h_ID host = rq_PathValue r "hostID") as Hid by (cbn; by eapply so_hosts). rewrite Hid, Eh.
  destruct (Z.eqb_spec (h_Version old) (uh_Version input)) as [Ever|]; cbn [negb fst snd]; [|done].
  audited s' Hs'. destruct Hs' as (_ & Hs' & _). cbn [run rs_status writeJSON fst snd]. change (200 =? 200)%Z with true. cbv iota.
  exists old, (with_key host (if trust_reset old host then None else h_HostKey host) (u64 (uh_Version input + 1)) (clock s)), input.
  change (h_ID old) with (h_ID host). rewrite Hs', Hid. split_and!; try done.
  - cbn. by rewrite cloneHost_id.
  - unfold moved, trust_reset. cbn [h_HostKey h_Address h_Port with_key]. change (h_HostKey host) with (h_HostKey old). clearbody host.
    destruct (String.eqb_spec (h_Address old) (h_Address host)) as [E1|E1], (Z.eqb_spec (h_Port old) (h_Port host)) as [E2|E2];
      cbn [orb negb]; case_decide as Hd; try done; [destruct Hd; congruence|destruct Hd; naive_solver..].
  - cbn. by rewrite Ever.
Qed.
End update.

(** ** Commands *)

(** The command of a job that the API has accepted is
    found in the catalog again when the job runs: parsing the stored
    descriptor gives the same command, so such a job never ends as
    [catalog_invalid]. *)
Theorem accepted_command_runs input command descriptor :
  parseReadOnlyCommand input = Ok (command, descriptor) →
  parseReadOnlyCommand (mkCommandRequest (cd_ID descriptor) (cd_Parameters descriptor)) = Ok (command, descriptor).
Proof.
  unfold parseReadOnlyCommand. cbn [rc_CommandID rc_Parameters]. set (parameters := default ∅ (rc_Parameters input)).
  destruct (negb (1 <? len parameters)%Z) eqn:E1; [|done]. destruct (forallb _ (map_to_list parameters)) eqn:E2; [|done].
  destruct (ReadOnlyCommand _) as [c|] eqn:E3; [|done]. intros [= <- <-]. cbn [cd_ID cd_Parameters].
  assert (default ∅ (if bool_decide (parameters = ∅) then None else Some parameters) = parameters) as -> by (by case_bool_decide).
  rewrite E1, E2. assert (mkReadOnly (c_id c) (default "" (parameters !! "service")) =
    mkReadOnly (rc_CommandID input) (default "" (parameters !! "service"))) as ->; [|by rewrite E3].
  f_equal. revert E3. unfold ReadOnlyCommand. cbn [ro_ID]. by repeat case_match; intros [= <-].
Qed.

Definition demo_command_request : readOnlyCommandRequest := mkCommandRequest CommandServiceStatus (Some {["service" := "nginx"]}).
Definition demo_descriptor : CommandDescriptor := mkCommandDescriptor CommandServiceStatus (Some {["service" := "nginx"]}).
Definition demo_command : Command := mkCommand CommandServiceStatus (default "" (serviceStatusCommands !! "nginx")).
Lemma accepted_command_runs_witness :
  parseReadOnlyCommand (mkCommandRequest (cd_ID demo_descriptor) (cd_Parameters demo_descriptor)) = Ok (demo_command, demo_descriptor).
Proof. apply (accepted_command_runs demo_command_request demo_command demo_descriptor). vm_compute. reflexivity. Defined.

(** ** Credentials *)

Section credential.
Context {PublicKey Signer : Type} (FingerprintSHA256 : PublicKey → string) (ParsePrivateKey : string → string → option PublicKey)
  (signer_of : string → option Signer) (signer_with : string → string → option Signer).
Context (marshal_credential : credentialRequest → option string).
(** The service wraps data keys, and may or may not be able to unwrap them; if it
    can, then those that it has wrapped. *)
Context `{GCM, !GCMLaws} {W U : Type} `{KeyWrapper W, KeyUnwrapper U} (service : Credentials.Service W U).
Context (service_pair : ∀ u, unwrapper service = Some u → kw_KeyID (wrapper service) = ku_KeyID u ∧
  ∀ random dataKey aad wrapped nonce,
    WrapKey (wrapper service) random dataKey aad = Ok (wrapped, nonce) → UnwrapKey u wrapped nonce aad = Ok dataKey).
(** [encoding/json]: decoded strings are valid UTF-8, since invalid bytes become
    U+FFFD; and texts of valid UTF-8 are decoded as they were encoded. *)
Context `{StrictDecode credentialRequest}.
Definition valid_texts (c : credentialRequest) : Prop := utf8_valid (cr_PrivateKey c) = true ∧ utf8_valid (cr_Passphrase c) = true.
Context (decode_valid : ∀ text c rest, strict_decode text = Decoded c rest → valid_texts c).
Context (marshal_decode : ∀ c text, valid_texts c → marshal_credential c = Some text → strict_decode text = Decoded c "").

(** What a job does with the stored credential of its host. *)
Definition job_signer (c : Config) (hostID : string) (credential : StoredCredential) : result go_error Signer :=
  plaintext ← open_credential service credential (credentialAAD c hostID (cm_ID (sc_Metadata credential)));
  ParseCredentialSigner signer_of signer_with plaintext.

(** The signer that the key and the passphrase of a request give. *)
Definition request_signer (input : credentialRequest) : result go_error Signer :=
  match (if cr_Passphrase input =? "" then signer_of (cr_PrivateKey input)
         else signer_with (cr_PrivateKey input) (cr_Passphrase input)) with
  | Some signer => Ok signer
  | None => Err (new_error "stored ssh credential cannot be used")
  end.

Lemma decodeJSON_valid body input : decodeJSON body = Ok input → valid_texts input.
Proof using decode_valid.
  unfold decodeJSON. destruct (strict_decode _) as [v rest| |] eqn:E; [|done..]. intros Hd. assert (v = input) as -> by (by case_match; simplify_eq).
  by eapply decode_valid.
Qed.

(** An accepted credential, opened by the service that sealed it. *)
Lemma sealed_opens envelope text aad r1 r2 r3 metadata :
  Seal service text aad r1 r2 r3 = Ok envelope →
  open_credential service (mkStoredCredential metadata envelope) aad =
  match unwrapper service with Some _ => Ok text | None => Err (new_error "credential decryption is unavailable in this process") end.
Proof using Type*.
  intros Hs. unfold open_credential. cbn [sc_Envelope]. destruct (unwrapper service) as [u|] eqn:Eu; [|unfold Open; by rewrite Eu].
  destruct (service_pair u eq_refl) as [Hid Hun]. destruct (Seal_Ok _ _ _ _ _ _ _ Hs) as (dataKey & Hc & Hk & Hn & Hct & Hw).
  assert (service = mkService (wrapper service) (Some u)) as -> by (destruct service; cbn in *; by subst).
  by rewrite (Open_unwrapped (wrapper service) u envelope aad dataKey text Err (eq_trans Hk Hid) (Hun _ _ _ _ _ Hw) Hc Hn Hct).
Qed.

(** C34: A credential that the API has accepted can be used.  In a process whose
    key service both wraps and unwraps (the development configuration), the stored
    envelope opens, under the context a job computes from the stored record, to the
    key and passphrase of the request, for any cipher and key service that keep
    their laws; in a process that can only wrap (production) it does not open, and
    the job fails with that error.  What is stored is bound to the host of the
    request and to the key that was validated, and answers other than 201 leave the
    stored credentials alone. *)
Theorem credential_usable p r s :
  let x := run (putCredential FingerprintSHA256 ParsePrivateKey marshal_credential service p r) s in
  if (rs_status x.2 =? 201)%Z then
    ∃ input key credential,
      decodeJSON (rq_body r) = Ok input ∧ ParsePrivateKey (cr_PrivateKey input) (cr_Passphrase input) = Some key ∧
      credentials (repository x.1) = <[rq_PathValue r "hostID" := credential]> (credentials (repository s)) ∧
      cm_PublicKeyFingerprint (sc_Metadata credential) = FingerprintSHA256 key ∧
      job_signer (config x.1) (rq_PathValue r "hostID") credential =
        match unwrapper service with
        | Some _ => request_signer input
        | None => Err (new_error "credential decryption is unavailable in this process")
        end
  else credentials (repository x.1) = credentials (repository s).
Proof using Type*.
  intros x. subst x. unfold putCredential. cbv zeta. destruct (checkHostScope p _) eqn:Es; cbn [negb]; [|done]. rewrite run_look.
  destruct (GetHost _ _) as [h|e]; [|by destruct e]. destruct (decodeJSON _) as [input|e] eqn:Ed; [|done]. destruct (_ || _); [done|].
  destruct (ParsePrivateKey _ _) as [key|] eqn:Ek; [|done]. unfold NewID. rewrite run_act. cbn [fst snd].
  destruct (Model.NewID "cred" _) as [id|]; [|done]. destruct (marshal_credential input) as [text|] eqn:Em; [|done].
  rewrite run_ask. unfold seal. rewrite run_act. cbn [fst snd].
  destruct (Seal _ text _ _ _ _) as [envelope|] eqn:Eseal; [|done]. rewrite run_now. unfold step. rewrite run_act. cbn [fst snd].
  unfold PutCredential. cbn [sc_Metadata cm_HostID]. destruct (hosts _ !! _); [|done]. cbn [fst snd].
  audited s' Hs'. destruct Hs' as (Hc & _ & Hcred & _). cbn [run rs_status writeJSON fst snd]. change (201 =? 201)%Z with true. cbv iota.
  eexists input, key, _. rewrite Hc, Hcred. split_and!; [done..|]. rewrite cloneCredential_id. cbn [sc_Metadata cm_ID].
  unfold job_signer. cbn [sc_Metadata cm_ID]. rewrite (sealed_opens _ _ _ _ _ _ _ Eseal). destruct (unwrapper service); [|done].
  cbn [mbind result_bind]. unfold ParseCredentialSigner, decode_stored. by rewrite (marshal_decode _ _ (decodeJSON_valid _ _ Ed) Em).
Qed.
End credential.

Import Demo.

Definition demo_key : credentialRequest := mkCredentialRequest "private" "".
Definition demo_marshal (c : credentialRequest) : option string :=
  if (cr_PrivateKey c =? "private") && (cr_Passphrase c =? "") then Some "payload" else None.
Lemma demo_pair u : Credentials.unwrapper service = Some u → kw_KeyID (Credentials.wrapper service) = ku_KeyID u ∧
  ∀ random dataKey aad wrapped nonce,
    WrapKey (Credentials.wrapper service) random dataKey aad = Ok (wrapped, nonce) → UnwrapKey u wrapped nonce aad = Ok dataKey.
Proof. intros [= <-]. split; [done|]. by intros ? ? ? ? ? [= <- <-]. Qed.
Lemma demo_decode_valid text c rest : yields demo_key text = Decoded c rest → valid_texts c.
Proof. by intros [= <- <-]. Qed.
Lemma demo_marshal_decode c text : valid_texts c → demo_marshal c = Some text → yields demo_key text = Decoded c "".
Proof.
  intros _. unfold demo_marshal. destruct c as [k q]. cbn. destruct (String.eqb_spec k "private") as [->|]; [|done].
  by destruct (String.eqb_spec q "") as [->|].
Qed.
Definition credential_start : Server :=
  mkServer (Demo.config true) two_hosts NewSessions ∅ 0 false 0 key_bytes 0 [].
Definition demo_put : Request := request (path "hostID" "host_a").
Definition demo_admin : Principal := mkPrincipal "alice" RoleAdmin false ["host_a"] "session_1".

Lemma credential_usable_witness :
  ∃ input key credential,
    @decodeJSON _ (yields demo_key) (rq_body demo_put) = Ok input ∧ parse_key (cr_PrivateKey input) (cr_Passphrase input) = Some key ∧
    credentials (repository (run (@putCredential _ key_text parse_key demo_marshal _ _ _ _ service (yields demo_key) demo_admin demo_put) credential_start).1)
      = {["host_a" := credential]} ∧
    cm_PublicKeyFingerprint (sc_Metadata credential) = key ∧
    @job_signer string Some (λ k _, Some k) gcm unit unit Demo.unwrapper service (yields demo_key) (Demo.config true) "host_a" credential =
      request_signer Some (λ k _, Some k) input.
Proof.
  pose proof (@credential_usable string string key_text parse_key Some (λ k _, Some k) demo_marshal gcm gcm_laws unit unit Demo.wrapper Demo.unwrapper
    service demo_pair (yields demo_key) demo_decode_valid demo_marshal_decode demo_admin demo_put credential_start) as Hput. cbv zeta in Hput.
  assert ((rs_status (run (@putCredential _ key_text parse_key demo_marshal _ _ _ _ service (yields demo_key) demo_admin demo_put) credential_start).2
    =? 201)%Z = true) as E by (vm_compute; reflexivity).
  rewrite E in Hput. exact Hput.
Defined.

(** A host that moves loses its pin. *)
Definition pinned_start : Server :=
  server true (CreateHost NewMemory (host "host_a" (Some (pin "key" "bob")))).1 RoleAdmin ["host_a"].
Definition moves (address : string) : updateHostRequest := mkUpdateHost 1 None (Some address) None None None.
Definition demo_update (address : string) : prog Server Response :=
  @updateHost no_ip no_addr (yields (moves address)) demo_admin demo_put.

Lemma update_host_witness :
  ∃ old new input,
    CanAccessHost demo_admin (h_ID old) = true ∧ hosts (repository pinned_start) !! "host_a" = Some old ∧
    @decodeJSON _ (yields (moves "db.example")) "" = Ok input ∧
    hosts (repository (run (demo_update "db.example") pinned_start).1) = <[h_ID old := new]> (hosts (repository pinned_start)) ∧
    validateHost no_ip no_addr (h_Name new) (h_Address new) (h_Port new) (h_Username new) (h_Labels new) false = Ok tt ∧
    h_HostKey new = (if decide (moved old new) then None else h_HostKey old) ∧
    h_ID new = h_ID old ∧ h_CreatedAt new = h_CreatedAt old ∧ h_Version old = uh_Version input ∧ h_Version new = u64 (h_Version old + 1).
Proof.
  pose proof (@update_host no_ip no_addr (yields (moves "db.example")) demo_admin demo_put pinned_start) as Hup. cbv zeta in Hup.
  assert ((rs_status (run (demo_update "db.example") pinned_start).2 =? 200)%Z = true) as E by (vm_compute; reflexivity).
  unfold demo_update in E. rewrite E in Hup. apply Hup. by apply (run_op_ok _ (OpCreateHost _)), NewMemory_ok.
Defined.

(** [updateHost] strips the brackets of the address, and [validateHost]
    strips them again: an address in two pairs of brackets, which
    [createHost] refuses, is stored with one of them by an update. *)
Lemma double_brackets :
  rs_status (run (@createHost no_ip no_addr (yields (mkCreateHost "db" "[[db.example]]" 22 "root" None))
    (mkPrincipal "alice" RoleAdmin true [] "session_1") demo_put) pinned_start).2 = 400 ∧
  rs_status (run (demo_update "[[db.example]]") pinned_start).2 = 200 ∧
  h_Address <$> hosts (repository (run (demo_update "[[db.example]]") pinned_start).1) !! "host_a" = Some "[db.example]".
Proof. vm_compute. by split_and!. Qed.

(** ** A pin that races *)

#[local] Instance demo_pins : StrictDecode pinHostKeyRequest := λ body,
  Decoded (if body =? "admin" then mkPin 1 "good" "good" false "" else mkPin 2 "other" "other" false "") "".
Definition pin_as (role body : string) : prog Server Response :=
  pinHostKey Demo.ParseAuthorizedKey Demo.key_Type key_text key_text Demo.rsa_bits (mkPrincipal "alice" role false ["host_a"] "session_1")
    (mkRequest "" "" 0 (path "hostID" "host_a") "" body "req").
Definition pin_start : Server := server true two_hosts RoleAdmin ["host_a"].
Definition pin_of (s : Server) : option string :=
  match hosts (repository s) !! "host_a" with Some h => hk_FingerprintSHA256 <$> h_HostKey h | None => None end.
(** The administrator's request runs between the operator's read and write. *)
Definition admin_between (n : nat) (s : Server) : Server := if (n =? 2)%nat then (run (pin_as RoleAdmin "admin") s).1 else s.

Lemma pin_host_key_witness :
  ∃ old input key,
    CanAccessHost (mkPrincipal "alice" RoleAdmin false ["host_a"] "session_1") (h_ID old) = true ∧
    hosts (repository pin_start) !! "host_a" = Some old ∧ decodeJSON "admin" = Ok input ∧
    h_Version old = pk_Version input ∧ validateHostKeyAlgorithm Demo.key_Type Demo.rsa_bits key = Ok tt ∧
    key = trim_space (pk_ExpectedFingerprintSHA256 input) ∧
    may_pin (mkPrincipal "alice" RoleAdmin false ["host_a"] "session_1") input old key ∧
    hosts (repository (run (pin_as RoleAdmin "admin") pin_start).1) = <[h_ID old := with_key old
      (Some (mkHostKeyPin "ssh-ed25519" key (trim_space key) 0 "alice")) (u64 (pk_Version input + 1)) 0]> (hosts (repository pin_start)).
Proof.
  pose proof (pin_host_key Demo.ParseAuthorizedKey Demo.key_Type key_text key_text Demo.rsa_bits (mkPrincipal "alice" RoleAdmin false ["host_a"] "session_1")
    (mkRequest "" "" 0 (path "hostID" "host_a") "" "admin" "req") pin_start) as Hpin. cbv zeta in Hpin.
  assert ((rs_status (run (pin_as RoleAdmin "admin") pin_start).2 =? 200)%Z = true) as E by (vm_compute; reflexivity).
  unfold pin_as in E. rewrite E in Hpin. clear E. apply Hpin.
  by repeat apply (run_op_ok _ (OpCreateHost _)); [| |apply NewMemory_ok].
Defined.

(** The handler compares the stored version with the one the
    client names, but decides on, and writes back, the host it read before.
    An operator, whose role may not replace a pinned key, replaces the key an
    administrator has just pinned, by naming the version the host will have:
    after the administrator the same request is refused with 409; run
    around it, it answers 200 and the administrator's key is gone. *)
Theorem pin_race :
  Allowed RoleOperator HostKeyReplace = false ∧
  (let '(s, resp) := run (pin_as RoleAdmin "admin") pin_start in rs_status resp = 200 ∧ pin_of s = Some "good" ∧
     rs_status (run (pin_as RoleOperator "operator") s).2 = 409) ∧
  (let '(s, resp, _) := run_env (pin_as RoleOperator "operator") admin_between 0 pin_start in
     rs_status resp = 200 ∧ pin_of s = Some "other").
Proof. vm_compute. by split_and!. Qed.
