(* ===== verification/ApiRunbooks.v ===== *)
(** * Approval and execution of a runbook through the API

    [executeRunbook] sends a runbook to the Connector only after every check
    of the approval, once per approval, and the job is then finished
    whatever the Connector answers. *)

From S2P Require Import Prelude GoStrings Encoding Json Text Runbook Broker Auth AuditTrail Credentials Protocol.
From S2P Require Import Model Store SshConnector Prog Api ApiJobs ApiDemo ApiHosts.

(** A transition of a stored job. *)
Lemma run_mutate {B} id to edit (f : time → Job → result store_error Job) (k : result store_error Job → prog Server B) s j :
  f (clock s) j = transition to edit (clock s) j → (∀ j, j_State (edit j) = j_State j ∧ j_HostID (edit j) = j_HostID j ∧ j_ID (edit j) = j_ID j) →
  jobs (repository s) !! id = Some j → CanTransition (j_State j) to = true →
  ∃ j', j_State j' = to ∧ j_HostID j' = j_HostID j ∧ j_ID j' = j_ID j ∧
    run (mutateJob id f ≫= k) s = run (k (Ok j')) (set_repository s (with_jobs (repository s) (<[id := j']> (jobs (repository s))))).
Proof.
  intros Hf He Hj Hc. unfold mutateJob. rewrite run_act. unfold MutateJob. rewrite Hj, cloneJob_id, Hf. unfold transition, TransitionJob.
  rewrite Hc. cbn [mbind result_bind guard_ok fst snd]. rewrite !cloneJob_id.
  match goal with |- context [Ok (edit ?x)] => exists (edit x); destruct (He x) as (E1 & E2 & E3) end. by rewrite E1, E2, E3.
Qed.

Ltac mutated to edit j j' Hst Hh Hid :=
  match goal with |- context [run (mutateJob ?id ?f ≫= ?k) ?s] =>
    let E := fresh "E" in destruct (run_mutate id to edit f k s j) as (j' & Hst & Hh & Hid & E); [| | | |rewrite E; clear E] end.

Section runbook.
Context (visit : Sessions → list storedSession).
Context {W U : Type} `{GCM, KeyUnwrapper U} (service : Credentials.Service W U).
Context `{StrictDecode runbookExecuteRequest, StrictDecode credentialRequest}.
Context (ExecuteRunbook : RunbookExecuteRequest → option RunbookExecuteResponse).

(** The checks a principal and a request pass before anything is sent. *)
Record approved (p : Principal) (s : Server) (job : Job) (preview : RunbookPreviewResult) (input : runbookExecuteRequest) : Prop := mkApproved {
  ap_awaiting : j_Type job = "runbook" ∧ j_State job = JobAwaitingApproval ∧ j_RunbookPreview job = Some preview;
  ap_scope : CanAccessHost p (j_HostID job) = true;
  ap_session : ∃ q, AuthorizeSession (visit (s_sessions s)) (j_RequestedSessionID job) RunbooksExecute (j_HostID job) (clock s) = (q, true) ∧
    SessionID q = SessionID p ∧ Subject q = Subject p;
  ap_digest : rx_ScopeDigest input = rp_ScopeDigest preview;
  ap_emergency : rp_Emergency preview = true → rx_IncidentID input ≠ "";
  ap_mutating : rp_Mutating preview = true → MutationsEnabled (config s) = true;
  ap_enabled : rp_ExecutionEnabled preview = true;
}.

Lemma refusal_approved p s job preview input authorized :
  AuthorizeSession (visit (s_sessions s)) (j_RequestedSessionID job) RunbooksExecute (j_HostID job) (clock s) = authorized →
  j_Type job = "runbook" → j_State job = JobAwaitingApproval → j_RunbookPreview job = Some preview → CanAccessHost p (j_HostID job) = true →
  execution_refusal (config s) p authorized.1 authorized.2 input preview = None → approved p s job preview input.
Proof.
  intros Ha Ht Hs Hp Hscope. unfold execution_refusal. destruct authorized as [q ok]. cbn [fst snd].
  destruct (negb ok || _ || _) eqn:E1; [done|]. destruct (negb (constantStringEqual _ _)) eqn:E2; [done|].
  destruct (rp_Emergency preview && _) eqn:E3; [done|]. destruct (rp_Mutating preview && _) eqn:E4; [done|].
  destruct (rp_ExecutionEnabled preview) eqn:E5; [|done]. intros _.
  apply orb_false_iff in E1 as [[E11%negb_false_iff E12%negb_false_iff%String.eqb_eq]%orb_false_iff E13%negb_false_iff%String.eqb_eq].
  apply negb_false_iff, constantStringEqual_eq in E2. subst ok. split; try done.
  - by exists q.
  - intros Hem. rewrite Hem in E3. cbn in E3. by apply String.eqb_neq in E3.
  - intros Hm. rewrite Hm in E4. cbn in E4. by apply negb_false_iff in E4.
Qed.

(** What the Connector is sent, if the credential opens. *)
Lemma run_connector {B} c preview job input key credential (k : option RunbookExecuteResponse → prog Server B) s :
  (∃ r, run (connector_execution service ExecuteRunbook c preview job input key credential ≫= k) s = run (k r) s) ∨
  (∃ r cred, run (connector_execution service ExecuteRunbook c preview job input key credential ≫= k) s =
     run (k r) (set_sent s (sent s ++ [SentExecute (execute_request preview job input key (clock s) cred)]))).
Proof.
  rewrite run_bind. unfold connector_execution. rewrite !run_now.
  destruct (open_credential _ _ _) as [plaintext|]; [|left; by eexists]. destruct (decodeConnectorCredential plaintext) as [cred|]; [|left; by eexists].
  right. cbv zeta. eexists _, cred. reflexivity.
Qed.

(** A running job is failed. *)
Lemma run_failRunbookJob {B} id p code message (k : unit → prog Server B) s j :
  jobs (repository s) !! id = Some j → j_State j = JobRunning →
  ∃ s' j', run (failRunbookJob id p code message ≫= k) s = run (k tt) s' ∧ sent s' = sent s ∧
    jobs (repository s') !! id = Some j' ∧ j_State j' = JobFailed.
Proof.
  intros Hj Hs. unfold failRunbookJob. rewrite run_assoc.
  mutated JobFailed (λ j, set_error j (Some (mkJobError code message))) j j' Hst Hh Hid;
    [by rewrite bool_decide_true|done|done|by rewrite Hs|].
  audited s' Hs'. destruct Hs' as (_ & _ & _ & Hjobs & Hsent).
  exists s', j'. split_and!; [done..|by rewrite Hjobs; cbn; rewrite lookup_insert_eq|done].
Qed.

Definition finished_job (s : Server) (id : string) : Prop := ∃ j, jobs (repository s) !! id = Some j ∧ finishing (j_State j) = true.

(** Whatever the Connector answered, the job is finished. *)
Lemma run_finish_execution r p preview input job execution s :
  jobs (repository s) !! j_ID job = Some job → j_State job = JobRunning →
  let x := run (finish_execution r p preview input job execution) s in finished_job x.1 (j_ID job) ∧ sent x.1 = sent s.
Proof.
  intros Hj Hs x. subst x. unfold finish_execution. destruct (match execution with None => None | Some _ => _ end) as [e|].
  - cbv zeta. set (state := if ex_Status e ≠? "succeeded" then JobFailed else JobSucceeded).
    assert (finishing state = true ∧ CanTransition JobRunning state = true) as [Hfin Hcan] by (unfold state; by case_match).
    match goal with |- context [transition state ?edit] => mutated state edit job job' Hst Hh Hid;
      [done|intros j; by case_bool_decide|done|by rewrite Hs|] end.
    audited s' Hs'. destruct Hs' as (_ & _ & _ & Hjobs & Hsent). cbn. split; [|by rewrite Hsent]. exists job'.
    rewrite Hjobs. cbn. rewrite lookup_insert_eq. by rewrite Hst.
  - destruct (run_failRunbookJob (j_ID job) p "execution_failed" "Runbook execution failed"
      (λ _, Ret (writeError 502 "execution_failed" "Connector could not execute the runbook")) s job) as (s' & j' & E & Hsent & Hl & Hst);
      [done..|]. rewrite E. cbn. split; [|done]. exists j'. by rewrite Hst.
Qed.

(** C4: A runbook is sent to the Connector only when its
    job awaits approval, the session that previewed it is the one that
    approves and still holds the permission, the digest is the previewed one,
    an emergency names its incident, and mutations are enabled for a
    mutating one; what is sent is exactly the previewed binding with that
    digest, one request is sent, and the job is finished afterwards, so an
    approval is never executed again. *)
Theorem runbook_execution_gate p r s :
  store_ok (repository s) →
  let x := run (executeRunbook visit service ExecuteRunbook p r) s in
  sent x.1 = sent s ∨
  ∃ job preview body host pin request,
    decodeJSON (rq_body r) = Ok body ∧ jobs (repository s) !! rq_PathValue r "jobID" = Some job ∧
    approved p s job preview (mkRunbookExecute (rx_ScopeDigest body) (trim_space (rx_Reason body)) (trim_space (rx_IncidentID body))) ∧
    hosts (repository s) !! j_HostID job = Some host ∧ h_HostKey host = Some pin ∧ er_PinnedHostKey request = hk_PublicKey pin ∧
    sent x.1 = sent s ++ [SentExecute request] ∧ er_Binding request = rp_Binding preview ∧
    er_Approval request = mkApproval "approved" (rb_Action (rp_Binding preview)) (j_HostID job) (j_ID job) (rp_ScopeDigest preview) (clock s)
                            (clock s + 5 * minute) ∧
    finished_job x.1 (rq_PathValue r "jobID").
Proof.
  intros Hok x. subst x. unfold executeRunbook. rewrite run_ask. destruct (_ || _); [by left|].
  destruct (decodeJSON _) as [body|] eqn:Ed; [|by left]. cbv zeta. set (input := mkRunbookExecute _ _ _). destruct (_ || _); [by left|].
  rewrite run_look. unfold GetJob. destruct (jobs _ !! _) as [job|] eqn:Ej; [|by left]. rewrite cloneJob_id.
  destruct (checkHostScope p _) eqn:Es; cbn [negb]; [|by left]. destruct (_ || _) eqn:Et; [by left|].
  apply orb_false_iff in Et as [Ety%negb_false_iff%String.eqb_eq Est%negb_false_iff%bool_decide_eq_true].
  destruct (j_RunbookPreview job) as [preview|] eqn:Ep; [|by left]. unfold authorize. rewrite run_ask.
  destruct (execution_refusal _ _ _ _ _ _) eqn:Eref; [by left|]. eapply refusal_approved in Eref; [|reflexivity|done..].
  rewrite run_look. unfold GetHost. destruct (hosts _ !! _) as [host|] eqn:Eh; [|by left]. rewrite cloneHost_id.
  destruct (h_HostKey host) as [pin|] eqn:Epin; [|by left]. rewrite run_look.
  destruct (match GetCredential _ _ with Err _ => None | Ok _ => _ end) as [credential|]; [|by left].
  assert (j_ID job = rq_PathValue r "jobID") as Hid by (by eapply so_jobs). rewrite Hid.
  mutated JobRunning (λ j : Job, j) job running Hst Hh Hrid; [done|done|done|by rewrite Est|].
  set (s1 := set_repository s _). assert (jobs (repository s1) !! rq_PathValue r "jobID" = Some running) as Hj1 by apply lookup_insert_eq.
  assert (sent s1 = sent s ∧ clock s1 = clock s) as [Hsent1 Hclock1] by done.
  rewrite <-Hid, <-Hrid in *. clearbody s1.
  match goal with |- context [run (connector_execution _ _ ?c ?pv ?j ?i ?key ?cred ≫= ?k) ?s0] =>
    destruct (run_connector c pv j i key cred k s0) as [(a & E)|(a & opened & E)]; rewrite E end.
  - left. destruct (run_finish_execution r p preview input running a s1) as [_ Hsent]; [done..|]. congruence.
  - right. destruct (run_finish_execution r p preview input running a
      (set_sent s1 (sent s1 ++ [SentExecute (execute_request preview running input (hk_PublicKey pin) (clock s1) opened)]))) as [Hfin Hsent]; [done..|].
    exists job, preview, body, host, pin, (execute_request preview running input (hk_PublicKey pin) (clock s) opened). rewrite Hsent. cbn [sent set_sent]. rewrite Hsent1, Hclock1 in *.
    split_and!; [done..| |exact Hfin]. cbn. f_equal; congruence.
Qed.
End runbook.

Import Demo.

Definition demo_binding : RunbookBinding :=
  mkRunbookBinding (mkActionRef "service.restart" 1) "host_a" "job_1" (mkTarget "web.example" 22 "root") "key" "key"
    (Protocol.mkParameters "nginx" "" 0 0).
Definition demo_preview : RunbookPreviewResult :=
  mkRunbookPreviewResult "1" "" "preview" "1" demo_binding "digest" "Restart" true false true "never" [].
Definition awaiting_job : Job :=
  mkJob "job_1" "runbook" "host_a" JobAwaitingApproval "alice" "session_1" 0 (Some 0) None None None None None (Some demo_preview) None None 3.
Definition awaiting : Memory :=
  (CreateJob (PutCredential (CreateHost NewMemory (host "host_a" (Some (pin "key" "alice")))).1 Demo.credential).1 awaiting_job).1.
Definition awaiting_server : Server := server true awaiting RoleOperator ["host_a"].
Definition approval_body : runbookExecuteRequest := mkRunbookExecute "digest" "restart after upgrade" "".
Definition operator : Principal := mkPrincipal "alice" RoleOperator false ["host_a"] "session_1".
Definition approval : Request := request (path "jobID" "job_1").
Definition demo_execute : prog Server Response :=
  @executeRunbook visit _ _ _ _ service (yields approval_body) (yields (mkCredentialRequest "private" "")) (λ _, None) operator approval.

Lemma runbook_execution_gate_witness :
  length (sent (run demo_execute awaiting_server).1) = 1%nat ∧
  (sent (run demo_execute awaiting_server).1 = sent awaiting_server ∨
   ∃ job preview body host pin request,
    @decodeJSON _ (yields approval_body) (rq_body approval) = Ok body ∧
    jobs (repository awaiting_server) !! rq_PathValue approval "jobID" = Some job ∧
    approved visit operator awaiting_server job preview
      (mkRunbookExecute (rx_ScopeDigest body) (trim_space (rx_Reason body)) (trim_space (rx_IncidentID body))) ∧
    hosts (repository awaiting_server) !! j_HostID job = Some host ∧ h_HostKey host = Some pin ∧ er_PinnedHostKey request = hk_PublicKey pin ∧
    sent (run demo_execute awaiting_server).1 = sent awaiting_server ++ [SentExecute request] ∧ er_Binding request = rp_Binding preview ∧
    er_Approval request = mkApproval "approved" (rb_Action (rp_Binding preview)) (j_HostID job) (j_ID job) (rp_ScopeDigest preview)
                            (clock awaiting_server) (clock awaiting_server + 5 * minute) ∧
    finished_job (run demo_execute awaiting_server).1 (rq_PathValue approval "jobID")).
Proof.
  split; [vm_compute; reflexivity|]. unfold demo_execute.
  apply (@runbook_execution_gate visit _ _ _ _ service (yields approval_body) (yields (mkCredentialRequest "private" "")) (λ _, None)
    operator approval awaiting_server).
  apply (run_op_ok _ (OpCreateJob _)); [done|]. apply (run_op_ok _ (OpPutCredential _)); [done|].
  apply (run_op_ok _ (OpCreateHost _)); [done|apply NewMemory_ok].
Defined.
