(* ===== verification/Environment.v ===== *)
(** * Configuration from the environment

    What the two processes read from their environment: [os.Getenv] is a
    function, [strconv.ParseBool], the two alphabets of strict standard base64
    and [filepath.Clean] of an absolute path are written out; [time.ParseDuration]
    and [net.SplitHostPort] are parameters of the functions that use them. *)

From S2P Require Import Prelude GoStrings Encoding.

(** [strconv.ParseBool]. *)
Definition ParseBool (s : string) : option bool :=
  if bool_decide (s ∈ ["1"; "t"; "T"; "true"; "TRUE"; "True"]) then Some true
  else if bool_decide (s ∈ ["0"; "f"; "F"; "false"; "FALSE"; "False"]) then Some false
  else None.

(** [base64.RawStdEncoding.Strict().DecodeString]: the quanta of the URL
    alphabet, with [+] and [/] for its last two characters, no padding. *)
Fixpoint url_alphabet (s : string) : option string :=
  match s with
  | EmptyString => Some EmptyString
  | String a r =>
    t ← url_alphabet r;
    if Ascii.eqb a "+" then Some (String "-" t) else if Ascii.eqb a "/" then Some (String "_" t)
    else if Ascii.eqb a "-" || Ascii.eqb a "_" then None else Some (String a t)
  end.
Definition raw_std_decode_strict (s : string) : option string := t ← url_alphabet (drop_newlines s); b64_quanta true t.

(** [filepath.Clean] of an absolute path: its elements without empty ones and
    dots, a double dot removing the one before. *)
Fixpoint clean_elements (kept : list string) (elements : list string) : list string :=
  match elements with
  | [] => rev kept
  | x :: l =>
    if (x =? "") || (x =? ".") then clean_elements kept l
    else if x =? ".." then clean_elements (tail kept) l
    else clean_elements (x :: kept) l
  end.
Definition clean_path (path : string) : string := "/" +:+ join "/" (clean_elements [] (split_char "/" path)).

Section environment.
Context (Getenv : string → string).

(** [strings.TrimSpace(os.Getenv(name))]. *)
Definition trimmed_env (name : string) : string := trim_space (Getenv name).

Definition envOr (name fallback : string) : string :=
  let value := trimmed_env name in if value ≠? "" then value else fallback.

Definition boolEnv (name : string) (fallback : bool) : result string bool :=
  let value := trimmed_env name in
  if value =? "" then Ok fallback else of_option (ParseBool value) (name +:+ " must be true or false").

Definition durationEnv (ParseDuration : string → option duration) (name : string) (fallback : duration) : result string duration :=
  let value := trimmed_env name in
  if value =? "" then Ok fallback
  else match ParseDuration value with
  | Some parsed => if (parsed <=? 0)%Z then Err (name +:+ " must be a positive Go duration") else Ok parsed
  | None => Err (name +:+ " must be a positive Go duration")
  end.

(** A number within bounds, or the default when the variable is empty. *)
Definition numberEnv (name : string) (fallback least most : Z) (message : string) : result string Z :=
  let value := trimmed_env name in
  if value =? "" then Ok fallback
  else match parse_int value with
  | Some parsed => if (parsed <? least)%Z || (most <? parsed)%Z then Err message else Ok parsed
  | None => Err message
  end.
(** A duration within bounds. *)
Definition boundedDurationEnv (ParseDuration : string → option duration) (name : string) (fallback least most : duration) (message : string)
    : result string duration :=
  let value := trimmed_env name in
  if value =? "" then Ok fallback
  else match ParseDuration value with
  | Some parsed => if (parsed <? least)%Z || (most <? parsed)%Z then Err message else Ok parsed
  | None => Err message
  end.
End environment.

(** ** Lemmas *)

Lemma numberEnv_range Getenv name fallback least most message n :
  numberEnv Getenv name fallback least most message = Ok n → least ≤ fallback ≤ most → least ≤ n ≤ most.
Proof.
  unfold numberEnv. destruct (trimmed_env Getenv name =? ""); [intros [= <-]; done|]. destruct (parse_int _) as [k|]; [|done].
  destruct (_ || _) eqn:E; [done|]. apply orb_false_iff in E as [?%Z.ltb_ge ?%Z.ltb_ge]. intros [= <-]. lia.
Qed.

Lemma boundedDurationEnv_range ParseDuration Getenv name fallback least most message d :
  boundedDurationEnv Getenv ParseDuration name fallback least most message = Ok d → least ≤ fallback ≤ most → least ≤ d ≤ most.
Proof.
  unfold boundedDurationEnv. destruct (trimmed_env Getenv name =? ""); [intros [= <-]; done|]. destruct (ParseDuration _) as [k|]; [|done].
  destruct (_ || _) eqn:E; [done|]. apply orb_false_iff in E as [?%Z.ltb_ge ?%Z.ltb_ge]. intros [= <-]. lia.
Qed.

Lemma clean_absolute path : has_prefix "/" (clean_path path) = true.
Proof. unfold clean_path. generalize (join "/" (clean_elements [] (split_char "/" path))). intros s. cbn. by destruct s. Qed.

Example clean_dots : clean_path "/run//vps/./a/../connector.sock" = "/run/vps/connector.sock".
Proof. reflexivity. Qed.
Example raw_key : raw_std_decode_strict "+/+/" = std_decode_strict "+/+/".
Proof. reflexivity. Qed.
