(* ===== verification/ConnectorMain.v ===== *)
(** * The Connector process

    [cmd/connector]: the configuration read from the environment, the listen
    address, the socket that is opened, and the start of the service in
    [run] up to the point where it serves.  The operating system, URL and
    address parsing and [time.ParseDuration] are parameters. *)

From S2P Require Import Prelude GoStrings Encoding Url Environment Protocol ConnectorAuth Runbook Ledger RunbookHandler SshConnector ConnectorWebSSH ConnectorService SshSession.

Record listenSpec := mkListenSpec { network : string; address : string }.

Record webSSHRuntimeConfig := mkWebSSHRuntime {
  ws_origins : list string;
  ws_idleTimeout : duration;
  ws_absoluteTimeout : duration;
  ws_maxConcurrent : Z;
}.

Record config := mkMainConfig {
  mc_listen : listenSpec;
  mc_keyID : string;
  mc_hmacKey : string;
  mc_allowPrivateTargets : bool;
  mc_maxConcurrent : Z;
  mc_webSSHOrigins : list string;
  mc_webSSHIdleTimeout : duration;
  mc_webSSHAbsoluteTimeout : duration;
  mc_webSSHMaxConcurrent : Z;
}.

Record runbookConfig := mkRunbookConfig {
  rc_mutationsEnabled : bool;
  rc_maxConcurrent : Z;
  rc_maxIdempotency : Z;
}.

Definition decodeBase64Key (value : string) : option string :=
  match std_decode_strict value with Some decoded => Some decoded | None => raw_std_decode_strict value end.

Section configuration.
Context (Getenv : string → string) (Parse : string → option URL) (ParseAddr : string → option Addr) (AddrString : Addr → string)
  (SplitHostPort : string → option (string * string)) (ParseDuration : string → option duration).

Definition parseListenSpec (value : string) : result string listenSpec :=
  parsed ← of_option (Parse value) "connector listen address is invalid";
  require (RawQuery parsed =? "") && (Fragment parsed =? "") && negb (HasUser parsed) else "connector listen address is invalid" ;;
  if Scheme parsed =? "tcp" then
    require (Path parsed =? "") && (Host parsed ≠? "") else "TCP connector listen address must be tcp://LOOPBACK_IP:PORT" ;;
    '(host, portText) ← of_option (SplitHostPort (Host parsed)) "TCP connector listen address must include a port";
    ip ← of_option (ParseAddr host) "TCP connector listener must use a loopback IP literal";
    require IsLoopback ip else "TCP connector listener must use a loopback IP literal" ;;
    port ← of_option (parse_int portText) "TCP connector listener port is invalid";
    require (1 <=? port)%Z && (port <=? 65535)%Z else "TCP connector listener port is invalid" ;;
    Ok (mkListenSpec "tcp" (JoinHostPort (AddrString ip) port))
  else if Scheme parsed =? "unix" then
    require (Host parsed =? "") && (Path parsed ≠? "") && has_prefix "/" (Path parsed)
      else "Unix connector listen address must contain an absolute path" ;;
    let cleaned := clean_path (Path parsed) in
    require (slen cleaned <=? 100)%Z else "Unix connector socket path is too long" ;;
    Ok (mkListenSpec "unix" cleaned)
  else Err "connector listener must use tcp:// or unix://".

(** The loop over the origins of the list. *)
Fixpoint nonempty_origins (l : list string) : result string (list string) :=
  match l with
  | [] => Ok []
  | origin :: l =>
    let origin := trim_space origin in
    require origin ≠? "" else "VPSMGR_CONNECTOR_WEBSSH_ALLOWED_ORIGINS contains an empty origin" ;;
    rest ← nonempty_origins l; Ok (origin :: rest)
  end.

Definition loadWebSSHConfig : result string webSSHRuntimeConfig :=
  let value := trimmed_env Getenv "VPSMGR_CONNECTOR_WEBSSH_ALLOWED_ORIGINS" in
  origins ← (if value ≠? "" then nonempty_origins (split_char "," value) else Ok []);
  idle ← boundedDurationEnv Getenv ParseDuration "VPSMGR_CONNECTOR_WEBSSH_IDLE_TIMEOUT" (10 * minute) (30 * second) hour
    "VPSMGR_CONNECTOR_WEBSSH_IDLE_TIMEOUT must be between 30s and 1h";
  absolute ← boundedDurationEnv Getenv ParseDuration "VPSMGR_CONNECTOR_WEBSSH_ABSOLUTE_TIMEOUT" hour minute (8 * hour)
    "VPSMGR_CONNECTOR_WEBSSH_ABSOLUTE_TIMEOUT must be between 1m and 8h";
  require (idle <=? absolute)%Z else "web SSH absolute timeout must not be shorter than idle timeout" ;;
  concurrent ← numberEnv Getenv "VPSMGR_CONNECTOR_WEBSSH_MAX_CONCURRENT" 4 1 64
    "VPSMGR_CONNECTOR_WEBSSH_MAX_CONCURRENT must be between 1 and 64";
  Ok (mkWebSSHRuntime origins idle absolute concurrent).

Definition loadRunbookConfig : result string runbookConfig :=
  let value := trimmed_env Getenv "VPSMGR_CONNECTOR_ENABLE_MUTATIONS" in
  require (value =? "") || (value =? "true") || (value =? "false") else "VPSMGR_CONNECTOR_ENABLE_MUTATIONS must be true or false" ;;
  concurrent ← numberEnv Getenv "VPSMGR_CONNECTOR_RUNBOOK_MAX_CONCURRENT" 4 1 32
    "VPSMGR_CONNECTOR_RUNBOOK_MAX_CONCURRENT must be between 1 and 32";
  idempotency ← numberEnv Getenv "VPSMGR_CONNECTOR_RUNBOOK_IDEMPOTENCY_JOBS" 10000 100 1000000
    "VPSMGR_CONNECTOR_RUNBOOK_IDEMPOTENCY_JOBS must be between 100 and 1000000";
  Ok (mkRunbookConfig (value =? "true") concurrent idempotency).

Definition loadConfig : result string config :=
  let listenValue := envOr Getenv "VPSMGR_CONNECTOR_LISTEN" "tcp://127.0.0.1:9081" in
  parsedListen ← parseListenSpec listenValue;
  let keyID := trimmed_env Getenv "VPSMGR_CONNECTOR_HMAC_KEY_ID" in
  require keyID ≠? "" else "VPSMGR_CONNECTOR_HMAC_KEY_ID is required" ;;
  let encodedKey := trimmed_env Getenv "VPSMGR_CONNECTOR_HMAC_KEY" in
  require encodedKey ≠? "" else "VPSMGR_CONNECTOR_HMAC_KEY is required and must be base64 encoded" ;;
  key ← of_option (decodeBase64Key encodedKey) "VPSMGR_CONNECTOR_HMAC_KEY must be valid base64";
  require (32 <=? slen key)%Z else "VPSMGR_CONNECTOR_HMAC_KEY must decode to at least 32 bytes" ;;
  allowPrivate ← boolEnv Getenv "VPSMGR_CONNECTOR_ALLOW_PRIVATE_TARGETS" false;
  maxConcurrent ← numberEnv Getenv "VPSMGR_CONNECTOR_MAX_CONCURRENT" 8 1 256 "VPSMGR_CONNECTOR_MAX_CONCURRENT must be between 1 and 256";
  webSSH ← loadWebSSHConfig;
  Ok (mkMainConfig parsedListen keyID key allowPrivate maxConcurrent (ws_origins webSSH) (ws_idleTimeout webSSH) (ws_absoluteTimeout webSSH)
        (ws_maxConcurrent webSSH)).
End configuration.

(** ** The listening socket *)

(** What [os.Lstat] finds at a path. *)
Inductive found := Missing | Socket | OtherFile | Unreadable.
Record system := mkSystem {
  Lstat : string → found;
  Listen : string → string → bool;
  Chmod : string → bool;
}.
(** The calls that are made; [Restrict] is [os.Chmod] with a mode. *)
Inductive call := Inspect (path : string) | Open (network address : string) | Restrict (path : string) (mode : Z) | CloseListener | Remove (path : string).

(** [0o600]. *)
Definition owner_only : Z := 384.

Definition listen (sys : system) (spec : listenSpec) : list call * result string listenSpec :=
  let unix := network spec =? "unix" in
  let inspect := if unix then [Inspect (address spec)] else [] in
  let open := inspect ++ [Open (network spec) (address spec)] in
  let after :=
    if negb (Listen sys (network spec) (address spec)) then (open, Err "listen for connector requests")
    else if negb unix then (open, Ok spec)
    else if negb (Chmod sys (address spec)) then
      (open ++ [Restrict (address spec) owner_only; CloseListener], Err "restrict connector Unix socket permissions")
    else (open ++ [Restrict (address spec) owner_only], Ok spec) in
  if negb unix then after
  else match Lstat sys (address spec) with
  | Missing => after
  | Unreadable => (inspect, Err "inspect connector Unix socket path")
  | Socket | OtherFile => (inspect, Err "connector Unix socket path already exists")
  end.

(** The function returned beside the listener, when the process ends. *)
Definition cleanup (sys : system) (spec : listenSpec) : list call :=
  if network spec =? "unix" then
    [CloseListener; Inspect (address spec)] ++
    (match Lstat sys (address spec) with Socket => [Remove (address spec)] | _ => [] end)
  else [CloseListener].

(** ** Start *)

Definition service_options (version : string) (c : config) : Options :=
  mkOptions (mc_keyID c) (mc_hmacKey c) version (mc_allowPrivateTargets c) (mc_maxConcurrent c) 0 0 0 0 0 0
    (mkWebSSHOptions (mc_webSSHOrigins c) 0 0 (mc_webSSHIdleTimeout c) (mc_webSSHAbsoluteTimeout c) (mc_webSSHMaxConcurrent c) 0 0 0 0 0
       (mc_allowPrivateTargets c) 0).
Definition runbook_options (c : config) (r : runbookConfig) : RunbookOptions :=
  mkRunbookOptions (mc_keyID c) (mc_hmacKey c) (rc_mutationsEnabled r) (mc_allowPrivateTargets c) (rc_maxConcurrent r) 0 0 0 0 (rc_maxIdempotency r) 0.

Section start.
Context (Getenv : string → string) (Parse : string → option URL) (ToLower : string → string) (ParseAddr : string → option Addr)
  (AddrString : Addr → string) (SplitHostPort : string → option (string * string)) (ParseDuration : string → option duration).
Context {PublicKey Signer : Type} (sys : system) (version : string).

Record started := mkStarted {
  sd_config : config;
  sd_server : Server;
  sd_state : Connector PublicKey Signer;
  sd_runbooks : RunbookHandler;
  sd_listener : listenSpec;
}.

(** [run] until the server is started: the calls, and what runs. *)
Definition run_connector : list call * result string started :=
  match loadConfig Getenv Parse ParseAddr AddrString SplitHostPort ParseDuration with
  | Err e => ([], Err e)
  | Ok cfg =>
    match loadRunbookConfig Getenv with
    | Err e => ([], Err e)
    | Ok runbookCfg =>
      match ConnectorService.New Parse ToLower (service_options version cfg) with
      | Err e => ([], Err ("configure connector service: " +:+ e))
      | Ok (srv, state) =>
        match NewRunbookHandler (runbook_options cfg runbookCfg) with
        | Err e => ([], Err ("configure connector runbooks: " +:+ e))
        | Ok handler =>
          let '(calls, r) := listen sys (mc_listen cfg) in
          match r with
          | Err e => (calls, Err e)
          | Ok l => (calls, Ok (mkStarted cfg srv state handler l))
          end
        end
      end
    end
  end.
End start.

(** ** Lemmas *)

Section lemmas.
Context (Getenv : string → string) (Parse : string → option URL) (ToLower : string → string) (ParseAddr : string → option Addr)
  (AddrString : Addr → string) (SplitHostPort : string → option (string * string)) (ParseDuration : string → option duration).

(** An address that only the host itself, or its owner, reaches. *)
Definition local_only (l : listenSpec) : Prop :=
  (network l = "tcp" ∧ ∃ host ip port, ParseAddr host = Some ip ∧ IsLoopback ip = true ∧ 1 ≤ port ≤ 65535 ∧
     address l = JoinHostPort (AddrString ip) port) ∨
  (network l = "unix" ∧ has_prefix "/" (address l) = true ∧ slen (address l) ≤ 100).

Lemma parseListenSpec_local value l : parseListenSpec Parse ParseAddr AddrString SplitHostPort value = Ok l → local_only l.
Proof.
  unfold parseListenSpec. intros (u & _ & Hp)%bind_Ok_inv. apply bind_Ok_inv in Hp as (? & _ & Hp). destruct (Scheme u =? "tcp").
  - left. apply bind_Ok_inv in Hp as (? & _ & Hp). apply bind_Ok_inv in Hp as ([host portText] & _ & Hp).
    apply bind_Ok_inv in Hp as (ip & Hip%of_option_Ok & Hp). apply bind_Ok_inv in Hp as (? & Hl%guard_ok_Ok & Hp).
    apply bind_Ok_inv in Hp as (port & _ & Hp). apply bind_Ok_inv in Hp as (? & Hr%guard_ok_Ok & [= <-]).
    apply andb_true_iff in Hr as [?%Z.leb_le ?%Z.leb_le]. split; [done|]. by exists host, ip, port.
  - destruct (Scheme u =? "unix"); [right|done]. apply bind_Ok_inv in Hp as (? & _ & Hp). cbv zeta in Hp.
    apply bind_Ok_inv in Hp as (? & Hs%guard_ok_Ok%Z.leb_le & [= <-]). split_and!; [done|apply clean_absolute|done].
Qed.

Lemma loadWebSSHConfig_range w : loadWebSSHConfig Getenv ParseDuration = Ok w →
  30 * second ≤ ws_idleTimeout w ≤ hour ∧ minute ≤ ws_absoluteTimeout w ≤ 8 * hour ∧ ws_idleTimeout w ≤ ws_absoluteTimeout w ∧
  1 ≤ ws_maxConcurrent w ≤ 64.
Proof.
  unfold loadWebSSHConfig. intros (origins & _ & Hw)%bind_Ok_inv. apply bind_Ok_inv in Hw as (idle & Hi%boundedDurationEnv_range & Hw); [|by vm_compute].
  apply bind_Ok_inv in Hw as (absolute & Ha%boundedDurationEnv_range & Hw); [|by vm_compute]. apply bind_Ok_inv in Hw as (? & Hia%guard_ok_Ok%Z.leb_le & Hw).
  apply bind_Ok_inv in Hw as (n & Hn%numberEnv_range & [= <-]); [|done]. done.
Qed.

Lemma loadConfig_checks c : loadConfig Getenv Parse ParseAddr AddrString SplitHostPort ParseDuration = Ok c →
  local_only (mc_listen c) ∧ 32 ≤ slen (mc_hmacKey c) ∧ 1 ≤ mc_maxConcurrent c ≤ 256 ∧
  30 * second ≤ mc_webSSHIdleTimeout c ≤ hour ∧ minute ≤ mc_webSSHAbsoluteTimeout c ≤ 8 * hour ∧ mc_webSSHIdleTimeout c ≤ mc_webSSHAbsoluteTimeout c ∧
  1 ≤ mc_webSSHMaxConcurrent c ≤ 64.
Proof.
  unfold loadConfig. intros (l & Hl%parseListenSpec_local & Hc)%bind_Ok_inv. apply bind_Ok_inv in Hc as (? & _ & Hc). apply bind_Ok_inv in Hc as (? & _ & Hc).
  apply bind_Ok_inv in Hc as (key & _ & Hc). apply bind_Ok_inv in Hc as (? & Hk%guard_ok_Ok%Z.leb_le & Hc). apply bind_Ok_inv in Hc as (allow & _ & Hc).
  apply bind_Ok_inv in Hc as (n & Hn%numberEnv_range & Hc); [|done]. apply bind_Ok_inv in Hc as (w & Hw%loadWebSSHConfig_range & [= <-]). exact (conj Hl (conj Hk (conj Hn Hw))).
Qed.

Lemma loadRunbookConfig_range r : loadRunbookConfig Getenv = Ok r → 1 ≤ rc_maxConcurrent r ≤ 32 ∧ 100 ≤ rc_maxIdempotency r ≤ 1000000.
Proof.
  unfold loadRunbookConfig. cbv zeta. intros (? & _ & Hr)%bind_Ok_inv. apply bind_Ok_inv in Hr as (n & Hn%numberEnv_range & Hr); [|done].
  apply bind_Ok_inv in Hr as (k & Hk%numberEnv_range & [= <-]); [|done]. done.
Qed.

Lemma or_default_positive v d : 0 < v → or_default v d = v.
Proof. unfold or_default. destruct (Z.leb_spec v 0); [lia|done]. Qed.

Lemma guard_pass {E A} (b : bool) (e : E) (k : result E A) : b = true → (require b else e ;; k) = k.
Proof. by intros ->. Qed.

(** The terminal settings of an accepted configuration. *)
Definition terminal_settings (c : config) (w : settings) : Prop :=
  if bool_decide (mc_webSSHOrigins c = []) then enabled w = false
  else enabled w = true ∧ ConnectorWebSSH.idleTimeout w = mc_webSSHIdleTimeout c ∧ ConnectorWebSSH.absoluteTimeout w = mc_webSSHAbsoluteTimeout c ∧
       cap_concurrency w = mc_webSSHMaxConcurrent c ∧ ConnectorWebSSH.allowPrivateTargets w = mc_allowPrivateTargets c ∧
       normalizeOrigins Parse ToLower (mc_webSSHOrigins c) = Ok (ConnectorWebSSH.origins w).
(** A verifier with the configured key. *)
Definition configured_key (c : config) (v : Verifier) : Prop := ConnectorAuth.keyID v = mc_keyID c ∧ ConnectorAuth.key v = mc_hmacKey c.

Lemma manager_accepts c version :
  mc_webSSHIdleTimeout c ≤ hour → mc_webSSHAbsoluteTimeout c ≤ 8 * hour → mc_webSSHMaxConcurrent c ≤ 64 →
  0 < mc_webSSHIdleTimeout c → 0 < mc_webSSHAbsoluteTimeout c → 0 < mc_webSSHMaxConcurrent c →
  (mc_webSSHOrigins c = [] ∨ is_ok (normalizeOrigins Parse ToLower (mc_webSSHOrigins c)) = true) →
  ∃ w m, newWebSSHManager Parse ToLower (so_WebSSH (service_options version c)) = Ok (w, m) ∧ terminal_settings c w.
Proof.
  intros Hi Ha Hn Pi Pa Pn Ho. unfold newWebSSHManager, terminal_settings. cbn [so_WebSSH service_options op_AllowedOrigins].
  destruct (bool_decide_reflect (mc_webSSHOrigins c = [])) as [E|E]; [by eexists _, _|]. destruct Ho as [?|Ho]; [done|].
  destruct (normalizeOrigins Parse ToLower (mc_webSSHOrigins c)) as [origins|] eqn:Eo; [|done]. cbn [mbind result_bind]. cbv zeta.
  cbn [op_IdleTimeout op_AbsoluteTimeout op_MaxConcurrent op_TicketTTL op_HandshakeTimeout op_MaxOutstandingTickets op_MaxInputMessageBytes
    op_MaxOutputMessageBytes op_InputBytesPerSecond op_OutputBytesPerSecond op_ConnectTimeout op_AllowPrivateTargets].
  rewrite !(or_default_positive (mc_webSSHIdleTimeout c)), !(or_default_positive (mc_webSSHAbsoluteTimeout c)), !(or_default_positive (mc_webSSHMaxConcurrent c)) by done.
  rewrite !guard_pass by (first [by apply Z.leb_le | by vm_compute]). by eexists _, _.
Qed.
Lemma service_accepts {PublicKey Signer} version c :
  validateKey (mc_keyID c) (mc_hmacKey c) = Ok tt → 1 ≤ mc_maxConcurrent c ≤ 256 →
  (∃ w m, newWebSSHManager Parse ToLower (so_WebSSH (service_options version c)) = Ok (w, m) ∧ terminal_settings c w) →
  ∃ srv state, ConnectorService.New (PublicKey := PublicKey) (Signer := Signer) Parse ToLower (service_options version c) = Ok (srv, state) ∧
    cap_requests srv = mc_maxConcurrent c ∧ sv_allowPrivateTargets srv = mc_allowPrivateTargets c ∧ terminal_settings c (webSSH srv) ∧
    configured_key c (ConnectorService.verifier state).
Proof.
  intros Hk Hn (w & m & Hw & Ht). unfold ConnectorService.New, ConnectorAuth.NewVerifier.
  cbn [service_options so_KeyID so_HMACKey so_AuthenticationSkew so_MaxTrackedNonces so_MaxConcurrent so_MaxRequestBodyBytes so_MaxOutputBytes
    so_ConnectTimeout so_CommandTimeout so_ServiceVersion so_AllowPrivateTargets]. rewrite Hk. cbn [mbind result_bind]. cbv zeta.
  rewrite !(or_default_positive (mc_maxConcurrent c)) by lia. rewrite !guard_pass by (first [apply Z.leb_le; lia | by vm_compute]). cbn [mbind result_bind].
  rewrite !guard_pass by (first [apply Z.leb_le; lia | by vm_compute]). rewrite Hw. by eexists _, _.
Qed.

Lemma runbooks_accept c r :
  validateKey (mc_keyID c) (mc_hmacKey c) = Ok tt → 1 ≤ rc_maxConcurrent r ≤ 32 → 100 ≤ rc_maxIdempotency r ≤ 1000000 →
  ∃ h, NewRunbookHandler (runbook_options c r) = Ok h ∧ RunbookHandler.maxConcurrent h = rc_maxConcurrent r ∧
    RunbookHandler.mutationsEnabled h = rc_mutationsEnabled r ∧ RunbookHandler.allowPrivateTargets h = mc_allowPrivateTargets c ∧
    Ledger.max (ledger h) = rc_maxIdempotency r ∧ configured_key c (RunbookHandler.verifier h).
Proof.
  intros Hk Hn Hj. unfold NewRunbookHandler, ConnectorAuth.NewVerifier. change positive_or with or_default.
  cbn [runbook_options ro_KeyID ro_HMACKey ro_AuthenticationSkew ro_MaxTrackedNonces ro_MaxConcurrent ro_MaxRequestBodyBytes ro_MaxOutputBytes
    ro_ConnectTimeout ro_MutationsEnabled ro_AllowPrivateTargets ro_MaxIdempotencyJobs]. rewrite Hk. cbn [mbind result_bind]. cbv zeta.
  rewrite !(or_default_positive (rc_maxConcurrent r)) by lia. rewrite !guard_pass by (first [apply Z.leb_le; lia | by vm_compute]). cbn [mbind result_bind].
  rewrite !guard_pass by (first [apply Z.leb_le; lia | by vm_compute]). eexists. split; [done|].
  cbn. rewrite (proj2 (Z.leb_gt (rc_maxIdempotency r) 0)) by lia. done.
Qed.

Lemma listen_Ok sys spec calls l : listen sys spec = (calls, Ok l) →
  l = spec ∧ (network spec = "unix" → Lstat sys (address spec) = Missing ∧
    calls = [Inspect (address spec); Open "unix" (address spec); Restrict (address spec) owner_only]).
Proof.
  unfold listen. cbv zeta. destruct (String.eqb_spec (network spec) "unix") as [E|E]; cbn [negb].
  - destruct (Lstat sys (address spec)); try done. destruct (Listen _ _ _); [|done]. destruct (Chmod _ _); [|done]. cbn. intros [= <- <-]. by rewrite E.
  - destruct (Listen _ _ _); [|done]. by intros [= <- <-].
Qed.
End lemmas.

(** ** The property *)

(** C16: A Connector that reads its configuration listens only
    where the host itself reaches it: on a loopback address, or on an absolute
    path at which nothing existed before and whose socket is restricted to its
    owner.  The limits it reads are within the ones the services enforce: with a
    key identifier and origins that are accepted, both services start, and run
    with exactly the configured limits, private-target policy and mutation
    policy, the configured number of remembered jobs, the configured key, and
    the configured origins in normal form; terminals are off when no origin is configured. *)
Theorem connector_start {PublicKey Signer} Getenv Parse ToLower ParseAddr AddrString SplitHostPort ParseDuration version c r :
  loadConfig Getenv Parse ParseAddr AddrString SplitHostPort ParseDuration = Ok c → loadRunbookConfig Getenv = Ok r →
  local_only ParseAddr AddrString (mc_listen c) ∧ 32 ≤ slen (mc_hmacKey c) ∧
  (∀ sys calls l, listen sys (mc_listen c) = (calls, Ok l) → l = mc_listen c ∧
     (network l = "unix" → Lstat sys (address l) = Missing ∧ calls = [Inspect (address l); Open "unix" (address l); Restrict (address l) owner_only])) ∧
  (validateKey (mc_keyID c) (mc_hmacKey c) = Ok tt →
   mc_webSSHOrigins c = [] ∨ is_ok (normalizeOrigins Parse ToLower (mc_webSSHOrigins c)) = true →
   ∃ srv state h,
     ConnectorService.New (PublicKey := PublicKey) (Signer := Signer) Parse ToLower (service_options version c) = Ok (srv, state) ∧
     NewRunbookHandler (runbook_options c r) = Ok h ∧
     cap_requests srv = mc_maxConcurrent c ∧ sv_allowPrivateTargets srv = mc_allowPrivateTargets c ∧ terminal_settings Parse ToLower c (webSSH srv) ∧
     configured_key c (ConnectorService.verifier state) ∧ configured_key c (RunbookHandler.verifier h) ∧ Ledger.max (ledger h) = rc_maxIdempotency r ∧
     RunbookHandler.maxConcurrent h = rc_maxConcurrent r ∧ RunbookHandler.mutationsEnabled h = rc_mutationsEnabled r ∧
     RunbookHandler.allowPrivateTargets h = mc_allowPrivateTargets c).
Proof.
  intros Hc Hr. destruct (loadConfig_checks _ _ _ _ _ _ _ Hc) as (Hl & Hkey & Hn & Hi & Ha & Hia & Hw). apply loadRunbookConfig_range in Hr as [Hrn Hrj].
  split; [done|]. split; [done|]. split.
  - intros sys calls l Hs. by destruct (listen_Ok _ _ _ _ Hs) as [-> Hu].
  - intros Hk Ho. destruct (service_accepts (PublicKey := PublicKey) (Signer := Signer) Parse ToLower version c Hk Hn) as (srv & state & Hnew & H1 & H2 & H3 & H7).
    { apply manager_accepts; try done; unfold hour, minute, second in *; lia. }
    destruct (runbooks_accept c r Hk Hrn Hrj) as (h & Hh & H4 & H5 & H6 & H8 & H9). exists srv, state, h. by split_and!.
Qed.

(** The default settings with a key, and a Unix socket. *)
Module ConnectorMainDemo.
Definition key : string := "MDEyMzQ1Njc4OWFiY2RlZjAxMjM0NTY3ODlhYmNkZWY=".
Definition env (name : string) : string :=
  if name =? "VPSMGR_CONNECTOR_HMAC_KEY_ID" then "main" else if name =? "VPSMGR_CONNECTOR_HMAC_KEY" then key
  else if name =? "VPSMGR_CONNECTOR_LISTEN" then "unix:///run/vps/connector.sock" else "".
Definition parse (value : string) : option URL :=
  if value =? "unix:///run/vps/connector.sock" then Some (mkURL "unix" "" "" "" "" false "/run/vps/connector.sock" "" "") else None.
Definition demo_config : config :=
  mkMainConfig (mkListenSpec "unix" "/run/vps/connector.sock") "main" "0123456789abcdef0123456789abcdef" false 8 [] (10 * minute) hour 4.
Definition sys : system := mkSystem (λ _, Missing) (λ _ _, true) (λ _, true).
Definition no_addr (_ : string) : option Addr := None.
Definition addr_text (_ : Addr) : string := "".
Definition no_split (_ : string) : option (string * string) := None.
Definition no_duration (_ : string) : option duration := None.

(** A path that already exists is never taken over. *)
Example socket_exists :
  listen (mkSystem (λ _, Socket) (λ _ _, true) (λ _, true)) (mc_listen demo_config) =
  ([Inspect "/run/vps/connector.sock"], Err "connector Unix socket path already exists").
Proof. reflexivity. Qed.
End ConnectorMainDemo.

Lemma connector_start_witness :
  local_only ConnectorMainDemo.no_addr ConnectorMainDemo.addr_text (mc_listen ConnectorMainDemo.demo_config) ∧
  ∃ srv state h, ConnectorService.New (PublicKey := string) (Signer := string) ConnectorMainDemo.parse id (service_options "1.0" ConnectorMainDemo.demo_config) = Ok (srv, state) ∧
    NewRunbookHandler (runbook_options ConnectorMainDemo.demo_config (mkRunbookConfig false 4 10000)) = Ok h ∧ RunbookHandler.mutationsEnabled h = false.
Proof.
  destruct (connector_start (PublicKey := string) (Signer := string) ConnectorMainDemo.env ConnectorMainDemo.parse id ConnectorMainDemo.no_addr
    ConnectorMainDemo.addr_text ConnectorMainDemo.no_split ConnectorMainDemo.no_duration "1.0" ConnectorMainDemo.demo_config (mkRunbookConfig false 4 10000))
    as (Hl & _ & _ & Hs); [vm_compute; reflexivity|vm_compute; reflexivity|]. split; [exact Hl|].
  destruct Hs as (srv & state & h & H1 & H2 & _ & _ & _ & _ & _ & _ & _ & H3 & _); [vm_compute; reflexivity|by left|]. by exists srv, state, h.
Defined.
