(* ===== verification/PostgresOpen.v ===== *)
(** * Opening the durable repository

    [PostgresConfig.Validate], [OpenPostgres] with its default settings,
    [VerifyRuntime], which refuses a role with more privileges than the
    repository needs, and [NewPostgres] of the control plane.  Parsing of URLs
    and of pool settings, and the catalog of the server, are parameters. *)

From S2P Require Import Prelude GoStrings Url Encoding Json Persistence Postgres AuditTrail Credentials Protocol Model Store PostgresStore PostgresRefinement.

(** ** Configuration *)

(** [^[a-z_][a-z0-9_]{0,62}$] *)
Definition postgresRolePattern (s : string) : bool :=
  match s with
  | EmptyString => false
  | String a t => char_in (λ b, is_lower_rune b || (b =? 95)%Z) a && all_chars (λ b, is_lower_rune b || is_digit_rune b || (b =? 95)%Z) t &&
                  (slen t <=? 62)%Z
  end.
(** [^[A-Za-z0-9][A-Za-z0-9_.-]{0,63}$] *)
Definition postgresAppNamePattern (s : string) : bool :=
  match s with
  | EmptyString => false
  | String a t => alnum_char a && forallb (λ a, alnum_char a || Ascii.eqb a "_" || Ascii.eqb a "." || Ascii.eqb a "-") (String.list_ascii_of_string t) &&
                  (slen t <=? 63)%Z
  end.

Record PostgresConfig := mkPostgresConfig {
  pc_URL : string;
  pc_Environment : string;
  pc_ExpectedRole : string;
  pc_ApplicationName : string;
  pc_MaxConnections : Z;
  pc_MinConnections : Z;
  pc_ConnectTimeout : duration;
  pc_AllowInsecureDevelopment : bool;
}.

Section open.
(** [url.Parse], the values of a query parameter of a URL, and
    [pgxpool.ParseConfig]: application name, most and fewest connections, and
    the time to connect. *)
Record pool_settings := mkPool { application_name : string; MaxConns : Z; MinConns : Z; ConnectTimeout : duration }.
Context (url_Parse : string → option URL) (Query : URL → string → list string) (ParseConfig : string → option pool_settings).

Definition verifiedTLS (parsed : URL) : bool :=
  match Query parsed "sslmode" with [mode] => mode =? "verify-full" | _ => false end.

Definition Validate (c : PostgresConfig) : result error unit :=
  validateEnvironment (pc_Environment c) ;;
  require trim_space (pc_URL c) ≠? "" else Invalid "PostgreSQL URL is required" ;;
  parsed ← of_option (url_Parse (pc_URL c)) (Invalid "PostgreSQL URL must be a postgres URL with a host");
  require ((Scheme parsed =? "postgres") || (Scheme parsed =? "postgresql")) && (Url.Hostname parsed ≠? "")
    else Invalid "PostgreSQL URL must be a postgres URL with a host" ;;
  (if pc_Environment c =? "production" then
     require negb (pc_AllowInsecureDevelopment c) else Invalid "insecure PostgreSQL mode is forbidden in production" ;;
     require verifiedTLS parsed else Invalid "production PostgreSQL requires sslmode=verify-full" ;;
     require postgresRolePattern (pc_ExpectedRole c) else Invalid "production PostgreSQL expected role is required" ;; Ok tt
   else if negb (verifiedTLS parsed) && negb (pc_AllowInsecureDevelopment c) then
     Err (Invalid "PostgreSQL TLS downgrade requires explicit development-only opt-in")
   else if pc_AllowInsecureDevelopment c && (pc_Environment c ≠? "development") && (pc_Environment c ≠? "test") then
     Err (Invalid "PostgreSQL insecure mode is development-only")
   else Ok tt) ;;
  require (pc_ExpectedRole c =? "") || postgresRolePattern (pc_ExpectedRole c) else Invalid "PostgreSQL expected role is invalid" ;;
  require (0 <=? pc_MinConnections c)%Z && (0 <=? pc_MaxConnections c)%Z &&
          ((pc_MaxConnections c <=? 0)%Z || (pc_MinConnections c <=? pc_MaxConnections c)%Z)
    else Invalid "PostgreSQL connection limits are invalid" ;;
  require (0 <=? pc_ConnectTimeout c)%Z && (pc_ConnectTimeout c <=? minute)%Z else Invalid "PostgreSQL connect timeout is invalid" ;;
  require (pc_ApplicationName c =? "") || postgresAppNamePattern (pc_ApplicationName c) else Invalid "PostgreSQL application name is invalid" ;;
  Ok tt.

(** ** The role of the connection *)

(** What the server says of the session: [pg_stat_ssl], [pg_roles] and the
    functions [has_..._privilege]. *)
Record session := mkSession {
  current_user : string;
  ssl : bool;
  rolsuper : bool;
  rolcreaterole : bool;
  rolcreatedb : bool;
  rolreplication : bool;
  rolbypassrls : bool;
  has_schema_privilege : string → string → bool;
  has_table_privilege : string → string → bool;
  has_sequence_privilege : string → string → bool;
}.

Definition required : list (string * string) :=
  [("vps_manager.assets", "SELECT"); ("vps_manager.assets", "INSERT"); ("vps_manager.assets", "UPDATE"); ("vps_manager.assets", "DELETE");
   ("vps_manager.credential_envelopes", "SELECT"); ("vps_manager.credential_envelopes", "INSERT");
   ("vps_manager.current_secret_bindings", "SELECT"); ("vps_manager.current_secret_bindings", "INSERT");
   ("vps_manager.current_secret_bindings", "UPDATE"); ("vps_manager.current_secret_bindings", "DELETE");
   ("vps_manager.cloudflare_workers", "SELECT"); ("vps_manager.cloudflare_workers", "INSERT"); ("vps_manager.cloudflare_workers", "UPDATE");
   ("vps_manager.cloudflare_worker_versions", "SELECT"); ("vps_manager.cloudflare_worker_versions", "INSERT");
   ("vps_manager.cloudflare_worker_versions", "UPDATE");
   ("vps_manager.cloudflare_deployments", "SELECT"); ("vps_manager.cloudflare_deployments", "INSERT"); ("vps_manager.cloudflare_deployments", "UPDATE");
   ("vps_manager.jobs", "SELECT"); ("vps_manager.jobs", "INSERT"); ("vps_manager.jobs", "UPDATE");
   ("vps_manager.audit_events", "SELECT"); ("vps_manager.audit_events", "INSERT")].

Definition forbidden : list (string * string) :=
  [("vps_manager.credential_envelopes", "UPDATE"); ("vps_manager.credential_envelopes", "DELETE");
   ("vps_manager.jobs", "DELETE"); ("vps_manager.cloudflare_workers", "DELETE"); ("vps_manager.cloudflare_worker_versions", "DELETE");
   ("vps_manager.cloudflare_deployments", "DELETE"); ("vps_manager.audit_events", "UPDATE"); ("vps_manager.audit_events", "DELETE")].

Record PostgresRepository := mkPostgresRepository { expectedRole : string; production : bool }.

(** [None] is a query that fails. *)
Definition VerifyRuntime (p : PostgresRepository) (identity privileges : option session) (ping : bool) : result error unit :=
  s ← of_option identity (Invalid "verify PostgreSQL runtime identity");
  require (expectedRole p =? "") || (current_user s =? expectedRole p) else Invalid "PostgreSQL runtime role does not match expected role" ;;
  require negb (production p) || ssl s else Invalid "PostgreSQL production connection is not using TLS" ;;
  require negb (rolsuper s || rolcreaterole s || rolcreatedb s || rolreplication s || rolbypassrls s)
    else Invalid "PostgreSQL application role has forbidden cluster privileges" ;;
  s ← of_option privileges (Invalid "verify PostgreSQL schema privileges");
  let table_privilege := λ x, has_table_privilege s x.1 x.2 in
  require has_schema_privilege s "vps_manager" "USAGE" && forallb table_privilege required &&
          has_sequence_privilege s "vps_manager.audit_events_sequence_seq" "USAGE"
    else Invalid "PostgreSQL application role lacks required privileges" ;;
  require negb (has_schema_privilege s "vps_manager" "CREATE" || existsb table_privilege forbidden)
    else Invalid "PostgreSQL application role has forbidden data privileges" ;;
  require ping else Invalid "ping PostgreSQL" ;;
  Ok tt.

(** [pgxpool.NewWithConfig] may fail; else its settings and the answers of the
    server to the queries that follow. *)
Context (NewWithConfig : pool_settings → option (option session * option session * bool)).

Definition settings (c : PostgresConfig) (parsed : pool_settings) : pool_settings :=
  mkPool (if pc_ApplicationName c =? "" then "vps-manager-control-plane" else pc_ApplicationName c)
    (if (0 <? pc_MaxConnections c)%Z then pc_MaxConnections c else MaxConns parsed)
    (if (0 <? pc_MinConnections c)%Z then pc_MinConnections c else MinConns parsed)
    (if (pc_ConnectTimeout c =? 0)%Z then 5 * second else pc_ConnectTimeout c).

(** What happens to the pool. *)
Inductive pool_event := PoolOpened | PoolClosed.

Definition OpenPostgres (c : PostgresConfig) : list pool_event * result error PostgresRepository :=
  let created :=
    Validate c ;;
    parsed ← of_option (ParseConfig (pc_URL c)) (Invalid "parse PostgreSQL configuration");
    of_option (NewWithConfig (settings c parsed)) (Invalid "create PostgreSQL pool") in
  match created with
  | Err e => ([], Err e)
  | Ok (identity, privileges, ping) =>
    let repository := mkPostgresRepository (pc_ExpectedRole c) (pc_Environment c =? "production") in
    match VerifyRuntime repository identity privileges ping with
    | Err e => ([PoolOpened; PoolClosed], Err e)
    | Ok _ => ([PoolOpened], Ok repository)
    end
  end.
End open.

(** ** The adapter *)

Definition defaultPostgresOperationTimeout : duration := 5 * second.

(** [None] is a nil repository; the installation and the timeout of the
    adapter. *)
Definition NewPostgres (repository : option PostgresRepository) (installationID : string) (timeout : duration) : result string (string * duration) :=
  require bool_decide (is_Some repository) && (installationID ≠? "") else "PostgreSQL repository and installation id are required" ;;
  let timeout := if (timeout <=? 0)%Z then defaultPostgresOperationTimeout else timeout in
  require (timeout <=? minute)%Z else "PostgreSQL operation timeout may not exceed one minute" ;;
  Ok (installationID, timeout).

(** ** What the requests do to the tables *)

(** The changes of rows that need a privilege. *)
Definition row_change {K A} `{Countable K} (verb : string) (t t' : gmap K A) : Prop :=
  if verb =? "INSERT" then ∃ k, t !! k = None ∧ is_Some (t' !! k)
  else if verb =? "UPDATE" then ∃ k a b, t !! k = Some a ∧ t' !! k = Some b ∧ a ≠ b
  else if verb =? "DELETE" then ∃ k, is_Some (t !! k) ∧ t' !! k = None
  else False.
(** Rows in the order of a sequence. *)
Definition event_change (verb : string) (l l' : list audit_row) : Prop :=
  if verb =? "INSERT" then (length l < length l')%nat
  else if verb =? "UPDATE" then ∃ n a b, l !! n = Some a ∧ l' !! n = Some b ∧ a ≠ b
  else if verb =? "DELETE" then (length l' < length l)%nat
  else False.

Definition performs (table verb : string) (d d' : database) : Prop :=
  if table =? "vps_manager.assets" then row_change verb (db_assets d) (db_assets d')
  else if table =? "vps_manager.credential_envelopes" then row_change verb (db_envelopes d) (db_envelopes d')
  else if table =? "vps_manager.current_secret_bindings" then row_change verb (db_bindings d) (db_bindings d')
  else if table =? "vps_manager.jobs" then row_change verb (db_jobs d) (db_jobs d')
  else if table =? "vps_manager.audit_events" then event_change verb (db_audit d) (db_audit d')
  else if table =? "vps_manager.cloudflare_workers" then row_change verb (db_workers d) (db_workers d')
  else if table =? "vps_manager.cloudflare_worker_versions" then row_change verb (db_versions d) (db_versions d')
  else if table =? "vps_manager.cloudflare_deployments" then row_change verb (db_deployments d) (db_deployments d')
  else False.

(** ** Lemmas: records that stay *)

Definition grows {K A} `{Countable K} (t t' : gmap K A) : Prop := dom t ⊆ dom t'.

(** Envelopes and audit events are never changed; jobs, workers, versions and
    deployments never removed. *)
Record kept (d d' : database) : Prop := mkKept {
  kept_envelopes : db_envelopes d ⊆ db_envelopes d';
  kept_jobs : grows (db_jobs d) (db_jobs d');
  kept_events : db_audit d `prefix_of` db_audit d';
  kept_workers : grows (db_workers d) (db_workers d');
  kept_versions : grows (db_versions d) (db_versions d');
  kept_deployments : grows (db_deployments d) (db_deployments d');
}.

#[global] Instance kept_preorder : PreOrder kept.
Proof.
  split.
  - intros d. constructor; unfold grows; reflexivity.
  - intros d1 d2 d3 [] []. constructor; unfold grows in *; by (etrans; [eassumption|]).
Qed.

Lemma grows_insert {K A} `{Countable K} (t : gmap K A) k a : grows t (<[k := a]> t).
Proof. unfold grows. rewrite dom_insert. set_solver. Qed.

Lemma update_row_grows {K A} `{Countable K} typed (k : K) cond (f : A → A) check t t' n :
  update_row typed k cond f check t = Ok (t', n) → grows t t'.
Proof. intros [[-> ->]|(old & _ & _ & _ & -> & _)]%update_row_Ok; [unfold grows; reflexivity|apply grows_insert]. Qed.

Lemma grows_change {K A} `{Countable K} verb (t t' : gmap K A) : grows t t' → row_change verb t t' → verb = "INSERT" ∨ verb = "UPDATE".
Proof.
  intros Hg. unfold row_change. destruct (String.eqb_spec verb "INSERT"); [by left|]. destruct (String.eqb_spec verb "UPDATE"); [by right|].
  destruct (verb =? "DELETE"); [|done]. intros (k & Ha%elem_of_dom & Hn%not_elem_of_dom). destruct Hn. by apply Hg.
Qed.

Lemma fixed_change {K A} `{Countable K} verb (t t' : gmap K A) : t ⊆ t' → row_change verb t t' → verb = "INSERT".
Proof.
  intros Hg Hc. destruct (grows_change verb t t') as [->| ->]; [by apply subseteq_dom|done|done|]. exfalso. cbn in Hc.
  destruct Hc as (k & a & b & Ha & Hb & Hn). rewrite (lookup_weaken _ _ _ _ Ha Hg) in Hb. by simplify_eq.
Qed.

Lemma any_change {K A} `{Countable K} verb (t t' : gmap K A) : row_change verb t t' → verb = "INSERT" ∨ verb = "UPDATE" ∨ verb = "DELETE".
Proof.
  unfold row_change. destruct (String.eqb_spec verb "INSERT"); [by left|]. destruct (String.eqb_spec verb "UPDATE"); [by right; left|].
  destruct (String.eqb_spec verb "DELETE"); [by right; right|done].
Qed.

Lemma appended_change verb l l' : l `prefix_of` l' → event_change verb l l' → verb = "INSERT".
Proof.
  intros [x ->]. unfold event_change. destruct (String.eqb_spec verb "INSERT"); [done|]. destruct (verb =? "UPDATE").
  - intros (k & a & b & Ha & Hb & Hne). rewrite (lookup_app_l_Some _ _ _ _ Ha) in Hb. by simplify_eq.
  - destruct (verb =? "DELETE"); [|done]. rewrite length_app. lia.
Qed.

Lemma performs_required table verb d d' : kept d d' → performs table verb d d' → (table, verb) ∈ required.
Proof.
  intros [Ke Kj Ka Kw Kv Kd]. unfold performs. repeat case_match; try done; reflect_bools; subst; intros Hc;
    first [apply fixed_change in Hc as ->; [|done] | apply appended_change in Hc as ->; [|done]
      | apply grows_change in Hc as [->| ->]; [| |done] | apply any_change in Hc as [->|[->| ->]]];
    apply (bool_decide_eq_true_1 _); vm_compute; reflexivity.
Qed.

(** ** Lemmas: every request keeps them *)

Definition keeps {A} (m : M A) : Prop := ∀ s, kept (db s) (db (m s).1).

Lemma keeps_ret {A} (a : A) : keeps (mret a).
Proof. intros s. reflexivity. Qed.
Lemma keeps_bind {A B} (m : M A) (k : A → M B) : keeps m → (∀ a, keeps (k a)) → keeps (m ≫= k).
Proof. intros Hm Hk s. unfold mbind, M_bind. specialize (Hm s). destruct (m s) as [s' a]. etrans; [exact Hm|apply Hk]. Qed.

Lemma next_fault_keeps s : kept (db s) (db (next_fault s).2).
Proof. rewrite next_fault_db. reflexivity. Qed.

Lemma keeps_stmt {A} (op : database → result pg_error (database * A)) : (∀ d d' a, op d = Ok (d', a) → kept d d') → keeps (stmt op).
Proof.
  intros Hop [d fs]. cbn. destruct (stmt_cases op d fs) as [(e & fs' & ->)|(d' & a & Ho & fs' & r & -> & _)]; [reflexivity|by eapply Hop].
Qed.
Lemma keeps_query {A} (f : database → result pg_error A) : keeps (query f).
Proof. apply keeps_stmt. intros d d' a (x & _ & [= <- _])%bind_Ok_inv. reflexivity. Qed.
Lemma keeps_or_fail {E A B} (f : pg_error → E) (m : M (result pg_error A)) (k : A → M (result E B)) :
  keeps m → (∀ a, keeps (k a)) → keeps (or_fail f m k).
Proof. intros Hm Hk. apply keeps_bind; [done|]. intros [a|e]; [apply Hk|apply keeps_ret]. Qed.
Lemma keeps_checked {E B} (v : result E unit) (k : M (result E B)) : keeps k → keeps (checked v k).
Proof. intros Hk. destruct v; [done|apply keeps_ret]. Qed.
Lemma keeps_in_transaction {E A} (e : E) lift (body : M (result E A)) : keeps body → keeps (in_transaction e lift body).
Proof.
  intros Hb s. unfold in_transaction. pose proof (next_fault_keeps s) as Hn. destruct (next_fault s) as [[] s1]; cbn in *; try done.
  specialize (Hb s1). destruct (body s1) as [s2 [a|x]]; cbn in *; [|done]. pose proof (next_fault_keeps s2) as Hn2.
  destruct (next_fault s2) as [[] s3]; cbn in *; try done; (etrans; [exact Hn|]; etrans; [exact Hb|exact Hn2]).
Qed.

Lemma kept_assets d t : kept d (set_db_assets d t).
Proof. constructor; cbn; unfold grows; reflexivity. Qed.
Lemma kept_bindings d t : kept d (set_db_bindings d t).
Proof. constructor; cbn; unfold grows; reflexivity. Qed.
Lemma kept_new_envelope d k r : db_envelopes d !! k = None → kept d (set_db_envelopes d (<[k := r]> (db_envelopes d))).
Proof. intros Hk. constructor; cbn; unfold grows; try reflexivity. by apply insert_subseteq. Qed.
Lemma kept_more_jobs d t : grows (db_jobs d) t → kept d (set_db_jobs d t).
Proof. intros Ht. constructor; cbn; unfold grows; try reflexivity. done. Qed.
Lemma kept_more_events d l : kept d (set_db_audit d (db_audit d ++ l)).
Proof. constructor; cbn; unfold grows; try reflexivity. by exists l. Qed.
Lemma kept_more_workers d t : grows (db_workers d) t → kept d (set_db_workers d t).
Proof. intros Ht. constructor; cbn; unfold grows; try reflexivity. done. Qed.
Lemma kept_more_versions d t : grows (db_versions d) t → kept d (set_db_versions d t).
Proof. intros Ht. constructor; cbn; unfold grows; try reflexivity. done. Qed.
Lemma kept_more_deployments d t : grows (db_deployments d) t → kept d (set_db_deployments d t).
Proof. intros Ht. constructor; cbn; unfold grows; try reflexivity. done. Qed.

Lemma insert_row_grows {K A} `{Countable K} typed chk unique referenced (k : K) (a : A) t t' :
  insert_row typed chk unique referenced k a t = Ok t' → grows t t'.
Proof. intros (_ & _ & _ & _ & _ & ->)%insert_row_Ok. apply grows_insert. Qed.

Create HintDb keeps.
#[global] Hint Resolve kept_assets kept_bindings kept_new_envelope kept_more_jobs kept_more_events kept_more_workers kept_more_versions
  kept_more_deployments insert_row_grows update_row_grows : keeps.

(** The successful ends of a statement. *)
Ltac written :=
  intros ? ? ? Hop; cbv zeta in Hop;
  repeat (apply bind_Ok_inv in Hop as (? & ? & Hop) || case_match); simplify_eq; try reflexivity; eauto with keeps.

Section requests.
Context `{Jsonb} `{Codec (gmap string string)} `{Codec Persistence.HostKeyPin} `{Collation}.
Context `{Codec CredentialMetadata} `{Codec CloudflareTokenMetadata} `{Codec persistedJobParameters} `{Codec persistedJobResult}.
Context `{Codec (option (list (string * value)))}.
Context (i : string).

Lemma insert_envelope_kept e d d' a : insert_envelope e d = Ok (d', a) → kept d d'.
Proof.
  intros (row & _ & Hop)%bind_Ok_inv. apply bind_Ok_inv in Hop as (t & (_ & _ & _ & Hn & _ & ->)%insert_row_Ok & [= <- _]). by apply kept_new_envelope.
Qed.

Ltac keeping :=
  repeat (intros; first [apply keeps_ret | apply keeps_query | apply keeps_or_fail | apply keeps_checked | apply keeps_in_transaction | apply keeps_bind
    | apply keeps_stmt; written | case_match]).

Lemma keeps_mapped {A} (m : M (result Persistence.error A)) : keeps m → keeps (mapped m).
Proof. intros. by keeping. Qed.
Lemma keeps_calling {A B} (m : M (result Persistence.error A)) (k : A → M (result store_error B)) : keeps m → (∀ a, keeps (k a)) → keeps (calling m k).
Proof. intros. apply keeps_bind; [done|]. by keeping. Qed.
Lemma keeps_exec m : keeps m → keeps (exec_result m).
Proof. intros. apply keeps_or_fail; [done|]. by keeping. Qed.
Lemma keeps_cas m : keeps m → keeps (mapCASResult m).
Proof. intros. apply keeps_or_fail; [done|]. by keeping. Qed.
Lemma keeps_query_all {A B} ps (f : database → list A) (scan : A → result Persistence.error B) l1 l2 : keeps (query_all ps f scan l1 l2).
Proof. unfold query_all, query_with. by keeping. Qed.

Lemma keeps_GetAsset id : keeps (Postgres.GetAsset i id).
Proof. unfold Postgres.GetAsset, query_with. by keeping. Qed.
Lemma keeps_CreateAsset a : keeps (Postgres.CreateAsset a).
Proof. apply keeps_checked, keeps_exec, keeps_stmt. written. Qed.
Lemma keeps_UpdateAsset a v : keeps (Postgres.UpdateAsset a v).
Proof. apply keeps_checked. case_match; [apply keeps_ret|]. apply keeps_cas, keeps_stmt. written. Qed.
Lemma keeps_DeleteAsset id v : keeps (Postgres.DeleteAsset i id v).
Proof. apply keeps_cas, keeps_stmt. written. Qed.
Lemma keeps_DeleteCurrentSecret scope id : keeps (DeleteCurrentSecret i scope id).
Proof. apply keeps_or_fail; [apply keeps_stmt; written|]. by keeping. Qed.
Lemma keeps_GetCurrentSecret scope id : keeps (GetCurrentSecret i scope id).
Proof. unfold GetCurrentSecret, query_with. by keeping. Qed.
Lemma keeps_PutCurrentSecret b : keeps (PutCurrentSecret b).
Proof.
  apply keeps_checked, keeps_in_transaction. unfold verifySecretScope, query_with. apply keeps_or_fail; [apply keeps_query|]. intros found.
  case_match; [apply keeps_ret|]. apply keeps_or_fail; [apply keeps_stmt, insert_envelope_kept|]. intros _. unfold upsert_binding. by keeping.
Qed.
Lemma keeps_CreateJob j : keeps (Postgres.CreateJob j).
Proof. apply keeps_checked, keeps_exec, keeps_stmt. written. Qed.
Lemma keeps_MutateJob {E} id (f : Persistence.Job → result E Persistence.Job) : keeps (Postgres.MutateJob i id f).
Proof. apply keeps_in_transaction. unfold getJobForUpdate, query_with, update_job. by keeping. Qed.
Lemma keeps_AppendAudit e : keeps (Postgres.AppendAudit e).
Proof. apply keeps_checked, keeps_exec, keeps_stmt. written. Qed.
Lemma keeps_CreateWorker w : keeps (Postgres.CreateWorker w).
Proof. apply keeps_exec, keeps_stmt. written. Qed.
Lemma keeps_CreateWorkerVersion v : keeps (Postgres.CreateWorkerVersion v).
Proof. apply keeps_exec, keeps_stmt. written. Qed.
Lemma keeps_UpdateWorkerVersionProvider w v p n t : keeps (Postgres.UpdateWorkerVersionProvider i w v p n t).
Proof. unfold Postgres.UpdateWorkerVersionProvider. case_match; [apply keeps_ret|]. apply keeps_cas, keeps_stmt. written. Qed.
Lemma keeps_PlanWorkerDeployment x w : keeps (Postgres.PlanWorkerDeployment x w).
Proof.
  apply keeps_in_transaction. unfold query_with, mapCASResult, insert_deployment, update_worker. by keeping.
Qed.
Lemma keeps_GetWorkerDeployment w id : keeps (Postgres.GetWorkerDeployment i w id).
Proof. unfold Postgres.GetWorkerDeployment, query_with. by keeping. Qed.
Lemma keeps_UpdateWorkerDeployment x st : keeps (Postgres.UpdateWorkerDeployment x st).
Proof. unfold Postgres.UpdateWorkerDeployment. do 2 (case_match; [apply keeps_ret|]). apply keeps_cas, keeps_stmt. written. Qed.

#[local] Hint Resolve keeps_ret keeps_query_all keeps_GetAsset keeps_CreateAsset keeps_UpdateAsset keeps_DeleteAsset keeps_DeleteCurrentSecret
  keeps_GetCurrentSecret keeps_PutCurrentSecret keeps_CreateJob keeps_AppendAudit keeps_CreateWorker keeps_CreateWorkerVersion
  keeps_UpdateWorkerVersionProvider keeps_PlanWorkerDeployment keeps_GetWorkerDeployment keeps_UpdateWorkerDeployment keeps_mapped : keeps.

Lemma keeps_pg_MutateJob id f : keeps (pg_MutateJob i id f).
Proof. apply keeps_bind; [apply keeps_MutateJob|auto with keeps]. Qed.
Lemma keeps_pg_DeleteHost id : keeps (pg_DeleteHost i id).
Proof.
  apply keeps_calling; [apply keeps_GetAsset|]. intros asset. apply keeps_bind; [apply keeps_DeleteCurrentSecret|].
  intros r. repeat case_match; auto with keeps.
Qed.
Lemma keeps_pg_UpdateWorkerDeployment x st : keeps (pg_UpdateWorkerDeployment i x st).
Proof. apply keeps_calling; [apply keeps_GetWorkerDeployment|]. intros current. case_match; auto with keeps. Qed.
Lemma keeps_pg_ListHosts : keeps (pg_ListHosts i).
Proof. apply keeps_calling; [apply keeps_checked|]; auto with keeps. Qed.
#[local] Hint Resolve keeps_pg_MutateJob keeps_pg_DeleteHost keeps_pg_UpdateWorkerDeployment keeps_pg_ListHosts : keeps.

Lemma keeps_request q : keeps (pg_run i q).
Proof.
  destruct q; cbn [pg_run]; (apply keeps_bind; [|intros ?; apply keeps_ret]); auto with keeps.
  all: first [by apply keeps_mapped; auto with keeps | by apply keeps_calling; auto with keeps
    | unfold pg_PutCredential, pg_CreateJob, pg_AppendAudit, pg_PutWorkerToken; case_match; by auto with keeps
    | apply keeps_calling; [apply keeps_query_all|by auto with keeps] | apply keeps_calling; [apply keeps_or_fail; [apply keeps_query|]|]; by auto with keeps].
Qed.
End requests.

(** ** Lemmas: opening *)

Section opened.
Context (url_Parse : string → option URL) (Query : URL → string → list string) (ParseConfig : string → option pool_settings).

Lemma production_url c :
  Validate url_Parse Query c = Ok tt → pc_Environment c = "production" →
  ∃ parsed, url_Parse (pc_URL c) = Some parsed ∧ Query parsed "sslmode" = ["verify-full"] ∧ pc_ExpectedRole c ≠ "".
Proof.
  intros Hv He. unfold Validate in Hv. apply bind_Ok_inv in Hv as (? & _ & Hv). apply bind_Ok_inv in Hv as (? & _ & Hv).
  apply bind_Ok_inv in Hv as (parsed & Hp%of_option_Ok & Hv). apply bind_Ok_inv in Hv as (? & _ & Hv). apply bind_Ok_inv in Hv as (? & Hprod & _).
  rewrite He in Hprod. cbn in Hprod. apply bind_Ok_inv in Hprod as (? & _ & Hprod). apply bind_Ok_inv in Hprod as (? & Ht%guard_ok_Ok & Hprod).
  apply bind_Ok_inv in Hprod as (? & Hr%guard_ok_Ok & _). exists parsed. split_and!; [done| |by intros E; rewrite E in Hr].
  unfold verifiedTLS in Ht. destruct (Query parsed "sslmode") as [|mode [|]]; try done. by apply String.eqb_eq in Ht as ->.
Qed.

(** What a session that passes the check is allowed. *)
Definition least_privileged (s : session) : Prop :=
  rolsuper s = false ∧ rolcreaterole s = false ∧ rolcreatedb s = false ∧ rolreplication s = false ∧ rolbypassrls s = false.
Definition exact_privileges (s : session) : Prop :=
  has_schema_privilege s "vps_manager" "USAGE" = true ∧ has_schema_privilege s "vps_manager" "CREATE" = false ∧
  (∀ x, x ∈ required → has_table_privilege s x.1 x.2 = true) ∧ ∀ x, x ∈ forbidden → has_table_privilege s x.1 x.2 = false.

Lemma VerifyRuntime_Ok p identity privileges ping :
  VerifyRuntime p identity privileges ping = Ok tt →
  ∃ s s', identity = Some s ∧ privileges = Some s' ∧ (expectedRole p = "" ∨ current_user s = expectedRole p) ∧ (production p = true → ssl s = true) ∧
    least_privileged s ∧ exact_privileges s'.
Proof.
  intros Hv. unfold VerifyRuntime in Hv. apply bind_Ok_inv in Hv as (s & ->%of_option_Ok & Hv). apply bind_Ok_inv in Hv as (? & Hr%guard_ok_Ok & Hv).
  apply bind_Ok_inv in Hv as (? & Ht%guard_ok_Ok & Hv). apply bind_Ok_inv in Hv as (? & Hc%guard_ok_Ok & Hv).
  apply bind_Ok_inv in Hv as (s' & ->%of_option_Ok & Hv). cbv zeta in Hv. apply bind_Ok_inv in Hv as (? & Hq%guard_ok_Ok & Hv).
  apply bind_Ok_inv in Hv as (? & Hf%guard_ok_Ok & _). exists s, s'. split_and!; try done.
  - apply orb_true_iff in Hr as [?%String.eqb_eq|?%String.eqb_eq]; auto.
  - intros Hp. by rewrite Hp in Ht.
  - apply negb_true_iff in Hc. repeat apply orb_false_iff in Hc as [Hc ?]. done.
  - apply andb_true_iff in Hq as [[Hu Hall]%andb_true_iff _]. apply negb_true_iff, orb_false_iff in Hf as [Hcr Hex]. split_and!; try done.
    + intros y Hy%list_elem_of_In. rewrite forallb_forall in Hall. by apply Hall.
    + intros y Hy%list_elem_of_In. destruct (has_table_privilege s' y.1 y.2) eqn:E; [|done]. exfalso. rewrite <-not_true_iff_false in Hex. apply Hex, existsb_exists.
      by exists y.
Qed.

Lemma VerifyRuntime_ping p identity privileges ping : VerifyRuntime p identity privileges ping = Ok tt → ping = true.
Proof.
  intros Hv. unfold VerifyRuntime in Hv. do 7 (apply bind_Ok_inv in Hv as (? & _ & Hv); cbv zeta in Hv). by apply bind_Ok_inv in Hv as (? & Hv%guard_ok_Ok & _).
Qed.

Lemma required_not_forbidden x : x ∈ required → x ∉ forbidden.
Proof.
  assert (Forall (λ x, x ∉ forbidden) required) as Hall by (apply (bool_decide_eq_true_1 _); vm_compute; reflexivity).
  rewrite Forall_forall in Hall. apply Hall.
Qed.
End opened.

(** ** The property *)

(** C23: A repository that opens in production reaches the server
    with one TLS mode, verify-full, over a connection the server reports as TLS,
    as the expected role and without any of the listed cluster privileges.  Its
    role has every privilege of the required list, and none of the forbidden
    one.  The lists fit the repository: whatever the faults, a request of the
    interface inserts, updates or deletes rows of a table only if that privilege
    is required, so it never needs a forbidden one. *)
Theorem least_privilege `{Jsonb} `{Codec (gmap string string)} `{Codec Persistence.HostKeyPin} `{Collation}
    `{Codec CredentialMetadata} `{Codec CloudflareTokenMetadata} `{Codec persistedJobParameters} `{Codec persistedJobResult}
    `{Codec (option (list (string * value)))} url_Parse Query ParseConfig NewWithConfig c repository :
  (OpenPostgres url_Parse Query ParseConfig NewWithConfig c).2 = Ok repository → pc_Environment c = "production" →
  (∃ parsed, url_Parse (pc_URL c) = Some parsed ∧ Query parsed "sslmode" = ["verify-full"]) ∧
  (∃ pool s s', NewWithConfig pool = Some (Some s, Some s', true) ∧ current_user s = pc_ExpectedRole c ∧ ssl s = true ∧
     least_privileged s ∧ exact_privileges s') ∧
  (∀ i q d fs table verb, performs table verb d (db (pg_run i q (mkServer d fs)).1) → (table, verb) ∈ required ∧ (table, verb) ∉ forbidden).
Proof.
  intros Ho He. unfold OpenPostgres in Ho. destruct (Validate url_Parse Query c ≫= _) as [[[identity privileges] ping]|e] eqn:E; [|done].
  apply bind_Ok_inv in E as ([] & Hv & E). apply bind_Ok_inv in E as (parsed & _ & Hn%of_option_Ok).
  destruct (VerifyRuntime _ _ _ _) as [[]|e] eqn:Hr; [|done].
  destruct (production_url _ _ _ Hv He) as (u & Hu & Hm & Hx). pose proof (VerifyRuntime_ping _ _ _ _ Hr) as ->.
  destruct (VerifyRuntime_Ok _ _ _ _ Hr) as (s & s' & -> & -> & Hrole & Hs & Hl & Hp). cbn in Hrole, Hs. split_and!.
  - by exists u.
  - exists (settings c parsed), s, s'. split_and!; [done|by destruct Hrole| |done|done]. apply Hs. by rewrite He.
  - intros i q d fs table verb Hq. pose proof (performs_required _ _ _ _ (keeps_request i q (mkServer d fs)) Hq) as Hin.
    split; [done|]. by apply required_not_forbidden.
Qed.

Module OpenDemo.
Definition role : session :=
  mkSession "vps_manager_app" true false false false false false (λ _ privilege, privilege =? "USAGE")
    (λ table privilege, bool_decide ((table, privilege) ∈ required)) (λ _ _, true).
Definition config : PostgresConfig :=
  mkPostgresConfig "postgres://db.internal/vps?sslmode=verify-full" "production" "vps_manager_app" "" 0 0 0 false.
Definition parse (_ : string) : option URL := Some (mkURL "postgres" "db.internal" "db.internal" "" "" false "/vps" "sslmode=verify-full" "").
Definition query_of (_ : URL) (name : string) : list string := if name =? "sslmode" then ["verify-full"] else [].
Definition pool (_ : string) : option pool_settings := Some (mkPool "" 4 0 0).
Definition connect (r : session) (_ : pool_settings) : option (option session * option session * bool) := Some (Some r, Some r, true).

(** A role that may delete audit events does not start. *)
Definition meddler : session :=
  mkSession "vps_manager_app" true false false false false false (λ _ privilege, privilege =? "USAGE") (λ _ _, true) (λ _ _, true).
Example meddler_refused : OpenPostgres parse query_of pool (connect meddler) config =
  ([PoolOpened; PoolClosed], Err (Invalid "PostgreSQL application role has forbidden data privileges")).
Proof. vm_compute. reflexivity. Qed.
End OpenDemo.
Import (hints) DurableDemo.

Lemma least_privilege_witness :
  exact_privileges OpenDemo.role ∧
  ∀ d fs, ¬ performs "vps_manager.audit_events" "DELETE" d (db (pg_run "main" (QDeleteHost "host_1") (mkServer d fs)).1).
Proof.
  destruct (least_privilege OpenDemo.parse OpenDemo.query_of OpenDemo.pool (OpenDemo.connect OpenDemo.role) OpenDemo.config
    (mkPostgresRepository "vps_manager_app" true) eq_refl eq_refl) as (_ & (p & s & s' & Hn & _ & _ & _ & Hp) & Hq).
  injection Hn as _ <-. split; [exact Hp|]. intros d fs Hd. destruct (Hq _ _ _ _ _ _ Hd) as [_ Hf]. apply Hf.
  apply (bool_decide_eq_true_1 _). vm_compute. reflexivity.
Defined.
