(* ===== verification/ControlPlaneMain.v ===== *)
(** * The control-plane process

    [cmd/control-plane]: the network policy, the identity verifier, the
    dependencies of development and of production with the order in which they
    are opened and closed, and [run] up to the point where it serves; the
    access log with its status writer.  The operating system, the parsers of
    the standard library, the database, Redis and Vault are fields of the
    outside world. *)

From S2P Require Import Prelude GoStrings Encoding Url Environment Protocol ConnectorAuth SshConnector Analysis Identity Broker Gateway Credentials KeyManager Coordinator Persistence ConnectorClient Api PostgresOpen AiGateway.

(** ** What is opened and closed *)

Inductive resource := PostgresPool | RedisConnection | MemoryStore | ConnectorConnections.
#[global] Instance resource_eq : EqDecision resource.
Proof. solve_decision. Defined.
Inductive event := Opened (r : resource) | Closed (r : resource).
Inductive start_error := Message (m : string) | Storage (e : Persistence.error).

(** A step of the start: what it opened and closed, and its result. *)
Definition startup (A : Type) : Type := list event * result start_error A.
Definition lift {A} (r : result string A) : startup A := ([], match r with Ok a => Ok a | Err m => Err (Message m) end).
Definition lift_storage {A} (r : result Persistence.error A) : startup A := ([], match r with Ok a => Ok a | Err e => Err (Storage e) end).
(** The pool of the database, which [OpenPostgres] opens and may close. *)
Definition lift_pool {A} (m : list pool_event * result Persistence.error A) : startup A :=
  (map (λ e, match e with PoolOpened => Opened PostgresPool | PoolClosed => Closed PostgresPool end) m.1,
   match m.2 with Ok a => Ok a | Err e => Err (Storage e) end).
Definition opened (r : resource) : startup unit := ([Opened r], Ok tt).
Definition andThen {A B} (m : startup A) (f : A → startup B) : startup B :=
  match m.2 with Err e => (m.1, Err e) | Ok a => let r := f a in (m.1 ++ r.1, r.2) end.
(** The calls of an error branch before it returns. *)
Definition onError {A} (close : list event) (m : startup A) : startup A :=
  match m.2 with Err e => (m.1 ++ close, Err e) | Ok a => m end.
Notation "x ⇐ m ;; k" := (andThen m (λ x, k)) (at level 100, m at level 99, k at level 200, right associativity) : go_scope.

(** ** The outside world *)

Record outside (S : Type) := mkOutside {
  Getenv : string → string;
  LookupEnv : string → option string;
  url_Parse : string → option Url.URL;
  ToLower : string → string;
  ParseAddr : string → option Addr;
  ParseIP : string → option Addr;
  SplitHostPort : string → option (string * string);
  ParseDuration : string → option duration;
  sha256 : string → string;
  ReadFile : string → option string;
  AppendCertsFromPEM : string → bool;
  OpenFile : string → option File;
  Query : Url.URL → string → list string;
  ParseConfig : string → option pool_settings;
  NewWithConfig : pool_settings → option (option session * option session * bool);
  (* redis.ParseURL: the user name of the URL *)
  redis_ParseURL : string → option string;
  redis_server : S;
  redis_network : list delivery;
  redis_ping : bool;
  redis_reference : string;
  redis_random : option string;
  redis_times : nat → time;
  (* the clock and the random bytes of the development key *)
  stamp : string;
  random : option string;
}.
Arguments mkOutside {S}.
Arguments Getenv {S}. Arguments LookupEnv {S}. Arguments url_Parse {S}. Arguments ToLower {S}. Arguments ParseAddr {S}.
Arguments ParseIP {S}. Arguments SplitHostPort {S}. Arguments ParseDuration {S}. Arguments sha256 {S}. Arguments ReadFile {S}.
Arguments AppendCertsFromPEM {S}. Arguments OpenFile {S}. Arguments Query {S}. Arguments ParseConfig {S}. Arguments NewWithConfig {S}.
Arguments redis_ParseURL {S}. Arguments redis_server {S}. Arguments redis_network {S}. Arguments redis_ping {S}. Arguments redis_reference {S}.
Arguments redis_random {S}. Arguments redis_times {S}. Arguments stamp {S}. Arguments random {S}.

(** ** Policies of the configuration *)

(** [strings.EqualFold] with a word in ASCII. *)
Definition equal_fold (word s : string) : bool := match word_ci word (runes s) with Some [] => true | _ => false end.

Section configuration.
Context {S : Type} (w : outside S).

Definition loopbackListenAddress (value : string) : bool :=
  match SplitHostPort w value with
  | None => false
  | Some (host, _) =>
    equal_fold "localhost" host || match ParseIP w host with Some ip => IsLoopback ip | None => false end
  end.

Definition validateDevelopmentNetworkPolicy (listenAddress : string) (devMode allowDevNonLoopback allowPrivate : bool) : result string unit :=
  require negb (allowDevNonLoopback && negb devMode) else "VPSMGR_DEV_ALLOW_NON_LOOPBACK requires VPSMGR_DEV_MODE=true" ;;
  require negb (devMode && negb (loopbackListenAddress listenAddress) && negb allowDevNonLoopback)
    else "development authentication on a non-loopback listener requires VPSMGR_DEV_ALLOW_NON_LOOPBACK=true" ;;
  require negb (allowPrivate && negb devMode) else "the coarse private-target escape hatch is allowed only in development mode" ;;
  Ok tt.

Definition loadJobTimeout : result string duration := durationEnv (Getenv w) (ParseDuration w) "VPSMGR_JOB_TIMEOUT" (100 * second).

Definition decodePublicKey (value : string) : result string string :=
  let decoded := match raw_std_decode_strict value with Some d => Some d | None => std_decode_strict value end in
  let message := "VPSMGR_IDENTITY_PUBLIC_KEY must be a base64-encoded Ed25519 public key" in
  key ← of_option decoded message;
  require (slen key =? ed25519_PublicKeySize)%Z else message ;;
  Ok key.

(** [None] is a nil verifier. *)
Definition loadIdentityVerifier (devMode : bool) : result string (option Identity.Verifier) :=
  let issuer := trimmed_env (Getenv w) "VPSMGR_IDENTITY_ISSUER" in
  let audience := trimmed_env (Getenv w) "VPSMGR_IDENTITY_AUDIENCE" in
  let keyID := trimmed_env (Getenv w) "VPSMGR_IDENTITY_KEY_ID" in
  let encodedKey := trimmed_env (Getenv w) "VPSMGR_IDENTITY_PUBLIC_KEY" in
  if negb ((issuer ≠? "") || (audience ≠? "") || (keyID ≠? "") || (encodedKey ≠? "")) then
    if devMode then Ok None else Err "production mode requires the signed identity bridge configuration"
  else
    require negb ((issuer =? "") || (audience =? "") || (keyID =? "") || (encodedKey =? ""))
      else "VPSMGR_IDENTITY_ISSUER, VPSMGR_IDENTITY_AUDIENCE, VPSMGR_IDENTITY_KEY_ID and VPSMGR_IDENTITY_PUBLIC_KEY must be configured together" ;;
    key ← decodePublicKey encodedKey;
    verifier ← Identity.NewVerifier (Identity.mkConfig issuer audience keyID key 0);
    Ok (Some verifier).

Definition connectorRuntimeConfigured : bool :=
  (trimmed_env (Getenv w) "VPSMGR_CONNECTOR_HMAC_KEY" ≠? "") || (trimmed_env (Getenv w) "VPSMGR_CONNECTOR_HMAC_KEY_ID" ≠? "") ||
  (trimmed_env (Getenv w) "VPSMGR_CONNECTOR_URL" ≠? "") || (trimmed_env (Getenv w) "VPSMGR_CONNECTOR_UNIX_SOCKET" ≠? "").

Fixpoint trimmed_origins (l : list string) : result string (list string) :=
  match l with
  | [] => Ok []
  | origin :: l =>
    let origin := trim_space origin in
    require origin ≠? "" else "VPSMGR_WEBSSH_ALLOWED_ORIGINS contains an empty origin" ;;
    rest ← trimmed_origins l; Ok (origin :: rest)
  end.

Definition loadWebSSHConfig (devMode hasConnector : bool) : result string (option Endpoints) :=
  let publicURL := trimmed_env (Getenv w) "VPSMGR_WEBSSH_PUBLIC_URL" in
  if publicURL =? "" then Ok None
  else
    require negb (negb devMode || negb hasConnector) else "VPSMGR_WEBSSH_PUBLIC_URL requires development mode and an external Connector" ;;
    let originsRaw := trimmed_env (Getenv w) "VPSMGR_WEBSSH_ALLOWED_ORIGINS" in
    require originsRaw ≠? "" else "VPSMGR_WEBSSH_ALLOWED_ORIGINS is required when WebSSH is enabled" ;;
    origins ← trimmed_origins (split_char "," originsRaw);
    Ok (Some (mkEndpoints publicURL true origins (trimmed_env (Getenv w) "VPSMGR_CONNECTOR_URL")
      (trimmed_env (Getenv w) "VPSMGR_CONNECTOR_UNIX_SOCKET") (envOr (Getenv w) "VPSMGR_WEBSSH_CONNECTOR_ORIGIN" "http://127.0.0.1:8080"))).

Definition loadConnectorClientConfig : result string ClientConfig :=
  let unixSocket := trimmed_env (Getenv w) "VPSMGR_CONNECTOR_UNIX_SOCKET" in
  let baseURL := trimmed_env (Getenv w) "VPSMGR_CONNECTOR_URL" in
  let baseURL := if (unixSocket =? "") && (baseURL =? "") then "http://127.0.0.1:9081" else baseURL in
  let encoded := trimmed_env (Getenv w) "VPSMGR_CONNECTOR_HMAC_KEY" in
  let decoded := match std_decode_strict encoded with Some d => Some d | None => raw_std_decode_strict encoded end in
  let message := "VPSMGR_CONNECTOR_HMAC_KEY must be base64 encoded and contain at least 32 bytes" in
  key ← of_option decoded message;
  require (32 <=? slen key)%Z else message ;;
  Ok (mkClientConfig baseURL unixSocket (trimmed_env (Getenv w) "VPSMGR_CONNECTOR_HMAC_KEY_ID") key (100 * second) 0).

Definition loadConnectorClient : result string Client :=
  config ← loadConnectorClientConfig; NewClient (url_Parse w) (ParseAddr w) config.

(** ** Redis *)

Definition secureTLSConfig (caFile : string) : result string (option string) :=
  if caFile =? "" then Ok None
  else
    contents ← of_option (ReadFile w caFile) "read TLS CA file";
    require AppendCertsFromPEM w contents else "TLS CA file has no certificates" ;;
    Ok (Some contents).

Context `{RedisServer S}.

Definition OpenRedis (c : RedisConfig) (TLSCAFile : string) : startup (RedisCoordinator S) :=
  _ ⇐ lift_storage (RedisConfig_Validate c);;
  username ⇐ lift (of_option (redis_ParseURL w (Coordinator.URL c)) "parse Redis configuration");;
  _ ⇐ (if has_prefix "rediss://" (Coordinator.URL c) then lift (secureTLSConfig TLSCAFile) else lift (Ok None));;
  _ ⇐ lift (guard_ok (negb ((ExpectedUsername c ≠? "") && (username ≠? ExpectedUsername c)))
             "Redis URL username does not match expected ACL identity");;
  let coordinator := mkRedis (redis_server w) (coordinatorPrefix (sha256 w) (InstallationID c)) (redis_network w) in
  let '(coordinator, verified) :=
    Redis.VerifyRuntime (sha256 w) coordinator (redis_ping w) (redis_reference w) (redis_random w) (redis_times w) in
  _ ⇐ opened RedisConnection;;
  _ ⇐ onError [Closed RedisConnection] (lift verified);;
  lift (Ok coordinator).
End configuration.

(** ** Dependencies *)

(** What commands run on, who observes host keys and who reports readiness:
    the SSH connector in the process, or the external Connector. *)
Inductive Runner := LiveRunner | disabledRunner.
Definition disabledRunner_Run {A} : result string A := Err "credential decryption is unavailable in this process".
Record Collector := mkCollector { co_runner : Runner; co_allowPrivateTargets : bool }.
Inductive prober := LiveProber | protocolProber (client : Client).
Inductive probe := RedisProbe | ConnectorProbe (client : Client).
Inductive repository_kind := DevelopmentMemory | DurablePostgres (p : PostgresRepository) (installationID : string) (timeout : duration).
Inductive credential_service :=
| OpeningService (s : Service DevKMS DevKMS)
| SealingService (s : Service VaultTransit VaultTransit).

Record runtimeDependencies (S : Type) := mkDependencies {
  rd_repository : repository_kind;
  rd_credentialStore : credential_service;
  rd_collector : Collector;
  rd_prober : prober;
  rd_readiness : list probe;
  rd_connector : option Client;
  rd_redis : option (RedisCoordinator S);
  rd_installationID : string;
  rd_secretExecution : bool;
  rd_close : list event;
}.
Arguments mkDependencies {S}.
Arguments rd_repository {S}. Arguments rd_credentialStore {S}. Arguments rd_collector {S}. Arguments rd_prober {S}. Arguments rd_readiness {S}.
Arguments rd_connector {S}. Arguments rd_redis {S}. Arguments rd_installationID {S}. Arguments rd_secretExecution {S}. Arguments rd_close {S}.

Section dependencies.
Context {S : Type} (w : outside S) `{RedisServer S} `{GCM}.
(** The Vault server with the decoding of its answers. *)
Context (vault_Do : VaultRequest → option VaultResponse) (decodeCiphertext : string → option (string * string)).

Definition developmentDependencies (allowPrivate : bool) : startup (runtimeDependencies S) :=
  kms ⇐ lift (NewRandomDevKMS (stamp w) (random w));;
  credentialStore ⇐ lift (NewService (Some kms));;
  _ ⇐ opened MemoryStore;;
  protocolClient ⇐ (if connectorRuntimeConfigured w then
                      client ⇐ onError [Closed MemoryStore] (lift (loadConnectorClient w));;
                      _ ⇐ opened ConnectorConnections;;
                      lift (Ok (Some client))
                    else lift (Ok None));;
  lift (Ok (mkDependencies DevelopmentMemory (OpeningService credentialStore) (mkCollector LiveRunner allowPrivate) LiveProber
    (match protocolClient with Some client => [ConnectorProbe client] | None => [] end) protocolClient None "development" true
    (match protocolClient with Some _ => [Closed ConnectorConnections] | None => [] end ++ [Closed MemoryStore]))).

Definition vault_config : VaultConfig :=
  mkVaultConfig (Getenv w "VPSMGR_VAULT_ADDR") (envOr (Getenv w) "VPSMGR_VAULT_TRANSIT_MOUNT" "transit") (Getenv w "VPSMGR_VAULT_KEY_NAME")
    (Getenv w "VPSMGR_VAULT_NAMESPACE") "production" WrapOnly (Getenv w "VPSMGR_VAULT_TLS_CA_FILE") (10 * second) false.

Definition productionDependencies : startup (runtimeDependencies S) :=
  let installationID := trimmed_env (Getenv w) "VPSMGR_INSTALLATION_ID" in
  _ ⇐ lift (guard_ok (installationID ≠? "") "VPSMGR_INSTALLATION_ID is required in production");;
  postgres ⇐ lift_pool (OpenPostgres (url_Parse w) (Query w) (ParseConfig w) (NewWithConfig w)
    (mkPostgresConfig (Getenv w "VPSMGR_POSTGRES_URL") "production" (trimmed_env (Getenv w) "VPSMGR_POSTGRES_EXPECTED_ROLE")
       "vps-manager-control-plane" 0 0 (5 * second) false));;
  repository ⇐ onError [Closed PostgresPool] (lift (NewPostgres (Some postgres) installationID (5 * second)));;
  redis ⇐ onError [Closed PostgresPool] (OpenRedis w
    (mkRedisConfig (Getenv w "VPSMGR_REDIS_URL") installationID "production" (trimmed_env (Getenv w) "VPSMGR_REDIS_EXPECTED_USERNAME") false)
    (Getenv w "VPSMGR_REDIS_TLS_CA_FILE"));;
  let release := [Closed RedisConnection; Closed PostgresPool] in
  vault ⇐ onError release (lift (NewVaultTransit (url_Parse w) (sha256 w) (ReadFile w) (AppendCertsFromPEM w) vault_config
    (Some (Token (OpenFile w) false (Getenv w "VPSMGR_VAULT_TOKEN_FILE")))));;
  credentialStore ⇐ onError release
    (lift (@NewSealingService VaultTransit (Vault_wrapper (url_Parse w) vault_Do decodeCiphertext) VaultTransit (Some vault)));;
  connector ⇐ onError release (lift (loadConnectorClient w));;
  _ ⇐ opened ConnectorConnections;;
  lift (Ok (mkDependencies (DurablePostgres postgres repository.1 repository.2) (SealingService credentialStore)
    (mkCollector disabledRunner false) (protocolProber connector) [RedisProbe; ConnectorProbe connector] (Some connector) (Some redis)
    installationID false (Closed ConnectorConnections :: release))).

Definition loadRuntimeDependencies (devMode allowPrivate : bool) : startup (runtimeDependencies S) :=
  if devMode then developmentDependencies allowPrivate else productionDependencies.

(** ** [run], until the server listens *)

Record ControlPlane := mkControlPlane {
  cp_listenAddress : string;
  cp_config : Api.Config;
  cp_verifier : option Identity.Verifier;
  cp_analyzer : AIAnalyzer;
  cp_dependencies : runtimeDependencies S;
  cp_webSSH : option (GatewayConfig * Gateway);
  cp_cloudflare : bool;
}.

Definition is_some {A} (o : option A) : bool := match o with Some _ => true | None => false end.
(** The zero limits of a [websshgateway.Config] take their defaults. *)
Definition zero_limits : Broker.Config := Broker.mkConfig 0 0 0 0 0 0 0 0 0 0 0 0 0 0.

(** The configuration that [run] passes on.  The verifier and the Connector
    client are pointers stored in interface fields: also when they are nil the
    interfaces are not, so that the tests for nil of the handlers find them
    present. *)
Definition server_config (devMode allowPrivate : bool) (sessionTTL jobTimeout : duration) (mutations cloudflare : bool)
    (dependencies : runtimeDependencies S) : Api.Config :=
  Api.mkConfig devMode (Getenv w "VPSMGR_DEV_BOOTSTRAP_TOKEN") sessionTTL jobTimeout 0 allowPrivate true (rd_installationID dependencies)
    (rd_secretExecution dependencies) true false mutations cloudflare.

(** [api.NewServer] with the WebSSH gateway it builds in development mode. *)
Definition newServer (config : Api.Config) (connector : option Client) (webSSH : option Endpoints)
    : result string (Api.Config * option (GatewayConfig * Gateway)) :=
  accepted ← Api.NewServer config true (is_some connector) (is_some webSSH);
  match webSSH with
  | Some e =>
    if Api.HasWebSSH accepted then
      gateway ← Gateway.New (url_Parse w) (ToLower w) (ParseAddr w) e zero_limits; Ok (accepted, Some gateway)
    else Ok (accepted, None)
  | None => Ok (accepted, None)
  end.

(** The part of [run] with the deferred closing of the dependencies. *)
Definition run_server (listenAddress : string) (devMode allowPrivate : bool) (sessionTTL jobTimeout : duration) (mutations cloudflare : bool)
    (verifier : option Identity.Verifier) (analyzer : AIAnalyzer) (dependencies : runtimeDependencies S) : startup ControlPlane :=
  onError (rd_close dependencies)
    (webSSH ⇐ lift (loadWebSSHConfig w devMode (is_some (rd_connector dependencies)));;
     server ⇐ lift (newServer (server_config devMode allowPrivate sessionTTL jobTimeout mutations cloudflare dependencies)
                      (rd_connector dependencies) webSSH);;
     lift (Ok (mkControlPlane listenAddress server.1 verifier analyzer dependencies server.2 cloudflare))).

Definition run_control_plane : startup ControlPlane :=
  let listenAddress := envOr (Getenv w) "VPSMGR_LISTEN_ADDR" "127.0.0.1:8080" in
  devMode ⇐ lift (boolEnv (Getenv w) "VPSMGR_DEV_MODE" false);;
  allowPrivate ⇐ lift (boolEnv (Getenv w) "VPSMGR_ALLOW_PRIVATE_TARGETS" false);;
  allowDevNonLoopback ⇐ lift (boolEnv (Getenv w) "VPSMGR_DEV_ALLOW_NON_LOOPBACK" false);;
  _ ⇐ lift (validateDevelopmentNetworkPolicy w listenAddress devMode allowDevNonLoopback allowPrivate);;
  sessionTTL ⇐ lift (durationEnv (Getenv w) (ParseDuration w) "VPSMGR_SESSION_TTL" hour);;
  jobTimeout ⇐ lift (loadJobTimeout w);;
  mutationsEnabled ⇐ lift (boolEnv (Getenv w) "VPSMGR_ENABLE_MUTATIONS" false);;
  cloudflareExecutionEnabled ⇐ lift (boolEnv (Getenv w) "VPSMGR_ENABLE_CLOUDFLARE_EXECUTION" false);;
  aiAnalyzer ⇐ lift (NewFromLookup (url_Parse w) (ToLower w) (λ s, is_some (ParseIP w s)) (ParseDuration w) (LookupEnv w));;
  identityVerifier ⇐ lift (loadIdentityVerifier w devMode);;
  dependencies ⇐ loadRuntimeDependencies devMode allowPrivate;;
  run_server listenAddress devMode allowPrivate sessionTTL jobTimeout mutationsEnabled cloudflareExecutionEnabled identityVerifier aiAnalyzer
    dependencies.
End dependencies.

(** ** Probing through the Connector *)

Section prober.
Context (Parse : string → option Url.URL) (sha256 : string → string) (hmac : string → string → string)
  (Do : RunbookHandler.HttpRequest → option HttpAnswer).
Context `{JSON ErrorDetail, JSON HostKeyProbeRequest, JSON HostKeyProbeResponse, JSON HealthResponse}.

Definition prober_ProbeHostKey (c : Client) (address : string) (port : Z) (now : time) (nonce : option string)
    : result client_error Api.HostKeyObservation :=
  response ← client_ProbeHostKey Parse sha256 hmac Do c (mkProbeRequest "" (mkProbeTarget address port)) now nonce;
  Ok (Api.mkObservation (hp_Algorithm response) (hp_FingerprintSHA256 response) (hp_PublicKey response) (hp_ResolvedAddress response)).

Definition prober_VerifyRuntime (c : Client) : result string unit :=
  match client_Health Parse Do c with
  | Ok health =>
    if (he_Status health ≠? "ok") || (he_ProtocolVersion health ≠? ProtocolVersion)
    then Err "connector health or protocol version check failed" else Ok tt
  | Err _ => Err "connector health or protocol version check failed"
  end.
End prober.

(** ** The HTTP server and its access log *)

Record httpServer := mkHttpServer {
  hs_Addr : string; hs_ReadHeaderTimeout : duration; hs_ReadTimeout : duration; hs_WriteTimeout : duration; hs_IdleTimeout : duration;
  hs_MaxHeaderBytes : Z }.
Definition newControlPlaneHTTPServer (listenAddress : string) : httpServer :=
  mkHttpServer listenAddress (5 * second) (15 * second) (110 * second) (60 * second) 32768.

(** [sent] is what reached the response writer of [net/http]. *)
Record statusWriter := mkStatusWriter { status : Z; wroteHeader : bool; sent : list Z }.
Definition WriteHeader (w : statusWriter) (code : Z) : statusWriter :=
  if wroteHeader w then w else mkStatusWriter code true (sent w ++ [code]).
(** The header that [Write] adds. *)
Definition Write (w : statusWriter) : statusWriter := if wroteHeader w then w else WriteHeader w 200.

(** What a handler does to its response; [panicked] when it does not return. *)
Inductive write := CallWriteHeader (code : Z) | CallWrite.
Definition apply_write (w : statusWriter) (x : write) : statusWriter :=
  match x with CallWriteHeader code => WriteHeader w code | CallWrite => Write w end.

(** The response after the handler, with the status that is logged. *)
Definition accessLog (writes : list write) (panicked : bool) : statusWriter :=
  let response := foldl apply_write (mkStatusWriter 200 false []) writes in
  if panicked && negb (wroteHeader response) then Write (WriteHeader response 500) else response.

(** ** Lemmas: the steps of the start *)

Lemma andThen_Ok {A B} (m : startup A) (f : A → startup B) b : (andThen m f).2 = Ok b → ∃ a, m.2 = Ok a ∧ (f a).2 = Ok b.
Proof. unfold andThen. destruct (m.2) as [a|e]; [|done]. eauto. Qed.
Lemma onError_Ok {A} close (m : startup A) a : (onError close m).2 = Ok a → m.2 = Ok a.
Proof. unfold onError. destruct (m.2) eqn:E; [congruence|done]. Qed.
Lemma lift_Ok {A} (r : result string A) a : (lift r).2 = Ok a → r = Ok a.
Proof. destruct r; cbn; congruence. Qed.
Lemma lift_storage_Ok {A} (r : result Persistence.error A) a : (lift_storage r).2 = Ok a → r = Ok a.
Proof. destruct r; cbn; congruence. Qed.

Lemma lift_pool_Ok {A} (m : list pool_event * result Persistence.error A) a : (lift_pool m).2 = Ok a → m.2 = Ok a.
Proof. destruct m as [l []]; cbn; congruence. Qed.

(** How often a resource was opened more than closed. *)
Fixpoint held (r : resource) (l : list event) : Z :=
  match l with
  | [] => 0
  | Opened r' :: l => (if bool_decide (r = r') then 1 else 0) + held r l
  | Closed r' :: l => held r l - (if bool_decide (r = r') then 1 else 0)
  end.
Lemma held_app r l k : held r (l ++ k) = held r l + held r k.
Proof. induction l as [|[] l IH]; cbn; [done|lia..]. Qed.

(** A step that is started while [pre] is held: on an error nothing is held any
    more, else what [post] says. *)
Definition holds {A} (pre : resource → Z) (m : startup A) (post : A → resource → Z) : Prop :=
  ∀ r, match m.2 with Ok a => pre r + held r m.1 = post a r | Err _ => pre r + held r m.1 = 0 end.
Definition nothing : resource → Z := λ _, 0.

Lemma holds_andThen {A B} pre mid post (m : startup A) (f : A → startup B) :
  holds pre m mid → (∀ a, m.2 = Ok a → holds (mid a) (f a) post) → holds pre (andThen m f) post.
Proof.
  intros Hm Hf r. specialize (Hm r). unfold andThen. destruct (m.2) as [a|e] eqn:E; cbn; [|done].
  specialize (Hf a eq_refl r). rewrite held_app. destruct ((f a).2); lia.
Qed.
Lemma holds_lift {A} (r : result string A) : holds nothing (lift r) (λ _, nothing).
Proof. intros x. destruct r; done. Qed.
Lemma holds_lift_storage {A} (r : result Persistence.error A) : holds nothing (lift_storage r) (λ _, nothing).
Proof. intros x. destruct r; done. Qed.
Lemma holds_return {A} pre (a : A) : holds pre (lift (Ok a)) (λ _, pre).
Proof. intros x. cbn. lia. Qed.
Lemma holds_opened pre r : holds pre (opened r) (λ _ x, pre x + held x [Opened r]).
Proof. intros x. done. Qed.
Lemma holds_onError {A} pre close (m : startup A) post :
  holds nothing m post → (∀ r, pre r + held r close = 0) → holds pre (onError close m) (λ a r, pre r + post a r).
Proof.
  intros Hm Hc r. specialize (Hm r). specialize (Hc r). unfold onError, nothing in *. destruct (m.2) eqn:E; cbn; [rewrite E; lia|].
  rewrite held_app. lia.
Qed.
Lemma holds_weaken {A} pre (m : startup A) post post' :
  holds pre m post → (∀ a r, m.2 = Ok a → post a r = post' a r) → holds pre m post'.
Proof. intros Hm Hp r. specialize (Hm r). destruct (m.2) eqn:E; [|done]. rewrite <- Hp by done. done. Qed.

(** Steps that open nothing. *)
Ltac pure_step := eapply holds_andThen; [first [apply holds_lift | apply holds_lift_storage | apply holds_return] | intros ? _].

Lemma OpenPostgres_holds url_Parse Query ParseConfig NewWithConfig c :
  holds nothing (lift_pool (OpenPostgres url_Parse Query ParseConfig NewWithConfig c)) (λ _ r, held r [Opened PostgresPool]).
Proof.
  intros r. unfold OpenPostgres. destruct (_ ≫= _) as [[[identity privileges] ping]|e]; [|done].
  destruct (VerifyRuntime _ _ _ _); cbn; unfold nothing; lia.
Qed.

Section release.
Context {S : Type} (w : outside S) `{RedisServer S} `{GCM}.
Context (vault_Do : VaultRequest → option VaultResponse) (decodeCiphertext : string → option (string * string)).

Lemma OpenRedis_holds c caFile : holds nothing (OpenRedis w c caFile) (λ _ r, held r [Opened RedisConnection]).
Proof.
  unfold OpenRedis. pure_step. pure_step. eapply holds_andThen; [destruct (has_prefix _ _); apply holds_lift|]. intros ? _. pure_step.
  destruct (Redis.VerifyRuntime _ _ _ _ _ _) as [coordinator verified]. eapply holds_andThen; [apply holds_opened|]. intros ? _.
  eapply holds_andThen; [apply holds_onError; [apply holds_lift|]|].
  - intros r. unfold nothing. cbn. lia.
  - intros ? _. eapply holds_weaken; [apply holds_return|]. intros. unfold nothing. lia.
Qed.

(** What the dependencies hold is what closing them closes. *)
Definition closes (d : runtimeDependencies S) (r : resource) : Z := - held r (rd_close d).

Lemma development_holds allowPrivate : holds nothing (developmentDependencies w allowPrivate) closes.
Proof.
  unfold developmentDependencies. pure_step. pure_step. eapply holds_andThen; [apply holds_opened|]. intros ? _.
  eapply (holds_andThen _ (λ c r, held r [Opened MemoryStore] + match c with Some _ => held r [Opened ConnectorConnections] | None => 0 end)).
  - destruct (connectorRuntimeConfigured w).
    + eapply holds_andThen; [apply holds_onError; [apply holds_lift|]|]; [intros r; unfold nothing; cbn; lia|]. intros client _.
      eapply holds_andThen; [apply holds_opened|]. intros ? _. eapply holds_weaken; [apply holds_return|].
      intros x r E. cbn in E. simplify_eq. unfold nothing. lia.
    + eapply holds_weaken; [apply holds_return|]. intros x r E. cbn in E. simplify_eq. unfold nothing. lia.
  - intros client _. eapply holds_weaken; [apply holds_return|]. intros x r E. cbn in E. simplify_eq. unfold closes. cbn [rd_close].
    rewrite held_app. destruct client; cbn; lia.
Qed.

Lemma production_holds : holds nothing (productionDependencies w vault_Do decodeCiphertext) closes.
Proof.
  unfold productionDependencies. cbv zeta. pure_step. eapply holds_andThen; [apply OpenPostgres_holds|]. intros ? _.
  eapply holds_andThen; [apply holds_onError; [apply holds_lift|intros r; unfold nothing; cbn; lia]|]. intros ? _.
  eapply holds_andThen; [apply holds_onError; [apply OpenRedis_holds|intros r; unfold nothing; cbn; lia]|]. intros ? _.
  do 3 (eapply holds_andThen; [apply holds_onError; [apply holds_lift|intros r; unfold nothing; cbn; lia]|]; intros ? _).
  eapply holds_andThen; [apply holds_opened|]. intros ? _. eapply holds_weaken; [apply holds_return|].
  intros d r E. cbn in E. simplify_eq. unfold closes, nothing. cbn. lia.
Qed.

Lemma run_server_holds listen dev allow ttl timeout mutations cloudflare verifier analyzer d :
  holds (closes d) (run_server w listen dev allow ttl timeout mutations cloudflare verifier analyzer d) (λ cp, closes (cp_dependencies cp)).
Proof.
  unfold run_server. eapply holds_weaken.
  - apply holds_onError; [|intros r; unfold closes; lia]. pure_step. pure_step. apply holds_return.
  - intros cp r Ho%onError_Ok. apply andThen_Ok in Ho as (webSSH & _ & Ho). apply andThen_Ok in Ho as (server & _ & Ho%lift_Ok).
    injection Ho as <-. cbn. unfold nothing. lia.
Qed.

Lemma run_holds : holds nothing (run_control_plane w vault_Do decodeCiphertext) (λ cp, closes (cp_dependencies cp)).
Proof.
  unfold run_control_plane. cbv zeta. do 10 pure_step. eapply holds_andThen; [|intros d _; apply run_server_holds].
  unfold loadRuntimeDependencies. match goal with |- context [if ?b then _ else _] => destruct b end; [apply development_holds|apply production_holds].
Qed.
End release.

(** C14: starting the control plane leaks nothing.  Wherever the
    start fails (a variable, the database, Redis, Vault, the Connector, WebSSH or
    the server), everything that was opened before has been closed exactly once; and after a
    start that succeeds, what is open is exactly what the deferred closing closes. *)
Theorem start_releases {S} (w : outside S) `{RedisServer S} `{GCM} vault_Do decodeCiphertext r :
  match run_control_plane w vault_Do decodeCiphertext with
  | (events, Err _) => held r events = 0
  | (events, Ok cp) => held r (events ++ rd_close (cp_dependencies cp)) = 0
  end.
Proof.
  pose proof (run_holds w vault_Do decodeCiphertext r) as Hr. destruct (run_control_plane w vault_Do decodeCiphertext) as [events [cp|e]]; cbn in Hr.
  - rewrite held_app. unfold closes, nothing in Hr. lia.
  - exact Hr.
Qed.

(** ** Lemmas: what runs *)

Section runs.
Context {S : Type} (w : outside S) `{RedisServer S} `{GCM}.
Context (vault_Do : VaultRequest → option VaultResponse) (decodeCiphertext : string → option (string * string)).

Lemma NewServer_keeps c deps connector webssh c' : Api.NewServer c deps connector webssh = Ok c' →
  Api.DevMode c' = Api.DevMode c ∧ Api.DevBootstrapToken c' = Api.DevBootstrapToken c ∧ Api.AllowPrivateTargets c' = Api.AllowPrivateTargets c ∧
  Api.SecretExecutionEnabled c' = Api.DevMode c ∧ Api.HasWebSSH c' = (webssh && Api.DevMode c) ∧
  Api.HasIdentityVerifier c' = Api.HasIdentityVerifier c ∧ Api.HasRunbookConnector c' = Api.HasRunbookConnector c ∧
  (Api.DevMode c = true → 32 ≤ slen (Api.DevBootstrapToken c)) ∧ (0 < Api.SessionTTL c' ≤ 8 * hour) ∧
  (Api.cfg_InstallationID c ≠ "" → Api.cfg_InstallationID c' = Api.cfg_InstallationID c).
Proof.
  unfold Api.NewServer. intros H1. apply bind_Ok_inv in H1 as (? & _ & H1). apply bind_Ok_inv in H1 as (? & Hb%guard_ok_Ok & H1).
  apply bind_Ok_inv in H1 as (? & _ & H1). apply bind_Ok_inv in H1 as (? & _ & H1). apply bind_Ok_inv in H1 as (? & Ht%guard_ok_Ok%Z.leb_le & H1).
  apply bind_Ok_inv in H1 as (? & _ & [= <-]). cbn. apply negb_true_iff, andb_false_iff in Hb.
  do 7 (split; [done|]). split; [intros Hd; destruct Hb as [Hb|Hb]; [congruence|by apply Z.ltb_ge in Hb]|]. split.
  - split; [|done]. destruct (Z.leb_spec (Api.SessionTTL c) 0); [by vm_compute|done].
  - intros Hi. by rewrite (proj2 (String.eqb_neq _ _) Hi).
Qed.

(** The parts of a start that succeeded. *)
Lemma run_parts cp : (run_control_plane w vault_Do decodeCiphertext).2 = Ok cp →
  ∃ devMode allowPrivate allowDevNonLoopback ttl timeout mutations cloudflare webSSH,
    boolEnv (Getenv w) "VPSMGR_DEV_MODE" false = Ok devMode ∧
    boolEnv (Getenv w) "VPSMGR_DEV_ALLOW_NON_LOOPBACK" false = Ok allowDevNonLoopback ∧
    validateDevelopmentNetworkPolicy w (cp_listenAddress cp) devMode allowDevNonLoopback allowPrivate = Ok tt ∧
    NewFromLookup (url_Parse w) (ToLower w) (λ s, is_some (ParseIP w s)) (ParseDuration w) (LookupEnv w) = Ok (cp_analyzer cp) ∧
    loadIdentityVerifier w devMode = Ok (cp_verifier cp) ∧
    (loadRuntimeDependencies w vault_Do decodeCiphertext devMode allowPrivate).2 = Ok (cp_dependencies cp) ∧
    newServer w (server_config w devMode allowPrivate ttl timeout mutations cloudflare (cp_dependencies cp)) (rd_connector (cp_dependencies cp)) webSSH =
      Ok (cp_config cp, cp_webSSH cp).
Proof.
  unfold run_control_plane. cbv zeta. intros Hr. apply andThen_Ok in Hr as (dev & E1%lift_Ok & Hr). apply andThen_Ok in Hr as (allow & _ & Hr).
  apply andThen_Ok in Hr as (nl & E3%lift_Ok & Hr). apply andThen_Ok in Hr as ([] & E4%lift_Ok & Hr). apply andThen_Ok in Hr as (ttl & _ & Hr).
  apply andThen_Ok in Hr as (timeout & _ & Hr). apply andThen_Ok in Hr as (mu & _ & Hr). apply andThen_Ok in Hr as (cf & _ & Hr).
  apply andThen_Ok in Hr as (az & E5%lift_Ok & Hr). apply andThen_Ok in Hr as (v & E6%lift_Ok & Hr). apply andThen_Ok in Hr as (d & E7 & Hr).
  unfold run_server in Hr. apply onError_Ok in Hr. apply andThen_Ok in Hr as (webSSH & _ & Hr). apply andThen_Ok in Hr as ([c g] & E8%lift_Ok & Hr%lift_Ok).
  injection Hr as <-. exists dev, allow, nl, ttl, timeout, mu, cf, webSSH. by split_and!.
Qed.

Lemma newServer_Ok c connector webSSH c' g : newServer w c connector webSSH = Ok (c', g) →
  Api.NewServer c true (is_some connector) (is_some webSSH) = Ok c' ∧ (Api.DevMode c = false → g = None).
Proof.
  unfold newServer. intros (accepted & Ha & Hg)%bind_Ok_inv. pose proof (NewServer_keeps _ _ _ _ _ Ha) as (_ & _ & _ & _ & Hw & _).
  destruct webSSH as [e|]; [|by simplify_eq]. cbn in Hw. rewrite Hw in Hg. destruct (Api.DevMode c).
  - apply bind_Ok_inv in Hg as (? & _ & ?). by simplify_eq.
  - by simplify_eq.
Qed.

Lemma OpenRedis_Ok c caFile r : (OpenRedis w c caFile).2 = Ok r →
  RedisConfig_Validate c = Ok tt ∧ ∃ username, redis_ParseURL w (Coordinator.URL c) = Some username ∧
  (ExpectedUsername c = "" ∨ username = ExpectedUsername c) ∧ redis_ping w = true.
Proof.
  unfold OpenRedis. intros Hr. apply andThen_Ok in Hr as ([] & E1%lift_storage_Ok & Hr). apply andThen_Ok in Hr as (u & E2%lift_Ok%of_option_Ok & Hr).
  apply andThen_Ok in Hr as (? & _ & Hr). apply andThen_Ok in Hr as (? & E3%lift_Ok%guard_ok_Ok & Hr).
  destruct (Redis.VerifyRuntime _ _ _ _ _ _) as [coordinator verified] eqn:Ev. apply andThen_Ok in Hr as (? & _ & Hr).
  apply andThen_Ok in Hr as (? & E4%onError_Ok%lift_Ok & _). subst verified. split; [done|]. exists u. split; [done|].
  split.
  - apply negb_true_iff, andb_false_iff in E3 as [E3|E3]; apply negb_false_iff, String.eqb_eq in E3; auto.
  - unfold Redis.VerifyRuntime in Ev. destruct (redis_ping w); [done|]. cbn in Ev. by simplify_eq.
Qed.

Lemma production_redis c : RedisConfig_Validate c = Ok tt → Coordinator.Environment c = "production" →
  has_prefix "rediss://" (Coordinator.URL c) = true ∧ ExpectedUsername c ≠ "" ∧ ExpectedUsername c ≠ "default".
Proof.
  unfold RedisConfig_Validate. intros Hv He. do 4 (apply bind_Ok_inv in Hv as (? & _ & Hv)). rewrite He in Hv. cbn -[has_prefix String.eqb] in Hv.
  rewrite String.eqb_refl in Hv. apply bind_Ok_inv in Hv as (? & Ht%guard_ok_Ok & Hv). apply bind_Ok_inv in Hv as (? & Hu%guard_ok_Ok & _).
  reflect_bools. done.
Qed.

Lemma loadIdentityVerifier_production v : loadIdentityVerifier w false = Ok v →
  ∃ verifier, v = Some verifier ∧ slen (Identity.key verifier) = ed25519_PublicKeySize.
Proof.
  unfold loadIdentityVerifier. cbv zeta. destruct (negb (_ || _ || _ || _)); [done|]. intros Hv. apply bind_Ok_inv in Hv as (? & _ & Hv).
  apply bind_Ok_inv in Hv as (key & Hk & Hv). apply bind_Ok_inv in Hv as (verifier & Hn & [= <-]). exists verifier. split; [done|].
  unfold decodePublicKey in Hk. apply bind_Ok_inv in Hk as (d & _ & Hk). apply bind_Ok_inv in Hk as (? & Hl%guard_ok_Ok%Z.eqb_eq & [= <-]).
  unfold Identity.NewVerifier in Hn. cbv zeta in Hn. do 4 (apply bind_Ok_inv in Hn as (? & _ & Hn)). by injection Hn as <-.
Qed.
End runs.

(** ** Production *)

(** The storage, the credentials and the remote parts of a production start. *)
Record production_storage {S} (w : outside S) (d : runtimeDependencies S) : Prop := mkProductionStorage {
  ps_database : ∃ c p timeout,
    (OpenPostgres (url_Parse w) (Query w) (ParseConfig w) (NewWithConfig w) c).2 = Ok p ∧ pc_Environment c = "production" ∧
    rd_repository d = DurablePostgres p (rd_installationID d) timeout ∧ rd_installationID d ≠ "";
  ps_redis : has_prefix "rediss://" (Getenv w "VPSMGR_REDIS_URL") = true ∧
    ∃ username, redis_ParseURL w (Getenv w "VPSMGR_REDIS_URL") = Some username ∧ username ≠ "" ∧ username ≠ "default" ∧ redis_ping w = true;
}.
Record production_secrets {S} (w : outside S) `{GCM} (d : runtimeDependencies S) : Prop := mkProductionSecrets {
  pv_service : ∃ t service, rd_credentialStore d = SealingService service ∧
    NewVaultTransit (url_Parse w) (sha256 w) (ReadFile w) (AppendCertsFromPEM w) (vault_config w) t = Ok (wrapper service) ∧
    unwrapper service = None ∧ capability (wrapper service) = WrapOnly ∧
    ∀ Do decode envelope aad use,
      @Credentials.Open _ _ VaultTransit (Vault_unwrapper (url_Parse w) Do decode) service envelope aad (Some use) =
        (Err "credential decryption is unavailable in this process", None) ∧
      ∀ wrapped nonce, vault_UnwrapKey (url_Parse w) Do decode (wrapper service) wrapped nonce aad = Err "Vault identity is not permitted to unwrap keys";
}.
Record production_connector {S} (d : runtimeDependencies S) : Prop := mkProductionConnector {
  pn_client : ∃ client, rd_connector d = Some client ∧ rd_prober d = protocolProber client ∧ rd_readiness d = [RedisProbe; ConnectorProbe client];
  pn_runner : rd_collector d = mkCollector disabledRunner false;
  pn_execution : rd_secretExecution d = false;
}.

Lemma NewVaultTransit_capability Parse sha256 ReadFile Append c t v :
  NewVaultTransit Parse sha256 ReadFile Append c t = Ok v → capability v = Capability c.
Proof.
  unfold NewVaultTransit. intros Hv. do 3 (apply bind_Ok_inv in Hv as (? & _ & Hv)). by injection Hv as <-.
Qed.

Lemma production_dependencies {S} (w : outside S) `{RedisServer S} `{GCM} vault_Do decodeCiphertext d :
  (productionDependencies w vault_Do decodeCiphertext).2 = Ok d → production_storage w d ∧ production_secrets w d ∧ production_connector d.
Proof.
  unfold productionDependencies. cbv zeta. intros Hd. apply andThen_Ok in Hd as (? & Ei%lift_Ok%guard_ok_Ok & Hd).
  apply andThen_Ok in Hd as (p & Ep%lift_pool_Ok & Hd).
  apply andThen_Ok in Hd as ([i timeout] & En%onError_Ok%lift_Ok & Hd). apply andThen_Ok in Hd as (redis & Er%onError_Ok & Hd).
  apply andThen_Ok in Hd as (vault & Ev%onError_Ok%lift_Ok & Hd). apply andThen_Ok in Hd as (service & Es%onError_Ok%lift_Ok & Hd).
  apply andThen_Ok in Hd as (client & _ & Hd). apply andThen_Ok in Hd as (? & _ & Hd%lift_Ok). injection Hd as <-.
  apply negb_true_iff, String.eqb_neq in Ei. apply OpenRedis_Ok in Er as (Hv & u & Hu & Hm & Hp).
  apply production_redis in Hv as (Ht & Hn & Hd); [|done]. cbn [Coordinator.URL ExpectedUsername] in *.
  unfold NewPostgres in En. apply bind_Ok_inv in En as (? & _ & En). apply bind_Ok_inv in En as (? & _ & [= <- <-]).
  unfold NewSealingService in Es. destruct (kw_KeyID vault =? ""); [done|]. injection Es as <-.
  assert (capability vault = WrapOnly) as Hc by (by apply NewVaultTransit_capability in Ev).
  split; [constructor|split; constructor].
  - eexists _, p, _. split; [exact Ep|]. by split_and!.
  - split; [done|]. exists u. destruct Hm as [?|Hm]; [done|]. subst u. by split_and!.
  - eexists _, _. split; [done|]. split; [exact Ev|]. split; [done|]. split; [done|]. intros Do decode envelope aad use.
    split; [done|]. intros. unfold vault_UnwrapKey. cbn [wrapper]. by rewrite Hc.
  - by exists client.
  - done.
  - done.
Qed.

(** C13: a control plane that starts without development mode
    keeps every production rule at once.  It accepts no private targets and no
    terminals, and its identity bridge has an Ed25519 key.  Its database was
    opened as production, its Redis is reached over TLS by a dedicated user and
    passed the probe; its credentials are sealed by a Vault identity that may only wrap, so no
    credential can be opened by it, neither through the service nor by asking
    Vault; commands never run in the process and host keys are observed by
    the external Connector. *)
Theorem production_start {S} (w : outside S) `{RedisServer S} `{GCM} vault_Do decodeCiphertext events cp :
  run_control_plane w vault_Do decodeCiphertext = (events, Ok cp) → Api.DevMode (cp_config cp) = false →
  Api.AllowPrivateTargets (cp_config cp) = false ∧ Api.SecretExecutionEnabled (cp_config cp) = false ∧
  Api.HasWebSSH (cp_config cp) = false ∧ cp_webSSH cp = None ∧ Api.SessionTTL (cp_config cp) ≤ 8 * hour ∧
  (∃ verifier, cp_verifier cp = Some verifier ∧ slen (Identity.key verifier) = ed25519_PublicKeySize) ∧
  Api.cfg_InstallationID (cp_config cp) = rd_installationID (cp_dependencies cp) ∧
  production_storage w (cp_dependencies cp) ∧ production_secrets w (cp_dependencies cp) ∧ production_connector (cp_dependencies cp).
Proof.
  intros Hr Hdev. pose proof (f_equal snd Hr) as H2. cbn in H2.
  destruct (run_parts _ _ _ _ H2) as (dev & allow & nl & ttl & timeout & mu & cf & webSSH & _ & _ & Hpol & _ & Hid & Hd & Hs).
  apply newServer_Ok in Hs as [Hs Hg]. apply NewServer_keeps in Hs as (E1 & _ & E3 & E4 & E5 & _ & _ & _ & [_ Ettl] & E7).
  cbn in E1, E3, E4, E5, E7, Hg. rewrite Hdev in E1. subst dev. cbn in Hd.
  destruct (production_dependencies _ _ _ _ Hd) as (Hst & Hse & Hco).
  unfold validateDevelopmentNetworkPolicy in Hpol. apply bind_Ok_inv in Hpol as (? & _ & Hpol). apply bind_Ok_inv in Hpol as (? & _ & Hpol).
  apply bind_Ok_inv in Hpol as (? & Ha%guard_ok_Ok & _). rewrite andb_true_r in Ha. apply negb_true_iff in Ha.
  split_and!; try done; [congruence|by rewrite E5, andb_false_r|by apply Hg|by apply loadIdentityVerifier_production in Hid|].
  apply E7. by destruct Hst as [(? & ? & ? & _ & _ & _ & Hi) _].
Qed.

(** A production environment: every service answers. *)
Module ProductionDemo.
Definition key32 : string := "MDEyMzQ1Njc4OWFiY2RlZjAxMjM0NTY3ODlhYmNkZWY=".
Definition variables : list (string * string) :=
  [("VPSMGR_IDENTITY_ISSUER", "https://id.test"); ("VPSMGR_IDENTITY_AUDIENCE", "vps"); ("VPSMGR_IDENTITY_KEY_ID", "k1");
   ("VPSMGR_IDENTITY_PUBLIC_KEY", key32); ("VPSMGR_INSTALLATION_ID", "inst_main"); ("VPSMGR_POSTGRES_URL", "postgres://db.internal/vps");
   ("VPSMGR_POSTGRES_EXPECTED_ROLE", "vps_manager_app"); ("VPSMGR_REDIS_URL", "rediss://coordinator@redis.test");
   ("VPSMGR_REDIS_EXPECTED_USERNAME", "coordinator"); ("VPSMGR_VAULT_ADDR", "https://vault.test"); ("VPSMGR_VAULT_KEY_NAME", "credentials");
   ("VPSMGR_VAULT_TOKEN_FILE", "/run/vault/token"); ("VPSMGR_CONNECTOR_HMAC_KEY", key32); ("VPSMGR_CONNECTOR_HMAC_KEY_ID", "main");
   ("VPSMGR_CONNECTOR_UNIX_SOCKET", "/run/vps/connector.sock")].
Fixpoint get (l : list (string * string)) (name : string) : string :=
  match l with [] => "" | (k, v) :: l => if k =? name then v else get l name end.
Definition parse (s : string) : option Url.URL :=
  if has_prefix "postgres" s then OpenDemo.parse s else Some (mkURL "https" "vault.test" "vault.test" "" s false "" "" "").
Definition world_as (role : session) (vars : list (string * string)) : outside Table := mkOutside
  (get vars) (λ name, if get vars name =? "" then None else Some (get vars name)) parse id (λ _, None) (λ _, None)
  (λ s, if s =? "127.0.0.1:8080" then Some ("localhost", "8080") else None) (λ _, None) id (λ _, None) (λ _, false) (λ _, None)
  OpenDemo.query_of OpenDemo.pool (OpenDemo.connect role) (λ _, Some "coordinator") (∅ : Table) [] true "r1"
  (Some "0123456789abcdef0123456789abcdef") (λ n, Z.of_nat n) "t0" (Some "0123456789abcdef0123456789abcdef").
Definition world : list (string * string) → outside Table := world_as OpenDemo.role.
Definition start (vars : list (string * string)) : startup (ControlPlane (S := Table)) :=
  @run_control_plane Table (world vars) _ demo_gcm Transit.server Transit.decode.

(** Without the identity bridge the process does not start; when Vault is
    misconfigured, Redis and the database are closed, and so is the pool of a
    database role that may do too much. *)
Example no_identity : start (drop 4 variables) = ([], Err (Message "production mode requires the signed identity bridge configuration")).
Proof. vm_compute. reflexivity. Qed.
Example vault_refused : (start (("VPSMGR_VAULT_KEY_NAME", "a/b") :: variables)).1 =
  [Opened PostgresPool; Opened RedisConnection; Closed RedisConnection; Closed PostgresPool].
Proof. vm_compute. reflexivity. Qed.
Example database_refused : (@run_control_plane Table (world_as OpenDemo.meddler variables) _ demo_gcm Transit.server Transit.decode).1 = [Opened PostgresPool; Closed PostgresPool].
Proof. vm_compute. reflexivity. Qed.
Example redis_probe_fails : (start (("VPSMGR_REDIS_EXPECTED_USERNAME", "other") :: variables)).1 = [Opened PostgresPool; Closed PostgresPool].
Proof. vm_compute. reflexivity. Qed.
End ProductionDemo.

Lemma production_start_witness : ∃ events cp, ProductionDemo.start ProductionDemo.variables = (events, Ok cp) ∧ cp_webSSH cp = None ∧
  @production_secrets Table (ProductionDemo.world ProductionDemo.variables) demo_gcm (cp_dependencies cp).
Proof.
  assert (match ProductionDemo.start ProductionDemo.variables with (_, Ok cp) => Api.DevMode (cp_config cp) | _ => true end = false) as Hd
    by (vm_compute; reflexivity).
  destruct (ProductionDemo.start ProductionDemo.variables) as [events [cp|e]] eqn:E; [|discriminate Hd]. exists events, cp. split; [reflexivity|].
  destruct (@production_start Table (ProductionDemo.world ProductionDemo.variables) _ demo_gcm Transit.server Transit.decode events cp E Hd)
    as (_ & _ & _ & Hw & _ & _ & _ & _ & Hs & _). split; [exact Hw|exact Hs].
Defined.

(** ** Development *)

(** C15: development mode is confined, and what it announces.
    A control plane that starts in development mode listens on a loopback
    address unless the second switch was set explicitly, and its bootstrap token
    has at least 32 bytes; without configured Connector or identity bridge it has neither
    client nor verifier.  The handlers nevertheless find both present: the nil pointers are
    stored in interface fields, which are then not nil, so neither the answer
    that the Connector is unavailable nor the one that the identity bridge does
    not exist is given. *)
Theorem development_start {S} (w : outside S) `{RedisServer S} `{GCM} vault_Do decodeCiphertext events cp :
  run_control_plane w vault_Do decodeCiphertext = (events, Ok cp) → Api.DevMode (cp_config cp) = true →
  (loopbackListenAddress w (cp_listenAddress cp) = true ∨ boolEnv (Getenv w) "VPSMGR_DEV_ALLOW_NON_LOOPBACK" false = Ok true) ∧
  32 ≤ slen (Api.DevBootstrapToken (cp_config cp)) ∧ rd_repository (cp_dependencies cp) = DevelopmentMemory ∧
  (connectorRuntimeConfigured w = false → rd_connector (cp_dependencies cp) = None) ∧
  (trimmed_env (Getenv w) "VPSMGR_IDENTITY_ISSUER" = "" → trimmed_env (Getenv w) "VPSMGR_IDENTITY_AUDIENCE" = "" →
   trimmed_env (Getenv w) "VPSMGR_IDENTITY_KEY_ID" = "" → trimmed_env (Getenv w) "VPSMGR_IDENTITY_PUBLIC_KEY" = "" → cp_verifier cp = None) ∧
  Api.HasRunbookConnector (cp_config cp) = true ∧ Api.HasIdentityVerifier (cp_config cp) = true.
Proof.
  intros Hr Hdev. pose proof (f_equal snd Hr) as H2. cbn in H2.
  destruct (run_parts _ _ _ _ H2) as (dev & allow & nl & ttl & timeout & mu & cf & webSSH & _ & Hnl & Hpol & _ & Hid & Hd & Hs).
  apply newServer_Ok in Hs as [Hs _]. apply NewServer_keeps in Hs as (E1 & E2 & _ & _ & _ & E6 & E7 & E8 & _). cbn in E1, E2, E6, E7, E8.
  rewrite Hdev in E1. subst dev. cbn in Hd. unfold developmentDependencies in Hd. apply andThen_Ok in Hd as (kms & _ & Hd).
  apply andThen_Ok in Hd as (service & _ & Hd). apply andThen_Ok in Hd as (? & _ & Hd). apply andThen_Ok in Hd as (client & Hc & Hd%lift_Ok).
  injection Hd as <-. cbn [rd_repository rd_connector]. split; [|split; [|split; [done|split; [|split; [|done]]]]].
  - unfold validateDevelopmentNetworkPolicy in Hpol. apply bind_Ok_inv in Hpol as (? & _ & Hpol). apply bind_Ok_inv in Hpol as (? & Hl%guard_ok_Ok & _).
    cbn in Hl. destruct (loopbackListenAddress w _); [by left|right]. cbn in Hl. destruct nl; [done|discriminate].
  - rewrite E2. by apply E8.
  - intros Hn. rewrite Hn in Hc. cbn in Hc. by injection Hc as <-.
  - intros F1 F2 F3 F4. unfold loadIdentityVerifier in Hid. rewrite F1, F2, F3, F4 in Hid. cbn in Hid. by injection Hid as <-.
Qed.

Lemma development_start_witness :
  ∃ events cp, ProductionDemo.start [("VPSMGR_DEV_MODE", "true"); ("VPSMGR_DEV_BOOTSTRAP_TOKEN", "0123456789abcdef0123456789abcdef")] = (events, Ok cp) ∧
    rd_connector (cp_dependencies cp) = None ∧ cp_verifier cp = None ∧
    Api.HasRunbookConnector (cp_config cp) = true ∧ Api.HasIdentityVerifier (cp_config cp) = true.
Proof.
  pose (vars := [("VPSMGR_DEV_MODE", "true"); ("VPSMGR_DEV_BOOTSTRAP_TOKEN", "0123456789abcdef0123456789abcdef")]).
  assert (match ProductionDemo.start vars with (_, Ok cp) => Api.DevMode (cp_config cp) | _ => false end = true) as Hd by (vm_compute; reflexivity).
  change (∃ events cp, ProductionDemo.start vars = (events, Ok cp) ∧
    rd_connector (cp_dependencies cp) = None ∧ cp_verifier cp = None ∧
    Api.HasRunbookConnector (cp_config cp) = true ∧ Api.HasIdentityVerifier (cp_config cp) = true).
  destruct (ProductionDemo.start vars) as [events [cp|e]] eqn:E; [|discriminate Hd]. exists events, cp. split; [reflexivity|].
  destruct (@development_start Table (ProductionDemo.world vars) _ demo_gcm Transit.server Transit.decode events cp E Hd)
    as (_ & _ & _ & Hc & Hv & H1 & H2).
  split; [apply Hc; vm_compute; reflexivity|]. split; [apply Hv; vm_compute; reflexivity|]. split; [exact H1|exact H2].
Defined.

(** ** The access log *)

(** The status that is logged is the one the client gets: what the first call
    sent, 500 when the handler panicked before, 200 when nothing was written. *)
Lemma access_log_status writes panicked :
  let response := accessLog writes panicked in
  status response = default 200 (head (sent response)) ∧ (length (sent response) ≤ 1)%nat ∧
  (panicked = true → sent response ≠ []) ∧ (writes = [] → panicked = true → status response = 500).
Proof.
  assert (∀ l r, (if wroteHeader r then sent r = [status r] else r = mkStatusWriter 200 false []) →
    let r' := foldl apply_write r l in if wroteHeader r' then sent r' = [status r'] else r' = mkStatusWriter 200 false []) as Hw.
  { induction l as [|x l IH]; intros r Hr; [done|]. cbn. apply IH. destruct (wroteHeader r) eqn:E.
    - destruct x; cbn; unfold Write, WriteHeader; by rewrite !E.
    - subst r. by destruct x. }
  specialize (Hw writes (mkStatusWriter 200 false []) eq_refl). cbv zeta in *. unfold accessLog.
  destruct (foldl apply_write (mkStatusWriter 200 false []) writes) as [st wr se] eqn:Ef. cbn in Hw. destruct wr; cbn.
  - rewrite andb_false_r. cbn. rewrite Hw. split_and!; try (done || (cbn; lia)). intros ->. cbn in Ef. discriminate.
  - injection Hw as -> ->. destruct panicked; cbn; split_and!; (done || lia).
Qed.
