(* ===== verification/PostgresReads.v ===== *)
(** * Reading from the durable repository

    The refinement of file PostgresRefinement constrains the calls that
    succeed.  Here is when reads do: without faults, every read answers what
    the in-memory repository answers, also when there is nothing to find. *)

From S2P Require Import Prelude GoStrings ApiWorkers Encoding Json Persistence Postgres AuditTrail Credentials Protocol Model Store PostgresStore PostgresRefinement.

(** The requests that change nothing, with the identifiers they name. *)
Definition read_keys (q : request) : option (list string) :=
  match q with
  | QListHosts | QListJobs | QListWorkers => Some []
  | QGetHost id | QGetCredential id | QGetJob id | QGetWorker id | QGetWorkerToken id | QListWorkerVersions id | QListWorkerDeployments id => Some [id]
  | QGetWorkerVersion w v => Some [w; v]
  | QGetWorkerDeployment w d => Some [w; d]
  | _ => None
  end.

(** Both repositories give the same answer. *)
Definition same_answer (r r' : result store_error reply) : Prop :=
  match r, r' with Ok a, Ok b => agrees a b | Err e, Err e' => e = e' | _, _ => False end.

(** ** Lemmas: identifiers are texts *)

Lemma identifier_byte a : identifier_char a = true → byte_val a < 128 ∧ Ascii.eqb a nul = false.
Proof.
  intros Hi. assert (forallb (λ a, implb (identifier_char a) ((byte_val a <? 128)%Z && negb (Ascii.eqb a nul)))
    (map Ascii.ascii_of_nat (seq 0 256)) = true) as Hall by (vm_compute; reflexivity).
  rewrite forallb_forall in Hall. specialize (Hall a). rewrite Hi in Hall. cbn [implb] in Hall.
  apply andb_true_iff in Hall as [?%Z.ltb_lt ?%negb_true_iff]; [done|]. apply in_map_iff. exists (Ascii.nat_of_ascii a).
  split; [apply Ascii.ascii_nat_embedding|]. apply in_seq. pose proof (Ascii.nat_ascii_bounded a). lia.
Qed.

Lemma identifier_chars s : forallb identifier_char (String.list_ascii_of_string s) = true → all_chars is_ascii s = true ∧ contains_char nul s = false.
Proof.
  induction s as [|a s IH]; cbn [String.list_ascii_of_string forallb contains_char]; [done|]. intros [Ha Hs]%andb_true_iff.
  destruct (IH Hs) as [H1 H2]. destruct (identifier_byte a Ha) as [Hb Hn]. rewrite all_chars_String, H1, H2, Hn, andb_true_r.
  split; [|done]. by apply Z.ltb_lt.
Qed.

Lemma identifier_text s : identifierPattern s = true → text_value s = true.
Proof.
  destruct s as [|a s]; [done|]. unfold identifierPattern. intros [[Ha Hs]%andb_true_iff _]%andb_true_iff.
  assert (forallb identifier_char (String.list_ascii_of_string (String a s)) = true) as Hall.
  { cbn. rewrite Hs, andb_true_r. unfold identifier_char. by rewrite Ha. }
  destruct (identifier_chars _ Hall) as [H1 H2]. unfold text_value. by rewrite H2, ascii_valid.
Qed.

Lemma identifiers_texts l : Forall (λ s, identifierPattern s = true) l → texts l = true.
Proof. unfold texts. induction 1; cbn; [done|]. by rewrite identifier_text. Qed.

(** ** Lemmas: calls without faults *)

Section reads.
Context `{Jsonb} `{Codec (gmap string string)} `{Codec Persistence.HostKeyPin} `{Collation}.
Context `{Codec CredentialMetadata} `{Codec CloudflareTokenMetadata} `{Codec persistedJobParameters} `{Codec persistedJobResult}.
Context `{Codec (option (list (string * value)))}.
Context (i : string).

(** The outcome of a call that leaves a server without faults as it is. *)
Definition yields {E A} (m : M (result E A)) (d : database) (r : result E A) : Prop := m (mkServer d []) = (mkServer d [], r).

Lemma yields_query {E A B} ps (f : database → result pg_error A) (g : pg_error → E) (k : A → M (result E B)) d r :
  texts ps = true → match f d with Ok a => yields (k a) d r | Err e => r = Err (g e) end → yields (run a ← query_with ps f else g; k a) d r.
Proof.
  unfold yields. intros Ht Hf. rewrite or_fail_run. unfold query_with, query, stmt. cbn [next_fault faults db]. rewrite Ht.
  cbn [mbind result_bind guard_ok]. destruct (f d); cbn; [done|by rewrite Hf].
Qed.

Lemma yields_checked {B} label s (k : M (result Persistence.error B)) d r :
  identifierPattern s = true → yields k d r → yields (checked (validateIdentifier label s) k) d r.
Proof. intros Hs Hk. unfold validateIdentifier. by rewrite Hs. Qed.

Lemma yields_ret {E A} (r : result E A) d : yields (mret r) d r.
Proof. done. Qed.

Lemma yields_calling {A B} (m : M (result Persistence.error A)) (k : A → result store_error B) d r :
  yields m d r → yields (calling m (λ a, mret (k a))) d (match r with Ok a => k a | Err e => Err (mapPersistenceError e) end).
Proof. unfold yields, calling, mbind, M_bind. intros ->. by destruct r. Qed.

Lemma yields_answering {A} (f : A → reply) m d r : yields m d r → yields (answering f m) d (with_reply f r).
Proof. unfold yields, answering, mbind, M_bind. by intros ->. Qed.

Lemma yields_query_all {A B} ps (f : database → list A) (scan : A → result Persistence.error B) l1 l2 d items :
  texts ps = true → scan_all scan (f d) = Ok items → yields (query_all ps f scan l1 l2) d (Ok items).
Proof. intros Ht Hs. apply yields_query; [done|]. rewrite Hs. by apply (yields_query [] (λ _, Ok tt)). Qed.

Lemma scan_all_exists {A B} (scan : A → result Persistence.error B) l : (∀ a, a ∈ l → is_ok (scan a) = true) → ∃ items, scan_all scan l = Ok items.
Proof.
  induction l as [|a l IH]; intros Hl; [by eexists|]. destruct IH as [items Hi]; [set_solver|]. specialize (Hl a (list_elem_of_here _ _)).
  cbn. destruct (scan a) as [b|]; [|done]. cbn. rewrite Hi. by eexists.
Qed.
Lemma map_results_exists {A B E} (f : A → result E B) l : (∀ a, a ∈ l → is_ok (f a) = true) → ∃ items, map_results f l = Ok items.
Proof.
  induction l as [|a l IH]; intros Hl; [by eexists|]. destruct IH as [items Hi]; [set_solver|]. specialize (Hl a (list_elem_of_here _ _)).
  cbn. destruct (f a) as [b|]; [|done]. cbn. rewrite Hi. by eexists.
Qed.

Lemma ordered_elem {A} (le : relation A) `{!RelDecision le} limit l x : x ∈ ordered le limit l → x ∈ l.
Proof. unfold ordered. intros Hx%elem_of_take. destruct Hx as (n & Hx%list_elem_of_lookup_2 & _). by rewrite merge_sort_Permutation in Hx. Qed.

(** The call succeeds when the other does, and fails like it. *)
Definition tracks (m : Memory) (d : database) (q : request) : Prop :=
  ∃ r, yields (pg_run i q) d r ∧
    match r, (mem_run m q).2 with Ok _, Ok _ => True | Err e, Err e' => e = e' | _, _ => False end.

Lemma tracks_GetHost m d id :
  represents i d m → identifierPattern i = true → identifierPattern id = true → tracks m d (QGetHost id).
Proof.
  intros Hr Hi Hid. eexists. split.
  - apply yields_answering, yields_calling, yields_checked, yields_checked, yields_query; try done; [by apply identifiers_texts; repeat constructor|].
    instantiate (1 := match db_assets d !! (i, id) with Some row => scan_asset i id row | None => Err (mapPostgresError ErrNoRows) end).
    by destruct (db_assets d !! (i, id)).
  - pose proof (rep_hosts _ _ _ Hr id) as Ht. cbn. unfold GetHost. destruct (db_assets d !! (i, id)) as [row|], (hosts m !! id) as [h|]; try done.
    apply host_dec_Some in Ht as (asset & -> & _). done.
Qed.

(** A query for one row, decoded by [k]. *)
Lemma yields_row {R P A} ps (find : database → result pg_error R) (scan : R → P) (k : P → result store_error A) (f : A → reply) d :
  texts ps = true →
  yields (answering f (calling (run row ← query_with ps find else mapPostgresError; mret (Ok (scan row))) (λ x, mret (k x)))) d
    (with_reply f (match find d with Ok row => k (scan row) | Err e => Err (mapPersistenceError (mapPostgresError e)) end)).
Proof.
  intros Ht. apply yields_answering. eapply eq_trans; [apply yields_calling, yields_query; [done|]|].
  - instantiate (1 := match find d with Ok row => Ok (scan row) | Err e => Err (mapPostgresError e) end). by destruct (find d).
  - by destruct (find d).
Qed.

Lemma tracks_GetJob m d id : represents i d m → identifierPattern i = true → identifierPattern id = true → tracks m d (QGetJob id).
Proof.
  intros Hr Hi Hid. eexists. split; [apply yields_row; by apply identifiers_texts; repeat constructor|].
  pose proof (rep_jobs _ _ _ Hr id) as Ht. cbn. unfold GetJob.
  destruct (db_jobs d !! (i, id)) as [row|], (jobs m !! id) as [j|]; try done. cbn. by rewrite (job_dec_Some _ _ _ _ Ht).
Qed.

Lemma tracks_GetWorker m d id : represents i d m → identifierPattern i = true → identifierPattern id = true → tracks m d (QGetWorker id).
Proof.
  intros Hr Hi Hid. eexists. split; [apply (yields_row _ _ _ (λ w, Ok (persistenceToWorker w))); by apply identifiers_texts; repeat constructor|].
  pose proof (rep_workers _ _ _ Hr id) as Ht. cbn. unfold GetWorker. by destruct (db_workers d !! (i, id)) as [row|], (workers m !! id) as [j|].
Qed.

Lemma tracks_GetWorkerVersion m d w v :
  represents i d m → identifierPattern i = true → identifierPattern w = true → identifierPattern v = true → tracks m d (QGetWorkerVersion w v).
Proof.
  intros Hr Hi Hw Hv. eexists. split; [apply (yields_row _ _ _ (λ x, Ok (persistenceToWorkerVersion x))); by apply identifiers_texts; repeat constructor|].
  pose proof (rep_versions _ _ _ Hr v) as Ht. cbn. unfold GetWorkerVersion, version_of, version_row_of.
  destruct (db_versions d !! (i, v)) as [row|], (workerVersions m !! v) as [x|]; try done. destruct (version_dec_worker _ _ _ _ Ht) as [-> _].
  cbn. by destruct (vr_worker_id row =? w).
Qed.

Lemma tracks_GetWorkerDeployment m d w x :
  represents i d m → identifierPattern i = true → identifierPattern w = true → identifierPattern x = true → tracks m d (QGetWorkerDeployment w x).
Proof.
  intros Hr Hi Hw Hx. eexists. split; [apply (yields_row _ _ _ (λ x, Ok (persistenceToWorkerDeployment x))); by apply identifiers_texts; repeat constructor|].
  pose proof (rep_deployments _ _ _ Hr x) as Ht. cbn. unfold GetWorkerDeployment.
  destruct (db_deployments d !! (i, x)) as [row|], (workerDeployments m !! x) as [y|]; try done. injection Ht as <-. cbn.
  by destruct (dr_worker_id row =? w).
Qed.

(** The binding of a scope with its envelope. *)
Definition secret_of_scope (scope id : string) (d : database) : result pg_error (binding_row * envelope_row) :=
  b ← of_option (db_bindings d !! (i, scope, id)) ErrNoRows;
  e ← of_option (db_envelopes d !! (i, br_credential_id b, br_credential_version b)) ErrNoRows;
  Ok (b, e).

Lemma yields_secret {A} scope id (k : SecretBinding → result store_error A) (f : A → reply) d :
  texts [i; scope; id] = true →
  yields (answering f (calling (GetCurrentSecret i scope id) (λ x, mret (k x)))) d
    (with_reply f (match secret_of_scope scope id d with
       | Ok (b, e) => k (mkSecretBinding i scope id (br_credential_id b) (br_credential_version b)
                          (scan_envelope i (br_credential_id b) (br_credential_version b) e))
       | Err e => Err (mapPersistenceError (mapPostgresError e)) end)).
Proof.
  intros Ht. apply yields_answering. eapply eq_trans; [apply yields_calling, yields_query; [done|]|].
  - fold (secret_of_scope scope id d).
    instantiate (1 := match secret_of_scope scope id d with Ok (b, e) => Ok _ | Err e => Err (mapPostgresError e) end).
    destruct (secret_of_scope scope id d) as [[b e]|]; reflexivity.
  - by destruct (secret_of_scope scope id d) as [[b e]|].
Qed.

Lemma tracks_GetCredential m d id : represents i d m → identifierPattern i = true → identifierPattern id = true → tracks m d (QGetCredential id).
Proof.
  intros Hr Hi Hid. eexists. split; [apply yields_secret; by apply identifiers_texts; repeat constructor|].
  pose proof (rep_credentials _ _ _ Hr id) as Ht. cbn. unfold GetCredential, secret_of_scope.
  destruct (db_bindings d !! (i, SecretScopeHost, id)) as [b|], (credentials m !! id) as [c|]; try done. destruct Ht as (e & He & Hd).
  unfold credential_dec in Hd. cbn. rewrite He. cbn. destruct (unmarshal (er_metadata e)) as [x|]; [|done]. cbn in Hd. destruct (_ && _) eqn:Eb; [|done].
  apply andb_true_iff in Eb as [-> ->]. done.
Qed.

Lemma tracks_GetWorkerToken m d id : represents i d m → identifierPattern i = true → identifierPattern id = true → tracks m d (QGetWorkerToken id).
Proof.
  intros Hr Hi Hid. eexists. split; [apply yields_secret; by apply identifiers_texts; repeat constructor|].
  pose proof (rep_tokens _ _ _ Hr id) as Ht. cbn. unfold GetWorkerToken, secret_of_scope.
  destruct (db_bindings d !! (i, SecretScopeCloudflareWorker, id)) as [b|], (workerTokens m !! id) as [c|]; try done. destruct Ht as (e & He & Hd).
  unfold token_dec in Hd. cbn. rewrite He. cbn. destruct (unmarshal (er_metadata e)) as [x|]; [|done]. cbn in Hd. destruct (_ && _) eqn:Eb; [|done].
  apply andb_true_iff in Eb as [-> ->]. done.
Qed.

(** A listing whose rows all decode. *)
Lemma yields_listing {A B C} ps (rows : database → list A) (scan : A → result Persistence.error B) (k : list B → result store_error C) (f : C → reply)
    l1 l2 d :
  texts ps = true → (∀ a, a ∈ rows d → is_ok (scan a) = true) → (∀ items, scan_all scan (rows d) = Ok items → is_ok (k items) = true) →
  ∃ c, yields (answering f (calling (query_all ps rows scan l1 l2) (λ x, mret (k x)))) d (Ok (f c)).
Proof.
  intros Ht Hs Hk. destruct (scan_all_exists scan (rows d) Hs) as [items Hi]. specialize (Hk _ Hi). destruct (k items) as [c|] eqn:Ek; [|done].
  exists c. change (Ok (f c)) with (with_reply f (Ok c)). rewrite <-Ek. apply yields_answering.
  apply (yields_calling _ _ _ (Ok items)). by apply yields_query_all.
Qed.

Lemma tracks_listing m d q r : yields (pg_run i q) d (Ok r) → is_ok (mem_run m q).2 = true → tracks m d q.
Proof. intros Hy Hm. exists (Ok r). split; [done|]. by destruct ((mem_run m q).2). Qed.

(** A row of the installation decodes. *)
Lemma listed_decodes {R A} (dec : string → R → option A) t mm p (le : relation (string * R)) `{!RelDecision le} limit x :
  table_rep i dec t mm → x ∈ ordered le limit (rows_of i p t) → is_Some (dec x.1 x.2).
Proof.
  intros Ht Hx%ordered_elem. destruct x as [id r]. apply rows_of_elem in Hx as [Hx _]. destruct (rep_Some _ _ _ _ _ _ Ht Hx) as (a & _ & Ha). by exists a.
Qed.

Lemma texts_one s : identifierPattern s = true → texts [s] = true.
Proof. intros Hs. apply identifiers_texts. by repeat constructor. Qed.
Lemma texts_two s t : identifierPattern s = true → identifierPattern t = true → texts [s; t] = true.
Proof. intros Hs Ht. apply identifiers_texts. by repeat constructor. Qed.

Lemma tracks_ListHosts m d : represents i d m → identifierPattern i = true → tracks m d QListHosts.
Proof.
  intros Hr Hi. destruct (yields_listing [i]
    (λ d, ordered (by_created ar_created_at) MaxControlPlaneCollectionLen (rows_of i (λ _ _, true) (db_assets d)))
    (λ r, scan_asset i r.1 r.2) (λ l, Ok (map assetToHost l)) AHosts "list PostgreSQL assets" "iterate PostgreSQL assets" d) as [c Hc]; [by apply texts_one| |done|].
  - intros x Hx. destruct (listed_decodes _ _ _ _ _ _ _ (rep_hosts _ _ _ Hr) Hx) as [h Hh]. destruct (host_dec_Some _ _ _ _ Hh) as (a & -> & _). done.
  - eapply tracks_listing; [|done]. cbn [pg_run]. unfold pg_ListHosts, Postgres.ListAllAssets, validateIdentifier. rewrite Hi. exact Hc.
Qed.

Lemma tracks_ListJobs m d : represents i d m → identifierPattern i = true → tracks m d QListJobs.
Proof.
  intros Hr Hi. destruct (yields_listing [i]
    (λ d, ordered (by_created_desc jr_created_at) MaxControlPlaneCollectionLen (rows_of i (λ _ _, true) (db_jobs d)))
    (λ r, Ok (scan_job i r.1 r.2)) (map_results jobToModel) AJobs "list PostgreSQL jobs" "rows" d) as [c Hc]; [by apply texts_one|done| |].
  - intros items HF%scan_all_Ok. destruct (map_results_exists jobToModel items) as [js ->]; [|done]. intros p Hp.
    apply list_elem_of_lookup in Hp as [n Hp]. destruct (Forall2_lookup_r _ _ _ _ _ HF Hp) as (x & Hx%list_elem_of_lookup_2 & [= <-]).
    destruct (listed_decodes _ _ _ _ _ _ _ (rep_jobs _ _ _ Hr) Hx) as [j Hj]. by rewrite (job_dec_Some _ _ _ _ Hj).
  - eapply tracks_listing; [exact Hc|done].
Qed.

Lemma tracks_ListWorkers m d : identifierPattern i = true → tracks m d QListWorkers.
Proof.
  intros Hi. destruct (yields_listing [i]
    (λ d, ordered (by_created wr_created_at) MaxControlPlaneCollectionLen (rows_of i (λ _ _, true) (db_workers d)))
    (λ r, Ok (scan_worker i r.1 r.2)) (λ l, Ok (map persistenceToWorker l)) AWorkers "list PostgreSQL workers" "rows" d) as [c Hc]; try done;
    [by apply texts_one|]. eapply tracks_listing; [exact Hc|done].
Qed.

Lemma tracks_ListWorkerVersions m d w : identifierPattern i = true → identifierPattern w = true → tracks m d (QListWorkerVersions w).
Proof.
  intros Hi Hw. destruct (yields_listing [i; w]
    (λ d, ordered (by_created_desc vr_created_at) MaxControlPlaneCollectionLen (rows_of i (λ _ r, vr_worker_id r =? w) (db_versions d)))
    (λ r, Ok (scan_version i r.1 r.2)) (λ l, Ok (map (λ v, sv_Metadata (persistenceToWorkerVersion v)) l)) AVersions
    "list PostgreSQL worker versions" "rows" d) as [c Hc]; try done; [by apply texts_two|]. eapply tracks_listing; [exact Hc|done].
Qed.

Lemma tracks_ListWorkerDeployments m d w : identifierPattern i = true → identifierPattern w = true → tracks m d (QListWorkerDeployments w).
Proof.
  intros Hi Hw. destruct (yields_listing [i; w]
    (λ d, ordered (by_created_desc dr_created_at) MaxControlPlaneCollectionLen (rows_of i (λ _ r, dr_worker_id r =? w) (db_deployments d)))
    (λ r, Ok (scan_deployment i r.1 r.2)) (λ l, Ok (map persistenceToWorkerDeployment l)) ADeployments
    "list PostgreSQL worker deployments" "rows" d) as [c Hc]; try done; [by apply texts_two|]. eapply tracks_listing; [exact Hc|done].
Qed.

Lemma tracks_read m d q ids :
  represents i d m → identifierPattern i = true → read_keys q = Some ids → Forall (λ s, identifierPattern s = true) ids → tracks m d q.
Proof.
  intros Hr Hi Hq Hids. destruct q; try done; injection Hq as <-; decompose_Forall_hyps;
    auto using tracks_GetHost, tracks_ListHosts, tracks_GetCredential, tracks_GetJob, tracks_ListJobs, tracks_GetWorker, tracks_ListWorkers,
      tracks_GetWorkerToken, tracks_GetWorkerVersion, tracks_ListWorkerVersions, tracks_GetWorkerDeployment, tracks_ListWorkerDeployments.
Qed.

Lemma refined_read m d q ids : represents i d m → within_limit d → read_keys q = Some ids → refined i m q d ∧ rounded q = q.
Proof.
  intros Hr Hl Hq. destruct q; try done; (split; [|done]);
    auto using refined_GetHost, refined_ListHosts, refined_GetCredential, refined_GetJob, refined_ListJobs, refined_GetWorker, refined_ListWorkers,
      refined_GetWorkerToken, refined_GetWorkerVersion, refined_ListWorkerVersions, refined_GetWorkerDeployment, refined_ListWorkerDeployments.
Qed.
End reads.

(** ** The property *)

(** C24: Without faults, each read of the PostgreSQL repository by key or by
    listing, for hosts, credentials, jobs, workers, tokens, versions and deployments
    ([read_keys]; not [ListAudits], which cuts and orders the two repositories'
    events differently), with well-formed identifiers and with tables below the row
    limit of the listings, answers, and answers what the in-memory repository
    answers in the state that the rows represent: the same record, the same list up
    to the order of records created together, or the same error when there is none;
    neither the database nor the other repository changes. *)
Theorem durable_reads `{Jsonb} `{Codec (gmap string string)} `{Codec Persistence.HostKeyPin} `{Collation}
    `{Codec CredentialMetadata} `{Codec CloudflareTokenMetadata} `{Codec persistedJobParameters} `{Codec persistedJobResult}
    `{Codec (option (list (string * value)))} i d m q ids :
  represents i d m → within_limit d → read_keys q = Some ids → Forall (λ s, identifierPattern s = true) (i :: ids) →
  ∃ r r', pg_run i q (mkServer d []) = (mkServer d [], r) ∧ mem_run m q = (m, r') ∧ same_answer r r'.
Proof.
  intros Hr Hl Hq [Hi Hids]%Forall_cons. destruct (tracks_read i m d q ids Hr Hi Hq Hids) as (r & Hy & Ht).
  destruct (refined_read i m d q ids Hr Hl Hq) as [Hf Eq]. specialize (Hf []). rewrite Eq in Hf. rewrite Hy in Hf.
  assert ((mem_run m q).1 = m) as Em by (by destruct q). destruct (mem_run m q) as [m' r'] eqn:Er. cbn in Em, Ht. subst m'.
  exists r, r'. split_and!; [done|done|]. destruct r as [a|e]; [|by destruct r'].
  destruct Hf as (m'' & b & [= <- ->] & _ & Ha). done.
Qed.

Import DurableDemo.
Lemma durable_reads_witness :
  ∃ r r', pg_run "main" QListJobs (mkServer tables []) = (mkServer tables [], r) ∧ mem_run store QListJobs = (store, r') ∧ same_answer r r'.
Proof. apply (durable_reads "main" tables store QListJobs [] tables_represent tables_fit eq_refl). by repeat constructor. Defined.
