(* ===== verification/PostgresGaps.v ===== *)
(** * What the durable repository refuses and the in-memory one accepts

    The refinement of file PostgresRefinement lets the durable repository fail
    where the other succeeds.  Here are requests of the control plane that it
    never carries out, whatever the connection does: the checks of the schema
    and of the record validation reject rows that the application writes. *)

From S2P Require Import Prelude GoStrings Encoding Json Persistence Postgres AuditTrail Credentials Protocol Model Store PostgresStore PostgresRefinement ApiJobs.

Section gaps.
Context `{Jsonb} `{Codec (gmap string string)} `{Codec Persistence.HostKeyPin} `{Collation}.
Context `{Codec CredentialMetadata} `{Codec CloudflareTokenMetadata} `{Codec persistedJobParameters} `{Codec persistedJobResult}.
Context `{Codec (option (list (string * value)))}.
Context (i : string).

(** The request fails and changes nothing, with or without faults. *)
Definition refused (d : database) (q : request) : Prop :=
  ∀ fs, ∃ s e, pg_run i q (mkServer d fs) = (s, Err e) ∧ db s = d.

(** The request succeeds in memory. *)
Definition accepted (m : Memory) (q : request) : Prop := is_ok (mem_run m q).2 = true.

(** The callback of [finishQueuedCancellation]. *)
Definition queued_cancellation (now : time) (code message : string) : Job → result store_error Job :=
  transition JobCancelled (λ updated, set_error updated (Some (mkJobError code message))) now.

(** ** Lemmas *)

Lemma answering_refused {A} (f : A → reply) (inner : M (result store_error A)) d :
  (∀ fs, ∃ s e, inner (mkServer d fs) = (s, Err e) ∧ db s = d) → ∀ fs, ∃ s e, answering f inner (mkServer d fs) = (s, Err e) ∧ db s = d.
Proof. intros Hi fs. destruct (Hi fs) as (s & e & Hs & Hd). unfold answering, mbind, M_bind. rewrite Hs. by exists s, e. Qed.

Lemma cancelled_unstarted now code message j j' :
  j_State j = JobQueued → j_StartedAt j = None → j_FinishedAt j = None → queued_cancellation now code message j = Ok j' →
  j' = set_error (set_progress j JobCancelled (u64 (j_Version j + 1)) None (Some now)) (Some (mkJobError code message)).
Proof. intros Hq Hs Hf. unfold queued_cancellation, transition, TransitionJob. rewrite Hq. cbn. rewrite Hs. by intros [= <-]. Qed.

Lemma cancellation_refused m d id j now code message :
  represents i d m → jobs m !! id = Some j → j_State j = JobQueued → j_StartedAt j = None → j_FinishedAt j = None →
  job_kept (set_error (set_progress j JobCancelled (u64 (j_Version j + 1)) None (Some now)) (Some (mkJobError code message))) →
  refused d (QMutateJob id (queued_cancellation now code message)).
Proof.
  intros Hr Hj Hq Hs Hf Hk. refine (answering_refused _ _ _ _). intros fs. apply pg_MutateJob_never. apply never.
  apply unstarted_refused with (m := m); [done|]. intros j0 j' Hj0 Hc. rewrite Hj in Hj0. injection Hj0 as <-.
  rewrite (cancelled_unstarted _ _ _ _ _ Hq Hs Hf Hc). by split_and!.
Qed.
End gaps.

(** ** The property *)

(** C25: Four requests that succeed on the in-memory repository fail
    on the PostgreSQL one.  (1) An audit event without details is never written,
    since the document [null] is not an object; (2) a host without labels is
    never created, for the same reason; (3) a queued job that never started
    cannot be cancelled, since the schema wants a start time beside a finish
    time.  Each of the three fails under any faults and leaves the database as
    it was.  (4) A host that a job refers to is never deleted, but without faults
    the attempt removes its credential, and only that. *)
Theorem durable_gaps `{Jsonb} `{Codec (gmap string string)} `{Codec Persistence.HostKeyPin} `{Collation}
    `{Codec CredentialMetadata} `{Codec CloudflareTokenMetadata} `{Codec persistedJobParameters} `{Codec persistedJobResult}
    `{Codec (option (list (string * value)))} i d m :
  JsonbLaws → represents i d m → marshal (None : option (list (string * value))) = Some "null" →
  (∀ e, ae_Details e = None → accepted m (QAppendAudit e) ∧ refused i d (QAppendAudit e)) ∧
  (∀ h, h_Labels h = None → hosts m !! h_ID h = None → accepted m (QCreateHost h) ∧ refused i d (QCreateHost h)) ∧
  (∀ id j now code message, jobs m !! id = Some j → j_State j = JobQueued → j_StartedAt j = None → j_FinishedAt j = None →
     job_kept (set_error (set_progress j JobCancelled (u64 (j_Version j + 1)) None (Some now)) (Some (mkJobError code message))) →
     accepted m (QMutateJob id (queued_cancellation now code message)) ∧ refused i d (QMutateJob id (queued_cancellation now code message))) ∧
  (∀ id h c job j, hosts m !! id = Some h → credentials m !! id = Some c → jobs m !! job = Some j → j_HostID j = id →
     accepted m (QDeleteHost id) ∧ (∀ fs, ∃ s e, pg_run i (QDeleteHost id) (mkServer d fs) = (s, Err e)) ∧
     (identifierPattern i = true → identifierPattern id = true → texts [i; id] = true →
      represents i (db (pg_run i (QDeleteHost id) (mkServer d [])).1) (with_credentials m (delete id (credentials m))))).
Proof.
  intros HJ Hr Hm. split_and!.
  - intros e He. split; [done|]. refine (answering_refused _ _ _ (never _ _ _)). by apply null_details_refused.
  - intros h Hl Hn. split; [unfold accepted; cbn; unfold CreateHost; by rewrite Hn|]. refine (answering_refused _ _ _ (never _ _ _)). by apply null_labels_refused.
  - intros id j now code message Hj Hq Hs Hf Hk. split; [|by apply (cancellation_refused i m d id j)].
    unfold accepted. cbn. unfold MutateJob. rewrite Hj, cloneJob_id. unfold queued_cancellation, transition, TransitionJob. by rewrite Hq.
  - intros id h c job j Hh Hc Hj Hid. assert (∃ job j, jobs m !! job = Some j ∧ j_HostID j = id) as Hx by eauto. split_and!.
    + unfold accepted. cbn. unfold DeleteHost. by rewrite Hh.
    + intros fs. destruct (DeleteHost_referred i m d id h c fs Hr Hh Hc Hx) as (s & e & Hs). exists s, e. cbn. unfold answering, mbind, M_bind. by rewrite Hs.
    + intros Pi Pid Ht. cbn. unfold answering, mbind, M_bind. pose proof (DeleteHost_loses i m d id h c Hr Hh Hc Hx Pi Pid Ht) as Hl.
      by destruct (pg_DeleteHost i id (mkServer d [])).
Qed.

Import DurableDemo.

(** A queued job whose session was revoked, and its host. *)
Lemma durable_gaps_witness :
  refused "main" tables (QAppendAudit (mkAuditEvent "audit_1" 4000 "ops" "owner" "host.deleted" "host" "host_1" "success" "" None)) ∧
  refused "main" tables (QCreateHost (mkHost "host_2" "db" "192.0.2.2" 22 "deploy" None None 1 4000 4000)) ∧
  refused "main" tables (QMutateJob "job_1" (queued_cancellation 4000 "authorization_revoked" "revoked")) ∧
  represents "main" (db (pg_run "main" (QDeleteHost "host_1") (mkServer tables [])).1) (with_credentials store (delete "host_1" (credentials store))).
Proof.
  destruct (durable_gaps "main" tables store demo_laws tables_represent eq_refl) as (Ha & Hh & Hj & Hd). split_and!.
  - by apply Ha.
  - by apply Hh.
  - apply (Hj "job_1" DurableDemo.job); try done. by apply job_stays.
  - eapply (Hd "host_1" DurableDemo.host DurableDemo.credential "job_1" DurableDemo.job); vm_compute; reflexivity.
Defined.
